(* ===== verification/_CoqProject ===== *)
-Q . S2P
Prelude.v
PyCore.v
PyValue.v
PyState.v
Schedule.v
ScheduleFacts.v
ScheduleProps.v
Control.v
ControlFacts.v
ControlProps.v
Worker.v
WorkerProps.v
Trace.v
TraceProps.v
Tools.v
ToolsProps.v
Json.v
JsonParse.v
Sha.v
Sql.v
Security.v
SecurityProps.v
AuditProps.v
Knowledge.v
KnowledgeProps.v
KnowledgePaths.v
Jobs.v
Orchestrate.v
OrchestrateProps.v
Shell.v
Members.v
Fleet.v
FleetFacts.v
FleetProps.v
Compat.v
CompatProps.v
Upgrade.v
UpgradeFacts.v
UpgradeProps.v
Evidence.v
EvidenceProps.v
Replicate.v
ReplicateProps.v
Api.v
ApiProps.v
Explore.v
ExploreProps.v
Corpus.v
CorpusFacts.v
CorpusProps.v
Campaign.v
CampaignProps.v
Backup.v
BackupFacts.v
BackupProps.v
Difflib.v
Triage.v
TriageProps.v
Target.v
TargetProps.v
PyFloat.v
Prioritize.v
PrioritizeProps.v
Hypothesize.v
HypothesizeProps.v
Observe.v
ObserveProps.v
