(* ===== verification/Prelude.v ===== *)
(** * PPC Lab verification library

    PPC Lab runs and studies PowerPC programs.  Its engine is a C++ tool, [ppc-lab]; around it Python
    scripts under [src/scripts/] queue, schedule, distribute, analyse and keep what the tool produces.
    This library models those scripts and proves what they guarantee.

    ** How the program fits together

    A client submits scheduler manifests to the _control plane_ ([ppc_lab_control.py]), whose server
    starts at most [--max-active] runs of the _campaign scheduler_ ([ppc_lab_schedule.py]); a run
    shares the machine among the campaigns of its manifest.  Single executions are JSON jobs: a
    _worker_ ([ppc_lab_worker.py]) turns a job into a [ppc-lab] command line and answers with a
    response document; the _orchestrator_ ([ppc_lab_orchestrate.py]) runs a manifest of jobs in
    parallel on one machine, and the _fleet_ ([ppc_lab_fleet.py]) on several hosts over SSH, both with
    reuse of earlier records.  Traces are captured, analysed and compared by the _trace scripts_
    ([ppc_trace_*.py]), dumps and snapshots by small _tools_.  Results are kept in the _evidence
    store_ ([ppc_lab_evidence.py]) under the digest of their canonical text, and connected in the
    _knowledge graph_ ([ppc_lab_knowledge.py]); _replication_ ([ppc_lab_replicate.py]) carries both to
    other sites as verified bundles.  The _HTTP API_ ([ppc_lab_api.py]) runs jobs and reads evidence for
    remote clients; _tokens and the audit log_ ([ppc_lab_security.py]) protect it.  _Exploration_
    ([ppc_lab_explore.py]) varies the fields of a job and follows what is novel, a _corpus_
    ([ppc_lab_corpus.py]) keeps cases with their expected behaviour, and _campaigns_
    ([ppc_lab_campaign.py]) compose exploration, corpus, triage and evidence with checkpoints.
    _Priorities_ ([ppc_lab_prioritize.py]) rank the cases of an exploration, _hypotheses_
    ([ppc_lab_hypothesize.py]) say what its axes mean and which exploration would tell.
    _Triage_ ([ppc_lab_triage.py]) compares two executions of a job, and _target profiles_
    ([ppc_lab_target.py]) package what is known of a program without the program.
    _Compatibility_ snapshots ([ppc_lab_compat.py]) state the public surface of a release, _upgrades_
    ([ppc_lab_upgrade.py]) install one transactionally, and _backups_ ([ppc_lab_backup.py]) protect and
    restore the state of a platform: its stores, corpora and control plane.  _Observations_
    ([ppc_lab_observe.py]) sample a control plane and its host and judge their health and capacity.

    ** The files

    Shared vocabulary:
    - [Prelude]: tactics, the hint database [ppc], Python's ordering as the class [PyOrd] with stable
      sorting ([py_sorted]) and [min], list, option and permutation lemmas.
    - [PyCore]: Python values ([value]: JSON documents), exceptions and the result type [res], binary64
      floats ([spec_float]), strings and their methods.
    - [PyValue]: dynamic access to documents ([vget], [py_int], [py_str], [py_eq], [py_bool]) with the
      exceptions Python raises, and insertion-ordered dictionaries ([dget], [dset], [ddel]).
    - [PyState]: the state and exception monad [M] and its weakest precondition [wp].
    - [Json]: [json.dumps] of documents, and that canonical text determines the document.
    - [JsonParse]: [json.loads] as a parser with fuel, that its fuel is always enough, and that it reads
      back what the writers of [Json] write.
    - [PyFloat]: [sum], [math.fsum], means and quotients of floats as CPython computes them.
    - [Members]: names of archive members: paths, their parts and prefixes, hexadecimal digests.
    - [Difflib]: [difflib.SequenceMatcher] without junk: longest matches, matching blocks and opcodes.
    - [Sql]: [LIKE] patterns and the binding of integers, as SQLite has them.
    - [Sha]: SHA-256, SHA-1, HMAC, PBKDF2 and base64, with the published test vectors.

    Components; each file of definitions is followed by its facts and its properties:
    - [Schedule], [ScheduleFacts], [ScheduleProps]: [ppc_lab_schedule.py].  [validate_manifest],
      [load_state], [choose_next] and the loop of [main] keep their names; the state of the loop is a
      record, one iteration is a function of it and of a [tick], what the iteration observes.
    - [Control], [ControlFacts], [ControlProps]: [ppc_lab_control.py].  The record [plane] is the
      control root: items, history, telemetry, markers, lock.  Every command and the server's turn are
      definitions; [host_step] interleaves them.
    - [Worker], [WorkerProps]: [ppc_lab_worker.py]: [build_run_args], [run_job], the stream loop.
    - [Trace], [TraceProps]: [ppc_trace_capture.py], [ppc_trace_intelligence.py],
      [ppc_trace_analyze.py], [ppc_trace_diff.py].
    - [Tools], [ToolsProps]: [compare_ppc_dump.py], [ppc_result_inspect.py], [ppc_runtime_call.py],
      [ppc_snapshot_diff.py], [ppc_lab_batch.py].
    - [Security], [SecurityProps], [AuditProps]: [ppc_lab_security.py].  Module [Store] is the token
      file, module [Audit] the log as a list of lines.
    - [Knowledge], [KnowledgeProps], [KnowledgePaths]: [ppc_lab_knowledge.py].  The record [graph] holds
      the SQLite tables; [G] is the monad of statements with the schema's conflict clauses and
      foreign keys; the relations harvested from each kind of document, the queries, the two
      breadth-first searches and the export are definitions.
    - [Evidence], [EvidenceProps]: [ppc_lab_evidence.py].  The record [store] is the database, if there
      is one, and the object files by path; [transaction] takes back rows but not files.
    - [Replicate], [ReplicateProps]: [ppc_lab_replicate.py].  The record [site] holds the state, receipts
      and archived histories; [world] adds the stores of [Evidence] and [Knowledge] an import merges into.
    - [Api], [ApiProps]: [ppc_lab_api.py].  [handle] is one request on a [world] of the audit log, the
      answers, the commands run and the unread input; [start] is the checks of [main].
    - [Explore], [ExploreProps]: [ppc_lab_explore.py].  The record [search] is what the closures of [main]
      share, [evaluate] one case, [search_loop] the loop of the guided strategies.
    - [Corpus], [CorpusFacts], [CorpusProps]: [ppc_lab_corpus.py].  The record [corpus] is the directory,
      [world] adds the worker's runs; [execute] is one command, [main] a command with its exit code.
    - [Campaign], [CampaignProps]: [ppc_lab_campaign.py].  The record [world] is the checkpoint, the other
      documents and the commands that ran; [make_plan] reads the manifest, [stage] wraps each of the five
      stages, [campaign] is a run.
    - [Backup], [BackupFacts], [BackupProps]: [ppc_lab_backup.py].  The record [platform] has the roots of
      the components as trees of files; [create_backup], [read_and_verify], [restore_backup] (each of
      whose operations may fail: [attempt]) and [main] keep their names.
    - [Triage], [TriageProps]: [ppc_lab_triage.py]: [compare_traces], [stable_snapshot_diff], the bundle
      with its reduced job, and the two commands.
    - [Target], [TargetProps]: [ppc_lab_target.py]: [validate_profile], the skeleton of a new profile and
      the packing of a profile directory.
    - [Prioritize], [PrioritizeProps]: [ppc_lab_prioritize.py].  An [exploration] is its directory;
      [rank_cases], [analyze_axes] and [find_plateau] make the report of [prioritize].
    - [Hypothesize], [HypothesizeProps]: [ppc_lab_hypothesize.py]: [classify], [confidence] and
      [suggested_values] make the hypotheses of [analyze]; [promote] and the experiments read its report.
    - [Observe], [ObserveProps]: [ppc_lab_observe.py].  The record [machine] is what the script sees of
      the control tool and the host, [place] is the directory of observations; [collect] makes an observation,
      [build_report], [health_alerts] and [capacity_report] read them, [main] is a command with its exit code.
    - [Jobs]: what the two job runners share: files and fingerprints, names of result files, records.
    - [Orchestrate], [OrchestrateProps]: [ppc_lab_orchestrate.py]: [_load_manifest], [prepare],
      [plan_all], [execute_all] in a given order of completion, [run_items] and [main].
    - [Shell]: [shlex.quote], [shlex.join], lexical POSIX paths, and a reference splitter [sh_words].
    - [Fleet], [FleetFacts], [FleetProps]: [ppc_lab_fleet.py]: manifest, probes, staging, the worker's
      answer and its classification, and the threads of the pool: [step] is one step of one thread,
      with a semaphore per host, and [run_steps] follows any schedule.
    - [Compat], [CompatProps]: [ppc_lab_compat.py]: the regular expressions over the build files,
      [build_snapshot], [compare], [check].
    - [Upgrade], [UpgradeFacts], [UpgradeProps]: [ppc_lab_upgrade.py]: verification of release
      archives, channel policy, and [apply_release] and [rollback] on a tree of files ([tree], a
      finite map) whose operations may each fail ([operate]).

    ** What the theorems show

    - Inputs: an accepted scheduler manifest is well-formed; a worker never turns a job's strings into
      options and reads only below its root; scopes normalise to exactly what is granted; a command
      sent over SSH is split by the remote shell into the words it was made of; a request to the API is
      decided and recorded once before it runs at most one command its credentials permit.
    - Safety in every history: the scheduler's caps and budgets, the control plane's bound and its one
      history record per finished item, a host's slots and a job's attempts in the fleet, the integrity
      of the knowledge graph, final statuses and final revocations, and tamper evidence of the log; an
      evidence store verifies after any commands, a bundle is merged once, every answer of the API is
      on a log that verifies.
    - Health: the exit code of a health check is what the thresholds of its policy say of its report, an
      observation counts the items of the control plane, and observations are never rewritten.
    - Checkpoints: however a campaign is interrupted and resumed, its stages run in order and a completed
      one never again, and only for the manifest and engine it was started with.
    - Triage and profiles: the verdict of a triage is that signatures, snapshots and outcomes agree, and
      its reduced job stops just after the common prefix; a profile that was just created packs into
      exactly its files, and a package has no binary that its manifest does not declare.
    - Composition: an evidence document that was ingested at one site, exported, verified and imported
      at another is shown there under the same digest.  A corpus that any commands made verifies, and a case
      that was promoted replays without a difference.
    - From exploration to campaign: a campaign triages by the ranking of the report, whose yields partition
      the cases; the experiment of a hypothesis is a manifest that exploration accepts and that runs each
      suggested value once; a hypothesis is promoted only on cases that did not change.
    - Refinement: campaigns and items move along the edges of abstract status machines; a fleet run is
      the sequential one however its threads interleave; an orchestrated run is independent of the
      order its jobs complete in, and a resumed one executes nothing (stated next to the properties).
    - Transactions: an upgrade that fails at any operation leaves the files as before, one that
      succeeds leaves the release's managed files exactly, and rolling back restores every file.  A
      backup restores exactly what it protects, a verified archive stays below the roots of its
      components, and a restore that fails at any operation loses nothing.
    - Exact functional behaviour: both selections are optimal for their documented order, searches
      find shortest paths, tokens grant what was issued, trace blocks and counts partition the events,
      comparisons are equal exactly when the data are, minimising
      a case keeps its failure, sweeps visit each combination once, an exploration
      runs what it should and nothing twice and its novelty is novelty against all earlier cases.
    - Progress: the scheduler and the fleet cannot deadlock and they terminate, a server's turn leaves
      no work it could start, the worker answers every line of a stream.
    Examples next to the theorems run the definitions on small inputs, those of the scripts' tests
    where there are any, and show the defects that were found.

    ** Fuel and bounds

    Loops of the scripts that are not structural take fuel, and the theorems say how much is enough:
    supervision of a scheduler ends within one iteration more than there are campaigns once processes
    exit ([schedule_terminates]); the searches of the graph need as many rounds as it has nodes, which
    is what the definitions supply; every schedule of a fleet is bounded by [2 * (1 + retries) + 4]
    steps per job ([fleet_terminates]).  PBKDF2 takes its iteration count as an argument.  Python
    integers are unbounded and so is [Z]; machine widths appear where the code masks or unpacks (32-bit
    words, 64-bit hashes), floats are binary64.

    ** What is abstracted

    - Strings are UTF-8 byte strings; character classes and case are those of ASCII.
    - Clocks, random draws, process ids and exits, and the contents of files read are arguments or
      observations ([tick], [oracle], [fs], [process]), at the times at which the code reads them.
    - A file that the code writes and reads back as JSON is its document ([state.json] a typed record);
      the order of keys in it is not observable.  Writing a file succeeds, except in upgrades and restores, where
      any operation may fail.  A process is not killed between two writes of one operation.
    - The order of rows of a query without ORDER BY, of completed jobs and of the steps of threads is
      free: a parameter or a relation.
    - How [sum] adds floats, which changed in Python 3.12, and the order of a set of strings are arguments.
      Keys that are sorted are not NaN.
    - [json.loads] does not guess encodings other than UTF-8 and has no limit on depth or digits.
      Reading a member of a ZIP archive that opens succeeds; sending an HTTP answer succeeds.
    - In a backup the root of a component is a directory, and the digests of an evidence database are
      single names.  Lines of the audit log end in a newline.  An upgraded tree has no symbolic links and its backup
      directory lies outside it, and a profile directory has none either.  A float that is not a number is
      unequal to itself inside containers too, where Python compares identities first.  Summaries omit durations and the paths of the host.

    ** What is not modelled

    Argument parsing, printing, locating executables, and the third-party and C++ code the scripts run.
    Release engineering is a program of its own that is not modelled.  The platform, deployment and
    support scripts mainly copy files and call other tools, and the decompiler integrations call the
    decompilers' interfaces. *)
From stdpp Require Export base tactics option list strings numbers sets relations.
From stdpp Require sorting.
From Stdlib Require Export ZArith Lia.
From Stdlib Require Import Sorting.Sorted Sorting.Permutation Structures.OrdersEx.

Declare Scope ppc_scope.
Create HintDb ppc.
Delimit Scope ppc_scope with ppc.
#[export] Set Default Goal Selector "!".

(** ** Tactics *)

(** [case_bool] splits on the innermost boolean test of the goal or of a hypothesis. *)
Ltac case_bool :=
  match goal with
  | |- context [if ?b then _ else _] =>
      lazymatch b with context [if _ then _ else _] => fail | _ => destruct b eqn:? end
  | H : context [if ?b then _ else _] |- _ =>
      lazymatch b with context [if _ then _ else _] => fail | _ => destruct b eqn:? end
  end.

(** [bool_prop] turns boolean comparisons in the context into propositions. *)
Ltac bool_prop :=
  repeat match goal with
  | H : (_ && _)%bool = true |- _ => apply andb_true_iff in H as [??]
  | H : (_ && _)%bool = false |- _ => apply andb_false_iff in H
  | H : (_ || _)%bool = false |- _ => apply orb_false_iff in H as [??]
  | H : (_ || _)%bool = true |- _ => apply orb_true_iff in H
  | H : negb _ = true |- _ => apply negb_true_iff in H
  | H : negb _ = false |- _ => apply negb_false_iff in H
  | H : (_ <? _)%Z = true |- _ => apply Z.ltb_lt in H
  | H : (_ <? _)%Z = false |- _ => apply Z.ltb_ge in H
  | H : (_ <=? _)%Z = true |- _ => apply Z.leb_le in H
  | H : (_ <=? _)%Z = false |- _ => apply Z.leb_gt in H
  | H : (_ =? _)%Z = true |- _ => apply Z.eqb_eq in H
  | H : (_ =? _)%Z = false |- _ => apply Z.eqb_neq in H
  | H : (_ <? _)%nat = true |- _ => apply Nat.ltb_lt in H
  | H : (_ <? _)%nat = false |- _ => apply Nat.ltb_ge in H
  | H : (_ <=? _)%nat = true |- _ => apply Nat.leb_le in H
  | H : (_ <=? _)%nat = false |- _ => apply Nat.leb_gt in H
  | H : (_ =? _)%nat = true |- _ => apply Nat.eqb_eq in H
  | H : (_ =? _)%nat = false |- _ => apply Nat.eqb_neq in H
  | H : String.eqb _ _ = true |- _ => apply String.eqb_eq in H
  | H : String.eqb _ _ = false |- _ => apply String.eqb_neq in H
  | H : bool_decide _ = true |- _ => apply bool_decide_eq_true in H
  | H : bool_decide _ = false |- _ => apply bool_decide_eq_false in H
  end.

(** ** Python's ordering on the values the programs compare

    [py_le] is Python's [<=].  It is total and transitive on [ord_dom] only:
    a float NaN compares false with everything. *)
Class PyOrd (A : Type) := {
  py_le : A -> A -> bool;
  ord_dom : A -> Prop;
  py_le_total : forall x y, ord_dom x -> ord_dom y -> py_le x y = true \/ py_le y x = true;
  py_le_trans : forall x y z, ord_dom x -> ord_dom y -> ord_dom z ->
    py_le x y = true -> py_le y z = true -> py_le x z = true
}.

(** [a < b] on a totally ordered domain. *)
Definition py_lt {A} `{PyOrd A} (x y : A) : bool := negb (py_le y x).

#[export, refine] Instance py_ord_Z : PyOrd Z :=
  { py_le := Z.leb; ord_dom := fun _ => True; py_le_total := _; py_le_trans := _ }.
Proof. all: intros; bool_prop; rewrite ?Z.leb_le; lia. Defined.

(** Byte strings are compared lexicographically. *)
#[export, refine] Instance py_ord_string : PyOrd string :=
  { py_le := String.leb; ord_dom := fun _ => True; py_le_total := _; py_le_trans := _ }.
Proof.
  - intros x y _ _. apply String.leb_total.
  - intros x y z _ _ _. unfold String.leb.
    change String.compare with String_as_OT.compare.
    destruct (String_as_OT.compare_spec x y) as [->|Hxy|]; [done| |done].
    destruct (String_as_OT.compare_spec y z) as [->|Hyz|]; [| |done]; intros _ _;
      destruct (String_as_OT.compare_spec x z) as [|?|Hzx]; try done; exfalso.
    + eapply StrictOrder_Irreflexive, (StrictOrder_Transitive _ _ _ Hxy Hzx).
    + eapply StrictOrder_Irreflexive,
        (StrictOrder_Transitive _ _ _ Hxy (StrictOrder_Transitive _ _ _ Hyz Hzx)).
Defined.

(** Tuples are compared by the first component that differs. *)
#[export, refine] Instance py_ord_prod {A B} `{PyOrd A, PyOrd B} : PyOrd (A * B) :=
  { py_le := fun p q =>
       if py_le (fst p) (fst q)
       then if py_le (fst q) (fst p) then py_le (snd p) (snd q) else true
       else false;
    ord_dom := fun p => ord_dom (fst p) /\ ord_dom (snd p);
    py_le_total := _; py_le_trans := _ }.
Proof.
  - intros [a b] [a' b'] [Ha Hb] [Ha' Hb']; cbn in *.
    pose proof (py_le_total a a' Ha Ha') as Ta. pose proof (py_le_total b b' Hb Hb') as Tb.
    destruct (py_le a a'), (py_le a' a); tauto.
  - intros [a1 b1] [a2 b2] [a3 b3] [Ha1 Hb1] [Ha2 Hb2] [Ha3 Hb3]; cbn in *.
    pose proof (py_le_trans a1 a2 a3) as T1. pose proof (py_le_trans a3 a1 a2) as T2.
    pose proof (py_le_trans a2 a3 a1) as T3. pose proof (py_le_trans b1 b2 b3) as T4.
    destruct (py_le a1 a2) eqn:E12; [|done].
    destruct (py_le a2 a3) eqn:E23; [|by destruct (py_le a2 a1)].
    rewrite T1 by auto. intros H21 H32.
    destruct (py_le a3 a1) eqn:E31; [|done].
    rewrite T2 in H32 by auto. rewrite T3 in H21 by auto. auto.
Defined.

(** ** Selection and sorting *)

Section ordering.
Context {A K : Type} `{PyOrd K} (key : A -> K).

(** [min(iterable, key=...)]: the first of the least elements. *)
Fixpoint py_min_from (best : A) (l : list A) : A :=
  match l with
  | [] => best
  | x :: l => py_min_from (if py_lt (key x) (key best) then x else best) l
  end.

Definition py_min (l : list A) : option A :=
  match l with [] => None | x :: l => Some (py_min_from x l) end.

Fixpoint py_insert (x : A) (l : list A) : list A :=
  match l with
  | [] => [x]
  | y :: l => if py_le (key x) (key y) then x :: y :: l else y :: py_insert x l
  end.

(** [sorted(iterable, key=...)]: Python's sort is stable, so it equals insertion from the right. *)
Fixpoint py_sorted (l : list A) : list A :=
  match l with [] => [] | x :: l => py_insert x (py_sorted l) end.

Local Abbreviation dom_ok l := (forall x, x ∈ l -> ord_dom (key x)).

Lemma py_min_from_in best l : py_min_from best l ∈ best :: l.
Proof.
  revert best. induction l as [|x l IH]; intros best; cbn; [set_solver|].
  specialize (IH (if py_lt (key x) (key best) then x else best)).
  case_bool; set_solver.
Qed.

Lemma py_min_from_le best l :
  dom_ok (best :: l) ->
  forall y, y ∈ best :: l -> py_le (key (py_min_from best l)) (key y) = true.
Proof.
  revert best. induction l as [|x l IH]; intros best Hd y Hy; cbn.
  - assert (y = best) as -> by set_solver.
    destruct (py_le_total (key best) (key best)); auto; apply Hd; set_solver.
  - set (b := if py_lt (key x) (key best) then x else best).
    assert (Hb : dom_ok (b :: l)).
    { intros z Hz. apply Hd. subst b. case_bool; set_solver. }
    assert (Hm : ord_dom (key (py_min_from b l))) by (apply Hb, py_min_from_in).
    assert (Hbest : py_le (key b) (key best) = true /\ py_le (key b) (key x) = true).
    { subst b. assert (ord_dom (key x)) by (apply Hd; set_solver).
      assert (ord_dom (key best)) by (apply Hd; set_solver).
      unfold py_lt. destruct (py_le (key best) (key x)) eqn:E; cbn; split; auto.
      - destruct (py_le_total (key best) (key best)); auto.
      - destruct (py_le_total (key x) (key best)); congruence.
      - destruct (py_le_total (key x) (key x)); auto. }
    assert (IHb : forall z, z ∈ b :: l -> py_le (key (py_min_from b l)) (key z) = true)
      by (by apply IH).
    apply elem_of_cons in Hy as [->|Hy]; [|apply elem_of_cons in Hy as [->|Hy]].
    + eapply (py_le_trans _ (key b)); [auto| |apply Hd|apply IHb|apply Hbest]; set_solver.
    + eapply (py_le_trans _ (key b)); [auto| |apply Hd|apply IHb|apply Hbest]; set_solver.
    + apply IHb. set_solver.
Qed.

Lemma py_min_in l x : py_min l = Some x -> x ∈ l.
Proof. destruct l; [done|]. intros [= <-]. apply py_min_from_in. Qed.

Lemma py_min_le l x :
  dom_ok l -> py_min l = Some x -> forall y, y ∈ l -> py_le (key x) (key y) = true.
Proof. destruct l; [done|]. intros Hd [= <-]. by apply py_min_from_le. Qed.

Lemma py_min_none l : py_min l = None <-> l = [].
Proof. by destruct l. Qed.

Lemma py_insert_perm x l : py_insert x l ≡ₚ x :: l.
Proof.
  induction l as [|y l IH]; cbn; [done|]. case_bool; [done|].
  rewrite IH. apply Permutation_swap.
Qed.

Lemma py_sorted_perm l : py_sorted l ≡ₚ l.
Proof. induction l as [|x l IH]; cbn; [done|]. by rewrite py_insert_perm, IH. Qed.

Lemma elem_of_py_sorted x l : x ∈ py_sorted l <-> x ∈ l.
Proof. by rewrite py_sorted_perm. Qed.

Lemma length_py_sorted l : length (py_sorted l) = length l.
Proof. by rewrite py_sorted_perm. Qed.

Lemma NoDup_py_sorted l : NoDup (py_sorted l) <-> NoDup l.
Proof. by rewrite py_sorted_perm. Qed.

Definition py_ordered (l : list A) : Prop :=
  StronglySorted (fun x y => py_le (key x) (key y) = true) l.

Lemma py_insert_ordered x l :
  dom_ok (x :: l) -> py_ordered l -> py_ordered (py_insert x l).
Proof.
  intros Hd Hs. induction Hs as [|y l Hs IH Hy]; cbn; [repeat constructor|].
  destruct (py_le (key x) (key y)) eqn:E.
  - constructor; [by constructor|]. constructor; [done|].
    rewrite Forall_forall in Hy |- *. intros z Hz.
    eapply py_le_trans; [| | |exact E|by apply Hy]; apply Hd; set_solver.
  - assert (Hyx : py_le (key y) (key x) = true).
    { destruct (py_le_total (key y) (key x)); [apply Hd; set_solver..|done|congruence]. }
    constructor; [apply IH; set_solver|].
    rewrite Forall_forall in Hy |- *. intros z Hz.
    rewrite py_insert_perm in Hz. apply elem_of_cons in Hz as [->|Hz]; auto.
Qed.

Lemma py_sorted_ordered l : dom_ok l -> py_ordered (py_sorted l).
Proof.
  induction l as [|x l IH]; cbn; intros Hd; [constructor|].
  apply py_insert_ordered; [|apply IH; set_solver].
  intros z. rewrite elem_of_cons, elem_of_py_sorted. set_solver.
Qed.

(** Sorting leaves a sorted list alone. *)
Lemma py_sorted_id l : py_ordered l -> py_sorted l = l.
Proof.
  induction 1 as [|x l Hl IH Hx]; cbn; [done|]. rewrite IH.
  destruct Hx as [|y l Hy Hx]; cbn; [done|]. by rewrite Hy.
Qed.
End ordering.

(** Two sorted lists of distinct strings with the same elements are equal. *)
Lemma py_sorted_unique (l l' : list string) : l ≡ₚ l' -> py_sorted id l = py_sorted id l'.
Proof.
  intros Hp. apply (sorting.StronglySorted_unique_strong (fun x y => py_le (id x) (id y) = true)).
  - intros x y _ _ Hxy Hyx. by apply String.leb_antisym.
  - by apply py_sorted_ordered.
  - by apply py_sorted_ordered.
  - by rewrite !py_sorted_perm.
Qed.

(** *** Sorting, selecting and mapping *)

Lemma in_selection {A} (P : A -> bool) (l : list A) x : x ∈ List.filter P l -> x ∈ l /\ P x = true.
Proof. rewrite !list_elem_of_In. apply filter_In. Qed.

Section sorting_lemmas.
Context {A B K : Type} `{PyOrd K}.

Lemma py_insert_fmap (f : B -> K) (g : A -> B) x l : py_insert f (g x) (g <$> l) = g <$> py_insert (fun x => f (g x)) x l.
Proof. induction l as [|y l IH]; cbn; [done|]. case_match; [done|]. cbn. by f_equal. Qed.
Lemma py_sorted_fmap (f : B -> K) (g : A -> B) l : py_sorted f (g <$> l) = g <$> py_sorted (fun x => f (g x)) l.
Proof. induction l as [|x l IH]; [done|]. cbn. change (list_fmap A B g) with (@fmap list _ A B g). by rewrite IH, py_insert_fmap. Qed.

Lemma py_insert_least (f : A -> K) x l : (forall y, y ∈ l -> py_le (f x) (f y) = true) -> py_insert f x l = x :: l.
Proof. destruct l as [|y l]; cbn; [done|]. intros Hx. by rewrite (Hx y) by (by left). Qed.
Lemma filter_py_insert (f : A -> K) (P : A -> bool) x l : (forall y, y ∈ x :: l -> ord_dom (f y)) -> py_ordered f l ->
  List.filter P (py_insert f x l) = if P x then py_insert f x (List.filter P l) else List.filter P l.
Proof.
  intros Hd Hs. induction Hs as [|y l Hs IH Hy]; cbn; [done|]. rewrite Forall_forall in Hy. destruct (py_le (f x) (f y)) eqn:E.
  - cbn. destruct (P x); [|done]. symmetry. apply py_insert_least. intros z Hz.
    assert (Hz' : z ∈ y :: l) by by apply (in_selection P).
    apply elem_of_cons in Hz' as [->|Hz']; [done|]. eapply py_le_trans; [..|exact E|by apply Hy]; apply Hd; set_solver.
  - cbn. rewrite IH by set_solver. destruct (P x), (P y); cbn; rewrite ?E; done.
Qed.
(** Selecting from a sorted list is sorting the selection. *)
Lemma filter_py_sorted (f : A -> K) (P : A -> bool) l : (forall x, x ∈ l -> ord_dom (f x)) ->
  List.filter P (py_sorted f l) = py_sorted f (List.filter P l).
Proof.
  induction l as [|x l IH]; intros Hd; [done|]. cbn [py_sorted].
  rewrite filter_py_insert; [|intros y; rewrite elem_of_cons, elem_of_py_sorted, <- elem_of_cons; by apply Hd|apply py_sorted_ordered; set_solver].
  rewrite IH by set_solver. cbn. by destruct (P x).
Qed.
End sorting_lemmas.

Lemma lfilter_fmap {A B} (g : A -> B) (P : B -> bool) l : List.filter P (g <$> l) = g <$> List.filter (fun x => P (g x)) l.
Proof. induction l as [|x l IH]; [done|]. cbn. change (list_fmap A B g) with (@fmap list _ A B g). rewrite IH. by destruct (P (g x)). Qed.

(** ** Python dictionaries with string keys

    A [dict] keeps insertion order: assigning to a present key updates the entry in place, assigning
    to a new key appends it.  The programs iterate over dictionaries, so the order is part of the
    model and an association list is used rather than a finite map. *)
Abbreviation dict A := (list (string * A)).

Section dict.
Context {A : Type}.
Implicit Types (d : dict A) (k : string) (v : A).

Fixpoint dget k d : option A :=
  match d with
  | [] => None
  | (k', v) :: d => if String.eqb k k' then Some v else dget k d
  end.

Definition dmem k d : bool := match dget k d with Some _ => true | None => false end.

Fixpoint dset k v d : dict A :=
  match d with
  | [] => [(k, v)]
  | (k', v') :: d => if String.eqb k k' then (k', v) :: d else (k', v') :: dset k v d
  end.

Fixpoint ddel k d : dict A :=
  match d with
  | [] => []
  | (k', v') :: d => if String.eqb k k' then d else (k', v') :: ddel k d
  end.

Definition dkeys d : list string := d.*1.
Definition dvalues d : list A := d.*2.

(** Key-distinctness: every Python dictionary has it. *)
Definition dwf d : Prop := NoDup (dkeys d).

Lemma dget_dset_eq k v d : dget k (dset k v d) = Some v.
Proof.
  induction d as [|[k' v'] d IH]; cbn; [by rewrite String.eqb_refl|].
  destruct (String.eqb k k') eqn:E; cbn; by rewrite ?E.
Qed.

Lemma dget_dset_ne k k' v d : k <> k' -> dget k (dset k' v d) = dget k d.
Proof.
  intros Hne. induction d as [|[k2 v2] d IH]; cbn.
  - by destruct (String.eqb_spec k k').
  - destruct (String.eqb_spec k' k2) as [->|]; cbn.
    + by destruct (String.eqb_spec k k2).
    + by rewrite IH.
Qed.

Lemma dget_dset k k' v d : dget k (dset k' v d) = if String.eqb k k' then Some v else dget k d.
Proof.
  destruct (String.eqb_spec k k') as [->|]; [apply dget_dset_eq|by apply dget_dset_ne].
Qed.

Lemma dget_some_in k v d : dget k d = Some v -> (k, v) ∈ d.
Proof.
  induction d as [|[k' v'] d IH]; cbn; [done|].
  destruct (String.eqb_spec k k') as [->|]; [intros [= ->]|]; rewrite elem_of_cons; auto.
Qed.

Lemma dget_some_key k v d : dget k d = Some v -> k ∈ dkeys d.
Proof. intros H%dget_some_in. apply list_elem_of_fmap. by exists (k, v). Qed.

Lemma dget_some_value k v d : dget k d = Some v -> v ∈ dvalues d.
Proof. intros H%dget_some_in. apply list_elem_of_fmap. by exists (k, v). Qed.

Lemma dget_none k d : dget k d = None <-> k ∉ dkeys d.
Proof.
  induction d as [|[k' v'] d IH]; cbn; [split; [intros _; apply not_elem_of_nil|done]|].
  destruct (String.eqb_spec k k') as [->|]; rewrite not_elem_of_cons; [naive_solver|].
  rewrite IH. naive_solver.
Qed.

Lemma dget_in_keys k d : k ∈ dkeys d -> exists v, dget k d = Some v.
Proof.
  intros H. destruct (dget k d) eqn:E; [eauto|]. by apply dget_none in E.
Qed.

Lemma dget_wf k v d : dwf d -> (k, v) ∈ d -> dget k d = Some v.
Proof.
  unfold dwf. induction d as [|[k' v'] d IH]; cbn; intros Hnd Hin; [by apply not_elem_of_nil in Hin|].
  apply NoDup_cons in Hnd as [Hk Hnd]. apply elem_of_cons in Hin as [[= <- <-]|Hin].
  - by rewrite String.eqb_refl.
  - destruct (String.eqb_spec k k') as [->|]; [|auto].
    exfalso. apply Hk, list_elem_of_fmap. by exists (k', v).
Qed.

Lemma dkeys_dset_in k v d : k ∈ dkeys d -> dkeys (dset k v d) = dkeys d.
Proof.
  induction d as [|[k' v'] d IH]; cbn; intros Hin; [by apply not_elem_of_nil in Hin|].
  destruct (String.eqb_spec k k') as [->|]; [done|].
  apply elem_of_cons in Hin as [?|?]; [done|]. cbn. f_equal. by apply IH.
Qed.

Lemma dkeys_dset_notin k v d : k ∉ dkeys d -> dset k v d = d ++ [(k, v)].
Proof.
  induction d as [|[k' v'] d IH]; cbn; [done|]. rewrite not_elem_of_cons. intros [? ?].
  destruct (String.eqb_spec k k') as [->|]; [done|]. by rewrite IH.
Qed.

Lemma dwf_nil : dwf [].
Proof. constructor. Qed.

Lemma elem_of_dkeys_dset k k' v d : k ∈ dkeys (dset k' v d) <-> k = k' \/ k ∈ dkeys d.
Proof.
  destruct (dget k' d) eqn:E.
  - apply dget_some_key in E. rewrite dkeys_dset_in by done. naive_solver.
  - apply dget_none in E. rewrite dkeys_dset_notin by done.
    unfold dkeys. rewrite fmap_app, elem_of_app. cbn. rewrite list_elem_of_singleton. tauto.
Qed.

Lemma dwf_dset k v d : dwf d -> dwf (dset k v d).
Proof.
  unfold dwf. intros H. destruct (dget k d) eqn:E.
  - apply dget_some_key in E. by rewrite dkeys_dset_in.
  - apply dget_none in E. rewrite dkeys_dset_notin by done.
    unfold dkeys. rewrite fmap_app. apply NoDup_app. split; [done|]. cbn.
    split; [|apply NoDup_singleton].
    intros x Hx ->%list_elem_of_singleton. done.
Qed.

Lemma dget_ddel_ne k k' d : k <> k' -> dget k (ddel k' d) = dget k d.
Proof.
  intros Hne. induction d as [|[k2 v2] d IH]; cbn; [done|].
  destruct (String.eqb_spec k' k2) as [->|]; cbn.
  - by destruct (String.eqb_spec k k2).
  - by rewrite IH.
Qed.

Lemma elem_of_ddel x k d : x ∈ ddel k d -> x ∈ d.
Proof.
  induction d as [|[k' v'] d IH]; cbn; [done|].
  destruct (String.eqb k k'); rewrite !elem_of_cons; naive_solver.
Qed.

Lemma dwf_ddel k d : dwf d -> dwf (ddel k d).
Proof.
  unfold dwf. induction d as [|[k' v'] d IH]; cbn; [done|].
  intros [Hk Hnd]%NoDup_cons. destruct (String.eqb k k'); [done|]. cbn.
  apply NoDup_cons. split; [|auto]. intros [x [-> Hx]]%list_elem_of_fmap.
  apply Hk, list_elem_of_fmap. eexists; split; [done|]. by eapply elem_of_ddel.
Qed.

(** The order of the entries does not matter to a lookup. *)
Lemma dget_perm k d d' : dwf d -> d ≡ₚ d' -> dget k d = dget k d'.
Proof.
  intros Hwf Hp. assert (Hwf' : dwf d') by (unfold dwf, dkeys in *; by rewrite <- Hp).
  destruct (dget k d') as [v|] eqn:E.
  - apply dget_wf; [done|]. rewrite Hp. by apply dget_some_in.
  - apply dget_none. rewrite dget_none in E. unfold dkeys in *. by rewrite Hp.
Qed.

Lemma ddel_dset_fresh k v d : k ∉ dkeys d -> ddel k (dset k v d) = d.
Proof.
  induction d as [|[k' v'] d IH]; cbn; [by rewrite String.eqb_refl|]. rewrite not_elem_of_cons.
  intros [Hne Hk]. destruct (String.eqb_spec k k') as [->|_]; [done|]. cbn.
  destruct (String.eqb_spec k k') as [->|_]; [done|]. by rewrite IH.
Qed.

Lemma dget_ddel_eq k d : dwf d -> dget k (ddel k d) = None.
Proof.
  unfold dwf. induction d as [|[k' v'] d IH]; cbn; [done|].
  intros [Hk Hnd]%NoDup_cons. destruct (String.eqb_spec k k') as [->|]; cbn.
  - by apply dget_none.
  - destruct (String.eqb_spec k k'); [done|auto].
Qed.

Lemma elem_of_dkeys_ddel x k d : dwf d -> x ∈ dkeys (ddel k d) <-> x <> k /\ x ∈ dkeys d.
Proof.
  intros Hwf. destruct (decide (x = k)) as [->|Hne].
  - pose proof (dget_ddel_eq k d Hwf) as H%dget_none. naive_solver.
  - split.
    + intros (v&H)%dget_in_keys. rewrite dget_ddel_ne in H by done. eauto using dget_some_key.
    + intros [_ (v&H)%dget_in_keys]. rewrite <- (dget_ddel_ne x k) in H by done.
      eauto using dget_some_key.
Qed.

(** The number of entries whose value passes a test. *)
Definition dcount (P : A -> bool) d : nat := length (List.filter P (dvalues d)).

Lemma dcount_dset P k v old d :
  dget k d = Some old ->
  (dcount P (dset k v d) + Nat.b2n (P old) = dcount P d + Nat.b2n (P v))%nat.
Proof.
  unfold dcount. induction d as [|[k' v'] d IH]; cbn; [done|].
  destruct (String.eqb k k'); cbn.
  - intros [= ->]. destruct (P v), (P old); cbn; lia.
  - intros H%IH. unfold dvalues in *. destruct (P v'); cbn; lia.
Qed.

Lemma dcount_zero P d : dwf d ->
  dcount P d = 0%nat <-> forall k v, dget k d = Some v -> P v = false.
Proof.
  intros Hwf. unfold dcount. rewrite List.length_zero_iff_nil. split.
  - intros Hnil k v Hk%dget_some_value. destruct (P v) eqn:E; [|done].
    exfalso. apply (List.in_nil (a:=v)). rewrite <- Hnil. apply List.filter_In.
    by rewrite <- list_elem_of_In.
  - intros H. destruct (List.filter P (dvalues d)) as [|v l] eqn:E; [done|].
    assert (Hin : In v (List.filter P (dvalues d))) by (rewrite E; by left).
    apply List.filter_In in Hin as [Hin HP]. apply list_elem_of_In in Hin.
    apply list_elem_of_fmap in Hin as ([k w]&->&Hin). cbn in *.
    rewrite (H k w) in HP; [done|]. by apply dget_wf.
Qed.

Lemma length_ddel k d : k ∈ dkeys d -> S (length (ddel k d)) = length d.
Proof.
  induction d as [|[k' v'] d IH]; cbn; intros Hin; [by apply not_elem_of_nil in Hin|].
  destruct (String.eqb_spec k k') as [->|]; [done|].
  apply elem_of_cons in Hin as [?|?]; [done|]. cbn. by rewrite IH.
Qed.
End dict.

Lemma dkeys_cons {A} k (v : A) d : dkeys ((k, v) :: d) = k :: dkeys d.
Proof. reflexivity. Qed.
Lemma dvalues_cons {A} k (v : A) d : dvalues ((k, v) :: d) = v :: dvalues d.
Proof. reflexivity. Qed.
#[export] Hint Rewrite @dkeys_cons @dvalues_cons : ppc.

#[global] Arguments dkeys {A} d : simpl never.
#[global] Arguments dvalues {A} d : simpl never.

#[export] Hint Resolve dwf_nil dwf_dset dwf_ddel dget_some_key dget_some_value : ppc.
#[export] Hint Rewrite @dget_dset_eq : ppc.

(** [dfilter] keeps the entries whose value satisfies a test. *)
Lemma length_filter_le {A} (P : A -> bool) (l : list A) : length (List.filter P l) <= length l.
Proof. induction l as [|x l IH]; cbn; [lia|]. case_bool; cbn; lia. Qed.

Lemma length_filter_lt {A} (P Q : A -> bool) (l : list A) x :
  (forall y, y ∈ l -> Q y = true -> P y = true) -> x ∈ l -> P x = true -> Q x = false ->
  length (List.filter Q l) < length (List.filter P l).
Proof.
  intros HPQ Hx HP HQ. induction l as [|y l IH]; [by apply not_elem_of_nil in Hx|].
  assert (Hle : length (List.filter Q l) <= length (List.filter P l)).
  { clear IH Hx. induction l as [|z l IH]; cbn; [lia|].
    assert (Hz := HPQ z). assert (length (List.filter Q l) <= length (List.filter P l)).
    { apply IH. intros w Hw. apply HPQ. set_solver. }
    destruct (Q z); [rewrite Hz by (set_solver || done); cbn; lia|destruct (P z); cbn; lia]. }
  cbn. apply elem_of_cons in Hx as [->|Hx].
  - rewrite HP, HQ. cbn. lia.
  - assert (length (List.filter Q l) < length (List.filter P l)).
    { apply IH; [|done]. intros w Hw. apply HPQ. set_solver. }
    assert (Hy := HPQ y). destruct (Q y); [rewrite Hy by (set_solver || done); cbn; lia|].
    destruct (P y); cbn; lia.
Qed.

Lemma Forall2_impl_in {A B} (P Q : A -> B -> Prop) l k :
  Forall2 P l k -> (forall x y, x ∈ l -> P x y -> Q x y) -> Forall2 Q l k.
Proof.
  induction 1 as [|x y l k Hxy HF IH]; intros H; constructor.
  - apply H; [by left|done].
  - apply IH. intros ???. apply H. by right.
Qed.

(** A duplicate-free list without one element of another list is shorter than it. *)
Lemma NoDup_length_lt {A} (l l' : list A) k :
  NoDup l' -> (forall x, x ∈ l' -> x ∈ l) -> k ∈ l -> k ∉ l' -> (length l' < length l)%nat.
Proof.
  intros Hnd Hsub Hk Hk'. apply (submseteq_length (k :: l') l), NoDup_submseteq; [by apply NoDup_cons|].
  intros x [->|Hx]%elem_of_cons; auto.
Qed.

Lemma NoDup_length_le {A} (l l' : list A) :
  NoDup l' -> (forall x, x ∈ l' -> x ∈ l) -> (length l' <= length l)%nat.
Proof. intros Hnd Hsub. by apply submseteq_length, NoDup_submseteq. Qed.

(** The keys of the entries whose value passes a test. *)
Definition dselect {A} (P : A -> bool) (d : dict A) : list string :=
  (List.filter (fun kv => P (snd kv)) d).*1.

Lemma length_dselect {A} (P : A -> bool) (d : dict A) : length (dselect P d) = dcount P d.
Proof.
  unfold dselect, dcount. induction d as [|[k v] d IH]; [done|]. rewrite dvalues_cons. cbn.
  destruct (P v); cbn; by rewrite IH.
Qed.

Lemma elem_of_dselect {A} (P : A -> bool) (d : dict A) k :
  dwf d -> k ∈ dselect P d <-> exists v, dget k d = Some v /\ P v = true.
Proof.
  intros Hwf. unfold dselect. rewrite list_elem_of_fmap. split.
  - intros ([k' v]&->&Hin). rewrite list_elem_of_In, List.filter_In, <- list_elem_of_In in Hin.
    destruct Hin as [Hin HP]. exists v. split; [|done]. by apply dget_wf.
  - intros (v&Hv&HP). exists (k, v). split; [done|].
    rewrite list_elem_of_In, List.filter_In, <- list_elem_of_In. split; [|done]. by apply dget_some_in.
Qed.

Lemma NoDup_dselect {A} (P : A -> bool) (d : dict A) : dwf d -> NoDup (dselect P d).
Proof.
  unfold dselect, dwf, dkeys. induction d as [|[k v] d IH]; cbn; intros Hnd; [constructor|].
  apply NoDup_cons in Hnd as [Hk Hnd]. destruct (P v); cbn; [|auto].
  apply NoDup_cons. split; [|auto]. intros Hin. apply Hk.
  apply list_elem_of_fmap in Hin as ([k' w]&->&Hin).
  rewrite list_elem_of_In, List.filter_In, <- list_elem_of_In in Hin.
  apply list_elem_of_fmap. exists (k', w). by split; [|apply Hin].
Qed.

(** ** Dictionaries with keys of any type, and counters

    [collections.Counter] keeps the order in which its keys were first counted. *)
Section assoc.
Context {K : Type} `{EqDecision K} {V : Type}.

Fixpoint aget (k : K) (d : list (K * V)) : option V :=
  match d with
  | [] => None
  | (k', v) :: d => if decide (k = k') then Some v else aget k d
  end.

Fixpoint aset (k : K) (v : V) (d : list (K * V)) : list (K * V) :=
  match d with
  | [] => [(k, v)]
  | (k', v') :: d => if decide (k = k') then (k', v) :: d else (k', v') :: aset k v d
  end.

(** [d.setdefault(k, v)] *)
Definition asetdefault (k : K) (v : V) (d : list (K * V)) : list (K * V) :=
  match aget k d with Some _ => d | None => d ++ [(k, v)] end.

Lemma aget_aset k k' v d : aget k (aset k' v d) = if decide (k = k') then Some v else aget k d.
Proof.
  induction d as [|[k2 v2] d IH]; cbn; [done|]. destruct (decide (k' = k2)) as [->|]; cbn; repeat case_decide; naive_solver.
Qed.

Lemma aget_fold_notin (l : list (K * V)) d k :
  k ∉ l.*1 -> aget k (fold_left (fun d kv => aset (fst kv) (snd kv) d) l d) = aget k d.
Proof.
  revert d. induction l as [|[k' v] l IH]; intros d; cbn; [done|]. rewrite not_elem_of_cons. intros [Hne Hk].
  rewrite IH by done. rewrite aget_aset. by case_decide.
Qed.

Lemma aget_fold_in (l : list (K * V)) d k v :
  NoDup l.*1 -> (k, v) ∈ l -> aget k (fold_left (fun d kv => aset (fst kv) (snd kv) d) l d) = Some v.
Proof.
  revert d. induction l as [|[k' v'] l IH]; intros d; cbn; [by intros _ ?%not_elem_of_nil|].
  intros [Hk Hnd]%NoDup_cons [[= <- <-]|Hin]%elem_of_cons; [|by apply IH].
  rewrite aget_fold_notin by done. rewrite aget_aset. by case_decide.
Qed.
End assoc.

Section counter.
Context {K : Type} `{EqDecision K}.

(** [counter[k] += 1] *)
Fixpoint cincr (k : K) (c : list (K * Z)) : list (K * Z) :=
  match c with
  | [] => [(k, 1%Z)]
  | (k', n) :: c => if decide (k = k') then (k', n + 1)%Z :: c else (k', n) :: cincr k c
  end.

(** [Counter(iterable)] *)
Definition counter (l : list K) : list (K * Z) := fold_left (fun c k => cincr k c) l [].

(** [counter.most_common()]: the most frequent first, ties in the order of the counter. *)
Definition most_common (c : list (K * Z)) : list (K * Z) := py_sorted (fun kn => (- snd kn)%Z) c.

(** The sum over a counter of a weight per key times its count. *)
Definition ctotal (w : K -> Z) (c : list (K * Z)) : Z := foldr (fun kn s => w (fst kn) * snd kn + s)%Z 0%Z c.

Lemma ctotal_cincr w k c : ctotal w (cincr k c) = (ctotal w c + w k)%Z.
Proof.
  unfold ctotal. induction c as [|[k' n] c IH]; cbn; [lia|].
  destruct (decide (k = k')) as [->|]; cbn; [lia|]. rewrite IH. lia.
Qed.

Lemma ctotal_counter_from w l c :
  ctotal w (fold_left (fun c k => cincr k c) l c) = (ctotal w c + foldr (fun k s => w k + s) 0 l)%Z.
Proof.
  revert c. induction l as [|k l IH]; intros c; cbn [fold_left foldr]; [lia|].
  rewrite IH. cbv beta. rewrite ctotal_cincr. lia.
Qed.

(** Summing over the counter of a list is summing over the list. *)
Lemma ctotal_counter w l : ctotal w (counter l) = foldr (fun k s => w k + s)%Z 0%Z l.
Proof. unfold counter. by rewrite ctotal_counter_from. Qed.

Lemma ctotal_perm w c c' : c ≡ₚ c' -> ctotal w c = ctotal w c'.
Proof. unfold ctotal. induction 1; cbn; lia. Qed.

Lemma elem_of_cincr k x c : x ∈ (cincr k c).*1 <-> x = k \/ x ∈ c.*1.
Proof.
  induction c as [|[k' n] c IH]; cbn.
  - rewrite list_elem_of_singleton. rewrite elem_of_nil. tauto.
  - destruct (decide (k = k')) as [->|]; cbn; rewrite !elem_of_cons; [|rewrite IH]; naive_solver.
Qed.

Lemma NoDup_cincr k c : NoDup c.*1 -> NoDup (cincr k c).*1.
Proof.
  induction c as [|[k' n] c IH]; cbn; intros Hnd; [apply NoDup_singleton|].
  apply NoDup_cons in Hnd as [Hk Hnd]. destruct (decide (k = k')) as [->|]; cbn.
  - by apply NoDup_cons.
  - apply NoDup_cons. split; [|auto]. rewrite elem_of_cincr. naive_solver.
Qed.

Lemma counter_from_keys l c :
  NoDup c.*1 ->
  NoDup (fold_left (fun c k => cincr k c) l c).*1 /\
  forall x, x ∈ (fold_left (fun c k => cincr k c) l c).*1 <-> x ∈ l \/ x ∈ c.*1.
Proof.
  revert c. induction l as [|k l IH]; intros c Hnd; cbn.
  - split; [done|]. intros x. rewrite elem_of_nil. tauto.
  - destruct (IH (cincr k c)) as [H1 H2]; [by apply NoDup_cincr|]. split; [done|].
    intros x. rewrite H2, elem_of_cincr, elem_of_cons. tauto.
Qed.

(** The keys of a counter are the elements counted, once each. *)
Lemma counter_keys l : NoDup (counter l).*1 /\ forall x, x ∈ (counter l).*1 <-> x ∈ l.
Proof.
  destruct (counter_from_keys l []) as [H1 H2]; [constructor|]. split; [done|].
  intros x. unfold counter. rewrite H2. cbn. rewrite elem_of_nil. tauto.
Qed.
End counter.
