(* ===== verification/PyCore.v ===== *)
(** * The Python values, exceptions, numbers and strings the scripts compute with

    JSON documents are values of the type [value]; Python [float]s are IEEE binary64 numbers
    ([spec_float] with 53 bits of precision), Python [int]s are [Z].  A [str] is its UTF-8 byte
    string; character classes ([isalnum], [strip], [lower]) are those of ASCII.  A computation that
    can raise is a value of [res]. *)
From stdpp Require Import pretty.
From Stdlib Require Import SpecFloat Ascii.
From S2P Require Export Prelude.
Open Scope Z_scope.

(** ** Exceptions *)

(** Exception classes; [AppError] is the [RuntimeError] subclass each script defines for itself
    ([SchedulerError], [ControlError], [JobError], ...), [SqlError] is [sqlite3.Error]; the error class
    of another script is a [RuntimeError]. *)
Inductive exc_class :=
  | AppError | TypeError | ValueError | JSONDecodeError | KeyError | IndexError
  | AttributeError | OSError | FileNotFoundError | OverflowError | ZeroDivisionError
  | TimeoutExpired | SystemExit | AssertionError | SqlError | RuntimeError | UnicodeError.

#[export] Instance exc_class_eq_dec : EqDecision exc_class.
Proof. solve_decision. Defined.

(** [issubclass]: [JSONDecodeError] and [UnicodeError] are [ValueError]s, [FileNotFoundError] is an
    [OSError]. *)
Definition subclass (c d : exc_class) : bool :=
  bool_decide (c = d) ||
  match c, d with
  | JSONDecodeError, ValueError | UnicodeError, ValueError | FileNotFoundError, OSError => true
  | _, _ => false
  end.

Record exn := Exn { exn_class : exc_class; exn_msg : string }.

#[export] Instance exn_eq_dec : EqDecision exn.
Proof. solve_decision. Defined.

Inductive res (A : Type) :=
  | Ok (a : A)
  | Raise (e : exn).
Arguments Ok {A} a.
Arguments Raise {A} e.

#[export] Instance res_ret : MRet res := fun A a => Ok a.
#[export] Instance res_bind : MBind res := fun A B f m =>
  match m with Ok a => f a | Raise e => Raise e end.
#[export] Instance res_fmap : FMap res := fun A B f m =>
  match m with Ok a => Ok (f a) | Raise e => Raise e end.

(** [raise SchedulerError(msg)] and the like. *)
Definition app_error {A} (msg : string) : res A := Raise (Exn AppError msg).

(** [if test: raise ...] *)
Definition guard_app (ok : bool) (msg : string) : res unit :=
  if ok then Ok tt else app_error msg.

(** [except (c1, c2, ...)] *)
Definition handled (cs : list exc_class) (e : exn) : bool :=
  existsb (subclass (exn_class e)) cs.

Fixpoint res_map {A B} (f : A -> res B) (l : list A) : res (list B) :=
  match l with
  | [] => Ok []
  | x :: l => y ← f x; ys ← res_map f l; Ok (y :: ys)
  end.

Fixpoint res_fold {A S} (f : S -> A -> res S) (s : S) (l : list A) : res S :=
  match l with
  | [] => Ok s
  | x :: l => s ← f s x; res_fold f s l
  end.

(** The value of a computation that returns, for concrete runs. *)
Definition ok_or {A} (d : A) (r : res A) : A := match r with Ok a => a | Raise _ => d end.

(** [enumerate] *)
Definition enumerate_from {A} (i : Z) (l : list A) : list (Z * A) :=
  zip (imap (fun j _ => i + Z.of_nat j) l) l.
Definition enumerate {A} (l : list A) : list (Z * A) := enumerate_from 0 l.

Lemma res_bind_Ok {A B} (f : A -> res B) (m : res A) b :
  (m ≫= f) = Ok b <-> exists a, m = Ok a /\ f a = Ok b.
Proof. destruct m; cbn; naive_solver. Qed.

Lemma res_bind_Raise {A B} (f : A -> res B) (m : res A) e :
  (m ≫= f) = Raise e <-> m = Raise e \/ exists a, m = Ok a /\ f a = Raise e.
Proof. destruct m; cbn; naive_solver. Qed.

Lemma guard_app_Ok b msg u : guard_app b msg = Ok u <-> b = true.
Proof. destruct b; cbn; destruct u; naive_solver. Qed.

(** [inv_res] decomposes hypotheses that say that a computation returned. *)
Ltac inv_res :=
  repeat match goal with
  | H : (_ ≫= _) = Ok _ |- _ =>
      let x := fresh "x" in apply res_bind_Ok in H as (x & ? & ?)
  | H : guard_app _ _ = Ok _ |- _ => apply guard_app_Ok in H
  | H : Ok _ = Ok _ |- _ => injection H as H; try subst
  | H : Raise _ = Ok _ |- _ => discriminate H
  | H : app_error _ = Ok _ |- _ => discriminate H
  end.

Lemma res_map_runs {A B} (f : A -> res B) l k : res_map f l = Ok k -> Forall2 (fun x y => f x = Ok y) l k.
Proof.
  revert k. induction l as [|x l IH]; intros k H; cbn [res_map] in H; inv_res; [constructor|]. constructor; [done|by apply IH].
Qed.

Lemma res_map_concat_nil {A B} (f : A -> res (list B)) l ys :
  res_map f l = Ok ys -> concat ys = [] <-> forall x, x ∈ l -> f x = Ok [].
Proof.
  revert ys. induction l as [|x l IH]; intros ys; cbn.
  - intros [= <-]. split; [by intros _ ? ?%not_elem_of_nil|done].
  - intros H. inv_res. cbn. match goal with H : res_map f l = Ok _ |- _ => specialize (IH _ H) end. split.
    + intros [-> Hc]%app_eq_nil y [->|Hy]%elem_of_cons; [done|by apply IH].
    + intros Hall. rewrite (proj2 IH); [|intros; apply Hall; by right]. pose proof (Hall x ltac:(by left)) as H2.
      match goal with H1 : f x = Ok ?a |- _ => rewrite H2 in H1; by injection H1 as <- end.
Qed.

(** A check that finds nothing in any element. *)
Lemma res_map_nil {A B} (f : A -> res (list B)) l : (forall x, x ∈ l -> f x = Ok []) -> exists ys, res_map f l = Ok ys /\ concat ys = [].
Proof.
  induction l as [|x l IH]; intros H; cbn; [by exists []|]. rewrite (H x) by (by left). cbn.
  destruct IH as (ys&->&Hc); [intros; apply H; by right|]. exists ([] :: ys). done.
Qed.

Lemma enumerate_from_cons {A} i (x : A) l : enumerate_from i (x :: l) = (i, x) :: enumerate_from (i + 1) l.
Proof.
  unfold enumerate_from. cbn. f_equal; [f_equal; lia|]. f_equal. apply imap_ext. intros. cbn. lia.
Qed.

Lemma res_map_length {A B} (f : A -> res B) l l' : res_map f l = Ok l' -> length l' = length l.
Proof. revert l'. induction l as [|x l IH]; intros l'; cbn; [by intros [= <-]|]. intros H. inv_res. cbn. f_equal. by apply IH. Qed.

(** An invariant of the accumulator holds after a loop that returns. *)
Lemma res_fold_inv {A S} (P : S -> Prop) (f : S -> A -> res S) s l s' :
  (forall s x s', x ∈ l -> P s -> f s x = Ok s' -> P s') ->
  P s -> res_fold f s l = Ok s' -> P s'.
Proof.
  revert s. induction l as [|x l IH]; intros s Hf Hs; cbn; intros H; inv_res; [done|].
  eapply IH; [| |eassumption].
  - intros s1 y s2 Hy. apply Hf. by right.
  - eapply Hf; [by left|exact Hs|done].
Qed.

Lemma res_map_Forall2 {A B} (P : A -> B -> Prop) (f : A -> res B) (l : list A) :
  (forall x, x ∈ l -> exists y, f x = Ok y /\ P x y) -> exists ys, res_map f l = Ok ys /\ Forall2 P l ys.
Proof.
  induction l as [|x l IH]; intros Hf; [by exists []|].
  destruct (Hf x) as (y&Hy&Hp); [by left|]. destruct IH as (ys&Hys&HF).
  { intros z Hz. apply Hf. by right. }
  exists (y :: ys). cbn. rewrite Hy. cbn. rewrite Hys. by split; [|constructor].
Qed.

(** [d[k]] *)
Definition dindex {A} (k : string) (d : dict A) : res A :=
  match dget k d with Some x => Ok x | None => Raise (Exn KeyError k) end.

(** ** Strings *)

Definition sp (n : nat) : string := String (ascii_of_nat n) EmptyString.
Definition quote_char : string := sp 34.

Fixpoint str_forall (f : ascii -> bool) (s : string) : bool :=
  match s with EmptyString => true | String c s => f c && str_forall f s end.

Fixpoint str_map (f : ascii -> ascii) (s : string) : string :=
  match s with EmptyString => EmptyString | String c s => String (f c) (str_map f s) end.

Definition str_empty (s : string) : bool := match s with EmptyString => true | _ => false end.

(** [c in s] for a single character. *)
Fixpoint str_mem (c : ascii) (s : string) : bool :=
  match s with EmptyString => false | String c' s => Ascii.eqb c c' || str_mem c s end.

Definition code (c : ascii) : Z := Z.of_nat (nat_of_ascii c).
Definition is_digit (c : ascii) : bool := (48 <=? code c) && (code c <=? 57).
Definition is_upper (c : ascii) : bool := (65 <=? code c) && (code c <=? 90).
Definition is_lower (c : ascii) : bool := (97 <=? code c) && (code c <=? 122).
Definition is_alnum (c : ascii) : bool := is_digit c || is_upper c || is_lower c.
(** The alphabet of portable identifiers: [A-Za-z0-9._-]. *)
Definition id_char (c : ascii) : bool :=
  is_alnum c || Ascii.eqb c "."%char || Ascii.eqb c "_"%char || Ascii.eqb c "-"%char.
Definition is_space (c : ascii) : bool :=
  ((9 <=? code c) && (code c <=? 13)) || ((28 <=? code c) && (code c <=? 32)).

Definition lower_char (c : ascii) : ascii :=
  if is_upper c then ascii_of_nat (nat_of_ascii c + 32) else c.
Definition str_lower (s : string) : string := str_map lower_char s.

Fixpoint str_lstrip (f : ascii -> bool) (s : string) : string :=
  match s with
  | EmptyString => EmptyString
  | String c s' => if f c then str_lstrip f s' else s
  end.

Fixpoint str_rev_app (s acc : string) : string :=
  match s with EmptyString => acc | String c s => str_rev_app s (String c acc) end.
Definition str_rev (s : string) : string := str_rev_app s EmptyString.

Definition str_rstrip (f : ascii -> bool) (s : string) : string := str_rev (str_lstrip f (str_rev s)).
(** [s.strip()] *)
Definition str_strip (s : string) : string := str_rstrip is_space (str_lstrip is_space s).

Fixpoint strip_prefix (p s : string) : option string :=
  match p, s with
  | EmptyString, _ => Some s
  | String a p, String b s => if Ascii.eqb a b then strip_prefix p s else None
  | _, _ => None
  end.

(** The longest prefix of characters of a class, and the rest. *)
Fixpoint span (f : ascii -> bool) (s : string) : string * string :=
  match s with
  | EmptyString => (EmptyString, EmptyString)
  | String c s' => if f c then let '(a, r) := span f s' in (String c a, r) else (EmptyString, s)
  end.

Definition str_startswith (p s : string) : bool := String.prefix p s.
Definition str_endswith (p s : string) : bool := String.prefix (str_rev p) (str_rev s).

(** [s.isdigit()] *)
Definition str_isdigit (s : string) : bool := negb (str_empty s) && str_forall is_digit s.

(** [needle in s] *)
Fixpoint str_contains (needle s : string) : bool :=
  String.prefix needle s ||
  match s with EmptyString => false | String _ s => str_contains needle s end.

(** [sep.join(l)] *)
Fixpoint str_join (sep : string) (l : list string) : string :=
  match l with
  | [] => EmptyString
  | [x] => x
  | x :: l => x +:+ sep +:+ str_join sep l
  end.

(** [s.split(c, 1)] at the first occurrence of [c]. *)
Fixpoint str_split1 (c : ascii) (s : string) : option (string * string) :=
  match s with
  | EmptyString => None
  | String c' s =>
      if Ascii.eqb c c' then Some (EmptyString, s)
      else match str_split1 c s with
           | Some (a, b) => Some (String c' a, b)
           | None => None
           end
  end.

(** [s.split(sep, 1)[0]]: what precedes the first occurrence of [sep]. *)
Fixpoint str_before (sep s : string) : string :=
  if String.prefix sep s then EmptyString
  else match s with EmptyString => EmptyString | String c s => String c (str_before sep s) end.

(** [s.split(None, 1)[0]] of a string without leading space. *)
Fixpoint first_word (s : string) : string :=
  match s with
  | EmptyString => EmptyString
  | String c s => if is_space c then EmptyString else String c (first_word s)
  end.

(** A byte inside the encoding of a character. *)
Definition is_cont (c : ascii) : bool := (128 <=? code c) && (code c <? 192).
(** [s[:n]], in characters. *)
Fixpoint prefix_of (n : nat) (s : string) : string :=
  match s with
  | EmptyString => EmptyString
  | String c s => if is_cont c then String c (prefix_of n s)
                  else match n with O => EmptyString | S n => String c (prefix_of n s) end
  end.

Definition digit_of (n : Z) : string :=
  match n with
  | 0 => "0" | 1 => "1" | 2 => "2" | 3 => "3" | 4 => "4" | 5 => "5" | 6 => "6" | 7 => "7"
  | 8 => "8" | 9 => "9" | 10 => "a" | 11 => "b" | 12 => "c" | 13 => "d" | 14 => "e" | _ => "f"
  end.

(** The [n] low hexadecimal digits of [z], most significant first. *)
Fixpoint hex_digits (n : nat) (z : Z) : string :=
  match n with
  | O => EmptyString
  | S n => hex_digits n (z / 16) +:+ digit_of (z mod 16)
  end.

(** *** Concatenation *)

Lemma str_app_nil (r : string) : "" +:+ r = r.
Proof. reflexivity. Qed.
Lemma str_app_cons c (t r : string) : String c t +:+ r = String c (t +:+ r).
Proof. reflexivity. Qed.
Lemma str_cons_inj c d (t u : string) : String c t = String d u -> c = d /\ t = u.
Proof. by intros [= -> ->]. Qed.
Lemma str_app_assoc (a b c : string) : (a +:+ b) +:+ c = a +:+ b +:+ c.
Proof. induction a as [|x a IH]; [done|].
  change (String x ((a +:+ b) +:+ c) = String x (a +:+ b +:+ c)). by rewrite IH. Qed.
Lemma str_app_nil_r (s : string) : s +:+ "" = s.
Proof. induction s as [|c s IH]; [done|]. rewrite str_app_cons. by rewrite IH. Qed.
Lemma str_forall_app f (s t : string) : str_forall f (s +:+ t) = str_forall f s && str_forall f t.
Proof.
  induction s as [|c s IH]; [done|].
  change (f c && str_forall f (s +:+ t) = f c && str_forall f s && str_forall f t). by rewrite IH, andb_assoc.
Qed.
Lemma length_append (a b : string) : String.length (a +:+ b) = (String.length a + String.length b)%nat.
Proof. induction a as [|c a IH]; [done|]. rewrite str_app_cons. cbn. by rewrite IH. Qed.

(** [str.splitlines()], with the line read so far: at every line boundary of Unicode. *)
Fixpoint text_lines (s cur : string) : list string :=
  match s with
  | EmptyString => if str_empty cur then [] else [cur]
  | String c s' =>
      if existsb (Z.eqb (code c)) [10; 11; 12; 28; 29; 30] then cur :: text_lines s' ""
      else if code c =? 13 then cur :: match s' with
        | String d s2 => if code d =? 10 then text_lines s2 "" else text_lines s' ""
        | EmptyString => []
        end
      else if code c =? 194 then match s' with
        | String d s2 => if code d =? 133 then cur :: text_lines s2 "" else text_lines s' (cur +:+ String c "")
        | EmptyString => [cur +:+ String c ""]
        end
      else if code c =? 226 then match s' with
        | String d (String e s3) =>
            if (code d =? 128) && ((code e =? 168) || (code e =? 169)) then cur :: text_lines s3 "" else text_lines s' (cur +:+ String c "")
        | _ => text_lines s' (cur +:+ String c "")
        end
      else text_lines s' (cur +:+ String c "")
  end.

(** ** Floats *)

Abbreviation float := spec_float.
Definition fprec : Z := 53.
Definition femax : Z := 1024.

#[export] Instance float_eq_dec : EqDecision float.
Proof. solve_decision. Defined.

Definition fzero : float := S754_zero false.
Definition fadd : float -> float -> float := SFadd fprec femax.
Definition fsub : float -> float -> float := SFsub fprec femax.
Definition fmul : float -> float -> float := SFmul fprec femax.
Definition fdiv_ieee : float -> float -> float := SFdiv fprec femax.
Definition fltb : float -> float -> bool := SFltb.
Definition fleb : float -> float -> bool := SFleb.
Definition feqb : float -> float -> bool := SFeqb.
Definition is_nan (x : float) : bool := match x with S754_nan => true | _ => false end.
Definition is_inf (x : float) : bool := match x with S754_infinity _ => true | _ => false end.
(** [math.isfinite] *)
Definition is_finite (x : float) : bool := negb (is_nan x) && negb (is_inf x).

(** The double nearest to [n / d], for [0 < d]. *)
Definition ratio (n d : Z) : float :=
  match n, d with
  | Zpos p, Zpos q => fdiv_ieee (S754_finite false p 0) (S754_finite false q 0)
  | Zneg p, Zpos q => fdiv_ieee (S754_finite true p 0) (S754_finite false q 0)
  | _, _ => fzero
  end.

(** [float(n)] of an [int]: an [OverflowError] beyond the largest double. *)
Definition float_of_int (n : Z) : res float :=
  let x := binary_normalize fprec femax n 0 false in
  if is_inf x then Raise (Exn OverflowError "int too large to convert to float") else Ok x.

(** [a / b] on floats: Python raises where IEEE division gives an infinity or a NaN. *)
Definition fdiv (a b : float) : res float :=
  if feqb b fzero then Raise (Exn ZeroDivisionError "float division by zero") else Ok (fdiv_ieee a b).

(** The integer nearest to [n / d], ties to even. *)
Definition round_half_even (n d : Z) : Z :=
  let q := n / d in
  let r := n mod d in
  match 2 * r ?= d with
  | Lt => q
  | Gt => q + 1
  | Eq => if Z.even q then q else q + 1
  end.

(** A finite float as a fraction with a positive denominator. *)
Definition float_frac (x : float) : Z * Z :=
  match x with
  | S754_finite s m e =>
      let n := if s then Zneg m else Zpos m in
      if 0 <=? e then (n * 2 ^ e, 1) else (n, 2 ^ (- e))
  | _ => (0, 1)
  end.

(** [round(x, digits)] *)
Definition fround (x : float) (digits : Z) : float :=
  match x with
  | S754_finite s m e =>
      let '(n, d) := float_frac x in
      match round_half_even (n * 10 ^ digits) d with
      | 0 => S754_zero s
      | r => ratio r (10 ^ digits)
      end
  | _ => x
  end.

(** [int(x)] of a float truncates. *)
Definition int_of_float (x : float) : res Z :=
  match x with
  | S754_nan => Raise (Exn ValueError "cannot convert float NaN to integer")
  | S754_infinity _ => Raise (Exn OverflowError "cannot convert float infinity to integer")
  | _ => let '(n, d) := float_frac x in Ok (Z.quot n d)
  end.

(** [math.floor] *)
Definition floor_of_float (x : float) : res Z :=
  match x with
  | S754_nan => Raise (Exn ValueError "cannot convert float NaN to integer")
  | S754_infinity _ => Raise (Exn OverflowError "cannot convert float infinity to integer")
  | _ => let '(n, d) := float_frac x in Ok (n / d)
  end.

(** *** Rounding never produces a NaN *)

Lemma shr_1_nonneg r : 0 <= shr_m r -> 0 <= shr_m (shr_1 r).
Proof. destruct r as [[|[]|[]] ? ?]; cbn; lia. Qed.

Lemma iter_shr_nonneg p r : 0 <= shr_m r -> 0 <= shr_m (SpecFloat.iter_pos shr_1 p r).
Proof. revert r. induction p; cbn; intros r Hr; auto using shr_1_nonneg. Qed.

Lemma shr_fexp_nonneg m e l : 0 <= m -> 0 <= shr_m (fst (shr_fexp fprec femax m e l)).
Proof.
  intros Hm. unfold shr_fexp, shr.
  assert (0 <= shr_m (shr_record_of_loc m l)) by (by destruct l as [|[]]).
  destruct (_ - e); cbn; auto using iter_shr_nonneg.
Qed.

Lemma binary_round_aux_not_nan sx m e l :
  0 <= m -> is_nan (binary_round_aux fprec femax sx m e l) = false.
Proof.
  intros Hm. unfold binary_round_aux. pose proof (shr_fexp_nonneg m e l Hm) as H1.
  destruct (shr_fexp fprec femax m e l) as [mrs' e']. cbn [fst] in H1.
  set (m2 := round_nearest_even _ _).
  assert (H2 : 0 <= m2).
  { subst m2. unfold round_nearest_even. destruct (loc_of_shr_record mrs') as [|[]]; try case_bool; lia. }
  pose proof (shr_fexp_nonneg m2 e' loc_Exact H2) as H3.
  destruct (shr_fexp fprec femax m2 e' loc_Exact) as [mrs'' e'']. cbn [fst] in H3.
  destruct (shr_m mrs''); [done| |lia]. by case_bool.
Qed.

Lemma float_of_int_not_nan n x : float_of_int n = Ok x -> is_nan x = false.
Proof.
  unfold float_of_int. case_bool; [done|]. intros [= <-].
  destruct n; [done|..]; cbn; unfold binary_round; destruct (shl_align _ _ _);
    by apply binary_round_aux_not_nan.
Qed.

Lemma float_of_int_not_inf n x : float_of_int n = Ok x -> is_inf x = false.
Proof. unfold float_of_int. case_bool; [done|]. by intros [= <-]. Qed.

Lemma fdiv_not_nan a b x :
  is_nan a = false -> is_nan b = false -> is_inf a = false -> fdiv a b = Ok x -> is_nan x = false.
Proof.
  unfold fdiv. intros Ha Hb Hia. destruct (feqb b fzero) eqn:Hz; [done|]. intros [= <-].
  destruct a as [sa|sa| |sa ma ea], b as [sb|sb| |sb mb eb]; try done.
  unfold fdiv_ieee, SFdiv. destruct (SFdiv_core_binary _ _ _ _ _ _) as [[q e'] l] eqn:E.
  apply binary_round_aux_not_nan. unfold SFdiv_core_binary in E.
  match type of E with context [Z.div_eucl ?m _] => set (m' := m) in E end.
  assert (0 <= m').
  { subst m'. destruct (_ - Z.min _ _); [lia| |lia]. apply Z.shiftl_nonneg. lia. }
  pose proof (Z.div_pos m' (Zpos mb)) as Hq. unfold Z.div in Hq.
  destruct (Z.div_eucl m' (Zpos mb)) as [q' r']. injection E as <- <- <-. lia.
Qed.

(** The ordering of floats is total away from NaN. *)
Definition float_key (x : float) : Z * Z * Z :=
  match x with
  | S754_infinity true => (-3, 0, 0)
  | S754_finite true m e => (-2, -e, Zneg m)
  | S754_zero _ => (0, 0, 0)
  | S754_finite false m e => (2, e, Zpos m)
  | S754_infinity false => (3, 0, 0)
  | S754_nan => (4, 0, 0)
  end.

Lemma fleb_key x y : is_nan x = false -> is_nan y = false ->
  fleb x y = py_le (float_key x) (float_key y).
Proof.
  intros Hx Hy. destruct x as [[]|[]| |[] mx ex], y as [[]|[]| |[] my ey]; try discriminate; try reflexivity;
    unfold fleb, SFleb, SFcompare; cbn.
  all: fold (Pos.compare mx my).
  all: destruct (Z.compare_spec ex ey) as [->|?|?]; cbn; try destruct (Pos.compare_spec mx my); cbn.
  all: repeat match goal with
       | |- context [(?a <=? ?b)%Z] => destruct (Z.leb_spec a b); try (exfalso; lia)
       end; reflexivity.
Qed.

#[export, refine] Instance py_ord_float : PyOrd float :=
  { py_le := fleb; ord_dom := fun x => is_nan x = false; py_le_total := _; py_le_trans := _ }.
Proof.
  - intros x y Hx Hy. rewrite !fleb_key by done. apply py_le_total; done.
  - intros x y z Hx Hy Hz. rewrite !fleb_key by done. apply py_le_trans; done.
Defined.
