(* ===== verification/PyValue.v ===== *)
(** * JSON documents as Python values: access, truth, equality and conversion

    The scripts read JSON documents and inspect them dynamically ([doc.get], [isinstance],
    [int(...)], [str(...)], [==]); this file gives those operations on the type [value], with the
    exceptions Python raises on values of the wrong type. *)
From stdpp Require Import pretty.
From Stdlib Require Import SpecFloat Ascii.
From S2P Require Export PyCore.

Inductive value :=
  | VNone
  | VBool (b : bool)
  | VInt (n : Z)
  | VFloat (x : float)
  | VStr (s : string)
  | VList (l : list value)
  | VDict (d : list (string * value)).

Section value_ind.
Context (P : value -> Prop).
Hypotheses (HNone : P VNone) (HBool : forall b, P (VBool b)) (HInt : forall n, P (VInt n))
  (HFloat : forall x, P (VFloat x)) (HStr : forall s, P (VStr s))
  (HList : forall l, Forall P l -> P (VList l))
  (HDict : forall d, Forall (fun kv => P (snd kv)) d -> P (VDict d)).

(** Induction on documents, with the hypothesis for every element of a list or dictionary. *)
Fixpoint value_ind' (v : value) : P v :=
  match v with
  | VNone => HNone | VBool b => HBool b | VInt n => HInt n | VFloat x => HFloat x
  | VStr s => HStr s
  | VList l => HList l ((fix go l : Forall P l :=
      match l with [] => List.Forall_nil _ | x :: l => List.Forall_cons P x l (value_ind' x) (go l) end) l)
  | VDict d => HDict d ((fix go d : Forall (fun kv => P (snd kv)) d :=
      match d with [] => List.Forall_nil _ | x :: d => List.Forall_cons _ x d (value_ind' (snd x)) (go d) end) d)
  end.
End value_ind.

Definition type_name (v : value) : string :=
  match v with
  | VNone => "NoneType" | VBool _ => "bool" | VInt _ => "int" | VFloat _ => "float"
  | VStr _ => "str" | VList _ => "list" | VDict _ => "dict"
  end.

(** ** Equality *)

(** The number a value denotes in a comparison ([True == 1 == 1.0]). *)
Definition num_eq (a b : value) : option bool :=
  let num v := match v with
    | VBool true => Some (inl 1) | VBool false => Some (inl 0)
    | VInt n => Some (inl n) | VFloat x => Some (inr x) | _ => None end in
  let float_eq_Z x n :=
    is_finite x && (let '(p, q) := float_frac x in p =? n * q) in
  match num a, num b with
  | Some (inl m), Some (inl n) => Some (m =? n)
  | Some (inl m), Some (inr y) => Some (float_eq_Z y m)
  | Some (inr x), Some (inl n) => Some (float_eq_Z x n)
  | Some (inr x), Some (inr y) => Some (feqb x y)
  | _, _ => None
  end.

(** [a == b] *)
Fixpoint py_eq (a b : value) {struct a} : bool :=
  match a, b with
  | VNone, VNone => true
  | VStr s, VStr t => String.eqb s t
  | VList l, VList m =>
      (fix go (l m : list value) : bool :=
         match l, m with
         | [], [] => true
         | x :: l, y :: m => py_eq x y && go l m
         | _, _ => false
         end) l m
  | VDict d, VDict e =>
      (length d =? length e)%nat &&
      (fix go (d : list (string * value)) : bool :=
         match d with
         | [] => true
         | (k, x) :: d => match dget k e with Some y => py_eq x y | None => false end && go d
         end) d
  | _, _ => match num_eq a b with Some r => r | None => false end
  end.

(** [v == "literal"] *)
Definition eq_str (v : value) (s : string) : bool := py_eq v (VStr s).

Lemma eq_str_true v s : eq_str v s = true <-> v = VStr s.
Proof.
  unfold eq_str. destruct v as [|[]| | | | |]; cbn; try (split; discriminate).
  rewrite String.eqb_eq. split; [intros ->; done|by intros [= ->]].
Qed.

(** ** Truth value *)
Definition py_bool (v : value) : bool :=
  match v with
  | VNone => false
  | VBool b => b
  | VInt n => negb (n =? 0)
  | VFloat x => negb (feqb x fzero)
  | VStr s => negb (str_empty s)
  | VList l => match l with [] => false | _ => true end
  | VDict d => match d with [] => false | _ => true end
  end.

(** ** Access *)

Definition is_dict (v : value) : bool := match v with VDict _ => true | _ => false end.
Definition is_list (v : value) : bool := match v with VList _ => true | _ => false end.
Definition is_str (v : value) : bool := match v with VStr _ => true | _ => false end.
(** [isinstance(v, int)]: a [bool] is an [int]. *)
Definition is_int (v : value) : bool := match v with VInt _ | VBool _ => true | _ => false end.
Definition is_bool (v : value) : bool := match v with VBool _ => true | _ => false end.
Definition is_none (v : value) : bool := match v with VNone => true | _ => false end.

Definition no_attr {A} (v : value) (attr : string) : res A :=
  Raise (Exn AttributeError ("'" +:+ type_name v +:+ "' object has no attribute '" +:+ attr +:+ "'")).

(** [d.get(k, default)] on a dictionary. *)
Definition dget_or (k : string) (dflt : value) (d : dict value) : value :=
  match dget k d with Some v => v | None => dflt end.
(** [d.get(k)] *)
Definition dget_n (k : string) (d : dict value) : value := dget_or k VNone d.

(** [{k: d[k] for k in keys if k in d}] *)
Definition pick (keys : list string) (d : dict value) : dict value :=
  omap (fun k => match dget k d with Some v => Some (k, v) | None => None end) keys.

(** [v.get(k, default)] on any value: an [AttributeError] unless [v] is a dictionary. *)
Definition vget_or (k : string) (dflt v : value) : res value :=
  match v with VDict d => Ok (dget_or k dflt d) | _ => no_attr v "get" end.
Definition vget (k : string) (v : value) : res value := vget_or k VNone v.

(** [v[k]] with a string key. *)
Definition vindex (k : string) (v : value) : res value :=
  match v with
  | VDict d => match dget k d with Some x => Ok x | None => Raise (Exn KeyError k) end
  | _ => Raise (Exn TypeError ("'" +:+ type_name v +:+ "' object cannot be indexed by a string"))
  end.

(** Iteration over a value: the elements of a list, the keys of a dictionary, the characters of a
    string. *)
Fixpoint str_chars (s : string) : list value :=
  match s with EmptyString => [] | String c s => VStr (String c EmptyString) :: str_chars s end.
Definition viter (v : value) : res (list value) :=
  match v with
  | VList l => Ok l
  | VDict d => Ok (VStr <$> dkeys d)
  | VStr s => Ok (str_chars s)
  | _ => Raise (Exn TypeError ("'" +:+ type_name v +:+ "' object is not iterable"))
  end.

(** [v.items()] *)
Definition vitems (v : value) : res (dict value) :=
  match v with VDict d => Ok d | _ => no_attr v "items" end.

(** [len(v)] *)
Definition vlen (v : value) : res Z :=
  match v with
  | VList l => Ok (Z.of_nat (length l))
  | VDict d => Ok (Z.of_nat (length d))
  | VStr s => Ok (Z.of_nat (String.length s))
  | _ => Raise (Exn TypeError ("object of type '" +:+ type_name v +:+ "' has no len()"))
  end.

(** ** Numbers from strings *)

Definition digit_val (base : Z) (c : ascii) : option Z :=
  let n := code c in
  let v := if is_digit c then n - 48
           else if is_lower c then n - 87 else if is_upper c then n - 55 else 99 in
  if v <? base then Some v else None.

(** Digits with single underscores between them; [us] says that an underscore may come next. *)
Fixpoint parse_digits (base : Z) (s : string) (acc : Z) (seen us : bool) : option Z :=
  match s with
  | EmptyString => if seen && us then Some acc else None
  | String c s =>
      if Ascii.eqb c "_" then if us then parse_digits base s acc seen false else None
      else match digit_val base c with
           | Some v => parse_digits base s (acc * base + v) true true
           | None => None
           end
  end.

Definition split_sign (s : string) : bool * string :=
  match s with
  | String c s' => if Ascii.eqb c "-" then (true, s') else if Ascii.eqb c "+" then (false, s') else (false, s)
  | EmptyString => (false, s)
  end.

Definition apply_sign (neg : bool) (o : option Z) : option Z :=
  match o with Some n => Some (if neg then - n else n) | None => None end.

(** [int(s)] *)
Definition int_of_string (s : string) : option Z :=
  let '(neg, s) := split_sign (str_strip s) in
  apply_sign neg (parse_digits 10 s 0 false false).

(** [int(s, 0)]: the base comes from the prefix, and a decimal literal has no leading zero. *)
Definition int_of_string0 (s : string) : option Z :=
  let '(neg, s) := split_sign (str_strip s) in
  apply_sign neg
    (match s with
     | String "0" (String c s') =>
         if Ascii.eqb (lower_char c) "x" then parse_digits 16 s' 0 false true
         else if Ascii.eqb (lower_char c) "o" then parse_digits 8 s' 0 false true
         else if Ascii.eqb (lower_char c) "b" then parse_digits 2 s' 0 false true
         else match parse_digits 10 s 0 false false with Some 0 => Some 0 | _ => None end
     | _ => parse_digits 10 s 0 false false
     end).

(** The leading digits of a string: their value, how many they are, and the rest. *)
Fixpoint take_digits (s : string) (acc count : Z) : Z * Z * string :=
  match s with
  | String c s' =>
      if is_digit c then take_digits s' (acc * 10 + (code c - 48)) (count + 1)
      else match s' with
           | String c' s'' =>
               if Ascii.eqb c "_" && (0 <? count) && is_digit c'
               then take_digits s'' (acc * 10 + (code c' - 48)) (count + 1)
               else (acc, count, s)
           | EmptyString => (acc, count, s)
           end
  | EmptyString => (acc, count, s)
  end.

Definition float_neg (x : float) : float := SFopp x.

(** [float(s)] *)
Definition float_of_string (s : string) : option float :=
  let '(neg, s) := split_sign (str_strip s) in
  let sgn x := if neg : bool then float_neg x else x in
  let low := str_lower s in
  if String.eqb low "inf" || String.eqb low "infinity" then Some (sgn (S754_infinity false))
  else if String.eqb low "nan" then Some S754_nan
  else
    let '(ip, ic, rest) := take_digits s 0 0 in
    let '(fp, fc, rest) :=
      match rest with
      | String "." rest => take_digits rest ip 0
      | _ => (ip, 0, rest)
      end in
    if ic + fc =? 0 then None
    else
      let finish (e : Z) :=
        let e := e - fc in
        Some (sgn (if 0 <=? e then ratio (fp * 10 ^ e) 1 else ratio fp (10 ^ (- e)))) in
      match rest with
      | EmptyString => finish 0
      | String c rest =>
          if Ascii.eqb (lower_char c) "e" then
            let '(eneg, rest) := split_sign rest in
            match take_digits rest 0 0 with
            | (e, ec, EmptyString) => if ec =? 0 then None else finish (if eneg : bool then - e else e)
            | _ => None
            end
          else None
      end.

(** ** Conversions *)

(** [int(v)] *)
Definition py_int (v : value) : res Z :=
  match v with
  | VInt n => Ok n
  | VBool b => Ok (if b then 1 else 0)
  | VFloat x => int_of_float x
  | VStr s => match int_of_string s with
              | Some n => Ok n
              | None => Raise (Exn ValueError "invalid literal for int() with base 10")
              end
  | _ => Raise (Exn TypeError "int() argument must be a string, a bytes-like object or a real number")
  end.

(** [float(v)] *)
Definition py_float (v : value) : res float :=
  match v with
  | VFloat x => Ok x
  | VInt n => float_of_int n
  | VBool b => float_of_int (if b then 1 else 0)
  | VStr s => match float_of_string s with
              | Some x => Ok x
              | None => Raise (Exn ValueError "could not convert string to float")
              end
  | _ => Raise (Exn TypeError "float() argument must be a string or a real number")
  end.

(** *** Shortest decimal representation of a float ([repr(x)])

    [decimal_exp n d] is the [k] with [10^(k-1) <= n/d < 10^k].  For each number of digits from 1
    to 17 the nearest decimal (then its neighbour) is tried until one rounds back to the float. *)
Fixpoint decimal_exp_up (fuel : nat) (k n d : Z) : Z :=
  match fuel with
  | O => k
  | S fuel => if n <? d * 10 ^ k then k else decimal_exp_up fuel (k + 1) n d
  end.
Fixpoint decimal_exp_down (fuel : nat) (k n d : Z) : Z :=
  match fuel with
  | O => k
  | S fuel => if n * 10 ^ (1 - k) <? d then decimal_exp_down fuel (k - 1) n d else k
  end.
Definition decimal_exp (n d : Z) : Z :=
  if n <? d then decimal_exp_down 400 0 n d else decimal_exp_up 400 1 n d.

Definition decimal_value (digits e : Z) : float :=
  if 0 <=? e then ratio (digits * 10 ^ e) 1 else ratio digits (10 ^ (- e)).

Fixpoint shortest (fuel : nat) (nd k n d : Z) (x : float) : Z * Z :=
  let e := k - nd in
  let '(sn, sd) := if 0 <=? e then (n, d * 10 ^ e) else (n * 10 ^ (- e), d) in
  let r := round_half_even sn sd in
  let other := if r * sd <? sn then r + 1 else r - 1 in
  match fuel with
  | O => (r, e)
  | S fuel =>
      if feqb (decimal_value r e) x then (r, e)
      else if feqb (decimal_value other e) x then (other, e)
      else shortest fuel (nd + 1) k n d x
  end.

Fixpoint zeros (n : nat) : string := match n with O => EmptyString | S n => "0" +:+ zeros n end.

Definition float_repr (x : float) : string :=
  match x with
  | S754_nan => "nan"
  | S754_infinity s => if s then "-inf" else "inf"
  | S754_zero s => if s then "-0.0" else "0.0"
  | S754_finite s m e =>
      let '(n, d) := float_frac (S754_finite false m e) in
      let '(digits, ex) := shortest 17 1 (decimal_exp n d) n d (S754_finite false m e) in
      let ds := pretty digits in
      let nd := Z.of_nat (String.length ds) in
      let point := nd + ex in
      let body :=
        if (-4 <? point) && (point <=? 16) then
          if point <=? 0 then "0." +:+ zeros (Z.to_nat (- point)) +:+ ds
          else if nd <=? point then ds +:+ zeros (Z.to_nat (point - nd)) +:+ ".0"
          else String.substring 0 (Z.to_nat point) ds +:+ "." +:+
               String.substring (Z.to_nat point) (Z.to_nat (nd - point)) ds
        else
          let ee := point - 1 in
          let mant := if nd =? 1 then ds
                      else String.substring 0 1 ds +:+ "." +:+ String.substring 1 (Z.to_nat (nd - 1)) ds in
          let es := pretty (Z.abs ee) in
          mant +:+ "e" +:+ (if ee <? 0 then "-" else "+") +:+
          (if (String.length es <? 2)%nat then "0" +:+ es else es) in
      if s then "-" +:+ body else body
  end.

(** [f"{x:g}"]: six significant digits without trailing zeros. *)
Fixpoint strip_zeros (fuel : nat) (digits e : Z) : Z * Z :=
  match fuel with
  | O => (digits, e)
  | S fuel => if (digits mod 10 =? 0) && negb (digits =? 0) then strip_zeros fuel (digits / 10) (e + 1)
              else (digits, e)
  end.
(** [digits * 10 ^ ex] written out. *)
Definition decimal_text (digits ex : Z) : string :=
  let ds := pretty digits in
  let nd := Z.of_nat (String.length ds) in
  let point := nd + ex in
  if point <=? 0 then "0." +:+ zeros (Z.to_nat (- point)) +:+ ds
  else if nd <=? point then ds +:+ zeros (Z.to_nat (point - nd))
  else String.substring 0 (Z.to_nat point) ds +:+ "." +:+
       String.substring (Z.to_nat point) (Z.to_nat (nd - point)) ds.
Definition float_g (x : float) : string :=
  match x with
  | S754_nan => "nan"
  | S754_infinity s => if s then "-inf" else "inf"
  | S754_zero s => if s then "-0" else "0"
  | S754_finite s m e =>
      let '(n, d) := float_frac (S754_finite false m e) in
      let k := decimal_exp n d in
      let r := if 0 <=? k - 6 then round_half_even n (d * 10 ^ (k - 6))
               else round_half_even (n * 10 ^ (6 - k)) d in
      let k := if r =? 10 ^ 6 then k + 1 else k in
      let '(digits, ex) := strip_zeros 7 (if r =? 10 ^ 6 then 10 ^ 5 else r) (k - 6) in
      let body :=
        if (-4 <=? k - 1) && (k - 1 <? 6) then decimal_text digits ex
        else let ds := pretty digits in
             let es := pretty (Z.abs (k - 1)) in
             (if (String.length ds =? 1)%nat then ds
              else String.substring 0 1 ds +:+ "." +:+ String.substring 1 (String.length ds - 1) ds) +:+
             "e" +:+ (if k - 1 <? 0 then "-" else "+") +:+
             (if (String.length es <? 2)%nat then "0" +:+ es else es) in
      if s then "-" +:+ body else body
  end.

(** [f"{x:.{d}f}"] *)
Definition fixed_text (r d : Z) : string :=
  let ds := pretty r in
  let n := Z.to_nat d in
  let ds := if (String.length ds <=? n)%nat then zeros (S n - String.length ds) +:+ ds else ds in
  let k := (String.length ds - n)%nat in
  if d =? 0 then ds else String.substring 0 k ds +:+ "." +:+ String.substring k n ds.
Definition float_fixed (d : Z) (x : float) : string :=
  match x with
  | S754_nan => "nan"
  | S754_infinity s => if s then "-inf" else "inf"
  | S754_zero s => (if s then "-" else "") +:+ fixed_text 0 d
  | S754_finite s m e =>
      let '(n, q) := float_frac (S754_finite false m e) in
      (if s then "-" else "") +:+ fixed_text (round_half_even (n * 10 ^ d) q) d
  end.

(** [f"{s:>w}"] *)
Fixpoint spaces (n : nat) : string := match n with O => EmptyString | S n => " " +:+ spaces n end.
Definition pad_left (w : nat) (s : string) : string := spaces (w - String.length s) +:+ s.
(** [f"{n:0wd}"] of a non-negative number. *)
Definition zpad (w : nat) (n : Z) : string := let s := pretty n in zeros (w - String.length s) +:+ s.

(** *** [repr] and [str] *)

(** [repr] of an ASCII string. *)
Definition repr_char (quote : ascii) (c : ascii) : string :=
  if Ascii.eqb c quote || Ascii.eqb c "\" then String "\" (String c EmptyString)
  else if code c =? 10 then "\n"
  else if code c =? 13 then "\r"
  else if code c =? 9 then "\t"
  else if (code c <? 32) || (code c =? 127) then "\x" +:+ hex_digits 2 (code c)
  else String c EmptyString.
Fixpoint repr_chars (quote : ascii) (s : string) : string :=
  match s with EmptyString => EmptyString | String c s => repr_char quote c +:+ repr_chars quote s end.
Definition str_repr (s : string) : string :=
  let dq := ascii_of_nat 34 in
  let quote := if str_mem "'" s && negb (str_mem dq s) then dq else "'"%char in
  String quote (repr_chars quote s +:+ String quote EmptyString).

(** [repr(v)] *)
Fixpoint py_repr (v : value) : string :=
  match v with
  | VNone => "None"
  | VBool b => if b then "True" else "False"
  | VInt n => pretty n
  | VFloat x => float_repr x
  | VStr s => str_repr s
  | VList l => "[" +:+ str_join ", " (py_repr <$> l) +:+ "]"
  | VDict d => "{" +:+ str_join ", " ((fun kv => str_repr (fst kv) +:+ ": " +:+ py_repr (snd kv)) <$> d) +:+ "}"
  end.

(** [str(v)] *)
Definition py_str (v : value) : string := match v with VStr s => s | _ => py_repr v end.

(** [f"0x{n:08x}"] of a non-negative number. *)
Fixpoint hex_len (fuel : nat) (n : Z) : nat :=
  match fuel with O => O | S f => if n =? 0 then O else S (hex_len f (n / 16)) end.
Definition hex_pad (w : nat) (n : Z) : string :=
  hex_digits (Nat.max w (hex_len (Z.to_nat (Z.log2 n + 2)) n)) n.

Example float_repr_01 : float_repr (ratio 1 10) = "0.1". Proof. vm_compute. reflexivity. Qed.
Example float_repr_third : float_repr (ratio 2 3) = "0.6666666666666666". Proof. vm_compute. reflexivity. Qed.
Example float_g_ex : (float_g <$> [ratio 60 1; ratio 1 2; ratio 2 3; ratio 1234567 1; ratio 9999999 10; ratio 1 100000]) =
  ["60"; "0.5"; "0.666667"; "1.23457e+06"; "1e+06"; "1e-05"]. Proof. vm_compute. reflexivity. Qed.
Example float_fixed_ex : (float_fixed 4 <$> [ratio 2 3; ratio 1 100000; ratio 25 2]) = ["0.6667"; "0.0000"; "12.5000"].
Proof. vm_compute. reflexivity. Qed.
Example float_repr_big : float_repr (ratio (10 ^ 22) 1) = "1e+22". Proof. vm_compute. reflexivity. Qed.
Example float_repr_pow : float_repr (ratio 1 (2 ^ 44)) = "5.684341886080802e-14". Proof. vm_compute. reflexivity. Qed.
Example float_of_string_ex : float_of_string " -1_0.5e1 " = Some (ratio (-105) 1). Proof. vm_compute. reflexivity. Qed.
Example int_of_string0_ex : int_of_string0 "0x7Fff_0000" = Some 0x7fff0000. Proof. vm_compute. reflexivity. Qed.
Example fround_ex : float_repr (fround (ratio 2 3) 6) = "0.666667". Proof. vm_compute. reflexivity. Qed.
