(* ===== verification/PyState.v ===== *)
(** * Programs with effects: a state and exception monad

    [M W A] is a computation on a world [W] that returns or raises; what it wrote before raising
    stays written.  [wp] is its weakest precondition, with the rules the proofs of stateful
    components use. *)
From S2P Require Export PyValue.

Definition M (W A : Type) : Type := W -> res A * W.

#[export] Instance M_ret {W} : MRet (M W) := fun A a w => (Ok a, w).
#[export] Instance M_bind {W} : MBind (M W) := fun A B f m w =>
  match m w with
  | (Ok a, w) => f a w
  | (Raise e, w) => (Raise e, w)
  end.

Section operations.
Context {W : Type}.

Definition lift {A} (r : res A) : M W A := fun w => (r, w).
Definition gets {A} (f : W -> A) : M W A := fun w => (Ok (f w), w).
Definition modify (f : W -> W) : M W unit := fun w => (Ok tt, f w).
Definition throw {A} (c : exc_class) (msg : string) : M W A := lift (Raise (Exn c msg)).

(** [try: m except (cs): handler] *)
Definition catch {A} (cs : list exc_class) (m : M W A) (handler : exn -> M W A) : M W A := fun w =>
  match m w with
  | (Raise e, w) => if handled cs e then handler e w else (Raise e, w)
  | r => r
  end.

(** [for x in l: s = f(s, x)] *)
Fixpoint m_fold {A S} (f : S -> A -> M W S) (s : S) (l : list A) : M W S :=
  match l with
  | [] => mret s
  | x :: l => s ← f s x; m_fold f s l
  end.

Fixpoint m_iter {A} (f : A -> M W unit) (l : list A) : M W unit :=
  match l with
  | [] => mret tt
  | x :: l => _ ← f x; m_iter f l
  end.

Fixpoint m_map {A B} (f : A -> M W B) (l : list A) : M W (list B) :=
  match l with
  | [] => mret []
  | x :: l => y ← f x; ys ← m_map f l; mret (y :: ys)
  end.

(** ** Weakest preconditions *)

Definition wp {A} (m : M W A) (Q : res A -> W -> Prop) (w : W) : Prop := Q (fst (m w)) (snd (m w)).

(** A postcondition on normal return that excludes exceptions. *)
Definition returns {A} (Q : A -> W -> Prop) : res A -> W -> Prop :=
  fun r w => match r with Ok a => Q a w | Raise _ => False end.

Lemma wp_bind {A B} (m : M W A) (f : A -> M W B) Q w :
  wp (m ≫= f) Q w <->
  wp m (fun r w => match r with Ok a => wp (f a) Q w | Raise e => Q (Raise e) w end) w.
Proof. unfold wp, mbind, M_bind. by destruct (m w) as [[a|e] w']. Qed.

Lemma wp_ret {A} (a : A) Q w : wp (mret a) Q w <-> Q (Ok a) w.
Proof. done. Qed.

Lemma wp_lift {A} (r : res A) Q w : wp (lift r) Q w <-> Q r w.
Proof. done. Qed.

Lemma wp_mono {A} (m : M W A) (Q Q' : res A -> W -> Prop) w :
  wp m Q w -> (forall r w', Q r w' -> Q' r w') -> wp m Q' w.
Proof. unfold wp. auto. Qed.

(** Sequencing when the first part is known to return. *)
Lemma wp_seq {A B} (m : M W A) (f : A -> M W B) (R : A -> W -> Prop) Q w :
  wp m (returns R) w -> (forall a w', R a w' -> wp (f a) Q w') -> wp (m ≫= f) Q w.
Proof. unfold wp, mbind, M_bind. destruct (m w) as [[a|e] w']; cbn; [auto|done]. Qed.

(** A loop keeps an invariant that each pass keeps. *)
Lemma wp_fold {A S} (f : S -> A -> M W S) (I : S -> W -> Prop) (l : list A) s w :
  (forall s x w, x ∈ l -> I s w -> wp (f s x) (returns I) w) ->
  I s w -> wp (m_fold f s l) (returns I) w.
Proof.
  revert s w. induction l as [|x l IH]; intros s w Hf Hs; cbn [m_fold]; [exact Hs|].
  eapply wp_seq; [apply Hf; [by left|exact Hs]|].
  intros s' w' Hs'. apply IH; [|exact Hs']. intros ??? Hin. apply Hf. by right.
Qed.

Lemma wp_iter {A} (f : A -> M W unit) (I : W -> Prop) (l : list A) w :
  (forall x w, x ∈ l -> I w -> wp (f x) (returns (fun _ => I)) w) ->
  I w -> wp (m_iter f l) (returns (fun _ => I)) w.
Proof.
  revert w. induction l as [|x l IH]; intros w Hf Hw; cbn [m_iter]; [exact Hw|].
  eapply wp_seq; [apply Hf; [by left|exact Hw]|].
  intros u w' Hw'. apply IH; [|exact Hw']. intros ?? Hin. apply Hf. by right.
Qed.
End operations.

(** ** Computations that returned *)

Section returned.
Context {W : Type}.

Lemma m_bind_Ok {A B} (m : M W A) (f : A -> M W B) w b w2 :
  (m ≫= f) w = (Ok b, w2) <-> exists a w1, m w = (Ok a, w1) /\ f a w1 = (Ok b, w2).
Proof. unfold mbind, M_bind. destruct (m w) as [[a|e] w1]; naive_solver. Qed.

Lemma m_ret_Ok {A} (a b : A) (w w' : W) : @mret (M W) _ A a w = (Ok b, w') <-> a = b /\ w = w'.
Proof. unfold mret, M_ret. naive_solver. Qed.

Lemma m_lift_Ok {A} (r : res A) (w w' : W) a : lift r w = (Ok a, w') <-> r = Ok a /\ w = w'.
Proof. unfold lift. naive_solver. Qed.

Lemma m_gets_Ok {A} (f : W -> A) w w' a : gets f w = (Ok a, w') <-> f w = a /\ w = w'.
Proof. unfold gets. naive_solver. Qed.

Lemma m_modify_Ok (f : W -> W) w w' u : modify f w = (Ok u, w') <-> f w = w'.
Proof. unfold modify. destruct u. naive_solver. Qed.
End returned.

(** [inv_M] decomposes hypotheses that say that an effectful computation returned. *)
Ltac inv_M :=
  repeat match goal with
  | H : (_ ≫= _) _ = (Ok _, _) |- _ =>
      let x := fresh "x" in let w := fresh "w" in apply m_bind_Ok in H as (x & w & ? & ?)
  | H : mret _ _ = (Ok _, _) |- _ => apply m_ret_Ok in H as [? ?]; subst
  | H : lift _ _ = (Ok _, _) |- _ => apply m_lift_Ok in H as [H ?]; subst
  | H : gets _ _ = (Ok _, _) |- _ => apply m_gets_Ok in H as [? ?]; subst
  | H : modify _ _ = (Ok _, _) |- _ => apply m_modify_Ok in H; subst
  | H : throw _ _ _ = (Ok _, _) |- _ => discriminate H
  end.
