(* ===== verification/Schedule.v ===== *)
(** * The campaign scheduler ([scripts/ppc_lab_schedule.py])

    Manifest validation, the persisted scheduler state, weighted fair-share selection, quota
    admission and the supervision loop of [main], one iteration at a time.  What an iteration
    observes of the outside world (control markers, clocks, processes) is a [tick]. *)
From stdpp Require Import pretty.
From Stdlib Require Import SpecFloat Ascii.
From S2P Require Export PyValue.

Definition MANIFEST_SCHEMA := "ppc-lab-scheduler-v1".
Definition STATE_SCHEMA := "ppc-lab-scheduler-state-v1".
Definition SUMMARY_SCHEMA := "ppc-lab-scheduler-summary-v1".

(** ** Validation of the manifest *)

Definition validate_id (value : value) (label : string) : res string :=
  match value with
  | VStr s =>
      if str_empty s || negb (str_forall id_char s)
      then app_error (label +:+ " must be a non-empty portable identifier")
      else Ok s
  | _ => app_error (label +:+ " must be a non-empty portable identifier")
  end.

Definition positive_int (value : value) (label : string) (allow_zero : bool) : res Z :=
  match py_int value with
  | Raise _ => app_error (label +:+ " must be an integer")
  | Ok n =>
      if n <? (if allow_zero then 0 else 1)
      then app_error (label +:+ " must be " +:+ (if allow_zero then "non-negative" else "positive"))
      else Ok n
  end.

Definition positive_float (value : value) (label : string) : res float :=
  match py_float value with
  | Raise _ => app_error (label +:+ " must be a number")
  | Ok n => if fleb n fzero then app_error (label +:+ " must be positive") else Ok n
  end.

Record project := Project {
  p_id : string;
  p_order : Z;
  p_weight : Z;
  p_max_concurrent : Z;
  p_case_budget : option Z;
  p_wall_seconds : option float
}.

Record campaign := Campaign {
  c_id : string;
  c_project : string;
  c_manifest : string;
  c_out : string;
  c_priority : Z;
  c_reserve_cases : Z;
  c_wall_seconds : option float;
  c_order : Z
}.

(** [None if v is None else f(v)] *)
Definition unless_none {A} (v : value) (f : value -> res A) : res (option A) :=
  if is_none v then Ok None else x ← f v; Ok (Some x).

(** The path operations validation uses: [expanduser], [resolve] and [is_file] consult the
    file system and the environment. *)
Record path_env := PathEnv {
  expanduser : string -> res string;
  resolve : string -> res string;
  is_file : string -> bool
}.
Definition is_absolute (p : string) : bool := str_startswith "/" p.
Definition path_join (a b : string) : string := if is_absolute b then b else a +:+ "/" +:+ b.

Section validate.
Context (env : path_env).

Definition validate_project (global_max : Z) (projects : dict project) (order : Z) (raw : value) :
    res (dict project) :=
  _ ← guard_app (is_dict raw) "each project must be an object";
  rid ← vget "id" raw;
  pid ← validate_id rid "project.id";
  _ ← guard_app (negb (dmem pid projects)) ("duplicate project id: " +:+ pid);
  rweight ← vget_or "weight" (VInt 1) raw;
  weight ← positive_int rweight ("project " +:+ pid +:+ " weight") false;
  rmax ← vget_or "max_concurrent" (VInt global_max) raw;
  max_concurrent ← positive_int rmax ("project " +:+ pid +:+ " max_concurrent") false;
  case_budget ← vget "case_budget" raw;
  wall_budget ← vget "wall_seconds" raw;
  cb ← unless_none case_budget (fun v => positive_int v ("project " +:+ pid +:+ " case_budget") true);
  ws ← unless_none wall_budget (fun v => positive_float v ("project " +:+ pid +:+ " wall_seconds"));
  Ok (dset pid (Project pid order weight max_concurrent cb ws) projects).

Definition validate_campaign (base out : string) (projects : dict project)
    (acc : list campaign * list string) (order : Z) (raw : value) : res (list campaign * list string) :=
  let '(campaigns, seen) := acc in
  _ ← guard_app (is_dict raw) "each campaign must be an object";
  rid ← vget "id" raw;
  cid ← validate_id rid "campaign.id";
  _ ← guard_app (negb (bool_decide (cid ∈ seen))) ("duplicate campaign id: " +:+ cid);
  let seen := seen ++ [cid] in
  rproject ← vget "project" raw;
  pid ← validate_id rproject ("campaign " +:+ cid +:+ " project");
  _ ← guard_app (dmem pid projects) ("campaign " +:+ cid +:+ " references unknown project " +:+ pid);
  mraw ← vget "manifest" raw;
  _ ← guard_app (is_str mraw && py_bool mraw) ("campaign " +:+ cid +:+ " manifest must be a path string");
  manifest ← expanduser env (py_str mraw);
  manifest ← resolve env (if is_absolute manifest then manifest else path_join base manifest);
  _ ← guard_app (is_file env manifest) ("campaign " +:+ cid +:+ " manifest missing: " +:+ manifest);
  oraw ← vget "out" raw;
  campaign_out ← (if is_none oraw then Ok (path_join (path_join out "campaigns") cid)
                  else expanduser env (py_str oraw));
  campaign_out ← resolve env
    (if is_absolute campaign_out then campaign_out else path_join out campaign_out);
  rpriority ← vget_or "priority" (VInt 0) raw;
  priority ← py_int rpriority;
  rreserve ← vget_or "reserve_cases" (VInt 0) raw;
  reserve_cases ← positive_int rreserve ("campaign " +:+ cid +:+ " reserve_cases") true;
  wall_seconds ← vget "wall_seconds" raw;
  ws ← unless_none wall_seconds (fun v => positive_float v ("campaign " +:+ cid +:+ " wall_seconds"));
  Ok (campaigns ++ [Campaign cid pid manifest campaign_out priority reserve_cases ws order], seen).

Definition nonempty_list (v : value) : bool := is_list v && py_bool v.

Definition validate_manifest (doc : value) (base out : string) :
    res (dict project * list campaign * Z) :=
  _ ← guard_app (match doc with VDict d => eq_str (dget_n "schema" d) MANIFEST_SCHEMA | _ => false end)
        ("scheduler schema must be " +:+ MANIFEST_SCHEMA);
  global_cfg ← vget_or "resources" (VDict []) doc;
  _ ← guard_app (is_dict global_cfg) "resources must be an object";
  rmax ← vget_or "max_concurrent" (VInt 1) global_cfg;
  global_max ← positive_int rmax "resources.max_concurrent" false;
  raw_projects ← vget "projects" doc;
  _ ← guard_app (nonempty_list raw_projects) "projects must be a non-empty array";
  rp ← viter raw_projects;
  projects ← res_fold (fun ps '(order, raw) => validate_project global_max ps order raw) [] (enumerate rp);
  raw_campaigns ← vget "campaigns" doc;
  _ ← guard_app (nonempty_list raw_campaigns) "campaigns must be a non-empty array";
  rc ← viter raw_campaigns;
  acc ← res_fold (fun acc '(order, raw) => validate_campaign base out projects acc order raw)
          ([], []) (enumerate rc);
  Ok (projects, fst acc, global_max).
End validate.

(** ** The persisted state *)

Inductive status := Pending | Running | Complete | Failed | Cancelled | QuotaBlocked.

#[export] Instance status_eq_dec : EqDecision status.
Proof. solve_decision. Defined.

Definition status_name (s : status) : string :=
  match s with
  | Pending => "pending" | Running => "running" | Complete => "complete"
  | Failed => "failed" | Cancelled => "cancelled" | QuotaBlocked => "quota-blocked"
  end.

(** [TERMINAL] *)
Definition terminal (s : status) : bool :=
  match s with Pending | Running => false | _ => true end.

Record project_state := ProjectState {
  ps_weight : Z;
  ps_max_concurrent : Z;
  ps_case_budget : option Z;
  ps_wall_seconds : option float;
  ps_reserved_cases : Z;
  ps_elapsed_seconds : float;
  ps_dispatched : Z
}.

Record campaign_state := CampaignState {
  cs_id : string;
  cs_project : string;
  cs_priority : Z;
  cs_reserve_cases : Z;
  cs_manifest : string;
  cs_out : string;
  cs_status : status;
  cs_attempts : Z;
  cs_pid : option Z;
  cs_command : list string;
  cs_reason : option string;
  cs_returncode : option Z;
  cs_elapsed_seconds : option float
}.

Record event_rec := Event {
  ev_seq : Z;
  ev_kind : string;
  ev_unix : float;
  ev_extra : dict value;
  ev_campaign : option string
}.

Record state := State {
  st_schema : string;
  st_manifest_sha256 : string;
  st_created_unix : float;
  st_projects : dict project_state;
  st_campaigns : dict campaign_state;
  st_events : list event_rec
}.

Definition with_campaigns (st : state) (cs : dict campaign_state) : state :=
  State (st_schema st) (st_manifest_sha256 st) (st_created_unix st) (st_projects st) cs (st_events st).
Definition with_projects (st : state) (ps : dict project_state) : state :=
  State (st_schema st) (st_manifest_sha256 st) (st_created_unix st) ps (st_campaigns st) (st_events st).
Definition with_events (st : state) (es : list event_rec) : state :=
  State (st_schema st) (st_manifest_sha256 st) (st_created_unix st) (st_projects st) (st_campaigns st) es.

Definition new_project_state (p : project) : project_state :=
  ProjectState (p_weight p) (p_max_concurrent p) (p_case_budget p) (p_wall_seconds p) 0 fzero 0.
Definition new_campaign_state (c : campaign) : campaign_state :=
  CampaignState (c_id c) (c_project c) (c_priority c) (c_reserve_cases c) (c_manifest c) (c_out c)
    Pending 0 None [] None None None.

Definition new_state (now : float) (manifest_hash : string) (projects : dict project)
    (campaigns : list campaign) : state :=
  State STATE_SCHEMA manifest_hash now
    (prod_map id new_project_state <$> projects)
    (fold_left (fun d c => dset (c_id c) (new_campaign_state c) d) campaigns [])
    [].

(** A campaign that was running when the scheduler died is pending again. *)
Definition requeue (r : campaign_state) : campaign_state :=
  match cs_status r with
  | Running =>
      CampaignState (cs_id r) (cs_project r) (cs_priority r) (cs_reserve_cases r) (cs_manifest r)
        (cs_out r) Pending (cs_attempts r) None (cs_command r) (cs_reason r) (cs_returncode r)
        (cs_elapsed_seconds r)
  | _ => r
  end.

(** [load_state]; [existing] is the parse of [state.json] when the file exists. *)
Definition load_state (existing : option state) (now : float) (manifest_hash : string)
    (projects : dict project) (campaigns : list campaign) (resume : bool) : res state :=
  match existing with
  | Some st =>
      _ ← guard_app resume "scheduler state exists; use --resume or a new --out directory";
      _ ← guard_app (String.eqb (st_schema st) STATE_SCHEMA && String.eqb (st_manifest_sha256 st) manifest_hash)
            "scheduler manifest changed since checkpoint; use a new --out directory";
      Ok (with_campaigns st (prod_map id requeue <$> st_campaigns st))
  | None =>
      _ ← guard_app (negb resume) "--resume requested but scheduler state does not exist";
      Ok (new_state now manifest_hash projects campaigns)
  end.

Definition event (clock : Z -> float) (kind : string) (campaign : option string) (extra : dict value)
    (st : state) : state :=
  let seq := Z.of_nat (length (st_events st)) in
  with_events st (st_events st ++ [Event seq kind (clock seq) extra campaign]).

(** ** Selection and admission *)

Definition running_count (pid : string) (running_by_project : dict Z) : Z :=
  default 0 (dget pid running_by_project).

(** The campaigns of a project whose recorded status is still pending. *)
Fixpoint pending_of (pid : string) (st : state) (campaigns : list campaign) : res (list campaign) :=
  match campaigns with
  | [] => Ok []
  | c :: cs =>
      if String.eqb (c_project c) pid then
        r ← dindex (c_id c) (st_campaigns st);
        rest ← pending_of pid st cs;
        Ok (if bool_decide (cs_status r = Pending) then c :: rest else rest)
      else pending_of pid st cs
  end.

(** [ps["dispatched"] / float(p["weight"])]: the service ratio of a project. *)
Definition service_ratio (p : project) (ps : project_state) : res float :=
  w ← float_of_int (p_weight p);
  d ← float_of_int (ps_dispatched ps);
  fdiv d w.

Definition candidate : Type := float * Z * string.

Fixpoint eligible_projects (projects : dict project) (campaigns : list campaign) (st : state)
    (running_by_project : dict Z) : res (list candidate) :=
  match projects with
  | [] => Ok []
  | (pid, p) :: rest =>
      if p_max_concurrent p <=? running_count pid running_by_project
      then eligible_projects rest campaigns st running_by_project
      else
        pending ← pending_of pid st campaigns;
        match pending with
        | [] => eligible_projects rest campaigns st running_by_project
        | _ =>
            ps ← dindex pid (st_projects st);
            share ← service_ratio p ps;
            l ← eligible_projects rest campaigns st running_by_project;
            Ok ((share, p_order p, pid) :: l)
        end
  end.

(** Within a project: highest priority, then manifest order. *)
Definition campaign_key (c : campaign) : Z * Z * string := (- c_priority c, c_order c, c_id c).

Definition choose_next (campaigns : list campaign) (st : state) (projects : dict project)
    (running_by_project : dict Z) : res (option campaign) :=
  eligible ← eligible_projects projects campaigns st running_by_project;
  match py_min (fun x : candidate => x) eligible with
  | None => Ok None
  | Some (_, _, pid) =>
      pending ← pending_of pid st campaigns;
      Ok (py_min campaign_key pending)
  end.

Definition quota_allows (c : campaign) (st : state) (projects : dict project) :
    res (bool * option string) :=
  let pid := c_project c in
  p ← dindex pid projects;
  ps ← dindex pid (st_projects st);
  if match p_case_budget p with
     | Some b => b <? ps_reserved_cases ps + c_reserve_cases c
     | None => false
     end
  then Ok (false, Some "project-case-budget")
  else if match p_wall_seconds p with
          | Some w => fleb w (ps_elapsed_seconds ps)
          | None => false
          end
  then Ok (false, Some "project-wall-budget")
  else Ok (true, None).

(** ** The summary *)

Definition count_status (s : status) (cs : dict campaign_state) : Z :=
  Z.of_nat (length (List.filter (fun r => bool_decide (cs_status r = s)) (dvalues cs))).

(** [counts[name] = counts.get(name, 0) + 1], over the records. *)
Definition bump (k : string) (d : dict Z) : dict Z := dset k (default 0 (dget k d) + 1) d.
Definition status_counts (cs : dict campaign_state) : dict Z :=
  fold_left (fun d r => bump (status_name (cs_status r)) d) (dvalues cs) [].

Definition sum_status (counts : dict Z) (drained : bool) : string :=
  let n k := default 0 (dget k counts) in
  if drained && negb (n "pending" =? 0) then "drained"
  else if negb (n "running" =? 0) || negb (n "pending" =? 0) then "incomplete"
  else if negb (n "failed" =? 0) || negb (n "cancelled" =? 0) then "complete-with-failures"
  else "complete".

Record summary_doc := Summary {
  sum_schema : string;
  sum_state : string;
  sum_counts : dict Z;
  sum_projects : dict project_state;
  sum_campaigns : list campaign_state;
  sum_events : list event_rec
}.

Definition summary (st : state) (drained : bool) : summary_doc :=
  let counts := status_counts (st_campaigns st) in
  Summary SUMMARY_SCHEMA (sum_status counts drained)
    (py_sorted fst counts) (st_projects st)
    (snd <$> py_sorted fst (st_campaigns st)) (st_events st).

(** ** The supervision loop *)

(** A launched process: what [running[cid]] holds. *)
Record live := Live { lv_pid : Z; lv_started : float; lv_wall_seconds : option float }.

(** What one iteration of the loop observes. *)
Record tick := Tick {
  t_cancel_all : bool;                   (* (out / "CANCEL").exists() *)
  t_drain : bool;                        (* (out / "DRAIN").exists() *)
  t_marker : string -> bool;             (* cancel marker of a running campaign *)
  t_marker_reason : string -> bool;      (* the same test, made again for the reason *)
  t_marker_start : string -> bool;       (* cancel marker of a campaign about to start *)
  t_monotonic : string -> float;         (* time.monotonic() when a running campaign is inspected *)
  t_monotonic_done : string -> float;    (* time.monotonic() after poll reported an exit *)
  t_monotonic_start : string -> float;   (* time.monotonic() after a launch *)
  t_poll : string -> option Z;           (* proc.poll() *)
  t_returncode : string -> option Z;     (* proc.returncode after terminate *)
  t_popen : string -> Z + string;        (* subprocess.Popen: the pid, or the OSError's message *)
  t_has_state : string -> bool;          (* Path(out).joinpath("state.json").exists() *)
  t_clock : Z -> float                   (* time.time() when the event with that number is made *)
}.

Record loop := Loop {
  lp_state : state;
  lp_disk : state;                       (* state.json as last written *)
  lp_running : dict live;
  lp_drained : bool
}.

Definition with_status (s : status) (elapsed : float) (rc : option Z) (r : campaign_state) : campaign_state :=
  CampaignState (cs_id r) (cs_project r) (cs_priority r) (cs_reserve_cases r) (cs_manifest r) (cs_out r)
    s (cs_attempts r) (cs_pid r) (cs_command r) (cs_reason r) rc (Some elapsed).
Definition set_status (s : status) (r : campaign_state) : campaign_state :=
  CampaignState (cs_id r) (cs_project r) (cs_priority r) (cs_reserve_cases r) (cs_manifest r) (cs_out r)
    s (cs_attempts r) (cs_pid r) (cs_command r) (cs_reason r) (cs_returncode r) (cs_elapsed_seconds r).
Definition set_blocked (reason : option string) (r : campaign_state) : campaign_state :=
  CampaignState (cs_id r) (cs_project r) (cs_priority r) (cs_reserve_cases r) (cs_manifest r) (cs_out r)
    QuotaBlocked (cs_attempts r) (cs_pid r) (cs_command r) reason (cs_returncode r) (cs_elapsed_seconds r).
Definition set_running (pid : Z) (cmd : list string) (r : campaign_state) : campaign_state :=
  CampaignState (cs_id r) (cs_project r) (cs_priority r) (cs_reserve_cases r) (cs_manifest r) (cs_out r)
    Running (cs_attempts r + 1) (Some pid) cmd (cs_reason r) (cs_returncode r) (cs_elapsed_seconds r).

Definition put_campaign (cid : string) (r : campaign_state) (st : state) : state :=
  with_campaigns st (dset cid r (st_campaigns st)).
Definition add_elapsed (x : float) (ps : project_state) : project_state :=
  ProjectState (ps_weight ps) (ps_max_concurrent ps) (ps_case_budget ps) (ps_wall_seconds ps)
    (ps_reserved_cases ps) (fadd (ps_elapsed_seconds ps) x) (ps_dispatched ps).
Definition charge (cases : Z) (ps : project_state) : project_state :=
  ProjectState (ps_weight ps) (ps_max_concurrent ps) (ps_case_budget ps) (ps_wall_seconds ps)
    (ps_reserved_cases ps + cases) (ps_elapsed_seconds ps) (ps_dispatched ps + 1).
Definition put_project (pid : string) (ps : project_state) (st : state) : state :=
  with_projects st (dset pid ps (st_projects st)).

(** A running campaign ends: its record, its project's clock and the event log. *)
Definition end_running (t : tick) (cid : string) (s : status) (kind : string) (extra : dict value)
    (elapsed : float) (rc : option Z) (st : state) : res state :=
  rec ← dindex cid (st_campaigns st);
  let st := put_campaign cid (with_status s (fround elapsed 6) rc rec) st in
  ps ← dindex (cs_project rec) (st_projects st);
  let st := put_project (cs_project rec) (add_elapsed elapsed ps) st in
  Ok (event (t_clock t) kind (Some cid) extra st).

(** *** The global cancel marker *)

Fixpoint cancel_running (t : tick) (running : dict live) (st : state) : res state :=
  match running with
  | [] => Ok st
  | (cid, item) :: rest =>
      let elapsed := fsub (t_monotonic t cid) (lv_started item) in
      st ← end_running t cid Cancelled "cancelled" [("reason", VStr "global-cancel")] elapsed
             (t_returncode t cid) st;
      cancel_running t rest st
  end.

Fixpoint cancel_pending (t : tick) (keys : list string) (st : state) : state :=
  match keys with
  | [] => st
  | k :: keys =>
      cancel_pending t keys
        (match dget k (st_campaigns st) with
         | Some r =>
             if bool_decide (cs_status r = Pending) then
               event (t_clock t) "cancelled" (Some (cs_id r)) [("reason", VStr "global-cancel-before-start")]
                 (put_campaign k (set_status Cancelled r) st)
             else st
         | None => st
         end)
  end.

Definition cancel_everything (t : tick) (lp : loop) : res loop :=
  st ← cancel_running t (lp_running lp) (lp_state lp);
  let st := cancel_pending t (dkeys (st_campaigns st)) st in
  Ok (Loop st st [] (lp_drained lp)).

(** *** Running campaigns: cancel markers, wall limits and exits *)

Definition tool_command (executable tool : string) (args : list string) : list string :=
  if str_endswith ".py" tool then executable :: tool :: args else tool :: args.

Section supervise.
Context (executable tool : string) (projects : dict project) (campaigns : list campaign)
  (global_max : Z).

Definition inspect (t : tick) (cid : string) (item : live) (lp : loop) : res loop :=
  rec ← dindex cid (st_campaigns (lp_state lp));
  _ ← dindex (cs_project rec) projects;
  let elapsed := fsub (t_monotonic t cid) (lv_started item) in
  let expired := match lv_wall_seconds item with Some w => fleb w elapsed | None => false end in
  if t_marker t cid || expired then
    let reason := if t_marker_reason t cid then "campaign-cancel-marker" else "campaign-wall-limit" in
    st ← end_running t cid Cancelled "cancelled" [("reason", VStr reason)] elapsed
           (t_returncode t cid) (lp_state lp);
    Ok (Loop st st (ddel cid (lp_running lp)) (lp_drained lp))
  else
    match t_poll t cid with
    | None => Ok lp
    | Some rc =>
        let elapsed := fsub (t_monotonic_done t cid) (lv_started item) in
        let s := if rc =? 0 then Complete else Failed in
        st ← end_running t cid s "finished"
               [("returncode", VInt rc); ("status", VStr (status_name s))] elapsed (Some rc) (lp_state lp);
        Ok (Loop st st (ddel cid (lp_running lp)) (lp_drained lp))
    end.

Definition inspect_all (t : tick) (lp : loop) : res loop :=
  res_fold (fun lp '(cid, item) => inspect t cid item lp) lp (lp_running lp).

(** *** Launching *)

Definition count_running (lp : loop) : res (dict Z) :=
  res_fold (fun d cid =>
    r ← dindex cid (st_campaigns (lp_state lp)); Ok (bump (cs_project r) d)) [] (dkeys (lp_running lp)).

(** How one pass through the body of the launch loop ends. *)
Inductive launch_step :=
  | NothingToLaunch                                   (* choose_next returned None: break *)
  | Skipped (lp : loop)                               (* cancelled or quota-blocked: continue *)
  | Launched (lp : loop) (by_project : dict Z)
  | LaunchFailed (lp : loop) (e : exn).

Definition launch_one (t : tick) (lp : loop) (by_project : dict Z) : launch_step :=
  let st := lp_state lp in
  match choose_next campaigns st projects by_project with
  | Raise e => LaunchFailed lp e
  | Ok None => NothingToLaunch
  | Ok (Some c) =>
      match dindex (c_id c) (st_campaigns st) with
      | Raise e => LaunchFailed lp e
      | Ok rec =>
          if t_marker_start t (c_id c) then
            let st := event (t_clock t) "cancelled" (Some (c_id c))
                        [("reason", VStr "campaign-cancel-marker-before-start")]
                        (put_campaign (c_id c) (set_status Cancelled rec) st) in
            Skipped (Loop st st (lp_running lp) (lp_drained lp))
          else
            match quota_allows c st projects with
            | Raise e => LaunchFailed lp e
            | Ok (false, reason) =>
                let st := event (t_clock t) "quota-blocked" (Some (c_id c))
                            [("reason", match reason with Some r => VStr r | None => VNone end)]
                            (put_campaign (c_id c) (set_blocked reason rec) st) in
                Skipped (Loop st st (lp_running lp) (lp_drained lp))
            | Ok (true, _) =>
                let cmd := tool_command executable tool [c_manifest c; "--out"; c_out c] ++
                           (if t_has_state t (c_out c) then ["--resume"] else []) in
                match t_popen t (c_id c), dindex (c_project c) (st_projects st) with
                | inr msg, _ => LaunchFailed lp (Exn OSError msg)
                | _, Raise e => LaunchFailed lp e
                | inl pid, Ok ps =>
                    let st := put_campaign (c_id c) (set_running pid cmd rec) st in
                    let st := put_project (c_project c) (charge (c_reserve_cases c) ps) st in
                    let running := dset (c_id c)
                      (Live pid (t_monotonic_start t (c_id c)) (c_wall_seconds c)) (lp_running lp) in
                    let st := event (t_clock t) "started" (Some (c_id c))
                                [("project", VStr (c_project c)); ("priority", VInt (c_priority c));
                                 ("reserve_cases", VInt (c_reserve_cases c))] st in
                    Launched (Loop st st running (lp_drained lp)) (bump (c_project c) by_project)
                end
            end
      end
  end.

(** [while not drained and len(running) < global_max]; the result carries [launched] and the
    exception, if any.  Every pass takes a pending campaign out of the queue, so the number of
    pending campaigns is enough fuel. *)
Fixpoint launch_loop (fuel : nat) (t : tick) (lp : loop) (by_project : dict Z) (launched : bool) :
    loop * bool * option exn :=
  if negb (lp_drained lp) && (Z.of_nat (length (lp_running lp)) <? global_max) then
    match fuel with
    | O => (lp, launched, None)
    | S fuel =>
        match launch_one t lp by_project with
        | NothingToLaunch => (lp, launched, None)
        | Skipped lp => launch_loop fuel t lp by_project launched
        | Launched lp by_project => launch_loop fuel t lp by_project true
        | LaunchFailed lp e => (lp, launched, Some e)
        end
    end
  else (lp, launched, None).

Definition is_pending (r : campaign_state) : bool := bool_decide (cs_status r = Pending).
Definition pending_count (st : state) : nat := length (List.filter is_pending (dvalues (st_campaigns st))).

(** *** One iteration *)

Inductive outcome :=
  | Continue (lp : loop)
  | Finished (lp : loop)
  | Crashed (lp : loop) (e : exn).

Definition deadlock_msg : string := "scheduler deadlock: pending campaigns but no launchable work".

Definition iterate (t : tick) (lp : loop) : outcome :=
  if t_cancel_all t then
    match cancel_everything t lp with Ok lp => Finished lp | Raise e => Crashed lp e end
  else
    match inspect_all t lp with
    | Raise e => Crashed lp e
    | Ok lp =>
        let lp := Loop (lp_state lp) (lp_disk lp) (lp_running lp) (lp_drained lp || t_drain t) in
        if lp_drained lp && bool_decide (lp_running lp = []) then Finished lp
        else
          match count_running lp with
          | Raise e => Crashed lp e
          | Ok by_project =>
              let '(lp, launched, failure) :=
                launch_loop (S (pending_count (lp_state lp))) t lp by_project false in
              match failure with
              | Some e => Crashed lp e
              | None =>
                  let pending := negb (pending_count (lp_state lp) =? 0)%nat in
                  let idle := bool_decide (lp_running lp = []) in
                  if idle && negb pending then Finished lp
                  else if idle && pending && negb launched
                  then Crashed lp (Exn AppError deadlock_msg)
                  else Continue lp
              end
          end
    end.

(** The loop over the ticks the world provides; with no tick left it is still running. *)
Fixpoint supervise (ticks : list tick) (lp : loop) : outcome :=
  match ticks with
  | [] => Continue lp
  | t :: ticks =>
      match iterate t lp with Continue lp => supervise ticks lp | o => o end
  end.
End supervise.

Definition start_loop (st : state) : loop := Loop st st [] false.

(** The arguments and surroundings of one invocation of [main]. *)
Record invocation := Invocation {
  iv_poll_seconds : float;
  iv_env : path_env;
  iv_doc : value;                        (* the parsed manifest *)
  iv_base : string;                      (* manifest_path.parent *)
  iv_out : string;
  iv_executable : string;                (* sys.executable *)
  iv_tool : res string;                  (* resolve_tool(...) *)
  iv_manifest_hash : string;             (* sha256_file(manifest_path) *)
  iv_existing : option state;            (* the parse of out/state.json, when it exists *)
  iv_now : float;
  iv_resume : bool
}.

(** The body of [main] up to the end of the supervision loop: validation, state, supervision. *)
Definition scheduler_run (iv : invocation) (ticks : list tick) : res outcome :=
  _ ← guard_app (negb (fleb (iv_poll_seconds iv) fzero)) "--poll-seconds must be positive";
  m ← validate_manifest (iv_env iv) (iv_doc iv) (iv_base iv) (iv_out iv);
  let '(projects, campaigns, global_max) := m in
  tool ← iv_tool iv;
  st ← load_state (iv_existing iv) (iv_now iv) (iv_manifest_hash iv) projects campaigns (iv_resume iv);
  Ok (supervise (iv_executable iv) tool projects campaigns global_max ticks (start_loop st)).

(** The exit status of [main]: the summary decides, a handled exception gives 2, any other one a
    traceback and 1. *)
Definition error_code (e : exn) : Z :=
  if handled [AppError; OSError; ValueError; JSONDecodeError] e then 2 else 1.

Definition exit_code (r : res outcome) : option Z :=
  match r with
  | Raise e => Some (error_code e)
  | Ok (Continue _) => None
  | Ok (Finished lp) =>
      let s := sum_state (summary (lp_state lp) (lp_drained lp)) in
      Some (if String.eqb s "complete" || String.eqb s "drained" then 0 else 1)
  | Ok (Crashed _ e) => Some (error_code e)
  end.
