(* ===== verification/ScheduleFacts.v ===== *)
(** * Correctness of the campaign scheduler

    Validation is sound, selection is optimal, the concurrency caps and the case budgets hold in
    every reachable state, decided campaigns stay decided, the loop cannot deadlock and it finishes
    when the campaign processes exit. *)
From Stdlib Require Import SpecFloat.
From S2P Require Import Prelude PyCore PyValue Schedule.

(** ** Validation *)

(** What validation promises to the scheduler. *)
Record manifest_ok (projects : dict project) (campaigns : list campaign) (global_max : Z) : Prop := {
  mo_global : 1 <= global_max;
  mo_projects : dwf projects;
  mo_project : forall pid p, dget pid projects = Some p ->
    p_id p = pid /\ 1 <= p_weight p /\ 1 <= p_max_concurrent p /\
    (forall b, p_case_budget p = Some b -> 0 <= b);
  mo_ids : NoDup (c_id <$> campaigns);
  mo_campaign : forall c, c ∈ campaigns ->
    dmem (c_project c) projects = true /\ 0 <= c_reserve_cases c
}.

Lemma positive_int_Ok v label z n :
  positive_int v label z = Ok n -> (if z then 0 else 1) <= n.
Proof. unfold positive_int. destruct (py_int v) as [m|]; [|done].
  destruct (m <? _) eqn:E; intros; inv_res. by bool_prop.
Qed.

Lemma unless_none_Ok {A} v (f : value -> res A) o :
  unless_none v f = Ok o -> o = None \/ exists x, o = Some x /\ f v = Ok x.
Proof. unfold unless_none. case_bool; intros; inv_res; eauto. Qed.

Lemma validate_project_inv gm ps order raw ps' :
  validate_project gm ps order raw = Ok ps' ->
  exists p, p_id p ∉ dkeys ps /\ ps' = dset (p_id p) p ps /\ 1 <= p_weight p /\
    1 <= p_max_concurrent p /\ (forall b, p_case_budget p = Some b -> 0 <= b).
Proof.
  unfold validate_project. intros H. inv_res.
  eexists (Project _ _ _ _ _ _); cbn. split; [|split; [reflexivity|]].
  { apply dget_none. unfold dmem in *. by destruct (dget _ ps). }
  repeat match goal with
  | H : positive_int _ _ _ = Ok _ |- _ => apply positive_int_Ok in H
  | H : unless_none _ _ = Ok _ |- _ => apply unless_none_Ok in H
  end.
  repeat split; try lia. intros b ->.
  match goal with H : Some b = None \/ _ |- _ => destruct H as [?|(?&[= <-]&H%positive_int_Ok)] end;
    [done|lia].
Qed.

Lemma validate_campaign_inv env base out ps cs seen order raw cs' seen' :
  validate_campaign env base out ps (cs, seen) order raw = Ok (cs', seen') ->
  exists c, cs' = cs ++ [c] /\ seen' = seen ++ [c_id c] /\ c_id c ∉ seen /\
    dmem (c_project c) ps = true /\ 0 <= c_reserve_cases c.
Proof.
  unfold validate_campaign. intros H. inv_res.
  eexists (Campaign _ _ _ _ _ _ _ _); cbn. split; [reflexivity|].
  repeat match goal with H : positive_int _ _ _ = Ok _ |- _ => apply positive_int_Ok in H end.
  bool_prop. done.
Qed.

Definition projects_ok (ps : dict project) : Prop :=
  dwf ps /\ forall pid p, dget pid ps = Some p ->
    p_id p = pid /\ 1 <= p_weight p /\ 1 <= p_max_concurrent p /\
    (forall b, p_case_budget p = Some b -> 0 <= b).

Lemma validate_projects_ok gm ps order raw ps' :
  projects_ok ps -> validate_project gm ps order raw = Ok ps' -> projects_ok ps'.
Proof.
  intros [Hwf Hps] (p&Hnew&->&Hp)%validate_project_inv. split; [auto with ppc|].
  intros pid q. rewrite dget_dset. destruct (String.eqb_spec pid (p_id p)) as [->|]; [|auto].
  by intros [= <-].
Qed.

Definition campaigns_ok (ps : dict project) (acc : list campaign * list string) : Prop :=
  snd acc = c_id <$> fst acc /\ NoDup (c_id <$> fst acc) /\
  forall c, c ∈ fst acc -> dmem (c_project c) ps = true /\ 0 <= c_reserve_cases c.

Lemma validate_campaigns_ok env base out ps acc order raw acc' :
  campaigns_ok ps acc -> validate_campaign env base out ps acc order raw = Ok acc' ->
  campaigns_ok ps acc'.
Proof.
  destruct acc as [cs seen], acc' as [cs' seen']. unfold campaigns_ok; cbn.
  intros (->&Hnd&Hcs) (c&->&->&Hc&Hok)%validate_campaign_inv. split; [by rewrite fmap_app|]. split.
  - rewrite fmap_app. apply NoDup_app. split; [done|]. split; [|apply NoDup_singleton].
    intros x Hx ->%list_elem_of_singleton. done.
  - intros d. rewrite elem_of_app, list_elem_of_singleton. naive_solver.
Qed.

Lemma validate_manifest_ok env doc base out ps cs gm :
  validate_manifest env doc base out = Ok (ps, cs, gm) -> manifest_ok ps cs gm.
Proof.
  unfold validate_manifest. intros H. inv_res.
  match goal with H : res_fold _ _ _ = Ok ps |- _ => rename H into Hp end.
  match goal with H : res_fold _ _ _ = Ok ?acc |- _ => rename H into Hc; rename acc into acc end.
  match goal with H : positive_int _ _ _ = _ |- _ => apply positive_int_Ok in H end.
  apply (res_fold_inv projects_ok) in Hp as [Hwf Hps].
  2: { intros s [order raw] s' _. apply validate_projects_ok. }
  2: { split; [apply dwf_nil|done]. }
  apply (res_fold_inv (campaigns_ok ps)) in Hc as (_&Hnd&Hcs).
  2: { intros s [order raw] s' _. apply validate_campaigns_ok. }
  2: { split; [done|]. split; [constructor|]. intros c Hc'. by apply not_elem_of_nil in Hc'. }
  by constructor.
Qed.

Lemma dindex_Ok {A} k (d : dict A) x : dget k d = Some x -> dindex k d = Ok x.
Proof. unfold dindex. by intros ->. Qed.

(** ** How a campaign's status may change *)

Inductive status_step : status -> status -> Prop :=
  | ss_start : status_step Pending Running
  | ss_block : status_step Pending QuotaBlocked
  | ss_skip : status_step Pending Cancelled
  | ss_complete : status_step Running Complete
  | ss_fail : status_step Running Failed
  | ss_cancel : status_step Running Cancelled.
#[export] Hint Constructors status_step : ppc.

Definition status_of (st : state) (cid : string) : option status :=
  cs_status <$> dget cid (st_campaigns st).
Definition project_of (st : state) (cid : string) : option string :=
  cs_project <$> dget cid (st_campaigns st).

(** Every campaign's status moves along [status_step] only, and no campaign appears or disappears. *)
Definition evolves (st st' : state) : Prop :=
  forall cid, match status_of st cid, status_of st' cid with
              | Some a, Some b => rtc status_step a b
              | None, None => True
              | _, _ => False
              end.

Lemma evolves_refl st : evolves st st.
Proof. intros cid. by destruct (status_of st cid). Qed.

Lemma evolves_trans st1 st2 st3 : evolves st1 st2 -> evolves st2 st3 -> evolves st1 st3.
Proof.
  intros H12 H23 cid. specialize (H12 cid). specialize (H23 cid).
  destruct (status_of st1 cid), (status_of st2 cid), (status_of st3 cid); try done.
  by etrans.
Qed.
#[export] Hint Resolve evolves_refl evolves_trans : ppc.

Lemma status_step_terminal a b : status_step a b -> terminal a = false.
Proof. by destruct 1. Qed.

Lemma evolves_terminal st st' cid s :
  evolves st st' -> status_of st cid = Some s -> terminal s = true -> status_of st' cid = Some s.
Proof.
  intros Hev Hs Ht. specialize (Hev cid). rewrite Hs in Hev.
  destruct (status_of st' cid) as [s'|]; [|done].
  destruct Hev as [|? ? ? Hstep%status_step_terminal _]; [done|congruence].
Qed.

Lemma status_of_put cid r st x :
  status_of (put_campaign cid r st) x = if String.eqb x cid then Some (cs_status r) else status_of st x.
Proof. unfold status_of. cbn. rewrite dget_dset. by destruct (String.eqb x cid). Qed.

Lemma project_of_put cid r st x :
  project_of (put_campaign cid r st) x = if String.eqb x cid then Some (cs_project r) else project_of st x.
Proof. unfold project_of. cbn. rewrite dget_dset. by destruct (String.eqb x cid). Qed.

Lemma evolves_put cid old r st :
  dget cid (st_campaigns st) = Some old -> status_step (cs_status old) (cs_status r) ->
  evolves st (put_campaign cid r st).
Proof.
  intros Hold Hstep x. rewrite status_of_put. destruct (String.eqb_spec x cid) as [->|].
  - unfold status_of. rewrite Hold. by apply rtc_once.
  - by destruct (status_of st x).
Qed.

(** ** Selection *)

Section selection.
Context (projects : dict project) (campaigns : list campaign).

Lemma pending_of_spec pid st cs l :
  pending_of pid st cs = Ok l ->
  forall c, c ∈ l <-> c ∈ cs /\ c_project c = pid /\ status_of st (c_id c) = Some Pending.
Proof.
  revert l. induction cs as [|d cs IH]; cbn; intros l H c; inv_res; [set_solver|].
  destruct (String.eqb_spec (c_project d) pid) as [Hd|Hd]; inv_res.
  - match goal with H : dindex _ _ = Ok ?r |- _ => rename r into rec; rename H into Hrec end.
    unfold dindex in Hrec. destruct (dget (c_id d) (st_campaigns st)) as [r|] eqn:Hr; [|done].
    inv_res. match goal with H : pending_of _ _ _ = Ok _ |- _ => specialize (IH _ H c) end.
    assert (Hstat : status_of st (c_id d) = Some (cs_status rec)) by (unfold status_of; by rewrite Hr).
    case_bool_decide as Hp; rewrite ?elem_of_cons, IH.
    + split; [intros [->|?]; [|naive_solver]|naive_solver].
      split_and!; [by left|done|congruence].
    + split; [naive_solver|]. intros ([->|?]&?&?); [congruence|done].
  - rewrite (IH _ H c), elem_of_cons. naive_solver.
Qed.

(** A project is eligible when it is below its cap and has a pending campaign. *)
Definition eligible (st : state) (by_project : dict Z) (ps : dict project) (x : candidate) : Prop :=
  exists p pst, (snd x, p) ∈ ps /\ running_count (snd x) by_project < p_max_concurrent p /\
    (exists c, c ∈ campaigns /\ c_project c = snd x /\ status_of st (c_id c) = Some Pending) /\
    dget (snd x) (st_projects st) = Some pst /\
    service_ratio p pst = Ok (fst (fst x)) /\ snd (fst x) = p_order p.

Lemma pending_nonempty pid st c l :
  pending_of pid st campaigns = Ok (c :: l) ->
  exists c, c ∈ campaigns /\ c_project c = pid /\ status_of st (c_id c) = Some Pending.
Proof. intros H. exists c. apply (pending_of_spec _ _ _ _ H c). by left. Qed.

Lemma eligible_projects_spec st by_project ps l :
  eligible_projects ps campaigns st by_project = Ok l ->
  forall x, x ∈ l <-> eligible st by_project ps x.
Proof.
  revert l. induction ps as [|[pid p] ps IH]; cbn; intros l H x; inv_res.
  { split; [set_solver|]. intros (p&pst&Hin&_). by apply not_elem_of_nil in Hin. }
  assert (Hskip : (forall p', (snd x, p') ∈ (pid, p) :: ps ->
      running_count (snd x) by_project < p_max_concurrent p' ->
      (exists c, c ∈ campaigns /\ c_project c = snd x /\ status_of st (c_id c) = Some Pending) ->
      (snd x, p') ∈ ps) -> eligible st by_project ((pid, p) :: ps) x <-> eligible st by_project ps x).
  { intros Hs. split; intros (q&pst&Hin&Hrest); exists q, pst; [|set_solver].
    split; [|done]. apply Hs; [done|apply Hrest..]. }
  destruct (p_max_concurrent p <=? running_count pid by_project) eqn:Hcap; bool_prop.
  { rewrite (IH _ H x), Hskip; [done|]. intros q [[= -> ->]|?]%elem_of_cons; [lia|done]. }
  inv_res. match goal with H : pending_of _ _ _ = Ok ?l |- _ => rename H into Hpend; destruct l as [|c0 l0] end.
  { match goal with H : eligible_projects _ _ _ _ = Ok _ |- _ => rewrite (IH _ H x), Hskip end; [done|].
    intros q [[= -> ->]|?]%elem_of_cons; [|done].
    intros _ (c&Hc). exfalso. apply (not_elem_of_nil c). by apply (pending_of_spec _ _ _ _ Hpend). }
  inv_res. unfold dindex in *.
  destruct (dget pid (st_projects st)) as [pst|] eqn:Hpst; [|done]. inv_res.
  match goal with H : eligible_projects _ _ _ _ = Ok _ |- _ => specialize (IH _ H x) end.
  rewrite elem_of_cons, IH. clear IH. split.
  - intros [->|(q&qst&Hq)].
    + exists p. eexists. cbn. split_and!; [by left|done|by eapply pending_nonempty|done..].
    + exists q, qst. set_solver.
  - intros (q&qst&[[= Hx ->]|Hin]%elem_of_cons&Hq); [left|right; exists q, qst; done].
    destruct Hq as (_&_&Hqst&Hsh&Hord). destruct x as [[sh o] i]. cbn in *. congruence.
Qed.

Lemma service_ratio_not_nan p ps x : service_ratio p ps = Ok x -> is_nan x = false.
Proof.
  unfold service_ratio. intros H. inv_res.
  eapply fdiv_not_nan; [| | |eassumption]; eauto using float_of_int_not_nan, float_of_int_not_inf.
Qed.

Lemma choose_next_spec st by_project o :
  choose_next campaigns st projects by_project = Ok o ->
  match o with
  | None => forall x, ~ eligible st by_project projects x
  | Some c =>
      c ∈ campaigns /\ status_of st (c_id c) = Some Pending /\
      exists share order, eligible st by_project projects (share, order, c_project c) /\
        (forall x, eligible st by_project projects x ->
           py_le (share, order, c_project c) x = true) /\
        (forall c', c' ∈ campaigns -> c_project c' = c_project c ->
           status_of st (c_id c') = Some Pending -> py_le (campaign_key c) (campaign_key c') = true)
  end.
Proof.
  unfold choose_next. intros H. inv_res.
  match goal with H : eligible_projects _ _ _ _ = Ok ?l |- _ =>
    pose proof (eligible_projects_spec _ _ _ _ H) as Hel; rename l into els end.
  destruct (py_min _ els) as [[[share order] pid]|] eqn:Hmin; inv_res.
  - assert (Hdom : forall x : candidate, x ∈ els -> ord_dom x).
    { intros [[sh o] i] (p&pst&_&_&_&_&Hsh&_)%Hel. cbn in *. split; [split; [|done]|done].
      by eapply service_ratio_not_nan. }
    match goal with H : pending_of _ _ _ = Ok ?l |- _ => rename H into Hpend; rename l into pend end.
    assert (Hin := py_min_in _ _ _ Hmin). apply Hel in Hin.
    pose proof (pending_of_spec _ _ _ _ Hpend) as Hps.
    destruct (py_min campaign_key pend) as [c|] eqn:Hc.
    + assert (Hcin := py_min_in _ _ _ Hc). apply Hps in Hcin as (Hc1&Hc2&Hc3).
      split; [done|]. split; [done|]. exists share, order. rewrite Hc2. split; [done|]. split.
      * intros x Hx. apply (py_min_le _ _ _ Hdom Hmin). by apply Hel.
      * intros c' ? ? ?. refine (py_min_le campaign_key _ _ _ Hc _ _); [by intros|by apply Hps].
    + apply py_min_none in Hc as ->. destruct Hin as (?&?&_&_&(c&Hc)&_).
      exfalso. apply (not_elem_of_nil c). apply Hps. done.
  - apply py_min_none in Hmin as ->. intros x Hx%Hel. by apply not_elem_of_nil in Hx.
Qed.

(** Selection and admission raise no application error. *)
Lemma dindex_error {A} k (d : dict A) e : dindex k d = Raise e -> exn_class e <> AppError.
Proof. unfold dindex. destruct (dget k d); [done|]. by intros [= <-]. Qed.

Lemma service_ratio_error p ps e : service_ratio p ps = Raise e -> exn_class e <> AppError.
Proof.
  unfold service_ratio, float_of_int, fdiv. repeat (case_bool; cbn); intros; simplify_eq; done.
Qed.

Lemma pending_of_error pid st cs e : pending_of pid st cs = Raise e -> exn_class e <> AppError.
Proof.
  induction cs as [|c cs IH]; cbn; [done|]. case_bool; [|done].
  intros [?%dindex_error|(r&_&[?|(l&_&?)]%res_bind_Raise)]%res_bind_Raise; auto; done.
Qed.

Lemma eligible_projects_error ps st by_project e :
  eligible_projects ps campaigns st by_project = Raise e -> exn_class e <> AppError.
Proof.
  induction ps as [|[pid p] ps IH]; cbn; [done|]. case_bool; [done|].
  intros [?%pending_of_error|([|c l]&_&H)]%res_bind_Raise; auto.
  apply res_bind_Raise in H as [?%dindex_error|(pst&_&H)]; auto.
  apply res_bind_Raise in H as [?%service_ratio_error|(sh&_&H)]; auto.
  apply res_bind_Raise in H as [?|(r&_&?)]; auto; done.
Qed.

Lemma choose_next_error st by_project e :
  choose_next campaigns st projects by_project = Raise e -> exn_class e <> AppError.
Proof.
  unfold choose_next. intros [?%eligible_projects_error|(l&_&H)]%res_bind_Raise; auto.
  destruct (py_min _ l) as [[[? ?] pid]|]; [|done].
  apply res_bind_Raise in H as [?%pending_of_error|(?&_&?)]; auto; done.
Qed.

Lemma quota_allows_error c st e :
  quota_allows c st projects = Raise e -> exn_class e <> AppError.
Proof.
  unfold quota_allows. intros [?%dindex_error|(p&_&H)]%res_bind_Raise; auto.
  apply res_bind_Raise in H as [?%dindex_error|(ps&_&H)]; auto.
  repeat case_match; done.
Qed.

Lemma eligible_nonempty st by_project ps pid p l :
  eligible_projects ps campaigns st by_project = Ok l -> (pid, p) ∈ ps ->
  running_count pid by_project < p_max_concurrent p ->
  (exists c, c ∈ campaigns /\ c_project c = pid /\ status_of st (c_id c) = Some Pending) -> l <> [].
Proof.
  revert l. induction ps as [|[q pq] ps IH]; cbn; intros l H Hin Hcap Hc; [by apply not_elem_of_nil in Hin|].
  destruct (p_max_concurrent pq <=? _) eqn:E; bool_prop.
  { apply elem_of_cons in Hin as [[= -> ->]|Hin]; [lia|by eapply IH]. }
  apply res_bind_Ok in H as ([|c0 l0]&Hpend&H); [|inv_res; discriminate].
  apply elem_of_cons in Hin as [[= -> ->]|Hin]; [|by eapply IH].
  destruct Hc as (c&Hc). intros _. apply (not_elem_of_nil c). by apply (pending_of_spec _ _ _ _ Hpend).
Qed.

End selection.

(** ** The invariants of the supervision loop *)

Section invariant.
Context (executable tool : string) (projects : dict project) (campaigns : list campaign)
  (global_max : Z).
Context (Hok : manifest_ok projects campaigns global_max).

(** No project has reserved more cases than its budget. *)
Definition within_budget (st : state) : Prop :=
  forall pid p b ps, dget pid projects = Some p -> p_case_budget p = Some b ->
    dget pid (st_projects st) = Some ps -> ps_reserved_cases ps <= b.

(** The persisted state covers the manifest's campaigns and projects. *)
Record state_ok (st : state) : Prop := {
  so_wf : dwf (st_campaigns st);
  so_record : forall cid r, dget cid (st_campaigns st) = Some r ->
    cs_id r = cid /\ dmem (cs_project r) projects = true;
  so_campaign : forall c, c ∈ campaigns -> project_of st (c_id c) = Some (c_project c);
  so_listed : forall cid, cid ∈ dkeys (st_campaigns st) -> cid ∈ c_id <$> campaigns;
  so_project : forall pid, dmem pid projects = true -> dmem pid (st_projects st) = true;
  so_budget : within_budget st
}.

Definition in_project (st : state) (pid cid : string) : bool :=
  bool_decide (project_of st cid = Some pid).
(** The number of running processes of a project. *)
Definition running_in (st : state) (running : dict live) (pid : string) : Z :=
  Z.of_nat (length (List.filter (in_project st pid) (dkeys running))).

(** The process table agrees with the recorded statuses and respects both concurrency caps. *)
Record running_ok (st : state) (running : dict live) : Prop := {
  ro_wf : dwf running;
  ro_status : forall cid, cid ∈ dkeys running <-> status_of st cid = Some Running;
  ro_global : Z.of_nat (length running) <= global_max;
  ro_project : forall pid p, dget pid projects = Some p ->
    running_in st running pid <= p_max_concurrent p
}.

Record loop_ok (lp : loop) : Prop := {
  lo_state : state_ok (lp_state lp);
  lo_disk : state_ok (lp_disk lp);
  lo_running : running_ok (lp_state lp) (lp_running lp)
}.

(** *** Updates of one record *)

Lemma state_ok_put_campaign st cid old r :
  state_ok st -> dget cid (st_campaigns st) = Some old ->
  cs_id r = cs_id old -> cs_project r = cs_project old ->
  state_ok (put_campaign cid r st).
Proof.
  intros [Hwf Hrec Hcam Hlis Hpro Hbud] Hold Hid Hproj. constructor; auto.
  - by apply dwf_dset.
  - intros x q. cbn. rewrite dget_dset. destruct (String.eqb_spec x cid) as [->|]; [|auto].
    intros [= <-]. rewrite Hid, Hproj. auto.
  - intros c Hc. rewrite project_of_put. specialize (Hcam c Hc).
    destruct (String.eqb_spec (c_id c) cid) as [E|]; [|done].
    unfold project_of in Hcam. rewrite E, Hold in Hcam. cbn in Hcam. congruence.
  - intros x. cbn. rewrite elem_of_dkeys_dset. intros [->|]; [|auto].
    eauto using dget_some_key.
Qed.

Lemma state_ok_put_project st pid old ps :
  state_ok st -> dget pid (st_projects st) = Some old ->
  (forall p b, dget pid projects = Some p -> p_case_budget p = Some b -> ps_reserved_cases ps <= b) ->
  state_ok (put_project pid ps st).
Proof.
  intros [Hwf Hrec Hcam Hlis Hpro Hbud] Hold Hb. constructor; auto.
  - intros q Hq%Hpro. unfold dmem in *. cbn. rewrite dget_dset. by destruct (String.eqb q pid).
  - intros q p b qs Hq Hp. cbn. rewrite dget_dset.
    destruct (String.eqb_spec q pid) as [->|]; [|by eapply Hbud]. intros [= <-]. eauto.
Qed.

Lemma state_ok_event st clock kind c extra : state_ok st -> state_ok (event clock kind c extra st).
Proof. intros []. by constructor. Qed.

Lemma state_project st cid r :
  state_ok st -> dget cid (st_campaigns st) = Some r ->
  exists ps, dget (cs_project r) (st_projects st) = Some ps.
Proof.
  intros Hst Hr. destruct (so_record _ Hst _ _ Hr) as [_ Hp].
  apply (so_project _ Hst) in Hp. unfold dmem in Hp.
  destruct (dget (cs_project r) (st_projects st)) eqn:E; [eauto|done].
Qed.

Lemma end_running_spec t cid s kind extra elapsed rc st old :
  state_ok st -> dget cid (st_campaigns st) = Some old ->
  exists st', end_running t cid s kind extra elapsed rc st = Ok st' /\ state_ok st' /\
    st_campaigns st' = dset cid (with_status s (fround elapsed 6) rc old) (st_campaigns st).
Proof.
  intros Hst Hold. destruct (state_project _ _ _ Hst Hold) as [ps Hps].
  unfold end_running, dindex. rewrite Hold. cbn. rewrite Hps. cbn.
  eexists. split; [reflexivity|]. split; [|done].
  apply state_ok_event. eapply state_ok_put_project; [|exact Hps|].
  - eapply state_ok_put_campaign; eauto.
  - intros p b Hp Hb. cbn. eapply (so_budget _ Hst); eauto.
Qed.

Lemma status_of_ext st st' : st_campaigns st = st_campaigns st' ->
  forall x, status_of st x = status_of st' x.
Proof. unfold status_of. by intros ->. Qed.

Lemma project_of_ext st st' : st_campaigns st = st_campaigns st' ->
  forall x, project_of st x = project_of st' x.
Proof. unfold project_of. by intros ->. Qed.

Lemma running_in_ext st st' running pid :
  (forall x, project_of st x = project_of st' x) -> running_in st running pid = running_in st' running pid.
Proof.
  intros H. unfold running_in, in_project. do 2 f_equal. apply List.filter_ext. intros x. by rewrite H.
Qed.

Lemma running_in_ddel st running pid cid : dwf running ->
  running_in st (ddel cid running) pid <= running_in st running pid.
Proof.
  intros _. unfold running_in. apply Nat2Z.inj_le.
  induction running as [|[k v] d IH]; cbn; [done|].
  destruct (String.eqb cid k); rewrite !dkeys_cons; cbn; destruct (in_project st pid k); cbn; lia.
Qed.

Lemma length_ddel_le (running : dict live) cid :
  Z.of_nat (length (ddel cid running)) <= Z.of_nat (length running).
Proof.
  induction running as [|[k v] d IH]; cbn [ddel length]; [lia|].
  destruct (String.eqb cid k); cbn [length]; lia.
Qed.

(** A running campaign leaves the process table with a final status. *)
Lemma end_running_ok t cid s kind extra elapsed rc st running :
  state_ok st -> running_ok st running -> cid ∈ dkeys running ->
  status_step Running s ->
  exists st', end_running t cid s kind extra elapsed rc st = Ok st' /\ state_ok st' /\
    running_ok st' (ddel cid running) /\ evolves st st' /\
    pending_count st' = pending_count st.
Proof.
  intros Hst Hrun Hin Hs.
  pose proof (proj1 (ro_status _ _ Hrun cid) Hin) as Hstat. unfold status_of in Hstat.
  destruct (dget cid (st_campaigns st)) as [old|] eqn:Hold; [|done]. injection Hstat as Hstat.
  edestruct (end_running_spec t cid s kind extra elapsed rc) as (st'&He&Hst'&Hc); [done..|].
  exists st'. split; [done|]. split; [done|].
  set (new := with_status s (fround elapsed 6) rc old) in *.
  assert (Hproj : forall x, project_of st' x = project_of st x).
  { intros x. unfold project_of. rewrite Hc, dget_dset.
    destruct (String.eqb_spec x cid) as [->|]; [|done]. by rewrite Hold. }
  assert (Hst_of : forall x, status_of st' x = if String.eqb x cid then Some s else status_of st x).
  { intros x. unfold status_of. rewrite Hc, dget_dset. by destruct (String.eqb x cid). }
  split; [|split].
  - constructor.
    + apply dwf_ddel, (ro_wf _ _ Hrun).
    + intros x. rewrite elem_of_dkeys_ddel, (ro_status _ _ Hrun), Hst_of by apply (ro_wf _ _ Hrun).
      destruct (String.eqb_spec x cid) as [->|]; [|naive_solver].
      split; [naive_solver|]. intros [= ->]. inversion Hs.
    + etrans; [apply length_ddel_le|apply (ro_global _ _ Hrun)].
    + intros pid p Hp. rewrite (running_in_ext st' st) by done.
      etrans; [apply running_in_ddel, (ro_wf _ _ Hrun)|by apply (ro_project _ _ Hrun)].
  - intros x. rewrite Hst_of. destruct (String.eqb_spec x cid) as [->|]; [|by destruct (status_of st x)].
    unfold status_of. rewrite Hold. cbn. rewrite Hstat. by apply rtc_once.
  - unfold pending_count. rewrite Hc. pose proof (dcount_dset is_pending cid new old _ Hold) as Hd.
    unfold dcount in Hd. assert (is_pending old = false) as E by (unfold is_pending; by rewrite Hstat).
    assert (is_pending new = false) as E' by (unfold is_pending; cbn; by destruct Hs).
    rewrite E, E' in Hd. cbn in Hd. lia.
Qed.

(** *** Inspecting the running campaigns *)

(** What inspecting one running campaign may do to the loop. *)
Record inspected (cid : string) (lp lp' : loop) : Prop := {
  in_ok : loop_ok lp';
  in_evolves : evolves (lp_state lp) (lp_state lp');
  in_drained : lp_drained lp' = lp_drained lp;
  in_pending : pending_count (lp_state lp') = pending_count (lp_state lp);
  in_running : lp_running lp' = lp_running lp \/ lp_running lp' = ddel cid (lp_running lp)
}.

Lemma inspect_spec t cid item lp :
  loop_ok lp -> cid ∈ dkeys (lp_running lp) ->
  exists lp', inspect projects t cid item lp = Ok lp' /\ inspected cid lp lp' /\
    (t_poll t cid <> None -> lp_running lp' = ddel cid (lp_running lp)).
Proof.
  intros [Hst Hdisk Hrun] Hin. unfold inspect, dindex.
  pose proof (proj1 (ro_status _ _ Hrun cid) Hin) as Hstat. unfold status_of in Hstat.
  destruct (dget cid (st_campaigns (lp_state lp))) as [old|] eqn:Hold; [|done]. cbn.
  destruct (so_record _ Hst _ _ Hold) as [_ Hp]. unfold dmem in Hp.
  destruct (dget (cs_project old) projects); [|done]. cbn.
  assert (Hend : forall s kind extra el rc, status_step Running s ->
    exists lp', (st ← end_running t cid s kind extra el rc (lp_state lp);
                 Ok (Loop st st (ddel cid (lp_running lp)) (lp_drained lp))) = Ok lp' /\
      inspected cid lp lp' /\ lp_running lp' = ddel cid (lp_running lp)).
  { intros s kind extra el rc Hs.
    edestruct (end_running_ok t cid s kind extra el rc) as (st'&->&Hst'&Hrun'&Hev&Hpc); [done..|].
    cbn. eexists. split; [reflexivity|]. split; [|done]. constructor; cbn; auto. by constructor. }
  case_bool.
  - edestruct Hend as (lp'&->&?&?); [constructor|]. eauto.
  - destruct (t_poll t cid) as [rc|].
    + edestruct Hend as (lp'&->&?&?); [|eauto]. destruct (rc =? 0); constructor.
    + eexists. split; [reflexivity|]. split; [|done].
      constructor; auto with ppc. by constructor.
Qed.

Lemma inspect_list t (l : list (string * live)) lp :
  loop_ok lp -> NoDup (l.*1) -> (forall cid, cid ∈ l.*1 -> cid ∈ dkeys (lp_running lp)) ->
  exists lp', res_fold (fun lp '(cid, item) => inspect projects t cid item lp) lp l = Ok lp' /\
    loop_ok lp' /\ evolves (lp_state lp) (lp_state lp') /\ lp_drained lp' = lp_drained lp /\
    pending_count (lp_state lp') = pending_count (lp_state lp) /\
    ((forall cid, t_poll t cid <> None) -> length (lp_running lp') = (length (lp_running lp) - length l)%nat).
Proof.
  revert lp. induction l as [|[cid item] l IH]; intros lp Hlp Hnd Hin; cbn.
  { exists lp. split_and!; auto with ppc. intros _. lia. }
  apply NoDup_cons in Hnd as [Hcid Hnd].
  edestruct (inspect_spec t cid item lp) as (lp1&->&[Hlp1 Hev1 Hd1 Hp1 Hr1]&Hpoll); [done|apply Hin; by left|].
  cbn. destruct (IH lp1) as (lp'&->&Hlp'&Hev&Hd&Hp&Hlen); [done..| |].
  { intros x Hx. assert (x ∈ dkeys (lp_running lp)) by (apply Hin; by right).
    destruct Hr1 as [->| ->]; [done|]. apply elem_of_dkeys_ddel; [apply Hlp|].
    split; [|done]. intros ->. done. }
  exists lp'. split; [done|]. split; [done|]. split; [by eapply evolves_trans|].
  split; [congruence|]. split; [congruence|]. intros Hall. rewrite Hlen by done.
  rewrite Hpoll by done. rewrite <- (length_ddel cid (lp_running lp)); [lia|].
  apply Hin. by left.
Qed.

Lemma inspect_all_spec t lp :
  loop_ok lp ->
  exists lp', inspect_all projects t lp = Ok lp' /\ loop_ok lp' /\
    evolves (lp_state lp) (lp_state lp') /\ lp_drained lp' = lp_drained lp /\
    pending_count (lp_state lp') = pending_count (lp_state lp) /\
    ((forall cid, t_poll t cid <> None) -> lp_running lp' = []).
Proof.
  intros Hlp. destruct (inspect_list t (lp_running lp) lp) as (lp'&He&?&?&?&?&Hlen);
    [done|apply Hlp|done|].
  exists lp'. split_and!; auto. intros Hall%Hlen.
  destruct (lp_running lp'); [done|]. cbn in Hall. lia.
Qed.

(** *** The global cancel marker *)

Lemma cancel_running_ok t running st :
  state_ok st -> running_ok st running ->
  exists st', cancel_running t running st = Ok st' /\ state_ok st' /\ running_ok st' [] /\
    evolves st st'.
Proof.
  revert st. induction running as [|[cid item] running IH]; intros st Hst Hrun; cbn.
  { exists st. auto with ppc. }
  edestruct (end_running_ok t cid Cancelled) as (st1&->&Hst1&Hrun1&Hev1&_);
    [done|done|by left|constructor|].
  cbn in *. rewrite String.eqb_refl in Hrun1.
  destruct (IH _ Hst1 Hrun1) as (st'&->&?&?&?). eexists. eauto with ppc.
Qed.

Lemma cancel_pending_ok t keys st :
  state_ok st -> running_ok st [] ->
  state_ok (cancel_pending t keys st) /\ running_ok (cancel_pending t keys st) [] /\
  evolves st (cancel_pending t keys st).
Proof.
  revert st. induction keys as [|k keys IH]; intros st Hst Hrun; cbn; [auto with ppc|].
  destruct (dget k (st_campaigns st)) as [r|] eqn:Hr; [|auto].
  case_bool; [|auto]. bool_prop.
  set (st1 := event _ _ _ _ _).
  assert (Hev : evolves st st1).
  { intros x. apply (evolves_put k r (set_status Cancelled r)); [done|].
    match goal with H : cs_status r = Pending |- _ => rewrite H end. constructor. }
  destruct (IH st1) as (?&?&?).
  - apply state_ok_event. by eapply state_ok_put_campaign.
  - constructor; [constructor| | |].
    + intros x. change (status_of st1 x) with (status_of (put_campaign k (set_status Cancelled r) st) x).
      rewrite status_of_put. destruct (String.eqb_spec x k); [|apply (ro_status _ _ Hrun)].
      split; [intros Hx; by apply not_elem_of_nil in Hx|done].
    + apply (ro_global _ _ Hrun).
    + intros pid p Hp. apply (ro_project _ _ Hrun pid p Hp).
  - eauto with ppc.
Qed.

Lemma cancel_everything_spec t lp :
  loop_ok lp ->
  exists lp', cancel_everything t lp = Ok lp' /\ loop_ok lp' /\ evolves (lp_state lp) (lp_state lp').
Proof.
  intros Hlp. unfold cancel_everything.
  destruct (cancel_running_ok t (lp_running lp) (lp_state lp)) as (st&->&Hst&Hrun&Hev); [apply Hlp..|].
  cbn. destruct (cancel_pending_ok t (dkeys (st_campaigns st)) st) as (?&?&?); [done..|].
  eexists. split; [reflexivity|]. cbn. split; [by constructor|eauto with ppc].
Qed.

(** *** Launching *)

(** The local counter [running_by_project] agrees with the process table. *)
Definition counts_running (lp : loop) (by_project : dict Z) : Prop :=
  forall pid, running_count pid by_project = running_in (lp_state lp) (lp_running lp) pid.

Lemma running_count_bump q pid d :
  running_count q (bump pid d) = running_count q d + (if String.eqb q pid then 1 else 0).
Proof.
  unfold running_count, bump. rewrite dget_dset.
  destruct (String.eqb_spec q pid) as [->|]; cbn; lia.
Qed.

Lemma count_running_list st (keys : list string) d :
  (forall cid, cid ∈ keys -> exists r, dget cid (st_campaigns st) = Some r) ->
  exists d', res_fold (fun d cid => r ← dindex cid (st_campaigns st); Ok (bump (cs_project r) d)) d keys = Ok d' /\
    forall pid, running_count pid d' =
      running_count pid d + Z.of_nat (length (List.filter (in_project st pid) keys)).
Proof.
  revert d. induction keys as [|k keys IH]; intros d Hk; cbn; [exists d; split; [done|lia]|].
  destruct (Hk k) as [r Hr]; [by left|]. rewrite (dindex_Ok _ _ _ Hr). cbn.
  destruct (IH (bump (cs_project r) d)) as (d'&->&Hd'); [intros; apply Hk; by right|].
  exists d'. split; [done|]. intros pid. rewrite Hd', running_count_bump.
  unfold in_project at 2, project_of. rewrite Hr. cbn.
  destruct (String.eqb_spec pid (cs_project r)) as [->|Hne].
  - rewrite bool_decide_true by done. cbn [length]. lia.
  - rewrite bool_decide_false by congruence. lia.
Qed.

Lemma count_running_spec lp :
  loop_ok lp -> exists d, count_running lp = Ok d /\ counts_running lp d.
Proof.
  intros [Hst _ Hrun]. unfold count_running.
  destruct (count_running_list (lp_state lp) (dkeys (lp_running lp)) []) as (d&Hd&Hc).
  - intros cid Hin%(ro_status _ _ Hrun). unfold status_of in Hin.
    destruct (dget cid (st_campaigns (lp_state lp))); [eauto|done].
  - exists d. split; [done|]. intros pid. by rewrite Hc.
Qed.

Lemma pending_count_put cid old r st :
  dget cid (st_campaigns st) = Some old -> cs_status old = Pending -> cs_status r <> Pending ->
  S (pending_count (put_campaign cid r st)) = pending_count st.
Proof.
  intros Hold Hp Hr. pose proof (dcount_dset is_pending cid r old _ Hold) as Hd.
  unfold pending_count, dcount in *. cbn [put_campaign with_campaigns st_campaigns].
  assert (is_pending old = true) as E by (unfold is_pending; by rewrite bool_decide_true).
  assert (is_pending r = false) as E' by (unfold is_pending; by rewrite bool_decide_false).
  rewrite E, E' in Hd. cbn [Nat.b2n] in Hd. lia.
Qed.

Lemma in_project_put cid r old st x :
  dget cid (st_campaigns st) = Some old -> cs_project r = cs_project old ->
  project_of (put_campaign cid r st) x = project_of st x.
Proof.
  intros Hold Hr. rewrite project_of_put. destruct (String.eqb_spec x cid) as [->|]; [|done].
  unfold project_of. by rewrite Hold, Hr.
Qed.

(** A pending campaign that is cancelled or blocked leaves the queue. *)
Lemma skip_ok lp by_project cid old r clock kind c extra drained :
  loop_ok lp -> counts_running lp by_project ->
  dget cid (st_campaigns (lp_state lp)) = Some old -> cs_status old = Pending ->
  cs_id r = cs_id old -> cs_project r = cs_project old -> status_step Pending (cs_status r) ->
  cs_status r <> Running ->
  let st := event clock kind c extra (put_campaign cid r (lp_state lp)) in
  let lp' := Loop st st (lp_running lp) drained in
  loop_ok lp' /\ counts_running lp' by_project /\ evolves (lp_state lp) st /\
  S (pending_count st) = pending_count (lp_state lp).
Proof.
  intros [Hst _ Hrun] Hcnt Hold Hp Hid Hproj Hstep Hnr st lp'.
  assert (Hst' : state_ok st) by (apply state_ok_event; by eapply state_ok_put_campaign).
  assert (Hsame : forall x, project_of st x = project_of (lp_state lp) x)
    by (intros x; by eapply (in_project_put cid r old)).
  assert (Hstat : forall x, status_of st x =
    if String.eqb x cid then Some (cs_status r) else status_of (lp_state lp) x)
    by (intros x; apply status_of_put).
  split_and!.
  - constructor; [done..|]. constructor.
    + apply Hrun.
    + intros x. change (x ∈ dkeys (lp_running lp) <-> status_of st x = Some Running).
      rewrite Hstat, (ro_status _ _ Hrun).
      destruct (String.eqb_spec x cid) as [->|]; [|done].
      unfold status_of. rewrite Hold. cbn. rewrite Hp. naive_solver.
    + apply Hrun.
    + intros pid p Hp'. rewrite (running_in_ext st (lp_state lp)) by done.
      by apply (ro_project _ _ Hrun).
  - intros pid. rewrite Hcnt. cbn. symmetry. by apply running_in_ext.
  - apply (evolves_put cid old r); [done|by rewrite Hp].
  - eapply (pending_count_put cid old); [done..|]. intros E. rewrite E in Hstep. inversion Hstep.
Qed.

Lemma quota_allows_Ok c st b reason :
  quota_allows c st projects = Ok (b, reason) ->
  exists p ps, dget (c_project c) projects = Some p /\ dget (c_project c) (st_projects st) = Some ps /\
    (b = true -> forall n, p_case_budget p = Some n -> ps_reserved_cases ps + c_reserve_cases c <= n).
Proof.
  unfold quota_allows, dindex. intros H.
  destruct (dget _ projects) as [p|] eqn:Hp; [|done]. cbn in H.
  destruct (dget _ (st_projects st)) as [ps|] eqn:Hps; [|done]. cbn in H.
  exists p, ps. split; [done|]. split; [done|]. intros -> n Hn. rewrite Hn in H.
  case_bool; [done|]. by bool_prop.
Qed.

(** A started campaign: its record, its project's charge and the process table change together. *)
Lemma start_ok lp by_project c rec ps p pid cmd it clock kind extra drained :
  loop_ok lp -> counts_running lp by_project ->
  Z.of_nat (length (lp_running lp)) < global_max ->
  dget (c_id c) (st_campaigns (lp_state lp)) = Some rec -> cs_status rec = Pending ->
  cs_project rec = c_project c ->
  dget (c_project c) projects = Some p -> running_count (c_project c) by_project < p_max_concurrent p ->
  dget (c_project c) (st_projects (lp_state lp)) = Some ps ->
  (forall n, p_case_budget p = Some n -> ps_reserved_cases ps + c_reserve_cases c <= n) ->
  let st := event clock kind (Some (c_id c)) extra
    (put_project (c_project c) (charge (c_reserve_cases c) ps)
       (put_campaign (c_id c) (set_running pid cmd rec) (lp_state lp))) in
  let lp' := Loop st st (dset (c_id c) it (lp_running lp)) drained in
  loop_ok lp' /\ counts_running lp' (bump (c_project c) by_project) /\ evolves (lp_state lp) st /\
  S (pending_count st) = pending_count (lp_state lp).
Proof.
  intros [Hst _ Hrun] Hcnt Hlen Hrec Hp Hrp Hproj Hcap Hps Hbud st lp'.
  assert (Hst' : state_ok st).
  { apply state_ok_event. eapply state_ok_put_project; [|exact Hps|].
    - by eapply state_ok_put_campaign.
    - intros p' n Hp' Hn. cbn. apply Hbud. congruence. }
  assert (Hsame : forall x, project_of st x = project_of (lp_state lp) x)
    by (intros x; by eapply (in_project_put (c_id c) (set_running pid cmd rec) rec)).
  assert (Hstat : forall x, status_of st x =
    if String.eqb x (c_id c) then Some Running else status_of (lp_state lp) x)
    by (intros x; apply (status_of_put (c_id c) (set_running pid cmd rec))).
  assert (Hnew : c_id c ∉ dkeys (lp_running lp)).
  { intros Hin%(ro_status _ _ Hrun). unfold status_of in Hin. rewrite Hrec in Hin. cbn in Hin. congruence. }
  assert (Hkeys : dkeys (lp_running lp') = dkeys (lp_running lp) ++ [c_id c]).
  { cbn. rewrite dkeys_dset_notin by done. unfold dkeys. by rewrite fmap_app. }
  assert (Hcount : forall q, running_in st (lp_running lp') q =
    running_in (lp_state lp) (lp_running lp) q + (if String.eqb q (c_project c) then 1 else 0)).
  { intros q. rewrite (running_in_ext st (lp_state lp)) by done. unfold running_in.
    rewrite Hkeys, List.filter_app, length_app. cbn.
    unfold in_project at 2, project_of. rewrite Hrec. cbn. rewrite Hrp.
    destruct (String.eqb_spec q (c_project c)) as [->|].
    - rewrite bool_decide_true by done. cbn [length]. lia.
    - rewrite bool_decide_false by congruence. cbn [length]. lia. }
  split_and!.
  - constructor; [done..|]. constructor.
    + cbn. apply dwf_dset, Hrun.
    + intros x.
      change (x ∈ dkeys (dset (c_id c) it (lp_running lp)) <-> status_of st x = Some Running).
      rewrite Hstat, elem_of_dkeys_dset, (ro_status _ _ Hrun).
      destruct (String.eqb_spec x (c_id c)) as [->|]; naive_solver.
    + cbn. rewrite dkeys_dset_notin by done. rewrite length_app. cbn. lia.
    + intros q p' Hp'. rewrite Hcount. specialize (Hcnt (c_project c)).
      destruct (String.eqb_spec q (c_project c)) as [->|].
      * assert (p' = p) as -> by congruence. lia.
      * rewrite Z.add_0_r. by apply (ro_project _ _ Hrun).
  - intros q. rewrite running_count_bump, Hcnt. symmetry. apply Hcount.
  - apply (evolves_put (c_id c) rec (set_running pid cmd rec)); [done|rewrite Hp; constructor].
  - by apply (pending_count_put (c_id c) rec (set_running pid cmd rec) (lp_state lp)).
Qed.

(** What a pass through the launch loop that takes a campaign off the queue establishes. *)
Record advanced (lp lp' : loop) (by_project : dict Z) : Prop := {
  ad_ok : loop_ok lp';
  ad_counts : counts_running lp' by_project;
  ad_evolves : evolves (lp_state lp) (lp_state lp');
  ad_pending : S (pending_count (lp_state lp')) = pending_count (lp_state lp);
  ad_drained : lp_drained lp' = lp_drained lp
}.

(** A queue that is not empty always has an eligible project when nothing runs. *)
Lemma pending_eligible st by_project cs :
  state_ok st -> eligible_projects projects campaigns st by_project = Ok cs ->
  (forall pid, running_count pid by_project = 0) ->
  pending_count st <> 0%nat -> cs <> [].
Proof.
  intros Hst Hcs Hzero Hpc Hnil. subst cs. apply Hpc. unfold pending_count.
  apply (dcount_zero is_pending); [apply Hst|]. intros cid r Hr.
  unfold is_pending. apply bool_decide_false. intros Hpend.
  assert (Hin := so_listed _ Hst cid (dget_some_key _ _ _ Hr)).
  apply list_elem_of_fmap in Hin as (c&->&Hc).
  pose proof (so_campaign _ Hst c Hc) as Hproj. unfold project_of in Hproj. rewrite Hr in Hproj.
  injection Hproj as Hproj.
  destruct (so_record _ Hst _ _ Hr) as [_ Hdm]. rewrite Hproj in Hdm. unfold dmem in Hdm.
  destruct (dget (c_project c) projects) as [p|] eqn:Hp; [|done].
  pose proof (eligible_nonempty campaigns st by_project projects (c_project c) p [] Hcs) as Hne.
  apply Hne; [by apply dget_some_in|rewrite Hzero; apply (mo_project _ _ _ Hok) in Hp; lia| |done].
  exists c. split_and!; [done..|]. unfold status_of. by rewrite Hr, <- Hpend.
Qed.
Lemma launch_one_spec t lp by_project :
  loop_ok lp -> counts_running lp by_project -> Z.of_nat (length (lp_running lp)) < global_max ->
  match launch_one executable tool projects campaigns t lp by_project with
  | NothingToLaunch => lp_running lp = [] -> pending_count (lp_state lp) = 0%nat
  | Skipped lp' => advanced lp lp' by_project
  | Launched lp' by_project' => advanced lp lp' by_project' /\ lp_running lp' <> []
  | LaunchFailed lp' e => lp' = lp /\ exn_class e <> AppError
  end.
Proof.
  intros Hlp Hcnt Hlen. unfold launch_one.
  destruct (choose_next _ _ _ _) as [[c|]|e] eqn:Hc.
  2: { intros Hnil. destruct (decide (pending_count (lp_state lp) = 0%nat)) as [|Hne]; [done|].
       unfold choose_next in Hc. apply res_bind_Ok in Hc as (l&Hl&Hc).
       assert (Hl0 : l <> []).
       { eapply pending_eligible; [apply Hlp|exact Hl| |exact Hne].
         intros pid. rewrite Hcnt. by rewrite Hnil. }
       destruct l as [|x l]; [done|]. cbn [py_min] in Hc.
       destruct (py_min_from _ x l) as [[share order] pid] eqn:Hx.
       apply res_bind_Ok in Hc as (pend&Hpend&Hc). injection Hc as Hc. apply py_min_none in Hc as ->.
       assert (Hin : (share, order, pid) ∈ x :: l) by (rewrite <- Hx; apply py_min_from_in).
       apply (eligible_projects_spec _ _ _ _ _ Hl) in Hin as (?&?&_&_&(c&Hc)&_).
       exfalso. apply (not_elem_of_nil c). by apply (pending_of_spec _ _ _ _ Hpend). }
  2: { split; [done|]. by apply choose_next_error in Hc. }
  apply choose_next_spec in Hc as (Hin&Hpend&share&order&Hel&_&_).
  destruct Hel as (p&pst&Hp&Hcap&_&Hpst&_). cbn [fst snd] in *.
  pose proof (so_campaign _ (lo_state _ Hlp) c Hin) as Hproj. unfold status_of, project_of in *.
  destruct (dget (c_id c) (st_campaigns (lp_state lp))) as [rec|] eqn:Hrec; [|done].
  rewrite (dindex_Ok _ _ _ Hrec). injection Hpend as Hpend. injection Hproj as Hproj.
  assert (Hp' : dget (c_project c) projects = Some p) by (apply dget_wf; [apply Hok|done]).
  case_bool.
  { edestruct (skip_ok lp by_project (c_id c) rec (set_status Cancelled rec)) as (?&?&?&?);
      [done..|constructor|done|by constructor]. }
  destruct (quota_allows _ _ _) as [[[] reason]|e] eqn:Hq.
  - apply quota_allows_Ok in Hq as (p2&ps2&Hp2&Hps2&Hbud).
    assert (p2 = p) as -> by congruence. assert (ps2 = pst) as -> by congruence.
    rewrite (dindex_Ok _ _ _ Hpst).
    destruct (t_popen t (c_id c)) as [pid|msg]; [|done].
    edestruct (start_ok lp by_project c rec pst p pid) as (?&?&?&?); [done..|by apply Hbud|].
    split; [by constructor|]. cbn. intros Hnil.
    assert (Hk : c_id c ∈ dkeys (dset (c_id c) (Live pid (t_monotonic_start t (c_id c)) (c_wall_seconds c))
                                   (lp_running lp))) by (apply elem_of_dkeys_dset; by left).
    rewrite Hnil in Hk. by apply not_elem_of_nil in Hk.
  - edestruct (skip_ok lp by_project (c_id c) rec (set_blocked reason rec)) as (?&?&?&?);
      [done..|constructor|done|by constructor].
  - split; [done|]. by apply quota_allows_error in Hq.
Qed.


Record launched_spec (lp lp' : loop) (failure : option exn) : Prop := {
  la_ok : loop_ok lp';
  la_evolves : evolves (lp_state lp) (lp_state lp');
  la_drained : lp_drained lp' = lp_drained lp;
  la_pending : (pending_count (lp_state lp') <= pending_count (lp_state lp))%nat;
  la_failure : forall e, failure = Some e -> exn_class e <> AppError;
  la_unchanged : lp_drained lp = true -> lp' = lp /\ failure = None;
  la_empty : lp_drained lp = false -> failure = None -> lp_running lp' = [] ->
    pending_count (lp_state lp') = 0%nat;
  la_progress : lp_drained lp = false -> failure = None -> lp_running lp = [] ->
    pending_count (lp_state lp) <> 0%nat ->
    (pending_count (lp_state lp') < pending_count (lp_state lp))%nat;
  la_idle : pending_count (lp_state lp) = 0%nat -> lp' = lp
}.

Lemma advanced_launched lp lp1 lp' by_project failure :
  advanced lp lp1 by_project -> lp_drained lp = false ->
  launched_spec lp1 lp' failure -> launched_spec lp lp' failure.
Proof.
  intros [? ? Hev Hp Hd] Hdr [? Hev' Hd' Hp' Hf _ He _ _].
  constructor; [done|by eapply evolves_trans|congruence|lia|done|congruence| |lia|lia].
  intros _. apply He. congruence.
Qed.

Lemma launch_loop_spec fuel t lp by_project launched :
  loop_ok lp -> counts_running lp by_project -> (pending_count (lp_state lp) < fuel)%nat ->
  let '(lp', _, failure) := launch_loop executable tool projects campaigns global_max fuel t lp by_project launched in
  launched_spec lp lp' failure.
Proof.
  pose proof (mo_global _ _ _ Hok) as Hgm.
  revert lp by_project launched. induction fuel as [|fuel IH]; intros lp by_project launched Hlp Hcnt Hfuel; [lia|].
  cbn [launch_loop].
  destruct (lp_drained lp) eqn:Hd; cbn [negb andb]; [constructor; auto with ppc; congruence|].
  destruct (_ <? global_max) eqn:Hlen; bool_prop.
  2: { constructor; auto with ppc; try congruence.
       - intros _ _ Hnil. rewrite Hnil in Hlen. cbn in Hlen. lia.
       - intros _ _ Hnil. rewrite Hnil in Hlen. cbn in Hlen. lia. }
  pose proof (launch_one_spec t lp by_project Hlp Hcnt Hlen) as Hone.
  destruct (launch_one _ _ _ _ _ _ _) as [|lp1|lp1 by1|lp1 e].
  - constructor; auto with ppc; try congruence. intros _ _ Hnil%Hone. lia.
  - pose proof (ad_pending _ _ _ Hone). specialize (IH lp1 by_project launched).
    destruct (launch_loop _ _ _ _ _ _ _ _ _ _) as [[lp' l'] failure].
    eapply advanced_launched; [done..|]. apply IH; [apply Hone..|lia].
  - destruct Hone as [Hone _]. pose proof (ad_pending _ _ _ Hone). specialize (IH lp1 by1 true).
    destruct (launch_loop _ _ _ _ _ _ _ _ _ _) as [[lp' l'] failure].
    eapply advanced_launched; [done..|]. apply IH; [apply Hone..|lia].
  - destruct Hone as [-> He]. constructor; auto with ppc; try congruence.
Qed.

(** *** One iteration, and the whole run *)

Definition loop_of (o : outcome) : loop :=
  match o with Continue lp | Finished lp | Crashed lp _ => lp end.

Record iterated (t : tick) (lp : loop) (o : outcome) : Prop := {
  it_ok : loop_ok (loop_of o);
  it_evolves : evolves (lp_state lp) (lp_state (loop_of o));
  it_failure : forall lp' e, o = Crashed lp' e -> exn_class e <> AppError;
  it_progress : (forall cid, t_poll t cid <> None) -> forall lp', o = Continue lp' ->
    (pending_count (lp_state lp') < pending_count (lp_state lp))%nat
}.

Lemma iterate_spec t lp :
  loop_ok lp -> iterated t lp (iterate executable tool projects campaigns global_max t lp).
Proof.
  intros Hlp. unfold iterate. destruct (t_cancel_all t).
  { destruct (cancel_everything_spec t lp Hlp) as (lp'&->&?&?). constructor; cbn; auto; done. }
  destruct (inspect_all_spec t lp Hlp) as (lp1&->&Hlp1&Hev1&Hd1&Hp1&Hall).
  set (lp2 := Loop _ _ _ _).
  assert (Hlp2 : loop_ok lp2) by (destruct Hlp1; by constructor).
  destruct (lp_drained lp2 && _) eqn:Hdr; [constructor; cbn; auto; done|].
  destruct (count_running_spec lp2 Hlp2) as (by_project&->&Hcnt).
  pose proof (launch_loop_spec (S (pending_count (lp_state lp2))) t lp2 by_project false Hlp2 Hcnt
                ltac:(lia)) as Hla.
  destruct (launch_loop _ _ _ _ _ _ _ _ _ _) as [[lp' launched] failure].
  assert (Hev : evolves (lp_state lp) (lp_state lp')) by (eapply evolves_trans; [done|apply Hla]).
  assert (Hndr : lp_running lp' = [] -> lp_drained lp2 = false).
  { intros Hnil. destruct (lp_drained lp2) eqn:E; [|done].
    destruct (la_unchanged _ _ _ Hla E) as [-> _]. by rewrite Hnil in Hdr. }
  destruct failure as [e|].
  { constructor; cbn; [apply Hla|done| |done]. intros ? ? [= <- <-]. by apply (la_failure _ _ _ Hla). }
  destruct (bool_decide (lp_running lp' = [])) eqn:Hidle; bool_prop; cbn [andb].
  - rewrite (la_empty _ _ _ Hla (Hndr Hidle) eq_refl Hidle). cbn.
    constructor; cbn; [apply Hla|done..].
  - constructor; cbn; [apply Hla|done..|].
    intros Hpoll%Hall ? [= <-]. rewrite <- Hp1.
    assert (lp_drained lp2 = false) as Hdf.
    { destruct (lp_drained lp2) eqn:E; [|done]. by destruct Hdr as [?|Hdr%bool_decide_eq_false]. }
    apply (la_progress _ _ _ Hla); [done..|]. intros Hz. apply Hidle.
    by rewrite (la_idle _ _ _ Hla Hz).
Qed.

Lemma supervise_spec ticks lp :
  loop_ok lp ->
  let o := supervise executable tool projects campaigns global_max ticks lp in
  loop_ok (loop_of o) /\ evolves (lp_state lp) (lp_state (loop_of o)) /\
  forall lp' e, o = Crashed lp' e -> exn_class e <> AppError.
Proof.
  revert lp. induction ticks as [|t ticks IH]; intros lp Hlp; cbn; [auto with ppc|].
  pose proof (iterate_spec t lp Hlp) as [Hok1 Hev1 Hf1 _].
  destruct (iterate _ _ _ _ _ _ _) as [lp1|lp1|lp1 e]; cbn in *; [|naive_solver..].
  destruct (IH lp1 Hok1) as (?&?&?). split_and!; [done|by eapply evolves_trans|done].
Qed.

Lemma supervise_finishes ticks lp :
  loop_ok lp -> (forall t cid, t ∈ ticks -> t_poll t cid <> None) ->
  (pending_count (lp_state lp) < length ticks)%nat ->
  match supervise executable tool projects campaigns global_max ticks lp with
  | Continue _ => False
  | _ => True
  end.
Proof.
  revert lp. induction ticks as [|t ticks IH]; intros lp Hlp Hpoll Hlen; cbn in *; [lia|].
  pose proof (iterate_spec t lp Hlp) as [Hok1 _ _ Hprog].
  destruct (iterate _ _ _ _ _ _ _) as [lp1|lp1|lp1 e]; [|done..].
  apply IH; [done|intros; apply Hpoll; by right|].
  specialize (Hprog (fun cid => Hpoll t cid ltac:(by left)) lp1 eq_refl). lia.
Qed.

(** *** Fresh and resumed states *)

Lemma fresh_campaigns (l : list campaign) (d : dict campaign_state) :
  NoDup (c_id <$> l) -> (forall c, c ∈ l -> dget (c_id c) d = None) ->
  let d' := fold_left (fun d c => dset (c_id c) (new_campaign_state c) d) l d in
  (dwf d -> dwf d') /\
  (forall cid, dget cid d' = match List.find (fun c => String.eqb cid (c_id c)) l with
                             | Some c => Some (new_campaign_state c)
                             | None => dget cid d
                             end).
Proof.
  revert d. induction l as [|c l IH]; intros d Hnd Hnew; [done|].
  apply NoDup_cons in Hnd as [Hc Hnd]. cbn.
  destruct (IH (dset (c_id c) (new_campaign_state c) d) Hnd) as [Hwf Hget].
  { intros c' Hc'. rewrite dget_dset_ne; [apply Hnew; by right|].
    intros E. apply Hc. rewrite <- E. apply list_elem_of_fmap. by exists c'. }
  split; [auto with ppc|]. intros cid. rewrite Hget, dget_dset.
  destruct (String.eqb_spec cid (c_id c)) as [->|]; [|done].
  destruct (List.find _ l) as [c'|] eqn:Hf; [|done].
  apply List.find_some in Hf as [Hin E]. apply String.eqb_eq in E.
  exfalso. apply Hc. rewrite E. apply list_elem_of_fmap. exists c'. by rewrite list_elem_of_In.
Qed.

Lemma dget_fmap {A B} (f : A -> B) k (d : dict A) : dget k (prod_map id f <$> d) = f <$> dget k d.
Proof. induction d as [|[k' v] d IH]; cbn; [done|]. by destruct (String.eqb k k'). Qed.

Lemma dkeys_fmap {A B} (f : A -> B) (d : dict A) : dkeys (prod_map id f <$> d) = dkeys d.
Proof. unfold dkeys. rewrite <- list_fmap_compose. by apply list_fmap_ext. Qed.

Lemma new_state_ok now hash : state_ok (new_state now hash projects campaigns).
Proof.
  destruct (fresh_campaigns campaigns [] (mo_ids _ _ _ Hok)) as [Hwf Hget]; [done|].
  assert (Hrec : forall cid r, dget cid (st_campaigns (new_state now hash projects campaigns)) = Some r ->
    exists c, c ∈ campaigns /\ c_id c = cid /\ r = new_campaign_state c).
  { intros cid r. cbn. rewrite Hget. destruct (List.find _ campaigns) as [c|] eqn:Hf; [|done].
    intros [= <-]. apply List.find_some in Hf as [Hin E]. apply String.eqb_eq in E.
    exists c. by rewrite list_elem_of_In. }
  constructor.
  - apply Hwf, dwf_nil.
  - intros cid r (c&Hc&<-&->)%Hrec. split; [done|]. by apply (mo_campaign _ _ _ Hok).
  - intros c Hc. unfold project_of. cbn. rewrite Hget.
    destruct (List.find _ campaigns) as [c'|] eqn:Hf.
    + apply List.find_some in Hf as [Hin E]. apply String.eqb_eq in E. cbn. f_equal.
      assert (c' = c) as ->; [|done]. apply list_elem_of_In in Hin.
      apply list_elem_of_lookup in Hc as [i Hi]. apply list_elem_of_lookup in Hin as [j Hj].
      pose proof (NoDup_lookup (c_id <$> campaigns) i j (c_id c) (mo_ids _ _ _ Hok)) as Hij.
      rewrite !list_lookup_fmap, Hi, Hj in Hij. cbn in Hij.
      assert (i = j) as -> by (apply Hij; congruence). congruence.
    + apply list_elem_of_In in Hc. pose proof (List.find_none _ _ Hf c Hc) as Hn.
      cbn in Hn. by rewrite String.eqb_refl in Hn.
  - intros cid (r&(c&Hc&<-&->)%Hrec)%dget_in_keys. apply list_elem_of_fmap. by exists c.
  - intros pid. unfold dmem. cbn. rewrite dget_fmap. by destruct (dget pid projects).
  - intros pid p b ps Hp Hb. cbn. rewrite dget_fmap, Hp. intros [= <-]. cbn.
    by apply (mo_project _ _ _ Hok) in Hp as (_&_&_&Hp); apply Hp.
Qed.

Lemma status_of_requeue st cid :
  status_of (with_campaigns st (prod_map id requeue <$> st_campaigns st)) cid =
  (fun s => if bool_decide (s = Running) then Pending else s) <$> status_of st cid.
Proof.
  unfold status_of. cbn. rewrite dget_fmap. destruct (dget cid (st_campaigns st)) as [r|]; [|done].
  cbn. f_equal. unfold requeue. by destruct (cs_status r) eqn:E.
Qed.

Lemma requeue_ok st :
  state_ok st -> state_ok (with_campaigns st (prod_map id requeue <$> st_campaigns st)).
Proof.
  intros [Hwf Hrec Hcam Hlis Hpro Hbud].
  assert (Hid : forall r, cs_id (requeue r) = cs_id r /\ cs_project (requeue r) = cs_project r)
    by (intros r; unfold requeue; by destruct (cs_status r)).
  constructor; cbn; auto.
  - unfold dwf. by rewrite dkeys_fmap.
  - intros cid r. rewrite dget_fmap. destruct (dget cid (st_campaigns st)) as [q|] eqn:Hq; [|done].
    intros [= <-]. destruct (Hid q) as [-> ->]. by apply Hrec.
  - intros c Hc. unfold project_of. cbn. rewrite dget_fmap. specialize (Hcam c Hc). unfold project_of in Hcam.
    destruct (dget (c_id c) (st_campaigns st)) as [q|]; [|done]. cbn in *. by destruct (Hid q) as [_ ->].
  - intros cid. rewrite dkeys_fmap. auto.
Qed.

Lemma start_loop_ok st :
  state_ok st -> (forall cid, status_of st cid <> Some Running) -> loop_ok (start_loop st).
Proof.
  intros Hst Hnr. constructor; [done..|]. constructor; cbn.
  - apply dwf_nil.
  - intros cid. split; [intros H; by apply not_elem_of_nil in H|intros H; by apply Hnr in H].
  - pose proof (mo_global _ _ _ Hok). lia.
  - intros pid p Hp%(mo_project _ _ _ Hok).
    assert (running_in st [] pid = 0) as -> by done. lia.
Qed.

Lemma load_fresh_ok now hash st :
  load_state None now hash projects campaigns false = Ok st -> loop_ok (start_loop st).
Proof.
  cbn. intros [= <-]. apply start_loop_ok; [apply new_state_ok|].
  intros cid. unfold status_of. cbn.
  destruct (fresh_campaigns campaigns [] (mo_ids _ _ _ Hok)) as [_ Hget]; [done|]. rewrite Hget.
  by destruct (List.find _ campaigns).
Qed.

Lemma load_resumed_ok old now hash st :
  state_ok old -> load_state (Some old) now hash projects campaigns true = Ok st ->
  loop_ok (start_loop st) /\
  forall cid, status_of st cid = (fun s => if bool_decide (s = Running) then Pending else s) <$> status_of old cid.
Proof.
  intros Hold. unfold load_state. intros H. inv_res. split; [|intros; apply status_of_requeue].
  apply start_loop_ok; [by apply requeue_ok|]. intros cid. rewrite status_of_requeue.
  destruct (status_of old cid) as [s|]; cbn; [case_bool_decide; congruence|done].
Qed.
End invariant.
