(* ===== verification/ScheduleProps.v ===== *)
(** * The properties of the campaign scheduler

    Each theorem is stated for the program as it runs: from the manifest document through
    [validate_manifest], [load_state] and the supervision loop.  The witnesses run the scheduler on
    the manifest of [tests/test_campaign_scheduler.py]. *)
From Stdlib Require Import SpecFloat Ascii.
From S2P Require Import Prelude PyCore PyValue Schedule ScheduleFacts.

(** ** A concrete run *)

Definition example_env : path_env := PathEnv Ok Ok (fun _ => true).
Definition ex_project (pid : string) (weight : Z) (budget : value) : value :=
  VDict [("id", VStr pid); ("weight", VInt weight); ("max_concurrent", VInt 1); ("case_budget", budget)].
Definition ex_campaign (cid pid : string) (priority reserve : Z) : value :=
  VDict [("id", VStr cid); ("project", VStr pid); ("manifest", VStr (cid +:+ ".json"));
         ("priority", VInt priority); ("reserve_cases", VInt reserve)].
Definition example_doc : value :=
  VDict [("schema", VStr MANIFEST_SCHEMA);
         ("resources", VDict [("max_concurrent", VInt 1)]);
         ("projects", VList [ex_project "a" 2 (VInt 10); ex_project "b" 1 VNone; ex_project "c" 1 (VInt 5)]);
         ("campaigns", VList [ex_campaign "a-low" "a" 1 2; ex_campaign "a-high" "a" 50 2;
                              ex_campaign "b-mid" "b" 5 1; ex_campaign "c-one" "c" 9 4;
                              ex_campaign "c-two" "c" 8 4])].
(** A tick in which every running process exits with status 0. *)
Definition quiet_tick (now : Z) : tick :=
  Tick false false (fun _ => false) (fun _ => false) (fun _ => false)
    (fun _ => ratio now 1) (fun _ => ratio now 1) (fun _ => ratio now 1)
    (fun _ => Some 0) (fun _ => None) (fun _ => inl 100) (fun _ => false) (fun n => ratio n 1).
Definition example_ticks : list tick := quiet_tick <$> [1; 2; 3; 4; 5; 6; 7].

Definition example_run (doc : value) (existing : option state) (resume : bool) : invocation :=
  Invocation (ratio 1 20) example_env doc "/work" "/out" "/usr/bin/python3" (Ok "/opt/campaign.py")
    "hash" existing fzero resume.

(** The admission order of the documented example: fair share first, priority within a project, and
    the second campaign of project c blocked by its case budget. *)
Example example_run_order :
  match scheduler_run (example_run example_doc None false) example_ticks with
  | Ok (Finished lp) =>
      ((fun e => (ev_kind e, ev_campaign e)) <$>
         List.filter (fun e => negb (String.eqb (ev_kind e) "finished")) (st_events (lp_state lp))) =
      [("started", Some "a-high"); ("started", Some "b-mid"); ("started", Some "c-one");
       ("started", Some "a-low"); ("quota-blocked", Some "c-two")]
  | _ => False
  end.
Proof. vm_compute. reflexivity. Qed.

(** ** Invocations, killed and resumed *)

Definition resumed (iv : invocation) (o : outcome) : invocation :=
  Invocation (iv_poll_seconds iv) (iv_env iv) (iv_doc iv) (iv_base iv) (iv_out iv) (iv_executable iv)
    (iv_tool iv) (iv_manifest_hash iv) (Some (lp_disk (loop_of o))) (iv_now iv) true.

(** The runs of one manifest: a fresh one, or one resumed with [--resume] from the [state.json] an
    earlier run left, however that run ended. *)
Inductive history (iv : invocation) : outcome -> Prop :=
  | fresh_run ticks o :
      iv_existing iv = None -> scheduler_run iv ticks = Ok o -> history iv o
  | resumed_run o ticks o' :
      history iv o -> scheduler_run (resumed iv o) ticks = Ok o' -> history iv o'.

(** [scheduler_run] returned: the pieces it is made of. *)
Lemma scheduler_run_Ok iv ticks o :
  scheduler_run iv ticks = Ok o ->
  exists projects campaigns gm tool st,
    validate_manifest (iv_env iv) (iv_doc iv) (iv_base iv) (iv_out iv) = Ok (projects, campaigns, gm) /\
    manifest_ok projects campaigns gm /\
    load_state (iv_existing iv) (iv_now iv) (iv_manifest_hash iv) projects campaigns (iv_resume iv) = Ok st /\
    o = supervise (iv_executable iv) tool projects campaigns gm ticks (start_loop st).
Proof.
  unfold scheduler_run. intros H. inv_res.
  match goal with H : validate_manifest _ _ _ _ = Ok ?m |- _ =>
    destruct m as [[projects campaigns] gm]; pose proof (validate_manifest_ok _ _ _ _ _ _ _ H) as Hok end.
  inv_res. eauto 10.
Qed.

Lemma history_ok iv o projects campaigns gm :
  history iv o ->
  validate_manifest (iv_env iv) (iv_doc iv) (iv_base iv) (iv_out iv) = Ok (projects, campaigns, gm) ->
  loop_ok projects campaigns gm (loop_of o) /\
  forall lp e, o = Crashed lp e -> exn_class e <> AppError.
Proof.
  intros Hh Hv. induction Hh as [ticks o Hnone Hrun|o ticks o' Hh IH Hrun];
    apply scheduler_run_Ok in Hrun as (ps&cs&g&tool&st&Hv'&Hok&Hld&->).
  - rewrite Hv in Hv'. injection Hv' as <- <- <-. rewrite Hnone in Hld.
    destruct (iv_resume iv); [done|]. apply (load_fresh_ok _ _ _ Hok) in Hld.
    by destruct (supervise_spec (iv_executable iv) tool _ _ _ Hok ticks _ Hld) as (?&_&?).
  - cbn in Hv'. rewrite Hv in Hv'. injection Hv' as <- <- <-.
    apply (load_resumed_ok _ _ _ Hok) in Hld as [Hld _]; [|apply IH].
    by destruct (supervise_spec (iv_executable iv) tool _ _ _ Hok ticks _ Hld) as (?&_&?).
Qed.

(** ** The manifest *)

(** C2: a manifest that validation accepts has positive weights and caps, non-negative budgets and
    reservations, distinct project and campaign identifiers, and every campaign belongs to a
    declared project. *)
Theorem validate_manifest_sound env doc base out projects campaigns gm :
  validate_manifest env doc base out = Ok (projects, campaigns, gm) ->
  manifest_ok projects campaigns gm.
Proof. apply validate_manifest_ok. Qed.

(** The parts of the concrete run, evaluated. *)
Definition ex_manifest := ok_or ([], [], 0) (validate_manifest example_env example_doc "/work" "/out").
Definition ex_projects := fst (fst ex_manifest).
Definition ex_campaigns := snd (fst ex_manifest).
Definition ex_invocation := example_run example_doc None false.
Definition ex_outcome (ticks : list tick) : outcome :=
  ok_or (Continue (start_loop (new_state fzero "" [] []))) (scheduler_run ex_invocation ticks).

Lemma validate_manifest_sound_witness :
  length ex_campaigns = 5%nat /\ manifest_ok ex_projects ex_campaigns 1.
Proof.
  split; [reflexivity|].
  apply (validate_manifest_sound example_env example_doc "/work" "/out"). vm_compute. reflexivity.
Defined.

(** ** Safety *)

(** C1: whatever the world does and however often the scheduler is killed and resumed, it never
    runs more processes than [resources.max_concurrent], never more of one project than the
    project's own cap, and never reserves more cases than a project's budget. *)
Theorem schedule_caps_and_budgets iv o projects campaigns gm :
  validate_manifest (iv_env iv) (iv_doc iv) (iv_base iv) (iv_out iv) = Ok (projects, campaigns, gm) ->
  history iv o ->
  let lp := loop_of o in
  Z.of_nat (length (lp_running lp)) <= gm /\
  (forall pid p, dget pid projects = Some p ->
     running_in (lp_state lp) (lp_running lp) pid <= p_max_concurrent p) /\
  within_budget projects (lp_state lp).
Proof.
  intros Hv Hh lp. destruct (history_ok _ _ _ _ _ Hh Hv) as [[Hst _ Hr] _].
  split; [apply Hr|split; [apply Hr|apply Hst]].
Qed.

(** A history of the example: killed after one iteration, then resumed. *)
Lemma ex_history : history ex_invocation (ex_outcome [quiet_tick 1]).
Proof. apply (fresh_run _ [quiet_tick 1]); vm_compute; reflexivity. Qed.

Lemma schedule_caps_and_budgets_witness :
  let lp := loop_of (ex_outcome [quiet_tick 1]) in
  length (lp_running lp) = 1%nat /\ Z.of_nat (length (lp_running lp)) <= 1.
Proof.
  split; [vm_compute; reflexivity|].
  refine (proj1 (schedule_caps_and_budgets ex_invocation (ex_outcome [quiet_tick 1]) ex_projects
                   ex_campaigns 1 _ ex_history)).
  vm_compute. reflexivity.
Defined.

(** A campaign that is complete, failed, cancelled or quota-blocked in the persisted state has
    the same status after the scheduler is resumed and run for any further time. *)
Theorem schedule_decisions_final iv o ticks o' cid s :
  history iv o -> scheduler_run (resumed iv o) ticks = Ok o' ->
  status_of (lp_disk (loop_of o)) cid = Some s -> terminal s = true ->
  status_of (lp_state (loop_of o')) cid = Some s.
Proof.
  intros Hh Hrun Hs Ht.
  apply scheduler_run_Ok in Hrun as (ps&cs&g&tool&st&Hv&Hok&Hld&->). cbn in Hv.
  destruct (history_ok _ _ _ _ _ Hh Hv) as [Hlp _].
  apply (load_resumed_ok _ _ _ Hok) in Hld as [Hld Hre]; [|apply Hlp].
  destruct (supervise_spec (iv_executable (resumed iv o)) tool _ _ _ Hok ticks _ Hld) as (_&Hev&_).
  eapply evolves_terminal; [exact Hev| |done]. cbn. rewrite Hre, Hs. cbn.
  by destruct s.
Qed.

Lemma schedule_decisions_final_witness :
  status_of (lp_state (loop_of (ok_or (Continue (start_loop (new_state fzero "" [] [])))
    (scheduler_run (resumed ex_invocation (ex_outcome example_ticks)) [quiet_tick 9])))) "c-two" =
  Some QuotaBlocked.
Proof.
  apply (schedule_decisions_final ex_invocation (ex_outcome example_ticks) [quiet_tick 9]).
  - apply (fresh_run _ example_ticks); vm_compute; reflexivity.
  - vm_compute. reflexivity.
  - vm_compute. reflexivity.
  - reflexivity.
Defined.

(** C10: one iteration of the supervision loop moves each campaign's status along the edges of the
    state machine only (pending to running, cancelled or quota-blocked; running to complete, failed
    or cancelled), and neither adds nor loses a campaign. *)
Theorem schedule_status_machine iv o lp t projects campaigns gm exe tool :
  validate_manifest (iv_env iv) (iv_doc iv) (iv_base iv) (iv_out iv) = Ok (projects, campaigns, gm) ->
  history iv o -> o = Continue lp ->
  evolves (lp_state lp) (lp_state (loop_of (iterate exe tool projects campaigns gm t lp))).
Proof.
  intros Hv Hh ->. assert (Hok := validate_manifest_ok _ _ _ _ _ _ _ Hv).
  destruct (history_ok _ _ _ _ _ Hh Hv) as [Hlp _].
  apply (it_evolves _ _ _ _ _ _ (iterate_spec exe tool _ _ _ Hok t _ Hlp)).
Qed.

Lemma schedule_status_machine_witness :
  evolves (lp_state (loop_of (ex_outcome [quiet_tick 1])))
    (lp_state (loop_of (iterate "py" "tool" ex_projects ex_campaigns 1 (quiet_tick 2)
                          (loop_of (ex_outcome [quiet_tick 1]))))).
Proof.
  apply (schedule_status_machine ex_invocation (ex_outcome [quiet_tick 1])).
  - vm_compute. reflexivity.
  - apply ex_history.
  - vm_compute. reflexivity.
Defined.

(** ** Selection *)

(** The campaign [choose_next] picks is pending, its project is below its cap, that project is
    least by (dispatched / weight, manifest order, id) among all eligible projects, and within the
    project the campaign is least by (-priority, order, id) among the pending ones; when it picks
    nothing, no project is eligible. *)
Theorem choose_next_optimal projects campaigns st by_project o :
  choose_next campaigns st projects by_project = Ok o ->
  match o with
  | None => forall x, ~ eligible campaigns st by_project projects x
  | Some c =>
      c ∈ campaigns /\ status_of st (c_id c) = Some Pending /\
      exists share order, eligible campaigns st by_project projects (share, order, c_project c) /\
        (forall x, eligible campaigns st by_project projects x ->
           py_le (share, order, c_project c) x = true) /\
        (forall c', c' ∈ campaigns -> c_project c' = c_project c ->
           status_of st (c_id c') = Some Pending -> py_le (campaign_key c) (campaign_key c') = true)
  end.
Proof. apply choose_next_spec. Qed.

Definition ex_first : option campaign :=
  ok_or None (choose_next ex_campaigns (lp_state (loop_of (ex_outcome []))) ex_projects []).

Lemma choose_next_optimal_witness :
  match ex_first with
  | Some c => c_id c = "a-high" /\ c ∈ ex_campaigns
  | None => False
  end.
Proof.
  assert (H : choose_next ex_campaigns (lp_state (loop_of (ex_outcome []))) ex_projects [] = Ok ex_first)
    by (vm_compute; reflexivity).
  pose proof (choose_next_optimal _ _ _ _ _ H) as Hopt. clear H.
  destruct ex_first as [c|] eqn:E; [|discriminate (eq_trans (eq_sym E) ltac:(vm_compute; reflexivity))].
  split; [|apply Hopt]. revert E. vm_compute. intros [= <-]. reflexivity.
Defined.

(** ** Progress *)

(** C27: the scheduler never stops with "scheduler deadlock": that guard of the loop is unreachable
    for every validated manifest and every history. *)
Theorem schedule_no_deadlock iv o :
  history iv o -> forall lp, o <> Crashed lp (Exn AppError deadlock_msg).
Proof.
  intros Hh lp ->.
  assert (exists m, validate_manifest (iv_env iv) (iv_doc iv) (iv_base iv) (iv_out iv) = Ok m) as [[[ps cs] gm] Hv].
  { inversion Hh as [? ? _ Hrun|? ? ? _ Hrun]; apply scheduler_run_Ok in Hrun as (?&?&?&?&?&Hv&_);
      cbn in Hv; eauto. }
  destruct (history_ok _ _ _ _ _ Hh Hv) as [_ Hc]. by eapply Hc.
Qed.

Lemma schedule_no_deadlock_witness :
  ex_outcome [quiet_tick 1] <> Crashed (loop_of (ex_outcome [quiet_tick 1])) (Exn AppError deadlock_msg).
Proof. exact (schedule_no_deadlock ex_invocation _ ex_history _). Defined.

(** If every running process has exited whenever the loop looks at it, the loop ends: it takes
    at most one iteration more than there are campaigns. *)
Theorem schedule_terminates iv o projects campaigns gm ticks :
  validate_manifest (iv_env iv) (iv_doc iv) (iv_base iv) (iv_out iv) = Ok (projects, campaigns, gm) ->
  iv_existing iv = None -> scheduler_run iv ticks = Ok o ->
  (forall t cid, t ∈ ticks -> t_poll t cid <> None) -> (length campaigns < length ticks)%nat ->
  forall lp, o <> Continue lp.
Proof.
  intros Hv Hnone Hrun Hpoll Hlen lp ->.
  apply scheduler_run_Ok in Hrun as (ps&cs&g&tool&st&Hv'&Hok&Hld&E).
  rewrite Hv in Hv'. injection Hv' as <- <- <-. rewrite Hnone in Hld.
  destruct (iv_resume iv); [done|]. apply (load_fresh_ok _ _ _ Hok) in Hld.
  pose proof (supervise_finishes (iv_executable iv) tool _ _ _ Hok ticks _ Hld Hpoll) as Hf.
  rewrite <- E in Hf. apply Hf.
  eapply Nat.le_lt_trans; [|exact Hlen]. etrans; [apply length_filter_le|].
  unfold dvalues. rewrite length_fmap, <- (length_fmap fst (st_campaigns _)), <- (length_fmap c_id campaigns).
  apply submseteq_length, NoDup_submseteq; [apply Hld|]. intros cid. apply (so_listed _ _ _ (lo_state _ _ _ _ Hld)).
Qed.

Definition ex_last : loop := loop_of (ex_outcome example_ticks).
Lemma schedule_terminates_witness :
  status_of (lp_state ex_last) "c-two" = Some QuotaBlocked /\ ex_outcome example_ticks <> Continue ex_last.
Proof.
  split; [vm_compute; reflexivity|].
  refine (schedule_terminates ex_invocation (ex_outcome example_ticks) ex_projects ex_campaigns 1
            example_ticks _ _ _ _ _ ex_last).
  - vm_compute. reflexivity.
  - reflexivity.
  - vm_compute. reflexivity.
  - intros t cid Ht. apply list_elem_of_fmap in Ht as (n&->&_). discriminate.
  - vm_compute. repeat constructor.
Defined.

(** ** The exit status *)

Lemma running_count_bump_all (l : list campaign_state) d k :
  default 0 (dget k (fold_left (fun d r => bump (status_name (cs_status r)) d) l d)) =
  default 0 (dget k d) +
  Z.of_nat (length (List.filter (fun r => String.eqb k (status_name (cs_status r))) l)).
Proof.
  revert d. induction l as [|r l IH]; intros d; cbn [fold_left List.filter]; [cbn; lia|].
  rewrite IH. pose proof (running_count_bump k (status_name (cs_status r)) d) as Hb.
  unfold running_count in Hb. rewrite Hb.
  destruct (String.eqb k (status_name (cs_status r))); cbn [length]; lia.
Qed.

Lemma status_count_zero cs s :
  (default 0 (dget (status_name s) (status_counts cs)) =? 0) = false <->
  exists r, r ∈ dvalues cs /\ cs_status r = s.
Proof.
  unfold status_counts. rewrite running_count_bump_all, Z.eqb_neq. cbn [dget default].
  induction (dvalues cs) as [|r l IH]; cbn [List.filter].
  { split; [done|]. intros (r&Hr&_). by apply not_elem_of_nil in Hr. }
  assert (Hr : String.eqb (status_name s) (status_name (cs_status r)) = bool_decide (cs_status r = s))
    by (by destruct s, (cs_status r)).
  rewrite Hr. case_bool_decide as Hs; cbn [length].
  - split; [|lia]. intros _. exists r. split; [by left|done].
  - rewrite IH. split; intros (q&Hq&?); exists q; (split; [|done]); [by right|].
    by apply elem_of_cons in Hq as [->|].
Qed.

(** The branches of the summary status that make the exit status 0. *)
Definition sum_zero (cs : dict campaign_state) (drained : bool) : bool :=
  let zero s := default 0 (dget (status_name s) (status_counts cs)) =? 0 in
  (drained && negb (zero Pending)) ||
  (zero Pending && zero Running && zero Failed && zero Cancelled).

Lemma sum_state_zero lp :
  (Some (if String.eqb (sum_state (summary (lp_state lp) (lp_drained lp))) "complete" ||
            String.eqb (sum_state (summary (lp_state lp) (lp_drained lp))) "drained" then 0 else 1) = Some 0) <->
  sum_zero (st_campaigns (lp_state lp)) (lp_drained lp) = true.
Proof.
  assert (Hs : sum_state (summary (lp_state lp) (lp_drained lp)) =
    sum_status (status_counts (st_campaigns (lp_state lp))) (lp_drained lp)) by reflexivity.
  rewrite Hs. unfold sum_status, sum_zero. cbv zeta. cbn [status_name].
  generalize (default 0 (dget "pending" (status_counts (st_campaigns (lp_state lp)))) =? 0),
    (default 0 (dget "running" (status_counts (st_campaigns (lp_state lp)))) =? 0),
    (default 0 (dget "failed" (status_counts (st_campaigns (lp_state lp)))) =? 0),
    (default 0 (dget "cancelled" (status_counts (st_campaigns (lp_state lp)))) =? 0).
  intros bP bR bF bC.
  assert (Hn : Some 1 <> Some 0) by done.
  destruct (lp_drained lp), bP, bR, bF, bC; cbn; split; congruence.
Qed.

(** A run that finished exits with status 0 exactly when it was drained with campaigns still
    pending, or when every campaign is complete or quota-blocked; any failed or cancelled campaign
    makes it 1. *)
Theorem exit_zero_iff lp :
  exit_code (Ok (Finished lp)) = Some 0 <->
  (lp_drained lp = true /\ exists r, r ∈ dvalues (st_campaigns (lp_state lp)) /\ cs_status r = Pending) \/
  (forall r, r ∈ dvalues (st_campaigns (lp_state lp)) ->
     cs_status r = Complete \/ cs_status r = QuotaBlocked).
Proof.
  cbn [exit_code]. rewrite sum_state_zero. set (cs := st_campaigns (lp_state lp)). unfold sum_zero.
  pose proof (status_count_zero cs Pending) as HP. pose proof (status_count_zero cs Running) as HR.
  pose proof (status_count_zero cs Failed) as HF. pose proof (status_count_zero cs Cancelled) as HC.
  assert (Hno : forall s, (exists r, r ∈ dvalues cs /\ cs_status r = s) \/
    (forall r, r ∈ dvalues cs -> cs_status r <> s)).
  { intros s. destruct (default 0 (dget (status_name s) (status_counts cs)) =? 0) eqn:E.
    - right. intros r Hr Hs. enough (true = false) by done. rewrite <- E. apply status_count_zero. eauto.
    - left. by apply status_count_zero. }
  revert HP HR HF HC.
  generalize (default 0 (dget (status_name Pending) (status_counts cs)) =? 0) as bP,
    (default 0 (dget (status_name Running) (status_counts cs)) =? 0) as bR,
    (default 0 (dget (status_name Failed) (status_counts cs)) =? 0) as bF,
    (default 0 (dget (status_name Cancelled) (status_counts cs)) =? 0) as bC.
  intros bP bR bF bC HP HR HF HC.
  split.
  - intros Heq.
    destruct (lp_drained lp), bP; cbn in Heq; try (left; split; [done|]; by apply HP); right.
    all: destruct bR; cbn in Heq; try discriminate Heq.
    all: destruct bF; cbn in Heq; try discriminate Heq.
    all: destruct bC; cbn in Heq; try discriminate Heq.
    all: intros r Hr; destruct (cs_status r) eqn:E; [| |by left| | |by right].
    all: exfalso; enough (true = false) by done.
    all: first [apply HP; by eauto | apply HR; by eauto | apply HF; by eauto | apply HC; by eauto].
  - intros [[-> Hp]|Hall].
    { apply HP in Hp. by rewrite Hp. }
    assert (Hb : forall s b, (b = false <-> exists r, r ∈ dvalues cs /\ cs_status r = s) ->
      s <> Complete -> s <> QuotaBlocked -> b = true).
    { intros s [|] Hb H1 H2; [done|]. destruct (proj1 Hb eq_refl) as (r&Hr&<-).
      by destruct (Hall r Hr). }
    rewrite (Hb _ _ HP), (Hb _ _ HR), (Hb _ _ HF), (Hb _ _ HC) by done.
    by destruct (lp_drained lp).
Qed.

Lemma exit_zero_iff_witness :
  exit_code (Ok (ex_outcome example_ticks)) = Some 0.
Proof. vm_compute. reflexivity. Defined.

(** ** What the model showed *)

Definition one_campaign (project : list (string * value)) (priority reserve : value) : value :=
  VDict [("schema", VStr MANIFEST_SCHEMA);
         ("projects", VList [VDict (("id", VStr "p") :: project)]);
         ("campaigns", VList [VDict [("id", VStr "job"); ("project", VStr "p"); ("manifest", VStr "job.json");
                                     ("priority", priority); ("reserve_cases", reserve)]])].

(** A campaign interrupted by the scheduler's own death is charged a second time when it is resumed:
    with a budget of five cases and a reservation of three, its first, unfinished attempt is enough to
    block it for good. *)
Example interrupted_campaign_blocks_itself :
  let iv := example_run (one_campaign [("case_budget", VInt 5)] (VInt 0) (VInt 3)) None false in
  exists lp lp',
    scheduler_run iv [quiet_tick 1] = Ok (Continue lp) /\
    status_of (lp_state lp) "job" = Some Running /\
    scheduler_run (resumed iv (Continue lp)) [quiet_tick 2; quiet_tick 3] = Ok (Finished lp') /\
    status_of (lp_state lp') "job" = Some QuotaBlocked.
Proof. do 2 eexists. repeat split; vm_compute; reflexivity. Qed.

(** [positive_float] accepts NaN, and a wall budget of NaN never stops an admission. *)
Example nan_wall_budget_is_no_budget :
  match validate_manifest example_env
          (one_campaign [("wall_seconds", VFloat S754_nan)] (VInt 0) (VInt 0)) "/work" "/out" with
  | Ok (projects, _, _) => p_wall_seconds <$> dget "p" projects = Some (Some S754_nan)
  | Raise _ => False
  end.
Proof. vm_compute. reflexivity. Qed.

(** A null priority escapes the handler of [main]: a traceback and status 1 where every other
    malformed manifest gives 2. *)
Example null_priority_is_a_traceback :
  exit_code (scheduler_run (example_run (one_campaign [] VNone (VInt 0)) None false) []) = Some 1.
Proof. vm_compute. reflexivity. Qed.
