(* ===== verification/Control.v ===== *)
(** * The control plane ([scripts/ppc_lab_control.py])

    A filesystem-backed queue of scheduler runs with a supervisor.  The world of the programs is the
    control-plane root directory ([plane]); what they observe outside it (clocks, processes, run
    directories, manifests) is an [oracle], read at successive times. *)
From stdpp Require Import pretty.
From Stdlib Require Import SpecFloat Ascii.
From S2P Require Export PyState.

Definition CONTROL_SCHEMA := "ppc-lab-control-v1".
Definition ITEM_SCHEMA := "ppc-lab-control-item-v1".
Definition LOCK_SCHEMA := "ppc-lab-control-lock-internal-v1".
Definition TELEMETRY_SCHEMA := "ppc-lab-control-telemetry-v1".
Definition HISTORY_RECORD_SCHEMA := "ppc-lab-control-history-record-v1".
Definition SCHEDULER_SCHEMA := "ppc-lab-scheduler-v1".

(** A queue item is a JSON object; the code updates it in place and writes it back. *)
Abbreviation item := (dict value).

(** What the programs observe outside the control root, at a given time. *)
Record oracle := Oracle {
  o_now : nat -> float;                           (* time.time() *)
  o_alive : nat -> Z -> bool;                     (* os.kill(pid, 0) succeeds *)
  o_poll : nat -> Z -> option Z;                  (* proc.poll() of the process with that pid *)
  o_popen : nat -> list string -> Z + string;     (* subprocess.Popen: a pid, or an OSError's message *)
  o_summary : nat -> string -> option (res value); (* run_out/summary.json: None when it is no file *)
  o_state : nat -> string -> option (res value);  (* run_out/state.json *)
  o_sha256 : nat -> string -> res string          (* sha256_file *)
}.

(** The control root: the files the programs read back, and the signals they have sent. *)
Record plane := Plane {
  pl_control : option (res value);       (* control.json *)
  pl_queue : dict (res value);           (* queue/<id>.json, by id: what read_json gives *)
  pl_history : list (res value);         (* history/history.ndjson, by line *)
  pl_records : dict value;               (* history/<id>.json *)
  pl_pause : bool;                       (* the markers PAUSE, DRAIN and CANCEL *)
  pl_drain : bool;
  pl_cancel : bool;
  pl_run_cancel : list string;           (* run directories with a CANCEL marker *)
  pl_telemetry : option value;           (* telemetry.json *)
  pl_lock : option (res value);          (* SERVER.lock *)
  pl_killed : list Z;                    (* SIGTERMs sent to orphaned processes *)
  pl_time : nat                          (* observations made so far *)
}.

Definition set_queue (q : dict (res value)) (p : plane) : plane :=
  Plane (pl_control p) q (pl_history p) (pl_records p) (pl_pause p) (pl_drain p) (pl_cancel p)
    (pl_run_cancel p) (pl_telemetry p) (pl_lock p) (pl_killed p) (pl_time p).
Definition set_control (c : option (res value)) (p : plane) : plane :=
  Plane c (pl_queue p) (pl_history p) (pl_records p) (pl_pause p) (pl_drain p) (pl_cancel p)
    (pl_run_cancel p) (pl_telemetry p) (pl_lock p) (pl_killed p) (pl_time p).
Definition set_history (h : list (res value)) (r : dict value) (p : plane) : plane :=
  Plane (pl_control p) (pl_queue p) h r (pl_pause p) (pl_drain p) (pl_cancel p)
    (pl_run_cancel p) (pl_telemetry p) (pl_lock p) (pl_killed p) (pl_time p).
Definition set_markers (pause drain cancel : bool) (p : plane) : plane :=
  Plane (pl_control p) (pl_queue p) (pl_history p) (pl_records p) pause drain cancel
    (pl_run_cancel p) (pl_telemetry p) (pl_lock p) (pl_killed p) (pl_time p).
Definition set_run_cancel (l : list string) (p : plane) : plane :=
  Plane (pl_control p) (pl_queue p) (pl_history p) (pl_records p) (pl_pause p) (pl_drain p) (pl_cancel p)
    l (pl_telemetry p) (pl_lock p) (pl_killed p) (pl_time p).
Definition set_telemetry (t : value) (p : plane) : plane :=
  Plane (pl_control p) (pl_queue p) (pl_history p) (pl_records p) (pl_pause p) (pl_drain p) (pl_cancel p)
    (pl_run_cancel p) (Some t) (pl_lock p) (pl_killed p) (pl_time p).
Definition set_lock (l : option (res value)) (p : plane) : plane :=
  Plane (pl_control p) (pl_queue p) (pl_history p) (pl_records p) (pl_pause p) (pl_drain p) (pl_cancel p)
    (pl_run_cancel p) (pl_telemetry p) l (pl_killed p) (pl_time p).
Definition set_killed (l : list Z) (p : plane) : plane :=
  Plane (pl_control p) (pl_queue p) (pl_history p) (pl_records p) (pl_pause p) (pl_drain p) (pl_cancel p)
    (pl_run_cancel p) (pl_telemetry p) (pl_lock p) l (pl_time p).
Definition set_time (t : nat) (p : plane) : plane :=
  Plane (pl_control p) (pl_queue p) (pl_history p) (pl_records p) (pl_pause p) (pl_drain p) (pl_cancel p)
    (pl_run_cancel p) (pl_telemetry p) (pl_lock p) (pl_killed p) t.

Abbreviation io A := (M plane A).

(** An observation takes place at the current time, which moves on. *)
Definition observe {A} (f : nat -> A) : io A :=
  fun p => (Ok (f (pl_time p)), set_time (S (pl_time p)) p).

Definition validate_id (v label : string) : res string :=
  if str_empty v || negb (str_forall id_char v)
  then app_error (label +:+ " must be a non-empty portable identifier") else Ok v.

(** [isinstance(v, int)], with the number. *)
Definition as_int (v : value) : option Z :=
  match v with VInt n => Some n | VBool b => Some (if b then 1 else 0) | _ => None end.

(** [item.update(k=v, ...)] *)
Definition update (kvs : list (string * value)) (d : item) : item :=
  fold_left (fun d kv => dset (fst kv) (snd kv) d) kvs d.

Definition is_private (k : string) : bool := str_startswith "_" k.
Definition public (d : item) : item := List.filter (fun kv => negb (is_private (fst kv))) d.

(** [Path.suffix == ".py"] is approximated by [str_endswith]; both agree on installed tool names. *)
Definition tool_command (executable tool : string) (args : list string) : list string :=
  if str_endswith ".py" tool then executable :: tool :: args else tool :: args.

Section control.
Context (o : oracle) (root : string).

Definition now : io float := observe (o_now o).

Definition proc_alive (pid : option Z) : io bool :=
  match pid with
  | Some n => if n <=? 0 then mret false else observe (fun t => o_alive o t n)
  | None => mret false
  end.

(** *** The queue directory *)

(** [read_json(path)] of a queue item. *)
Definition read_item (item_id : string) : io value :=
  p ← gets pl_queue;
  match dget item_id p with
  | Some r => lift r
  | None => throw FileNotFoundError item_id
  end.

(** The files are visited in the order of their paths. *)
Definition queue_paths (p : plane) : list (string * res value) :=
  py_sorted (fun kv => fst kv +:+ ".json") (pl_queue p).

Definition load_item (path : string) (r : res value) : res item :=
  match r with
  | Raise e => if handled [OSError; JSONDecodeError] e
               then app_error ("cannot read queue item " +:+ path +:+ ": " +:+ exn_msg e) else Raise e
  | Ok doc =>
      schema ← vget "schema" doc;
      _ ← guard_app (eq_str schema ITEM_SCHEMA) ("unsupported queue item schema: " +:+ path);
      match doc with
      | VDict d => Ok (dset "_path" (VStr path) d)
      | _ => Raise (Exn TypeError "item assignment")
      end
  end.

Definition load_items : io (list item) :=
  p ← gets id;
  lift (res_map (fun '(k, r) => load_item (root +:+ "/queue/" +:+ k +:+ ".json") r) (queue_paths p)).

Definition save_item (d : item) : io unit :=
  rid ← lift (dindex "id" d);
  item_id ← lift (validate_id (py_str rid) "id");
  modify (fun p => set_queue (dset item_id (Ok (VDict (public d))) (pl_queue p)) p).

(** *** Telemetry *)

Definition read_history : io (list value) :=
  h ← gets pl_history; lift (res_map id h).

(** [counts[status] = counts.get(status, 0) + 1] *)
Definition count (k : string) (d : dict Z) : dict Z := dset k (default 0 (dget k d) + 1) d.
Definition counts_value (d : dict Z) : value := VDict (prod_map id VInt <$> py_sorted fst d).

Definition snapshot_campaigns (v : value) : list value :=
  match v with VDict d => dvalues d | VList l => l | _ => [] end.

Definition snapshot_count (acc : dict Z * list Z) (rec : value) : dict Z * list Z :=
  match rec with
  | VDict d =>
      let status := py_str (dget_or "status" (VStr "unknown") d) in
      (count status (fst acc),
       match as_int (dget_n "pid" d) with
       | Some pid => if String.eqb status "running" then snd acc ++ [pid] else snd acc
       | None => snd acc
       end)
  | _ => acc
  end.

Definition scheduler_snapshot (d : item) : io value :=
  run_out ← lift (dindex "run_out" d);
  let run_out := py_str run_out in
  summary ← observe (fun t => o_summary o t run_out);
  state ← (match summary with Some _ => mret None | None => observe (fun t => o_state o t run_out) end);
  match (match summary with Some r => Some (run_out +:+ "/summary.json", r)
         | None => match state with Some r => Some (run_out +:+ "/state.json", r) | None => None end end) with
  | None => mret VNone
  | Some (source, Raise _) => mret (VDict [("source", VStr source); ("read_error", VBool true)])
  | Some (source, Ok doc) =>
      rp ← lift (vget "projects" doc);
      campaigns_raw ← lift (vget "campaigns" doc);
      status ← lift (vget "status" doc);
      events ← lift (vget "events" doc);
      let '(counts, pids) := fold_left snapshot_count (snapshot_campaigns campaigns_raw) ([], []) in
      mret (VDict [("source", VStr source); ("scheduler_status", status);
                   ("campaign_counts", counts_value counts);
                   ("project_count", VInt (match rp with VDict d => Z.of_nat (length d) | _ => 0 end));
                   ("campaign_process_pids", VList (VInt <$> py_sorted id pids));
                   ("event_count", VInt (match events with VList l => Z.of_nat (length l) | _ => 0 end))])
  end.

(** [active] maps the id of an item this server runs to its process; [None] for the other commands. *)
Definition telemetry_row (active : option (dict Z)) (d : item) : io value :=
  pid ← (match active with
         | Some a => rid ← lift (dindex "id" d);
                     mret (match dget (py_str rid) a with Some pid => VInt pid | None => dget_n "pid" d end)
         | None => mret (dget_n "pid" d)
         end);
  fallback ← now;
  started ← lift (py_float (dget_or "started_unix" (VFloat fallback) d));
  rid ← lift (dindex "id" d);
  alive ← proc_alive (as_int pid);
  t ← now;
  let uptime := fround (fsub t started) 6 in
  snapshot ← scheduler_snapshot d;
  mret (VDict [("id", rid); ("priority", dget_or "priority" (VInt 0) d); ("pid", pid);
               ("pid_alive", VBool alive);
               ("uptime_seconds", VFloat (if fltb fzero uptime then uptime else fzero));
               ("scheduler", snapshot)]).

Definition make_telemetry (active : option (dict Z)) : io value :=
  items ← load_items;
  acc ← m_fold (fun (acc : dict Z * list (item * value)) d =>
      let '(counts, rows) := acc in
      let status := py_str (dget_or "status" (VStr "unknown") d) in
      let counts := count status counts in
      if String.eqb status "running"
      then row ← telemetry_row active d; mret (counts, rows ++ [(d, row)])
      else mret (counts, rows)) ([], []) items;
  let '(counts, rows) := acc in
  t ← now;
  p ← gets id;
  history ← read_history;
  mret (VDict [("schema", VStr TELEMETRY_SCHEMA); ("unix", VFloat t); ("paused", VBool (pl_pause p));
               ("draining", VBool (pl_drain p)); ("global_cancel", VBool (pl_cancel p));
               ("counts", counts_value counts);
               ("active", VList (snd <$> py_sorted (fun r => py_str (dget_n "id" (fst r))) rows));
               ("queue_depth", VInt (default 0 (dget "queued" counts)));
               ("history_count", VInt (Z.of_nat (length history)))]).

Definition write_telemetry (active : option (dict Z)) : io value :=
  doc ← make_telemetry active;
  _ ← modify (set_telemetry doc);
  mret doc.

(** *** The history *)

Definition history_record (d : item) (sched_summary : value) : res item :=
  rid ← dindex "id" d;
  seq ← dindex "seq" d;
  manifest ← dindex "manifest" d;
  hash ← dindex "manifest_sha256" d;
  status ← dindex "status" d;
  submitted ← dindex "submitted_unix" d;
  run_out ← dindex "run_out" d;
  Ok [("schema", VStr HISTORY_RECORD_SCHEMA); ("id", rid); ("seq", seq);
      ("priority", dget_or "priority" (VInt 0) d); ("manifest", manifest); ("manifest_sha256", hash);
      ("status", status); ("submitted_unix", submitted); ("started_unix", dget_n "started_unix" d);
      ("finished_unix", dget_n "finished_unix" d); ("returncode", dget_n "returncode" d);
      ("attempts", dget_or "attempts" (VInt 0) d); ("run_out", run_out);
      ("scheduler_summary", sched_summary)].

Definition archive_terminal (d : item) : io unit :=
  if py_bool (dget_n "history_written" d) then mret tt
  else
    run_out ← lift (dindex "run_out" d);
    summary ← observe (fun t => o_summary o t (py_str run_out));
    let sched_summary := match summary with Some (Ok v) => v | _ => VNone end in
    rec ← lift (history_record d sched_summary);
    rid ← lift (dindex "id" d);
    _ ← modify (fun p => set_history (pl_history p ++ [Ok (VDict rec)])
                           (dset (py_str rid) (VDict rec) (pl_records p)) p);
    save_item (dset "history_written" (VBool true) d).

(** An item reaches a terminal status: it is updated, saved and archived. *)
Definition finish (fields : list (string * value)) (d : item) : io unit :=
  let d := update fields d in
  _ ← save_item d;
  archive_terminal d.

(** *** Selection *)

Definition queue_key (d : item) : res (Z * Z * string) :=
  prio ← py_int (dget_or "priority" (VInt 0) d);
  seq ← py_int (dget_or "seq" (VInt 0) d);
  rid ← dindex "id" d;
  Ok (- prio, seq, py_str rid).

Definition choose_queued : io (option item) :=
  items ← load_items;
  let queued := List.filter (fun d => eq_str (dget_n "status" d) "queued") items in
  keyed ← lift (res_map (fun d => k ← queue_key d; Ok (k, d)) queued);
  mret (snd <$> py_min fst keyed).

(** *** Commands *)

Definition ensure_root : io unit :=
  c ← gets pl_control;
  match c with
  | None => throw AppError ("control plane is not initialized: " +:+ root +:+ "; run init first")
  | Some r =>
      doc ← lift r;
      schema ← lift (vget "schema" doc);
      lift (guard_app (eq_str schema CONTROL_SCHEMA) ("unsupported control-plane schema in " +:+ root))
  end.

Definition command_init : io unit :=
  c ← gets pl_control;
  _ ← (match c with
       | Some _ => mret tt
       | None =>
           t ← now;
           modify (set_control (Some (Ok (VDict [("schema", VStr CONTROL_SCHEMA);
                                                 ("created_unix", VFloat t); ("next_seq", VInt 1)]))))
       end);
  _ ← ensure_root;
  _ ← write_telemetry None;
  mret tt.

(** [ns.manifest] resolved, parsed and hashed. *)
Definition command_submit (ns_id : option string) (priority : Z) (manifest : string) (doc : res value) :
    io unit :=
  _ ← ensure_root;
  doc ← lift doc;
  _ ← lift (guard_app (match doc with VDict d => eq_str (dget_n "schema" d) SCHEDULER_SCHEMA | _ => false end)
              ("submitted manifest must use schema " +:+ SCHEDULER_SCHEMA));
  c ← gets pl_control;
  state ← lift (match c with Some r => r | None => Raise (Exn FileNotFoundError "control.json") end);
  rseq ← lift (vget_or "next_seq" (VInt 1) state);
  seq ← lift (py_int rseq);
  item_id ← lift (validate_id (match ns_id with
                               | Some s => if str_empty s then "run-" +:+ zpad 6 seq else s
                               | None => "run-" +:+ zpad 6 seq end) "id");
  q ← gets pl_queue;
  _ ← lift (guard_app (negb (dmem item_id q)) ("queue item already exists: " +:+ item_id));
  hash ← observe (fun t => o_sha256 o t manifest);
  hash ← lift hash;
  t ← now;
  _ ← save_item [("schema", VStr ITEM_SCHEMA); ("id", VStr item_id); ("seq", VInt seq);
                 ("priority", VInt priority); ("manifest", VStr manifest); ("manifest_sha256", VStr hash);
                 ("run_out", VStr (root +:+ "/runs/" +:+ item_id)); ("status", VStr "queued");
                 ("submitted_unix", VFloat t); ("attempts", VInt 0)];
  _ ← modify (set_control (Some (Ok (match state with
                                     | VDict d => VDict (dset "next_seq" (VInt (seq + 1)) d)
                                     | v => v end))));
  _ ← write_telemetry None;
  mret tt.

(** The rows [command_history] shows. *)
Definition history_rows (limit : option Z) (rows : list value) : list value :=
  match limit with
  | None => rows
  | Some n =>
      let n := Z.to_nat (Z.max 0 n) in
      match n with O => [] | _ => drop (length rows - n) rows end
  end.
Definition command_history (limit : option Z) : io (list value) :=
  _ ← ensure_root;
  rows ← read_history;
  mret (history_rows limit rows).

Definition command_pause : io unit :=
  _ ← ensure_root;
  _ ← now;
  _ ← modify (fun p => set_markers true (pl_drain p) (pl_cancel p) p);
  _ ← write_telemetry None; mret tt.
Definition command_resume : io unit :=
  _ ← ensure_root;
  _ ← modify (set_markers false false false);
  _ ← write_telemetry None; mret tt.
Definition command_drain : io unit :=
  _ ← ensure_root;
  _ ← now;
  _ ← modify (fun p => set_markers (pl_pause p) true (pl_cancel p) p);
  _ ← write_telemetry None; mret tt.

(** A CANCEL marker in the run directory of an item. *)
Definition mark_run (d : item) : io unit :=
  run_out ← lift (dindex "run_out" d);
  _ ← now;
  modify (fun p => set_run_cancel (pl_run_cancel p ++ [py_str run_out]) p).

(** [os.kill(pid, SIGTERM)] to the process of an orphaned item, if it is alive. *)
Definition kill_orphan (d : item) : io unit :=
  match as_int (dget_n "orphan_pid" d) with
  | Some pid =>
      alive ← proc_alive (Some pid);
      if alive : bool then modify (fun p => set_killed (pl_killed p ++ [pid]) p) else mret tt
  | None => mret tt
  end.

Definition cancelled (t : float) (reason : string) : list (string * value) :=
  [("status", VStr "cancelled"); ("finished_unix", VFloat t); ("cancel_reason", VStr reason)].

Definition command_cancel_all : io unit :=
  _ ← ensure_root;
  _ ← now;
  _ ← modify (fun p => set_markers (pl_pause p) (pl_drain p) true p);
  items ← load_items;
  _ ← m_iter (fun d =>
    if eq_str (dget_n "status" d) "queued" then
      t ← now; finish (cancelled t "control-global-cancel") d
    else if eq_str (dget_n "status" d) "running" then mark_run d
    else mret tt) items;
  _ ← write_telemetry None; mret tt.

Definition command_cancel (ns_id : string) : io unit :=
  _ ← ensure_root;
  _ ← lift (guard_app (negb (str_empty ns_id)) "cancel requires ITEM_ID or --all");
  item_id ← lift (validate_id ns_id "id");
  q ← gets pl_queue;
  _ ← lift (guard_app (dmem item_id q) ("unknown queue item: " +:+ ns_id));
  doc ← read_item item_id;
  d ← lift (vitems doc);
  _ ← (let status := dget_n "status" d in
       if eq_str status "queued" then
         t ← now; finish (cancelled t "control-cancel-before-start") d
       else if eq_str status "running" then
         _ ← mark_run d;
         t ← now;
         save_item (dset "cancel_requested_unix" (VFloat t) d)
       else if eq_str status "orphaned" then
         _ ← kill_orphan d;
         t ← now; finish (cancelled t "control-orphan-cancel") d
       else mret tt);
  _ ← write_telemetry None; mret tt.

(** *** The server *)

Definition acquire_lock (self : Z) : io unit :=
  l ← gets pl_lock;
  _ ← (match l with
       | None => mret tt
       | Some r =>
           let pid := match (doc ← r; v ← vget_or "pid" (VInt 0) doc; py_int v) with
                      | Ok n => n | Raise _ => 0 end in
           alive ← proc_alive (Some pid);
           if alive : bool then throw AppError ("control plane already serving as pid " +:+ pretty pid)
           else modify (set_lock None)
       end);
  t ← now;
  modify (set_lock (Some (Ok (VDict [("schema", VStr LOCK_SCHEMA); ("pid", VInt self);
                                     ("started_unix", VFloat t)])))).

Definition recover_item (d : item) : io unit :=
  if negb (eq_str (dget_n "status" d) "running") then mret tt
  else
    alive ← (match as_int (dget_n "pid" d) with
             | Some pid => proc_alive (Some pid) | None => mret false end);
    if alive : bool then
      t ← now;
      save_item (update [("status", VStr "orphaned"); ("orphaned_unix", VFloat t);
                         ("orphan_pid", dget_n "pid" d)] d)
    else
      t ← now;
      save_item (update [("recovered_unix", VFloat t)] (ddel "pid" (dset "status" (VStr "queued") d))).

Definition recover_state : io unit :=
  items ← load_items; m_iter recover_item items.

(** The global cancel marker, seen by the server. *)
Definition serve_cancel (d : item) : io unit :=
  let status := dget_n "status" d in
  if eq_str status "queued" then
    t ← now; finish (cancelled t "control-global-cancel") d
  else if eq_str status "running" then mark_run d
  else if eq_str status "orphaned" then
    _ ← kill_orphan d;
    t ← now; finish (cancelled t "control-global-orphan-cancel") d
  else mret tt.

(** [sched_status in {None, "complete", "drained"}]; a list or dictionary is not hashable. *)
Definition finished_ok (v : value) : res bool :=
  match v with
  | VList _ | VDict _ => Raise (Exn TypeError "unhashable type")
  | VNone => Ok true
  | v => Ok (eq_str v "complete" || eq_str v "drained")
  end.

(** One running process of the server is polled. *)
Definition serve_poll (global_cancel : bool) (active : dict Z) (entry : string * Z) : io (dict Z) :=
  let '(item_id, pid) := entry in
  rc ← observe (fun t => o_poll o t pid);
  match rc with
  | None => mret active
  | Some rc =>
      item_id' ← lift (validate_id item_id "id");
      doc ← read_item item_id';
      run_out ← lift (vindex "run_out" doc);
      d ← lift (vitems doc);
      summary ← observe (fun t => o_summary o t (py_str run_out));
      let sched_status := match summary with
        | Some (Ok v) => match vget "status" v with Ok s => s | Raise _ => VNone end
        | _ => VNone end in
      status ← lift (if py_bool (dget_n "cancel_requested_unix" d) || global_cancel then Ok "cancelled"
                     else if rc =? 0 then
                       ok ← finished_ok sched_status; Ok (if ok : bool then "complete" else "failed")
                     else Ok "failed");
      t ← now;
      let d := ddel "pid" (update [("status", VStr status); ("returncode", VInt rc);
                                   ("finished_unix", VFloat t)] d) in
      _ ← save_item d;
      _ ← archive_terminal d;
      mret (ddel item_id active)
  end.

(** The launch of the chosen item; the result is the active table, with the item if it started. *)
Definition serve_launch (executable scheduler : string) (active : dict Z) (d : item) : io (dict Z) :=
  manifest ← lift (dindex "manifest" d);
  hash ← observe (fun t => o_sha256 o t (py_str manifest));
  match hash with
  | Raise e =>
      if handled [OSError] e then
        t ← now;
        _ ← finish [("status", VStr "failed"); ("finished_unix", VFloat t);
                    ("failure_reason", VStr ("manifest-unreadable: " +:+ exn_msg e))] d;
        mret active
      else lift (Raise e)
  | Ok current_hash =>
      if negb (eq_str (dget_n "manifest_sha256" d) current_hash) then
        t ← now;
        _ ← finish [("status", VStr "failed"); ("finished_unix", VFloat t);
                    ("failure_reason", VStr "manifest-sha256-changed");
                    ("observed_manifest_sha256", VStr current_hash)] d;
        mret active
      else
        run_out ← lift (dindex "run_out" d);
        state ← observe (fun t => o_state o t (py_str run_out));
        let cmd := tool_command executable scheduler [py_str manifest; "--out"; py_str run_out] ++
                   (match state with Some _ => ["--resume"] | None => [] end) in
        rid ← lift (dindex "id" d);
        _ ← lift (if is_str manifest then Ok tt else Raise (Exn TypeError "expected str, bytes or os.PathLike"));
        proc ← observe (fun t => o_popen o t cmd);
        pid ← lift (match proc with inl pid => Ok pid | inr msg => Raise (Exn OSError msg) end);
        t ← now;
        attempts ← lift (py_int (dget_or "attempts" (VInt 0) d));
        _ ← save_item (update [("status", VStr "running"); ("pid", VInt pid); ("started_unix", VFloat t);
                               ("attempts", VInt (attempts + 1)); ("command", VList (VStr <$> cmd))] d);
        mret (dset (py_str rid) pid active)
  end.

Definition is_queued (r : res value) : bool :=
  match r with Ok (VDict d) => eq_str (dget_n "status" d) "queued" | _ => false end.

(** [while len(active) < max_active].  Every pass takes an item out of the queue, so the number of
    queued items is enough fuel. *)
Fixpoint serve_fill (fuel : nat) (executable scheduler : string) (max_active : Z) (active : dict Z) :
    io (dict Z) :=
  match fuel with
  | O => mret active
  | S fuel =>
      if Z.of_nat (length active) <? max_active then
        d ← choose_queued;
        match d with
        | None => mret active
        | Some d =>
            active ← serve_launch executable scheduler active d;
            serve_fill fuel executable scheduler max_active active
        end
      else mret active
  end.

(** One turn of [serve]'s loop: the new active table, and whether the loop ends. *)
Definition serve_turn (executable scheduler : string) (max_active : Z) (until_idle stop : bool)
    (active : dict Z) : io (dict Z * bool) :=
  p ← gets id;
  let global_cancel := pl_cancel p in
  let paused := pl_pause p in
  let draining := pl_drain p || stop in
  _ ← (if global_cancel then items ← load_items; m_iter serve_cancel items else mret tt);
  active ← m_fold (serve_poll global_cancel) active active;
  p ← gets id;
  active ← (if negb paused && negb draining && negb global_cancel
            then serve_fill (S (dcount is_queued (pl_queue p))) executable scheduler max_active active
            else mret active);
  telemetry ← write_telemetry (Some active);
  counts ← lift (vindex "counts" telemetry);
  rq ← lift (vget_or "queued" (VInt 0) counts);
  queued ← lift (py_int rq);
  let idle := bool_decide (active = []) in
  mret (active, (draining && idle) || (global_cancel && idle) || (until_idle && (queued =? 0) && idle)).

(** SIGINT or SIGTERM: the server drains. *)
Definition on_signal : io unit :=
  _ ← now;
  modify (fun p => set_markers (pl_pause p) true (pl_cancel p) p).

End control.
