(* ===== verification/ControlFacts.v ===== *)
(** * The control plane keeps its queue and history consistent

    The invariant of the control root ([plane_ok]), and for every operation that it is kept, that
    items move along the edges of the status machine only and that the history only grows
    ([advances]). *)
From stdpp Require Import pretty.
From Stdlib Require Import SpecFloat Ascii.
From S2P Require Export Control.

(** ** Items *)

Definition status_str (d : item) : string :=
  match dget "status" d with Some (VStr s) => s | _ => "" end.
Definition terminal_str (s : string) : bool :=
  String.eqb s "complete" || String.eqb s "failed" || String.eqb s "cancelled".
Definition live_str (s : string) : bool :=
  String.eqb s "queued" || String.eqb s "running" || String.eqb s "orphaned".

(** The fields every queue item has. *)
Record item_core (k : string) (d : item) : Prop := {
  ic_name : validate_id k "id" = Ok k;
  ic_id : dget "id" d = Some (VStr k);
  ic_schema : dget "schema" d = Some (VStr ITEM_SCHEMA);
  ic_seq : exists n, dget "seq" d = Some (VInt n);
  ic_priority : exists n, dget "priority" d = Some (VInt n);
  ic_manifest : exists s, dget "manifest" d = Some (VStr s);
  ic_hash : exists s, dget "manifest_sha256" d = Some (VStr s);
  ic_run_out : exists s, dget "run_out" d = Some (VStr s);
  ic_submitted : exists x, dget "submitted_unix" d = Some (VFloat x);
  ic_attempts : exists n, dget "attempts" d = Some (VInt n);
  ic_status : exists s, dget "status" d = Some (VStr s) /\ (terminal_str s || live_str s) = true
}.

(** An item is archived when it is terminal. *)
Definition archived (d : item) : bool := py_bool (dget_n "history_written" d).
Record item_ok (k : string) (d : item) : Prop := {
  io_core : item_core k d;
  io_archived : archived d = terminal_str (status_str d)
}.

(** Two items that agree on the fields stored on disk. *)
Definition same_fields (d d' : item) : Prop :=
  forall key, is_private key = false -> dget key d = dget key d'.

Lemma dget_public key d : is_private key = false -> dget key (public d) = dget key d.
Proof.
  intros Hk. unfold public. induction d as [|[k' v] d IH]; cbn [List.filter fst snd dget]; [done|].
  destruct (is_private k') eqn:E; cbn [negb dget]; destruct (String.eqb_spec key k') as [->|]; congruence.
Qed.

Lemma same_fields_public d : same_fields (public d) d.
Proof. intros key. apply dget_public. Qed.

Lemma same_fields_status d d' : same_fields d d' -> status_str d = status_str d'.
Proof. intros H. unfold status_str. by rewrite H. Qed.

Lemma same_fields_archived d d' : same_fields d d' -> archived d = archived d'.
Proof. intros H. unfold archived, dget_n, dget_or. by rewrite H. Qed.

Lemma item_core_ext k d d' : same_fields d d' -> item_core k d' -> item_core k d.
Proof. intros H []. constructor; rewrite ?H by reflexivity; done. Qed.

Lemma item_ok_ext k d d' : same_fields d d' -> item_ok k d' -> item_ok k d.
Proof.
  intros H []. constructor; [by eapply item_core_ext|].
  by rewrite (same_fields_archived _ _ H), (same_fields_status _ _ H).
Qed.

(** Reading a field after [item.update], key by key. *)
Ltac fields :=
  cbn [update fold_left fst snd];
  repeat first
    [ rewrite dget_dset_eq
    | rewrite dget_dset_ne by discriminate
    | rewrite dget_ddel_ne by discriminate ].

Lemma dindex_Some {A} k (d : dict A) x : dget k d = Some x -> dindex k d = Ok x.
Proof. unfold dindex. by intros ->. Qed.

(** ** The control root *)

Definition history_id (r : res value) : string :=
  match r with Ok (VDict d) => match dget "id" d with Some (VStr k) => k | _ => "" end | _ => "" end.
Definition history_status (r : res value) : string :=
  match r with Ok (VDict d) => status_str d | _ => "" end.

Definition item_at (p : plane) (k : string) : option item :=
  match dget k (pl_queue p) with Some (Ok (VDict d)) => Some d | _ => None end.
Definition status_at (p : plane) (k : string) : option string := status_str <$> item_at p k.

Record plane_ok (p : plane) : Prop := {
  po_wf : dwf (pl_queue p);
  po_items : forall k r, dget k (pl_queue p) = Some r -> exists d, r = Ok (VDict d) /\ item_ok k d;
  po_readable : forall r, r ∈ pl_history p -> exists d, r = Ok (VDict d);
  po_once : NoDup (history_id <$> pl_history p);
  po_archived : forall k, k ∈ history_id <$> pl_history p <->
    exists s, status_at p k = Some s /\ terminal_str s = true;
  po_recorded : forall r, r ∈ pl_history p -> status_at p (history_id r) = Some (history_status r)
}.

(** ** The status machine of an item *)
Inductive item_edge : option string -> option string -> Prop :=
  | edge_submit : item_edge None (Some "queued")
  | edge_start : item_edge (Some "queued") (Some "running")
  | edge_drop s : terminal_str s = true -> item_edge (Some "queued") (Some s)
  | edge_finish s : terminal_str s = true -> item_edge (Some "running") (Some s)
  | edge_recover : item_edge (Some "running") (Some "queued")
  | edge_orphan : item_edge (Some "running") (Some "orphaned")
  | edge_reap : item_edge (Some "orphaned") (Some "cancelled").

Lemma item_edge_terminal s o : terminal_str s = true -> rtc item_edge (Some s) o -> o = Some s.
Proof. intros Hs H. inversion H as [|? ? ? He]; subst; [done|]. by inversion He; subst. Qed.

(** [p'] is a later state than [p]: consistent, no archived record changed, every item further along. *)
Record advances (p p' : plane) : Prop := {
  ad_ok : plane_ok p';
  ad_history : exists l, pl_history p' = pl_history p ++ l;
  ad_status : forall k, rtc item_edge (status_at p k) (status_at p' k)
}.

Lemma advances_refl p : plane_ok p -> advances p p.
Proof. intros Hp. constructor; [done|exists []; by rewrite app_nil_r|done]. Qed.

Lemma advances_trans p1 p2 p3 : advances p1 p2 -> advances p2 p3 -> advances p1 p3.
Proof.
  intros [_ [l1 H1] Hs1] [Hok [l2 H2] Hs2]. constructor; [done| |].
  - exists (l1 ++ l2). by rewrite H2, H1, app_assoc.
  - intros k. etransitivity; [apply Hs1|apply Hs2].
Qed.

(** States that differ in markers, telemetry, lock or time only. *)
Definition same_store (p p' : plane) : Prop :=
  pl_queue p' = pl_queue p /\ pl_history p' = pl_history p.

Lemma same_store_status p p' k : same_store p p' -> status_at p' k = status_at p k.
Proof. intros [Hq _]. unfold status_at, item_at. by rewrite Hq. Qed.

Lemma same_store_ok p p' : same_store p p' -> plane_ok p -> plane_ok p'.
Proof.
  intros Hs Hp. pose proof (fun k => same_store_status p p' k Hs) as Hst. destruct Hs as [Hq Hh].
  destruct Hp. constructor; rewrite ?Hq, ?Hh; try done.
  - intros k. rewrite Hst. auto.
  - intros r Hr. rewrite Hst. auto.
Qed.

Lemma same_store_advances p p' : plane_ok p -> same_store p p' -> advances p p'.
Proof.
  intros Hp Hs. constructor; [by eapply same_store_ok| |].
  - exists []. destruct Hs as [_ ->]. by rewrite app_nil_r.
  - intros k. by rewrite (same_store_status p p' k Hs).
Qed.

(** ** Writing one item *)

Section put.
Context (p : plane) (k : string) (d : item).

Definition put_item : plane := set_queue (dset k (Ok (VDict (public d))) (pl_queue p)) p.

Lemma item_at_put x : item_at put_item x = if String.eqb x k then Some (public d) else item_at p x.
Proof. unfold item_at, put_item. cbn. rewrite dget_dset. by destruct (String.eqb x k). Qed.

Lemma status_at_put x : status_at put_item x = if String.eqb x k then Some (status_str d) else status_at p x.
Proof.
  unfold status_at. rewrite item_at_put. destruct (String.eqb x k); [|done].
  cbn. by rewrite (same_fields_status _ _ (same_fields_public d)).
Qed.

Lemma save_item_put : item_core k d -> save_item d p = (Ok tt, put_item).
Proof.
  intros [Hn Hid]. unfold save_item, mbind, M_bind, lift.
  rewrite (dindex_Some _ _ _ Hid). cbn [py_str]. by rewrite Hn.
Qed.

(** An item that is not terminal before and after. *)
Lemma put_live :
  plane_ok p -> item_ok k d -> terminal_str (status_str d) = false ->
  rtc item_edge (status_at p k) (Some (status_str d)) ->
  advances p put_item.
Proof.
  intros [Hwf Hit Hrd Honce Harch Hrec] Hd Hlive Hedge.
  assert (Hkt : forall s, status_at p k = Some s -> terminal_str s = false).
  { intros s Hs. rewrite Hs in Hedge. destruct (terminal_str s) eqn:E; [|done].
    apply item_edge_terminal in Hedge; congruence. }
  constructor.
  - constructor; cbn [pl_queue pl_history put_item set_queue]; try done.
    + by apply dwf_dset.
    + intros x r. rewrite dget_dset. destruct (String.eqb_spec x k) as [->|]; [|apply Hit].
      intros [= <-]. eexists. split; [done|]. eapply item_ok_ext; [apply same_fields_public|done].
    + intros x. rewrite Harch, status_at_put. destruct (String.eqb_spec x k) as [->|]; [|done].
      split; intros (s&Hs&Ht); [apply Hkt in Hs; congruence|injection Hs as <-; congruence].
    + intros r Hr. rewrite status_at_put. destruct (String.eqb_spec (history_id r) k) as [E|]; [|by apply Hrec].
      exfalso. assert (Hin : k ∈ history_id <$> pl_history p) by (rewrite <- E; by apply list_elem_of_fmap_2).
      apply Harch in Hin as (s&Hs&Ht). apply Hkt in Hs. congruence.
  - exists []. by rewrite app_nil_r.
  - intros x. rewrite status_at_put. by destruct (String.eqb_spec x k) as [->|].
Qed.
End put.

(** ** Computations that only look *)

Definition quiet {A} (m : io A) : Prop := forall p, same_store p (snd (m p)).

Lemma same_store_refl p : same_store p p.
Proof. done. Qed.
Lemma same_store_trans p1 p2 p3 : same_store p1 p2 -> same_store p2 p3 -> same_store p1 p3.
Proof. unfold same_store. intuition congruence. Qed.

Lemma quiet_bind {A B} (m : io A) (f : A -> io B) :
  quiet m -> (forall a, quiet (f a)) -> quiet (m ≫= f).
Proof.
  intros Hm Hf p. unfold mbind, M_bind. specialize (Hm p). destruct (m p) as [[a|e] p']; [|done].
  eapply same_store_trans; [exact Hm|apply Hf].
Qed.
Lemma quiet_ret {A} (a : A) : quiet (mret a : io A). Proof. intros p. done. Qed.
Lemma quiet_lift {A} (r : res A) : quiet (lift r). Proof. intros p. done. Qed.
Lemma quiet_throw {A} c msg : quiet (throw c msg : io A). Proof. intros p. done. Qed.
Lemma quiet_gets {A} (f : plane -> A) : quiet (gets f). Proof. intros p. done. Qed.
Lemma quiet_observe {A} (f : nat -> A) : quiet (observe f). Proof. intros p. done. Qed.
Lemma quiet_modify f : (forall p, same_store p (f p)) -> quiet (modify f : io unit).
Proof. intros Hf p. apply Hf. Qed.
Lemma quiet_fold {A S} (f : S -> A -> io S) l : (forall s x, quiet (f s x)) -> forall s, quiet (m_fold f s l).
Proof. intros Hf. induction l as [|x l IH]; intros s; cbn; [apply quiet_ret|by apply quiet_bind]. Qed.
#[export] Hint Resolve quiet_ret quiet_lift quiet_throw quiet_gets quiet_observe : ppc.

Ltac quiet :=
  repeat first
    [ progress auto with ppc
    | apply quiet_bind; [|intros]
    | apply quiet_modify; intros; split; reflexivity
    | apply quiet_fold; intros
    | match goal with
      | |- quiet (match ?x with _ => _ end) => destruct x
      | |- quiet (let _ := _ in _) => cbv zeta
      end ].

Lemma quiet_load_items root : quiet (load_items root). Proof. unfold load_items. quiet. Qed.
Lemma quiet_ensure_root root : quiet (ensure_root root). Proof. unfold ensure_root. quiet. Qed.
#[export] Hint Resolve quiet_load_items quiet_ensure_root : ppc.
Lemma quiet_choose_queued root : quiet (choose_queued root). Proof. unfold choose_queued. quiet. Qed.
Lemma quiet_now o : quiet (now o). Proof. apply quiet_observe. Qed.
Lemma quiet_proc_alive o pid : quiet (proc_alive o pid). Proof. unfold proc_alive. quiet. Qed.
#[export] Hint Resolve quiet_now quiet_proc_alive : ppc.
Lemma quiet_snapshot o d : quiet (scheduler_snapshot o d). Proof. unfold scheduler_snapshot. quiet. Qed.
#[export] Hint Resolve quiet_snapshot : ppc.
Lemma quiet_telemetry_row o active d : quiet (telemetry_row o active d).
Proof. unfold telemetry_row. quiet. Qed.
#[export] Hint Resolve quiet_telemetry_row : ppc.
Lemma quiet_write_telemetry o root active : quiet (write_telemetry o root active).
Proof. unfold write_telemetry, make_telemetry, read_history. quiet. Qed.
Lemma quiet_mark_run o d : quiet (mark_run o d). Proof. unfold mark_run. quiet. Qed.
Lemma quiet_kill_orphan o d : quiet (kill_orphan o d). Proof. unfold kill_orphan. quiet. Qed.
Lemma quiet_acquire_lock o self : quiet (acquire_lock o self). Proof. unfold acquire_lock. quiet. Qed.
Lemma quiet_on_signal o : quiet (on_signal o). Proof. unfold on_signal. quiet. Qed.
#[export] Hint Resolve quiet_write_telemetry quiet_choose_queued quiet_mark_run quiet_kill_orphan
  quiet_acquire_lock quiet_on_signal : ppc.

(** ** Loading the queue *)

(** [d] is what [load_items] or [read_json] gives for item [k]. *)
Definition loaded (p : plane) (k : string) (d : item) : Prop :=
  exists d0, item_at p k = Some d0 /\ same_fields d d0.

Lemma item_at_ok p k d : plane_ok p -> item_at p k = Some d -> item_ok k d.
Proof.
  intros Hp. unfold item_at. destruct (dget k (pl_queue p)) as [r|] eqn:E; [|done].
  apply (po_items _ Hp) in E as (d'&->&Hd). by intros [= ->].
Qed.

Lemma loaded_ok p k d : plane_ok p -> loaded p k d -> item_ok k d.
Proof. intros Hp (d0&Hd0&Hs). eapply item_ok_ext; [done|]. by eapply item_at_ok. Qed.

Lemma loaded_status p k d : loaded p k d -> status_at p k = Some (status_str d).
Proof. intros (d0&Hd0&Hs). unfold status_at. rewrite Hd0. cbn. by rewrite (same_fields_status _ _ Hs). Qed.

Section steps.
Context (o : oracle) (root : string).

Lemma load_items_spec p :
  plane_ok p ->
  exists ks ds, load_items root p = (Ok ds, p) /\ NoDup ks /\ Forall2 (loaded p) ks ds /\
    forall k s, status_at p k = Some s -> k ∈ ks.
Proof.
  intros Hp. set (l := queue_paths p).
  destruct (res_map_Forall2 (fun kv d => loaded p (fst kv) d)
    (fun '(k, r) => load_item (root +:+ "/queue/" +:+ k +:+ ".json") r) l) as (ds&Hds&HF).
  { intros [k r] Hin. apply elem_of_py_sorted in Hin. apply (dget_wf _ _ _ (po_wf _ Hp)) in Hin.
    destruct (po_items _ Hp _ _ Hin) as (d&->&Hd).
    eexists. split.
    - cbn. unfold dget_or. rewrite (ic_schema _ _ (io_core _ _ Hd)). reflexivity.
    - exists d. split; [cbn [fst]; unfold item_at; by rewrite Hin|].
      intros key Hkey. rewrite dget_dset. destruct (String.eqb_spec key "_path") as [->|]; [discriminate|done]. }
  exists (l.*1), ds. repeat split.
  - unfold load_items, mbind, M_bind, gets, lift. cbn. fold l. by rewrite Hds.
  - unfold l, queue_paths. rewrite py_sorted_perm. apply Hp.
  - clear -HF. induction HF; cbn; by constructor.
  - intros k s Hs. unfold status_at, item_at in Hs. destruct (dget k (pl_queue p)) as [r|] eqn:E; [|done].
    apply dget_some_key in E. unfold l, queue_paths. by rewrite py_sorted_perm.
Qed.

(** ** Loops over the loaded items *)

Definition effect_on (k : string) (p p' : plane) : Prop := forall x, x <> k -> item_at p' x = item_at p x.

Lemma iter_items (R : plane -> plane -> Prop) (Q : string -> option string -> Prop) (f : item -> io unit) :
  (forall p, plane_ok p -> R p p) -> (forall p1 p2 p3, R p1 p2 -> R p2 p3 -> R p1 p3) ->
  (forall p p', R p p' -> plane_ok p') ->
  (forall k d p, plane_ok p -> loaded p k d ->
     exists p', f d p = (Ok tt, p') /\ R p p' /\ effect_on k p p' /\ Q k (status_at p' k)) ->
  forall ks ds p, plane_ok p -> NoDup ks -> Forall2 (loaded p) ks ds ->
    exists p', m_iter f ds p = (Ok tt, p') /\ R p p' /\
      (forall x, x ∉ ks -> item_at p' x = item_at p x) /\ (forall x, x ∈ ks -> Q x (status_at p' x)).
Proof.
  intros Hrefl Htrans Hok Hf ks ds p Hp Hnd HF. revert p Hp HF.
  revert ds. induction Hnd as [|k ks Hk Hnd IH]; intros ds p Hp HF.
  - apply Forall2_nil_inv_l in HF as ->. exists p. repeat split; auto.
    intros x Hx. by apply not_elem_of_nil in Hx.
  - apply Forall2_cons_inv_l in HF as (d&ds'&Hd&HF&->).
    destruct (Hf _ _ _ Hp Hd) as (p1&Hp1&HR&He&HQ). cbn [m_iter].
    destruct (IH ds' p1) as (p2&Hp2&HR2&Ho2&HQ2); [by eapply Hok| |].
    { eapply Forall2_impl_in; [exact HF|]. intros x y Hx (d0&Hd0&Hs).
      exists d0. split; [|done]. rewrite He; [done|]. intros ->. done. }
    exists p2. unfold mbind, M_bind. rewrite Hp1. repeat split; [done|eauto| |].
    + intros x [Hne Hx]%not_elem_of_cons. rewrite Ho2, He; done.
    + intros x [->|Hx]%elem_of_cons; [|by apply HQ2].
      unfold status_at. rewrite Ho2 by done. apply HQ.
Qed.

(** ** Archiving *)

Lemma history_record_ok k d v :
  item_core k d -> exists r, history_record d v = Ok r /\
    dget "id" r = Some (VStr k) /\ status_str r = status_str d.
Proof.
  intros []. unfold history_record, status_str.
  destruct ic_seq0 as (?&Hseq), ic_manifest0 as (?&Hm), ic_hash0 as (?&Hh), ic_run_out0 as (?&Hr),
    ic_submitted0 as (?&Hs), ic_status0 as (st&Hst&_).
  eexists. unfold dindex. rewrite ic_id0, Hseq, Hm, Hh, Hst, Hs, Hr. cbn.
  split; [reflexivity|by split].
Qed.

(** Saving a terminal item and archiving it, from an item that was not terminal. *)
Lemma archive_ok p k d s :
  plane_ok p -> status_at p k = Some s -> terminal_str s = false ->
  item_core k d -> terminal_str (status_str d) = true -> archived d = false ->
  item_edge (Some s) (Some (status_str d)) ->
  exists p', (_ ← save_item d; archive_terminal o d) p = (Ok tt, p') /\ advances p p' /\
    effect_on k p p' /\ status_at p' k = Some (status_str d).
Proof.
  intros Hp Hs Hlive Hd Hterm Harch Hedge.
  set (d2 := dset "history_written" (VBool true) d).
  assert (Hd2 : item_core k d2).
  { destruct Hd. constructor; unfold d2; rewrite ?dget_dset_ne by discriminate; done. }
  assert (Hst2 : status_str d2 = status_str d)
    by (unfold status_str, d2; by rewrite dget_dset_ne by discriminate).
  destruct (ic_run_out _ _ Hd) as (run_out&Hrun).
  set (t := pl_time p).
  set (v := match o_summary o t run_out with Some (Ok v) => v | _ => VNone end).
  destruct (history_record_ok k d v Hd) as (r&Hr&Hrid&Hrst).
  set (p1 := put_item p k d).
  set (p2 := set_history (pl_history p1 ++ [Ok (VDict r)]) (dset k (VDict r) (pl_records p1)) (set_time (S t) p1)).
  exists (put_item p2 k d2).
  assert (Hrun' : (_ ← save_item d; archive_terminal o d) p = (Ok tt, put_item p2 k d2)).
  { unfold archive_terminal. unfold archived in Harch. rewrite Harch.
    unfold mbind, M_bind. rewrite (save_item_put p k) by done. unfold lift.
    rewrite (dindex_Some _ _ _ Hrun). cbn [py_str]. unfold observe. fold p1.
    change (pl_time p1) with t. fold v. rewrite Hr, (dindex_Some _ _ _ (ic_id _ _ Hd)).
    cbn [py_str]. unfold modify. by rewrite (save_item_put p2 k) by done. }
  split; [exact Hrun'|].
  assert (Hat : forall x, item_at (put_item p2 k d2) x = if String.eqb x k then Some (public d2) else item_at p x).
  { intros x. rewrite item_at_put. destruct (String.eqb x k) eqn:E; [done|].
    change (item_at p2 x) with (item_at p1 x). unfold p1. by rewrite item_at_put, E. }
  assert (Hsa : forall x, status_at (put_item p2 k d2) x = if String.eqb x k then Some (status_str d) else status_at p x).
  { intros x. unfold status_at. rewrite Hat. destruct (String.eqb x k); [|done]. cbn.
    by rewrite (same_fields_status _ _ (same_fields_public d2)), Hst2. }
  assert (Hnew : k ∉ history_id <$> pl_history p).
  { intros (s'&Hs'&Ht)%(po_archived _ Hp). congruence. }
  split; [|split].
  - constructor; [|by exists [Ok (VDict r)]|].
    + constructor; cbn [pl_queue pl_history put_item set_queue p2 set_history].
      * apply dwf_dset. cbn. apply dwf_dset, Hp.
      * intros x q. rewrite dget_dset. destruct (String.eqb_spec x k) as [->|Hx].
        -- intros [= <-]. eexists. split; [done|]. eapply item_ok_ext; [apply same_fields_public|].
           constructor; [done|]. rewrite Hst2, Hterm. unfold archived, dget_n, dget_or, d2.
           by rewrite dget_dset_eq.
        -- cbn. rewrite dget_dset_ne by done. apply Hp.
      * intros q [Hq| ->%list_elem_of_singleton]%elem_of_app; [by apply Hp|eauto].
      * rewrite fmap_app. apply NoDup_app. split; [apply Hp|]. cbn. rewrite Hrid.
        split; [|apply NoDup_singleton]. intros x Hx ->%list_elem_of_singleton. done.
      * intros x. rewrite Hsa, fmap_app, elem_of_app. cbn. rewrite Hrid, list_elem_of_singleton.
        destruct (String.eqb_spec x k) as [->|Hx]; [naive_solver|].
        rewrite <- (po_archived _ Hp). naive_solver.
      * intros q Hq. rewrite Hsa. apply elem_of_app in Hq as [Hq| ->%list_elem_of_singleton].
        -- destruct (String.eqb_spec (history_id q) k) as [E|]; [|by apply Hp].
           exfalso. apply Hnew. rewrite <- E. by apply list_elem_of_fmap_2.
        -- cbn. rewrite Hrid, String.eqb_refl. by rewrite Hrst.
    + intros x. rewrite Hsa. destruct (String.eqb_spec x k) as [->|]; [|done].
      rewrite Hs. by apply rtc_once.
  - intros x Hx. rewrite Hat. by destruct (String.eqb_spec x k).
  - by rewrite Hsa, String.eqb_refl.
Qed.

(** [item.update(status=..., ...)] with a terminal status, saved and archived. *)
Lemma finish_ok p k d fields s :
  plane_ok p -> loaded p k d -> terminal_str (status_str d) = false ->
  item_core k (update fields d) -> status_str (update fields d) = s -> terminal_str s = true ->
  archived (update fields d) = archived d -> item_edge (Some (status_str d)) (Some s) ->
  exists p', finish o fields d p = (Ok tt, p') /\ advances p p' /\ effect_on k p p' /\
    status_at p' k = Some s.
Proof.
  intros Hp Hl Hlive Hc <- Hterm Har Hedge. unfold finish.
  apply (archive_ok p k (update fields d) (status_str d)); try done.
  - by apply loaded_status.
  - rewrite Har, (io_archived _ _ (loaded_ok _ _ _ Hp Hl)). done.
Qed.
End steps.

(** ** Running the operations one after another *)

Lemma bind_Ok {A B} (m : io A) (f : A -> io B) p a p1 : m p = (Ok a, p1) -> (m ≫= f) p = f a p1.
Proof. unfold mbind, M_bind. by intros ->. Qed.

Lemma bind_now {A} o (f : float -> io A) p :
  (t ← now o; f t) p = f (o_now o (pl_time p)) (set_time (S (pl_time p)) p).
Proof. reflexivity. Qed.

Lemma loaded_store p p' k d : same_store p p' -> loaded p k d -> loaded p' k d.
Proof. intros [Hq _] (d0&Hd0&Hs). exists d0. split; [|done]. unfold item_at in *. by rewrite Hq. Qed.

Lemma effect_on_store k p p1 p' : same_store p p1 -> effect_on k p1 p' -> effect_on k p p'.
Proof. intros [Hq _] He x Hx. rewrite He by done. unfold item_at. by rewrite Hq. Qed.

(** The items that run are the same ones. *)
Definition keeps_running (p p' : plane) : Prop :=
  forall k, status_at p' k = Some "running" <-> status_at p k = Some "running".

Record calm (p p' : plane) : Prop := {
  ca_advances : advances p p';
  ca_running : keeps_running p p'
}.

Lemma calm_refl p : plane_ok p -> calm p p.
Proof. intros Hp. by constructor; [apply advances_refl|]. Qed.
Lemma calm_trans p1 p2 p3 : calm p1 p2 -> calm p2 p3 -> calm p1 p3.
Proof.
  intros [Ha Hr] [Ha' Hr']. constructor; [by eapply advances_trans|].
  intros k. by rewrite (Hr' k), (Hr k).
Qed.
Lemma calm_ok p p' : calm p p' -> plane_ok p'.
Proof. intros [[]]. done. Qed.
Lemma same_store_calm p p' : plane_ok p -> same_store p p' -> calm p p'.
Proof.
  intros Hp Hs. constructor; [by apply same_store_advances|].
  intros k. by rewrite (same_store_status _ _ _ Hs).
Qed.

Lemma effect_running k p p' s s' :
  effect_on k p p' -> status_at p k = Some s -> status_at p' k = Some s' ->
  s <> "running" -> s' <> "running" -> keeps_running p p'.
Proof.
  intros He Hs Hs' Hn Hn' x. destruct (decide (x = k)) as [->|Hx].
  - rewrite Hs, Hs'. split; intros [=]; congruence.
  - unfold status_at. by rewrite He.
Qed.

Lemma status_test k d s : item_core k d -> eq_str (dget_n "status" d) s = String.eqb (status_str d) s.
Proof.
  intros Hc. destruct (ic_status _ _ Hc) as (st&Hst&_). unfold status_str, dget_n, dget_or. by rewrite Hst.
Qed.

Ltac core :=
  match goal with H : item_core _ _ |- item_core _ _ =>
    destruct H; constructor; fields; eauto end.

Section operations.
Context (o : oracle) (root : string).

(** A queued or orphaned item is cancelled. *)
Lemma cancel_ok p k d t reason :
  plane_ok p -> loaded p k d -> status_str d = "queued" \/ status_str d = "orphaned" ->
  exists p', finish o (cancelled t reason) d p = (Ok tt, p') /\ calm p p' /\ effect_on k p p' /\
    status_at p' k = Some "cancelled".
Proof.
  intros Hp Hl Hs. pose proof (loaded_ok _ _ _ Hp Hl) as [Hc Ha].
  destruct (finish_ok o p k d (cancelled t reason) "cancelled") as (p'&Hrun&Had&He&Hst); try done.
  - by destruct Hs as [-> | ->].
  - unfold cancelled. core.
  - unfold status_str, cancelled. by fields.
  - unfold archived, dget_n, dget_or, cancelled. by fields.
  - destruct Hs as [-> | ->]; by constructor.
  - assert (keeps_running p p').
    { eapply (effect_running k); [done|by apply loaded_status|done| |done]. by destruct Hs as [-> | ->]. }
    exists p'. split; [done|]. split; [by constructor|done].
Qed.

(** Operations that return and leave the queue and the history as they are. *)
Definition looks (m : io unit) (p : plane) : Prop := exists p', m p = (Ok tt, p') /\ same_store p p'.

Lemma mark_run_looks p k d : item_core k d -> looks (mark_run o d) p.
Proof.
  intros Hc. destruct (ic_run_out _ _ Hc) as (s&Hs). unfold mark_run.
  eexists. rewrite (bind_Ok _ _ _ (VStr s) p) by (unfold lift; by rewrite (dindex_Some _ _ _ Hs)).
  rewrite bind_now. split; [reflexivity|done].
Qed.

Lemma kill_orphan_looks p d : looks (kill_orphan o d) p.
Proof.
  unfold kill_orphan, looks. destruct (as_int _) as [pid|]; [|by exists p].
  unfold proc_alive. destruct (pid <=? 0); cbn; [by exists p|].
  unfold mbind, M_bind, observe. cbn. destruct (o_alive o (pl_time p) pid); by eexists.
Qed.

Lemma serve_cancel_ok p k d :
  plane_ok p -> loaded p k d ->
  exists p', serve_cancel o d p = (Ok tt, p') /\ calm p p' /\ effect_on k p p' /\
    exists s, status_at p' k = Some s /\ (s = "running" \/ terminal_str s = true).
Proof.
  intros Hp Hl. pose proof (loaded_ok _ _ _ Hp Hl) as [Hc _]. unfold serve_cancel.
  rewrite !(status_test k) by done.
  destruct (String.eqb_spec (status_str d) "queued") as [Hq|Hq].
  { rewrite bind_now. set (p1 := set_time _ _).
    assert (Hs : same_store p p1) by done.
    destruct (cancel_ok p1 k d (o_now o (pl_time p)) "control-global-cancel") as (p'&Hrun&Hcalm&He&Hst); [by eapply same_store_ok|by eapply loaded_store|auto|].
    exists p'. split; [done|]. split; [|split].
    - eapply calm_trans; [by apply same_store_calm|done].
    - by eapply effect_on_store.
    - eauto. }
  destruct (String.eqb_spec (status_str d) "running") as [Hr|Hr].
  { destruct (mark_run_looks p k d Hc) as (p'&Hrun&Hs). exists p'. split; [done|].
    split; [by apply same_store_calm|]. split; [by eapply effect_on_store|].
    exists "running". rewrite (same_store_status _ _ _ Hs), (loaded_status _ _ _ Hl), Hr. auto. }
  destruct (String.eqb_spec (status_str d) "orphaned") as [Ho|Ho].
  { destruct (kill_orphan_looks p d) as (p1&Hrun1&Hs1). rewrite (bind_Ok _ _ _ _ _ Hrun1), bind_now.
    set (p2 := set_time _ _). assert (Hs2 : same_store p p2) by (eapply same_store_trans; [exact Hs1|done]).
    destruct (cancel_ok p2 k d (o_now o (pl_time p1)) "control-global-orphan-cancel") as (p'&Hrun&Hcalm&He&Hst); [by eapply same_store_ok|by eapply loaded_store|auto|].
    exists p'. split; [done|]. split; [|split].
    - eapply calm_trans; [by apply same_store_calm|done].
    - eapply effect_on_store; done.
    - eauto. }
  exists p. split; [done|]. split; [by apply calm_refl|]. split; [done|].
  exists (status_str d). split; [by apply loaded_status|].
  destruct (ic_status _ _ Hc) as (s&Hs&Hin). assert (status_str d = s) as E by (unfold status_str; by rewrite Hs).
  rewrite E in *. right. apply orb_true_iff in Hin as [|Hin]; [done|].
  unfold live_str in Hin. apply String.eqb_neq in Hq, Hr, Ho. by rewrite Hq, Hr, Ho in Hin.
Qed.

Lemma recover_item_ok p k d :
  plane_ok p -> loaded p k d ->
  exists p', recover_item o d p = (Ok tt, p') /\ advances p p' /\ effect_on k p p' /\
    status_at p' k <> Some "running".
Proof.
  intros Hp Hl. pose proof (loaded_ok _ _ _ Hp Hl) as [Hc Ha]. unfold recover_item.
  rewrite !(status_test k) by done. pose proof (loaded_status _ _ _ Hl) as Hst.
  destruct (String.eqb_spec (status_str d) "running") as [Hr|Hr]; cbn [negb].
  2: { exists p. split; [done|]. split; [by apply advances_refl|]. split; [done|]. congruence. }
  rewrite Hr in *.
  assert (Hput : forall p1 d1, same_store p p1 -> item_core k d1 -> archived d1 = false ->
    (status_str d1 = "queued" \/ status_str d1 = "orphaned") ->
    exists p', save_item d1 p1 = (Ok tt, p') /\ advances p p' /\ effect_on k p p' /\
      status_at p' k <> Some "running").
  { intros p1 d1 Hs Hc1 Ha1 Hst1. exists (put_item p1 k d1).
    split; [by apply save_item_put|]. split; [|split].
    - eapply advances_trans; [by apply same_store_advances|]. apply put_live.
      + by eapply same_store_ok.
      + constructor; [done|]. rewrite Ha1. by destruct Hst1 as [-> | ->].
      + by destruct Hst1 as [-> | ->].
      + rewrite (same_store_status _ _ _ Hs), Hst. apply rtc_once. destruct Hst1 as [-> | ->]; [apply edge_recover|apply edge_orphan].
    - intros x Hx. rewrite item_at_put. destruct (String.eqb_spec x k); [done|].
      destruct Hs as [Hq _]. unfold item_at. by rewrite Hq.
    - rewrite status_at_put, String.eqb_refl. by destruct Hst1 as [-> | ->]. }
  assert (Halive : exists b p1, (match as_int (dget_n "pid" d) with
    | Some pid => proc_alive o (Some pid) | None => mret false end) p = (Ok b, p1) /\ same_store p p1).
  { destruct (as_int _) as [pid|]; [|by exists false, p]. unfold proc_alive.
    destruct (pid <=? 0); [by exists false, p|]. by do 2 eexists. }
  destruct Halive as (b&p1&Hb&Hs1). rewrite (bind_Ok _ _ _ _ _ Hb).
  assert (Har : forall d1, dget "history_written" d1 = dget "history_written" d -> archived d1 = false).
  { intros d1 Hd1. unfold archived, dget_n, dget_or in *. by rewrite Hd1. }
  destruct b; rewrite bind_now; apply (Hput (set_time (S (pl_time p1)) p1)); try exact Hs1.
  - core.
  - apply Har. by fields.
  - right. unfold status_str. by fields.
  - core.
  - apply Har. by fields.
  - left. unfold status_str. by fields.
Qed.

Lemma recover_state_ok p :
  plane_ok p ->
  exists p', recover_state o root p = (Ok tt, p') /\ advances p p' /\ forall k, status_at p' k <> Some "running".
Proof.
  intros Hp. destruct (load_items_spec root p Hp) as (ks&ds&Hld&Hnd&HF&Hall).
  destruct (iter_items advances (fun _ s => s <> Some "running") (recover_item o) advances_refl
    advances_trans ad_ok (fun k d p => recover_item_ok p k d) ks ds p Hp Hnd HF) as (p'&Hrun&Had&Hout&Hin).
  exists p'. unfold recover_state. rewrite (bind_Ok _ _ _ _ _ Hld). repeat split; try done; try apply Had.
  intros k. destruct (decide (k ∈ ks)) as [Hk|Hk]; [by apply Hin|].
  unfold status_at. rewrite Hout by done. intros Hs. apply Hk, (Hall k "running"), Hs.
Qed.

(** *** Commands of other processes *)

(** Whatever the outcome of [m], the control root advances and no item starts or stops running. *)
Definition calm_at {A} (p : plane) (m : io A) : Prop := calm p (snd (m p)).

Lemma quiet_calm {A} p (m : io A) : plane_ok p -> quiet m -> calm_at p m.
Proof. intros Hp Hm. by apply same_store_calm. Qed.

Lemma calm_bind {A B} p (m : io A) (f : A -> io B) :
  calm_at p m -> (forall a p', m p = (Ok a, p') -> plane_ok p' -> calm_at p' (f a)) -> calm_at p (m ≫= f).
Proof.
  unfold calm_at, mbind, M_bind. intros Hm Hf.
  destruct (m p) as [[a|e] p'] eqn:E; [|done].
  eapply calm_trans; [exact Hm|]. eapply Hf; [done|]. by eapply calm_ok.
Qed.

Lemma quiet_bind_calm {A B} p (m : io A) (f : A -> io B) :
  plane_ok p -> quiet m -> (forall a p', m p = (Ok a, p') -> same_store p p' -> plane_ok p' -> calm_at p' (f a)) ->
  calm_at p (m ≫= f).
Proof.
  intros Hp Hm Hf. apply calm_bind; [by apply quiet_calm|]. intros a p' Hr. apply Hf; [done|].
  specialize (Hm p). by rewrite Hr in Hm.
Qed.

Lemma calm_telemetry p active : plane_ok p -> calm_at p (_ ← write_telemetry o root active; mret tt : io unit).
Proof. intros Hp. apply quiet_calm; [done|]. quiet. Qed.

Lemma iter_calm p (f : item -> io unit) :
  (forall k d p, plane_ok p -> loaded p k d ->
     exists p', f d p = (Ok tt, p') /\ calm p p' /\ effect_on k p p') ->
  plane_ok p -> calm_at p (items ← load_items root; m_iter f items).
Proof.
  intros Hf Hp. destruct (load_items_spec root p Hp) as (ks&ds&Hld&Hnd&HF&_).
  destruct (iter_items calm (fun _ _ => True) f calm_refl calm_trans calm_ok
    ltac:(intros; edestruct Hf as (?&?&?&?); eauto 10) ks ds p Hp Hnd HF) as (p'&Hrun&Hc&_).
  unfold calm_at. rewrite (bind_Ok _ _ _ _ _ Hld), Hrun. exact Hc.
Qed.

Lemma bind_assoc {A B C} (m : io A) (f : A -> io B) (g : B -> io C) p :
  ((m ≫= f) ≫= g) p = (m ≫= fun a => f a ≫= g) p.
Proof. unfold mbind, M_bind. by destruct (m p) as [[a|e] p']. Qed.

Definition cancel_all_item (d : item) : io unit :=
  if eq_str (dget_n "status" d) "queued" then
    t ← now o; finish o (cancelled t "control-global-cancel") d
  else if eq_str (dget_n "status" d) "running" then mark_run o d
  else mret tt.

Lemma cancel_all_item_ok k d p :
  plane_ok p -> loaded p k d ->
  exists p', cancel_all_item d p = (Ok tt, p') /\ calm p p' /\ effect_on k p p'.
Proof.
  intros Hp Hl. pose proof (loaded_ok _ _ _ Hp Hl) as [Hc _]. unfold cancel_all_item.
  rewrite !(status_test k) by done.
  destruct (String.eqb_spec (status_str d) "queued") as [Hq|Hq].
  { rewrite bind_now. set (p1 := set_time _ _). assert (Hs : same_store p p1) by done.
    destruct (cancel_ok p1 k d (o_now o (pl_time p)) "control-global-cancel") as (p'&?&?&?&_);
      [by eapply same_store_ok|by eapply loaded_store|auto|].
    exists p'. split; [done|]. split; [|by eapply effect_on_store].
    eapply calm_trans; [by apply same_store_calm|done]. }
  destruct (String.eqb_spec (status_str d) "running") as [Hr|Hr].
  { destruct (mark_run_looks p k d Hc) as (p'&?&Hs). exists p'. split; [done|].
    split; [by apply same_store_calm|by eapply effect_on_store]. }
  exists p. split; [done|]. split; [by apply calm_refl|done].
Qed.

Lemma command_cancel_all_calm p : plane_ok p -> calm_at p (command_cancel_all o root).
Proof.
  intros Hp. unfold command_cancel_all.
  apply quiet_bind_calm; [done|quiet|intros _ p1 _ _ Hp1].
  apply quiet_bind_calm; [done|quiet|intros _ p2 _ _ Hp2].
  apply quiet_bind_calm; [done|quiet|intros _ p3 _ _ Hp3].
  unfold calm_at. rewrite <- bind_assoc. apply calm_bind; [|intros; by apply calm_telemetry].
  apply (iter_calm p3 cancel_all_item); [apply cancel_all_item_ok|done].
Qed.

(** Rewriting an item without changing its status. *)
Lemma save_same_calm p k d d1 :
  plane_ok p -> loaded p k d -> item_core k d1 -> status_str d1 = status_str d -> archived d1 = archived d ->
  terminal_str (status_str d) = false -> calm_at p (save_item d1).
Proof.
  intros Hp Hl Hc Hst Ha Hlive. unfold calm_at. rewrite (save_item_put p k) by done. cbn [snd].
  pose proof (loaded_status _ _ _ Hl) as Hs. pose proof (loaded_ok _ _ _ Hp Hl) as [_ Hio].
  constructor.
  - apply put_live; rewrite ?Hst, ?Hs; try done. constructor; [done|]. by rewrite Ha, Hst.
  - intros x. rewrite status_at_put. destruct (String.eqb_spec x k) as [->|]; [|done]. by rewrite Hst, Hs.
Qed.

Lemma read_item_loaded p p' k d :
  read_item k p = (Ok (VDict d), p') -> loaded p k d /\ p' = p.
Proof.
  unfold read_item, mbind, M_bind, gets. destruct (dget k (pl_queue p)) as [r|] eqn:E; [|done].
  unfold lift. intros [= -> ->]. split; [|done]. exists d. split; [|done]. unfold item_at. by rewrite E.
Qed.

Lemma command_cancel_calm p ns_id : plane_ok p -> calm_at p (command_cancel o root ns_id).
Proof.
  intros Hp. unfold command_cancel.
  apply quiet_bind_calm; [done|quiet|intros _ p1 _ _ Hp1].
  apply quiet_bind_calm; [done|quiet|intros _ p2 _ _ Hp2].
  apply quiet_bind_calm; [done|quiet|intros k p3 _ _ Hp3].
  apply quiet_bind_calm; [done|quiet|intros q p4 _ _ Hp4].
  apply quiet_bind_calm; [done|quiet|intros _ p5 _ _ Hp5].
  apply quiet_bind_calm; [done|unfold read_item; quiet|intros doc p6 Hread Hs6 Hp6].
  destruct doc as [| | | | | |d]; try (by apply calm_refl).
  apply read_item_loaded in Hread as [Hl ->]. clear Hs6. rename p5 into p0.
  change (lift (vitems (VDict d)) ≫= ?f) with (lift (Ok d) ≫= f).
  apply quiet_bind_calm; [done|quiet|intros d1 p7 [= <- <-] _ _].
  pose proof (loaded_ok _ _ _ Hp6 Hl) as [Hc _].
  apply calm_bind; [|intros; by apply calm_telemetry].
  cbv zeta. rewrite !(status_test k) by done.
  destruct (String.eqb_spec (status_str d) "queued") as [Hq|Hq].
  { apply quiet_bind_calm; [done|quiet|intros t p7 _ Hs7 Hp7].
    destruct (cancel_ok p7 k d t "control-cancel-before-start") as (p'&Hrun&Hcalm&_);
      [done|by eapply loaded_store|auto|]. unfold calm_at. by rewrite Hrun. }
  destruct (String.eqb_spec (status_str d) "running") as [Hr|Hr].
  { apply quiet_bind_calm; [done|quiet|intros [] p7 _ Hs7 Hp7].
    apply quiet_bind_calm; [done|quiet|intros t p8 _ Hs8 Hp8].
    apply (save_same_calm p8 k d); [done|by do 2 (eapply loaded_store; [done|])|by core| | |by rewrite Hr].
    - unfold status_str. by fields.
    - unfold archived, dget_n, dget_or. by fields. }
  destruct (String.eqb_spec (status_str d) "orphaned") as [Ho|Ho]; [|by apply calm_refl].
  apply quiet_bind_calm; [done|quiet|intros [] p7 _ Hs7 Hp7].
  apply quiet_bind_calm; [done|quiet|intros t p8 _ Hs8 Hp8].
  destruct (cancel_ok p8 k d t "control-orphan-cancel") as (p'&Hrun&Hcalm&_);
    [done|by do 2 (eapply loaded_store; [done|])|auto|]. unfold calm_at. by rewrite Hrun.
Qed.

Lemma validate_id_Ok v label k : validate_id v label = Ok k -> k = v /\ validate_id k "id" = Ok k.
Proof. unfold validate_id. case_bool; [done|]. intros [= <-]. by rewrite Heqb. Qed.

Lemma command_submit_calm p ns_id priority manifest doc :
  plane_ok p -> calm_at p (command_submit o root ns_id priority manifest doc).
Proof.
  intros Hp. unfold command_submit.
  apply quiet_bind_calm; [done|quiet|intros _ p1 _ _ Hp1].
  apply quiet_bind_calm; [done|quiet|intros d p2 _ _ Hp2].
  apply quiet_bind_calm; [done|quiet|intros _ p3 _ _ Hp3].
  apply quiet_bind_calm; [done|quiet|intros c p4 _ _ Hp4].
  apply quiet_bind_calm; [done|quiet|intros state p5 _ _ Hp5].
  apply quiet_bind_calm; [done|quiet|intros rseq p6 _ _ Hp6].
  apply quiet_bind_calm; [done|quiet|intros seq p7 _ _ Hp7].
  apply quiet_bind_calm; [done|quiet|intros k p8 [= Hk _] _ Hp8].
  apply validate_id_Ok in Hk as [_ Hk].
  apply quiet_bind_calm; [done|quiet|intros q p9 [= <- <-] _ Hp9].
  apply quiet_bind_calm; [done|quiet|intros [] p10 [= Hnew <-] _ Hp10].
  apply guard_app_Ok, negb_true_iff in Hnew.
  apply quiet_bind_calm; [done|quiet|intros rhash p11 _ Hs11 Hp11].
  apply quiet_bind_calm; [done|quiet|intros hash p12 _ Hs12 Hp12].
  apply quiet_bind_calm; [done|quiet|intros t p13 _ Hs13 Hp13].
  assert (Hs : same_store p8 p13) by (do 2 (eapply same_store_trans; [done|]); done).
  assert (Hnone : status_at p13 k = None).
  { rewrite (same_store_status _ _ _ Hs). unfold status_at, item_at, dmem in *. by destruct (dget k _). }
  set (d1 := [_; _; _; _; _; _; _; _; _; _]).
  assert (Hc : item_core k d1) by (constructor; cbn; eauto; eexists; split; reflexivity).
  apply calm_bind.
  - unfold calm_at. rewrite (save_item_put p13 k) by done. cbn [snd]. constructor.
    + apply put_live; [done|by constructor|done|]. rewrite Hnone. apply rtc_once. constructor.
    + intros x. rewrite status_at_put. destruct (String.eqb_spec x k) as [->|]; [|done]. by rewrite Hnone.
  - intros [] p14 _ Hp14. apply quiet_bind_calm; [done|quiet|intros; by apply calm_telemetry].
Qed.

(** *** Selection *)

Definition queue_rank (d : item) : Z * Z * string :=
  match queue_key d with Ok k => k | Raise _ => (0, 0, "") end.

Lemma queue_key_Ok k d : item_core k d -> queue_key d = Ok (queue_rank d).
Proof.
  intros []. destruct ic_seq0 as (?&Hs), ic_priority0 as (?&Hp). unfold queue_rank, queue_key, dget_or.
  rewrite Hs, Hp. cbn. by rewrite (dindex_Some _ _ _ ic_id0).
Qed.

(** The item [choose_queued] returns, if any. *)
Definition chosen (p : plane) (od : option item) : Prop :=
  match od with
  | None => forall k, status_at p k <> Some "queued"
  | Some d => exists k, loaded p k d /\ status_str d = "queued" /\
      forall k' d', loaded p k' d' -> status_str d' = "queued" -> py_le (queue_rank d) (queue_rank d') = true
  end.

Lemma queue_rank_loaded p k d d' : loaded p k d -> loaded p k d' -> plane_ok p -> queue_rank d = queue_rank d'.
Proof.
  intros (d0&Hd0&Hs) (d1&Hd1&Hs') Hp. rewrite Hd0 in Hd1. injection Hd1 as <-.
  unfold queue_rank, queue_key, dget_or, dindex. rewrite !Hs, !Hs' by reflexivity. done.
Qed.

Lemma choose_queued_spec p : plane_ok p -> exists od, choose_queued root p = (Ok od, p) /\ chosen p od.
Proof.
  intros Hp. destruct (load_items_spec root p Hp) as (ks&ds&Hld&Hnd&HF&Hall).
  unfold choose_queued. rewrite (bind_Ok _ _ _ _ _ Hld). cbv beta zeta.
  match goal with |- context [List.filter ?f ds] => set (queued := List.filter f ds) end.
  assert (Hds : forall d, d ∈ ds -> exists k, loaded p k d).
  { intros d Hd. apply list_elem_of_lookup in Hd as (i&Hi).
    destruct (Forall2_lookup_r _ _ _ _ _ HF Hi) as (k&_&Hk). by exists k. }
  assert (Hq : forall d, d ∈ queued <-> d ∈ ds /\ status_str d = "queued").
  { intros d. unfold queued. rewrite list_elem_of_In, List.filter_In, <- list_elem_of_In.
    split; intros [Hd Ht]; (split; [done|]); destruct (Hds d Hd) as (k&Hk);
      pose proof (loaded_ok _ _ _ Hp Hk) as [Hc _].
    - rewrite (status_test k) in Ht by done. by apply String.eqb_eq.
    - rewrite (status_test k) by done. by apply String.eqb_eq. }
  destruct (res_map_Forall2 (fun d kd => kd = (queue_rank d, d))
    (fun d => k ← queue_key d; Ok (k, d)) queued) as (kds&Hkds&HFk).
  { intros d [Hd _]%Hq. destruct (Hds d Hd) as (k&Hk). pose proof (loaded_ok _ _ _ Hp Hk) as [Hc _].
    rewrite (queue_key_Ok k) by done. eexists. split; [reflexivity|done]. }
  assert (E : kds = (fun d => (queue_rank d, d)) <$> queued).
  { clear -HFk. induction HFk as [|d kd l kl -> HF IH]; [done|]. by rewrite IH. }
  subst kds. rewrite (bind_Ok _ _ _ ((fun d => (queue_rank d, d)) <$> queued) p)
    by (unfold lift; by rewrite Hkds).
  eexists. split; [reflexivity|].
  destruct (py_min fst ((fun d => (queue_rank d, d)) <$> queued)) as [[r d]|] eqn:Hmin; cbn.
  - apply py_min_in in Hmin as Hin. apply list_elem_of_fmap in Hin as (d'&[= -> ->]&Hd').
    pose proof (proj1 (Hq d') Hd') as [Hd Hst]. destruct (Hds d' Hd) as (k&Hk). exists k. split; [done|].
    split; [done|]. intros k' d2 Hl Hst2.
    assert (Hk' : k' ∈ ks) by (eapply Hall; by apply loaded_status).
    apply list_elem_of_lookup in Hk' as (i&Hi).
    destruct (Forall2_lookup_l _ _ _ _ _ HF Hi) as (d3&Hi3&Hl3).
    rewrite (queue_rank_loaded p k' d2 d3) by done.
    refine (py_min_le fst _ _ _ Hmin (queue_rank d3, d3) _); [done|].
    apply list_elem_of_fmap. exists d3. split; [done|]. apply Hq.
    split; [by eapply list_elem_of_lookup_2|]. apply loaded_status in Hl, Hl3. congruence.
  - apply py_min_none, fmap_nil_inv in Hmin. intros k Hk.
    pose proof (Hall _ _ Hk) as Hin. apply list_elem_of_lookup in Hin as (i&Hi).
    destruct (Forall2_lookup_l _ _ _ _ _ HF Hi) as (d&Hi'&Hl).
    assert (Hd : d ∈ queued).
    { apply Hq. split; [by eapply list_elem_of_lookup_2|]. apply loaded_status in Hl. congruence. }
    rewrite Hmin in Hd. by apply not_elem_of_nil in Hd.
Qed.
End operations.

(** ** The server *)

(** The processes of the server are the items recorded as running. *)
Record srv_ok (active : dict Z) (p : plane) : Prop := {
  sv_wf : dwf active;
  sv_running : forall k, k ∈ dkeys active <-> status_at p k = Some "running"
}.

Lemma srv_ok_keeps active p p' : srv_ok active p -> keeps_running p p' -> srv_ok active p'.
Proof. intros [Hwf Hr] Hk. constructor; [done|]. intros k. rewrite (Hk k). apply Hr. Qed.

Definition queued_count (p : plane) : nat := dcount is_queued (pl_queue p).

Lemma is_queued_spec p k r : plane_ok p -> dget k (pl_queue p) = Some r ->
  is_queued r = true <-> status_at p k = Some "queued".
Proof.
  intros Hp Hr. destruct (po_items _ Hp _ _ Hr) as (d&->&[Hc _]). cbn.
  rewrite (status_test k) by done. rewrite String.eqb_eq. unfold status_at, item_at. rewrite Hr. cbn.
  split; [by intros ->|by intros [= ->]].
Qed.

Definition queued_keys (p : plane) : list string := dselect is_queued (pl_queue p).

Lemma elem_of_queued_keys p k : plane_ok p -> k ∈ queued_keys p <-> status_at p k = Some "queued".
Proof.
  intros Hp. unfold queued_keys. rewrite elem_of_dselect by apply Hp. split.
  - intros (r&Hr&Hq). by apply (is_queued_spec p k r).
  - intros Hs. pose proof Hs as Hs'. unfold status_at, item_at in Hs'.
    destruct (dget k (pl_queue p)) as [r|] eqn:E; [|done]. exists r. split; [done|].
    by apply (is_queued_spec p k r).
Qed.

(** The queue is shorter when an item leaves it and no item enters. *)
Lemma queued_count_lt p p' k :
  plane_ok p -> plane_ok p' -> effect_on k p p' -> status_at p k = Some "queued" ->
  status_at p' k <> Some "queued" -> (queued_count p' < queued_count p)%nat.
Proof.
  intros Hp Hp' He Hk Hk'. unfold queued_count. rewrite <- !length_dselect.
  apply (NoDup_length_lt _ _ k); [apply NoDup_dselect, Hp'| | |].
  - intros x. change (x ∈ queued_keys p' -> x ∈ queued_keys p). rewrite !elem_of_queued_keys by done.
    intros Hx. destruct (decide (x = k)) as [->|Hne]; [done|]. unfold status_at in *. by rewrite <- He.
  - by apply elem_of_queued_keys.
  - by rewrite (elem_of_queued_keys p' k).
Qed.

(** What a computation of the server guarantees: however it ends the control root advances, and when
    it returns the result satisfies [Q]. *)
Definition serves {A} (p : plane) (m : io A) (Q : A -> plane -> Prop) : Prop :=
  advances p (snd (m p)) /\ match m p with (Ok a, p') => Q a p' | _ => True end.

Lemma serves_bind {A B} p (m : io A) (f : A -> io B) (R : A -> plane -> Prop) Q :
  serves p m R -> (forall a p', R a p' -> plane_ok p' -> serves p' (f a) Q) -> serves p (m ≫= f) Q.
Proof.
  unfold serves, mbind, M_bind. intros [Ha HR] Hf. destruct (m p) as [[a|e] p']; [|by split].
  destruct (Hf a p' HR (ad_ok _ _ Ha)) as [Ha' HQ]. split; [by eapply advances_trans|done].
Qed.

Lemma serves_quiet {A} p (m : io A) :
  plane_ok p -> quiet m -> serves p m (fun a p' => m p = (Ok a, p') /\ same_store p p').
Proof.
  intros Hp Hm. specialize (Hm p). split; [by apply same_store_advances|]. by destruct (m p) as [[a|e] p'].
Qed.

Lemma serves_quiet_bind {A B} p (m : io A) (f : A -> io B) Q :
  plane_ok p -> quiet m ->
  (forall a p', m p = (Ok a, p') -> same_store p p' -> plane_ok p' -> serves p' (f a) Q) ->
  serves p (m ≫= f) Q.
Proof.
  intros Hp Hm Hf. eapply serves_bind; [by apply serves_quiet|]. intros a p' [Hr Hs]. by apply Hf.
Qed.

Lemma serves_ret {A} p (a : A) (Q : A -> plane -> Prop) : plane_ok p -> Q a p -> serves p (mret a) Q.
Proof. intros Hp HQ. split; [by apply advances_refl|done]. Qed.

Lemma serves_run {A} p (m : io A) (a : A) p' (Q : A -> plane -> Prop) :
  m p = (Ok a, p') -> advances p p' -> Q a p' -> serves p m Q.
Proof. unfold serves. intros -> Ha HQ. by split. Qed.

Lemma serves_mono {A} p (m : io A) (Q Q' : A -> plane -> Prop) :
  serves p m Q -> (forall a p', Q a p' -> Q' a p') -> serves p m Q'.
Proof. intros [Ha HQ] H. split; [done|]. destruct (m p) as [[a|e] p']; auto. Qed.

Section server.
Context (o : oracle) (root : string).

Lemma running_item p active k :
  plane_ok p -> srv_ok active p -> k ∈ dkeys active ->
  exists d, dget k (pl_queue p) = Some (Ok (VDict d)) /\ item_ok k d /\ status_str d = "running".
Proof.
  intros Hp Hs Hk. apply (sv_running _ _ Hs) in Hk. unfold status_at, item_at in Hk.
  destruct (dget k (pl_queue p)) as [r|] eqn:E; [|done].
  destruct (po_items _ Hp _ _ E) as (d&->&Hd). exists d. split; [done|]. split; [done|]. by injection Hk.
Qed.

Lemma srv_ok_del active p p' k s :
  srv_ok active p -> effect_on k p p' -> status_at p' k = Some s -> s <> "running" ->
  srv_ok (ddel k active) p'.
Proof.
  intros [Hwf Hr] He Hs Hn. constructor; [by apply dwf_ddel|]. intros x.
  rewrite elem_of_dkeys_ddel by done. destruct (decide (x = k)) as [->|Hx].
  - rewrite Hs. naive_solver.
  - unfold status_at. rewrite He by done. rewrite Hr. tauto.
Qed.

(** No item enters the queue. *)
Definition no_new_queued (p p' : plane) : Prop :=
  forall k, status_at p' k = Some "queued" -> status_at p k = Some "queued".

Lemma no_new_queued_store p p1 p' : same_store p p1 -> no_new_queued p1 p' -> no_new_queued p p'.
Proof. intros Hs Hn k Hk. rewrite <- (same_store_status _ _ _ Hs). auto. Qed.

(** The effect of [save_item] and [archive_terminal] when a process ends. *)
Lemma finish_running p active k d s fields :
  plane_ok p -> srv_ok active p -> item_ok k d -> status_at p k = Some "running" ->
  status_str d = "running" -> terminal_str s = true ->
  let d1 := ddel "pid" (update (("status", VStr s) :: fields) d) in
  (forall kv, kv ∈ fields -> fst kv = "returncode" \/ fst kv = "finished_unix") ->
  serves p (_ ← save_item d1; _ ← archive_terminal o d1; mret (ddel k active))
    (fun a' p' => srv_ok a' p' /\ a' = ddel k active /\ no_new_queued p p').
Proof.
  intros Hp Hs Hd Hst Hrun Hterm d1 Hf.
  assert (Hget : forall key, key <> "status" -> key <> "returncode" -> key <> "finished_unix" ->
    key <> "pid" -> dget key d1 = dget key d).
  { intros key H1 H2 H3 H4. unfold d1. rewrite dget_ddel_ne by done. unfold update. cbn [fold_left fst snd].
    rewrite <- (dget_dset_ne key "status" (VStr s) d) by done. generalize (dset "status" (VStr s) d).
    clear -Hf H2 H3. induction fields as [|[x v] fields IH]; intros e; [done|]. cbn [fold_left fst snd].
    rewrite IH; [|intros; apply Hf; by right]. apply dget_dset_ne. destruct (Hf (x, v)) as [E|E]; [by left|..];
      cbn in E; congruence. }
  assert (Hst1 : dget "status" d1 = Some (VStr s)).
  { unfold d1. rewrite dget_ddel_ne by done. unfold update. cbn [fold_left fst snd].
    assert (H0 : dget "status" (dset "status" (VStr s) d) = Some (VStr s)) by apply dget_dset_eq.
    revert H0. generalize (dset "status" (VStr s) d).
    clear -Hf. induction fields as [|[x v] fields IH]; intros e He; [done|]. cbn [fold_left fst snd].
    apply IH; [intros; apply Hf; by right|]. rewrite dget_dset_ne; [done|].
    destruct (Hf (x, v)) as [E|E]; [by left|..]; cbn in E; congruence. }
  destruct Hd as [Hc Ha].
  assert (Hc1 : item_core k d1).
  { destruct Hc. constructor; rewrite ?Hget by done; try done. exists s. by rewrite Hst1, Hterm. }
  assert (Hs1 : status_str d1 = s) by (unfold status_str; by rewrite Hst1).
  destruct (archive_ok o p k d1 "running") as (p'&Hr&Had&He&Hs'); try done.
  - by rewrite Hs1.
  - unfold archived, dget_n, dget_or in *. rewrite Hget by done. by rewrite Ha, Hrun.
  - rewrite Hs1. by constructor.
  - eapply (serves_run _ _ (ddel k active) p'); [|done|].
    + rewrite <- bind_assoc. by rewrite (bind_Ok _ _ _ _ _ Hr).
    + split; [eapply srv_ok_del; [done..|]; intros E; rewrite Hs1 in E; by rewrite E in Hterm|].
      split; [done|]. intros x Hx. destruct (decide (x = k)) as [->|Hne].
      * rewrite Hs', Hs1 in Hx. injection Hx as ->. discriminate Hterm.
      * unfold status_at in *. by rewrite <- He.
Qed.

Lemma serve_poll_ok p gc active k pid :
  plane_ok p -> srv_ok active p -> k ∈ dkeys active ->
  serves p (serve_poll o gc active (k, pid))
    (fun a' p' => srv_ok a' p' /\ (a' = active \/ a' = ddel k active) /\ no_new_queued p p').
Proof.
  intros Hp Hs Hk. unfold serve_poll.
  apply serves_quiet_bind; [done|quiet|intros rc p1 _ Hs1 Hp1].
  assert (Hsrv1 : srv_ok active p1).
  { eapply srv_ok_keeps; [done|]. intros x. by rewrite (same_store_status _ _ _ Hs1). }
  destruct rc as [rc|].
  2: { apply serves_ret; [done|]. split; [done|]. split; [auto|].
       intros x. by rewrite (same_store_status _ _ _ Hs1). }
  destruct (running_item p1 active k Hp1 Hsrv1 Hk) as (d&Hd&Hok&Hst).
  destruct (ic_run_out _ _ (io_core _ _ Hok)) as (ro&Hro).
  rewrite (ic_name _ _ (io_core _ _ Hok)).
  apply serves_quiet_bind; [done|quiet|intros k' p2 [= <- <-] _ _].
  apply serves_quiet_bind; [done|unfold read_item; quiet|intros doc p2 Hread _ _].
  assert (doc = VDict d /\ p2 = p1) as [-> ->].
  { revert Hread. unfold read_item, mbind, M_bind, gets. rewrite Hd. unfold lift. by intros [=]. }
  apply serves_quiet_bind; [done|quiet|intros run_out p2 [= _ <-] _ _].
  apply serves_quiet_bind; [done|quiet|intros d' p2 [= <- <-] _ _].
  apply serves_quiet_bind; [done|quiet|intros summary p2 _ Hs2 Hp2].
  cbv zeta. apply serves_quiet_bind; [done|quiet|intros status p3 [= Hstatus <-] _ _].
  apply serves_quiet_bind; [done|quiet|intros t p3 _ Hs3 Hp3].
  assert (Hss : same_store p1 p3) by (eapply same_store_trans; done).
  eapply serves_mono.
  - apply (finish_running p3 active k d status [("returncode", VInt rc); ("finished_unix", VFloat t)]).
    + done.
    + eapply srv_ok_keeps; [exact Hsrv1|]. intros x. by rewrite (same_store_status _ _ _ Hss).
    + done.
    + rewrite (same_store_status _ _ _ Hss). unfold status_at, item_at. by rewrite Hd, <- Hst.
    + done.
    + revert Hstatus. case_bool; [by intros [= <-]|]. case_bool; [|by intros [= <-]].
      intros Hx. apply res_bind_Ok in Hx as (b&_&[= <-]). by destruct b.
    + intros kv. rewrite !elem_of_cons. intros [->|[->|Hnil]]; [by left|by right|by apply not_elem_of_nil in Hnil].
  - intros a' p' (?&->&Hn). split; [done|]. split; [auto|].
    eapply no_new_queued_store; [|exact Hn]. by eapply same_store_trans.
Qed.

Lemma poll_all_ok gc (l : list (string * Z)) p active :
  plane_ok p -> srv_ok active p -> NoDup l.*1 -> (forall k, k ∈ l.*1 -> k ∈ dkeys active) ->
  serves p (m_fold (serve_poll o gc) active l)
    (fun a' p' => srv_ok a' p' /\ (length a' <= length active)%nat /\ no_new_queued p p').
Proof.
  revert p active. induction l as [|[k pid] l IH]; intros p active Hp Hs Hnd Hin; cbn [m_fold].
  { apply serves_ret; [done|]. split; [done|]. split; [lia|]. by intros x. }
  cbn in Hnd. apply NoDup_cons in Hnd as [Hk Hnd].
  eapply serves_bind; [apply serve_poll_ok; [done..|apply Hin; by left]|].
  intros a1 p1 (Hs1&Ha1&Hn1) Hp1. eapply serves_mono.
  - apply IH; [done..|]. intros x Hx. assert (x ∈ dkeys active) by (apply Hin; by right).
    destruct Ha1 as [-> | ->]; [done|]. apply elem_of_dkeys_ddel; [apply Hs|].
    split; [by intros ->|done].
  - intros a' p' (Hs'&Hl&Hn). split; [done|]. split; [|intros x Hx; by apply Hn1, Hn].
    etrans; [exact Hl|].
    destruct Ha1 as [-> | ->]; [done|].
    assert (Hk' : k ∈ dkeys active) by (apply Hin; by left).
    apply length_ddel in Hk'. lia.
Qed.

Lemma srv_ok_same_store active p p' : srv_ok active p -> same_store p p' -> srv_ok active p'.
Proof.
  intros Hs Hss. eapply srv_ok_keeps; [done|]. intros x. by rewrite (same_store_status _ _ _ Hss).
Qed.

(** An item that cannot be started fails. *)
Lemma launch_fails p active k d t fields :
  plane_ok p -> srv_ok active p -> loaded p k d -> status_str d = "queued" ->
  (forall kv, kv ∈ fields -> fst kv = "failure_reason" \/ fst kv = "observed_manifest_sha256") ->
  serves p (_ ← finish o (("status", VStr "failed") :: ("finished_unix", VFloat t) :: fields) d; mret active)
    (fun a' p' => srv_ok a' p' /\ a' = active /\ effect_on k p p' /\ status_at p' k <> Some "queued").
Proof.
  intros Hp Hs Hl Hq Hf. pose proof (loaded_ok _ _ _ Hp Hl) as [Hc Ha].
  set (d1 := update (("status", VStr "failed") :: ("finished_unix", VFloat t) :: fields) d).
  assert (Hget : forall key, key <> "failure_reason" -> key <> "observed_manifest_sha256" ->
    dget key d1 = dget key (dset "finished_unix" (VFloat t) (dset "status" (VStr "failed") d))).
  { intros key H1 H2. unfold d1, update. cbn [fold_left fst snd].
    generalize (dset "finished_unix" (VFloat t) (dset "status" (VStr "failed") d)).
    clear -Hf H1 H2. induction fields as [|[x v] fields IH]; intros e; [done|]. cbn [fold_left fst snd].
    rewrite IH; [|intros; apply Hf; by right]. apply dget_dset_ne. destruct (Hf (x, v)) as [E|E]; [by left|..];
      cbn in E; congruence. }
  assert (Hc1 : item_core k d1).
  { destruct Hc. constructor; rewrite ?Hget by done; fields; try done. eexists. split; [reflexivity|done]. }
  assert (Hs1 : status_str d1 = "failed") by (unfold status_str; rewrite Hget by done; by fields).
  destruct (finish_ok o p k d (("status", VStr "failed") :: ("finished_unix", VFloat t) :: fields) "failed")
    as (p'&Hr&Had&He&Hst); try done.
  - by rewrite Hq.
  - fold d1. unfold archived, dget_n, dget_or. rewrite Hget by done. by fields.
  - rewrite Hq. by constructor.
  - eapply (serves_run _ _ active p'); [by rewrite (bind_Ok _ _ _ _ _ Hr)|done|].
    split; [|split; [done|split; [done|by rewrite Hst]]].
    eapply srv_ok_keeps; [done|].
    eapply (effect_running k); [done|by apply loaded_status|done|by rewrite Hq|done].
Qed.

Lemma serve_launch_ok p active k d exe sched :
  plane_ok p -> srv_ok active p -> loaded p k d -> status_str d = "queued" ->
  serves p (serve_launch o exe sched active d)
    (fun a' p' => srv_ok a' p' /\ (length a' <= S (length active))%nat /\
       (queued_count p' < queued_count p)%nat).
Proof.
  intros Hp Hs Hl Hq. pose proof (loaded_ok _ _ _ Hp Hl) as [Hc Ha]. pose proof (loaded_status _ _ _ Hl) as Hst.
  assert (Hfail : forall p1 t fields, same_store p p1 ->
    (forall kv, kv ∈ fields -> fst kv = "failure_reason" \/ fst kv = "observed_manifest_sha256") ->
    serves p1 (_ ← finish o (("status", VStr "failed") :: ("finished_unix", VFloat t) :: fields) d; mret active)
      (fun a' p' => srv_ok a' p' /\ (length a' <= S (length active))%nat /\
         (queued_count p' < queued_count p)%nat)).
  { intros p1 t fields Hss Hf. assert (Hp1 : plane_ok p1) by (by eapply same_store_ok).
    pose proof (launch_fails p1 active k d t fields Hp1 (srv_ok_same_store _ _ _ Hs Hss)
                  (loaded_store _ _ _ _ Hss Hl) Hq Hf) as [Had HQ].
    split; [exact Had|]. destruct ((_ ← finish o _ d; mret active) p1) as [[a'|e] p'] eqn:E; [|done].
    destruct HQ as (Hs'&->&He&Hn). cbn [snd] in Had.
    split; [done|]. split; [lia|].
    apply (queued_count_lt p p' k); [done|apply Had|by eapply effect_on_store| |done].
    by rewrite Hst, Hq. }
  destruct (ic_manifest _ _ Hc) as (m&Hm), (ic_run_out _ _ Hc) as (ro&Hro), (ic_attempts _ _ Hc) as (n&Hn).
  unfold serve_launch. rewrite (dindex_Some _ _ _ Hm).
  apply serves_quiet_bind; [done|quiet|intros x p1 [= <- <-] _ _].
  apply serves_quiet_bind; [done|quiet|intros hash p1 _ Hs1 Hp1].
  destruct hash as [h|e].
  2: { destruct (handled _ e); [|split; [by apply advances_refl|done]].
       apply serves_quiet_bind; [done|quiet|intros t p2 _ Hs2 Hp2].
       apply Hfail; [by eapply same_store_trans|].
       intros kv ->%list_elem_of_singleton. by left. }
  destruct (negb _).
  { apply serves_quiet_bind; [done|quiet|intros t p2 _ Hs2 Hp2].
    apply Hfail; [by eapply same_store_trans|].
    intros kv. rewrite !elem_of_cons. intros [->|[->|Hnil]]; [by left|by right|by apply not_elem_of_nil in Hnil]. }
  rewrite (dindex_Some _ _ _ Hro).
  apply serves_quiet_bind; [done|quiet|intros x p2 [= <- <-] _ _].
  apply serves_quiet_bind; [done|quiet|intros state p2 _ Hs2 Hp2]. cbv zeta.
  rewrite (dindex_Some _ _ _ (ic_id _ _ Hc)).
  apply serves_quiet_bind; [done|quiet|intros rid p3 [= <- <-] _ _].
  apply serves_quiet_bind; [done|quiet|intros [] p3 [= <-] _ _].
  apply serves_quiet_bind; [done|quiet|intros proc p3 _ Hs3 Hp3].
  apply serves_quiet_bind; [done|quiet|intros pid p4 [= _ <-] _ _].
  apply serves_quiet_bind; [done|quiet|intros t p4 _ Hs4 Hp4].
  apply serves_quiet_bind; [done|quiet|intros attempts p5 [= _ <-] _ _].
  set (d1 := update _ d).
  assert (Hss : same_store p p4) by (do 3 (eapply same_store_trans; [done|]); done).
  assert (Hc1 : item_core k d1) by (unfold d1; core).
  assert (Hs1' : status_str d1 = "running") by (unfold status_str, d1; by fields).
  eapply (serves_run _ _ (dset k pid active) (put_item p4 k d1)).
  - rewrite (bind_Ok _ _ _ tt (put_item p4 k d1)) by (by apply save_item_put). reflexivity.
  - apply put_live; [done| |by rewrite Hs1'|].
    + constructor; [done|]. rewrite Hs1'. unfold archived, dget_n, dget_or, d1 in *. fields.
      by rewrite Ha, Hq.
    + rewrite (same_store_status _ _ _ Hss), Hst, Hq, Hs1'. apply rtc_once. constructor.
  - assert (He : effect_on k p (put_item p4 k d1)).
    { intros x Hx. rewrite item_at_put. destruct (String.eqb_spec x k); [done|].
      destruct Hss as [Hqq _]. unfold item_at. by rewrite Hqq. }
    assert (Hnew : status_at (put_item p4 k d1) k = Some "running") by (by rewrite status_at_put, String.eqb_refl, Hs1').
    split; [|split].
    + destruct Hs as [Hwf Hr]. constructor; [by apply dwf_dset|]. intros x. rewrite elem_of_dkeys_dset.
      destruct (decide (x = k)) as [->|Hx]; [naive_solver|].
      unfold status_at in *. rewrite He by done. rewrite Hr. naive_solver.
    + destruct (dget k active) eqn:E.
      * exfalso. apply dget_some_key, (sv_running _ _ Hs) in E. rewrite Hst, Hq in E. done.
      * apply dget_none in E. rewrite dkeys_dset_notin by done. rewrite length_app. cbn. lia.
    + apply (queued_count_lt p _ k); [done| |done|by rewrite Hst, Hq|by rewrite Hnew].
      eapply ad_ok. eapply advances_trans; [by apply same_store_advances|].
      apply put_live; [done| |by rewrite Hs1'|].
      * constructor; [done|]. rewrite Hs1'. unfold archived, dget_n, dget_or, d1 in *. fields.
        by rewrite Ha, Hq.
      * rewrite (same_store_status _ _ _ Hss), Hst, Hq, Hs1'. apply rtc_once. constructor.
Qed.

Lemma serve_fill_ok fuel exe sched max p active :
  plane_ok p -> srv_ok active p -> Z.of_nat (length active) <= max -> (queued_count p < fuel)%nat ->
  serves p (serve_fill o root fuel exe sched max active)
    (fun a' p' => srv_ok a' p' /\ Z.of_nat (length a') <= max /\
       (Z.of_nat (length a') = max \/ forall k, status_at p' k <> Some "queued")).
Proof.
  revert p active. induction fuel as [|fuel IH]; intros p active Hp Hs Hmax Hfuel; [lia|].
  cbn [serve_fill]. case_bool; bool_prop; [|apply serves_ret; [done|split; [done|split; [done|left; lia]]]].
  destruct (choose_queued_spec root p Hp) as (od&Hrun&Hch).
  eapply serves_bind with (R := fun od' p' => od' = od /\ p' = p).
  { eapply serves_run; [exact Hrun|by apply advances_refl|done]. }
  intros od' p' [-> ->] _. destruct od as [d|].
  - destruct Hch as (k&Hl&Hq&_).
    eapply serves_bind; [by apply (serve_launch_ok p active k d)|].
    intros a1 p1 (Hs1&Hlen&Hcnt) Hp1. apply IH; [done|done|lia|lia].
  - apply serves_ret; [done|]. auto.
Qed.

(** One turn of the server: it stays within its bound, its table is the set of running items, and
    when it may start work it leaves no item queued unless it is at its bound. *)
Lemma serve_turn_ok exe sched max idle stop p active :
  plane_ok p -> srv_ok active p -> Z.of_nat (length active) <= max ->
  serves p (serve_turn o root exe sched max idle stop active)
    (fun r p' => srv_ok (fst r) p' /\ Z.of_nat (length (fst r)) <= max /\
       (pl_pause p = false -> pl_drain p = false -> stop = false -> pl_cancel p = false ->
        Z.of_nat (length (fst r)) = max \/ forall k, status_at p' k <> Some "queued") /\
       (pl_cancel p = true -> forall k, status_at p' k <> Some "queued")).
Proof.
  intros Hp Hs Hmax. unfold serve_turn.
  apply serves_quiet_bind; [done|quiet|intros p0 p1 [= <- <-] _ _]. cbv zeta.
  set (gc := pl_cancel p).
  eapply serves_bind with (R := fun _ p' => srv_ok active p' /\ (gc = true -> forall k, status_at p' k <> Some "queued")).
  { destruct gc eqn:Egc; [|by apply serves_ret].
    destruct (load_items_spec root p Hp) as (ks&ds&Hld&Hnd&HF&Hall).
    destruct (iter_items calm (fun _ st => exists s, st = Some s /\ (s = "running" \/ terminal_str s = true))
      (serve_cancel o) calm_refl calm_trans calm_ok (fun k d p => serve_cancel_ok o p k d) ks ds p Hp Hnd HF)
      as (p'&Hrun&Hc&Hout&Hin).
    eapply (serves_run _ _ tt p'); [by rewrite (bind_Ok _ _ _ _ _ Hld)|apply Hc|].
    split; [by eapply srv_ok_keeps, Hc|]. intros _ k Hk. destruct (decide (k ∈ ks)) as [Hkk|Hkk].
    - destruct (Hin k Hkk) as (s&Hs'&Hcase). rewrite Hk in Hs'. injection Hs' as <-. by destruct Hcase.
    - unfold status_at in Hk. rewrite Hout in Hk by done. eapply Hkk, Hall, Hk. }
  intros u p1 [Hs1 Hgc] Hp1. clear u.
  eapply serves_bind with (R := fun a' p' => srv_ok a' p' /\ Z.of_nat (length a') <= max /\
    (gc = true -> forall k, status_at p' k <> Some "queued")).
  { eapply serves_mono; [apply poll_all_ok; [done..|apply Hs1|done]|]. cbv beta.
    intros a' p2 (Hs2&Hlen&Hn). split; [done|]. split; [lia|]. intros Hg k Hk. by eapply Hgc, Hn. }
  intros a1 p2 (Hs2&Hl2&Hq2) Hp2. clear dependent p1.
  apply serves_quiet_bind; [done|quiet|intros p3 p4 [= <- <-] _ _].
  eapply serves_bind with (R := fun a' p' => srv_ok a' p' /\ Z.of_nat (length a') <= max /\
    (pl_pause p = false -> pl_drain p = false -> stop = false -> gc = false ->
        Z.of_nat (length a') = max \/ forall k, status_at p' k <> Some "queued") /\
    (gc = true -> forall k, status_at p' k <> Some "queued")).
  { destruct (negb (pl_pause p) && negb (pl_drain p || stop) && negb gc) eqn:E.
    - bool_prop. eapply serves_mono; [apply serve_fill_ok; [done..|unfold queued_count; lia]|]. cbv beta.
      intros a' p' (?&?&Hfull). split; [done|]. split; [done|]. split; [auto|congruence].
    - apply serves_ret; [done|]. split; [done|]. split; [done|]. split; [|done].
      intros H1 H2 H3 H4. by rewrite H1, H2, H3, H4 in E. }
  intros a2 p3 (Hs3&Hl3&Hfull&Hg3) Hp3.
  apply serves_quiet_bind; [done|quiet|intros tele p4 _ Hs4 Hp4].
  apply serves_quiet_bind; [done|quiet|intros counts p5 [= _ <-] _ _].
  apply serves_quiet_bind; [done|quiet|intros rq p5 [= _ <-] _ _].
  apply serves_quiet_bind; [done|quiet|intros q p5 [= _ <-] _ _].
  assert (Hst : forall k, status_at p4 k = status_at p3 k) by (intros; by apply same_store_status).
  apply serves_ret; [done|]. cbn [fst]. split; [by eapply srv_ok_same_store|]. split; [done|]. split.
  - intros H1 H2 H3 H4. destruct (Hfull H1 H2 H3 H4) as [?|Hnone]; [by left|].
    right. intros k. rewrite Hst. apply Hnone.
  - intros Hg k. rewrite Hst. by apply Hg3.
Qed.
End server.
