(* ===== verification/ControlProps.v ===== *)
(** * The properties of the control plane

    The commands of any number of processes and the turns of one server at a time are the steps of a
    transition system ([host_step]); the theorems hold in every state it reaches from an initialised
    root. *)
From stdpp Require Import pretty.
From Stdlib Require Import SpecFloat Ascii.
From S2P Require Import ControlFacts.

(** ** The transition system *)

Inductive command :=
  | Init | Submit (ns_id : option string) (priority : Z) (manifest : string) (doc : res value)
  | Cancel (ns_id : string) | CancelAll | Pause | Resume | Drain | Status.

Definition run_command (o : oracle) (root : string) (c : command) : io unit :=
  match c with
  | Init => command_init o root
  | Submit ns_id priority manifest doc => command_submit o root ns_id priority manifest doc
  | Cancel ns_id => command_cancel o root ns_id
  | CancelAll => command_cancel_all o root
  | Pause => command_pause o root
  | Resume => command_resume o root
  | Drain => command_drain o root
  | Status => _ ← ensure_root root; _ ← write_telemetry o root None; mret tt
  end.

(** The control root, and the server's table and stop flag while one serves. *)
Record host := Host { h_plane : plane; h_server : option (dict Z * bool) }.

Record setup := Setup {
  su_oracle : oracle; su_root : string; su_executable : string; su_scheduler : string;
  su_max_active : Z; su_until_idle : bool; su_pid : Z
}.

Definition unlock (p : plane) : plane := set_lock None p.

(** The start of [serve]: the lock is taken and interrupted items are recovered. *)
Definition serve_start (u : setup) (p : plane) : host :=
  match acquire_lock (su_oracle u) (su_pid u) p with
  | (Raise _, p) => Host p None
  | (Ok _, p) =>
      match recover_state (su_oracle u) (su_root u) p with
      | (Ok _, p) => Host p (Some ([], false))
      | (Raise _, p) => Host (unlock p) None
      end
  end.

(** One turn; the loop ends by its conditions or by an exception, and the lock is released. *)
Definition serve_next (u : setup) (active : dict Z) (stop : bool) (p : plane) : host :=
  match serve_turn (su_oracle u) (su_root u) (su_executable u) (su_scheduler u) (su_max_active u)
          (su_until_idle u) stop active p with
  | (Ok (active, false), p) => Host p (Some (active, stop))
  | (Ok (active, true), p) =>
      Host (unlock (snd (write_telemetry (su_oracle u) (su_root u) (Some active) p))) None
  | (Raise _, p) => Host (unlock p) None
  end.

Inductive host_step (u : setup) : host -> host -> Prop :=
  | step_command c p s :
      host_step u (Host p s) (Host (snd (run_command (su_oracle u) (su_root u) c p)) s)
  | step_start p : host_step u (Host p None) (serve_start u p)
  | step_turn p active stop : host_step u (Host p (Some (active, stop))) (serve_next u active stop p)
  | step_signal p active stop :
      host_step u (Host p (Some (active, stop))) (Host (snd (on_signal (su_oracle u) p)) (Some (active, true)))
  | step_kill p s : host_step u (Host p s) (Host p None).

Definition empty_plane : plane := Plane None [] [] [] false false false [] None None [] 0.
Definition start (u : setup) : host := Host empty_plane None.
Definition reachable (u : setup) : host -> Prop := rtc (host_step u) (start u).

(** ** Its invariant *)

Record host_ok (u : setup) (h : host) : Prop := {
  ho_plane : plane_ok (h_plane h);
  ho_server : forall active stop, h_server h = Some (active, stop) ->
    srv_ok active (h_plane h) /\ Z.of_nat (length active) <= su_max_active u
}.

Lemma run_command_calm o root c p : plane_ok p -> calm_at p (run_command o root c).
Proof.
  intros Hp. destruct c; cbn [run_command].
  - apply quiet_calm; [done|]. unfold command_init. quiet.
  - by apply command_submit_calm.
  - by apply command_cancel_calm.
  - by apply command_cancel_all_calm.
  - apply quiet_calm; [done|]. unfold command_pause. quiet.
  - apply quiet_calm; [done|]. unfold command_resume. quiet.
  - apply quiet_calm; [done|]. unfold command_drain. quiet.
  - apply quiet_calm; [done|]. quiet.
Qed.

Lemma empty_plane_ok : plane_ok empty_plane.
Proof.
  constructor; cbn; try done; try constructor.
  - intros r Hr. by apply not_elem_of_nil in Hr.
  - intros Hk. by apply not_elem_of_nil in Hk.
  - intros (s&Hs&_). done.
  - intros r Hr. by apply not_elem_of_nil in Hr.
Qed.

Lemma unlock_ok p : plane_ok p -> plane_ok (unlock p).
Proof. by apply same_store_ok. Qed.

Lemma host_step_ok u h h' :
  0 <= su_max_active u -> host_ok u h -> host_step u h h' -> host_ok u h' /\ advances (h_plane h) (h_plane h').
Proof.
  intros Hmax [Hp Hsrv] Hstep. destruct Hstep as [c p s|p|p active stop|p active stop|p s]; cbn [h_plane h_server] in *.
  - pose proof (run_command_calm (su_oracle u) (su_root u) c p Hp) as [Had Hk].
    split; [|done]. constructor; [apply Had|]. intros active stop Hs. cbn [h_plane].
    destruct (Hsrv _ _ Hs). split; [|done]. by eapply srv_ok_keeps.
  - unfold serve_start. pose proof (quiet_acquire_lock (su_oracle u) (su_pid u) p) as Hq.
    destruct (acquire_lock _ _ p) as [[[]|e] p1]; cbn [snd] in Hq; cbn [h_plane];
      (assert (Hp1 : plane_ok p1) by (by eapply same_store_ok)).
    2: { split; [by constructor|by apply same_store_advances]. }
    destruct (recover_state_ok (su_oracle u) (su_root u) p1 Hp1) as (p2&->&Had&Hnone). cbn [h_plane].
    split; [|eapply advances_trans; [by apply same_store_advances|done]].
    constructor; [apply Had|]. intros active stop [= <- <-]. split; [|done].
    constructor; [constructor|]. intros k. split; [intros Hk; by apply not_elem_of_nil in Hk|].
    intros Hk. by apply Hnone in Hk.
  - destruct (Hsrv _ _ eq_refl) as [Hs Hlen]. unfold serve_next.
    destruct (serve_turn_ok (su_oracle u) (su_root u) (su_executable u) (su_scheduler u) (su_max_active u)
                (su_until_idle u) stop p active Hp Hs Hlen) as [Had HQ].
    destruct (serve_turn _ _ _ _ _ _ _ _ p) as [[[active' fin]|e] p1]; cbn [snd] in Had.
    + destruct HQ as (Hs'&Hlen'&_). cbn [fst] in *. destruct fin; cbn [h_plane].
      * pose proof (quiet_write_telemetry (su_oracle u) (su_root u) (Some active') p1) as Hq.
        assert (Hq' : same_store p1 (unlock (snd (write_telemetry (su_oracle u) (su_root u) (Some active') p1))))
          by (by eapply same_store_trans).
        assert (Ha : advances p1 (unlock (snd (write_telemetry (su_oracle u) (su_root u) (Some active') p1))))
          by (by apply same_store_advances; [apply Had|]).
        split; [constructor; [apply Ha|done]|by eapply advances_trans].
      * split; [|done]. constructor; [apply Had|]. intros ? ? [= <- <-]. done.
    + cbn [h_plane]. split; [constructor; [|done]|].
      * apply unlock_ok, Had.
      * eapply advances_trans; [exact Had|]. apply same_store_advances; [apply Had|done].
  - pose proof (quiet_on_signal (su_oracle u) p) as Hq.
    split; [|by apply same_store_advances]. constructor; [by eapply same_store_ok|].
    intros ? ? [= <- <-]. destruct (Hsrv _ _ eq_refl). split; [|done]. by eapply srv_ok_same_store.
  - split; [by constructor|by apply advances_refl].
Qed.

Lemma reachable_ok u h : 0 <= su_max_active u -> reachable u h -> host_ok u h.
Proof.
  intros Hmax Hr. unfold reachable in Hr. remember (start u) as h0 eqn:E.
  assert (H0 : host_ok u h0) by (subst; constructor; [apply empty_plane_ok|done]). clear E.
  induction Hr as [|h1 h2 h3 Hstep _ IH]; [done|]. apply IH. by eapply host_step_ok.
Qed.

(** ** A concrete plane *)

Definition ex_oracle : oracle :=
  Oracle (fun t => ratio (Z.of_nat t) 1) (fun _ _ => false) (fun _ _ => Some 0) (fun t _ => inl (Z.of_nat t))
    (fun _ _ => None) (fun _ _ => None) (fun _ m => Ok ("sha of " +:+ m)).
Definition ex_setup : setup := Setup ex_oracle "/plane" "python3" "/opt/schedule.py" 1 true 77.
Definition ex_doc : res value := Ok (VDict [("schema", VStr SCHEDULER_SCHEMA)]).
Definition ex_run (c : command) (h : host) : host := Host (snd (run_command ex_oracle "/plane" c (h_plane h))) (h_server h).
Definition ex_turn (h : host) : host :=
  match h_server h with Some (a, s) => serve_next ex_setup a s (h_plane h) | None => h end.
Definition ex_submitted : host :=
  ex_run (Cancel "old") (ex_run (Submit (Some "high") 9 "/m/high.json" ex_doc)
    (ex_run (Submit (Some "low") 1 "/m/low.json" ex_doc)
      (ex_run (Submit (Some "old") 5 "/m/old.json" ex_doc) (ex_run Init (start ex_setup))))).
Definition ex_serving : host := serve_start ex_setup (h_plane ex_submitted).
Definition ex_turns (n : nat) : host := Nat.iter n ex_turn ex_serving.

(** Higher priority first, one at a time; the cancelled item never starts. *)
Example example_turns :
  let st h := (fun k => status_at (h_plane h) k) <$> ["old"; "low"; "high"] in
  st ex_submitted = [Some "cancelled"; Some "queued"; Some "queued"] /\
  st (ex_turns 1) = [Some "cancelled"; Some "queued"; Some "running"] /\
  st (ex_turns 2) = [Some "cancelled"; Some "running"; Some "complete"] /\
  st (ex_turns 3) = [Some "cancelled"; Some "complete"; Some "complete"] /\
  history_id <$> pl_history (h_plane (ex_turns 3)) = ["old"; "high"; "low"] /\
  h_server (ex_turns 3) = None.
Proof. vm_compute. repeat split. Qed.

Lemma ex_command_step c h : reachable ex_setup h -> reachable ex_setup (ex_run c h).
Proof. intros Hr. eapply rtc_r; [exact Hr|]. destruct h. apply step_command. Qed.

Lemma ex_submitted_reachable : reachable ex_setup ex_submitted.
Proof. unfold ex_submitted. do 5 apply ex_command_step. apply rtc_refl. Qed.

Lemma ex_turns_reachable n : reachable ex_setup (ex_turns n).
Proof.
  induction n as [|n IH].
  - eapply rtc_r; [exact ex_submitted_reachable|].
    assert (E : ex_submitted = Host (h_plane ex_submitted) None) by (vm_compute; reflexivity).
    rewrite E at 1. apply step_start.
  - change (ex_turns (S n)) with (ex_turn (ex_turns n)). eapply rtc_r; [exact IH|].
    destruct (ex_turns n) as [p [[a s]|]]; [|apply step_kill].
    change (ex_turn (Host p (Some (a, s)))) with (serve_next ex_setup a s p). apply step_turn.
Qed.

(** ** The properties *)




Definition ex_table : dict Z * bool := default ([], false) (h_server (ex_turns 1)).

(** C11: every step moves each item along the edges of its status machine only (queued to running or
    to a terminal status, running to a terminal status or back to queued or orphaned after a crash,
    orphaned to cancelled), so terminal statuses are final, and only appends to the history. *)
Theorem items_follow_status_machine u h h' :
  0 <= su_max_active u -> reachable u h -> host_step u h h' ->
  (exists l, pl_history (h_plane h') = pl_history (h_plane h) ++ l) /\
  (forall k, rtc item_edge (status_at (h_plane h) k) (status_at (h_plane h') k)) /\
  (forall k s, status_at (h_plane h) k = Some s -> terminal_str s = true ->
     status_at (h_plane h') k = Some s).
Proof.
  intros Hmax Hr Hstep. destruct (host_step_ok u h h' Hmax (reachable_ok u h Hmax Hr) Hstep) as [_ [_ Hh Hs]].
  split; [done|]. split; [done|]. intros k s Hk Ht. specialize (Hs k). rewrite Hk in Hs.
  by eapply item_edge_terminal.
Qed.

Lemma items_follow_status_machine_witness :
  status_at (h_plane (ex_run (Cancel "high") (ex_turns 2))) "high" = Some "complete".
Proof.
  refine (proj2 (proj2 (items_follow_status_machine ex_setup (ex_turns 2) (ex_run (Cancel "high") (ex_turns 2)) _
            (ex_turns_reachable 2) _)) "high" "complete" _ _).
  - done.
  - unfold ex_run. destruct (ex_turns 2) as [p s] eqn:E. apply (step_command ex_setup (Cancel "high")).
  - vm_compute. reflexivity.
  - reflexivity.
Defined.

(** [choose_queued] returns, without changing anything, a queued item that is least by
    (-priority, sequence number, id) among all queued items, and nothing only when none is queued. *)
Theorem choose_queued_optimal u h :
  0 <= su_max_active u -> reachable u h ->
  exists od, choose_queued (su_root u) (h_plane h) = (Ok od, h_plane h) /\ chosen (h_plane h) od.
Proof. intros Hmax Hr. apply choose_queued_spec. by destruct (reachable_ok u h Hmax Hr). Qed.

Lemma choose_queued_optimal_witness :
  exists od, choose_queued "/plane" (h_plane ex_submitted) = (Ok od, h_plane ex_submitted) /\
    chosen (h_plane ex_submitted) od.
Proof. apply (choose_queued_optimal ex_setup ex_submitted); [done|exact ex_submitted_reachable]. Defined.

(** A turn of the server that returns leaves no work waiting that it could start: with no
    marker set, either [--max-active] processes run or no item is queued; and after a turn that saw
    the CANCEL marker no item is queued. *)
Theorem turn_leaves_no_work u p active stop active' fin p' :
  0 <= su_max_active u -> reachable u (Host p (Some (active, stop))) ->
  serve_turn (su_oracle u) (su_root u) (su_executable u) (su_scheduler u) (su_max_active u)
    (su_until_idle u) stop active p = (Ok (active', fin), p') ->
  (pl_pause p = false -> pl_drain p = false -> stop = false -> pl_cancel p = false ->
     Z.of_nat (length active') = su_max_active u \/ forall k, status_at p' k <> Some "queued") /\
  (pl_cancel p = true -> forall k, status_at p' k <> Some "queued").
Proof.
  intros Hmax Hr Hturn. destruct (reachable_ok _ _ Hmax Hr) as [Hp Hsrv]. cbn [h_plane h_server] in *.
  destruct (Hsrv _ _ eq_refl) as [Hs Hlen].
  destruct (serve_turn_ok (su_oracle u) (su_root u) (su_executable u) (su_scheduler u) (su_max_active u)
              (su_until_idle u) stop p active Hp Hs Hlen) as [_ HQ].
  rewrite Hturn in HQ. apply HQ.
Qed.

Lemma ex_serving_reachable : reachable ex_setup (Host (h_plane ex_serving) (Some ([], false))).
Proof.
  assert (E : Host (h_plane ex_serving) (Some ([], false)) = ex_turns 0) by (vm_compute; reflexivity).
  rewrite E. apply ex_turns_reachable.
Qed.

Definition ex_turn_result : res (dict Z * bool) * plane :=
  serve_turn ex_oracle "/plane" "python3" "/opt/schedule.py" 1 true false [] (h_plane ex_serving).
Definition ex_turn_plane : plane := snd ex_turn_result.
Definition ex_turn_table : dict Z * bool := match fst ex_turn_result with Ok r => r | Raise _ => ([], true) end.
Lemma turn_leaves_no_work_witness :
  status_at ex_turn_plane "low" = Some "queued" /\
  (Z.of_nat (length (fst ex_turn_table)) = 1 \/ forall k, status_at ex_turn_plane k <> Some "queued").
Proof.
  split; [vm_compute; reflexivity|].
  refine (proj1 (turn_leaves_no_work ex_setup (h_plane ex_serving) [] false (fst ex_turn_table) (snd ex_turn_table)
            ex_turn_plane _ _ _) _ _ _ _).
  - done.
  - exact ex_serving_reachable.
  - vm_compute. reflexivity.
  - vm_compute. reflexivity.
  - vm_compute. reflexivity.
  - reflexivity.
  - vm_compute. reflexivity.
Defined.
