(* ===== verification/Worker.v ===== *)
(** * The job worker ([scripts/ppc_lab_worker.py])

    A [ppc-lab-job-v1] document is turned into a [ppc-lab] command line ([build_run_args]), run, and
    answered with a response document ([run_job]); [worker_stream] is the NDJSON loop of [main]. *)
From stdpp Require Import pretty.
From Stdlib Require Import SpecFloat Ascii.
From S2P Require Export PyValue.

Definition JOB_SCHEMA := "ppc-lab-job-v1".
Definition RESPONSE_SCHEMA := "ppc-lab-worker-response-v1".

(** ** Operands *)

Definition _string_number (v : value) (field : string) : res string :=
  match v with
  | VInt n => Ok (pretty n)
  | VStr s => if str_empty (str_strip s)
              then app_error (field +:+ " must be an integer or numeric string") else Ok (str_strip s)
  | _ => app_error (field +:+ " must be an integer or numeric string")
  end.

Definition _float_string (v : value) (field : string) : res string :=
  match v with
  | VInt _ | VFloat _ => Ok (py_repr v)
  | VStr s => if str_empty (str_strip s) then app_error (field +:+ " must be numeric") else Ok (str_strip s)
  | _ => app_error (field +:+ " must be numeric")
  end.

(** [Path.resolve(strict=True)] and [Path.is_file()]: the file system. *)
Record files := Files { fs_resolve : string -> res string; fs_is_file : string -> bool }.

Definition is_absolute (p : string) : bool := str_startswith "/" p.
Definition path_join (a b : string) : string := if is_absolute b then b else a +:+ "/" +:+ b.

(** [p.relative_to(root)] succeeds, for resolved paths. *)
Definition path_within (root p : string) : bool :=
  String.eqb p root || str_startswith (if str_endswith "/" root then root else root +:+ "/") p.

Definition _expect_dict (v : value) (field : string) : res (dict value) :=
  match v with
  | VNone => Ok []
  | VDict d => Ok d
  | _ => app_error (field +:+ " must be an object")
  end.

(** ** The command line *)

Definition image_flags : list (string * string) :=
  [("auto", "--image"); ("raw", "--code"); ("elf", "--elf"); ("macho", "--macho"); ("pef", "--pef")].

Definition image_numeric : list (string * string) :=
  [("image_base", "--image-base"); ("code_base", "--code-base"); ("data_base", "--data-base");
   ("data_map_size", "--data-map-size"); ("heap_base", "--heap-base"); ("heap_size", "--heap-size");
   ("stack_base", "--stack-base"); ("stack_size", "--stack-size")].

Definition execution_numeric : list (string * string) :=
  [("entry", "--entry"); ("toc", "--toc"); ("transition_vector", "--transition-vector");
   ("import_base", "--import-base"); ("import_size", "--import-size"); ("return_address", "--return");
   ("max_instructions", "--max-instructions"); ("default_syscall_return", "--default-syscall-return")].

(** [for key, flag in table.items(): if key in d: args += [flag, _string_number(d[key], ...)]] *)
Definition numeric_args (prefix : string) (table : list (string * string)) (d : dict value) :
    res (list string) :=
  res_fold (fun acc '(key, flag) =>
    match dget key d with
    | Some v => s ← _string_number v (prefix +:+ key); Ok (acc ++ [flag; s])
    | None => Ok acc
    end) [] table.

(** [kind not in image_flags]: a list or an object is not hashable. *)
Definition image_flag (kind : value) : res string :=
  match kind with
  | VList _ | VDict _ => Raise (Exn TypeError ("unhashable type: '" +:+ type_name kind +:+ "'"))
  | VStr k => match dget k image_flags with
              | Some flag => Ok flag
              | None => app_error "image.kind must be one of auto, raw, elf, macho, pef"
              end
  | _ => app_error "image.kind must be one of auto, raw, elf, macho, pef"
  end.

(** [flag] is present when the field is [true], and the field may only be a boolean. *)
Definition boolean_arg (execution : dict value) (key flag : string) : res (list string) :=
  match dget key execution with
  | Some (VBool true) => Ok [flag]
  | Some (VBool false) | None => Ok []
  | Some _ => app_error ("execution." +:+ key +:+ " must be boolean")
  end.

(** [name.startswith(p) and name[1:].isdigit() and 0 <= int(name[1:]) < 32] *)
Definition register_name (p : ascii) (name : string) : bool :=
  match name with
  | String c digits =>
      Ascii.eqb c p && str_isdigit digits &&
      match int_of_string digits with Some n => (0 <=? n) && (n <? 32) | None => false end
  | EmptyString => false
  end.

(** [for name, value in d.items(): args += [flag, f"{name}={...}"]] *)
Definition binding_args (flag field : string) (check : string -> res string)
    (operand : value -> string -> res string) (d : dict value) : res (list string) :=
  res_fold (fun acc '(name, v) =>
    n ← check name;
    s ← operand v (field +:+ "." +:+ name);
    Ok (acc ++ [flag; n +:+ "=" +:+ s])) [] d.

Definition gpr_name (name : string) : res string :=
  if register_name "r" name then Ok name else app_error ("invalid GPR name: " +:+ str_repr name).
Definition fpr_name (name : string) : res string :=
  if register_name "f" name then Ok name else app_error ("invalid FPR name: " +:+ str_repr name).
Definition bind_name (name : string) : res string :=
  if str_empty name then app_error "binding names must be non-empty strings" else Ok name.

Definition stub_ok (v : value) : bool := match v with VStr s => str_mem "@" s | _ => false end.

Section build.
Context (fs : files).

Definition _resolve_input (path_value : value) (base_dir : string) (root : option string) (field : string) :
    res string :=
  match path_value with
  | VStr p =>
      _ ← guard_app (negb (str_empty p)) (field +:+ " must be a non-empty path string");
      let path := path_join base_dir p in
      resolved ← (match fs_resolve fs path with
                  | Raise e => if handled [FileNotFoundError] e
                               then app_error (field +:+ " does not exist: " +:+ path) else Raise e
                  | Ok r => Ok r
                  end);
      _ ← guard_app (fs_is_file fs resolved) (field +:+ " is not a file: " +:+ resolved);
      _ ← guard_app (match root with Some r => path_within r resolved | None => true end)
            (field +:+ " is outside worker root: " +:+ resolved);
      Ok resolved
  | _ => app_error (field +:+ " must be a non-empty path string")
  end.

Definition dump_arg (index : Z) (dump : value) : res string :=
  let field := "dumps[" +:+ pretty index +:+ "]" in
  match dump with
  | VDict d =>
      match dget "address" d, dget "size" d with
      | Some a, Some s =>
          a ← _string_number a (field +:+ ".address");
          s ← _string_number s (field +:+ ".size");
          Ok (a +:+ ":" +:+ s)
      | _, _ => app_error (field +:+ " must contain address and size")
      end
  | _ => app_error (field +:+ " must contain address and size")
  end.

Definition image_args (image : dict value) (base_dir : string) (root : option string) : res (list string) :=
  path ← _resolve_input (dget_n "path" image) base_dir root "image.path";
  flag ← image_flag (dget_or "kind" (VStr "auto") image);
  data ← (match dget_n "data_path" image with
          | VNone => Ok []
          | v => p ← _resolve_input v base_dir root "image.data_path"; Ok ["--data"; p]
          end);
  numeric ← numeric_args "image." image_numeric image;
  Ok (["run"; flag; path] ++ data ++ numeric).

Definition execution_args (execution : dict value) : res (list string) :=
  backend ← (match dget_or "backend" (VStr "auto") execution with
             | VStr b => if bool_decide (b ∈ ["auto"; "builtin"; "unicorn"]) then Ok b
                         else app_error "execution.backend must be auto, builtin, or unicorn"
             | _ => app_error "execution.backend must be auto, builtin, or unicorn"
             end);
  numeric ← numeric_args "execution." execution_numeric execution;
  symbol ← (match dget "entry_symbol" execution with
            | None => Ok []
            | Some (VStr s) =>
                if str_empty s then app_error "execution.entry_symbol must be a non-empty string"
                else Ok ["--entry-symbol"; s]
            | Some _ => app_error "execution.entry_symbol must be a non-empty string"
            end);
  trace ← boolean_arg execution "trace" "--trace";
  traps ← boolean_arg execution "ignore_traps" "--ignore-traps";
  range ← (match dget "trace_range" execution with
           | None => Ok []
           | Some (VStr s) => if str_mem ":" s then Ok ["--trace-range"; s]
                              else app_error "execution.trace_range must be START:END"
           | Some _ => app_error "execution.trace_range must be START:END"
           end);
  Ok (["--backend"; backend] ++ numeric ++ symbol ++ trace ++ traps ++ range).

Definition build_run_args (job : dict value) (base_dir : string) (root : option string) : res (list string) :=
  _ ← guard_app (eq_str (dget_n "schema" job) JOB_SCHEMA) ("schema must be " +:+ JOB_SCHEMA);
  let operation := dget_or "operation" (VStr "run") job in
  _ ← guard_app (eq_str operation "run") ("unsupported operation: " +:+ py_repr operation);
  image ← _expect_dict (dget_n "image" job) "image";
  a1 ← image_args image base_dir root;
  execution ← _expect_dict (dget_n "execution" job) "execution";
  a2 ← execution_args execution;
  registers ← _expect_dict (dget_n "registers" job) "registers";
  a3 ← binding_args "--set" "registers" gpr_name _string_number registers;
  fregisters ← _expect_dict (dget_n "float_registers" job) "float_registers";
  a4 ← binding_args "--set-f" "float_registers" fpr_name _float_string fregisters;
  bindings ← _expect_dict (dget_n "bindings" job) "bindings";
  a5 ← binding_args "--bind" "bindings" bind_name _string_number bindings;
  writes_u32 ← _expect_dict (dget_n "writes_u32" job) "writes_u32";
  a6 ← binding_args "--write-u32" "writes_u32" (fun k => _string_number (VStr k) "writes_u32 address")
         _string_number writes_u32;
  writes_f32 ← _expect_dict (dget_n "writes_f32" job) "writes_f32";
  a7 ← binding_args "--write-f32" "writes_f32" (fun k => _string_number (VStr k) "writes_f32 address")
         _float_string writes_f32;
  stubs ← (match dget_or "stubs" (VList []) job with
           | VList l => if forallb stub_ok l then Ok l
                        else app_error "stubs must be an array of KIND@ADDRESS strings"
           | _ => app_error "stubs must be an array of KIND@ADDRESS strings"
           end);
  let a8 := List.flat_map (fun v => ["--stub"; py_str v]) stubs in
  syscalls ← _expect_dict (dget_n "syscall_returns" job) "syscall_returns";
  a9 ← binding_args "--syscall-return" "syscall_returns" (fun k => _string_number (VStr k) "syscall number")
         _string_number syscalls;
  dumps ← (match dget_or "dumps" (VList []) job with
           | VList l => Ok l | _ => app_error "dumps must be an array" end);
  a10 ← res_fold (fun acc '(index, dump) => s ← dump_arg index dump; Ok (acc ++ ["--dump"; s])) []
          (enumerate dumps);
  Ok (a1 ++ a2 ++ a3 ++ a4 ++ a5 ++ a6 ++ a7 ++ a8 ++ a9 ++ a10).

(** ** Running a job *)

(** The optional parts of a response. *)
Record reply := Reply {
  r_ok : bool; r_exit_code : value; r_error : value; r_timed_out : bool; r_result : value;
  r_snapshot : value; r_stdout : string; r_stderr : string; r_command : option (list string)
}.

Definition opt_field (k : string) (v : value) : dict value := if is_none v then [] else [(k, v)].
Definition text_field (k s : string) : dict value := if str_empty s then [] else [(k, VStr s)].

Definition _response (job_id : value) (r : reply) : dict value :=
  [("schema", VStr RESPONSE_SCHEMA); ("id", job_id); ("ok", VBool (r_ok r));
   ("exit_code", r_exit_code r); ("timed_out", VBool (r_timed_out r))] ++
  opt_field "error" (r_error r) ++ opt_field "result" (r_result r) ++ opt_field "snapshot" (r_snapshot r) ++
  text_field "stdout" (r_stdout r) ++ text_field "stderr" (r_stderr r) ++
  match r_command r with Some c => [("command", VList (VStr <$> c))] | None => [] end.

Definition refused (job_id : value) (msg : string) : dict value :=
  _response job_id (Reply false VNone (VStr msg) false VNone VNone "" "" None).

(** What running [ppc-lab] gives: a timeout with the output so far, or an exit status, the output,
    and what parsing the two files it may write gives. *)
Inductive tool_run :=
  | TimedOut (stdout stderr : string)
  | Exited (returncode : Z) (stdout stderr : string) (result snapshot : option (res value)).

Definition run_job (job : value) (ppc_lab temp base_dir : string) (root : option string) (timeout : float)
    (expose_command : bool) (tool : list string -> res tool_run) : res (dict value) :=
  match job with
  | VDict d =>
      let job_id := dget_n "id" d in
      match build_run_args d base_dir root with
      | Raise e => if handled [AppError] e then Ok (refused job_id (exn_msg e)) else Raise e
      | Ok cli_args =>
          let command := [ppc_lab] ++ cli_args ++
                         ["--json"; temp +:+ "/result.json"; "--snapshot"; temp +:+ "/snapshot.json"] in
          let shown := if expose_command then Some command else None in
          run ← tool command;
          match run with
          | TimedOut out err =>
              Ok (_response job_id (Reply false VNone (VStr ("worker timeout after " +:+ float_g timeout +:+ "s"))
                                      true VNone VNone out err shown))
          | Exited rc out err result snapshot =>
              let failed msg := Ok (_response job_id (Reply false (VInt rc) (VStr msg) false VNone VNone out err shown)) in
              match result with
              | Some (Raise e) => failed ("cannot decode PPC Lab result: " +:+ exn_msg e)
              | _ =>
                  match snapshot with
                  | Some (Raise e) => failed ("cannot decode PPC Lab snapshot: " +:+ exn_msg e)
                  | _ =>
                      let value_of o := match o with Some (Ok v) => v | _ => VNone end in
                      let ok := rc =? 0 in
                      let error := if ok then VNone
                                   else match value_of result with
                                        | VDict r => dget_n "stop_reason" r
                                        | _ => VStr "ppc-lab execution failed" end in
                      Ok (_response job_id (Reply ok (VInt rc) error false (value_of result) (value_of snapshot)
                                              out err shown))
                  end
              end
          end
      end
  | _ => Ok (refused VNone "job must be a JSON object")
  end.

(** *** The stream loop of [main] *)

(** One response per non-blank line; [loads] is [json.loads].  An exception that is neither a
    [JobError] nor a decoding error ends the worker, after the responses already printed. *)
Fixpoint worker_stream (loads : string -> res value) (handle : value -> res (dict value))
    (lines : list string) : list (dict value) * res bool :=
  match lines with
  | [] => ([], Ok false)
  | raw :: lines =>
      let raw := str_strip raw in
      if str_empty raw then worker_stream loads handle lines
      else
        let answer := match loads raw with
          | Raise e => Ok (refused VNone ("invalid JSON: " +:+ exn_msg e), true)
          | Ok job => response ← handle job; Ok (response, false)
          end in
        match answer with
        | Raise e => ([], Raise e)
        | Ok (response, bad) =>
            let '(responses, fin) := worker_stream loads handle lines in
            (response :: responses, had ← fin; Ok (bad || had))
        end
  end.

(** [return 2 if had_transport_error else 0]; a traceback is 1. *)
Definition stream_status (fin : res bool) : Z :=
  match fin with Ok true => 2 | Ok false => 0 | Raise _ => 1 end.
End build.
