(* ===== verification/WorkerProps.v ===== *)
(** * The properties of the job worker: containment, totality and the stream protocol *)
From stdpp Require Import pretty.
From Stdlib Require Import SpecFloat Ascii.
From S2P Require Import Worker.

(** ** A reader of command lines *)

Definition operand_flags : list string :=
  ["--data"; "--backend"; "--entry-symbol"; "--trace-range"; "--set"; "--set-f"; "--bind"; "--write-u32";
   "--write-f32"; "--stub"; "--syscall-return"; "--dump"] ++ image_numeric.*2 ++ execution_numeric.*2.
Definition switch_flags : list string := ["--trace"; "--ignore-traps"].

(** The options of a command line, as [ppc-lab] reads it: switches, and flags with an operand. *)
Fixpoint options_of (args : list string) : option (list (string * option string)) :=
  match args with
  | [] => Some []
  | flag :: rest =>
      if bool_decide (flag ∈ switch_flags) then o ← options_of rest; Some ((flag, None) :: o)
      else if bool_decide (flag ∈ operand_flags) then
        match rest with
        | operand :: rest => o ← options_of rest; Some ((flag, Some operand) :: o)
        | [] => None
        end
      else None
  end.

Definition parse_cli (args : list string) : option (string * string * list (string * option string)) :=
  match args with
  | run :: flag :: path :: rest =>
      if String.eqb run "run" && bool_decide (flag ∈ image_flags.*2)
      then o ← options_of rest; Some (flag, path, o) else None
  | _ => None
  end.

(** Option lists whose operands satisfy [Q]. *)
Definition parses (Q : string * option string -> Prop) (args : list string) : Prop :=
  exists o, Forall Q o /\ forall rest, options_of (args ++ rest) = (l ← options_of rest; Some (o ++ l)).

Section parses.
Context (Q : string * option string -> Prop).

Lemma parses_nil : parses Q [].
Proof. exists []. split; [constructor|]. intros rest. cbn. by destruct (options_of rest). Qed.

Lemma parses_app a b : parses Q a -> parses Q b -> parses Q (a ++ b).
Proof.
  intros (o1&H1&E1) (o2&H2&E2). exists (o1 ++ o2). split; [by apply Forall_app|].
  intros rest. rewrite <- app_assoc, E1, E2. cbn. destruct (options_of rest); cbn; [|done].
  by rewrite app_assoc.
Qed.

Lemma parses_operand flag x :
  flag ∉ switch_flags -> flag ∈ operand_flags -> Q (flag, Some x) -> parses Q [flag; x].
Proof.
  intros H1 H2 HQ. exists [(flag, Some x)]. split; [by constructor|]. intros rest. cbn [app options_of].
  rewrite bool_decide_eq_false_2, bool_decide_eq_true_2 by done. by destruct (options_of rest).
Qed.

Lemma parses_switch flag : flag ∈ switch_flags -> Q (flag, None) -> parses Q [flag].
Proof.
  intros H1 HQ. exists [(flag, None)]. split; [by constructor|]. intros rest. cbn [app options_of].
  rewrite bool_decide_eq_true_2 by done. by destruct (options_of rest).
Qed.
End parses.

(** ** Containment *)

Definition inside (root : option string) (p : string) : Prop :=
  match root with Some r => path_within r p = true | None => True end.
(** A [--data] operand lies under the root. *)
Definition data_inside (root : option string) (o : string * option string) : Prop :=
  match o with (flag, Some p) => flag = "--data" -> inside root p | _ => True end.

Lemma resolve_input_inside fs v base root field p :
  _resolve_input fs v base root field = Ok p -> inside root p /\ fs_is_file fs p = true.
Proof.
  unfold _resolve_input. destruct v; intros H; inv_res. subst. split; [|done]. by destruct root.
Qed.

Lemma numeric_args_parses root prefix table d a :
  (forall f, f ∈ table.*2 -> f ∉ switch_flags /\ f ∈ operand_flags /\ f <> "--data") ->
  numeric_args prefix table d = Ok a -> parses (data_inside root) a.
Proof.
  intros Hf. apply res_fold_inv; [|apply parses_nil].
  intros acc [key flag] acc' Hin Hacc. destruct (dget key d); intros H; inv_res; [|done].
  apply parses_app; [done|]. destruct (Hf flag) as (?&?&?).
  { apply list_elem_of_fmap. by exists (key, flag). }
  apply parses_operand; [done..|]. cbn. congruence.
Qed.

Lemma binding_args_parses root flag field check operand d a :
  flag ∉ switch_flags -> flag ∈ operand_flags -> flag <> "--data" ->
  binding_args flag field check operand d = Ok a -> parses (data_inside root) a.
Proof.
  intros H1 H2 H3. apply res_fold_inv; [|apply parses_nil].
  intros acc [name v] acc' _ Hacc H. inv_res. apply parses_app; [done|].
  apply parses_operand; [done..|]. cbn. congruence.
Qed.

(** Membership of a literal flag in a literal list. *)
Ltac flag_in := apply (bool_decide_unpack _); vm_compute; exact I.
Ltac operand := apply parses_operand; [flag_in|flag_in|cbn; try (intros; discriminate)].

Lemma boolean_arg_parses root execution key flag a :
  flag ∈ switch_flags -> boolean_arg execution key flag = Ok a -> parses (data_inside root) a.
Proof.
  intros Hf. unfold boolean_arg. destruct (dget key execution) as [[|[]| | | | |]|]; intros H; inv_res;
    auto using parses_nil. by apply parses_switch.
Qed.

Lemma execution_args_parses root execution a :
  execution_args execution = Ok a -> parses (data_inside root) a.
Proof.
  unfold execution_args. intros H. inv_res.
  match goal with |- parses _ (_ :: ?b :: ?rest) => change (parses (data_inside root) (["--backend"; b] ++ rest)) end.
  repeat apply parses_app.
  - operand.
  - eapply numeric_args_parses; [|done]. intros f Hf.
    assert (Hall : Forall (fun f => f ∉ switch_flags /\ f ∈ operand_flags /\ f <> "--data") execution_numeric.*2)
      by flag_in.
    rewrite Forall_forall in Hall. by apply Hall.
  - match goal with H : match dget "entry_symbol" _ with _ => _ end = Ok _ |- _ => revert H end.
    destruct (dget "entry_symbol" execution) as [[]|]; try done; [case_bool|]; intros Hx; inv_res;
      [operand|apply parses_nil].
  - eapply boolean_arg_parses; [|done]. flag_in.
  - eapply boolean_arg_parses; [|done]. flag_in.
  - match goal with H : match dget "trace_range" _ with _ => _ end = Ok _ |- _ => revert H end.
    destruct (dget "trace_range" execution) as [[]|]; try done; [case_bool|]; intros Hx; inv_res;
      [operand|apply parses_nil].
Qed.

Lemma image_args_parses fs root image base a :
  image_args fs image base root = Ok a ->
  exists flag path rest, a = ["run"; flag; path] ++ rest /\ flag ∈ image_flags.*2 /\
    inside root path /\ fs_is_file fs path = true /\ parses (data_inside root) rest.
Proof.
  unfold image_args. intros H. inv_res.
  match goal with H : _resolve_input _ _ _ _ "image.path" = Ok ?p |- _ =>
    apply resolve_input_inside in H as [Hin Hfile]; exists x0, p end.
  eexists. split; [reflexivity|]. split; [|split; [done|split; [done|]]].
  - match goal with H : image_flag ?k = Ok _ |- _ => revert H; unfold image_flag; destruct k; try done end.
    destruct (dget _ image_flags) eqn:E; [|done]. intros [= <-]. by apply dget_some_value in E.
  - apply parses_app.
    + match goal with H : match dget_n "data_path" image with _ => _ end = Ok _ |- _ => revert H end.
      destruct (dget_n "data_path" image); intros Hd; inv_res; try apply parses_nil; try done.
      all: subst; match goal with H : _resolve_input _ _ _ _ _ = Ok _ |- _ =>
        apply resolve_input_inside in H as [? _] end; by operand.
    + eapply numeric_args_parses; [|done]. intros f Hf.
      assert (Hall : Forall (fun f => f ∉ switch_flags /\ f ∈ operand_flags /\ f <> "--data") image_numeric.*2)
        by flag_in.
      rewrite Forall_forall in Hall. by apply Hall.
Qed.

Lemma stubs_parses root l : parses (data_inside root) (List.flat_map (fun v => ["--stub"; py_str v]) l).
Proof.
  induction l as [|v l IH]; [apply parses_nil|].
  change (parses (data_inside root) (["--stub"; py_str v] ++ List.flat_map (fun v => ["--stub"; py_str v]) l)).
  apply parses_app; [operand|done].
Qed.


Definition ex_fs : files := Files Ok (fun _ => true).
Definition ex_job : dict value :=
  [("schema", VStr JOB_SCHEMA); ("id", VStr "j1");
   ("image", VDict [("path", VStr "a.bin"); ("kind", VStr "raw"); ("data_path", VStr "/jobs/b.bin"); ("code_base", VInt 4096)]);
   ("execution", VDict [("entry", VStr " 0x1000 "); ("trace", VBool true)]);
   ("registers", VDict [("r3", VInt 7); ("r31", VStr "--json")]);
   ("stubs", VList [VStr "ret@0x2000"]);
   ("dumps", VList [VDict [("address", VInt 0); ("size", VInt 4)]])].
Definition ex_args : list string := ok_or [] (build_run_args ex_fs ex_job "/jobs" (Some "/jobs")).

Example example_args :
  ex_args = ["run"; "--code"; "/jobs/a.bin"; "--data"; "/jobs/b.bin"; "--code-base"; "4096"; "--backend"; "auto";
             "--entry"; "0x1000"; "--trace"; "--set"; "r3=7"; "--set"; "r31=--json"; "--stub"; "ret@0x2000";
             "--dump"; "0:4"].
Proof. vm_compute. reflexivity. Qed.


(** ** Every job is answered *)

(** Exceptions that are turned into a refusal. *)
Definition raises_app {A} (r : res A) : Prop := forall e, r = Raise e -> exn_class e = AppError.

Lemma raises_app_bind {A B} (m : res A) (f : A -> res B) :
  raises_app m -> (forall a, m = Ok a -> raises_app (f a)) -> raises_app (m ≫= f).
Proof. intros Hm Hf e. destruct m as [a|e']; cbn; [by apply Hf|]. intros [= <-]. by apply Hm. Qed.
Lemma raises_app_Ok {A} (a : A) : raises_app (Ok a). Proof. done. Qed.
Lemma raises_app_error {A} msg : raises_app (app_error msg : res A). Proof. by intros e [= <-]. Qed.
Lemma raises_app_guard b msg : raises_app (guard_app b msg). Proof. destruct b; [done|apply raises_app_error]. Qed.
Lemma raises_app_fold {A S} (f : S -> A -> res S) l :
  (forall s x, raises_app (f s x)) -> forall s, raises_app (res_fold f s l).
Proof. intros Hf. induction l as [|x l IH]; intros s; cbn; [done|]. by apply raises_app_bind. Qed.
#[local] Hint Resolve raises_app_Ok raises_app_error raises_app_guard : ppc.

Ltac app_only :=
  repeat first
    [ progress auto with ppc
    | apply raises_app_bind; [|intros ? _]
    | apply raises_app_fold; intros
    | match goal with
      | |- raises_app (match ?x with _ => _ end) => destruct x
      | |- raises_app (let _ := _ in _) => cbv zeta
      end ].

Lemma string_number_app v f : raises_app (_string_number v f). Proof. unfold _string_number. app_only. Qed.
Lemma float_string_app v f : raises_app (_float_string v f). Proof. unfold _float_string. app_only. Qed.
Lemma expect_dict_app v f : raises_app (_expect_dict v f). Proof. unfold _expect_dict. app_only. Qed.
#[local] Hint Resolve string_number_app float_string_app expect_dict_app : ppc.

(** [image.kind] is a value Python can look up in a dictionary. *)
Definition hashable (v : value) : bool := negb (is_list v || is_dict v).
Definition kind_hashable (job : dict value) : Prop :=
  match dget_n "image" job with VDict image => hashable (dget_or "kind" (VStr "auto") image) = true | _ => True end.

(** [resolve(strict=True)] of the worker's files fails by not finding the file only. *)
Definition resolves (fs : files) : Prop :=
  forall p e, fs_resolve fs p = Raise e -> exn_class e = FileNotFoundError.

Lemma resolve_input_app fs v base root field : resolves fs -> raises_app (_resolve_input fs v base root field).
Proof.
  intros Hfs. unfold _resolve_input. destruct v; auto with ppc.
  apply raises_app_bind; [auto with ppc|intros _ _]. cbv zeta.
  apply raises_app_bind; [|intros; app_only].
  destruct (fs_resolve fs _) as [|e] eqn:E; [done|]. apply Hfs in E. unfold handled. rewrite E. cbn.
  apply raises_app_error.
Qed.

Lemma build_run_args_app fs job base root :
  resolves fs -> kind_hashable job -> raises_app (build_run_args fs job base root).
Proof.
  intros Hfs Hkind. unfold build_run_args.
  apply raises_app_bind; [auto with ppc|intros _ _]. cbv zeta.
  apply raises_app_bind; [auto with ppc|intros _ _].
  apply raises_app_bind; [auto with ppc|intros image Himage].
  apply raises_app_bind.
  - unfold image_args. apply raises_app_bind; [by apply resolve_input_app|intros path _].
    apply raises_app_bind; [|intros flag _].
    + assert (Hh : hashable (dget_or "kind" (VStr "auto") image) = true).
      { unfold kind_hashable in Hkind. destruct (dget_n "image" job); try discriminate Himage;
          injection Himage as <-; [done|exact Hkind]. }
      unfold image_flag. destruct (dget_or _ _ image); try discriminate Hh; app_only.
    + apply raises_app_bind; [|intros; unfold numeric_args; app_only].
      destruct (dget_n "data_path" image); try (apply raises_app_bind; [by apply resolve_input_app|done]). done.
  - intros a1 _. unfold execution_args, binding_args, gpr_name, fpr_name, bind_name, dump_arg, boolean_arg,
      numeric_args. app_only.
Qed.

(** The tool ran, exited with status 0 and left no unreadable document. *)
Definition clean (run : tool_run) : bool :=
  match run with
  | Exited rc _ _ result snapshot =>
      (rc =? 0) && match result with Some (Raise _) => false | _ => true end &&
      match snapshot with Some (Raise _) => false | _ => true end
  | TimedOut _ _ => false
  end.

(** The run a job leads to. *)
Definition job_run fs (job : value) ppc_lab temp base root (tool : list string -> res tool_run) : option tool_run :=
  match job with
  | VDict d => match build_run_args fs d base root with
               | Ok args => match tool ([ppc_lab] ++ args ++ ["--json"; temp +:+ "/result.json"; "--snapshot";
                                                              temp +:+ "/snapshot.json"]) with
                            | Ok run => Some run | Raise _ => None end
               | Raise _ => None
               end
  | _ => None
  end.


Definition ex_tool (c : list string) : res tool_run :=
  Ok (Exited 0 "" "" (Some (Ok (VDict [("stop_reason", VStr "return")]))) None).

(** ** The stream *)

Definition stream_lines (lines : list string) : list string :=
  List.filter (fun l => negb (str_empty l)) (str_strip <$> lines).

(** A worker whose jobs are all answered answers each non-blank line of the stream once, in
    order, malformed lines included, and exits with status 2 exactly when some line was not JSON. *)
Theorem stream_answers_each_line loads handle lines :
  (forall job, exists response, handle job = Ok response) ->
  let '(responses, fin) := worker_stream loads handle lines in
  Forall2 (fun line response =>
    match loads line with
    | Ok job => handle job = Ok response
    | Raise e => response = refused VNone ("invalid JSON: " +:+ exn_msg e)
    end) (stream_lines lines) responses /\
  (stream_status fin = 2 <-> exists line e, line ∈ stream_lines lines /\ loads line = Raise e) /\
  (stream_status fin = 0 \/ stream_status fin = 2).
Proof.
  intros Hh. unfold stream_lines. induction lines as [|raw lines IH]; cbn.
  { split; [constructor|]. split; [|by left]. split; [done|]. intros (?&?&Hin&_). by apply not_elem_of_nil in Hin. }
  destruct (str_empty (str_strip raw)) eqn:E; cbn [negb]; [exact IH|].
  destruct (worker_stream loads handle lines) as [responses fin].
  destruct IH as (HF&Hst&Hcase). destruct fin as [b|e]; [|by destruct Hcase].
  destruct (loads (str_strip raw)) as [job|e] eqn:El.
  - destruct (Hh job) as (r&Hr). rewrite Hr. cbn. split; [|split].
    + constructor; [|done]. by rewrite El.
    + rewrite Hst. split; intros (l&e&Hin&Hl); exists l, e; (split; [|done]); [by right|].
      apply elem_of_cons in Hin as [->|]; [congruence|done].
    + done.
  - cbn. split; [|split]; [|split; [intros _|done]|by right].
    + constructor; [|done]. by rewrite El.
    + exists (str_strip raw), e. split; [by left|done].
Qed.

Definition ex_loads (s : string) : res value :=
  if String.eqb s "{}" then Ok (VDict []) else Raise (Exn JSONDecodeError "Expecting value").
Lemma stream_answers_each_line_witness :
  stream_status (snd (worker_stream ex_loads (fun _ => Ok (refused VNone "no schema")) ["{}"; "  "; " oops"])) = 2.
Proof.
  pose proof (stream_answers_each_line ex_loads (fun _ => Ok (refused VNone "no schema")) ["{}"; "  "; " oops"]
                ltac:(intros job; eexists; reflexivity)) as H.
  destruct (worker_stream _ _ _) as [responses fin]. apply (proj1 (proj2 H)).
  exists "oops", (Exn JSONDecodeError "Expecting value"). split; [|reflexivity].
  apply list_elem_of_In. vm_compute. right. by left.
Defined.

(** ** What the model showed *)

(** A list as [image.kind] is not hashable: the exception is not a [JobError], so a single bad job
    ends a stream worker with the jobs behind it unanswered. *)
Example unhashable_kind_ends_the_stream :
  let bad := VDict [("schema", VStr JOB_SCHEMA); ("image", VDict [("path", VStr "a"); ("kind", VList [])])] in
  worker_stream (fun s => if String.eqb s "bad" then Ok bad else Ok (VDict []))
    (fun job => run_job ex_fs job "ppc-lab" "/tmp/t" "/jobs" None fzero false ex_tool) ["bad"; "next"] =
  ([], Raise (Exn TypeError "unhashable type: 'list'")).
Proof. vm_compute. reflexivity. Qed.
