(* ===== verification/Trace.v ===== *)
(** * Trace analysis ([scripts/ppc_trace_*.py])

    Capture of the textual trace, normalisation, dynamic basic blocks, coverage and call counts
    ([ppc_trace_intelligence.py]), the report and graph ([ppc_trace_analyze.py]) and the comparison of
    two traces ([ppc_trace_diff.py]). *)
From stdpp Require Import pretty.
From Stdlib Require Import SpecFloat Ascii.
From S2P Require Export PyValue.

(** ** Capturing a trace line *)

Definition is_hex (c : ascii) : bool := match digit_val 16 c with Some _ => true | None => false end.

(** [0x] and eight hexadecimal digits at the start of a string, with what follows. *)
Definition take_word (s : string) : option (string * string) :=
  let w := String.substring 0 10 s in
  if (String.length w =? 10)%nat && str_startswith "0x" w && str_forall is_hex (String.substring 2 8 w)
  then Some (w, String.substring 10 (String.length s - 10) s) else None.

Definition starts_space (s : string) : bool := match s with String c _ => is_space c | EmptyString => false end.

(** [HEAD]: two words, and the rest of the line. *)
Definition match_head (line : string) : option (string * string * string) :=
  match take_word line with
  | Some (pc, rest) =>
      if starts_space rest then
        match take_word (str_lstrip is_space rest) with
        | Some (insn, rest) =>
            if str_empty rest then Some (pc, insn, "")
            else if starts_space rest then Some (pc, insn, str_lstrip is_space rest) else None
        | None => None
        end
      else None
  | None => None
  end.

(** The string is [body ++ "]"] with a non-empty [body] without a closing bracket: that body. *)
Fixpoint closing (s : string) : option string :=
  match s with
  | String c EmptyString => if Ascii.eqb c "]" then Some EmptyString else None
  | String c s => if Ascii.eqb c "]" then None
                  else match closing s with Some b => Some (String c b) | None => None end
  | EmptyString => None
  end.

(** [TAIL]: the text before the first bracket that closes at the end of the line, and its content. *)
Fixpoint match_tail (s : string) : option (string * string) :=
  match s with
  | EmptyString => None
  | String c s' =>
      let later := match match_tail s' with Some (a, b) => Some (String c a, b) | None => None end in
      if Ascii.eqb c "[" then
        match closing s' with
        | Some EmptyString | None => later
        | Some body => Some (EmptyString, body)
        end
      else later
  end.

Record captured := Captured { cp_pc : string; cp_instruction : string; cp_disassembly : string; cp_symbol : string }.

Definition parse (line : string) : option captured :=
  match match_head line with
  | None => None
  | Some (pc, insn, rest) =>
      let rest := str_strip rest in
      let '(rest, sym) := match match_tail rest with
                          | Some (text, sym) => (str_strip text, str_strip sym)
                          | None => (rest, EmptyString)
                          end in
      Some (Captured (str_lower pc) (str_lower insn) rest sym)
  end.

(** The trace events of the tool's output, and the other non-blank lines. *)
Definition capture (lines : list string) : list captured * list string :=
  fold_left (fun acc line =>
    match parse line with
    | Some e => (fst acc ++ [e], snd acc)
    | None => if str_empty (str_strip line) then acc else (fst acc, snd acc ++ [line])
    end) lines ([], []).

(** ** Normalisation *)

Definition U32 : Z := 2 ^ 32.
(** [n & 0xffffffff] *)
Definition u32 (n : Z) : Z := Z.land n (U32 - 1).

Definition parse_u32 (v : value) : res Z :=
  match v with
  | VInt n => Ok (u32 n)
  | VBool b => Ok (u32 (if b then 1 else 0))
  | v => match int_of_string0 (py_str v) with
         | Some n => Ok (u32 n)
         | None => Raise (Exn ValueError "invalid literal for int() with base 0")
         end
  end.

Definition hex32 (n : Z) : string := "0x" +:+ hex_pad 8 (u32 n).

Definition mnemonic (disassembly : string) : string := str_lower (first_word (str_strip disassembly)).
Definition symbol_root (symbol : string) : string :=
  let symbol := str_strip symbol in
  if str_empty symbol then "<unknown>" else str_before "+0x" symbol.

Definition one_of (s : string) (l : list string) : bool := bool_decide (s ∈ l).
Definition is_control_transfer (mn : string) : bool :=
  negb (str_empty mn) && (str_startswith "b" mn || one_of mn ["sc"; "rfi"; "rfid"; "tw"; "twi"]).
Definition is_call (mn : string) : bool :=
  negb (str_empty mn) &&
  (one_of mn ["bl"; "bla"; "bctrl"; "blrl"; "bcl"; "bcla"; "bcctrl"; "bcctrl."] ||
   (str_startswith "b" mn && str_endswith "l" mn && negb (String.eqb mn "blr"))).
Definition is_return (mn : string) : bool := one_of mn ["blr"; "blrl"].

Record NormalEvent := Event {
  ev_index : Z; ev_pc : Z; ev_instruction : string; ev_disassembly : string; ev_symbol : string
}.
Definition ev_mnemonic (e : NormalEvent) : string := mnemonic (ev_disassembly e).
Definition ev_function (e : NormalEvent) : string := symbol_root (ev_symbol e).

Definition normalize_event (index : Z) (raw : value) : list NormalEvent :=
  match raw with
  | VDict d =>
      if is_none (dget_n "pc" d) then []
      else match parse_u32 (dget_n "pc" d) with
           | Raise _ => []
           | Ok pc => [Event index pc (str_lower (py_str (dget_or "instruction" (VStr "") d)))
                         (str_strip (py_str (dget_or "disassembly" (VStr "") d)))
                         (str_strip (py_str (dget_or "symbol" (VStr "") d)))]
           end
  | _ => []
  end.

Definition normalize_events (trace : value) : res (list NormalEvent) :=
  events ← vget_or "events" (VList []) trace;
  l ← viter events;
  Ok (List.flat_map (fun '(i, raw) => normalize_event i raw) (enumerate l)).

(** ** Dynamic blocks *)

Abbreviation block := (list NormalEvent).
Abbreviation key := (Z * Z * list Z)%type.

Definition first_pc (b : block) : Z := match b with e :: _ => ev_pc e | [] => 0 end.
Definition last_event (b : block) : option NormalEvent := last b.
Definition last_pc (b : block) : Z := match last_event b with Some e => ev_pc e | None => 0 end.
Definition last_mnemonic (b : block) : string :=
  match last_event b with Some e => ev_mnemonic e | None => "" end.
Definition last_function (b : block) : string :=
  match last_event b with Some e => ev_function e | None => "" end.

Definition _block_key (b : block) : key := (first_pc b, last_pc b, ev_pc <$> b).

(** The block ends after [e] when the rest of the trace is [rest]. *)
Definition ends_block (e : NormalEvent) (rest : list NormalEvent) : bool :=
  is_control_transfer (ev_mnemonic e) ||
  match rest with
  | [] => true
  | nxt :: _ => negb (ev_pc nxt =? u32 (ev_pc e + 4))
  end.

Fixpoint split_from (current : block) (events : list NormalEvent) : list block :=
  match events with
  | [] => match current with [] => [] | _ => [current] end
  | e :: rest =>
      if ends_block e rest then (current ++ [e]) :: split_from [] rest
      else split_from (current ++ [e]) rest
  end.
Definition split_dynamic_blocks (events : list NormalEvent) : list block := split_from [] events.

(** ** Analysis *)

Record block_row := BlockRow {
  br_id : string; br_start : string; br_end : string; br_instruction_count : Z; br_executions : Z;
  br_symbol : string; br_function : string; br_terminator : string; br_pcs : list string
}.
Record edge_row := EdgeRow { er_source : string; er_target : string; er_kind : string; er_count : Z }.
Record call_row := CallRow {
  cr_caller : string; cr_callee : string; cr_site : string; cr_target : string; cr_count : Z
}.
Record hot_row := HotRow {
  hr_pc : string; hr_count : Z; hr_instruction : string; hr_disassembly : string; hr_symbol : string;
  hr_function : string
}.
Record summary_row := SummaryRow {
  sr_events : Z; sr_unique_pcs : Z; sr_unique_instruction_words : Z; sr_unique_mnemonics : Z;
  sr_dynamic_blocks : Z; sr_unique_blocks : Z; sr_unique_edges : Z; sr_call_edges : Z;
  sr_address_min : option string; sr_address_max : option string; sr_address_span_bytes : Z;
  sr_covered_bytes : Z; sr_coverage_density : float
}.
Record analysis := Analysis {
  an_source_schema : value; an_source_exit_code : value; an_summary : summary_row;
  an_hot_pcs : list hot_row; an_functions : list (string * Z); an_mnemonics : list (string * Z);
  an_blocks : list block_row; an_edges : list edge_row; an_calls : list call_row
}.

Definition block_name (idx : Z) : string := "b" +:+ zpad 4 idx.
Definition len {A} (l : list A) : Z := Z.of_nat (length l).

Definition nonempty (l : list string) : list string := List.filter (fun s => negb (str_empty s)) l.

Definition edge_kind (l r : block) : string :=
  let term := last_mnemonic l in
  if is_call term then "call"
  else if is_return term then "return"
  else if is_control_transfer term || negb (first_pc r =? u32 (last_pc l + 4)) then "branch"
  else "fallthrough".

(** The consecutive pairs of a list. *)
Definition pairs {A} (l : list A) : list (A * A) := match l with [] => [] | _ :: t => zip l t end.

Definition block_counts (dyn : list block) : list (key * Z) := counter (_block_key <$> dyn).
Definition block_first (dyn : list block) : list (key * block) :=
  fold_left (fun d b => asetdefault (_block_key b) b d) dyn [].
(** The unique blocks in the order of the report. *)
Definition block_order (dyn : list block) : list (key * Z) :=
  py_sorted (fun x : key * Z => (- snd x, fst (fst (fst x)), snd (fst (fst x)))) (block_counts dyn).

Definition block_of (dyn : list block) (idx : Z) (kc : key * Z) : block_row :=
  let b := default [] (aget (fst kc) (block_first dyn)) in
  BlockRow (block_name idx) (hex32 (first_pc b)) (hex32 (last_pc b)) (len b) (snd kc)
    (match b with e :: _ => ev_symbol e | [] => "" end) (match b with e :: _ => ev_function e | [] => "" end)
    (last_mnemonic b) (hex32 <$> (ev_pc <$> b)).
Definition block_rows (dyn : list block) : list block_row :=
  (fun '(idx, kc) => block_of dyn idx kc) <$> enumerate (block_order dyn).
Definition block_ids (dyn : list block) : list (key * string) :=
  (fun '(idx, kc) => (fst kc, block_name idx)) <$> enumerate (block_order dyn).

Definition edge_counts (dyn : list block) : list (key * key * string * Z) :=
  counter ((fun '(l, r) => (_block_key l, _block_key r, edge_kind l r)) <$> pairs dyn).
Definition edge_rows (dyn : list block) : list edge_row :=
  (fun '(s, d, k, c) =>
     EdgeRow (default "" (aget s (block_ids dyn))) (default "" (aget d (block_ids dyn))) k c)
    <$> py_sorted (fun '(s, d, k, c) => (- c, fst (fst s), fst (fst d), k)) (edge_counts dyn).

Definition call_counts (dyn : list block) : list (string * string * Z * Z * Z) :=
  counter ((fun '(l, r) => (last_function l, match r with e :: _ => ev_function e | [] => "" end,
                            last_pc l, first_pc r))
             <$> List.filter (fun '(l, r) => String.eqb (edge_kind l r) "call") (pairs dyn)).
Definition call_rows (dyn : list block) : list call_row :=
  (fun '(a, b, site, target, c) => CallRow a b (hex32 site) (hex32 target) c)
    <$> py_sorted (fun '(a, b, site, target, c) => (- c, (a, b, site, target))) (call_counts dyn).

Definition first_events (events : list NormalEvent) : list (Z * NormalEvent) :=
  fold_left (fun d e => asetdefault (ev_pc e) e d) events [].
Definition hot_rows (events : list NormalEvent) : list hot_row :=
  (fun '(pc, count) =>
     let e := default (Event 0 0 "" "" "") (aget pc (first_events events)) in
     HotRow (hex32 pc) count (ev_instruction e) (ev_disassembly e) (ev_symbol e) (ev_function e))
    <$> most_common (counter (ev_pc <$> events)).

Definition analyze_events (schema exit_code : value) (events : list NormalEvent) : analysis :=
  let pc_counts := counter (ev_pc <$> events) in
  let instr_counts := counter (nonempty (ev_instruction <$> events)) in
  let mnemonic_counts := counter (nonempty (ev_mnemonic <$> events)) in
  let function_counts := counter (ev_function <$> events) in
  let dyn := split_dynamic_blocks events in
  let blocks := block_rows dyn in
  let edges := edge_rows dyn in
  let calls := call_rows dyn in
  let pcs := py_sorted id pc_counts.*1 in
  let '(lo, hi, span, covered, density) :=
    match pcs with
    | [] => (0, 0, 0, 0, fzero)
    | lo :: _ =>
        let hi := default 0 (last pcs) in
        let span := (hi - lo) + 4 in
        let covered := len pcs * 4 in
        (lo, hi, span, covered, ratio covered span)
    end in
  Analysis schema exit_code
    (SummaryRow (len events) (len pcs) (len instr_counts) (len mnemonic_counts) (len dyn) (len blocks)
       (len edges) (foldr (fun x s => cr_count x + s) 0 calls)
       (match pcs with [] => None | _ => Some (hex32 lo) end)
       (match pcs with [] => None | _ => Some (hex32 hi) end) span covered density)
    (hot_rows events) (most_common function_counts) (most_common mnemonic_counts) blocks edges calls.

Definition analyze_trace (trace : value) : res analysis :=
  events ← normalize_events trace;
  schema ← vget "schema" trace;
  exit_code ← vget "exit_code" trace;
  Ok (analyze_events schema exit_code events).

Definition analysis_pc_counts (a : analysis) : list (string * Z) :=
  fold_left (fun d x => aset (hr_pc x) (hr_count x) d) (an_hot_pcs a) [].
Definition analysis_function_counts (a : analysis) : list (string * Z) :=
  fold_left (fun d x => aset (fst x) (snd x) d) (an_functions a) [].
Definition analysis_call_counts (a : analysis) : list (string * string * string * string * Z) :=
  fold_left (fun d x => aset (cr_caller x, cr_callee x, cr_site x, cr_target x) (cr_count x) d) (an_calls a) [].

(** ** The report and the graph *)

Fixpoint esc (s : string) : string :=
  match s with
  | EmptyString => EmptyString
  | String c s =>
      if Ascii.eqb c "\" || Ascii.eqb c (ascii_of_nat 34) then String "\" (String c (esc s))
      else String c (esc s)
  end.

Definition dq (s : string) : string := quote_char +:+ s +:+ quote_char.
(** The lines of the [.dot] file; [\n] inside a label is a backslash and an n, escaped again. *)
Definition write_dot (a : analysis) : list string :=
  ["digraph ppc_lab_trace {"; "  rankdir=TB;"; "  node [shape=box,fontname=monospace];"] ++
  ((fun b =>
      let label := br_start b +:+ ".." +:+ br_end b +:+ "\n" +:+ br_function b +:+ "\nexec=" +:+
                   pretty (br_executions b) +:+ " insn=" +:+ pretty (br_instruction_count b) in
      "  " +:+ br_id b +:+ " [label=" +:+ dq (esc label) +:+ "];") <$> an_blocks a) ++
  ((fun e => "  " +:+ er_source e +:+ " -> " +:+ er_target e +:+ " [label=" +:+
             dq (er_kind e +:+ " x" +:+ pretty (er_count e)) +:+ "];") <$> an_edges a) ++
  ["}"].

Definition report (a : analysis) (top : Z) : list string :=
  let s := an_summary a in
  let n := Z.to_nat (Z.max 0 top) in
  ["PPC Lab trace analysis";
   "events=" +:+ pretty (sr_events s) +:+ " unique_pcs=" +:+ pretty (sr_unique_pcs s) +:+ " covered_bytes=" +:+
   pretty (sr_covered_bytes s) +:+ " density=" +:+ float_fixed 4 (sr_coverage_density s);
   "dynamic_blocks=" +:+ pretty (sr_dynamic_blocks s) +:+ " unique_blocks=" +:+ pretty (sr_unique_blocks s) +:+
   " unique_edges=" +:+ pretty (sr_unique_edges s) +:+ " call_edges=" +:+ pretty (sr_call_edges s);
   ""; "Hot PCs:"] ++
  ((fun x => "  " +:+ pad_left 8 (pretty (hr_count x)) +:+ "  " +:+ hr_pc x +:+ "  " +:+ hr_disassembly x +:+
             (if str_empty (hr_symbol x) then "" else " [" +:+ hr_symbol x +:+ "]")) <$> take n (an_hot_pcs a)) ++
  [""; "Hot functions:"] ++
  ((fun x => "  " +:+ pad_left 8 (pretty (snd x)) +:+ "  " +:+ fst x) <$> take n (an_functions a)) ++
  match an_calls a with
  | [] => []
  | calls => [""; "Observed calls:"] ++
      ((fun x => "  " +:+ pad_left 8 (pretty (cr_count x)) +:+ "  " +:+ cr_caller x +:+ " -> " +:+ cr_callee x +:+
                 " @ " +:+ cr_site x +:+ " -> " +:+ cr_target x) <$> take n calls)
  end.

(** ** Comparing two traces *)

Section rows.
Context {K : Type} `{EqDecision K} `{PyOrd K}.

Record delta_row := DeltaRow { dr_key : K; dr_left : Z; dr_right : Z; dr_delta : Z }.

(** [sorted(set(l) | set(r))] *)
Definition all_keys (l r : list (K * Z)) : list K := py_sorted id (remove_dups (l.*1 ++ r.*1)).

Definition rows (l r : list (K * Z)) : list delta_row :=
  let out := List.flat_map (fun k =>
    let a := default 0 (aget k l) in
    let b := default 0 (aget k r) in
    if a =? b then [] else [DeltaRow k a b (b - a)]) (all_keys l r) in
  py_sorted (fun x => (- Z.abs (dr_delta x), dr_key x)) out.
End rows.
Arguments delta_row K : clear implicits.

(** The call rows are ordered by site and target only, after the size of the change. *)
Definition call_deltas (l r : list (string * string * string * string * Z)) :
    list (delta_row (string * string * string * string)) :=
  let out := List.flat_map (fun k =>
    let a := default 0 (aget k l) in
    let b := default 0 (aget k r) in
    if a =? b then [] else [DeltaRow k a b (b - a)]) (all_keys l r) in
  py_sorted (fun x => (- Z.abs (dr_delta x), snd (fst (dr_key x)), snd (dr_key x))) out.

Record trace_diff := TraceDiff {
  td_equal : bool; td_left_unique : Z; td_right_unique : Z; td_shared : Z; td_union : Z; td_jaccard : float;
  td_only_left : list string; td_only_right : list string; td_pcs : list (delta_row string);
  td_functions : list (delta_row string); td_calls : list (delta_row (string * string * string * string));
  td_left_summary : summary_row; td_right_summary : summary_row
}.

Definition is_nil {A} (l : list A) : bool := match l with [] => true | _ => false end.

Definition diff_traces (la ra : analysis) : trace_diff :=
  let lp := analysis_pc_counts la in
  let rp := analysis_pc_counts ra in
  let ls := lp.*1 in
  let rs := rp.*1 in
  let u := remove_dups (ls ++ rs) in
  let i := List.filter (fun k => one_of k rs) ls in
  let pd := rows lp rp in
  let fd := rows (analysis_function_counts la) (analysis_function_counts ra) in
  let cd := call_deltas (analysis_call_counts la) (analysis_call_counts ra) in
  TraceDiff (is_nil pd && is_nil fd && is_nil cd) (len ls) (len rs) (len i) (len u)
    (match u with [] => ratio 1 1 | _ => ratio (len i) (len u) end)
    (py_sorted id (List.filter (fun k => negb (one_of k rs)) ls))
    (py_sorted id (List.filter (fun k => negb (one_of k ls)) rs))
    pd fd cd (an_summary la) (an_summary ra).

(** The exit status of [ppc_trace_diff.py]. *)
Definition diff_status (fail_on_diff : bool) (d : trace_diff) : Z := if fail_on_diff && negb (td_equal d) then 1 else 0.
