(* ===== verification/TraceProps.v ===== *)
(** * The properties of the trace analysis *)
From stdpp Require Import pretty.
From Stdlib Require Import SpecFloat Ascii.
From S2P Require Import Trace.

(** ** Dynamic blocks *)

(** [b] follows [a] in memory and [a] does not transfer control. *)
Definition falls_through (a b : NormalEvent) : Prop :=
  is_control_transfer (ev_mnemonic a) = false /\ ev_pc b = u32 (ev_pc a + 4).

(** A block is not empty and runs straight through. *)
Fixpoint straight (b : block) : Prop :=
  match b with
  | [] => False
  | [e] => True
  | e :: ((e' :: _) as rest) => falls_through e e' /\ straight rest
  end.

Lemma straight_snoc cur e :
  straight (cur ++ [e]) <-> match last cur with Some a => straight cur /\ falls_through a e | None => True end.
Proof.
  induction cur as [|a cur IH]; [done|]. destruct cur as [|a' cur]; [cbn; tauto|].
  change (last (a :: a' :: cur)) with (last (a' :: cur)).
  change (straight ((a :: a' :: cur) ++ [e])) with (falls_through a a' /\ straight ((a' :: cur) ++ [e])).
  rewrite IH. change (straight (a :: a' :: cur)) with (falls_through a a' /\ straight (a' :: cur)).
  destruct (last (a' :: cur)) eqn:El; [tauto|]. by apply last_None in El.
Qed.

(** Between two blocks the code either transferred control or jumped. *)
Fixpoint maximal (bs : list block) : Prop :=
  match bs with
  | b :: ((b' :: _) as rest) =>
      (forall a e, last b = Some a -> head b' = Some e -> ~ falls_through a e) /\ maximal rest
  | _ => True
  end.

Lemma ends_block_false e nxt rest : ends_block e (nxt :: rest) = false <-> falls_through e nxt.
Proof.
  unfold ends_block, falls_through. rewrite orb_false_iff, negb_false_iff, Z.eqb_eq. done.
Qed.

Lemma split_from_nil current : split_from current [] = match current with [] => [] | _ => [current] end.
Proof. done. Qed.

Definition joins (current : block) (events : list NormalEvent) : Prop :=
  match last current, events with Some a, e :: _ => falls_through a e | _, _ => True end.

Lemma split_from_spec events current :
  (current = [] \/ straight current) -> joins current events -> (current <> [] -> events <> []) ->
  concat (split_from current events) = current ++ events /\
  Forall straight (split_from current events) /\ maximal (split_from current events) /\
  (forall b, head (split_from current events) = Some b -> exists e, head b = Some e /\ head (current ++ events) = Some e).
Proof.
  revert current. induction events as [|e rest IH]; intros current Hs Hj Hne.
  { destruct current; [|by exfalso; apply Hne]. cbn. repeat split; try done. }
  assert (Hstr : straight (current ++ [e])).
  { apply straight_snoc. destruct (last current) eqn:El; [|done]. split.
    - destruct Hs as [->|Hs]; [done|exact Hs].
    - unfold joins in Hj. by rewrite El in Hj. }
  cbn [split_from]. destruct (ends_block e rest) eqn:He.
  - destruct (IH [] (or_introl eq_refl) ltac:(done) ltac:(done)) as (Hc&Hf&Hm&Hh).
    cbn [concat]. rewrite Hc. cbn [app]. split; [by rewrite <- app_assoc|].
    split; [by constructor|]. split.
    + destruct (split_from [] rest) as [|b' bs] eqn:Eb; [done|].
      change ((forall a e0, last (current ++ [e]) = Some a -> head b' = Some e0 -> ~ falls_through a e0) /\ maximal (b' :: bs)).
      split; [|done]. intros a e' Ha He' Hft. rewrite last_snoc in Ha. injection Ha as <-.
      destruct (Hh b' eq_refl) as (e0&H1&H2). rewrite He' in H1. injection H1 as <-.
      destruct rest as [|nxt rest]; [done|]. injection H2 as ->.
      apply (ends_block_false e e' rest) in Hft. congruence.
    + intros b [= <-]. destruct current as [|a current]; cbn; eauto.
  - destruct rest as [|nxt rest]; [by unfold ends_block in He; rewrite orb_true_r in He|].
    destruct (IH (current ++ [e]) (or_intror Hstr)) as (Hc&Hf&Hm&Hh).
    + unfold joins. rewrite last_snoc. by apply ends_block_false in He.
    + done.
    + rewrite Hc, <- app_assoc. split; [done|]. split; [done|]. split; [done|].
      intros b Hb. destruct (Hh b Hb) as (x&H1&H2). exists x. split; [done|]. by rewrite <- app_assoc in H2.
Qed.

(** The dynamic blocks of a trace are its events cut, in order, into non-empty straight-line runs
    (each event at the previous address plus four, modulo 2^32, with no control transfer inside), and
    the cuts are only where control was transferred or the addresses jump. *)
Theorem split_dynamic_blocks_spec events :
  concat (split_dynamic_blocks events) = events /\ Forall straight (split_dynamic_blocks events) /\
  maximal (split_dynamic_blocks events).
Proof.
  destruct (split_from_spec events [] (or_introl eq_refl) I ltac:(done)) as (Hc&Hf&Hm&_). done.
Qed.

(** ** Counts *)

Fixpoint sum_over {A} (w : A -> Z) (l : list A) : Z :=
  match l with [] => 0 | x :: l => w x + sum_over w l end.

Lemma foldr_sum_over {A} (w : A -> Z) l : foldr (fun x s => w x + s) 0 l = sum_over w l.
Proof. induction l; cbn; congruence. Qed.

Lemma sum_over_fmap {A B} (f : A -> B) w l : sum_over w (f <$> l) = sum_over (fun x => w (f x)) l.
Proof. induction l; cbn; [done|]. by rewrite <- IHl. Qed.

Lemma sum_over_ext {A} (w w' : A -> Z) l : (forall x, x ∈ l -> w x = w' x) -> sum_over w l = sum_over w' l.
Proof. induction l as [|x l IH]; intros H; cbn; [done|]. rewrite IH, H; [done|by left|intros y Hy; apply H; by right]. Qed.

Lemma sum_over_perm {A} (w : A -> Z) l l' : l ≡ₚ l' -> sum_over w l = sum_over w l'.
Proof. induction 1; cbn; lia. Qed.

Lemma sum_over_one {A} (l : list A) : sum_over (fun _ => 1) l = len l.
Proof. unfold len. induction l as [|x l IH]; [done|]. cbn [sum_over length]. lia. Qed.

Lemma ctotal_sum_over {K} (w : K -> Z) c : ctotal w c = sum_over (fun kn => w (fst kn) * snd kn) c.
Proof. apply foldr_sum_over. Qed.

Lemma ctotal_one {K} (c : list (K * Z)) : ctotal (fun _ => 1) c = sum_over snd c.
Proof. rewrite ctotal_sum_over. apply sum_over_ext. intros x _. lia. Qed.

Lemma enumerate_snd {A} (l : list A) i : (enumerate_from i l).*2 = l.
Proof. unfold enumerate_from. apply snd_zip. by rewrite length_imap. Qed.

Lemma sum_over_enumerate {A} (w : A -> Z) (l : list A) :
  sum_over (fun p => w (snd p)) (enumerate l) = sum_over w l.
Proof. rewrite <- (sum_over_fmap snd). unfold enumerate. by rewrite enumerate_snd. Qed.

(** The block a key stands for has that key. *)
Lemma block_first_aget (dyn : list block) acc k b :
  (forall k b, aget k acc = Some b -> _block_key b = k) ->
  aget k (fold_left (fun d b => asetdefault (_block_key b) b d) dyn acc) = Some b -> _block_key b = k.
Proof.
  revert acc. induction dyn as [|b0 dyn IH]; intros acc Hacc; cbn [fold_left]; [apply Hacc|].
  apply IH. intros k' b'. unfold asetdefault. destruct (aget (_block_key b0) acc) eqn:E; [apply Hacc|].
  assert (Happ : forall acc, aget k' (acc ++ [(_block_key b0, b0)]) =
    match aget k' acc with Some v => Some v | None => if decide (k' = _block_key b0) then Some b0 else None end).
  { clear. induction acc as [|[x v] acc IH]; [done|]. cbn. by destruct (decide (k' = x)). }
  rewrite Happ. destruct (aget k' acc) eqn:E'; [intros [= <-]; by apply Hacc|].
  destruct (decide _) as [->|]; [by intros [= <-]|done].
Qed.

Lemma aget_app_some {K V} `{EqDecision K} (k : K) (d d' : list (K * V)) v :
  aget k d = Some v -> aget k (d ++ d') = Some v.
Proof. induction d as [|[x w] d IH]; cbn; [done|]. by destruct (decide (k = x)). Qed.

Lemma block_first_total (dyn : list block) acc k :
  (k ∈ _block_key <$> dyn \/ aget k acc <> None) ->
  aget k (fold_left (fun d b => asetdefault (_block_key b) b d) dyn acc) <> None.
Proof.
  revert acc. induction dyn as [|b0 dyn IH]; intros acc; cbn [fold_left fmap list_fmap].
  { intros [Hin|]; [by apply not_elem_of_nil in Hin|done]. }
  intros H. apply IH. rewrite elem_of_cons in H. unfold asetdefault.
  destruct (aget (_block_key b0) acc) eqn:E.
  - destruct H as [[->|H]|H]; [right; congruence|by left|by right].
  - destruct H as [[->|H]|H]; [right|by left|right].
    + clear. induction acc as [|[x v] acc IH]; cbn; (destruct (decide _) as [|Hn]; [done|]); [by destruct Hn|done].
    + destruct (aget k acc) eqn:E'; [|done]. by rewrite (aget_app_some _ _ _ _ E').
Qed.

Lemma block_of_key (dyn : list block) k :
  k ∈ _block_key <$> dyn -> _block_key (default [] (aget k (block_first dyn))) = k.
Proof.
  intros Hk. unfold block_first. pose proof (block_first_total dyn [] k (or_introl Hk)) as Ht.
  destruct (aget k _) as [b|] eqn:E; [|done]. cbn [default].
  refine (block_first_aget dyn [] k b _ E). intros ?? [=].
Qed.

Lemma key_length b : len (snd (_block_key b)) = len b.
Proof. unfold len, _block_key. cbn. by rewrite length_fmap. Qed.

Lemma length_concat_sum {A} (l : list (list A)) : len (concat l) = sum_over len l.
Proof. induction l as [|x l IH]; [done|]. cbn. unfold len in *. rewrite length_app. cbn. lia. Qed.

(** The counts of an analysis add up: the executions of the unique blocks are the dynamic blocks,
    their executions times their lengths are the events of the trace, the hot addresses and the
    functions account for every event, and there is one hot row per distinct address. *)
Theorem analysis_counts_add_up schema exit_code events :
  let a := analyze_events schema exit_code events in
  sum_over br_executions (an_blocks a) = sr_dynamic_blocks (an_summary a) /\
  sum_over (fun b => br_executions b * br_instruction_count b) (an_blocks a) = sr_events (an_summary a) /\
  sum_over hr_count (an_hot_pcs a) = sr_events (an_summary a) /\
  sum_over snd (an_functions a) = sr_events (an_summary a) /\
  len (an_hot_pcs a) = sr_unique_pcs (an_summary a).
Proof.
  intros a. set (dyn := split_dynamic_blocks events).
  assert (Hev : sr_events (an_summary a) = len events) by (unfold a, analyze_events; by destruct (py_sorted _ _)).
  assert (Hdyn : sr_dynamic_blocks (an_summary a) = len dyn) by (unfold a, analyze_events; by destruct (py_sorted _ _)).
  assert (Hbl : an_blocks a = block_rows dyn) by (unfold a, analyze_events; by destruct (py_sorted _ _)).
  assert (Hhot : an_hot_pcs a = hot_rows events) by (unfold a, analyze_events; by destruct (py_sorted _ _)).
  assert (Hfun : an_functions a = most_common (counter (ev_function <$> events)))
    by (unfold a, analyze_events; by destruct (py_sorted _ _)).
  assert (Hpcs : sr_unique_pcs (an_summary a) = len (py_sorted id (counter (ev_pc <$> events)).*1))
    by (unfold a, analyze_events; by destruct (py_sorted _ _)).
  rewrite Hev, Hdyn, Hbl, Hhot, Hfun, Hpcs.
  assert (Hcount : forall (w : key -> Z), ctotal w (block_order dyn) = sum_over w (_block_key <$> dyn)).
  { intros w. unfold block_order. rewrite (ctotal_perm w _ _ (py_sorted_perm _ _)). unfold block_counts. by rewrite ctotal_counter, foldr_sum_over. }
  assert (Hmap : forall w, sum_over w (block_rows dyn) = sum_over (fun p => w (block_of dyn (fst p) (snd p))) (enumerate (block_order dyn))).
  { intros w. unfold block_rows. rewrite sum_over_fmap. apply sum_over_ext. by intros [i kc] _. }
  repeat split.
  - rewrite Hmap. rewrite <- (sum_over_one dyn), <- (sum_over_fmap _block_key (fun _ => 1)), <- Hcount, ctotal_one.
    symmetry. rewrite <- sum_over_enumerate. symmetry. apply sum_over_ext. by intros [i kc] _.
  - rewrite Hmap. destruct (split_dynamic_blocks_spec events) as [Hc _]. fold dyn in Hc.
    rewrite <- Hc at 1. rewrite length_concat_sum.
    rewrite (sum_over_ext len (fun b => len (snd (_block_key b)))) by (intros; by rewrite key_length).
    rewrite <- (sum_over_fmap _block_key (fun k => len (snd k))), <- Hcount, ctotal_sum_over.
    symmetry. rewrite <- sum_over_enumerate. symmetry. apply sum_over_ext. intros [i kc] Hin. cbn [fst snd].
    unfold block_of. cbn [br_executions br_instruction_count]. rewrite Z.mul_comm. f_equal.
    rewrite <- key_length, block_of_key; [done|].
    apply (proj2 (counter_keys _)). fold (block_counts dyn).
    assert (Hkc : kc ∈ block_order dyn).
    { rewrite <- (enumerate_snd (block_order dyn) 0). apply list_elem_of_fmap. by exists (i, kc). }
    apply elem_of_py_sorted in Hkc. apply list_elem_of_fmap. by exists kc.
  - unfold hot_rows. rewrite sum_over_fmap.
    rewrite (sum_over_ext _ snd) by (by intros [pc c] _). unfold most_common.
    rewrite (sum_over_perm _ _ _ (py_sorted_perm _ _)), <- ctotal_one, ctotal_counter.
    rewrite foldr_sum_over, sum_over_one. unfold len. by rewrite length_fmap.
  - unfold most_common. rewrite (sum_over_perm _ _ _ (py_sorted_perm _ _)), <- ctotal_one, ctotal_counter.
    rewrite foldr_sum_over, sum_over_one. unfold len. by rewrite length_fmap.
  - unfold hot_rows, most_common, len. by rewrite length_fmap, !length_py_sorted, length_fmap.
Qed.

(** ** Comparison *)

Lemma elem_of_all_keys {K} `{EqDecision K, PyOrd K} (l r : list (K * Z)) k : k ∈ all_keys l r <-> k ∈ l.*1 \/ k ∈ r.*1.
Proof. unfold all_keys. rewrite elem_of_py_sorted, elem_of_remove_dups, elem_of_app. done. Qed.

Lemma aget_not_in {K V} `{EqDecision K} (k : K) (d : list (K * V)) : k ∉ d.*1 -> aget k d = None.
Proof.
  induction d as [|[k' v] d IH]; cbn; [done|]. rewrite not_elem_of_cons. intros [Hk Hd].
  destruct (decide (k = k')); [done|auto].
Qed.

(** The counts two counters give to a key. *)
Definition count_of {K} `{EqDecision K} (k : K) (c : list (K * Z)) : Z := default 0 (aget k c).

Definition delta_list {K} `{EqDecision K, PyOrd K} (l r : list (K * Z)) : list (delta_row K) :=
  List.flat_map (fun k =>
    let a := default 0 (aget k l) in
    let b := default 0 (aget k r) in
    if a =? b then [] else [DeltaRow k a b (b - a)]) (all_keys l r).

Lemma elem_of_delta_list {K} `{EqDecision K, PyOrd K} (l r : list (K * Z)) x :
  x ∈ delta_list l r <->
  dr_left x = count_of (dr_key x) l /\ dr_right x = count_of (dr_key x) r /\
  dr_delta x = dr_right x - dr_left x /\ dr_left x <> dr_right x.
Proof.
  unfold delta_list, count_of. rewrite list_elem_of_In, in_flat_map. split.
  - intros (k&_&Hx). cbv zeta in Hx. destruct (_ =? _) eqn:E; [done|]. apply Z.eqb_neq in E.
    destruct Hx as [<-|[]]. done.
  - destruct x as [k a b d]. cbn. intros (->&->&->&Hne). exists k. split.
    + rewrite <- list_elem_of_In, elem_of_all_keys.
      destruct (decide (k ∈ l.*1)) as [|Hl]; [by left|]. destruct (decide (k ∈ r.*1)) as [|Hr]; [by right|].
      rewrite !aget_not_in in Hne by done. done.
    + apply Z.eqb_neq in Hne. rewrite Hne. by left.
Qed.

Lemma delta_list_nil {K} `{EqDecision K, PyOrd K} (l r : list (K * Z)) :
  delta_list l r = [] <-> forall k, count_of k l = count_of k r.
Proof.
  split.
  - intros Hnil k. destruct (decide (count_of k l = count_of k r)) as [|Hne]; [done|]. exfalso.
    assert (Hin : DeltaRow k (count_of k l) (count_of k r) (count_of k r - count_of k l) ∈ delta_list l r)
      by (by apply elem_of_delta_list).
    rewrite Hnil in Hin. by apply not_elem_of_nil in Hin.
  - intros Heq. destruct (delta_list l r) as [|x l'] eqn:E; [done|]. exfalso.
    assert (Hin : x ∈ delta_list l r) by (rewrite E; by left).
    apply elem_of_delta_list in Hin as (Hl&Hr&_&Hne). apply Hne. by rewrite Hl, Hr.
Qed.

Lemma is_nil_sorted {A K} `{PyOrd K} (key : A -> K) l : is_nil (py_sorted key l) = true <-> l = [].
Proof.
  split; [|by intros ->]. intros Hn. destruct (py_sorted key l) as [|x l'] eqn:E; [|done].
  pose proof (py_sorted_perm key l) as Hp. rewrite E in Hp. by apply Permutation_nil in Hp.
Qed.

(** Two analyses are reported equal, and the comparison exits with 0 under [--fail-on-diff],
    exactly when they give every address, function and call the same count; otherwise the rows list
    exactly the keys whose counts differ, with both counts and their difference. *)
Theorem trace_diff_exact la ra :
  (td_equal (diff_traces la ra) = true <->
     (forall pc, count_of pc (analysis_pc_counts la) = count_of pc (analysis_pc_counts ra)) /\
     (forall f, count_of f (analysis_function_counts la) = count_of f (analysis_function_counts ra)) /\
     (forall c, count_of c (analysis_call_counts la) = count_of c (analysis_call_counts ra))) /\
  (diff_status true (diff_traces la ra) = 0 <-> td_equal (diff_traces la ra) = true) /\
  (forall x, x ∈ td_pcs (diff_traces la ra) <->
     dr_left x = count_of (dr_key x) (analysis_pc_counts la) /\
     dr_right x = count_of (dr_key x) (analysis_pc_counts ra) /\
     dr_delta x = dr_right x - dr_left x /\ dr_left x <> dr_right x).
Proof.
  split; [|split].
  - unfold diff_traces. cbn [td_equal]. rewrite !andb_true_iff. unfold rows, call_deltas. cbv zeta.
    rewrite !is_nil_sorted. fold (delta_list (analysis_pc_counts la) (analysis_pc_counts ra)).
    fold (delta_list (analysis_function_counts la) (analysis_function_counts ra)).
    fold (delta_list (analysis_call_counts la) (analysis_call_counts ra)).
    rewrite !delta_list_nil. tauto.
  - unfold diff_status. destruct (td_equal _); done.
  - intros x. unfold diff_traces. cbn [td_pcs]. unfold rows. cbv zeta. rewrite elem_of_py_sorted.
    apply elem_of_delta_list.
Qed.

(** ** Concrete traces *)

Definition ex_event (pc : Z) (text symbol : string) : value :=
  VDict [("pc", VInt pc); ("instruction", VStr "0x60000000"); ("disassembly", VStr text); ("symbol", VStr symbol)].
Definition ex_trace : value :=
  VDict [("schema", VStr "ppc-lab-trace-v1"); ("exit_code", VInt 0);
         ("events", VList [ex_event 0x1000 "nop" "main+0x0"; ex_event 0x1004 "bl 0x2000" "main+0x4";
                           ex_event 0x2000 "blr" "f"; ex_event 0x1008 "b 0x1000" "main+0x8";
                           ex_event 0x1000 "nop" "main"; ex_event 0x1004 "bl 0x2000" "main"])].

Example example_edges :
  match analyze_trace ex_trace with
  | Ok a => ((fun e => (er_source e, er_kind e, er_target e)) <$> an_edges a) =
            [("b0000", "call", "b0002"); ("b0001", "branch", "b0000"); ("b0002", "return", "b0001")]
  | Raise _ => False
  end.
Proof. vm_compute. reflexivity. Qed.

Example example_parse :
  parse "0x00001000 0x7C0802A6  mflr r0   [main+0x4]" =
  Some (Captured "0x00001000" "0x7c0802a6" "mflr r0" "main+0x4").
Proof. vm_compute. reflexivity. Qed.

(** A line break inside a node label is escaped a second time, so Graphviz prints it as text. *)
Example dot_label_breaks_are_escaped_twice :
  esc "a\nb" = "a\\nb".
Proof. vm_compute. reflexivity. Qed.
