(* ===== verification/Tools.v ===== *)
(** * Small command-line tools

    [compare_ppc_dump.py], [ppc_result_inspect.py], [ppc_runtime_call.py], [ppc_snapshot_diff.py] and
    [ppc_lab_batch.py]: byte and float comparison of memory dumps, import addresses, snapshot
    comparison, and parameter sweeps. *)
From stdpp Require Import pretty.
From Stdlib Require Import SpecFloat Ascii.
From S2P Require Export PyValue.

(** ** [compare_ppc_dump.py]: bytes are integers from 0 to 255 *)
Module Dump.

Definition FNV_OFFSET : Z := 14695981039346656037.
Definition FNV_PRIME : Z := 1099511628211.
Definition U64 : Z := 2 ^ 64.

Definition fnv1a64_from (value : Z) (data : list Z) : Z :=
  fold_left (fun value byte => Z.land (Z.lxor value byte * FNV_PRIME) (U64 - 1)) data value.
Definition fnv1a64 (data : list Z) : Z := fnv1a64_from FNV_OFFSET data.

(** [bytes.fromhex]: pairs of hexadecimal digits, with spaces between the pairs. *)
Fixpoint fromhex (s : string) : option (list Z) :=
  match s with
  | EmptyString => Some []
  | String a s' =>
      if is_space a then fromhex s'
      else match s' with
           | String b rest =>
               match digit_val 16 a, digit_val 16 b with
               | Some x, Some y => l ← fromhex rest; Some (x * 16 + y :: l)
               | _, _ => None
               end
           | EmptyString => None
           end
  end.

Definition parse_hex_dump (text : string) : res (list Z) :=
  if String.eqb text "<unreadable>" then Raise (Exn ValueError "PPC dump is unreadable")
  else match fromhex text with
       | Some l => Ok l
       | None => Raise (Exn ValueError "non-hexadecimal number found in fromhex() arg")
       end.

(** The 32-bit words of a byte string, in the given byte order. *)
Fixpoint words (big : bool) (data : list Z) : list Z :=
  match data with
  | a :: b :: c :: d :: rest =>
      (if big : bool then a * 2 ^ 24 + b * 2 ^ 16 + c * 2 ^ 8 + d
       else d * 2 ^ 24 + c * 2 ^ 16 + b * 2 ^ 8 + a) :: words big rest
  | _ => []
  end.

(** The binary32 number of a word, as a double. *)
Definition float_of_bits (w : Z) : float :=
  let s := Z.testbit w 31 in
  let e := (w / 2 ^ 23) mod 256 in
  let m := w mod 2 ^ 23 in
  if e =? 255 then (if m =? 0 then S754_infinity s else S754_nan)
  else
    let x := if e =? 0 then binary_normalize fprec femax m (-149) false
             else binary_normalize fprec femax (m + 2 ^ 23) (e - 150) false in
    if s then SFopp x else x.

Definition decode_float32 (data : list Z) (big : bool) : res (list float) :=
  if negb (Z.of_nat (length data) mod 4 =? 0)
  then Raise (Exn ValueError "float32 comparison requires a byte count divisible by four")
  else Ok (float_of_bits <$> words big data).

Record float_report := FloatReport {
  fr_ppc_count : Z; fr_ref_count : Z; fr_compared : Z; fr_exact_bits : bool;
  fr_first_difference : option Z; fr_rms_error : float; fr_max_abs_error : float
}.
Record report := Report {
  rp_ppc_bytes : Z; rp_reference_bytes : Z; rp_ppc_fnv : string; rp_reference_fnv : string;
  rp_exact_bytes : bool; rp_float : option float_report
}.

(** The state of the loop: the squared errors, the largest error, the first differing index and
    whether all bits agree. *)
Record scan := Scan { sc_sum : float; sc_max : float; sc_first : option Z; sc_exact : bool }.

Definition pair_error (a b : float) : float :=
  if is_nan a && is_nan b then fzero else SFabs (fsub a b).

Definition scan_one (st : scan) (x : Z * (float * float * (Z * Z))) : scan :=
  let '(i, (a, b, (ppc_bits, ref_bits))) := x in
  let error := pair_error a b in
  let differs := negb (ppc_bits =? ref_bits) in
  Scan (fadd (sc_sum st) (fmul error error))
    (if fltb (sc_max st) error then error else sc_max st)
    (if differs then match sc_first st with None => Some i | o => o end else sc_first st)
    (if differs then false else sc_exact st).

Definition scan_all (ppc_values ref_values : list float) (ppc_words ref_words : list Z) : scan :=
  fold_left scan_one (enumerate (zip (zip ppc_values ref_values) (zip ppc_words ref_words)))
    (Scan fzero fzero None (length ppc_values =? length ref_values)%nat).

Definition compare_floats (ppc ref : list Z) (ref_big : bool) : res float_report :=
  ppc_values ← decode_float32 ppc true;
  ref_values ← decode_float32 ref ref_big;
  let count := Nat.min (length ppc_values) (length ref_values) in
  _ ← (if (count =? 0)%nat then Raise (Exn SystemExit "no float32 values to compare") else Ok tt);
  let st := scan_all ppc_values ref_values (words true ppc) (words ref_big ref) in
  n ← float_of_int (Z.of_nat count);
  Ok (FloatReport (Z.of_nat (length ppc_values)) (Z.of_nat (length ref_values)) (Z.of_nat count)
        (sc_exact st) (sc_first st) (SFsqrt fprec femax (fdiv_ieee (sc_sum st) n)) (sc_max st)).

Definition hex64 (n : Z) : string := "0x" +:+ hex_pad 16 n.

(** [main]: the report and the exit status; [float32] is the mode. *)
Definition compare_dump (result : value) (dump_index : Z) (ref : list Z) (float32 ref_big : bool) :
    res (report * Z) :=
  dumps ← vget_or "dumps" (VList []) result;
  l ← (match dumps with VList l => Ok l | _ => Raise (Exn TypeError "dumps is not an array") end);
  dump ← (if (dump_index <? 0) || (Z.of_nat (length l) <=? dump_index)
          then Raise (Exn SystemExit "dump index is out of range")
          else match l !! Z.to_nat dump_index with
               | Some d => Ok d | None => Raise (Exn IndexError "list index out of range") end);
  hex ← vget_or "hex" (VStr "") dump;
  ppc ← parse_hex_dump (py_str hex);
  let exact := bool_decide (ppc = ref) in
  fl ← (if float32 : bool then r ← compare_floats ppc ref ref_big; Ok (Some r) else Ok None);
  Ok (Report (Z.of_nat (length ppc)) (Z.of_nat (length ref)) (hex64 (fnv1a64 ppc)) (hex64 (fnv1a64 ref)) exact fl,
      if exact || float32 then 0 else 1).
End Dump.

(** ** [ppc_result_inspect.py] *)
Module Inspect.

Definition parse_u32 (v : value) : res Z :=
  match v with
  | VInt n => Ok n
  | VBool b => Ok (if b then 1 else 0)
  | VStr s => match int_of_string0 s with
              | Some n => Ok n
              | None => Raise (Exn ValueError "invalid literal for int() with base 0")
              end
  | v => Raise (Exn ValueError ("cannot parse integer value " +:+ py_repr v))
  end.

Definition load_imports (layout : value) : res (list string) :=
  imports ← vget_or "imports" (VList []) layout;
  l ← viter imports;
  res_map (fun item => name ← vget_or "name" (VStr "") item; Ok (py_str name)) l.

Definition import_name_for_pc (pc : Z) (imports : list string) (import_base import_stride : Z) :
    res (option (Z * string)) :=
  if pc <? import_base then Ok None
  else
    let delta := pc - import_base in
    if import_stride =? 0 then Raise (Exn ZeroDivisionError "integer modulo by zero")
    else if negb (delta mod import_stride =? 0) then Ok None
    else
      let index := delta / import_stride in
      if Z.of_nat (length imports) <=? index then Ok None
      else
        let i := if index <? 0 then Z.of_nat (length imports) + index else index in
        match (if i <? 0 then None else imports !! Z.to_nat i) with
        | Some name => Ok (Some (index, name))
        | None => Raise (Exn IndexError "list index out of range")
        end.

(** [f"0x{pc:08x}"] *)
Definition hex8 (n : Z) : string := "0x" +:+ if n <? 0 then "-" +:+ hex_pad 7 (- n) else hex_pad 8 n.

(** The lines [main] prints; [layout] is the parse of the layout file when there is one. *)
Definition inspect (result : value) (layout : option value) (import_base import_stride : Z) : res (list string) :=
  rstop ← vget_or "stop_reason" (VStr "unknown") result;
  rpc ← vget_or "pc" (VInt 0) result;
  pc ← parse_u32 rpc;
  rinsn ← vget_or "instruction" (VInt 0) result;
  insn ← parse_u32 rinsn;
  count ← vget_or "instructions" (VInt 0) result;
  let stop := py_str rstop in
  trap ← (if String.eqb stop "import_trap" then
            match layout with
            | Some doc =>
                imports ← load_imports doc;
                resolved ← import_name_for_pc pc imports import_base import_stride;
                Ok (match resolved with
                    | Some (index, name) => ["import_index=" +:+ pretty index; "import_name=" +:+ name;
                                             "import_address=" +:+ hex8 pc]
                    | None => ["import_name=<unresolved>"]
                    end)
            | None => Ok ["import_name=<layout metadata not supplied>"]
            end
          else Ok []);
  rdumps ← vget_or "dumps" (VList []) result;
  dumps ← viter rdumps;
  rows ← res_map (fun '(i, dump) =>
    address ← vget "address" dump;
    size ← vget "size" dump;
    hash ← vget_or "fnv1a64" (VStr "<legacy-result>") dump;
    Ok ("dump[" +:+ pretty (i : Z) +:+ "] address=" +:+ py_str address +:+ " size=" +:+ py_str size +:+
        " fnv1a64=" +:+ py_str hash)) (enumerate dumps);
  Ok (["stop_reason=" +:+ stop; "pc=" +:+ hex8 pc; "instruction=" +:+ hex8 insn;
       "instructions=" +:+ py_str count] ++ trap ++ rows).
End Inspect.

(** ** [ppc_runtime_call.py] *)
Module Runtime.

(** The first bytes of the image decide the loader. *)
Definition image_flag (b : list Z) : res string :=
  let b := take 8 b in
  if bool_decide (take 4 b = [127; 69; 76; 70]) then Ok "--elf"
  else if bool_decide (take 4 b = [74; 111; 121; 33]) then Ok "--pef"
  else match b with
       | x :: y :: z :: w :: _ =>
           let n := x * 2 ^ 24 + y * 2 ^ 16 + z * 2 ^ 8 + w in
           if (n =? 0xfeedface) || (n =? 0xcafebabe) then Ok "--macho"
           else Raise (Exn SystemExit "unsupported native image format")
       | _ => Raise (Exn SystemExit "unsupported native image format")
       end.

(** [hex(n)] *)
Definition py_hex (n : Z) : string := if n <? 0 then "-0x" +:+ hex_pad 1 (- n) else "0x" +:+ hex_pad 1 n.

Record binding := Binding { bd_name : string; bd_kind : string; bd_address : Z }.

(** [mapping={str(k):str(v) for ...}] and the loop over the image's imports. *)
Definition bind_imports (mapping : dict string) (names : list string) (import_base import_stride : Z) :
    list binding * Z :=
  fold_left (fun '(matched, next_addr) name =>
    match dget name mapping with
    | Some kind => if str_empty kind then (matched, next_addr)
                   else (matched ++ [Binding name kind next_addr], next_addr + import_stride)
    | None => (matched, next_addr)
    end) names ([], import_base).

Definition binding_args (b : binding) : list string :=
  ["--bind"; bd_name b +:+ "=" +:+ py_hex (bd_address b); "--stub"; bd_kind b +:+ "@" +:+ py_hex (bd_address b)].

Definition runtime_command (ppc_lab image flag : string) (runtime : value) (names extra : list string)
    (import_base import_stride : Z) : res (list string) :=
  schema ← vget "schema" runtime;
  _ ← (if eq_str schema "ppc-lab-runtime-v1" then Ok tt else Raise (Exn SystemExit "unsupported runtime schema"));
  symbols ← vget_or "symbols" (VDict []) runtime;
  items ← vitems symbols;
  let mapping := prod_map id py_str <$> items in
  let matched := fst (bind_imports mapping names import_base import_stride) in
  Ok ([ppc_lab; "call"; flag; image; "--import-base"; py_hex import_base] ++
      List.flat_map binding_args matched ++
      match extra with "--" :: rest => rest | _ => extra end).
End Runtime.

(** ** [ppc_snapshot_diff.py] *)
Module Snapshot.

Record difference := Difference { df_field : string; df_left : value; df_right : value }.

(** [{str(x.get(key)): x for x in items}] *)
Definition keyed (items : list value) (key : string) : res (dict value) :=
  res_fold (fun d x => k ← vget key x; Ok (dset (py_str k) x d)) [] items.

(** [if a.get(key) != b.get(key)] for each key, on dictionaries. *)
Definition field_diffs (prefix : string) (keys : list string) (a b : value) : res (list difference) :=
  res_fold (fun acc key =>
    x ← vget key a;
    y ← vget key b;
    Ok (if py_eq x y then acc else acc ++ [Difference (prefix +:+ key) x y])) [] keys.

Definition region_keys : list string := ["base"; "size"; "perms"; "fnv1a64"].
(** The tuples of the four region fields agree. *)
Definition region_same (x y : value) : res bool :=
  res_fold (fun same key => u ← vget key x; v ← vget key y; Ok (same && py_eq u v)) true region_keys.

Definition all_names (a b : dict value) : list string := py_sorted id (remove_dups (dkeys a ++ dkeys b)).

Definition region_diffs (ar br : dict value) : res (list difference) :=
  res_fold (fun acc name =>
    let x := dget_n name ar in
    let y := dget_n name br in
    same ← (if is_none x || is_none y then Ok false else region_same x y);
    Ok (if same : bool then acc else acc ++ [Difference ("region:" +:+ name) x y])) [] (all_names ar br).

Definition snapshot_diff (ignore_backend : bool) (a b : value) : res (list difference) :=
  sa ← vget "schema" a;
  sb ← (if eq_str sa "ppc-lab-snapshot-v1" then vget "schema" b else Ok VNone);
  _ ← (if eq_str sa "ppc-lab-snapshot-v1" && eq_str sb "ppc-lab-snapshot-v1" then Ok tt
       else Raise (Exn SystemExit "snapshot schema mismatch"));
  top ← field_diffs "" ["stop_reason"; "instructions"; "pc"; "instruction"] a b;
  backend ← (if ignore_backend : bool then Ok [] else field_diffs "" ["backend"] a b);
  ac ← vget_or "cpu" (VDict []) a;
  bc ← vget_or "cpu" (VDict []) b;
  cpu ← field_diffs "cpu." ["gpr"; "fpr_bits"; "lr"; "ctr"; "cr"; "xer"; "fpscr"] ac bc;
  ra ← vget_or "regions" (VList []) a;
  la ← viter ra;
  ar ← keyed la "name";
  rb ← vget_or "regions" (VList []) b;
  lb ← viter rb;
  br ← keyed lb "name";
  regions ← region_diffs ar br;
  Ok (top ++ backend ++ cpu ++ regions).

Definition snapshot_status (r : list difference) : Z := match r with [] => 0 | _ => 1 end.
End Snapshot.

(** ** [ppc_lab_batch.py] *)
Module Batch.

Definition safe_char (c : ascii) : bool := is_alnum c || Ascii.eqb c "-" || Ascii.eqb c "_".
Definition safe (name : string) : string :=
  let s := String.substring 0 100 (str_map (fun c => if safe_char c then c else "_"%char) name) in
  if str_empty s then "case" else s.

(** [itertools.product] *)
Fixpoint product {A} (vals : list (list A)) : list (list A) :=
  match vals with
  | [] => [[]]
  | l :: vals => List.flat_map (fun x => (fun combo => x :: combo) <$> product vals) l
  end.

(** The case a combination of the sweep adds. *)
Definition sweep_case (keys : list string) (combo : list value) : dict value :=
  let assignments := zip keys combo in
  [("name", VStr (str_join "_" ((fun kv => fst kv +:+ "-" +:+ py_str (snd kv)) <$> assignments)));
   ("args", VList (List.flat_map (fun kv => [VStr "--set"; VStr (fst kv +:+ "=" +:+ py_str (snd kv))]) assignments));
   ("parameters", VDict assignments)].

(** [dict(x)] of a case object. *)
Definition as_case (v : value) : res (dict value) :=
  match v with
  | VDict d => Ok d
  | _ => Raise (Exn TypeError "cannot convert a case that is not an object")
  end.

Definition manifest_cases (m : value) : res (list (dict value)) :=
  rcases ← vget_or "cases" (VList []) m;
  l ← viter rcases;
  cases ← res_map as_case l;
  sweep ← vget_or "sweep" (VDict []) m;
  if py_bool sweep then
    items ← (match sweep with VDict d => Ok d | _ => Raise (Exn TypeError "sweep is not an object") end);
    vals ← res_map viter (dvalues items);
    Ok (cases ++ (sweep_case (dkeys items) <$> product vals))
  else Ok cases.

Record batch_result := BatchResult {
  bt_name : string; bt_parameters : value; bt_exit_code : Z; bt_snapshot : string; bt_command : list string
}.

Definition run_case (ppc_lab out : string) (base : list string) (run : list string -> Z) (idx : Z)
    (case : dict value) : res batch_result :=
  let name := safe (py_str (dget_or "name" (VStr ("case-" +:+ zpad 3 idx)) case)) in
  let snapshot := zpad 3 idx +:+ "-" +:+ name +:+ ".snapshot.json" in
  args ← viter (dget_or "args" (VList []) case);
  let cmd := [ppc_lab; "call"] ++ base ++ (py_str <$> args) ++ ["--snapshot"; out +:+ "/" +:+ snapshot] in
  Ok (BatchResult name (dget_or "parameters" (VDict []) case) (run cmd) snapshot cmd).

(** The results in order, the number of failures and the exit status. *)
Definition run_batch (ppc_lab out : string) (m : value) (run : list string -> Z) :
    res (list batch_result * Z * Z) :=
  schema ← vget "schema" m;
  _ ← (if eq_str schema "ppc-lab-experiment-v1" then Ok tt else Raise (Exn SystemExit "unsupported experiment schema"));
  rbase ← vget_or "base_args" (VList []) m;
  base ← viter rbase;
  cases ← manifest_cases m;
  results ← res_map (fun '(idx, case) => run_case ppc_lab out (py_str <$> base) run idx case) (enumerate cases);
  let failures := Z.of_nat (length (List.filter (fun r => negb (bt_exit_code r =? 0)) results)) in
  Ok (results, failures, if failures =? 0 then 0 else 1).
End Batch.
