(* ===== verification/ToolsProps.v ===== *)
(** * The properties of the small tools *)
From stdpp Require Import pretty.
From Stdlib Require Import SpecFloat Ascii.
From S2P Require Import Tools.

(** ** Memory dumps *)
Module DumpFacts.
Import Dump.

Lemma U64_mask x : Z.land x (U64 - 1) = x mod U64.
Proof. unfold U64. change (2 ^ 64 - 1) with (Z.ones 64). apply Z.land_ones. lia. Qed.

Lemma fnv1a64_from_bound data v : 0 <= v < U64 -> 0 <= fnv1a64_from v data < U64.
Proof.
  revert v. induction data as [|b data IH]; intros v Hv; cbn; [done|].
  apply IH. rewrite U64_mask. apply Z.mod_pos_bound. done.
Qed.

(** The words two dumps share a position for, and the first position where they differ. *)
Fixpoint first_diff (i : Z) (l r : list Z) : option Z :=
  match l, r with
  | x :: l, y :: r => if x =? y then first_diff (i + 1) l r else Some i
  | _, _ => None
  end.

Definition bits_of (x : Z * (float * float * (Z * Z))) : Z * Z := snd (snd x).

Lemma scan_spec (fl : list (float * float)) (l r : list Z) i st :
  length fl = Nat.min (length l) (length r) ->
  let st' := fold_left scan_one (enumerate_from i (zip fl (zip l r))) st in
  sc_exact st' = sc_exact st && match first_diff i l r with None => true | Some _ => false end /\
  sc_first st' = match sc_first st with Some f => Some f | None => first_diff i l r end.
Proof.
  revert fl r i st. induction l as [|x l IH]; intros fl r i st Hlen.
  { destruct fl; [|done]. cbn. rewrite andb_true_r. by destruct (sc_first st). }
  destruct r as [|y r]; [destruct fl; [|done]; cbn; rewrite andb_true_r; by destruct (sc_first st)|].
  destruct fl as [|[a b] fl]; [done|]. cbn in Hlen. injection Hlen as Hlen.
  change (zip ((a, b) :: fl) (zip (x :: l) (y :: r))) with ((a, b, (x, y)) :: zip fl (zip l r)).
  rewrite enumerate_from_cons. cbn [fold_left first_diff].
  destruct (IH fl r (i + 1) (scan_one st (i, (a, b, (x, y)))) Hlen) as [H1 H2].
  split; [rewrite H1|rewrite H2]; unfold scan_one; cbn; destruct (x =? y); cbn; rewrite ?andb_false_r; try done.
  by destruct (sc_first st).
Qed.

Lemma first_diff_none i l r : length l = length r -> first_diff i l r = None <-> l = r.
Proof.
  revert i r. induction l as [|x l IH]; intros i [|y r]; cbn; try done.
  intros [= Hlen]. destruct (Z.eqb_spec x y) as [->|Hne].
  - rewrite IH by done. naive_solver.
  - split; [done|]. intros [=]. done.
Qed.

Lemma compare_floats_Ok ppc ref big r :
  compare_floats ppc ref big = Ok r ->
  fr_exact_bits r = bool_decide (words true ppc = words big ref) /\
  fr_first_difference r = first_diff 0 (words true ppc) (words big ref).
Proof.
  unfold compare_floats. intros H. inv_res. subst. cbn [fr_exact_bits fr_first_difference].
  assert (Hdec : forall data b vs, decode_float32 data b = Ok vs -> vs = float_of_bits <$> words b data).
  { intros data b vs. unfold decode_float32. case_bool; [done|]. by intros [= <-]. }
  match goal with Ha : decode_float32 ppc _ = Ok ?p, Hb : decode_float32 ref _ = Ok ?q |- _ =>
    apply Hdec in Ha as ->; apply Hdec in Hb as -> end.
  unfold scan_all, enumerate.
  destruct (scan_spec (zip (float_of_bits <$> words true ppc) (float_of_bits <$> words big ref))
    (words true ppc) (words big ref) 0 (Scan fzero fzero None
      (length (float_of_bits <$> words true ppc) =? length (float_of_bits <$> words big ref))%nat)) as [Hexact Hfirst].
  { by rewrite length_zip_with, !length_fmap. }
  rewrite Hexact, Hfirst. cbn [sc_exact sc_first]. rewrite !length_fmap. split; [|done].
  destruct (length (words true ppc) =? length (words big ref))%nat eqn:El; bool_prop; cbn.
  - pose proof (first_diff_none 0 _ _ El) as Hf. case_bool_decide as Hw.
    + by rewrite (proj2 Hf Hw).
    + destruct (first_diff _ _ _); [done|]. exfalso. by apply Hw, Hf.
  - symmetry. apply bool_decide_eq_false. intros Hw. by rewrite Hw in El.
Qed.

(** in byte mode the comparison exits with 0 exactly when the dump and the reference are the
    same bytes; in float mode it says the bits are exact exactly when both are the same sequence of
    32-bit words in their byte orders, and names the first word that differs; the hashes fit in
    64 bits. *)
Theorem compare_dump_exact result idx ref float32 big rep rc :
  compare_dump result idx ref float32 big = Ok (rep, rc) ->
  exists ppc, rp_exact_bytes rep = bool_decide (ppc = ref) /\
    (float32 = false -> rc = 0 <-> ppc = ref) /\
    (float32 = true -> exists r, rp_float rep = Some r /\
       fr_exact_bits r = bool_decide (words true ppc = words big ref) /\
       fr_first_difference r = first_diff 0 (words true ppc) (words big ref)) /\
    rp_ppc_fnv rep = hex64 (fnv1a64 ppc) /\ 0 <= fnv1a64 ppc < U64.
Proof.
  unfold compare_dump. intros H. inv_res. subst.
  match goal with H : parse_hex_dump _ = Ok ?l |- _ => exists l end.
  split; [done|]. split; [|split; [|split; [done|by apply fnv1a64_from_bound]]].
  - intros ->. rewrite orb_false_r. case_bool_decide; done.
  - intros ->. match goal with H : _ = Ok ?o |- context [Report _ _ _ _ _ ?o] => apply res_bind_Ok in H as (r&Hr&[= <-]) end.
    exists r. split; [done|]. by apply compare_floats_Ok.
Qed.

Definition ex_result : value := VDict [("dumps", VList [VDict [("hex", VStr "3f80 0000 4000 0000")]])].
Definition ex_compared : report * Z :=
  ok_or (Report 0 0 "" "" true None, 9)
    (compare_dump ex_result 0 [0; 0; 128; 63; 0; 0; 0; 64] true false).
Lemma compare_dump_exact_witness :
  snd ex_compared = 0 /\ exists ppc, rp_exact_bytes (fst ex_compared) = bool_decide (ppc = [0; 0; 128; 63; 0; 0; 0; 64]).
Proof.
  split; [vm_compute; reflexivity|].
  destruct (compare_dump_exact ex_result 0 [0; 0; 128; 63; 0; 0; 0; 64] true false (fst ex_compared) (snd ex_compared))
    as (ppc&Hexact&_); [vm_compute; reflexivity|]. exists ppc. exact Hexact.
Defined.

(** Two identical buffers that hold an infinity compare with an error of NaN. *)
Example equal_infinities_have_nan_error :
  match compare_floats [127; 128; 0; 0] [127; 128; 0; 0] true with
  | Ok r => fr_exact_bits r = true /\ is_nan (fr_rms_error r) = true
  | Raise _ => False
  end.
Proof. vm_compute. split; reflexivity. Qed.
End DumpFacts.

(** ** Import addresses *)
Module ImportFacts.
Import Inspect Runtime.

Lemma bind_imports_spec mapping names base stride acc next :
  (forall j b, acc !! j = Some b -> bd_address b = base + Z.of_nat j * stride) ->
  next = base + Z.of_nat (length acc) * stride ->
  let r := fold_left (fun '(matched, next_addr) name =>
    match dget name mapping with
    | Some kind => if str_empty kind then (matched, next_addr)
                   else (matched ++ [Binding name kind next_addr], next_addr + stride)
    | None => (matched, next_addr)
    end) names (acc, next) in
  forall j b, fst r !! j = Some b -> bd_address b = base + Z.of_nat j * stride.
Proof.
  revert acc next. induction names as [|name names IH]; intros acc next Hacc Hnext; [exact Hacc|].
  cbn [fold_left]. destruct (dget name mapping) as [kind|]; [|by apply IH].
  destruct (str_empty kind); [by apply IH|]. apply IH.
  - intros j b Hj. apply lookup_app_Some in Hj as [Hj|[Hle Hj]]; [by apply Hacc|].
    apply list_lookup_singleton_Some in Hj as [Hz <-]. cbn. subst next. do 2 f_equal. lia.
  - rewrite length_app. cbn. lia.
Qed.

(** The addresses the runtime binds imports to and the addresses the inspector resolves are
    inverse to each other: the j-th bound import stops at [base + j * stride] and that address
    resolves to its name; and an address resolves only if it is such an address. *)
Theorem import_trap_roundtrip mapping names base stride :
  0 < stride ->
  let matched := fst (bind_imports mapping names base stride) in
  (forall j b, matched !! j = Some b ->
     bd_address b = base + Z.of_nat j * stride /\
     import_name_for_pc (bd_address b) (bd_name <$> matched) base stride = Ok (Some (Z.of_nat j, bd_name b))) /\
  (forall pc index name, import_name_for_pc pc (bd_name <$> matched) base stride = Ok (Some (index, name)) ->
     exists b, matched !! Z.to_nat index = Some b /\ pc = bd_address b /\ name = bd_name b).
Proof.
  intros Hstride matched.
  assert (Haddr : forall j b, matched !! j = Some b -> bd_address b = base + Z.of_nat j * stride).
  { apply (bind_imports_spec mapping names base stride [] base); [done|cbn; lia]. }
  assert (Hs0 : (stride =? 0) = false) by lia.
  split.
  - intros j b Hj. split; [by apply Haddr|]. rewrite (Haddr _ _ Hj). unfold import_name_for_pc.
    assert (Hlt := lookup_lt_Some _ _ _ Hj).
    assert (E1 : (base + Z.of_nat j * stride <? base) = false) by lia. rewrite E1, Hs0.
    replace (base + Z.of_nat j * stride - base) with (Z.of_nat j * stride) by lia.
    rewrite Z.mod_mul, Z.div_mul by lia. cbn [Z.eqb negb].
    rewrite length_fmap. assert (E2 : (Z.of_nat (length matched) <=? Z.of_nat j) = false) by lia.
    assert (E3 : (Z.of_nat j <? 0) = false) by lia. rewrite E2, E3, E3, Nat2Z.id, list_lookup_fmap, Hj. done.
  - intros pc index name. unfold import_name_for_pc. rewrite Hs0.
    destruct (pc <? base) eqn:E1; [done|]. destruct (negb _) eqn:E2; [done|].
    destruct (_ <=? _) eqn:E3; [done|]. bool_prop.
    assert (Hq : 0 <= (pc - base) / stride) by (apply Z.div_pos; lia).
    assert (E4 : ((pc - base) / stride <? 0) = false) by lia. rewrite E4, E4, list_lookup_fmap.
    destruct (matched !! Z.to_nat ((pc - base) / stride)) as [b|] eqn:Hb; [|done]. cbn. intros [= <- <-].
    exists b. split; [done|]. split; [|done]. rewrite (Haddr _ _ Hb), Z2Nat.id by done.
    rewrite Z.mul_comm. pose proof (Z.div_exact (pc - base) stride ltac:(lia)) as Hd. apply Hd in E2. lia.
Qed.

Definition ex_mapping : dict string := [("_malloc", "heap"); ("_free", "zero"); ("_skip", "")].
Lemma import_trap_roundtrip_witness :
  import_name_for_pc 0x30000004 ["_malloc"; "_free"] 0x30000000 4 = Ok (Some (1, "_free")).
Proof.
  refine (proj2 (proj1 (import_trap_roundtrip ex_mapping ["_malloc"; "_skip"; "_other"; "_free"] 0x30000000 4 _)
            1%nat (Binding "_free" "zero" 0x30000004) _)); [lia|vm_compute; reflexivity].
Defined.
End ImportFacts.

(** ** Parameter sweeps *)
Module BatchFacts.
Import Batch.

Lemma elem_of_product {A} (vals : list (list A)) combo :
  combo ∈ product vals <-> Forall2 (fun x l => x ∈ l) combo vals.
Proof.
  revert combo. induction vals as [|l vals IH]; intros combo; cbn.
  - rewrite list_elem_of_singleton. split; [intros ->; constructor|by intros H%Forall2_nil_inv_r].
  - rewrite list_elem_of_In, in_flat_map. split.
    + intros (x&Hx&Hc). apply list_elem_of_In in Hx, Hc. apply list_elem_of_fmap in Hc as (c&->&Hc).
      constructor; [done|]. by apply IH.
    + intros H. apply Forall2_cons_inv_r in H as (x&c&Hx&Hc&->). exists x. rewrite <- !list_elem_of_In.
      split; [done|]. apply list_elem_of_fmap. exists c. split; [done|]. by apply IH.
Qed.

Lemma NoDup_product {A} (vals : list (list A)) : Forall NoDup vals -> NoDup (product vals).
Proof.
  induction 1 as [|l vals Hl _ IH]; cbn; [apply NoDup_singleton|].
  induction Hl as [|x l Hx Hl IHl]; cbn; [constructor|].
  apply NoDup_app. split; [|split; [|done]].
  - apply NoDup_fmap_2; [intros ?? [= ->]; done|done].
  - intros c Hc Hc'. apply list_elem_of_fmap in Hc as (c1&->&_).
    rewrite list_elem_of_In, in_flat_map in Hc'. destruct Hc' as (y&Hy&Hc'). apply list_elem_of_In in Hy, Hc'.
    apply list_elem_of_fmap in Hc' as (c2&[= -> ->]&_). done.
Qed.

(** A sweep visits every combination of its values, and each once when no axis repeats a value;
    a batch that returns has one result per listed case and per combination, in that order, counts
    exactly the non-zero exit statuses, and exits with 0 only if there is none. *)
Theorem batch_sweeps_all_combinations :
  (forall vals (combo : list value), combo ∈ product vals <-> Forall2 (fun x l => x ∈ l) combo vals) /\
  (forall vals : list (list value), Forall NoDup vals -> NoDup (product vals)) /\
  (forall ppc_lab out m run results failures rc,
     run_batch ppc_lab out m run = Ok (results, failures, rc) ->
     exists cases, manifest_cases m = Ok cases /\ length results = length cases /\
       failures = Z.of_nat (length (List.filter (fun r => negb (bt_exit_code r =? 0)) results)) /\
       (rc = 0 <-> forall r, r ∈ results -> bt_exit_code r = 0)).
Proof.
  split; [intros; apply elem_of_product|]. split; [intros; by apply NoDup_product|].
  intros ppc_lab out m run results failures rc. unfold run_batch. intros H. inv_res.
  match goal with H : manifest_cases m = Ok ?c |- _ => exists c; split; [done|] end.
  split; [|split; [done|]].
  - match goal with H : res_map _ (enumerate ?c) = Ok _ |- _ => apply res_map_length in H; rewrite H end.
    unfold enumerate, enumerate_from. rewrite length_zip_with, length_imap. lia.
  - destruct (_ =? 0) eqn:E; bool_prop.
    + split; [|done]. intros _ r Hr. destruct (bt_exit_code r =? 0) eqn:Er; [by apply Z.eqb_eq|]. exfalso.
      assert (Hin : In r (List.filter (fun r => negb (bt_exit_code r =? 0)) results))
        by (apply filter_In; rewrite Er; by rewrite <- list_elem_of_In).
      destruct (List.filter _ results); [done|cbn in E; lia].
    + split; [done|]. intros Hall. exfalso. apply E.
      enough (Hn : List.filter (fun r => negb (bt_exit_code r =? 0)) results = []) by (by rewrite Hn).
      destruct (List.filter _ results) as [|r l] eqn:Ef; [done|].
      assert (Hin : In r (List.filter (fun r => negb (bt_exit_code r =? 0)) results)) by (rewrite Ef; by left).
      apply filter_In in Hin as [Hin Hne]. rewrite Hall in Hne by (by apply list_elem_of_In). done.
Qed.

Definition ex_manifest : value :=
  VDict [("schema", VStr "ppc-lab-experiment-v1"); ("base_args", VList [VStr "--image"; VStr "a.elf"]);
         ("cases", VList [VDict [("name", VStr "plain run")]]);
         ("sweep", VDict [("r3", VList [VInt 1; VInt 2]); ("r4", VList [VStr "x"; VStr "y"])])].
Definition ex_batch : list batch_result * Z * Z :=
  ok_or ([], 0, 9) (run_batch "ppc-lab" "out" ex_manifest (fun cmd => if bool_decide ("r3=2" ∈ cmd) then 1 else 0)).
Lemma batch_sweeps_all_combinations_witness :
  length (fst (fst ex_batch)) = 5%nat /\ snd (fst ex_batch) = 2 /\
  exists cases, manifest_cases ex_manifest = Ok cases /\ length (fst (fst ex_batch)) = length cases.
Proof.
  split; [vm_compute; reflexivity|]. split; [vm_compute; reflexivity|].
  destruct (proj2 (proj2 batch_sweeps_all_combinations) "ppc-lab" "out" ex_manifest
    (fun cmd => if bool_decide ("r3=2" ∈ cmd) then 1 else 0) (fst (fst ex_batch)) (snd (fst ex_batch)) (snd ex_batch))
    as (cases&Hc&Hlen&_); [vm_compute; reflexivity|].
  exists cases. split; [exact Hc|exact Hlen].
Defined.
End BatchFacts.
