(* ===== verification/Json.v ===== *)
(** * Canonical JSON text ([json.dumps(v, sort_keys=True, separators=(",", ":"))])

    The scripts hash documents through their canonical text ([canonical], [_canonical]).  The text
    determines the document up to the order of keys ([canonical_inj]), for documents without floats
    whose strings are ASCII. *)
From stdpp Require Import pretty.
From Stdlib Require Import SpecFloat Ascii.
From S2P Require Export PyValue.

(** ** Strings: [ensure_ascii] escapes *)

Definition u_escape (n : Z) : string := "\u" +:+ hex_digits 4 n.
Definition code_point (n : Z) : string :=
  if n <? 65536 then u_escape n
  else u_escape (55296 + (n - 65536) / 1024) +:+ u_escape (56320 + (n - 65536) mod 1024).

Definition esc_char (c : ascii) : string :=
  let n := code c in
  if n =? 34 then "\" +:+ quote_char
  else if n =? 92 then "\\"
  else if n =? 10 then "\n" else if n =? 13 then "\r" else if n =? 9 then "\t"
  else if n =? 12 then "\f" else if n =? 8 then "\b"
  else if (32 <=? n) && (n <=? 126) then String c EmptyString
  else u_escape n.

(** The low six bits of a continuation byte. *)
Definition cont (c : ascii) : Z := code c mod 64.

(** The characters of a UTF-8 string. *)
Fixpoint json_chars (s : string) : string :=
  match s with
  | EmptyString => EmptyString
  | String c s1 =>
      let n := code c in
      if n <? 128 then esc_char c +:+ json_chars s1
      else match s1 with
      | String c1 s2 =>
          if n <? 224 then code_point ((n - 192) * 64 + cont c1) +:+ json_chars s2
          else match s2 with
          | String c2 s3 =>
              if n <? 240 then code_point ((n - 224) * 4096 + cont c1 * 64 + cont c2) +:+ json_chars s3
              else match s3 with
              | String c3 s4 =>
                  code_point ((n - 240) * 262144 + cont c1 * 4096 + cont c2 * 64 + cont c3) +:+ json_chars s4
              | EmptyString => EmptyString
              end
          | EmptyString => EmptyString
          end
      | EmptyString => EmptyString
      end
  end.

Definition json_string (s : string) : string := quote_char +:+ json_chars s +:+ quote_char.

(** ** Documents *)

Definition json_float (x : float) : string :=
  match x with
  | S754_nan => "NaN"
  | S754_infinity s => if s then "-Infinity" else "Infinity"
  | _ => float_repr x
  end.

(** [json.dumps(v, separators=(",", ":"))], with [quote] to write strings. *)
Section json_with.
Context (quote : string -> string).
Fixpoint json_with (v : value) : string :=
  match v with
  | VNone => "null"
  | VBool b => if b then "true" else "false"
  | VInt n => pretty n
  | VFloat x => json_float x
  | VStr s => quote s
  | VList l => "[" +:+ str_join "," (json_with <$> l) +:+ "]"
  | VDict d => "{" +:+ str_join "," ((fun kv => quote (fst kv) +:+ ":" +:+ json_with (snd kv)) <$> d) +:+ "}"
  end.
End json_with.

(** ASCII output. *)
Abbreviation json := (json_with json_string).

(** [ensure_ascii=False]: only quotes, backslashes and control characters are escaped. *)
Definition esc_raw (c : ascii) : string :=
  let n := code c in if (n <? 32) || (n =? 34) || (n =? 92) then esc_char c else String c EmptyString.
Fixpoint raw_chars (s : string) : string :=
  match s with EmptyString => EmptyString | String c s => esc_raw c +:+ raw_chars s end.
Definition json_string_raw (s : string) : string := quote_char +:+ raw_chars s +:+ quote_char.
Abbreviation json_raw := (json_with json_string_raw).

(** [sort_keys=True], at every level. *)
Fixpoint sort_keys (v : value) : value :=
  match v with
  | VList l => VList (sort_keys <$> l)
  | VDict d => VDict (py_sorted fst ((fun kv => (fst kv, sort_keys (snd kv))) <$> d))
  | v => v
  end.

Definition canonical (v : value) : string := json (sort_keys v).

Example canonical_ex :
  canonical (VDict [("b", VList [VInt (-1); VNone; VBool true]); ("a", VStr "x\y")]) =
  "{" +:+ json_string "a" +:+ ":" +:+ json_string "x\y" +:+ "," +:+ json_string "b" +:+ ":[-1,null,true]}".
Proof. vm_compute. reflexivity. Qed.

(** ** The text determines the document *)

(** No floats, and ASCII strings. *)
Definition ascii_string (s : string) : bool := str_forall (fun c => code c <? 128) s.
Fixpoint plain (v : value) : bool :=
  match v with
  | VFloat _ => false
  | VStr s => ascii_string s
  | VList l => forallb plain l
  | VDict d => forallb (fun kv => ascii_string (fst kv) && plain (snd kv)) d
  | _ => true
  end.

Lemma app_inj_head a b r s : String.prefix a b = false -> String.prefix b a = false -> a +:+ r <> b +:+ s.
Proof.
  revert b. induction a as [|c a IH]; intros [|d b]; cbn; try done.
  destruct (ascii_dec c d) as [->|Hne].
  - rewrite decide_True in * || idtac. destruct (ascii_dec d d); [|done]. intros H1 H2 [=]. by eapply IH.
  - intros _ _ [=]. done.
Qed.

(** The 128 ASCII characters. *)
Definition ascii_chars : list ascii := ascii_of_nat <$> seq 0 128.

Lemma ascii_char_in c : code c <? 128 = true -> c ∈ ascii_chars.
Proof.
  unfold code. intros H. apply Z.ltb_lt in H. apply list_elem_of_fmap. exists (nat_of_ascii c).
  split; [by rewrite ascii_nat_embedding|]. apply elem_of_seq. lia.
Qed.

(** No escape is a prefix of another one, and none starts with a quote. *)
Lemma esc_prefix_free :
  forallb (fun c => forallb (fun d => Ascii.eqb c d || negb (String.prefix (esc_char c) (esc_char d))) ascii_chars)
    ascii_chars &&
  forallb (fun c => negb (str_empty (esc_char c)) && negb (String.prefix quote_char (esc_char c))) ascii_chars = true.
Proof. vm_compute. reflexivity. Qed.

Lemma esc_char_inj c d r s :
  code c <? 128 = true -> code d <? 128 = true -> esc_char c +:+ r = esc_char d +:+ s -> c = d /\ r = s.
Proof.
  intros Hc%ascii_char_in Hd%ascii_char_in Heq. destruct (Ascii.eqb c d) eqn:E.
  - apply Ascii.eqb_eq in E as ->. split; [done|]. by apply (inj (String.append (esc_char d))).
  - exfalso. revert Heq. pose proof esc_prefix_free as [H _]%andb_true_iff. rewrite forallb_forall in H.
    apply list_elem_of_In in Hc, Hd.
    pose proof (H _ Hc) as H1. rewrite forallb_forall in H1. specialize (H1 _ Hd). rewrite E in H1.
    pose proof (H _ Hd) as H2. rewrite forallb_forall in H2. specialize (H2 _ Hc).
    rewrite Ascii.eqb_sym, E in H2. cbn in H1, H2. bool_prop. by apply app_inj_head.
Qed.

Lemma esc_char_not_quote c r s : code c <? 128 = true -> esc_char c +:+ r <> quote_char +:+ s.
Proof.
  intros Hc%ascii_char_in. apply list_elem_of_In in Hc.
  pose proof esc_prefix_free as [_ H]%andb_true_iff. rewrite forallb_forall in H. specialize (H _ Hc).
  apply andb_true_iff in H as [Hne H]. apply negb_true_iff in H. revert Hne H.
  destruct (esc_char c) as [|x e]; [done|]. intros _ H [= -> _]. revert H. by destruct e.
Qed.

Lemma json_chars_ascii c s : code c <? 128 = true -> json_chars (String c s) = esc_char c +:+ json_chars s.
Proof. intros H. cbn [json_chars]. by rewrite H. Qed.

Lemma json_chars_inj a b r s :
  ascii_string a = true -> ascii_string b = true ->
  json_chars a +:+ quote_char +:+ r = json_chars b +:+ quote_char +:+ s -> a = b /\ r = s.
Proof.
  revert b. induction a as [|c a IH]; intros [|d b] Ha Hb Heq.
  - cbn in Heq. by injection Heq.
  - exfalso. cbn in Hb. apply andb_true_iff in Hb as [Hd _]. rewrite json_chars_ascii in Heq by done.
    symmetry in Heq. rewrite str_app_assoc in Heq. exact (esc_char_not_quote _ _ _ Hd Heq).
  - exfalso. cbn in Ha. apply andb_true_iff in Ha as [Hc _]. rewrite json_chars_ascii in Heq by done.
    rewrite str_app_assoc in Heq. exact (esc_char_not_quote _ _ _ Hc Heq).
  - cbn in Ha, Hb. apply andb_true_iff in Ha as [Hc Ha], Hb as [Hd Hb].
    rewrite !json_chars_ascii in Heq by done. rewrite !str_app_assoc in Heq.
    apply esc_char_inj in Heq as [-> Heq]; [|done..]. apply IH in Heq as [-> ->]; done.
Qed.

Lemma json_string_inj a b r s :
  ascii_string a = true -> ascii_string b = true ->
  json_string a +:+ r = json_string b +:+ s -> a = b /\ r = s.
Proof.
  intros Ha Hb. unfold json_string. rewrite !str_app_assoc. intros Heq. cbn in Heq.
  injection Heq as Heq. by apply json_chars_inj.
Qed.

(** *** Numbers *)

Definition num_char (c : ascii) : bool := is_digit c || Ascii.eqb c "-".

Lemma pretty_N_go_numeric n s : str_forall num_char s = true -> str_forall num_char (pretty_N_go n s) = true.
Proof.
  revert s. induction (N.lt_wf_0 n) as [n _ IH]. intros s Hs.
  assert (n = 0 \/ 0 < n)%N as [->|Hn] by lia; [done|].
  rewrite pretty_N_go_step by done. apply IH; [apply N.div_lt; lia|].
  cbn. rewrite Hs, andb_true_r. unfold pretty_N_char. by repeat case_match.
Qed.

Lemma pretty_N_numeric (n : N) : str_forall num_char (pretty n) = true.
Proof. unfold pretty, pretty_N. case_decide; [done|]. by apply pretty_N_go_numeric. Qed.

Lemma pretty_Z_numeric (n : Z) : str_forall num_char (pretty n) = true.
Proof.
  unfold pretty, pretty_Z. destruct n as [|p|p]; [done|apply pretty_N_numeric|].
  cbn [str_forall String.append]. apply (pretty_N_numeric (N.pos p)).
Qed.

(** What may follow a value inside a document. *)
Definition delimiter (r : string) : Prop :=
  match r with EmptyString => True | String c _ => c = ","%char \/ c = "]"%char \/ c = "}"%char end.

Lemma delimiter_not_num c r : delimiter (String c r) -> num_char c = false.
Proof. by intros [->|[->| ->]]. Qed.

Lemma numeric_inj p q r s :
  str_forall num_char p = true -> str_forall num_char q = true -> delimiter r -> delimiter s ->
  p +:+ r = q +:+ s -> p = q /\ r = s.
Proof.
  revert q. induction p as [|c p IH]; intros [|d q] Hp Hq Hr Hs Heq.
  - done.
  - exfalso. change (r = String d (q +:+ s)) in Heq. cbn in Hq. subst r. apply delimiter_not_num in Hr. by rewrite Hr in Hq.
  - exfalso. change (String c (p +:+ r) = s) in Heq. cbn in Hp. subst s. apply delimiter_not_num in Hs. by rewrite Hs in Hp.
  - cbn in Hp, Hq. apply andb_true_iff in Hp as [_ Hp], Hq as [_ Hq]. injection Heq as -> Heq.
    destruct (IH q) as [-> ->]; done.
Qed.

(** *** The first character tells the kind of a value *)

Definition tag (v : value) : Z :=
  match v with
  | VNone => 0 | VBool true => 1 | VBool false => 2 | VInt _ => 3 | VStr _ => 4 | VList _ => 5
  | VDict _ => 6 | VFloat _ => 7
  end.
Definition char_tag (c : ascii) : Z :=
  if Ascii.eqb c "n" then 0 else if Ascii.eqb c "t" then 1 else if Ascii.eqb c "f" then 2
  else if num_char c then 3 else if code c =? 34 then 4 else if Ascii.eqb c "[" then 5
  else if Ascii.eqb c "{" then 6 else 7.

Lemma num_char_tag c : num_char c = true -> char_tag c = 3.
Proof.
  intros H. unfold char_tag. rewrite H.
  destruct (Ascii.eqb_spec c "n") as [->|_]; [done|]. destruct (Ascii.eqb_spec c "t") as [->|_]; [done|].
  by destruct (Ascii.eqb_spec c "f") as [->|_].
Qed.

Lemma pretty_Z_nonempty (n : Z) : (pretty n : string) <> "".
Proof.
  destruct (decide (n = 0)) as [->|Hn]; [done|]. intros H.
  assert (H0 : forall m, m <> 0%N -> (pretty m : string) <> "").
  { intros m Hm. intros E. assert (Hinj : (pretty m : string) = pretty m) by done.
    revert E. unfold pretty, pretty_N. rewrite decide_False by done.
    assert (Hgo : forall k s, s <> "" -> pretty_N_go k s <> "").
    { intros k. induction (N.lt_wf_0 k) as [k _ IH]. intros s Hs.
      assert (k = 0 \/ 0 < k)%N as [->|Hk] by lia; [done|]. rewrite pretty_N_go_step by done.
      apply IH; [apply N.div_lt; lia|done]. }
    rewrite pretty_N_go_step by lia. by apply Hgo. }
  destruct n as [|p|p]; [done| |done]. by apply (H0 (N.pos p)).
Qed.

Lemma json_head v : plain v = true -> exists c t, json v = String c t /\ char_tag c = tag v.
Proof.
  destruct v as [|[]|n|x|s|l|d]; cbn [plain]; intros Hp; try done; cbn [json_with]; try by do 2 eexists.
  pose proof (pretty_Z_numeric n) as Hn. pose proof (pretty_Z_nonempty n) as Hne.
  destruct (pretty n) as [|c t]; [done|]. exists c, t. split; [done|].
  cbn in Hn. apply andb_true_iff in Hn as [Hn _]. by apply num_char_tag.
Qed.

(** *** Lists *)

Section join.
Context {A : Type} (f : A -> string) (P : A -> Prop) (close : ascii).
Hypothesis Hclose : delimiter (String close EmptyString).
Hypothesis Hcomma : close <> ","%char.
Hypothesis Hhead : forall y, P y -> exists c t, f y = String c t /\ c <> close.

Definition determines (x : A) : Prop :=
  forall y r s, P y -> delimiter r -> delimiter s -> f x +:+ r = f y +:+ s -> x = y /\ r = s.

Definition join_tail (l : list A) : string :=
  match l with [] => EmptyString | _ => String "," (str_join "," (f <$> l)) end.

Lemma str_join_cons x l : str_join "," (f <$> x :: l) = f x +:+ join_tail l.
Proof.
  destruct l as [|y l]; cbn; [|done].
  induction (f x) as [|c t IH]; [done|]. change (String c t = String c (t +:+ "")). by rewrite <- IH.
Qed.

Lemma join_tail_delimiter l r : delimiter (join_tail l +:+ String close r).
Proof using Hclose. destruct l; cbn; [exact Hclose|by left]. Qed.

Lemma join_inj l : Forall (fun x => P x /\ determines x) l ->
  forall m r s, Forall P m ->
    str_join "," (f <$> l) +:+ String close r = str_join "," (f <$> m) +:+ String close s -> l = m /\ r = s.
Proof using Hclose Hcomma Hhead.
  induction 1 as [|x l [HPx Hx] Hl IH]; intros [|y m] r s Hm Heq.
  - cbn in Heq. by injection Heq.
  - exfalso. apply Forall_cons in Hm as [Hy _]. destruct (Hhead y Hy) as (c&t&E&Hc).
    rewrite str_join_cons, E, !str_app_cons in Heq. by injection Heq as <- _.
  - exfalso. destruct (Hhead x HPx) as (c&t&E&Hc). rewrite str_join_cons, E, !str_app_cons in Heq.
    by injection Heq as -> _.
  - apply Forall_cons in Hm as [Hy Hm]. rewrite !str_join_cons, !str_app_assoc in Heq.
    apply Hx in Heq as [-> Heq]; [|done|apply join_tail_delimiter..].
    destruct l as [|x' l], m as [|y' m]; cbn [join_tail] in Heq; rewrite ?str_app_nil, ?str_app_cons in Heq.
    + by injection Heq as ->.
    + injection Heq as E _. congruence.
    + injection Heq as E _. congruence.
    + apply str_cons_inj in Heq as [_ Heq]. apply IH in Heq as [E ->]; [|done]. by rewrite E.
Qed.
End join.

(** *** Documents *)

Lemma json_inj v : plain v = true -> determines json (fun w => plain w = true) v.
Proof.
  induction v as [|b|n|x|t|l IH|d IH] using value_ind'; intros Hv w r s Hw Hr Hs Heq.
  all: assert (Htag : tag w = tag _) by
    (match type of Heq with json ?v +:+ _ = _ => destruct (json_head v Hv) as (c&t1&E1&Hc1);
       destruct (json_head w Hw) as (c'&t2&E2&Hc2); rewrite E1, E2, !str_app_cons in Heq;
       injection Heq as -> _; rewrite <- Hc1, <- Hc2; reflexivity end).
  - destruct w as [|[]| | | | |]; try discriminate Htag. cbn in Heq. by injection Heq.
  - destruct b, w as [|[]| | | | |]; try discriminate Htag; cbn in Heq; by injection Heq.
  - destruct w as [|[]|m| | | |]; try discriminate Htag. cbn [json_with] in Heq.
    apply numeric_inj in Heq as [Heq ->]; [|apply pretty_Z_numeric..|done|done].
    apply (inj pretty) in Heq as ->. done.
  - done.
  - destruct w as [|[]| | |t'| |]; try discriminate Htag. cbn [json_with plain] in *.
    by apply json_string_inj in Heq as [-> ->].
  - destruct w as [|[]| | | |m|]; try discriminate Htag. cbn [json_with plain] in *.
    rewrite !str_app_cons, !str_app_nil, !str_app_assoc in Heq. apply str_cons_inj in Heq as [_ Heq].
    apply (join_inj json (fun w => plain w = true) "]") in Heq as [-> ->]; [done|by right; left|done| | |].
    + intros y Hy. destruct (json_head y Hy) as (c&t&E&Hc). exists c, t. split; [done|].
      intros ->. revert Hc. by destruct y as [|[]| | | | |].
    + rewrite Forall_forall in IH |- *. intros x Hx. rewrite forallb_forall in Hv.
      assert (plain x = true) by (by apply Hv, list_elem_of_In). split; [done|]. by apply IH.
    + apply Forall_forall. intros x Hx. rewrite forallb_forall in Hw. by apply Hw, list_elem_of_In.
  - destruct w as [|[]| | | | |e]; try discriminate Htag. cbn [json_with plain] in *.
    rewrite !str_app_cons, !str_app_nil, !str_app_assoc in Heq. apply str_cons_inj in Heq as [_ Heq].
    set (f := fun kv : string * value => json_string (fst kv) +:+ ":" +:+ json (snd kv)) in Heq.
    apply (join_inj f (fun kv => ascii_string (fst kv) && plain (snd kv) = true) "}") in Heq as [-> ->];
      [done|by right; right|done| | |].
    + intros y _. by do 2 eexists.
    + rewrite Forall_forall in IH |- *. intros [k x] Hx. rewrite forallb_forall in Hv.
      assert (Hkx : ascii_string k && plain x = true) by (by apply (Hv (k, x)), list_elem_of_In).
      split; [done|]. apply andb_true_iff in Hkx as [Hk Hpx].
      intros [k' y] r' s' [Hk' Hpy]%andb_true_iff Hr' Hs' He. unfold f in He. cbn [fst snd] in *.
      rewrite !str_app_assoc in He. apply json_string_inj in He as [-> He]; [|done..]. rewrite !str_app_cons, !str_app_nil in He. apply str_cons_inj in He as [_ He].
      specialize (IH _ Hx Hpx y r' s' Hpy Hr' Hs' He) as [E ->]. cbn in E. by subst y.
    + apply Forall_forall. intros x Hx. rewrite forallb_forall in Hw. by apply Hw, list_elem_of_In.
Qed.

Lemma plain_sort_keys v : plain v = true -> plain (sort_keys v) = true.
Proof.
  induction v as [|b|n|x|t|l IH|d IH] using value_ind'; try done; cbn [plain sort_keys]; rewrite !forallb_forall.
  - intros Hv x Hx. apply list_elem_of_In, list_elem_of_fmap in Hx as (y&->&Hy).
    rewrite Forall_forall in IH. apply IH; [done|]. by apply Hv, list_elem_of_In.
  - intros Hv [k x] Hx. apply list_elem_of_In, elem_of_py_sorted, list_elem_of_fmap in Hx as ([k' y]&[= -> ->]&Hy).
    rewrite Forall_forall in IH. specialize (Hv (k', y)). rewrite <- list_elem_of_In in Hv.
    specialize (Hv Hy). cbn in Hv |- *. apply andb_true_iff in Hv as [Hk Hpy].
    rewrite Hk. by apply (IH (k', y)).
Qed.

(** The canonical text determines a document up to the order of its keys. *)
Lemma canonical_inj v w :
  plain v = true -> plain w = true -> canonical v = canonical w -> sort_keys v = sort_keys w.
Proof.
  intros Hv%plain_sort_keys Hw%plain_sort_keys. unfold canonical. intros Heq.
  assert (H : forall s, s +:+ "" = s).
  { induction s as [|c s IH]; [done|]. change (String c (s +:+ "") = String c s). by rewrite IH. }
  apply (json_inj (sort_keys v) Hv (sort_keys w) "" ""); [done..|]. by rewrite !H.
Qed.

(** *** Sorting keys is idempotent *)

Lemma py_insert_fmap_snd {A B} (f : A -> B) x (l : list (string * A)) :
  py_insert fst (fst x, f (snd x)) ((fun kv => (fst kv, f (snd kv))) <$> l) =
  (fun kv => (fst kv, f (snd kv))) <$> py_insert fst x l.
Proof. induction l as [|y l IH]; [done|]. cbn. destruct (String.leb _ _); [done|]. cbn. by rewrite <- IH. Qed.

Lemma py_sorted_fmap_snd {A B} (f : A -> B) (l : list (string * A)) :
  py_sorted fst ((fun kv => (fst kv, f (snd kv))) <$> l) = (fun kv => (fst kv, f (snd kv))) <$> py_sorted fst l.
Proof.
  induction l as [|x l IH]; [done|]. rewrite fmap_cons. cbn [py_sorted]. by rewrite IH, py_insert_fmap_snd.
Qed.

Lemma sort_keys_idem v : sort_keys (sort_keys v) = sort_keys v.
Proof.
  induction v as [| | | | |l IH|d IH] using value_ind'; try done; cbn [sort_keys]; f_equal.
  - rewrite <- list_fmap_compose. apply list_fmap_ext. intros i x Hx. rewrite Forall_forall in IH.
    apply IH. by eapply list_elem_of_lookup_2.
  - rewrite !py_sorted_fmap_snd, <- list_fmap_compose.
    assert (Hs : py_sorted fst ((fun kv : string * value => (fst kv, sort_keys (snd kv))) <$> py_sorted fst d) =
                 (fun kv => (fst kv, sort_keys (snd kv))) <$> py_sorted fst d).
    { rewrite py_sorted_fmap_snd. f_equal. apply py_sorted_id. by apply py_sorted_ordered. }
    rewrite py_sorted_fmap_snd in Hs.
    rewrite py_sorted_id by (by apply py_sorted_ordered). apply list_fmap_ext. intros i x Hx. cbn. f_equal.
    rewrite Forall_forall in IH. apply IH. apply (elem_of_py_sorted fst). by eapply list_elem_of_lookup_2.
Qed.

Lemma dget_sort_keys k d :
  dwf d -> dget k (py_sorted fst ((fun kv => (fst kv, sort_keys (snd kv))) <$> d)) = sort_keys <$> dget k d.
Proof.
  intros Hwf. set (d' := (fun kv => (fst kv, sort_keys (snd kv))) <$> d).
  assert (Hk : dkeys d' = dkeys d).
  { unfold dkeys, d'. rewrite <- list_fmap_compose. by apply list_fmap_ext. }
  rewrite <- (dget_perm k d').
  - unfold d'. clear. induction d as [|[k' v] d IH]; [done|]. cbn. by destruct (String.eqb k k').
  - unfold dwf. by rewrite Hk.
  - symmetry. apply py_sorted_perm.
Qed.
