(* ===== verification/JsonParse.v ===== *)
(** * Reading JSON text ([json.loads])

    A parser of JSON texts as [json.loads] reads them, with Python's extensions ([NaN], [Infinity]),
    and that it reads back what [json.dumps] writes, for documents without floats whose strings are
    ASCII ([loads_layout]).  The positions in the messages of [JSONDecodeError] and Python's limits on
    nesting and on the digits of an integer are left out. *)
From stdpp Require Import pretty.
From Stdlib Require Import SpecFloat Ascii.
From S2P Require Export Json.

Definition decode_error {A} (msg : string) : res A := Raise (Exn JSONDecodeError msg).

(** ** UTF-8 *)

(** A character of [n] more bytes, whose first one is between [lo] and [hi]. *)
Definition in_range (lo hi : Z) (c : ascii) : bool := (lo <=? code c) && (code c <=? hi).
Fixpoint valid_utf8 (s : string) : bool :=
  match s with
  | EmptyString => true
  | String a s1 =>
      if code a <? 128 then valid_utf8 s1
      else match s1 with
      | EmptyString => false
      | String b s2 =>
          if in_range 194 223 a then is_cont b && valid_utf8 s2
          else match s2 with
          | EmptyString => false
          | String c s3 =>
              if in_range 224 239 a then
                in_range (if code a =? 224 then 160 else 128) (if code a =? 237 then 159 else 191) b && is_cont c && valid_utf8 s3
              else match s3 with
              | EmptyString => false
              | String d s4 =>
                  in_range 240 244 a && in_range (if code a =? 240 then 144 else 128) (if code a =? 244 then 143 else 191) b &&
                  is_cont c && is_cont d && valid_utf8 s4
              end
          end
      end
  end.

(** The bytes of a code point; a lone surrogate is kept as three bytes. *)
Definition byte_of (n : Z) : ascii := ascii_of_nat (Z.to_nat n).
Definition utf8 (n : Z) : string :=
  if n <? 128 then String (byte_of n) EmptyString
  else if n <? 2048 then String (byte_of (192 + n / 64)) (String (byte_of (128 + n mod 64)) EmptyString)
  else if n <? 65536
  then String (byte_of (224 + n / 4096)) (String (byte_of (128 + n / 64 mod 64)) (String (byte_of (128 + n mod 64)) EmptyString))
  else String (byte_of (240 + n / 262144)) (String (byte_of (128 + n / 4096 mod 64))
         (String (byte_of (128 + n / 64 mod 64)) (String (byte_of (128 + n mod 64)) EmptyString))).

(** ** Strings *)

Definition hex4 (a b c d : ascii) : option Z :=
  a ← digit_val 16 a; b ← digit_val 16 b; c ← digit_val 16 c; d ← digit_val 16 d;
  Some (a * 4096 + b * 256 + c * 16 + d).

Definition simple_escape (e : ascii) : option ascii :=
  if code e =? 34 then Some e else if Ascii.eqb e "\" then Some e else if Ascii.eqb e "/" then Some e
  else if Ascii.eqb e "b" then Some (ascii_of_nat 8) else if Ascii.eqb e "f" then Some (ascii_of_nat 12)
  else if Ascii.eqb e "n" then Some (ascii_of_nat 10) else if Ascii.eqb e "r" then Some (ascii_of_nat 13)
  else if Ascii.eqb e "t" then Some (ascii_of_nat 9) else None.

Definition prepend (t : string) (r : res (string * string)) : res (string * string) :=
  '(u, s) ← r; Ok (t +:+ u, s).

Definition is_high (n : Z) : bool := (55296 <=? n) && (n <=? 56319).
Definition is_low (n : Z) : bool := (56320 <=? n) && (n <=? 57343).

(** The rest of a string literal after its opening quote: its value, and what follows it. *)
Fixpoint scan_string (s : string) : res (string * string) :=
  match s with
  | EmptyString => decode_error "Unterminated string starting at"
  | String c s1 =>
      if code c =? 34 then Ok ("", s1)
      else if code c <? 32 then decode_error "Invalid control character at"
      else if code c =? 92 then
        match s1 with
        | EmptyString => decode_error "Unterminated string starting at"
        | String e s2 =>
            if Ascii.eqb e "u" then
              match s2 with
              | String a (String b (String c (String d s3))) =>
                  match hex4 a b c d with
                  | None => decode_error "Invalid \uXXXX escape"
                  | Some n =>
                      match is_high n, s3 with
                      | true, String x (String y (String a (String b (String c (String d s4))))) =>
                          match Ascii.eqb x "\" && Ascii.eqb y "u", hex4 a b c d with
                          | true, Some m =>
                              if is_low m then prepend (utf8 (65536 + (n - 55296) * 1024 + (m - 56320))) (scan_string s4)
                              else prepend (utf8 n) (scan_string s3)
                          | _, _ => prepend (utf8 n) (scan_string s3)
                          end
                      | _, _ => prepend (utf8 n) (scan_string s3)
                      end
                  end
              | _ => decode_error "Invalid \uXXXX escape"
              end
            else match simple_escape e with
                 | Some x => prepend (String x EmptyString) (scan_string s2)
                 | None => decode_error "Invalid \escape"
                 end
        end
      else prepend (String c EmptyString) (scan_string s1)
  end.

(** ** Numbers *)

(** A number: an integer part without leading zeros, then an optional fraction and exponent. *)
Definition scan_int (s : string) : option (string * string) :=
  match s with
  | String c r => if Ascii.eqb c "0" then Some ("0", r) else let '(a, r) := span is_digit s in if str_empty a then None else Some (a, r)
  | EmptyString => None
  end.
Definition scan_frac (s : string) : string * string :=
  match s with
  | String "." r => let '(a, r') := span is_digit r in if str_empty a then ("", s) else ("." +:+ a, r')
  | _ => ("", s)
  end.
Definition scan_exp (s : string) : string * string :=
  match s with
  | String e r =>
      if Ascii.eqb (lower_char e) "e" then
        let '(sign, r) := match r with
          | String c r' => if Ascii.eqb c "-" || Ascii.eqb c "+" then (String c "", r') else ("", r)
          | EmptyString => ("", r)
          end in
        let '(a, r) := span is_digit r in if str_empty a then ("", s) else (String "e" (sign +:+ a), r)
      else ("", s)
  | EmptyString => ("", s)
  end.
Definition parse_number (s : string) : res (value * string) :=
  let '(neg, t) := match s with String "-" t => (true, t) | _ => (false, s) end in
  match scan_int t with
  | Some (i, r) =>
      let '(f, r) := scan_frac r in
      let '(e, r) := scan_exp r in
      if str_empty f && str_empty e then Ok (VInt (let n := default 0 (parse_digits 10 i 0 false false) in if neg : bool then - n else n), r)
      else Ok (VFloat (let x := default fzero (float_of_string (i +:+ f +:+ e)) in if neg : bool then float_neg x else x), r)
  | None =>
      match neg, strip_prefix "Infinity" t with
      | true, Some r => Ok (VFloat (S754_infinity true), r)
      | _, _ => decode_error "Expecting value"
      end
  end.

(** ** Documents *)

Definition is_ws (c : ascii) : bool := existsb (Z.eqb (code c)) [32; 9; 10; 13].
Definition skip_ws : string -> string := str_lstrip is_ws.

Definition literals : list (string * value) :=
  [("null", VNone); ("true", VBool true); ("false", VBool false); ("NaN", VFloat S754_nan);
   ("Infinity", VFloat (S754_infinity false))].
Fixpoint parse_literal (l : list (string * value)) (s : string) : option (value * string) :=
  match l with
  | [] => None
  | (t, v) :: l => match strip_prefix t s with Some r => Some (v, r) | None => parse_literal l s end
  end.

(** A value at the head of a text, the members of an object, the items of an array; two units of
    fuel per character are enough. *)
Fixpoint parse_value (fuel : nat) (s : string) {struct fuel} : res (value * string) :=
  match fuel with
  | O => Raise (Exn RuntimeError "fuel")
  | S fuel =>
      match s with
      | EmptyString => decode_error "Expecting value"
      | String c r =>
          if code c =? 34 then '(t, r) ← scan_string r; Ok (VStr t, r)
          else if Ascii.eqb c "{" then
            match skip_ws r with
            | String "}" r => Ok (VDict [], r)
            | r => '(d, r) ← parse_members fuel [] r; Ok (VDict d, r)
            end
          else if Ascii.eqb c "[" then
            match skip_ws r with
            | String "]" r => Ok (VList [], r)
            | r => '(l, r) ← parse_items fuel r; Ok (VList l, r)
            end
          else match parse_literal literals s with Some vr => Ok vr | None => parse_number s end
      end
  end
with parse_members (fuel : nat) (d : dict value) (s : string) {struct fuel} : res (dict value * string) :=
  match fuel with
  | O => Raise (Exn RuntimeError "fuel")
  | S fuel =>
      match s with
      | String c r =>
          if code c =? 34 then
            '(k, r) ← scan_string r;
            match skip_ws r with
            | String ":" r =>
                '(v, r) ← parse_value fuel (skip_ws r);
                match skip_ws r with
                | String "," r => parse_members fuel (dset k v d) (skip_ws r)
                | String "}" r => Ok (dset k v d, r)
                | _ => decode_error "Expecting ',' delimiter"
                end
            | _ => decode_error "Expecting ':' delimiter"
            end
          else decode_error "Expecting property name enclosed in double quotes"
      | EmptyString => decode_error "Expecting property name enclosed in double quotes"
      end
  end
with parse_items (fuel : nat) (s : string) {struct fuel} : res (list value * string) :=
  match fuel with
  | O => Raise (Exn RuntimeError "fuel")
  | S fuel =>
      '(v, r) ← parse_value fuel s;
      match skip_ws r with
      | String "," r => '(l, r) ← parse_items fuel (skip_ws r); Ok (v :: l, r)
      | String "]" r => Ok ([v], r)
      | _ => decode_error "Expecting ',' delimiter"
      end
  end.

(** [json.loads] of the bytes of a text. *)
Definition loads (s : string) : res value :=
  if negb (valid_utf8 s) then Raise (Exn UnicodeError "invalid utf-8")
  else
    '(v, r) ← parse_value (2 * String.length s + 1) (skip_ws s);
    if str_empty (skip_ws r) then Ok v else decode_error "Extra data".

Example loads_ex :
  loads (" [1, -2.5e1,{" +:+ quote_char +:+ "a" +:+ quote_char +:+ " :[ ]} , " +:+ quote_char +:+ "\u0041\n" +:+ quote_char +:+ " ] ") =
  Ok (VList [VInt 1; VFloat (ratio (-25) 1); VDict [("a", VList [])]; VStr ("A" +:+ sp 10)]).
Proof. vm_compute. reflexivity. Qed.

(** ** Digits *)

(** The number a string of digits denotes. *)
Fixpoint digits_value (s : string) (acc : N) : N :=
  match s with EmptyString => acc | String c s => digits_value s (acc * 10 + N.of_nat (nat_of_ascii c - 48))%N end.

Lemma digits_value_app s t acc : digits_value (s +:+ t) acc = digits_value t (digits_value s acc).
Proof.
  revert acc. induction s as [|c s IH]; intros acc; [done|].
  change (digits_value (String c (s +:+ t)) acc = digits_value t (digits_value (String c s) acc)). apply IH.
Qed.

Lemma digits_value_zeros n s : digits_value (zeros n +:+ s) 0 = digits_value s 0.
Proof. rewrite digits_value_app. f_equal. induction n as [|n IH]; [done|]. exact IH. Qed.

Lemma pretty_N_go_value n s acc :
  exists k, digits_value (pretty_N_go n s) acc = digits_value s (acc * 10 ^ k + n)%N.
Proof.
  revert s acc. induction (N.lt_wf_0 n) as [n _ IH]. intros s acc.
  assert (n = 0 \/ 0 < n)%N as [->|Hn] by lia.
  - exists 0%N. rewrite pretty_N_go_0. f_equal. lia.
  - rewrite pretty_N_go_step by done.
    destruct (IH (n `div` 10)%N ltac:(apply N.div_lt; lia) (String (pretty_N_char (n `mod` 10)) s) acc) as [k ->].
    exists (N.succ k). cbn [digits_value]. f_equal. rewrite N.pow_succ_r'.
    assert (Hc : N.of_nat (nat_of_ascii (pretty_N_char (n `mod` 10)) - 48) = (n `mod` 10)%N).
    { pose proof (N.mod_lt n 10 ltac:(lia)) as Hlt. generalize dependent (n `mod` 10)%N. intros m Hm.
      assert (Hin : m ∈ N.of_nat <$> seq 0 10).
      { apply list_elem_of_fmap. exists (N.to_nat m). split; [lia|]. apply elem_of_seq. lia. }
      cbn in Hin. repeat (apply elem_of_cons in Hin as [->|Hin]; [reflexivity|]). by apply not_elem_of_nil in Hin. }
    rewrite Hc. pose proof (N.div_mod n 10 ltac:(lia)). nia.
Qed.

Lemma pretty_value (n : Z) : 0 <= n -> digits_value (pretty n) 0 = Z.to_N n.
Proof.
  intros Hn. destruct n as [|p|p]; [done| |lia]. change (pretty (Z.pos p)) with (pretty (N.pos p)).
  unfold pretty, pretty_N. rewrite decide_False by done. destruct (pretty_N_go_value (N.pos p) "" 0) as [k ->]. cbn. lia.
Qed.

Lemma pretty_digits (n : Z) : 0 <= n -> str_forall is_digit (pretty n) = true.
Proof.
  intros Hn. destruct n as [|p|p]; [done| |lia]. change (pretty (Z.pos p)) with (pretty (N.pos p)).
  unfold pretty, pretty_N. rewrite decide_False by done. generalize "" (eq_refl : str_forall is_digit "" = true).
  generalize (N.pos p). intros m. induction (N.lt_wf_0 m) as [m _ IH]. intros s Hs.
  assert (m = 0 \/ 0 < m)%N as [->|Hm] by lia; [by rewrite pretty_N_go_0|].
  rewrite pretty_N_go_step by done. apply IH; [apply N.div_lt; lia|]. cbn. rewrite Hs, andb_true_r.
  unfold pretty_N_char. by repeat case_match.
Qed.

(** No leading zero. *)
Lemma pretty_head (n : Z) : 0 < n -> exists c t, pretty n = String c t /\ is_digit c = true /\ c <> "0"%char.
Proof.
  intros Hn. destruct n as [|p|p]; [lia| |lia]. change (pretty (Z.pos p)) with (pretty (N.pos p)).
  unfold pretty, pretty_N. rewrite decide_False by done. generalize "". assert (Hp : (0 < N.pos p)%N) by lia.
  revert Hp. generalize (N.pos p). intros m. induction (N.lt_wf_0 m) as [m _ IH]. intros Hm s.
  rewrite pretty_N_go_step by done. destruct (decide (m `div` 10 = 0)%N) as [E|E].
  - rewrite E, pretty_N_go_0. eexists _, _. split; [done|].
    assert (Hlt : (m < 10)%N) by (by apply N.div_small_iff in E). rewrite N.mod_small by done.
    assert (Hin : m ∈ N.of_nat <$> seq 1 9).
    { apply list_elem_of_fmap. exists (N.to_nat m). split; [lia|]. apply elem_of_seq. lia. }
    cbn in Hin. repeat (apply elem_of_cons in Hin as [->|Hin]; [by split|]). by apply not_elem_of_nil in Hin.
  - apply IH; [apply N.div_lt; lia|apply N.neq_0_lt_0, E].
Qed.

Lemma parse_digits_value s acc seen us :
  str_forall is_digit s = true -> 0 <= acc -> (s <> "" \/ seen && us = true) ->
  parse_digits 10 s acc seen us = Some (Z.of_N (digits_value s (Z.to_N acc))).
Proof.
  revert acc seen us. induction s as [|c s IH]; intros acc seen us Hs Hacc Hne.
  - destruct Hne as [?|Hne]; [done|]. cbn. rewrite Hne. f_equal. lia.
  - cbn [str_forall] in Hs. apply andb_true_iff in Hs as [Hc Hs]. cbn [parse_digits digits_value].
    assert (Hu : Ascii.eqb c "_" = false).
    { destruct (Ascii.eqb_spec c "_") as [->|]; [discriminate Hc|done]. }
    rewrite Hu. unfold digit_val. rewrite Hc. unfold is_digit in Hc. bool_prop.
    rewrite (proj2 (Z.ltb_lt _ _)) by lia. rewrite IH; [|done|lia|by right].
    do 3 f_equal. unfold code in *. lia.
Qed.

Lemma span_app f a r : str_forall f a = true -> match r with String c _ => f c = false | EmptyString => True end ->
  span f (a +:+ r) = (a, r).
Proof.
  intros Ha Hr. induction a as [|c a IH].
  - destruct r as [|c r]; [done|]. change (span f (String c r) = ("", String c r)). cbn. by rewrite Hr.
  - cbn in Ha. apply andb_true_iff in Ha as [Hc Ha]. rewrite str_app_cons. cbn [span]. by rewrite Hc, IH.
Qed.

(** What may follow a value: the end, a delimiter or a blank. *)
Definition stop (r : string) : Prop :=
  match r with EmptyString => True | String c _ => existsb (Ascii.eqb c) [","; "]"; "}"]%char = true \/ is_ws c = true end.

Lemma stop_chars c r : stop (String c r) -> is_digit c = false /\ c <> "."%char /\ Ascii.eqb (lower_char c) "e" = false.
Proof.
  intros [H|H].
  - cbn [existsb] in H. repeat (apply orb_true_iff in H as [H%Ascii.eqb_eq|H]; [subst c; by split_and!|]). done.
  - unfold is_ws in H. cbn [existsb] in H.
    assert (Hn : forall n, code c =? n = true -> c = ascii_of_nat (Z.to_nat n)).
    { intros n Hn%Z.eqb_eq. unfold code in Hn. rewrite <- (ascii_nat_embedding c). f_equal. lia. }
    repeat (apply orb_true_iff in H as [H%Hn|H]; [subst c; by split_and!|]). done.
Qed.

Lemma stop_number r : stop r -> scan_frac r = ("", r) /\ scan_exp r = ("", r).
Proof.
  destruct r as [|c r]; [done|]. intros Hs. destruct (stop_chars _ _ Hs) as (_&Hd&He). split.
  - unfold scan_frac. destruct c as [[] [] [] [] [] [] [] []]; try done. 
  - unfold scan_exp. by rewrite He.
Qed.

Lemma scan_int_pretty n r : 0 <= n -> stop r -> scan_int (pretty n +:+ r) = Some (pretty n, r).
Proof.
  intros Hn Hr. destruct (decide (n = 0)) as [->|Hne]; [done|].
  destruct (pretty_head n) as (c&t&E&Hc&H0); [lia|]. pose proof (pretty_digits n Hn) as Hd.
  assert (Hspan : span is_digit (pretty n +:+ r) = (pretty n, r)).
  { apply span_app; [done|]. destruct r; [done|]. by apply stop_chars in Hr as [? _]. }
  rewrite E, str_app_cons in *. unfold scan_int.
  destruct (Ascii.eqb_spec c "0"); [done|]. by rewrite Hspan.
Qed.

Lemma parse_int n r : stop r -> parse_number (pretty n +:+ r) = Ok (VInt n, r).
Proof.
  intros Hr. destruct (stop_number r Hr) as [Hf He].
  assert (Hpos : forall m, 0 <= m -> parse_digits 10 (pretty m) 0 false false = Some m).
  { intros m Hm. rewrite parse_digits_value; [|by apply pretty_digits|lia|left; apply pretty_Z_nonempty].
    change (Z.to_N 0) with 0%N. rewrite pretty_value by done. f_equal. lia. }
  destruct (decide (0 <= n)) as [Hn|Hn].
  - assert (E : forall s, s = pretty n +:+ r -> (match s with String "-" t => (true, t) | _ => (false, s) end) = (false, s)).
    { intros s ->. pose proof (pretty_digits n Hn) as Hd. pose proof (pretty_Z_nonempty n) as Hne.
      destruct (pretty n) as [|c t]; [done|]. rewrite str_app_cons. cbn in Hd. apply andb_true_iff in Hd as [Hd _].
      destruct c as [[] [] [] [] [] [] [] []]; done. }
    unfold parse_number. rewrite (E _ eq_refl), scan_int_pretty, Hf, He by done. cbn [str_empty andb default].
    by rewrite Hpos.
  - destruct n as [|p|p]; [lia|lia|]. change (pretty (Z.neg p)) with ("-" +:+ pretty (Z.pos p)).
    rewrite str_app_assoc, str_app_cons, str_app_nil. unfold parse_number. rewrite scan_int_pretty, Hf, He by done.
    cbn [str_empty andb]. by rewrite Hpos.
Qed.

(** ** Strings are read back *)

Lemma prepend_Ok t u s : prepend t (Ok (u, s)) = Ok (t +:+ u, s).
Proof. done. Qed.

Lemma scan_esc_char c s : code c <? 128 = true -> scan_string (esc_char c +:+ s) = prepend (String c "") (scan_string s).
Proof. destruct c as [[] [] [] [] [] [] [] []]; intros H; try discriminate H; reflexivity. Qed.

Lemma scan_esc_raw c s : code c <? 128 = true -> scan_string (esc_raw c +:+ s) = prepend (String c "") (scan_string s).
Proof. destruct c as [[] [] [] [] [] [] [] []]; intros H; try discriminate H; reflexivity. Qed.

Lemma scan_quote r : scan_string (quote_char +:+ r) = Ok ("", r).
Proof. reflexivity. Qed.

(** A way of writing strings that [json.loads] reads back, in ASCII. *)
Definition reads_back (quote : string -> string) : Prop := forall s, ascii_string s = true ->
  ascii_string (quote s) = true /\
  exists q, quote s = quote_char +:+ q /\ forall r, scan_string (q +:+ r) = Ok (s, r).

Lemma esc_char_ascii c : code c <? 128 = true -> ascii_string (esc_char c) = true.
Proof. destruct c as [[] [] [] [] [] [] [] []]; intros H; try discriminate H; reflexivity. Qed.
Lemma esc_raw_ascii c : code c <? 128 = true -> ascii_string (esc_raw c) = true.
Proof. destruct c as [[] [] [] [] [] [] [] []]; intros H; try discriminate H; reflexivity. Qed.

Lemma ascii_app a b : ascii_string (a +:+ b) = ascii_string a && ascii_string b.
Proof. apply str_forall_app. Qed.

Lemma json_string_reads_back : reads_back json_string.
Proof.
  intros s Hs. split.
  - unfold json_string. rewrite !ascii_app, andb_true_r. cbn [ascii_string str_forall quote_char sp andb].
    induction s as [|c s IH]; [done|]. cbn [ascii_string str_forall] in Hs. apply andb_true_iff in Hs as [Hc Hs].
    rewrite json_chars_ascii, ascii_app, esc_char_ascii by done. by apply IH.
  - exists (json_chars s +:+ quote_char). split; [done|]. intros r. rewrite str_app_assoc.
    induction s as [|c s IH]; [apply scan_quote|]. cbn [ascii_string str_forall] in Hs. apply andb_true_iff in Hs as [Hc Hs].
    rewrite json_chars_ascii, str_app_assoc, scan_esc_char by done. by rewrite IH.
Qed.

Lemma json_string_raw_reads_back : reads_back json_string_raw.
Proof.
  intros s Hs. split.
  - unfold json_string_raw. rewrite !ascii_app, andb_true_r. cbn [ascii_string str_forall quote_char sp andb].
    induction s as [|c s IH]; [done|]. cbn [ascii_string str_forall] in Hs. apply andb_true_iff in Hs as [Hc Hs].
    cbn [raw_chars]. rewrite ascii_app, esc_raw_ascii by done. by apply IH.
  - exists (raw_chars s +:+ quote_char). split; [done|]. intros r. rewrite str_app_assoc.
    induction s as [|c s IH]; [apply scan_quote|]. cbn [ascii_string str_forall] in Hs. apply andb_true_iff in Hs as [Hc Hs].
    cbn [raw_chars]. rewrite str_app_assoc, scan_esc_raw by done. by rewrite IH.
Qed.

(** ** Layouts *)

(** [json.dumps(v, indent=...)]: [nl n] is what separates elements at depth [n], [colon] what separates
    a key from its value. *)
Section layout.
Context (quote : string -> string) (nl : nat -> string) (colon : string).
Fixpoint json_layout (n : nat) (v : value) : string :=
  match v with
  | VNone => "null"
  | VBool b => if b then "true" else "false"
  | VInt n => pretty n
  | VFloat x => json_float x
  | VStr s => quote s
  | VList [] => "[]"
  | VList l => "[" +:+ nl (S n) +:+ str_join ("," +:+ nl (S n)) (json_layout (S n) <$> l) +:+ nl n +:+ "]"
  | VDict [] => "{}"
  | VDict d => "{" +:+ nl (S n) +:+
      str_join ("," +:+ nl (S n)) ((fun kv => quote (fst kv) +:+ colon +:+ json_layout (S n) (snd kv)) <$> d) +:+ nl n +:+ "}"
  end.
End layout.

(** Without blanks it is the compact text. *)
Lemma json_layout_compact quote k v : json_layout quote (fun _ => "") ":" k v = json_with quote v.
Proof.
  revert k. induction v as [| | | | |l IH|d IH] using value_ind'; intros k; try done.
  - destruct l as [|x l]; [done|]. cbn [json_layout json_with]. rewrite str_app_nil. f_equal. f_equal.
    f_equal. apply list_fmap_ext. intros i y Hy. rewrite Forall_forall in IH. apply IH. by eapply list_elem_of_lookup_2.
  - destruct d as [|x d]; [done|]. cbn [json_layout json_with]. rewrite str_app_nil. f_equal. f_equal.
    f_equal. apply list_fmap_ext. intros i y Hy. rewrite Forall_forall in IH. do 2 f_equal. apply IH.
    by eapply list_elem_of_lookup_2.
Qed.

(** Documents that are read back: no floats, ASCII strings, and distinct keys in every object. *)
Fixpoint distinct_keys (v : value) : bool :=
  match v with
  | VList l => forallb distinct_keys l
  | VDict d => bool_decide (NoDup (dkeys d)) && forallb (fun kv => distinct_keys (snd kv)) d
  | _ => true
  end.
Definition json_ok (v : value) : bool := plain v && distinct_keys v.

(** The fuel a value needs. *)
Fixpoint weight (v : value) : nat :=
  match v with
  | VList l => S (foldr (fun x n => S (weight x + n)) O l)
  | VDict d => S (foldr (fun kv n => S (weight (snd kv) + n)) O d)
  | _ => 1%nat
  end.

Lemma skip_ws_app w s : str_forall is_ws w = true -> skip_ws (w +:+ s) = skip_ws s.
Proof.
  intros H. induction w as [|c w IH]; [done|]. cbn [str_forall] in H. apply andb_true_iff in H as [Hc H].
  rewrite str_app_cons. unfold skip_ws in *. cbn [str_lstrip]. rewrite Hc. by apply IH.
Qed.
Lemma skip_ws_cons c s : is_ws c = false -> skip_ws (String c s) = String c s.
Proof. intros H. unfold skip_ws. cbn [str_lstrip]. by rewrite H. Qed.

Section read_back.
Context (quote : string -> string) (nl : nat -> string) (gap : string).
Hypothesis quotes : reads_back quote.
Hypothesis blanks : forall n, str_forall is_ws (nl n) = true.
Hypothesis gap_blank : str_forall is_ws gap = true.
Abbreviation layout := (json_layout quote nl (":" +:+ gap)).

Lemma stop_blanks n c r : stop (String c r) -> stop (nl n +:+ String c r).
Proof using blanks.
  intros H. pose proof (blanks n) as Hb. destruct (nl n) as [|d w]; [done|]. rewrite str_app_cons. right.
  cbn [str_forall] in Hb. by apply andb_true_iff in Hb as [Hd _].
Qed.

(** The first character of a value. *)
Definition opens (c : ascii) : bool := negb (is_ws c) && negb (Ascii.eqb c "]").
Lemma num_opens c : num_char c = true -> opens c = true.
Proof. destruct c as [[] [] [] [] [] [] [] []]; intros H; try discriminate H; reflexivity. Qed.

Lemma layout_head n v r : plain v = true -> exists c t, layout n v +:+ r = String c t /\ opens c = true.
Proof using quotes.
  destruct v as [|[]|m|x|s|l|d]; cbn [plain]; intros Hp; try done; cbn [json_layout]; try by do 2 eexists.
  - pose proof (pretty_Z_numeric m) as Hn. pose proof (pretty_Z_nonempty m) as Hne.
    destruct (pretty m) as [|c t]; [done|]. exists c, (t +:+ r). split; [by rewrite str_app_cons|].
    cbn in Hn. apply andb_true_iff in Hn as [Hn _]. by apply num_opens.
  - destruct (quotes s Hp) as (_&q&->&_). by do 2 eexists.
  - destruct l; by do 2 eexists.
  - destruct d; by do 2 eexists.
Qed.

Lemma opens_skip w c t : str_forall is_ws w = true -> opens c = true -> skip_ws (w +:+ String c t) = String c t.
Proof. intros Hw Hc. rewrite skip_ws_app by done. unfold opens in Hc. bool_prop. by rewrite skip_ws_cons. Qed.

(** [parse_value] is determined by the first character. *)
Lemma parse_value_number fuel n r : stop r -> parse_value (S fuel) (pretty n +:+ r) = Ok (VInt n, r).
Proof.
  intros Hr. rewrite <- parse_int by done. pose proof (pretty_Z_numeric n) as Hn. pose proof (pretty_Z_nonempty n) as Hne.
  destruct (pretty n) as [|c t]; [done|]. cbn in Hn. apply andb_true_iff in Hn as [Hn _]. rewrite str_app_cons.
  destruct c as [[] [] [] [] [] [] [] []]; try discriminate Hn; reflexivity.
Qed.

(** The items of an array after its bracket and blanks. *)
Definition items_text (n : nat) (l : list value) : string := str_join ("," +:+ nl (S n)) (layout (S n) <$> l) +:+ nl n +:+ "]".
Lemma items_text_cons n x l : items_text n (x :: l) =
  layout (S n) x +:+ match l with [] => nl n +:+ "]" | _ => "," +:+ nl (S n) +:+ items_text n l end.
Proof.
  unfold items_text. destruct l as [|y l]; [done|].
  cbn [fmap list_fmap str_join]. by rewrite !str_app_assoc.
Qed.

Definition reads_value (v : value) : Prop := forall n fuel r, json_ok v = true -> (weight v <= fuel)%nat -> stop r ->
  parse_value fuel (layout n v +:+ r) = Ok (v, r).

Lemma parse_items_text n l fuel r : l <> [] -> Forall reads_value l -> forallb json_ok l = true ->
  (foldr (fun x n => S (weight x + n)) O l <= fuel)%nat -> parse_items fuel (items_text n l +:+ r) = Ok (l, r).
Proof using blanks quotes.
  intros Hne Hl. revert fuel r Hne. induction Hl as [|x l Hx Hl IH]; intros fuel r Hne Hok Hf; [done|].
  cbn [foldr forallb] in Hf, Hok. apply andb_true_iff in Hok as [Hokx Hok].
  destruct fuel as [|fuel]; [lia|]. cbn [parse_items]. rewrite items_text_cons, str_app_assoc.
  rewrite Hx; [|done|lia|].
  - cbn [mbind res_bind]. destruct l as [|y l].
    + rewrite str_app_assoc, str_app_cons, str_app_nil, skip_ws_app by apply blanks. by rewrite skip_ws_cons.
    + rewrite str_app_assoc, str_app_cons, str_app_nil, skip_ws_cons by done.
      rewrite str_app_assoc. assert (Hs : skip_ws (nl (S n) +:+ items_text n (y :: l) +:+ r) = items_text n (y :: l) +:+ r).
      { rewrite items_text_cons, str_app_assoc. cbn [forallb] in Hok. apply andb_true_iff in Hok as [Hoky _].
        unfold json_ok in Hoky. bool_prop. edestruct (layout_head (S n) y) as (c&t&->&Hc); [done|]. by apply opens_skip. }
      rewrite Hs, IH; [done..|lia].
  - destruct l; [|by left]. rewrite str_app_assoc. apply stop_blanks. by left.
Qed.

Definition member_text (n : nat) (kv : string * value) : string := quote (fst kv) +:+ (":" +:+ gap) +:+ layout (S n) (snd kv).
Definition members_text (n : nat) (d : dict value) : string :=
  str_join ("," +:+ nl (S n)) (member_text n <$> d) +:+ nl n +:+ "}".
Lemma members_text_cons n kv d : members_text n (kv :: d) =
  member_text n kv +:+ match d with [] => nl n +:+ "}" | _ => "," +:+ nl (S n) +:+ members_text n d end.
Proof.
  unfold members_text. destruct d as [|y d]; [done|].
  cbn [fmap list_fmap str_join]. by rewrite !str_app_assoc.
Qed.
Lemma members_head n kv d r : ascii_string (fst kv) = true ->
  exists t, members_text n (kv :: d) +:+ r = String "034" t.
Proof using quotes.
  intros Hk. rewrite members_text_cons. unfold member_text. destruct (quotes (fst kv) Hk) as (_&q&->&_).
  rewrite !str_app_assoc. by eexists.
Qed.

Lemma parse_members_text n d fuel acc r : d <> [] -> Forall (fun kv => reads_value (snd kv)) d ->
  forallb (fun kv => ascii_string (fst kv) && json_ok (snd kv)) d = true ->
  NoDup (dkeys (acc ++ d)) ->
  (foldr (fun kv n => S (weight (snd kv) + n)) O d <= fuel)%nat ->
  parse_members fuel acc (members_text n d +:+ r) = Ok (acc ++ d, r).
Proof using blanks gap_blank quotes.
  intros Hne Hl. revert fuel acc r Hne. induction Hl as [|[k x] d Hx Hl IH]; intros fuel acc r Hne Hok Hnd Hf; [done|].
  cbn [foldr forallb fst snd] in Hf, Hok, Hx. apply andb_true_iff in Hok as [Hokx Hok]. apply andb_true_iff in Hokx as [Hk Hokx].
  destruct fuel as [|fuel]; [lia|]. cbn [parse_members]. rewrite members_text_cons, str_app_assoc. unfold member_text. cbn [fst snd].
  destruct (quotes k Hk) as (_&q&->&Hq). rewrite !str_app_assoc. unfold quote_char, sp. rewrite str_app_cons, str_app_nil.
  change (code (ascii_of_nat 34) =? 34) with true. cbv iota. rewrite Hq. cbn [mbind res_bind].
  rewrite str_app_cons, str_app_nil, skip_ws_cons by done. cbv iota.
  assert (Hx0 := Hokx). unfold json_ok in Hx0. apply andb_true_iff in Hx0 as [Hpx _].
  assert (Hs : forall s, skip_ws (gap +:+ layout (S n) x +:+ s) = layout (S n) x +:+ s).
  { intros s. edestruct (layout_head (S n) x) as (c&t&->&Hc); [done|]. by apply opens_skip. }
  rewrite Hs, Hx; [|done|lia|].
  - assert (Hnew : dset k x acc = acc ++ [(k, x)]).
    { apply dkeys_dset_notin. unfold dkeys in *. rewrite fmap_app, fmap_cons in Hnd. apply NoDup_app in Hnd as (_&Hnd&_).
      intros Hin. apply (Hnd k Hin). by left. }
    cbn [mbind res_bind]. destruct d as [|[k' y] d].
    + rewrite !str_app_assoc, str_app_cons, str_app_nil, skip_ws_app by apply blanks. rewrite skip_ws_cons by done. cbv iota. by rewrite Hnew.
    + rewrite !str_app_assoc, str_app_cons, str_app_nil, skip_ws_cons by done. cbv iota.
      assert (Hs' : skip_ws (nl (S n) +:+ members_text n ((k', y) :: d) +:+ r) = members_text n ((k', y) :: d) +:+ r).
      { cbn [forallb fst snd] in Hok. bool_prop. edestruct (members_head n (k', y) d r) as (t&->); [done|]. by apply opens_skip. }
      rewrite Hs', Hnew, IH; [by rewrite <- app_assoc|done|done| |lia]. by rewrite <- app_assoc.
  - destruct d; [|by left]. rewrite str_app_assoc. apply stop_blanks. by left.
Qed.

Lemma parse_layout v : reads_value v.
Proof using blanks gap_blank quotes.
  induction v as [|b|m|x|s|l IH|d IH] using value_ind'; intros n fuel r Hok Hf Hr;
    (destruct fuel as [|fuel]; [cbn [weight] in Hf; lia|]); unfold json_ok in Hok.
  - reflexivity.
  - by destruct b.
  - by apply parse_value_number.
  - done.
  - cbn [plain distinct_keys] in Hok. rewrite andb_true_r in Hok. cbn [json_layout].
    destruct (quotes s Hok) as (_&q&->&Hq). rewrite str_app_assoc. cbn [parse_value]. unfold quote_char, sp.
    rewrite str_app_cons, str_app_nil. change (code (ascii_of_nat 34) =? 34) with true. cbv iota. by rewrite Hq.
  - destruct l as [|x l]; [reflexivity|].
    assert (Hl : forallb json_ok (x :: l) = true).
    { unfold json_ok. cbn [plain distinct_keys] in Hok. apply andb_true_iff in Hok as [H1 H2].
      rewrite forallb_forall in *. intros y Hy. by rewrite H1, H2. }
    change (layout n (VList (x :: l))) with ("[" +:+ nl (S n) +:+ items_text n (x :: l)).
    rewrite str_app_assoc, str_app_cons, str_app_nil, str_app_assoc. cbn [parse_value].
    change (code "[" =? 34) with false. change (Ascii.eqb "[" "{") with false. change (Ascii.eqb "[" "[") with true. cbv iota.
    assert (Hp : plain x = true) by (cbn [plain forallb] in Hok; by bool_prop).
    assert (E : exists c t, items_text n (x :: l) +:+ r = String c t /\ opens c = true).
    { rewrite items_text_cons, str_app_assoc. by apply layout_head. }
    destruct E as (c&t&E&Hc).
    assert (Hc' : c <> "]"%char) by (intros ->; discriminate Hc).
    assert (Hitems := parse_items_text n (x :: l) fuel r ltac:(done) IH Hl ltac:(cbn [weight] in Hf; lia)).
    rewrite E in Hitems |- *. rewrite opens_skip by done.
    destruct c as [[] [] [] [] [] [] [] []]; try done; by rewrite Hitems.
  - destruct d as [|[k x] d]; [reflexivity|].
    cbn [plain distinct_keys] in Hok. apply andb_true_iff in Hok as [H1 H2]. apply andb_true_iff in H2 as [H2 H3].
    assert (Hl : forallb (fun kv => ascii_string (fst kv) && json_ok (snd kv)) ((k, x) :: d) = true).
    { unfold json_ok. rewrite forallb_forall in *. intros y Hy. specialize (H1 y Hy). specialize (H3 y Hy). cbn in H3. bool_prop.
      by rewrite H, H0, H3. }
    change (layout n (VDict ((k, x) :: d))) with ("{" +:+ nl (S n) +:+ members_text n ((k, x) :: d)).
    rewrite str_app_assoc, str_app_cons, str_app_nil, str_app_assoc. cbn [parse_value].
    change (code "{" =? 34) with false. change (Ascii.eqb "{" "{") with true. cbv iota.
    destruct (members_head n (k, x) d r) as (t&E). { cbn [forallb fst] in H1. by bool_prop. }
    apply bool_decide_eq_true in H2.
    assert (Hm := parse_members_text n ((k, x) :: d) fuel [] r ltac:(done) IH Hl H2 ltac:(cbn [weight] in Hf; lia)).
    rewrite E in Hm |- *. rewrite opens_skip by done. by rewrite Hm.
Qed.
End read_back.

(** ** Whole texts *)

Lemma valid_utf8_ascii s : ascii_string s = true -> valid_utf8 s = true.
Proof.
  induction s as [|c s IH]; [done|]. cbn [ascii_string str_forall valid_utf8]. intros [Hc Hs]%andb_true_iff.
  rewrite Hc. by apply IH.
Qed.

Lemma ascii_join sep l : ascii_string sep = true -> Forall (fun s => ascii_string s = true) l -> ascii_string (str_join sep l) = true.
Proof.
  intros Hs. induction 1 as [|s l H Hl IH]; [done|]. destruct l as [|y l]; [done|].
  cbn [str_join]. rewrite !ascii_app, H, Hs. exact IH.
Qed.

Lemma ws_ascii w : str_forall is_ws w = true -> ascii_string w = true.
Proof.
  induction w as [|c w IH]; [done|]. cbn [str_forall ascii_string]. intros [Hc Hw]%andb_true_iff. apply andb_true_iff. split; [|by apply IH].
  destruct c as [[] [] [] [] [] [] [] []]; try discriminate Hc; reflexivity.
Qed.

Lemma numeric_ascii s : str_forall num_char s = true -> ascii_string s = true.
Proof.
  induction s as [|c w IH]; [done|]. cbn [str_forall ascii_string]. intros [Hc Hw]%andb_true_iff. apply andb_true_iff. split; [|by apply IH].
  destruct c as [[] [] [] [] [] [] [] []]; try discriminate Hc; reflexivity.
Qed.

Section texts.
Context (quote : string -> string) (nl : nat -> string) (gap : string).
Hypothesis quotes : reads_back quote.
Hypothesis blanks : forall n, str_forall is_ws (nl n) = true.
Hypothesis gap_blank : str_forall is_ws gap = true.
Abbreviation layout := (json_layout quote nl (":" +:+ gap)).

Lemma layout_ascii n v : plain v = true -> ascii_string (layout n v) = true.
Proof using blanks gap_blank quotes.
  assert (Hnl : forall n, ascii_string (nl n) = true) by (intros; by apply ws_ascii).
  assert (Hgap : ascii_string gap = true) by by apply ws_ascii.
  assert (Hsep : forall n, ascii_string ("," +:+ nl (S n)) = true) by (intros; by rewrite ascii_app, Hnl).
  revert n. induction v as [|b|m|x|s|l IH|d IH] using value_ind'; intros n Hp; cbn [plain] in Hp; try done.
  - by destruct b.
  - apply numeric_ascii, pretty_Z_numeric.
  - by apply quotes.
  - destruct l as [|x l]; [done|]. cbn [json_layout]. rewrite !ascii_app, !Hnl, ascii_join; [done|done|].
    apply Forall_fmap. rewrite Forall_forall in IH |- *. rewrite forallb_forall in Hp. intros y Hy. apply IH; [done|].
    by apply Hp, list_elem_of_In.
  - destruct d as [|x d]; [done|]. cbn [json_layout]. rewrite !ascii_app, !Hnl, ascii_join; [done|done|].
    apply Forall_fmap. rewrite Forall_forall in IH |- *. rewrite forallb_forall in Hp. intros y Hy. cbn.
    assert (Hk : ascii_string (fst y) && plain (snd y) = true) by (by apply Hp, list_elem_of_In).
    apply andb_true_iff in Hk as [Hk Hpy]. rewrite !ascii_app, Hgap, IH by done.
    by rewrite (proj1 (quotes _ Hk)).
Qed.

Lemma join_length {A} (f : A -> string) (w : A -> nat) sep l :
  Forall (fun x => w x < 2 * String.length (f x))%nat l ->
  (foldr (fun x n => S (w x + n)) O l <= 2 * String.length (str_join sep (f <$> l)))%nat.
Proof.
  induction 1 as [|x l H Hl IH]; [cbn; lia|]. destruct l as [|y l]; [cbn in *; lia|].
  rewrite fmap_cons. change (str_join sep (f x :: (f <$> y :: l))) with (f x +:+ sep +:+ str_join sep (f <$> y :: l)).
  rewrite !length_append. cbn [foldr] in IH |- *. lia.
Qed.

(** Two units of fuel per character are enough. *)
Lemma weight_length n v : plain v = true -> (weight v < 2 * String.length (layout n v))%nat.
Proof using quotes.
  revert n. induction v as [|b|m|x|s|l IH|d IH] using value_ind'; intros n Hp; cbn [plain] in Hp; try (cbn; lia); try done.
  - destruct b; cbn; lia.
  - cbn [weight json_layout]. pose proof (pretty_Z_nonempty m). destruct (pretty m); [done|]. cbn. lia.
  - cbn [weight json_layout]. destruct (quotes s Hp) as (_&q&->&_). rewrite length_append. change (String.length quote_char) with 1%nat. lia.
  - destruct l as [|x l]; [cbn; lia|]. cbn [json_layout]. rewrite !length_append.
    assert (H : Forall (fun x => weight x < 2 * String.length (layout (S n) x))%nat (x :: l)).
    { rewrite Forall_forall in IH |- *. rewrite forallb_forall in Hp. intros y Hy. apply IH; [done|]. by apply Hp, list_elem_of_In. }
    apply (join_length _ _ ("," +:+ nl (S n))) in H. cbn [weight]. cbn [String.length]. lia.
  - destruct d as [|x d]; [cbn; lia|]. cbn [json_layout]. rewrite !length_append.
    set (f := fun kv : string * value => quote (fst kv) +:+ (":" +:+ gap) +:+ layout (S n) (snd kv)).
    assert (H : Forall (fun kv => weight (snd kv) < 2 * String.length (f kv))%nat (x :: d)).
    { rewrite Forall_forall in IH |- *. rewrite forallb_forall in Hp. intros y Hy.
      assert (Hk : ascii_string (fst y) && plain (snd y) = true) by (by apply Hp, list_elem_of_In).
      apply andb_true_iff in Hk as [Hk Hpy]. pose proof (IH y Hy (S n) Hpy). unfold f. rewrite !length_append. lia. }
    apply (join_length _ _ ("," +:+ nl (S n))) in H. cbn [weight]. cbn [String.length]. lia.
Qed.

Lemma loads_layout v tail : json_ok v = true -> str_forall is_ws tail = true -> loads (layout 0 v +:+ tail) = Ok v.
Proof using blanks gap_blank quotes.
  intros Hok Ht. assert (Hp := Hok). unfold json_ok in Hp. apply andb_true_iff in Hp as [Hp _]. unfold loads.
  rewrite valid_utf8_ascii by (by rewrite ascii_app, layout_ascii, ws_ascii). cbn [negb].
  assert (Hs : skip_ws (layout 0 v +:+ tail) = layout 0 v +:+ tail).
  { destruct (layout_head quote nl gap quotes 0%nat v tail Hp) as (c&t&->&Hc). by apply (opens_skip ""). }
  rewrite Hs, (parse_layout quote nl gap quotes blanks gap_blank v 0%nat); [|done| |].
  - cbn [mbind res_bind]. assert (E : skip_ws tail = "") by (rewrite <- (str_app_nil_r tail); by rewrite skip_ws_app).
    by rewrite E.
  - rewrite length_append. pose proof (weight_length 0%nat v Hp). lia.
  - destruct tail as [|c t]; [done|]. right. cbn [str_forall] in Ht. by apply andb_true_iff in Ht as [? _].
Qed.
End texts.

(** [json.dumps(v, indent=2)] *)
Definition json_indent (v : value) : string := json_layout json_string (fun n => sp 10 +:+ spaces (2 * n)) ": " 0 v.

Lemma spaces_ws n : str_forall is_ws (spaces n) = true.
Proof. induction n as [|n IH]; [done|]. exact IH. Qed.

Lemma loads_indent v : json_ok v = true -> loads (json_indent v +:+ sp 10) = Ok v.
Proof.
  intros Hv. apply (loads_layout _ _ " "); [apply json_string_reads_back| |done|done|done].
  intros n. rewrite str_forall_app, spaces_ws. done.
Qed.

Lemma loads_raw v : json_ok v = true -> loads (json_raw v +:+ sp 10) = Ok v.
Proof.
  intros Hv. rewrite <- (json_layout_compact _ 0%nat). change ":" with (":" +:+ "").
  apply loads_layout; [apply json_string_raw_reads_back|done..].
Qed.

Lemma distinct_sort_keys v : distinct_keys v = true -> distinct_keys (sort_keys v) = true.
Proof.
  induction v as [|b|n|x|t|l IH|d IH] using value_ind'; try done; cbn [distinct_keys sort_keys]; rewrite ?andb_true_iff, !forallb_forall.
  - intros Hv x Hx. apply list_elem_of_In, list_elem_of_fmap in Hx as (y&->&Hy).
    rewrite Forall_forall in IH. apply IH; [done|]. by apply Hv, list_elem_of_In.
  - intros [Hnd Hv]. split.
    + apply bool_decide_eq_true in Hnd. apply bool_decide_eq_true. unfold dkeys.
      assert (E : ((fun kv : string * value => (fst kv, sort_keys (snd kv))) <$> d).*1 = d.*1).
      { rewrite <- list_fmap_compose. by apply list_fmap_ext. }
      unfold dkeys in Hnd. rewrite <- E in Hnd. revert Hnd. apply NoDup_Permutation_proper. apply fmap_Permutation. apply py_sorted_perm.
    + intros [k x] Hx. apply list_elem_of_In, elem_of_py_sorted, list_elem_of_fmap in Hx as ([k' y]&[= -> ->]&Hy).
      rewrite Forall_forall in IH. apply (IH (k', y)); [done|]. apply (Hv (k', y)). by apply list_elem_of_In.
Qed.

Lemma json_ok_sort_keys v : json_ok v = true -> json_ok (sort_keys v) = true.
Proof. unfold json_ok. intros [Hp Hd]%andb_true_iff. by rewrite plain_sort_keys, distinct_sort_keys. Qed.

(** ** The parser always answers *)

(** A result that leaves less than [n] characters, or a decoding error. *)
Definition answers {A} (n : nat) (r : res (A * string)) : Prop :=
  match r with Ok (_, r) => (String.length r < n)%nat | Raise e => exn_class e = JSONDecodeError end.

Lemma answers_mono {A} m n (r : res (A * string)) : (m <= n)%nat -> answers m r -> answers n r.
Proof. destruct r as [[a r]|e]; cbn; [lia|done]. Qed.

Lemma answers_bind {A B} m n (r : res (A * string)) (f : A -> string -> res (B * string)) :
  answers m r -> (forall a t, (String.length t < m)%nat -> answers n (f a t)) -> answers n ('(a, t) ← r; f a t).
Proof. destruct r as [[a t]|e]; cbn; auto. Qed.

Lemma skip_ws_length s : (String.length (skip_ws s) <= String.length s)%nat.
Proof. unfold skip_ws. induction s as [|c s IH]; [done|]. cbn [str_lstrip]. destruct (is_ws c); cbn; lia. Qed.

Lemma span_length f s : (String.length (snd (span f s)) + String.length (fst (span f s)) = String.length s)%nat.
Proof.
  induction s as [|c s IH]; [done|]. cbn [span]. destruct (f c); [|cbn; lia].
  destruct (span f s) as [a r]. cbn in *. lia.
Qed.

Lemma strip_prefix_length p s r : strip_prefix p s = Some r -> String.length s = (String.length p + String.length r)%nat.
Proof.
  revert s. induction p as [|a p IH]; intros [|b s]; cbn [strip_prefix]; [by intros [= <-]..|done|].
  destruct (Ascii.eqb a b); [|done]. intros H. cbn. by rewrite (IH _ H).
Qed.

Lemma prepend_answers t n r : answers n r -> answers n (prepend t r).
Proof. intros H. eapply answers_bind; [exact H|]. done. Qed.

Lemma scan_string_answers n s : (String.length s < n)%nat -> answers n (scan_string s).
Proof.
  revert s. induction n as [|n IH]; intros s Hn; [lia|].
  assert (Hrec : forall t u, (String.length u < n)%nat -> answers (S n) (prepend t (scan_string u))).
  { intros t u Hu. apply prepend_answers. apply (answers_mono n); [lia|]. by apply IH. }
  destruct s as [|c s1]; [done|]. cbn [scan_string String.length] in *.
  case_bool; [cbn; lia|]. case_bool; [done|]. case_bool; [|apply Hrec; lia].
  destruct s1 as [|e s2]; [done|]. cbn [String.length] in *. case_bool.
  - do 4 (destruct s2 as [|? s2]; [done|]). cbn [String.length] in *. destruct (hex4 _ _ _ _) as [h|]; [|done].
    assert (Hd : answers (S n) (prepend (utf8 h) (scan_string s2))) by (apply Hrec; lia).
    destruct (is_high h); [|exact Hd]. do 6 (destruct s2 as [|? s2]; [exact Hd|]).
    destruct (_ && _); [|exact Hd]. destruct (hex4 _ _ _ _) as [l|]; [|exact Hd]. destruct (is_low l); [|exact Hd].
    apply Hrec. cbn [String.length] in Hn. lia.
  - destruct (simple_escape e); [|done]. apply Hrec. lia.
Qed.

Lemma scan_int_length s a r : scan_int s = Some (a, r) -> (String.length r < String.length s)%nat.
Proof.
  destruct s as [|c s]; [done|]. cbn [scan_int]. case_bool; [intros [= _ <-]; cbn; lia|].
  pose proof (span_length is_digit (String c s)) as Hl. destruct (span is_digit (String c s)) as [b t].
  destruct b; [done|]. intros [= _ <-]. cbn in *. lia.
Qed.
Lemma scan_frac_length s : (String.length (snd (scan_frac s)) <= String.length s)%nat.
Proof.
  destruct s as [|c s]; [done|]. destruct (decide (c = "."%char)) as [->|Hc].
  - cbn [scan_frac]. pose proof (span_length is_digit s). destruct (span is_digit s) as [[] t]; cbn in *; lia.
  - assert (E : scan_frac (String c s) = ("", String c s)) by (destruct c as [[] [] [] [] [] [] [] []]; done). by rewrite E.
Qed.
Lemma scan_exp_length s : (String.length (snd (scan_exp s)) <= String.length s)%nat.
Proof.
  destruct s as [|c s]; [done|]. cbn [scan_exp]. case_bool; [|done].
  assert (Hs : forall sign u, (String.length u <= String.length s)%nat ->
    (String.length (snd (let '(a, r) := span is_digit u in if str_empty a then ("", String c s) else (String "e" (sign +:+ a), r)))
     <= S (String.length s))%nat).
  { intros sign u Hu. pose proof (span_length is_digit u). destruct (span is_digit u) as [[] t]; cbn in *; lia. }
  destruct s as [|d s]; [apply (Hs ""); cbn; lia|]. case_bool; apply Hs; cbn; lia.
Qed.

Lemma parse_number_answers s n : (String.length s <= n)%nat -> answers n (parse_number s).
Proof.
  intros Hn. assert (Hbody : forall (neg : bool) t, (String.length t <= n)%nat ->
    answers n (match scan_int t with
      | Some (i, r) => let '(f, r) := scan_frac r in let '(e, r) := scan_exp r in
          if str_empty f && str_empty e then Ok (VInt (let n := default 0 (parse_digits 10 i 0 false false) in if neg then - n else n), r)
          else Ok (VFloat (let x := default fzero (float_of_string (i +:+ f +:+ e)) in if neg then float_neg x else x), r)
      | None => match neg, strip_prefix "Infinity" t with
                | true, Some r => Ok (VFloat (S754_infinity true), r) | _, _ => decode_error "Expecting value" end
      end)).
  { intros neg t Ht. destruct (scan_int t) as [[i r]|] eqn:E.
    - apply scan_int_length in E. pose proof (scan_frac_length r) as Hf. destruct (scan_frac r) as [f r1].
      pose proof (scan_exp_length r1) as He. destruct (scan_exp r1) as [e r2]. cbn in Hf, He. case_bool; cbn; lia.
    - destruct neg; [|done]. destruct (strip_prefix "Infinity" t) eqn:Ep; [|done].
      apply strip_prefix_length in Ep. cbn in *. lia. }
  unfold parse_number. destruct s as [|c s]; [done|].
  destruct (decide (c = "-"%char)) as [->|Hc]; [apply (Hbody true s); cbn in Hn; lia|].
  assert (E : (match String c s with String "-" t => (true, t) | _ => (false, String c s) end) = (false, String c s))
    by (destruct c as [[] [] [] [] [] [] [] []]; done).
  rewrite E. by apply (Hbody false).
Qed.

(** A text that begins with another character than [c] takes the default branch of a match on [c]. *)
Lemma starts_with (c : ascii) (s : string) : (exists r, s = String c r) \/ (forall r, s <> String c r).
Proof. destruct s as [|d s]; [by right|]. destruct (decide (d = c)) as [->|Hd]; [left; by eexists|right; intros r [=]; done]. Qed.

Lemma parse_literal_length l s v r : forallb (fun tv => negb (str_empty (fst tv))) l = true ->
  parse_literal l s = Some (v, r) -> (String.length r < String.length s)%nat.
Proof.
  induction l as [|[t w] l IH]; cbn [parse_literal forallb fst]; [done|]. intros [Ht Hl]%andb_true_iff.
  destruct (strip_prefix t s) as [u|] eqn:E; [|by apply IH]. intros [= _ <-]. apply strip_prefix_length in E.
  destruct t; [done|]. cbn in E. lia.
Qed.

Lemma parse_answers fuel :
  (forall s n, (2 * String.length s < fuel)%nat -> (String.length s <= n)%nat -> answers n (parse_value fuel s)) /\
  (forall d s n, (2 * String.length s + 1 < fuel)%nat -> (String.length s <= n)%nat -> answers n (parse_members fuel d s)) /\
  (forall s n, (2 * String.length s + 1 < fuel)%nat -> (String.length s <= n)%nat -> answers n (parse_items fuel s)).
Proof.
  induction fuel as [|fuel (IHv&IHm&IHi)]; [split_and!; intros; lia|].
  assert (Hstr : forall {B} r n (f : string -> string -> res (B * string)), (String.length r < n)%nat ->
    (forall t u, (String.length u < n)%nat -> answers n (f t u)) -> answers n ('(t, u) ← scan_string r; f t u)).
  { intros B r n f Hr Hf. eapply answers_bind; [by apply scan_string_answers|exact Hf]. }
  split_and!.
  - intros s n Hf Hn. destruct s as [|c r]; [done|]. cbn [parse_value String.length] in *.
    pose proof (skip_ws_length r) as Hw.
    case_bool; [apply Hstr; [lia|done]|]. case_bool; [|case_bool].
    + destruct (starts_with "}" (skip_ws r)) as [[t E]|E]; [rewrite E in *; cbn in *; lia|].
      assert (Hm : answers n ('(d, r) ← parse_members fuel [] (skip_ws r); Ok (VDict d, r))).
      { eapply (answers_bind n); [apply IHm; lia|done]. }
      destruct (skip_ws r) as [|[[] [] [] [] [] [] [] []] t]; try exact Hm. by destruct (E t).
    + destruct (starts_with "]" (skip_ws r)) as [[t E]|E]; [rewrite E in *; cbn in *; lia|].
      assert (Hm : answers n ('(l, r) ← parse_items fuel (skip_ws r); Ok (VList l, r))).
      { eapply (answers_bind n); [apply IHi; lia|done]. }
      destruct (skip_ws r) as [|[[] [] [] [] [] [] [] []] t]; try exact Hm. by destruct (E t).
    + destruct (parse_literal literals (String c r)) as [[v t]|] eqn:E.
      * apply parse_literal_length in E; [|done]. cbn in *. lia.
      * apply parse_number_answers. cbn. lia.
  - intros d s n Hf Hn. destruct s as [|c r]; [done|]. cbn [parse_members String.length] in *.
    case_bool; [|done]. apply (answers_bind (String.length r + 1)); [apply scan_string_answers; lia|]. intros k t Ht.
    pose proof (skip_ws_length t) as Hw.
    destruct (skip_ws t) as [|[[] [] [] [] [] [] [] []] t']; try done. cbn [String.length] in Hw.
    pose proof (skip_ws_length t') as Hw'.
    apply (answers_bind (String.length r)); [apply IHv; lia|]. intros v u Hu. pose proof (skip_ws_length u) as Hw2.
    destruct (skip_ws u) as [|[[] [] [] [] [] [] [] []] u']; try done; cbn [String.length] in Hw2.
    + cbn. lia.
    + pose proof (skip_ws_length u'). apply IHm; lia.
  - intros s n Hf Hn. cbn [parse_items]. apply (answers_bind (String.length s)); [apply IHv; lia|]. intros v u Hu.
    pose proof (skip_ws_length u) as Hw2.
    destruct (skip_ws u) as [|[[] [] [] [] [] [] [] []] u']; try done; cbn [String.length] in Hw2.
    + cbn. lia.
    + pose proof (skip_ws_length u'). eapply (answers_bind n); [apply IHi; lia|done].
Qed.

(** [json.loads] returns or raises [JSONDecodeError] or [UnicodeDecodeError]: the fuel is enough. *)
Lemma loads_answers s e : loads s = Raise e -> exn_class e = JSONDecodeError \/ exn_class e = UnicodeError.
Proof.
  unfold loads. destruct (valid_utf8 s); cbn [negb]; [|intros [= <-]; by right].
  pose proof (skip_ws_length s) as Hs.
  pose proof (proj1 (parse_answers (2 * String.length s + 1)) (skip_ws s) (String.length s) ltac:(lia) ltac:(lia)) as Ha.
  destruct (parse_value _ _) as [[v r]|e']; cbn in *; [case_bool|]; intros [= <-]; by left.
Qed.
