(* ===== verification/Sha.v ===== *)
(** * SHA-256, SHA-1, HMAC, PBKDF2 and base64 ([hashlib], [hmac], [base64], [secrets])

    Byte strings are [string]s; words are integers below [2 ^ 32].  The definitions are those of
    FIPS 180-4, RFC 2104, RFC 8018 and RFC 4648, with the published test vectors. *)
From Stdlib Require Import Ascii.
From S2P Require Export PyCore.

(** ** SHA-256 *)

Definition word_mask : Z := 4294967295.
Definition w_add (a b : Z) : Z := Z.land (a + b) word_mask.
Definition rotr (x n : Z) : Z := Z.lor (Z.shiftr x n) (Z.land (Z.shiftl x (32 - n)) word_mask).
Definition w_not (x : Z) : Z := Z.lxor x word_mask.

(** The constants: the first 32 bits of the fractional parts of the cube roots of the first 64
    primes, and of the square roots of the first eight. *)
Definition sha_primes : list Z :=
  List.filter (fun n => forallb (fun d => negb (n mod d =? 0)) (seqZ 2 (n - 2))) (seqZ 2 310).
(** The largest integer from [r] on, below [r + 2 ^ bits], whose [k]-th power is at most [n]. *)
Fixpoint int_root (k n : Z) (bits : nat) (r : Z) : Z :=
  match bits with
  | O => r
  | S b => let r' := r + 2 ^ Z.of_nat b in int_root k n b (if r' ^ k <=? n then r' else r)
  end.
Definition root_fraction (k p : Z) : Z := Z.land (int_root k (p * 2 ^ (32 * k)) 37 0) word_mask.
Definition sha_k : list Z := Eval vm_compute in root_fraction 3 <$> sha_primes.
Definition sha_init : list Z := Eval vm_compute in root_fraction 2 <$> take 8 sha_primes.

(** The message schedule, most recent word first. *)
Fixpoint sha_extend (n : nat) (ws : list Z) : list Z :=
  match n with
  | O => ws
  | S n =>
      let w i := nth i ws 0 in
      let s0 := Z.lxor (Z.lxor (rotr (w 14%nat) 7) (rotr (w 14%nat) 18)) (Z.shiftr (w 14%nat) 3) in
      let s1 := Z.lxor (Z.lxor (rotr (w 1%nat) 17) (rotr (w 1%nat) 19)) (Z.shiftr (w 1%nat) 10) in
      sha_extend n (w_add (w_add (w 15%nat) s0) (w_add (w 6%nat) s1) :: ws)
  end.

Definition sha_round (h : list Z) (kw : Z * Z) : list Z :=
  match h with
  | [a; b; c; d; e; f; g; hh] =>
      let s1 := Z.lxor (Z.lxor (rotr e 6) (rotr e 11)) (rotr e 25) in
      let ch := Z.lxor (Z.land e f) (Z.land (w_not e) g) in
      let t1 := w_add (w_add hh s1) (w_add ch (w_add (fst kw) (snd kw))) in
      let s0 := Z.lxor (Z.lxor (rotr a 2) (rotr a 13)) (rotr a 22) in
      let maj := Z.lxor (Z.lxor (Z.land a b) (Z.land a c)) (Z.land b c) in
      [w_add t1 (w_add s0 maj); a; b; c; w_add d t1; e; f; g]
  | _ => h
  end.

Definition sha_block (h block : list Z) : list Z :=
  zip_with w_add h (fold_left sha_round (zip sha_k (rev (sha_extend 48 (rev block)))) h).

Fixpoint words_of (s : string) : list Z :=
  match s with
  | String a (String b (String c (String d s))) =>
      (code a * 16777216 + code b * 65536 + code c * 256 + code d) :: words_of s
  | _ => []
  end.

Definition byte (n : Z) : ascii := ascii_of_nat (Z.to_nat (n mod 256)).
Fixpoint be_bytes (n : nat) (z : Z) : string :=
  match n with O => EmptyString | S m => String (byte (Z.shiftr z (8 * Z.of_nat m))) (be_bytes m z) end.

Fixpoint zero_bytes (n : nat) : string :=
  match n with O => EmptyString | S n => String "000"%char (zero_bytes n) end.

Definition sha_pad (s : string) : string :=
  let len := Z.of_nat (String.length s) in
  s +:+ String "128"%char (zero_bytes (Z.to_nat ((55 - len) mod 64)) +:+ be_bytes 8 (len * 8)).

(** The blocks of sixteen words; [fuel] is at least their number. *)
Fixpoint sha_blocks (fuel : nat) (h ws : list Z) : list Z :=
  match fuel, ws with
  | O, _ | _, [] => h
  | S fuel, _ => sha_blocks fuel (sha_block h (take 16 ws)) (drop 16 ws)
  end.

(** [hashlib.sha256(s).digest()] *)
Definition sha256 (s : string) : string :=
  let ws := words_of (sha_pad s) in
  foldr (fun w acc => be_bytes 4 w +:+ acc) EmptyString (sha_blocks (length ws) sha_init ws).

(** [bytes.hex()] *)
Fixpoint hexlify (s : string) : string :=
  match s with EmptyString => EmptyString | String c s => hex_digits 2 (code c) +:+ hexlify s end.

(** [hashlib.sha256(s).hexdigest()] *)
Definition sha256_hex (s : string) : string := hexlify (sha256 s).

(** ** SHA-1 *)

Definition rotl (x n : Z) : Z := rotr x (32 - n).
Fixpoint sha1_extend (n : nat) (ws : list Z) : list Z :=
  match n with
  | O => ws
  | S n =>
      let w i := nth i ws 0 in
      sha1_extend n (rotl (Z.lxor (Z.lxor (w 2%nat) (w 7%nat)) (Z.lxor (w 13%nat) (w 15%nat))) 1 :: ws)
  end.
Definition sha1_round (h : list Z) (tw : Z * Z) : list Z :=
  match h with
  | [a; b; c; d; e] =>
      let '(f, k) :=
        if fst tw <? 20 then (Z.lor (Z.land b c) (Z.land (w_not b) d), 0x5a827999)
        else if fst tw <? 40 then (Z.lxor (Z.lxor b c) d, 0x6ed9eba1)
        else if fst tw <? 60 then (Z.lor (Z.lor (Z.land b c) (Z.land b d)) (Z.land c d), 0x8f1bbcdc)
        else (Z.lxor (Z.lxor b c) d, 0xca62c1d6) in
      [w_add (w_add (w_add (rotl a 5) f) (w_add e k)) (snd tw); a; rotl b 30; c; d]
  | _ => h
  end.
Definition sha1_block (h block : list Z) : list Z :=
  zip_with w_add h (fold_left sha1_round (enumerate (rev (sha1_extend 64 (rev block)))) h).
Fixpoint sha1_blocks (fuel : nat) (h ws : list Z) : list Z :=
  match fuel, ws with
  | O, _ | _, [] => h
  | S fuel, _ => sha1_blocks fuel (sha1_block h (take 16 ws)) (drop 16 ws)
  end.
(** [hashlib.sha1(s).hexdigest()] *)
Definition sha1_hex (s : string) : string :=
  let ws := words_of (sha_pad s) in
  hexlify (foldr (fun w acc => be_bytes 4 w +:+ acc) EmptyString
    (sha1_blocks (length ws) [0x67452301; 0xefcdab89; 0x98badcfe; 0x10325476; 0xc3d2e1f0] ws)).

(** ** HMAC and PBKDF2 *)

Definition xor_byte (n : Z) (c : ascii) : ascii := byte (Z.lxor n (code c)).
Fixpoint xor_bytes (a b : string) : string :=
  match a, b with
  | String x a, String y b => String (xor_byte (code x) y) (xor_bytes a b)
  | _, _ => EmptyString
  end.

Definition hmac_sha256 (key msg : string) : string :=
  let key := if (64 <? String.length key)%nat then sha256 key else key in
  let key := key +:+ zero_bytes (64 - String.length key) in
  sha256 (str_map (xor_byte 92) key +:+ sha256 (str_map (xor_byte 54) key +:+ msg)).

(** [hashlib.pbkdf2_hmac('sha256', password, salt, rounds, dklen=32)]: one block of output. *)
Definition pbkdf2_block (password salt : string) (rounds : Z) : string :=
  let u1 := hmac_sha256 password (salt +:+ be_bytes 4 1) in
  snd (N.iter (Z.to_N (rounds - 1))
         (fun ut => let u := hmac_sha256 password (fst ut) in (u, xor_bytes (snd ut) u)) (u1, u1)).
Definition pbkdf2_hmac (password salt : string) (rounds : Z) : res string :=
  if rounds <? 1 then Raise (Exn ValueError "iteration value must be greater than 0.")
  else if 2147483647 <? rounds then Raise (Exn OverflowError "iteration value is too great.")
  else Ok (pbkdf2_block password salt rounds).

(** ** Base 64 *)

Definition b64_alphabet : string := "ABCDEFGHIJKLMNOPQRSTUVWXYZabcdefghijklmnopqrstuvwxyz0123456789+/".

Definition sextet (b5 b4 b3 b2 b1 b0 : bool) : ascii :=
  match String.get (nat_of_ascii (Ascii b0 b1 b2 b3 b4 b5 false false)) b64_alphabet with
  | Some c => c
  | None => "="%char
  end.
Definition of_sextet (c : ascii) : option (bool * bool * bool * bool * bool * bool) :=
  match String.index 0 (String c EmptyString) b64_alphabet with
  | Some n => match ascii_of_nat n with Ascii b0 b1 b2 b3 b4 b5 _ _ => Some (b5, b4, b3, b2, b1, b0) end
  | None => None
  end.

(** [base64.b64encode] *)
Fixpoint b64encode (s : string) : string :=
  match s with
  | EmptyString => EmptyString
  | String (Ascii a0 a1 a2 a3 a4 a5 a6 a7) EmptyString =>
      String (sextet a7 a6 a5 a4 a3 a2) (String (sextet a1 a0 false false false false) "==")
  | String (Ascii a0 a1 a2 a3 a4 a5 a6 a7) (String (Ascii b0 b1 b2 b3 b4 b5 b6 b7) EmptyString) =>
      String (sextet a7 a6 a5 a4 a3 a2) (String (sextet a1 a0 b7 b6 b5 b4)
        (String (sextet b3 b2 b1 b0 false false) "="))
  | String (Ascii a0 a1 a2 a3 a4 a5 a6 a7)
      (String (Ascii b0 b1 b2 b3 b4 b5 b6 b7) (String (Ascii c0 c1 c2 c3 c4 c5 c6 c7) s)) =>
      String (sextet a7 a6 a5 a4 a3 a2) (String (sextet a1 a0 b7 b6 b5 b4)
        (String (sextet b3 b2 b1 b0 c7 c6) (String (sextet c5 c4 c3 c2 c1 c0) (b64encode s))))
  end.

(** [base64.b64decode(s, validate=True)] of an ASCII string; [None] is a [binascii.Error]. *)
Fixpoint b64decode (s : string) : option string :=
  match s with
  | EmptyString => Some EmptyString
  | String x (String y (String z (String t s))) =>
      match of_sextet x, of_sextet y with
      | Some (a7, a6, a5, a4, a3, a2), Some (a1, a0, b7, b6, b5, b4) =>
          let a := Ascii a0 a1 a2 a3 a4 a5 a6 a7 in
          match of_sextet z, of_sextet t with
          | Some (b3, b2, b1, b0, c7, c6), Some (c5, c4, c3, c2, c1, c0) =>
              match b64decode s with
              | Some r => Some (String a (String (Ascii b0 b1 b2 b3 b4 b5 b6 b7)
                                  (String (Ascii c0 c1 c2 c3 c4 c5 c6 c7) r)))
              | None => None
              end
          | Some (b3, b2, b1, b0, _, _), None =>
              if Ascii.eqb t "=" && str_empty s
              then Some (String a (String (Ascii b0 b1 b2 b3 b4 b5 b6 b7) EmptyString)) else None
          | None, _ =>
              if Ascii.eqb z "=" && Ascii.eqb t "=" && str_empty s then Some (String a EmptyString) else None
          end
      | _, _ => None
      end
  | _ => None
  end.

(** [secrets.token_urlsafe]: the URL-safe alphabet, without padding, of the drawn bytes. *)
Definition urlsafe (s : string) : string :=
  str_rstrip (fun c => Ascii.eqb c "=")
    (str_map (fun c => if Ascii.eqb c "+" then "-"%char else if Ascii.eqb c "/" then "_"%char else c) (b64encode s)).

(** ** Facts *)

Lemma of_sextet_sextet b5 b4 b3 b2 b1 b0 :
  of_sextet (sextet b5 b4 b3 b2 b1 b0) = Some (b5, b4, b3, b2, b1, b0).
Proof. by destruct b5, b4, b3, b2, b1, b0. Qed.

Lemma of_sextet_pad : of_sextet "=" = None.
Proof. reflexivity. Qed.

(** Decoding inverts encoding. *)
Lemma b64_roundtrip s : b64decode (b64encode s) = Some s.
Proof.
  induction s as [s IH] using (induction_ltof1 _ String.length). unfold ltof in IH.
  destruct s as [|[a0 a1 a2 a3 a4 a5 a6 a7] [|[b0 b1 b2 b3 b4 b5 b6 b7] [|[c0 c1 c2 c3 c4 c5 c6 c7] s]]];
    cbn [b64encode b64decode]; rewrite ?of_sextet_sextet, ?of_sextet_pad; try done.
  rewrite IH; [done|]. cbn. lia.
Qed.

Lemma digit_of_char n : exists x, digit_of n = String x EmptyString /\ is_digit x || is_lower x = true.
Proof. unfold digit_of. repeat case_match; by eexists. Qed.

Lemma hexlify_no_char c s : is_digit c || is_lower c = false -> str_mem c (hexlify s) = false.
Proof.
  intros Hc. assert (Hone : forall n s', str_mem c s' = false -> str_mem c (digit_of n +:+ s') = false).
  { intros n s' Hs. destruct (digit_of_char n) as (x&->&Hx). change (Ascii.eqb c x || str_mem c s' = false).
    rewrite Hs, orb_false_r. apply Ascii.eqb_neq. intros ->. by rewrite Hc in Hx. }
  assert (Happ : forall a b t : string, (a +:+ b) +:+ t = a +:+ b +:+ t).
  { intros a b t. induction a as [|x a IH]; [done|]. change (String x ((a +:+ b) +:+ t) = String x (a +:+ b +:+ t)).
    by rewrite IH. }
  induction s as [|x s IH]; [done|]. cbn [hexlify hex_digits]. rewrite !Happ. by apply Hone, Hone.
Qed.

(** ** Digests are 64 lower-case hexadecimal digits *)

(** [[0-9a-f]] *)
Definition hex_char (c : ascii) : bool := is_digit c || ((97 <=? code c) && (code c <=? 102)).
(** [re.compile("^[0-9a-f]{64}$").fullmatch(s)] *)
Definition is_hex64 (s : string) : bool := (String.length s =? 64)%nat && str_forall hex_char s.

Lemma sha_round_length h kw : length h = 8%nat -> length (sha_round h kw) = 8%nat.
Proof. do 8 (destruct h as [|? h]; [done|]). by destruct h. Qed.

Lemma sha_block_length h b : length h = 8%nat -> length (sha_block h b) = 8%nat.
Proof.
  intros Hh. unfold sha_block. rewrite length_zip_with.
  assert (Hf : forall l h, length h = 8%nat -> length (fold_left sha_round l h) = 8%nat).
  { induction l as [|x l IH]; intros h' H'; [done|]. cbn [fold_left]. apply IH. by apply sha_round_length. }
  rewrite Hf by done. lia.
Qed.

Lemma sha_blocks_length fuel h ws : length h = 8%nat -> length (sha_blocks fuel h ws) = 8%nat.
Proof.
  revert h ws. induction fuel as [|fuel IH]; intros h ws Hh; [done|]. cbn [sha_blocks].
  destruct ws; [done|]. apply IH. by apply sha_block_length.
Qed.

Lemma be_bytes_length n z : String.length (be_bytes n z) = n.
Proof. induction n as [|n IH]; cbn; [done|]. by rewrite IH. Qed.

Lemma sha256_length s : String.length (sha256 s) = 32%nat.
Proof.
  unfold sha256. pose proof (sha_blocks_length (length (words_of (sha_pad s))) sha_init (words_of (sha_pad s)) eq_refl) as Hl.
  revert Hl. generalize (sha_blocks (length (words_of (sha_pad s))) sha_init (words_of (sha_pad s))). intros l Hl.
  do 8 (destruct l as [|? l]; [done|]). destruct l; [|done]. cbn [foldr]. rewrite !length_append, !be_bytes_length. done.
Qed.

Lemma digit_of_hex n : exists x, digit_of n = String x EmptyString /\ hex_char x = true.
Proof. unfold digit_of. repeat case_match; by eexists. Qed.

Lemma hexlify_hex s : String.length (hexlify s) = (2 * String.length s)%nat /\ str_forall hex_char (hexlify s) = true.
Proof.
  induction s as [|c s [IH1 IH2]]; [done|]. cbn [hexlify hex_digits].
  destruct (digit_of_hex (code c / 16 mod 16)) as (x&->&Hx), (digit_of_hex (code c mod 16)) as (y&->&Hy).
  split; [change (S (S (String.length (hexlify s))) = 2 * S (String.length s))%nat; lia|].
  change (hex_char x && (hex_char y && str_forall hex_char (hexlify s)) = true). by rewrite Hx, Hy, IH2.
Qed.

Lemma sha256_hex64 s : is_hex64 (sha256_hex s) = true.
Proof.
  unfold is_hex64, sha256_hex. destruct (hexlify_hex (sha256 s)) as [Hl ->]. rewrite Hl, sha256_length. done.
Qed.

(** ** Test vectors *)

Example sha256_empty : sha256_hex "" = "e3b0c44298fc1c149afbf4c8996fb92427ae41e4649b934ca495991b7852b855".
Proof. vm_compute. reflexivity. Qed.
Example sha256_abc : sha256_hex "abc" = "ba7816bf8f01cfea414140de5dae2223b00361a396177a9cb410ff61f20015ad".
Proof. vm_compute. reflexivity. Qed.
Example sha256_two_blocks : sha256_hex "abcdbcdecdefdefgefghfghighijhijkijkljklmklmnlmnomnopnopq" =
  "248d6a61d20638b8e5c026930c3e6039a33ce45964ff2167f6ecedd419db06c1".
Proof. vm_compute. reflexivity. Qed.
Example sha1_vectors : (sha1_hex <$> [""; "abc"]) =
  ["da39a3ee5e6b4b0d3255bfef95601890afd80709"; "a9993e364706816aba3e25717850c26c9cd0d89d"].
Proof. vm_compute. reflexivity. Qed.
Example hmac_vector : hexlify (hmac_sha256 "Jefe" "what do ya want for nothing?") =
  "5bdcc146bf60754e6a042426089575c75a003f089d2739839dec58b964ec3843".
Proof. vm_compute. reflexivity. Qed.
Example pbkdf2_vector_1 : hexlify (pbkdf2_block "password" "salt" 1) =
  "120fb6cffcf8b32c43e7225256c4f837a86548c92ccc35480805987cb70be17b".
Proof. vm_compute. reflexivity. Qed.
Example pbkdf2_vector_2 : hexlify (pbkdf2_block "password" "salt" 2) =
  "ae4d0c95af6b46d32d0adff928f06dd02a303f8ef3c251dfd6e2d85a95474c43".
Proof. vm_compute. reflexivity. Qed.
Example b64_vectors : (b64encode <$> ["f"; "fo"; "foo"; "foobar"]) = ["Zg=="; "Zm8="; "Zm9v"; "Zm9vYmFy"].
Proof. vm_compute. reflexivity. Qed.
