(* ===== verification/Sql.v ===== *)
(** * What the scripts use of SQLite

    The LIKE operator and the range of INTEGER columns. *)
From Stdlib Require Import Ascii.
From S2P Require Export PyCore.

Fixpoint skip_cont (s : string) : string :=
  match s with String c s' => if is_cont c then skip_cont s' else s | EmptyString => EmptyString end.

(** LIKE: "%" stands for any characters, "_" for one, the character after the escape character for
    itself; ASCII letters match in either case. *)
Fixpoint like (esc : option ascii) (fuel : nat) (pat s : string) : bool :=
  match fuel with
  | O => false
  | S fuel =>
      let same p pat' :=
        match s with
        | String c s' => Ascii.eqb (lower_char p) (lower_char c) && like esc fuel pat' s'
        | EmptyString => false
        end in
      match pat with
      | EmptyString => str_empty s
      | String p pat' =>
          if bool_decide (esc = Some p) then match pat' with String q pat' => same q pat' | EmptyString => false end
          else if Ascii.eqb p "%"
          then like esc fuel pat' s || match s with String _ s' => like esc fuel pat s' | EmptyString => false end
          else if Ascii.eqb p "_"
          then match s with String _ s' => like esc fuel pat' (skip_cont s') | EmptyString => false end
          else same p pat'
      end
  end.
Definition sql_like_escape (esc : option ascii) (s pat : string) : bool := like esc (S (String.length pat + String.length s)) pat s.
Definition sql_like (s pat : string) : bool := sql_like_escape None s pat.
Definition opt_like (o : option string) (pat : string) : bool :=
  match o with Some s => sql_like s pat | None => false end.

(** Binding a Python integer to a parameter of a statement. *)
Definition bind_int (n : Z) : res Z :=
  if (- 2 ^ 63 <=? n) && (n <? 2 ^ 63) then Ok n else Raise (Exn OverflowError "Python int too large to convert to SQLite INTEGER").

Example like_ex :
  sql_like "Main_loop" "main%p" && negb (sql_like "loop" "loo") && sql_like_escape (Some "\"%char) "a%b" "%\%b" &&
  negb (sql_like_escape (Some "\"%char) "axb" "%\%b") = true.
Proof. vm_compute. reflexivity. Qed.

(** Without wildcards, LIKE with a final "%" tests for a prefix, up to case. *)
Definition literal_char (c : ascii) : bool := negb (Ascii.eqb c "%") && negb (Ascii.eqb c "_").
Lemma like_any fuel s : (String.length s < fuel)%nat -> like None (S fuel) "%" s = true.
Proof.
  revert fuel. induction s as [|c s IH]; intros fuel Hf; (destruct fuel as [|fuel]; [cbn in Hf; lia|]); [done|].
  cbn in Hf. specialize (IH fuel ltac:(lia)). change (like None (S (S fuel)) "%" (String c s)) with (false || like None (S fuel) "%" s).
  by rewrite IH.
Qed.
Lemma like_prefix p s fuel : str_forall literal_char p = true -> (String.length p + String.length s + 1 < fuel)%nat ->
  like None fuel (p +:+ "%") s = String.prefix (str_lower p) (str_lower s).
Proof.
  revert s fuel. induction p as [|c p IH]; intros s fuel Hp Hf.
  - destruct fuel as [|fuel]; [lia|]. cbn in Hf. rewrite (like_any fuel) by lia. by destruct s.
  - cbn [str_forall] in Hp. apply andb_true_iff in Hp as [Hc Hp]. unfold literal_char in Hc.
    apply andb_true_iff in Hc as [Hp1%negb_true_iff Hp2%negb_true_iff].
    destruct fuel as [|fuel]; [lia|]. change (String c p +:+ "%") with (String c (p +:+ "%")). cbn [like].
    rewrite bool_decide_false, Hp1, Hp2 by done.
    destruct s as [|d s]; [done|]. cbn [str_lower str_map String.prefix]. cbn in Hf.
    destruct (Ascii.eqb_spec (lower_char c) (lower_char d)) as [E|E].
    + rewrite E. destruct (ascii_dec _ _); [|done]. apply IH; [done|lia].
    + destruct (ascii_dec _ _); [done|done].
Qed.
