(* ===== verification/Security.v ===== *)
(** * Scoped tokens and the hash-chained audit log ([ppc_lab_security.py])

    [Store] models the token store: the operations run on the content of the store file ([None] when
    it does not exist; reading and decoding it may also raise).  Random draws and the clock are
    arguments.  [Audit] models the audit log as the lines of its file, each ending in a newline. *)
From stdpp Require Import pretty.
From Stdlib Require Import Ascii.
From S2P Require Export PyState Json Sha.

(** A new object with the given items. *)
Abbreviation obj := VDict.

Definition STORE_SCHEMA : string := "ppc-lab-auth-store-v1".
Definition TOKEN_SCHEMA : string := "ppc-lab-auth-token-v1".
Definition AUDIT_SCHEMA : string := "ppc-lab-audit-record-v1".
Definition API_VERSION : Z := 1.
Definition PBKDF2_ROUNDS : Z := 120000.

Definition ROLES : list (string * list string) := [
  ("viewer", ["status:read"; "evidence:read"]);
  ("runner", ["status:read"; "execute:run"]);
  ("researcher", ["status:read"; "evidence:read"; "execute:run"]);
  ("admin", ["*"])].
Definition KNOWN_SCOPES : list string := ["status:read"; "evidence:read"; "execute:run"; "*"].

Module Store.

(** ** Scopes *)

(** [hash(x)] raises on lists and objects. *)
Definition hash_check (v : value) : res unit :=
  match v with
  | VList _ | VDict _ => Raise (Exn TypeError ("unhashable type: '" +:+ type_name v +:+ "'"))
  | _ => Ok tt
  end.

(** [x in {...}] for a set of strings. *)
Definition in_strings (v : value) (l : list string) : res bool :=
  _ ← hash_check v; Ok (existsb (eq_str v) l).

Definition add_scope (s : list string) (x : string) : list string :=
  if existsb (String.eqb x) s then s else s ++ [x].

(** [set(ROLES.get(role or '', set()))] *)
Definition role_scopes (role : value) : res (list string) :=
  let role := if py_bool role then role else VStr "" in
  _ ← hash_check role;
  Ok match role with VStr r => match dget r ROLES with Some s => s | None => [] end | _ => [] end.

Definition add_extra (s : list string) (x : value) : res (list string) :=
  known ← in_strings x KNOWN_SCOPES;
  if known : bool then Ok (match x with VStr x => add_scope s x | _ => s end)
  else app_error ("unknown scope: " +:+ py_str x).

(** [if '*' in s: s = {'*'}] *)
Definition only_star (s : list string) : list string := if existsb (String.eqb "*") s then ["*"] else s.

Definition normalize_scopes (role : value) (extra : list value) : res (list string) :=
  s ← role_scopes role;
  s ← res_fold add_extra s extra;
  _ ← guard_app (negb (Nat.eqb (length s) 0)) "at least one role or scope is required";
  Ok (py_sorted id (only_star s)).

(** ** Sets of JSON values, as the [scopes] of a record *)

Definition set_add (s : list value) (x : value) : list value := if existsb (py_eq x) s then s else s ++ [x].
Definition value_set (v : value) : res (list value) :=
  l ← viter v;
  _ ← res_map hash_check l;
  Ok (fold_left set_add l []).

(** [x < y]: strings or numbers. *)
Definition value_lt (x y : value) : res bool :=
  let mismatch := Raise (Exn TypeError ("'<' not supported between instances of '" +:+ type_name x +:+
                                        "' and '" +:+ type_name y +:+ "'")) in
  let frac v := match v with
    | VBool b => Some (if b : bool then 1 else 0, 1) | VInt n => Some (n, 1)
    | VFloat f => if is_finite f then Some (float_frac f) else None | _ => None end in
  match x, y with
  | VStr a, VStr b => Ok (py_lt a b)
  | VFloat a, VFloat b => Ok (fltb a b)
  | VFloat (SpecFloat.S754_infinity neg), (VBool _ | VInt _) => Ok neg
  | (VBool _ | VInt _), VFloat (SpecFloat.S754_infinity neg) => Ok (negb neg)
  | (VBool _ | VInt _), (VBool _ | VInt _ | VFloat _) | VFloat _, (VBool _ | VInt _) =>
      Ok match frac x, frac y with Some (a, b), Some (c, d) => a * d <? c * b | _, _ => false end
  | _, _ => mismatch
  end.

Fixpoint sort_insert (x : value) (l : list value) : res (list value) :=
  match l with
  | [] => Ok [x]
  | y :: r => lt ← value_lt y x; if lt : bool then (r ← sort_insert x r; Ok (y :: r)) else Ok (x :: l)
  end.
(** [sorted(s)] of distinct values. *)
Fixpoint value_sorted (l : list value) : res (list value) :=
  match l with [] => Ok [] | x :: r => r ← value_sorted r; sort_insert x r end.

(** ** The store *)

(** The content of the store file: what [json.loads(p.read_text())] gives. *)
Abbreviation file := (option (res value)).
Abbreviation S := (M file).

(** What [secrets] draws for a new token. *)
Record draws := Draws { draw_id : string; draw_secret : string; draw_salt : string }.

Section store.
(** The resolved path of the store. *)
Context (p : string).

Definition derive (secret salt : string) (rounds : Z) : res string := pbkdf2_hmac secret salt rounds.

Definition load_doc (f : file) : res (dict value * dict value) :=
  doc ← match f with
        | None => app_error ("auth store does not exist: " +:+ p)
        | Some r => r
        end;
  match doc with
  | VDict d =>
      _ ← guard_app (eq_str (dget_n "schema" d) STORE_SCHEMA)
            ("unsupported auth store schema: " +:+ py_str (dget_n "schema" d));
      match dget_n "tokens" d with
      | VDict tokens => Ok (d, tokens)
      | _ => app_error "auth store tokens must be an object"
      end
  | v => no_attr v "get"
  end.
(** The document and its [tokens]. *)
Definition load_store : S (dict value * dict value) := fun f => (load_doc f, f).

(** [doc['tokens'] = tokens; atomic_json(p, doc)] *)
Definition save (doc tokens : dict value) : S unit :=
  modify (fun _ => Some (Ok (obj (dset "tokens" (obj tokens) doc)))).

Definition auth_result (operation : string) (rest : dict value) : dict value :=
  [("schema", VStr "ppc-lab-auth-result-v1"); ("ok", VBool true); ("operation", VStr operation)] ++ rest.

Definition init_store (now : string) (force : bool) : S (dict value) :=
  f ← gets id;
  if match f with Some _ => true | None => false end && negb force
  then throw AppError ("auth store already exists: " +:+ p)
  else
    _ ← modify (fun _ => Some (Ok (obj [("schema", VStr STORE_SCHEMA); ("security_api", VInt API_VERSION);
                                        ("created_at", VStr now); ("tokens", obj [])])));
    mret (auth_result "init" [("store", VStr p)]).

Definition token_record (now : string) (r : draws) (digest : string) (role : value) (scopes : list string)
    (label : value) : dict value :=
  [("schema", VStr TOKEN_SCHEMA); ("label", label); ("role", role); ("scopes", VList (VStr <$> scopes));
   ("salt", VStr (b64encode (draw_salt r))); ("digest", VStr (b64encode digest)); ("rounds", VInt PBKDF2_ROUNDS);
   ("created_at", VStr now); ("revoked_at", VNone)].

Definition issue (now : string) (r : draws) (role : value) (extra : list value) (label : value) :
    S (dict value) :=
  '(doc, tokens) ← load_store;
  let token_id := hexlify (draw_id r) in
  let secret := urlsafe (draw_secret r) in
  scopes ← lift (normalize_scopes role extra);
  let label := if py_bool label then label else VStr token_id in
  digest ← lift (derive secret (draw_salt r) PBKDF2_ROUNDS);
  _ ← save doc (dset token_id (obj (token_record now r digest role scopes label)) tokens);
  mret (auth_result "issue" [("token_id", VStr token_id); ("token", VStr (token_id +:+ "." +:+ secret));
                             ("label", label); ("role", role); ("scopes", VList (VStr <$> scopes))]).

Definition refuse (reason : string) (rest : dict value) : value :=
  obj ([("ok", VBool false); ("reason", VStr reason)] ++ rest).

(** [base64.b64decode(v, validate=True)] *)
Definition b64_value (v : value) : res string :=
  match v with
  | VStr s => match b64decode s with Some b => Ok b | None => Raise (Exn ValueError "invalid base64") end
  | _ => Raise (Exn TypeError "argument should be a bytes-like object or ASCII string")
  end.

(** Salt, digest and rounds of a record: any failure makes the record invalid. *)
Definition read_record (item : dict value) : res (string * string * Z) :=
  salt ← vindex "salt" (obj item); salt ← b64_value salt;
  expected ← vindex "digest" (obj item); expected ← b64_value expected;
  rounds ← py_int (dget_or "rounds" (VInt PBKDF2_ROUNDS) item);
  Ok (salt, expected, rounds).

(** The decision on an authenticated token. *)
Definition authorize (token_id : string) (item : dict value) (required : option string) : res value :=
  scopes ← value_set (dget_or "scopes" (VList []) item);
  let has x := existsb (fun y => eq_str y x) scopes in
  let allowed := match required with None => true | Some q => has "*" || has q end in
  sorted ← value_sorted scopes;
  Ok (obj [("ok", VBool allowed); ("authenticated", VBool true); ("authorized", VBool allowed);
           ("reason", VStr (if allowed then "ok" else "insufficient-scope")); ("token_id", VStr token_id);
           ("label", dget_n "label" item); ("role", dget_n "role" item); ("scopes", VList sorted);
           ("required", match required with Some q => VStr q | None => VNone end)]).

Definition check_item (token_id secret : string) (item : dict value) (required : option string) : res value :=
  let id := [("token_id", VStr token_id)] in
  if py_bool (dget_n "revoked_at" item) then Ok (refuse "revoked" id)
  else match read_record item with
  | Raise _ => Ok (refuse "invalid-token-record" id)
  | Ok (salt, expected, rounds) =>
      actual ← derive secret salt rounds;
      if negb (String.eqb actual expected) then Ok (refuse "invalid-secret" id)
      else authorize token_id item required
  end.

Definition verify_token (f : file) (token : string) (required : option string) : res value :=
  match str_split1 "."%char token with
  | None => Ok (refuse "malformed-token" [])
  | Some (token_id, secret) =>
      match load_doc f with
      | Raise e => if handled [AppError; OSError; JSONDecodeError] e then Ok (refuse "auth-store-error" [])
                   else Raise e
      | Ok (_, tokens) =>
          match dget_n token_id tokens with
          | VDict item => check_item token_id secret item required
          | _ => Ok (refuse "unknown-token" [("token_id", VStr token_id)])
          end
      end
  end.

(** [doc['tokens'].get(token_id)], an object. *)
Definition find_item (token_id : string) : S (dict value * dict value * dict value) :=
  '(doc, tokens) ← load_store;
  match dget_n token_id tokens with
  | VDict item => mret (doc, tokens, item)
  | _ => throw AppError ("unknown token id: " +:+ token_id)
  end.

Definition revoke (now : string) (token_id : string) : S (dict value) :=
  '(doc, tokens, item) ← find_item token_id;
  let done := py_bool (dget_n "revoked_at" item) in
  let item := if done then item else dset "revoked_at" (VStr now) item in
  _ ← (if done then mret tt else save doc (dset token_id (obj item) tokens));
  mret (auth_result "revoke" [("token_id", VStr token_id); ("revoked_at", dget_n "revoked_at" item)]).

Definition rotate (now_revoke now_issue : string) (r : draws) (token_id : string) : S (dict value) :=
  '(doc, tokens, item) ← find_item token_id;
  scopes ← lift (viter (dget_or "scopes" (VList []) item));
  let label := dget_n "label" item in
  let label := py_str (if py_bool label then label else VStr token_id) in
  let role := dget_n "role" item in
  _ ← revoke now_revoke token_id;
  result ← issue now_issue r role scopes (VStr label);
  mret (dset "replaces" (VStr token_id) (dset "operation" (VStr "rotate") result)).

Definition list_row (kv : string * value) : res value :=
  match snd kv with
  | VDict item =>
      Ok (obj [("token_id", VStr (fst kv)); ("label", dget_n "label" item); ("role", dget_n "role" item);
               ("scopes", dget_or "scopes" (VList []) item); ("created_at", dget_n "created_at" item);
               ("revoked_at", dget_n "revoked_at" item)])
  | v => no_attr v "get"
  end.
Definition list_tokens : S (dict value) :=
  '(_, tokens) ← load_store;
  rows ← lift (res_map list_row (py_sorted fst tokens));
  mret [("schema", VStr "ppc-lab-auth-list-v1"); ("security_api", VInt API_VERSION);
        ("count", VInt (Z.of_nat (length rows))); ("tokens", VList rows)].

End store.
End Store.

Module Audit.

(** A line of the log: blank, a JSON document, or text that is not JSON. *)
Inductive line := Blank | Doc (v : value) | Bad (msg : string).
Abbreviation log := (option (list line)).

Definition zero_hash : string := zeros 64.

Definition is_blank (l : line) : bool := match l with Blank => true | _ => false end.

(** The digest of a record without its [record_hash]. *)
Definition record_digest (base : dict value) : string := sha256_hex (canonical (VDict base)).

(** [{**a, **b}] *)
Definition merge (a b : dict value) : dict value := fold_left (fun d kv => dset (fst kv) (snd kv) d) b a.

(** The hash and number the next record continues from. *)
Definition chain_end (ls : list line) : res (string * Z) :=
  match last (List.filter (fun l => negb (is_blank l)) ls) with
  | None | Some Blank => Ok (zero_hash, 1)
  | Some (Bad msg) => Raise (Exn JSONDecodeError msg)
  | Some (Doc (VDict d)) =>
      n ← py_int (dget_or "seq" (VInt 0) d);
      Ok (py_str (dget_or "record_hash" (VStr "") d), n + 1)
  | Some (Doc v) => no_attr v "get"
  end.

Definition audit_append (now : string) (event : dict value) : M log (dict value) :=
  l ← gets id;
  let ls := default [] l in
  '(prev, seq) ← lift (chain_end ls);
  let base := merge [("schema", VStr AUDIT_SCHEMA); ("seq", VInt seq); ("timestamp", VStr now);
                     ("prev_hash", VStr prev)] event in
  let record := dset "record_hash" (VStr (record_digest base)) base in
  _ ← modify (fun _ => Some (ls ++ [Doc (VDict record)]));
  mret record.

Record check := Check { chk_prev : string; chk_count : Z; chk_errors : list string }.

Definition line_error (n : Z) (what : string) : string := "line " +:+ pretty n +:+ ": " +:+ what.

Definition check_record (n : Z) (c : check) (d : dict value) : check :=
  let stored := dget_n "record_hash" d in
  let calc := record_digest (ddel "record_hash" d) in
  Check (py_str (if py_bool stored then stored else VStr "")) (chk_count c + 1)
    (chk_errors c
     ++ (if eq_str (dget_n "schema" d) AUDIT_SCHEMA then [] else [line_error n "invalid schema"])
     ++ (if eq_str (dget_n "prev_hash" d) (chk_prev c) then [] else [line_error n "previous hash mismatch"])
     ++ (if eq_str stored calc then [] else [line_error n "record hash mismatch"])).

Definition check_line (c : check) (nl : Z * line) : res check :=
  match snd nl with
  | Blank => Ok c
  | Bad msg => Ok (Check (chk_prev c) (chk_count c + 1)
                     (chk_errors c ++ [line_error (fst nl) ("invalid JSON: " +:+ msg)]))
  | Doc (VDict d) => Ok (check_record (fst nl) c d)
  | Doc v => no_attr v "get"
  end.

Definition check_lines (n : Z) (c : check) (ls : list line) : res check :=
  res_fold check_line c (enumerate_from n ls).

Definition verify_doc (ok : bool) (count : Z) (rest : dict value) (errors : list string) : dict value :=
  [("schema", VStr "ppc-lab-audit-verify-v1"); ("ok", VBool ok); ("records", VInt count)] ++ rest ++
  [("errors", VList (VStr <$> errors))].

Definition audit_verify (l : log) : res (dict value) :=
  match l with
  | None => Ok (verify_doc true 0 [] [])
  | Some ls =>
      c ← check_lines 1 (Check zero_hash 0 []) ls;
      Ok (verify_doc (Nat.eqb (length (chk_errors c)) 0) (chk_count c) [("head", VStr (chk_prev c))] (chk_errors c))
  end.

End Audit.

(** ** The command line *)

Module Cli.
Import Store.

Inductive command :=
  | Init (force : bool)
  | Issue (role : option string) (scope : list string) (label : option string)
  | ListTokens
  | Verify (token : string) (require : option string)
  | Revoke (token_id : string)
  | Rotate (token_id : string)
  | AuditVerify (l : Audit.log).

Definition opt_str (o : option string) : value := match o with Some s => VStr s | None => VNone end.

(** What a command draws and the times it reads. *)
Record inputs := Inputs { in_now : string; in_now2 : string; in_draws : draws }.

Definition dispatch (p : string) (i : inputs) (c : command) : S (dict value) :=
  match c with
  | Init force => init_store p (in_now i) force
  | Issue role scope label =>
      issue p (in_now i) (in_draws i) (opt_str role) (VStr <$> scope) (opt_str label)
  | ListTokens => list_tokens p
  | Verify token require =>
      fun f => (match verify_token p f token require with
                | Ok (VDict d) => Ok d | Ok _ => Ok [] | Raise e => Raise e end, f)
  | Revoke id => revoke p (in_now i) id
  | Rotate id => rotate p (in_now i) (in_now2 i) (in_draws i) id
  | AuditVerify l => lift (Audit.audit_verify l)
  end.

(** A line of the plain listing: [','.join] wants strings. *)
Definition list_line (row : value) : res string :=
  tid ← vindex "token_id" row; label ← vindex "label" row; scopes ← vindex "scopes" row;
  scopes ← viter scopes;
  scopes ← res_map (fun s => match s with
                   | VStr s => Ok s
                   | v => Raise (Exn TypeError ("sequence item: expected str instance, " +:+ type_name v +:+ " found")) end) scopes;
  revoked ← vindex "revoked_at" row;
  Ok (py_str tid +:+ " " +:+ py_str label +:+ " scopes=" +:+ str_join "," scopes +:+ " revoked=" +:+
      py_str (if py_bool revoked then revoked else VStr "-")).

Definition command_name (c : command) : string :=
  match c with
  | Init _ => "init" | Issue _ _ _ => "issue" | ListTokens => "list" | Verify _ _ => "verify"
  | Revoke _ => "revoke" | Rotate _ => "rotate" | AuditVerify _ => "audit-verify"
  end.

(** What is printed without [--json]. *)
Definition plain_output (c : command) (out : dict value) : res (list string) :=
  match dget "token" out, c with
  | Some t, _ => Ok [py_str t]
  | None, ListTokens => rows ← viter (dget_n "tokens" out); res_map list_line rows
  | None, _ => Ok [command_name c +:+ "=" +:+ (if py_bool (dget_or "ok" (VBool false) out) then "PASS" else "FAIL")]
  end.

(** The exit code: 2 for the errors the command reports, 1 for an answer that is not ok. *)
Definition main (p : string) (i : inputs) (json : bool) (c : command) : S Z :=
  catch [AppError; OSError; JSONDecodeError; ValueError]
    (out ← dispatch p i c;
     _ ← (if json then mret [] else lift (plain_output c out));
     mret (if py_bool (dget_or "ok" (VBool true) out) then 0 else 1))
    (fun _ => mret 2).

End Cli.
