(* ===== verification/SecurityProps.v ===== *)
(** * The properties of tokens and of the audit log *)
From stdpp Require Import pretty.
From Stdlib Require Import Ascii.
From S2P Require Import Security.
Import Store Audit.

(** ** Scopes *)

Lemma str_eqb_existsb x (s : list string) : existsb (String.eqb x) s = true <-> x ∈ s.
Proof.
  rewrite existsb_exists. split.
  - intros (y&Hy&->%String.eqb_eq). by apply list_elem_of_In.
  - intros Hx. exists x. by rewrite <- list_elem_of_In, String.eqb_refl.
Qed.

Lemma in_strings_str x l : in_strings (VStr x) l = Ok (bool_decide (x ∈ l)).
Proof.
  unfold in_strings. cbn. f_equal. apply eq_bool_prop_intro. rewrite bool_decide_spec, <- str_eqb_existsb.
  by rewrite Is_true_true.
Qed.

Lemma elem_of_add_scope s x y : y ∈ add_scope s x <-> y ∈ s \/ y = x.
Proof.
  unfold add_scope. destruct (existsb (String.eqb x) s) eqn:E.
  - apply str_eqb_existsb in E. naive_solver.
  - rewrite elem_of_app, list_elem_of_singleton. done.
Qed.

Lemma NoDup_add_scope s x : NoDup s -> NoDup (add_scope s x).
Proof.
  unfold add_scope. intros Hs. destruct (existsb (String.eqb x) s) eqn:E; [done|].
  apply NoDup_app. split; [done|]. split; [|apply NoDup_singleton].
  intros y Hy ->%list_elem_of_singleton. apply str_eqb_existsb in Hy. congruence.
Qed.

(** The role of a command, as [role_scopes] reads it. *)
Definition scopes_of_role (role : value) : list string :=
  match role with VStr r => match dget r ROLES with Some s => s | None => [] end | _ => [] end.

Definition role_ok (role : value) : bool := match role with VNone | VStr _ => true | _ => false end.

Lemma role_scopes_ok role : role_ok role = true -> role_scopes role = Ok (scopes_of_role role).
Proof. destruct role as [| | | |r| |]; try done. intros _. by destruct r. Qed.

Lemma scopes_of_role_known role :
  NoDup (scopes_of_role role) /\ forall x, x ∈ scopes_of_role role -> x ∈ KNOWN_SCOPES.
Proof.
  destruct role as [| | | |r| |]; try (split; [constructor|set_solver]).
  cbn [scopes_of_role]. destruct (dget r ROLES) as [s|] eqn:E; [|split; [constructor|set_solver]].
  apply dget_some_in in E.
  assert (H : Forall (fun kv => NoDup (snd kv) /\ Forall (fun x => x ∈ KNOWN_SCOPES) (snd kv)) ROLES)
    by (refine (bool_decide_unpack _ _); vm_compute; exact I).
  rewrite Forall_forall in H. apply H in E as [Hn Hk]. by rewrite Forall_forall in Hk.
Qed.

Lemma add_extra_str s x :
  add_extra s (VStr x) =
  if bool_decide (x ∈ KNOWN_SCOPES) then Ok (add_scope s x) else app_error ("unknown scope: " +:+ x).
Proof. unfold add_extra. rewrite in_strings_str. by case_bool_decide. Qed.

Lemma add_extras s extra :
  (forall x, x ∈ extra -> x ∈ KNOWN_SCOPES) -> NoDup s ->
  exists s', res_fold add_extra s (VStr <$> extra) = Ok s' /\ NoDup s' /\ forall y, y ∈ s' <-> y ∈ s \/ y ∈ extra.
Proof.
  revert s. induction extra as [|x extra IH]; intros s Hk Hs; cbn [fmap list_fmap res_fold].
  - exists s. split; [done|]. split; [done|]. set_solver.
  - rewrite add_extra_str, bool_decide_eq_true_2 by (apply Hk; by left). cbn.
    destruct (IH (add_scope s x)) as (s'&->&Hn&Hs').
    { intros y Hy. apply Hk. by right. }
    { by apply NoDup_add_scope. }
    exists s'. split; [done|]. split; [done|]. intros y. rewrite Hs', elem_of_add_scope, elem_of_cons. tauto.
Qed.

Lemma add_extras_unknown s extra x :
  x ∈ extra -> x ∉ KNOWN_SCOPES -> exists msg, res_fold add_extra s (VStr <$> extra) = app_error msg.
Proof.
  revert s. induction extra as [|y extra IH]; intros s Hx Hk; [by apply not_elem_of_nil in Hx|].
  cbn [fmap list_fmap res_fold]. rewrite add_extra_str. case_bool_decide as Hy; cbn.
  - apply IH; [|done]. apply elem_of_cons in Hx as [->|Hx]; done.
  - by eexists.
Qed.

Lemma only_star_spec s : s <> [] -> NoDup s ->
  only_star s <> [] /\ NoDup (only_star s) /\
  forall x, x ∈ only_star s <-> if bool_decide ("*" ∈ s) then x = "*" else x ∈ s.
Proof.
  intros Hne Hn. unfold only_star. destruct (existsb (String.eqb "*") s) eqn:E.
  - rewrite bool_decide_eq_true_2 by (by apply str_eqb_existsb). split; [done|]. split; [apply NoDup_singleton|].
    intros x. apply list_elem_of_singleton.
  - rewrite bool_decide_eq_false_2; [done|]. intros H%str_eqb_existsb. congruence.
Qed.

(** The scopes a role and a list of scopes grant. *)
Definition granted (role : value) (extra : list string) (x : string) : Prop :=
  if bool_decide ("*" ∈ scopes_of_role role ++ extra) then x = "*" else x ∈ scopes_of_role role ++ extra.

Lemma granted_star role extra : granted role extra "*" <-> "*" ∈ scopes_of_role role ++ extra.
Proof. unfold granted. case_bool_decide; tauto. Qed.

Lemma normalize_sound role extra s :
  role_ok role = true -> normalize_scopes role (VStr <$> extra) = Ok s ->
  (forall x, x ∈ extra -> x ∈ KNOWN_SCOPES) /\ s <> [] /\ NoDup s /\ py_ordered id s /\
  forall x, x ∈ s <-> granted role extra x.
Proof.
  intros Hr. unfold normalize_scopes. rewrite role_scopes_ok by done. cbn [mbind res_bind].
  destruct (decide (Forall (fun x => x ∈ KNOWN_SCOPES) extra)) as [Hk|Hk].
  - rewrite Forall_forall in Hk. destruct (scopes_of_role_known role) as [Hn _].
    destruct (add_extras (scopes_of_role role) extra Hk Hn) as (s'&->&Hn'&Hs'). cbn [mbind res_bind].
    intros H. inv_res. clear x. split; [done|]. assert (Hne : s' <> []) by (by destruct s').
    destruct (only_star_spec s' Hne Hn') as (Hne1&Hn1&Hs1). split_and!.
    + intros E%(f_equal length). rewrite length_py_sorted in E. by destruct (only_star s').
    + by apply NoDup_py_sorted.
    + by apply py_sorted_ordered.
    + intros x. rewrite elem_of_py_sorted, Hs1. unfold granted.
      rewrite (bool_decide_ext ("*" ∈ s') ("*" ∈ scopes_of_role role ++ extra)) by (by rewrite Hs', elem_of_app).
      clear Hs1. case_bool_decide; [tauto|]. rewrite Hs', elem_of_app. tauto.
  - apply not_Forall_Exists in Hk; [|apply _]. apply Exists_exists in Hk as (x&Hx&Hnk).
    destruct (add_extras_unknown (scopes_of_role role) extra x Hx Hnk) as [msg ->]. done.
Qed.

Lemma normalize_complete role extra :
  role_ok role = true -> (forall x, x ∈ extra -> x ∈ KNOWN_SCOPES) -> scopes_of_role role ++ extra <> [] ->
  exists s, normalize_scopes role (VStr <$> extra) = Ok s.
Proof.
  intros Hr Hk Hne. unfold normalize_scopes. rewrite role_scopes_ok by done. cbn [mbind res_bind].
  destruct (scopes_of_role_known role) as [Hn _].
  destruct (add_extras (scopes_of_role role) extra Hk Hn) as (s'&->&Hn'&Hs'). cbn [mbind res_bind].
  destruct s' as [|x s']; [|by eexists]. exfalso. apply Hne. destruct (scopes_of_role role ++ extra) as [|y l] eqn:E; [done|]. exfalso.
  assert (Hy : y ∈ scopes_of_role role ++ extra) by (rewrite E; by left).
  rewrite elem_of_app, <- Hs' in Hy. by apply not_elem_of_nil in Hy.
Qed.

(** Normalised scopes are normal. *)
Lemma normalize_idem role extra s :
  role_ok role = true -> normalize_scopes role (VStr <$> extra) = Ok s ->
  normalize_scopes role (VStr <$> s) = Ok s.
Proof.
  intros Hr H. destruct (normalize_sound role extra s Hr H) as (Hk&Hne&Hn&Ho&Hs).
  destruct (scopes_of_role_known role) as [_ Hrk].
  destruct (normalize_complete role s) as [s' Hs'].
  - done.
  - intros x Hx%Hs. unfold granted in Hx. case_bool_decide; [subst; set_solver|].
    apply elem_of_app in Hx as [Hx|Hx]; auto.
  - destruct (scopes_of_role role); [done|discriminate].
  - rewrite Hs'. f_equal. destruct (normalize_sound role s s' Hr Hs') as (_&_&Hn'&Ho'&Hs2).
    rewrite <- (py_sorted_id id s Ho), <- (py_sorted_id id s' Ho'). apply py_sorted_unique, NoDup_Permutation; [done..|].
    intros x. rewrite Hs2, Hs. unfold granted.
    rewrite (bool_decide_ext ("*" ∈ scopes_of_role role ++ s) ("*" ∈ scopes_of_role role ++ extra))
      by (rewrite elem_of_app, Hs; pose proof (granted_star role extra); set_solver).
    case_bool_decide as E; [tauto|]. rewrite !elem_of_app, Hs. unfold granted.
    rewrite bool_decide_eq_false_2, elem_of_app by done. tauto.
Qed.

(** A role and a list of scopes are normalised to the sorted list, without repetition, of
    exactly the scopes they grant ("*" alone when it is one of them).  The command refuses unknown
    scopes and an empty grant, and nothing else. *)
Theorem normalize_scopes_spec (role : value) (extra : list string) :
  role_ok role = true ->
  match normalize_scopes role (VStr <$> extra) with
  | Ok s => (forall x, x ∈ extra -> x ∈ KNOWN_SCOPES) /\ s <> [] /\ NoDup s /\ py_ordered id s /\
            forall x, x ∈ s <-> granted role extra x
  | Raise e => exn_class e = AppError /\
               ((exists x, x ∈ extra /\ x ∉ KNOWN_SCOPES) \/ scopes_of_role role ++ extra = [])
  end.
Proof.
  intros Hr. destruct (normalize_scopes role (VStr <$> extra)) as [s|e] eqn:E; [by apply normalize_sound|].
  destruct (decide (Forall (fun x => x ∈ KNOWN_SCOPES) extra)) as [Hk|Hk].
  - rewrite Forall_forall in Hk. destruct (decide (scopes_of_role role ++ extra = [])) as [Hnil|Hne].
    + split; [|by right]. apply app_nil in Hnil as [Hrole ->]. revert E. unfold normalize_scopes.
      rewrite role_scopes_ok by done. rewrite Hrole. by intros [= <-].
    + destruct (normalize_complete role extra Hr Hk Hne) as [s Hs]. congruence.
  - apply not_Forall_Exists in Hk; [|apply _]. apply Exists_exists in Hk as (x&Hx&Hnk).
    destruct (add_extras_unknown (scopes_of_role role) extra x Hx Hnk) as [msg Hmsg].
    revert E. unfold normalize_scopes. rewrite role_scopes_ok by done. cbn [mbind res_bind]. rewrite Hmsg.
    intros [= <-]. split; [done|]. left. by exists x.
Qed.

Lemma normalize_scopes_spec_witness :
  role_ok (VStr "runner") = true /\
  (exists s, normalize_scopes (VStr "runner") (VStr <$> ["evidence:read"; "status:read"]) = Ok s /\
     forall x, x ∈ s <-> granted (VStr "runner") ["evidence:read"; "status:read"] x).
Proof.
  split; [reflexivity|].
  pose proof (normalize_scopes_spec (VStr "runner") ["evidence:read"; "status:read"] eq_refl) as H.
  exists ["evidence:read"; "execute:run"; "status:read"]. split; [vm_compute; reflexivity|].
  exact (proj2 (proj2 (proj2 (proj2 H)))).
Defined.

(** ** Tokens *)

#[local] Opaque pbkdf2_block.

Lemma derive_rounds secret salt :
  derive secret salt PBKDF2_ROUNDS = Ok (pbkdf2_block secret salt PBKDF2_ROUNDS).
Proof. reflexivity. Qed.

(** The id part of a token. *)
Definition token_id (token : string) : option string := fst <$> str_split1 "."%char token.

Lemma split_token a b : str_mem "."%char a = false -> str_split1 "."%char (a +:+ "." +:+ b) = Some (a, b).
Proof.
  induction a as [|c a IH]; [done|]. cbn [str_mem]. intros [Hc Ha]%orb_false_iff.
  change (str_split1 "."%char (String c (a +:+ "." +:+ b)) = Some (String c a, b)). cbn [str_split1].
  by rewrite Hc, IH.
Qed.

Lemma hex_token r b : str_split1 "."%char (hexlify r +:+ "." +:+ b) = Some (hexlify r, b).
Proof. apply split_token. by apply hexlify_no_char. Qed.

Lemma value_set_strings l : NoDup l -> value_set (VList (VStr <$> l)) = Ok (VStr <$> l).
Proof.
  intros Hn. unfold value_set. cbn [viter mbind res_bind].
  assert (H1 : res_map hash_check (VStr <$> l) = Ok ((fun _ => tt) <$> l)).
  { clear Hn. induction l as [|x l IH]; [done|]. rewrite !fmap_cons. cbn [res_map hash_check mbind res_bind].
    by rewrite IH. }
  rewrite H1. cbn [mbind res_bind]. f_equal. clear H1.
  assert (H2 : forall a, NoDup (a ++ l) -> fold_left set_add (VStr <$> l) (VStr <$> a) = VStr <$> (a ++ l)).
  { clear Hn. induction l as [|x l IH]; intros a Ha; [by rewrite app_nil_r|]. rewrite fmap_cons. cbn [fold_left].
    assert (Hx : existsb (py_eq (VStr x)) (VStr <$> a) = false).
    { apply not_true_is_false. rewrite existsb_exists. intros (v&Hv&Heq). apply list_elem_of_In, list_elem_of_fmap in Hv
        as (y&->&Hy). cbn in Heq. apply String.eqb_eq in Heq as ->. apply NoDup_app in Ha as (_&Ha&_).
      apply (Ha y Hy). by left. }
    unfold set_add at 2. rewrite Hx. change [VStr x] with (VStr <$> [x]). rewrite <- fmap_app.
    rewrite (IH (a ++ [x])); [by rewrite <- app_assoc|]. by rewrite <- app_assoc. }
  by apply (H2 []).
Qed.

Lemma value_sorted_strings l : value_sorted (VStr <$> l) = Ok (VStr <$> py_sorted id l).
Proof.
  assert (Hi : forall x l, sort_insert (VStr x) (VStr <$> l) = Ok (VStr <$> py_insert id x l)).
  { clear l. intros x l. induction l as [|y l IH]; [done|]. rewrite fmap_cons. cbn [sort_insert py_insert value_lt].
    unfold py_lt. cbn [mbind res_bind]. change (id x) with x. change (id y) with y.
    destruct (py_le x y) eqn:E; cbn [negb]; [done|]. by rewrite IH. }
  induction l as [|x l IH]; [done|]. rewrite fmap_cons. cbn [value_sorted py_sorted]. rewrite IH. cbn [mbind res_bind]. apply Hi.
Qed.

Section store_facts.
Context (p : string).

Lemma load_saved f doc tokens t :
  load_doc p f = Ok (doc, tokens) ->
  load_doc p (Some (Ok (obj (dset "tokens" (obj t) doc)))) = Ok (dset "tokens" (obj t) doc, t).
Proof.
  unfold load_doc. destruct f as [[[| | | | | |d]|]|]; try done. cbn [mbind res_bind]. intros H.
  apply res_bind_Ok in H as ([]&Hg&H). apply guard_app_Ok in Hg. revert H. unfold dget_n, dget_or in *.
  destruct (dget "tokens" d) as [[]|] eqn:E; try done. intros [= <- <-].
  rewrite (dget_dset_ne "schema") by done. rewrite Hg. cbn [guard_app mbind res_bind]. by rewrite dget_dset_eq.
Qed.

(** Verification reads one entry of the store. *)
Lemma verify_entry f f' doc doc' tokens tokens' token required :
  load_doc p f = Ok (doc, tokens) -> load_doc p f' = Ok (doc', tokens') ->
  (forall k, token_id token = Some k -> dget k tokens' = dget k tokens) ->
  verify_token p f' token required = verify_token p f token required.
Proof.
  intros H H' Hk. unfold verify_token, token_id in *. destruct (str_split1 "."%char token) as [[k s]|]; [|done].
  rewrite H, H'. unfold dget_n, dget_or. by rewrite (Hk k).
Qed.

Lemma verify_item f doc tokens token required k secret item :
  load_doc p f = Ok (doc, tokens) -> str_split1 "."%char token = Some (k, secret) -> dget k tokens = Some (obj item) ->
  verify_token p f token required = check_item k secret item required.
Proof. intros H Ht Hi. unfold verify_token, dget_n, dget_or. by rewrite Ht, H, Hi. Qed.

Lemma check_revoked k secret item required :
  py_bool (dget_n "revoked_at" item) = true ->
  check_item k secret item required = Ok (refuse "revoked" [("token_id", VStr k)]).
Proof. unfold check_item. by intros ->. Qed.

(** The state after issuing. *)
Definition issued (now : string) (r : draws) (role : value) (scopes : list string) (label : value)
    (doc tokens : dict value) : dict value :=
  dset (hexlify (draw_id r)) (obj (token_record now r (pbkdf2_block (urlsafe (draw_secret r)) (draw_salt r) PBKDF2_ROUNDS)
    role scopes (if py_bool label then label else VStr (hexlify (draw_id r))))) tokens.

Lemma issue_run now r role extra label f doc tokens scopes :
  load_doc p f = Ok (doc, tokens) -> normalize_scopes role extra = Ok scopes ->
  exists result,
    issue p now r role extra label f =
      (Ok result, Some (Ok (obj (dset "tokens" (obj (issued now r role scopes label doc tokens)) doc)))) /\
    dget "token" result = Some (VStr (hexlify (draw_id r) +:+ "." +:+ urlsafe (draw_secret r))).
Proof.
  intros Hl Hs. unfold issue, mbind, M_bind, load_store, lift. rewrite Hl. cbv beta iota zeta. rewrite Hs.
  rewrite derive_rounds. by eexists.
Qed.

(** What the record of a new token answers. *)
Lemma read_issued now r digest role scopes label :
  read_record (token_record now r digest role scopes label) = Ok (draw_salt r, digest, PBKDF2_ROUNDS).
Proof.
  unfold read_record. set (item := token_record _ _ _ _ _ _).
  change (vindex "salt" (obj item)) with (@Ok value (VStr (b64encode (draw_salt r)))).
  change (vindex "digest" (obj item)) with (@Ok value (VStr (b64encode digest))).
  cbn [mbind res_bind b64_value]. rewrite !b64_roundtrip. reflexivity.
Qed.

Lemma authorize_issued k now r digest role scopes label required :
  NoDup scopes -> py_ordered id scopes ->
  let allowed := match required with None => true | Some q => bool_decide ("*" ∈ scopes \/ q ∈ scopes) end in
  exists ans, authorize k (token_record now r digest role scopes label) required = Ok (obj ans) /\
    dget_n "authenticated" ans = VBool true /\ dget_n "ok" ans = VBool allowed /\
    dget "scopes" ans = Some (VList (VStr <$> scopes)).
Proof.
  intros Hn Ho allowed. unfold authorize. set (item := token_record _ _ _ _ _ _).
  change (dget_or "scopes" (VList []) item) with (VList (VStr <$> scopes)).
  rewrite value_set_strings by done. cbn [mbind res_bind]. rewrite value_sorted_strings, (py_sorted_id id) by done.
  cbn [mbind res_bind].
  assert (Hhas : forall x, existsb (fun y => eq_str y x) (VStr <$> scopes) = bool_decide (x ∈ scopes)).
  { intros x. apply eq_bool_prop_intro. rewrite bool_decide_spec, Is_true_true, existsb_exists. split.
    - intros (v&Hv&->%eq_str_true). apply list_elem_of_In, list_elem_of_fmap in Hv as (y&[= ->]&Hy). done.
    - intros Hx. exists (VStr x). rewrite <- list_elem_of_In. split; [by apply list_elem_of_fmap_2|]. by apply eq_str_true. }
  eexists. split; [done|]. split; [done|]. split; [|done].
  cbn. f_equal. unfold allowed. destruct required as [q|]; [|done].
  rewrite !Hhas. apply eq_bool_prop_intro. rewrite bool_decide_spec, Is_true_true, orb_true_iff, !bool_decide_eq_true. done.
Qed.

Lemma check_issued now r digest role scopes label k secret required :
  NoDup scopes -> py_ordered id scopes ->
  let good := String.eqb (pbkdf2_block secret (draw_salt r) PBKDF2_ROUNDS) digest in
  let allowed := match required with None => true | Some q => bool_decide ("*" ∈ scopes \/ q ∈ scopes) end in
  exists ans, check_item k secret (token_record now r digest role scopes label) required = Ok (obj ans) /\
    dget_n "authenticated" ans = (if good then VBool true else VNone) /\
    dget_n "ok" ans = VBool (good && allowed) /\
    (good = true -> dget "scopes" ans = Some (VList (VStr <$> scopes))).
Proof.
  intros Hn Ho good allowed. unfold check_item. rewrite read_issued, derive_rounds. subst good.
  generalize (pbkdf2_block secret (draw_salt r) PBKDF2_ROUNDS) as actual. intros actual.
  change (py_bool (dget_n "revoked_at" (token_record now r digest role scopes label))) with false. cbn [mbind res_bind].
  destruct (String.eqb actual digest); cbn [negb]; [|by eexists].
  destruct (authorize_issued k now r digest role scopes label required Hn Ho) as (ans&->&H1&H2&H3).
  by exists ans.
Qed.
End store_facts.

(** A field of the answer of a verification. *)
Definition answer (field : string) (r : res value) : value :=
  match r with Ok (VDict d) => dget_n field d | _ => VNone end.

(** A required scope is among the granted ones. *)
Definition allows (scopes : list string) (required : option string) : bool :=
  match required with None => true | Some q => bool_decide ("*" ∈ scopes \/ q ∈ scopes) end.

(** The key derived from a secret with the salt of a draw. *)
Definition key_of (secret : string) (r : draws) : string := pbkdf2_block secret (draw_salt r) PBKDF2_ROUNDS.

(** [token] is accepted for exactly what [scopes] allow; another secret for the same id is
    authenticated only when it derives the same key. *)
Definition grants (p : string) (f : file) (r : draws) (token : string) (scopes : list string) : Prop :=
  (forall required,
     answer "authenticated" (verify_token p f token required) = VBool true /\
     answer "ok" (verify_token p f token required) = VBool (allows scopes required) /\
     answer "scopes" (verify_token p f token required) = VList (VStr <$> scopes)) /\
  (forall secret required,
     answer "authenticated" (verify_token p f (hexlify (draw_id r) +:+ "." +:+ secret) required) = VBool true <->
     key_of secret r = key_of (urlsafe (draw_secret r)) r).

Lemma issued_grants p f doc tokens now r role scopes label :
  load_doc p f = Ok (doc, tokens) -> NoDup scopes -> py_ordered id scopes ->
  dget (hexlify (draw_id r)) tokens =
    Some (obj (token_record now r (key_of (urlsafe (draw_secret r)) r) role scopes label)) ->
  grants p f r (hexlify (draw_id r) +:+ "." +:+ urlsafe (draw_secret r)) scopes.
Proof.
  intros Hl Hn Ho Hi. unfold key_of in Hi.
  assert (Hv : forall secret required, exists ans,
    verify_token p f (hexlify (draw_id r) +:+ "." +:+ secret) required = Ok (obj ans) /\
    dget_n "authenticated" ans = (if String.eqb (key_of secret r) (key_of (urlsafe (draw_secret r)) r) then VBool true else VNone) /\
    dget_n "ok" ans = VBool (String.eqb (key_of secret r) (key_of (urlsafe (draw_secret r)) r) && allows scopes required) /\
    (String.eqb (key_of secret r) (key_of (urlsafe (draw_secret r)) r) = true ->
       dget "scopes" ans = Some (VList (VStr <$> scopes)))).
  { intros secret required. rewrite (verify_item p f doc tokens _ required (hexlify (draw_id r)) secret _ Hl (hex_token _ _) Hi).
    apply check_issued; done. }
  split.
  - intros required. destruct (Hv (urlsafe (draw_secret r)) required) as (ans&->&H1&H2&H3).
    rewrite String.eqb_refl in H1, H2, H3. cbn [answer]. rewrite H1, H2. unfold dget_n, dget_or. by rewrite (H3 eq_refl).
  - intros secret required. destruct (Hv secret required) as (ans&->&H1&_). cbn [answer]. rewrite H1.
    generalize (key_of secret r) (key_of (urlsafe (draw_secret r)) r). intros a b.
    destruct (String.eqb_spec a b) as [->|Hne]; split; done.
Qed.

(** C13: Issuing a token always succeeds on a readable store and valid scopes.  The printed token is
    then accepted for exactly what the normalised scopes allow, another secret with its id is
    authenticated only when PBKDF2 derives the same key from it, and every other token is answered
    as before. *)
Theorem issue_grants_exactly p now r role extra label f doc tokens scopes :
  load_doc p f = Ok (doc, tokens) -> role_ok role = true -> normalize_scopes role (VStr <$> extra) = Ok scopes ->
  exists result f' token,
    issue p now r role (VStr <$> extra) label f = (Ok result, f') /\
    dget "token" result = Some (VStr token) /\ grants p f' r token scopes /\
    forall other required, token_id other <> Some (hexlify (draw_id r)) ->
      verify_token p f' other required = verify_token p f other required.
Proof.
  intros Hl Hr Hs. destruct (issue_run p now r role _ label f doc tokens scopes Hl Hs) as (result&Hi&Ht).
  pose proof (load_saved p f doc tokens (issued now r role scopes label doc tokens) Hl) as Hl'.
  destruct (normalize_sound role extra scopes Hr Hs) as (_&_&Hn&Ho&_).
  eexists result, _, _. split; [exact Hi|]. split; [exact Ht|]. split.
  - eapply issued_grants; [exact Hl'|done|done|]. unfold issued. by rewrite dget_dset_eq.
  - intros other required Hne. eapply verify_entry; [exact Hl|exact Hl'|]. intros k Hk.
    unfold issued. apply dget_dset_ne. congruence.
Qed.

Definition empty_store : file := Some (Ok (obj [("schema", VStr STORE_SCHEMA); ("tokens", obj [])])).
Definition sample_draws : draws := Draws "abcdefgh" "0123456789abcdef0123456789abcdef" "salt-salt-salt!!".

Lemma issue_grants_exactly_witness :
  load_doc "/s.json" empty_store = Ok ([("schema", VStr STORE_SCHEMA); ("tokens", obj [])], []) /\
  exists result f' token,
    issue "/s.json" "2024-01-01T00:00:00Z" sample_draws (VStr "viewer") (VStr <$> ["execute:run"]) VNone empty_store =
      (Ok result, f') /\
    dget "token" result = Some (VStr token) /\
    grants "/s.json" f' sample_draws token ["evidence:read"; "execute:run"; "status:read"] /\
    forall other required, token_id other <> Some (hexlify (draw_id sample_draws)) ->
      verify_token "/s.json" f' other required = verify_token "/s.json" empty_store other required.
Proof.
  split; [reflexivity|].
  refine (issue_grants_exactly "/s.json" "2024-01-01T00:00:00Z" sample_draws (VStr "viewer") ["execute:run"] VNone
            empty_store [("schema", VStr STORE_SCHEMA); ("tokens", obj [])] []
            ["evidence:read"; "execute:run"; "status:read"] eq_refl eq_refl _).
  vm_compute. reflexivity.
Defined.

Lemma revoke_run p now k f doc tokens item :
  load_doc p f = Ok (doc, tokens) -> dget k tokens = Some (obj item) ->
  revoke p now k f =
    if py_bool (dget_n "revoked_at" item)
    then (Ok (auth_result "revoke" [("token_id", VStr k); ("revoked_at", dget_n "revoked_at" item)]), f)
    else (Ok (auth_result "revoke" [("token_id", VStr k); ("revoked_at", VStr now)]),
          Some (Ok (obj (dset "tokens" (obj (dset k (obj (dset "revoked_at" (VStr now) item)) tokens)) doc)))).
Proof.
  intros Hl Hi. unfold revoke, find_item, mbind, M_bind, load_store. rewrite Hl. cbv beta iota zeta.
  unfold dget_n at 1, dget_or. rewrite Hi. cbn [mret M_ret]. destruct (py_bool (dget_n "revoked_at" item)) eqn:E.
  - reflexivity.
  - unfold save, modify, mret, M_ret. unfold dget_n, dget_or. by rewrite dget_dset_eq.
Qed.

(** The store after a revocation: the entry is revoked, the others are as before. *)
Lemma revoke_effect p now k f doc tokens item :
  load_doc p f = Ok (doc, tokens) -> dget k tokens = Some (obj item) -> now <> "" ->
  exists result f' doc' tokens' item',
    revoke p now k f = (Ok result, f') /\ load_doc p f' = Ok (doc', tokens') /\
    dget k tokens' = Some (obj item') /\ py_bool (dget_n "revoked_at" item') = true /\
    (forall k', k' <> k -> dget k' tokens' = dget k' tokens) /\
    forall now', revoke p now' k f' = (Ok result, f').
Proof.
  intros Hl Hi Hnow. pose proof (revoke_run p now k f doc tokens item Hl Hi) as Hr.
  destruct (py_bool (dget_n "revoked_at" item)) eqn:E.
  - exists (auth_result "revoke" [("token_id", VStr k); ("revoked_at", dget_n "revoked_at" item)]), f, doc, tokens, item.
    split_and!; try done. intros now'. rewrite (revoke_run p now' k f doc tokens item Hl Hi). by rewrite E.
  - set (item' := dset "revoked_at" (VStr now) item) in *. set (tokens' := dset k (obj item') tokens) in *.
    pose proof (load_saved p f doc tokens tokens' Hl) as Hl'.
    assert (Hi' : dget k tokens' = Some (obj item')) by apply dget_dset_eq.
    assert (Hrev : dget_n "revoked_at" item' = VStr now) by (unfold item', dget_n, dget_or; by rewrite dget_dset_eq).
    assert (Hb : py_bool (VStr now) = true) by (by destruct now).
    eexists _, _, _, tokens', item'. split_and!; [exact Hr|exact Hl'|done|by rewrite Hrev| |].
    + intros k' Hne. by apply dget_dset_ne.
    + intros now'. rewrite (revoke_run p now' k _ _ tokens' item' Hl' Hi'), Hrev. by rewrite Hb.
Qed.

Lemma verify_revoked p f doc tokens item k token required :
  load_doc p f = Ok (doc, tokens) -> dget k tokens = Some (obj item) -> py_bool (dget_n "revoked_at" item) = true ->
  token_id token = Some k -> verify_token p f token required = Ok (refuse "revoked" [("token_id", VStr k)]).
Proof.
  intros Hl Hi Hr. unfold token_id. destruct (str_split1 "."%char token) as [[k' s]|] eqn:E; [|done]. intros [= ->].
  rewrite (verify_item p f doc tokens token required k s item Hl E Hi). by apply check_revoked.
Qed.

(** Revocation is final: after it, no token with that id is accepted, whatever its secret;
    revoking again changes nothing and answers the same; every other token is answered as before. *)
Theorem revoke_is_final p now k f doc tokens item :
  load_doc p f = Ok (doc, tokens) -> dget k tokens = Some (obj item) -> now <> "" ->
  exists result f',
    revoke p now k f = (Ok result, f') /\
    (forall token required, token_id token = Some k ->
       verify_token p f' token required = Ok (refuse "revoked" [("token_id", VStr k)])) /\
    (forall now', revoke p now' k f' = (Ok result, f')) /\
    forall token required, token_id token <> Some k -> verify_token p f' token required = verify_token p f token required.
Proof.
  intros Hl Hi Hnow. destruct (revoke_effect p now k f doc tokens item Hl Hi Hnow)
    as (result&f'&doc'&tokens'&item'&Hr&Hl'&Hi'&Hrev&Hk&Hagain).
  exists result, f'. split; [done|]. split; [|split; [done|]].
  - intros token required. by apply (verify_revoked p f' doc' tokens' item').
  - intros token required Hne. eapply verify_entry; [exact Hl|exact Hl'|]. intros k' Hk'. apply Hk. congruence.
Qed.

Definition one_token : dict value := [("scopes", VList [VStr "status:read"]); ("role", VNone); ("revoked_at", VNone)].
Definition one_store : dict value := [("schema", VStr STORE_SCHEMA); ("tokens", obj [("ab12", obj one_token)])].

Lemma revoke_is_final_witness :
  load_doc "/s.json" (Some (Ok (obj one_store))) = Ok (one_store, [("ab12", obj one_token)]) /\
  exists result f',
    revoke "/s.json" "2024Z" "ab12" (Some (Ok (obj one_store))) = (Ok result, f') /\
    (forall token required, token_id token = Some "ab12" ->
       verify_token "/s.json" f' token required = Ok (refuse "revoked" [("token_id", VStr "ab12")])) /\
    (forall now', revoke "/s.json" now' "ab12" f' = (Ok result, f')) /\
    forall token required, token_id token <> Some "ab12" ->
      verify_token "/s.json" f' token required = verify_token "/s.json" (Some (Ok (obj one_store))) token required.
Proof.
  split; [reflexivity|].
  refine (revoke_is_final "/s.json" "2024Z" "ab12" (Some (Ok (obj one_store))) one_store [("ab12", obj one_token)]
            one_token eq_refl eq_refl _). discriminate.
Defined.

(** Rotating a token whose role and scopes are still valid revokes it and issues a token with a
    new id that is accepted for exactly the same scopes; every other token is answered as before. *)
Theorem rotate_replaces p now1 now2 r k f doc tokens item extra scopes :
  load_doc p f = Ok (doc, tokens) -> dget k tokens = Some (obj item) -> now1 <> "" ->
  dget "scopes" item = Some (VList (VStr <$> scopes)) -> role_ok (dget_n "role" item) = true ->
  normalize_scopes (dget_n "role" item) (VStr <$> extra) = Ok scopes -> hexlify (draw_id r) <> k ->
  exists result f' token,
    rotate p now1 now2 r k f = (Ok result, f') /\ dget "token" result = Some (VStr token) /\
    grants p f' r token scopes /\
    (forall old required, token_id old = Some k ->
       verify_token p f' old required = Ok (refuse "revoked" [("token_id", VStr k)])) /\
    forall other required, token_id other <> Some k -> token_id other <> Some (hexlify (draw_id r)) ->
      verify_token p f' other required = verify_token p f other required.
Proof.
  intros Hl Hi Hnow Hsc Hro Hnorm Hid.
  destruct (revoke_effect p now1 k f doc tokens item Hl Hi Hnow)
    as (rr&f1&doc1&tokens1&item1&Hr&Hl1&Hi1&Hrev&Hk&_).
  destruct (normalize_sound _ extra scopes Hro Hnorm) as (_&_&Hn&Ho&_).
  pose proof (normalize_idem _ extra scopes Hro Hnorm) as Hagain.
  set (label := VStr (py_str (if py_bool (dget_n "label" item) then dget_n "label" item else VStr k))).
  destruct (issue_run p now2 r (dget_n "role" item) (VStr <$> scopes) label f1 doc1 tokens1 scopes Hl1 Hagain)
    as (result&Hiss&Htok).
  pose proof (load_saved p f1 doc1 tokens1 (issued now2 r (dget_n "role" item) scopes label doc1 tokens1) Hl1) as Hl2.
  eexists (dset "replaces" (VStr k) (dset "operation" (VStr "rotate") result)), _, _. split_and!.
  - unfold rotate, mbind at 1, M_bind at 1, find_item, mbind at 1, M_bind at 1, load_store. rewrite Hl. cbv beta iota.
    unfold dget_n at 1, dget_or at 1. rewrite Hi. cbn [mret M_ret]. unfold dget_or at 1. rewrite Hsc.
    cbn [viter lift mbind M_bind]. unfold mbind, M_bind, lift. rewrite Hr. fold label. rewrite Hiss. reflexivity.
  - rewrite !dget_dset_ne by done. exact Htok.
  - eapply issued_grants; [exact Hl2|done|done|]. unfold issued. by rewrite dget_dset_eq.
  - intros old required. apply (verify_revoked p _ _ _ item1 k old required Hl2); [|done].
    unfold issued. by rewrite dget_dset_ne.
  - intros other required Hne1 Hne2. eapply verify_entry; [exact Hl|exact Hl2|]. intros k' Hk'.
    unfold issued. rewrite dget_dset_ne by congruence. apply Hk. congruence.
Qed.

Lemma rotate_replaces_witness :
  exists result f' token,
    rotate "/s.json" "2024Z" "2024Z" sample_draws "ab12" (Some (Ok (obj one_store))) = (Ok result, f') /\
    dget "token" result = Some (VStr token) /\ grants "/s.json" f' sample_draws token ["status:read"] /\
    (forall old required, token_id old = Some "ab12" ->
       verify_token "/s.json" f' old required = Ok (refuse "revoked" [("token_id", VStr "ab12")])) /\
    forall other required, token_id other <> Some "ab12" -> token_id other <> Some (hexlify (draw_id sample_draws)) ->
      verify_token "/s.json" f' other required = verify_token "/s.json" (Some (Ok (obj one_store))) other required.
Proof.
  refine (rotate_replaces "/s.json" "2024Z" "2024Z" sample_draws "ab12" (Some (Ok (obj one_store))) one_store
            [("ab12", obj one_token)] one_token ["status:read"] ["status:read"] eq_refl eq_refl _ eq_refl eq_refl _ _).
  - discriminate.
  - vm_compute. reflexivity.
  - vm_compute. discriminate.
Defined.
