(* ===== verification/AuditProps.v ===== *)
(** * The properties of the audit log: appending keeps the chain, tampering breaks it *)
From stdpp Require Import pretty.
From Stdlib Require Import Ascii.
From S2P Require Import Security.
Import Audit.

(** ** Appending *)

(** The keys that the chain itself writes. *)
Definition reserved : list string := ["schema"; "seq"; "prev_hash"; "record_hash"].
Definition event_ok (event : dict value) : Prop := Forall (fun kv => fst kv ∉ reserved) event.

Lemma merge_fresh k a b : k ∉ b.*1 -> dget k (merge a b) = dget k a.
Proof.
  revert a. induction b as [|[k' v] b IH]; intros a; [done|]. rewrite fmap_cons, not_elem_of_cons. intros [Hne Hk].
  cbn [merge fold_left]. change (dget k (merge (dset k' v a) b) = dget k a). rewrite IH by done.
  by apply dget_dset_ne.
Qed.

Lemma event_ok_fresh k event : event_ok event -> k ∈ reserved -> k ∉ event.*1.
Proof.
  intros H Hk Hin. apply list_elem_of_fmap in Hin as ([k' v]&->&Hin). unfold event_ok in H.
  rewrite Forall_forall in H. by apply (H _ Hin).
Qed.

(** The record that an append writes. *)
Definition new_record (now prev : string) (seq : Z) (event : dict value) : dict value :=
  let base := merge [("schema", VStr AUDIT_SCHEMA); ("seq", VInt seq); ("timestamp", VStr now);
                     ("prev_hash", VStr prev)] event in
  dset "record_hash" (VStr (record_digest base)) base.

Lemma append_run now event ls prev seq :
  chain_end ls = Ok (prev, seq) ->
  audit_append now event (Some ls) =
    (Ok (new_record now prev seq event), Some (ls ++ [Doc (VDict (new_record now prev seq event))])).
Proof. unfold audit_append, mbind, M_bind, gets, lift. cbn [id default]. by intros ->. Qed.

Section new_record.
Context (now prev : string) (seq : Z) (event : dict value) (Hev : event_ok event).

Lemma new_record_fields :
  dget "schema" (new_record now prev seq event) = Some (VStr AUDIT_SCHEMA) /\
  dget "seq" (new_record now prev seq event) = Some (VInt seq) /\
  dget "prev_hash" (new_record now prev seq event) = Some (VStr prev).
Proof using Hev.
  unfold new_record. rewrite !dget_dset_ne by done.
  rewrite !merge_fresh by (apply event_ok_fresh; [done|unfold reserved; set_solver]). done.
Qed.

Lemma new_record_digest :
  dget "record_hash" (new_record now prev seq event) =
    Some (VStr (record_digest (ddel "record_hash" (new_record now prev seq event)))).
Proof using Hev.
  unfold new_record. rewrite dget_dset_eq, ddel_dset_fresh; [done|].
  apply dget_none. by rewrite merge_fresh by (apply event_ok_fresh; [done|unfold reserved; set_solver]).
Qed.
End new_record.

Lemma check_good n c d h :
  dget "schema" d = Some (VStr AUDIT_SCHEMA) -> dget "prev_hash" d = Some (VStr (chk_prev c)) ->
  dget "record_hash" d = Some (VStr h) -> h = record_digest (ddel "record_hash" d) ->
  check_record n c d = Check h (chk_count c + 1) (chk_errors c).
Proof.
  intros Hs Hp Hh Hd. unfold check_record, dget_n, dget_or. rewrite Hs, Hp, Hh, <- Hd.
  assert (Hrefl : forall s, eq_str (VStr s) s = true) by (intros s; by apply eq_str_true).
  rewrite !Hrefl, !app_nil_r. f_equal. cbn [py_bool]. by destruct h.
Qed.

Lemma enumerate_from_app {A} (n : Z) (l : list A) x :
  enumerate_from n (l ++ [x]) = enumerate_from n l ++ [(n + Z.of_nat (length l), x)].
Proof.
  unfold enumerate_from. rewrite imap_app, zip_with_app by (by rewrite length_imap). cbn. by rewrite Nat.add_0_r.
Qed.

Lemma check_lines_app n c ls l :
  check_lines n c (ls ++ [l]) =
  match check_lines n c ls with
  | Ok c' => check_line c' (n + Z.of_nat (length ls), l)
  | Raise e => Raise e
  end.
Proof.
  unfold check_lines. rewrite enumerate_from_app. generalize (n + Z.of_nat (length ls)) (enumerate_from n ls).
  intros m xs. revert c. induction xs as [|x xs IH]; intros c; cbn [app res_fold].
  - destruct (check_line c (m, l)) as [c'|e]; done.
  - destruct (check_line c x) as [c'|e]; [|done]. apply IH.
Qed.

(** The log is a chain of [n] records that ends in [prev]. *)
Definition chained (ls : list line) (prev : string) (n : Z) : Prop :=
  chain_end ls = Ok (prev, n + 1) /\ check_lines 1 (Check zero_hash 0 []) ls = Ok (Check prev n []).

Lemma chained_nil : chained [] zero_hash 0.
Proof. done. Qed.

Lemma append_chained now event ls prev n :
  event_ok event -> chained ls prev n ->
  exists record, audit_append now event (Some ls) = (Ok record, Some (ls ++ [Doc (VDict record)])) /\
    chained (ls ++ [Doc (VDict record)]) (record_digest (ddel "record_hash" record)) (n + 1) /\
    dget "record_hash" record = Some (VStr (record_digest (ddel "record_hash" record))).
Proof.
  intros Hev [Hend Hcheck]. exists (new_record now prev (n + 1) event).
  split; [by apply append_run|]. destruct (new_record_fields now prev (n + 1) event Hev) as (Hs&Hq&Hp).
  pose proof (new_record_digest now prev (n + 1) event Hev) as Hh.
  generalize dependent (new_record now prev (n + 1) event). intros d Hs Hq Hp Hh. split; [|done]. split.
  - unfold chain_end. rewrite List.filter_app. cbn [List.filter is_blank negb]. rewrite last_snoc.
    unfold dget_or. rewrite Hq, Hh. cbn [py_int mbind res_bind py_str]. do 2 f_equal.
  - rewrite check_lines_app, Hcheck. cbn [check_line snd fst]. by rewrite (check_good _ (Check prev n []) d _ Hs Hp Hh eq_refl).
Qed.

(** The lines of a list of records. *)
Definition doc_lines (records : list (dict value)) : list line := (fun d => Doc (VDict d)) <$> records.

(** The log after a sequence of appends. *)
Definition append_all (events : list (string * dict value)) : M log (list (dict value)) :=
  m_map (fun e => audit_append (fst e) (snd e)) events.

Lemma append_all_chained events ls prev n :
  Forall (fun e => event_ok (snd e)) events -> chained ls prev n ->
  exists records prev', append_all events (Some ls) = (Ok records, Some (ls ++ doc_lines records)) /\
    length records = length events /\ chained (ls ++ doc_lines records) prev' (n + Z.of_nat (length events)) /\
    match records with
    | [] => prev' = prev
    | _ => dget "record_hash" (default [] (last records)) = Some (VStr prev')
    end.
Proof.
  intros Hev. revert ls prev n. induction Hev as [|[now event] events He Hev IH]; intros ls prev n Hc.
  - exists [], prev. cbn. rewrite app_nil_r, Z.add_0_r. done.
  - destruct (append_chained now event ls prev n He Hc) as (record&Ha&Hc'&Hh).
    destruct (IH _ _ _ Hc') as (records&prev'&Hall&Hlen&Hc''&Hlast).
    exists (record :: records), prev'. unfold append_all. cbn [m_map fst snd]. unfold mbind, M_bind.
    rewrite Ha. unfold append_all in Hall. rewrite Hall. rewrite <- app_assoc in *. split; [done|].
    split; [cbn; by rewrite Hlen|]. split.
    + replace (n + Z.of_nat (length ((now, event) :: events))) with (n + 1 + Z.of_nat (length events)) by (cbn; lia). done.
    + destruct records as [|r records]; [|done]. cbn. by rewrite Hh, Hlast.
Qed.

(** Appending never breaks the log.  A log built by appends alone, from no file at all, of any
    events that do not set the chain's own fields, verifies: no error is reported, every record is
    counted, and the head is the digest of the last record. *)
Theorem audit_appends_verify (events : list (string * dict value)) :
  Forall (fun e => event_ok (snd e)) events ->
  exists records l,
    append_all events None = (Ok records, l) /\ length records = length events /\
    exists report, audit_verify l = Ok report /\ dget "ok" report = Some (VBool true) /\
      dget "errors" report = Some (VList []) /\ dget "records" report = Some (VInt (Z.of_nat (length events))) /\
      (events <> [] -> dget "head" report = dget "record_hash" (default [] (last records))).
Proof.
  intros Hev. destruct events as [|[now event] events].
  - exists [], None. do 2 (split; [done|]). by eexists.
  - destruct (append_all_chained _ [] zero_hash 0 Hev chained_nil) as (records&prev&Hall&Hlen&[_ Hc]&Hlast).
    exists records, (Some ([] ++ doc_lines records)). split; [exact Hall|]. split; [done|].
    unfold audit_verify. rewrite Hc. eexists. split; [reflexivity|]. do 3 (split; [done|]).
    intros _. destruct records as [|r records]; [done|]. by rewrite Hlast.
Qed.

Definition two_events : list (string * dict value) := [("t0", [("action", VStr "run")]); ("t1", [("code", VInt 7)])].
Lemma audit_appends_verify_witness :
  Forall (fun e => event_ok (snd e)) two_events /\
  exists records l,
    append_all two_events None = (Ok records, l) /\ length records = length two_events /\
    exists report, audit_verify l = Ok report /\ dget "ok" report = Some (VBool true) /\
      dget "errors" report = Some (VList []) /\ dget "records" report = Some (VInt (Z.of_nat (length two_events))) /\
      (two_events <> [] -> dget "head" report = dget "record_hash" (default [] (last records))).
Proof.
  assert (H : Forall (fun e => event_ok (snd e)) two_events) by (refine (bool_decide_unpack _ _); vm_compute; exact I).
  exact (conj H (audit_appends_verify two_events H)).
Defined.

(** ** Tampering *)

Definition dict_of (l : line) : option (dict value) := match l with Doc (VDict d) => Some d | _ => None end.
(** The records of a log. *)
Definition records_of (ls : list line) : list (dict value) := omap dict_of ls.

(** A chain of records from one hash to another. *)
Inductive chain : string -> list (dict value) -> string -> Prop :=
  | chain_nil h : chain h [] h
  | chain_cons h d ds head :
      dget "prev_hash" d = Some (VStr h) ->
      dget "record_hash" d = Some (VStr (record_digest (ddel "record_hash" d))) ->
      chain (record_digest (ddel "record_hash" d)) ds head -> chain h (d :: ds) head.

Lemma dget_n_str k d s : eq_str (dget_n k d) s = true -> dget k d = Some (VStr s).
Proof. rewrite eq_str_true. unfold dget_n, dget_or. destruct (dget k d); [by intros ->|done]. Qed.

Lemma check_record_clean n c d :
  chk_errors (check_record n c d) = [] ->
  chk_errors c = [] /\ dget "prev_hash" d = Some (VStr (chk_prev c)) /\
  dget "record_hash" d = Some (VStr (record_digest (ddel "record_hash" d))) /\
  chk_prev (check_record n c d) = record_digest (ddel "record_hash" d).
Proof.
  unfold check_record. cbn [chk_errors chk_prev]. rewrite !app_nil. intros (Hc&_&Hp&Hh).
  destruct (eq_str (dget_n "prev_hash" d) (chk_prev c)) eqn:Ep; [|discriminate].
  destruct (eq_str (dget_n "record_hash" d) _) eqn:Eh; [|discriminate].
  apply dget_n_str in Ep, Eh. split_and!; try done. unfold dget_n, dget_or. rewrite Eh. cbn [py_bool].
  by destruct (record_digest (ddel "record_hash" d)).
Qed.

(** A log without errors is a chain. *)
Lemma check_lines_chain n c ls c' :
  check_lines n c ls = Ok c' -> chk_errors c' = [] ->
  chk_errors c = [] /\ chain (chk_prev c) (records_of ls) (chk_prev c').
Proof.
  revert c'. induction ls as [|l ls IH] using rev_ind; intros c'.
  - intros [= <-] He. split; [done|constructor].
  - rewrite check_lines_app. destruct (check_lines n c ls) as [c1|] eqn:E; [|done]. intros Hl He.
    unfold records_of. rewrite omap_app.
    assert (Hsnoc : forall h ds m d, chain h ds m -> dget "prev_hash" d = Some (VStr m) ->
      dget "record_hash" d = Some (VStr (record_digest (ddel "record_hash" d))) ->
      chain h (ds ++ [d]) (record_digest (ddel "record_hash" d))).
    { intros h ds m d Hc Hp Hd. induction Hc; cbn; [|by constructor; auto]. constructor; [done|done|constructor]. }
    unfold check_line in Hl. cbn [fst snd] in Hl. destruct l as [|v|msg].
    + injection Hl as ->. cbn [omap list_omap dict_of]. rewrite app_nil_r. by apply IH.
    + destruct v; try discriminate Hl. injection Hl as <-. cbn [omap list_omap dict_of].
      destruct (check_record_clean _ c1 d He) as (Hc1&Hp&Hh&->).
      destruct (IH c1 eq_refl Hc1) as [Hc Hch]. split; [done|]. by apply (Hsnoc _ _ (chk_prev c1)).
    + injection Hl as <-. cbn [chk_errors] in He. by apply app_nil in He as [_ He].
Qed.

Lemma chain_snoc h ds d head :
  chain h (ds ++ [d]) head ->
  exists m, chain h ds m /\ dget "prev_hash" d = Some (VStr m) /\
    dget "record_hash" d = Some (VStr head) /\ head = record_digest (ddel "record_hash" d).
Proof.
  revert h. induction ds as [|x ds IH]; intros h; cbn [app]; inversion 1; subst.
  - exists h. match goal with H : chain _ [] _ |- _ => inversion H; subst end. split_and!; try done. constructor.
  - destruct (IH _ ltac:(eassumption)) as (m&Hc&Hr). exists m. split; [|done]. by constructor.
Qed.

(** What a record's digest covers. *)
Definition body (d : dict value) : value := VDict (ddel "record_hash" d).
(** Two records with the same fields, the order of keys apart. *)
Definition same_record (d e : dict value) : Prop :=
  sort_keys (body d) = sort_keys (body e) /\ dget "record_hash" d = dget "record_hash" e.
(** Documents as [json.loads] makes them, without floats and with ASCII strings. *)
Definition doc_ok (d : dict value) : Prop := dwf d /\ plain (VDict d) = true.
#[local] Instance doc_ok_dec d : Decision (doc_ok d).
Proof. unfold doc_ok, dwf. apply _. Defined.

Lemma plain_ddel k d : plain (VDict d) = true -> plain (VDict (ddel k d)) = true.
Proof.
  cbn [plain]. rewrite !forallb_forall. intros H x Hx. apply H. rewrite <- list_elem_of_In in *.
  by eapply elem_of_ddel.
Qed.

Lemma same_body_prev d e p q :
  dwf d -> dwf e -> dget "prev_hash" d = Some (VStr p) -> dget "prev_hash" e = Some (VStr q) ->
  sort_keys (body d) = sort_keys (body e) -> p = q.
Proof.
  intros Hd He Hp Hq [= Heq]. apply (f_equal (dget "prev_hash")) in Heq.
  rewrite !dget_sort_keys, !dget_ddel_ne, Hp, Hq in Heq by auto using dwf_ddel. by injection Heq.
Qed.

(** Two records of the logs whose digested texts differ have the same SHA-256 digest. *)
Definition collision (ds es : list (dict value)) : Prop :=
  exists d e, d ∈ ds /\ e ∈ es /\ canonical (body d) <> canonical (body e) /\
    sha256_hex (canonical (body d)) = sha256_hex (canonical (body e)).
(** A record whose digest is the hash that stands for the empty log. *)
Definition zero_preimage (ds : list (dict value)) : Prop :=
  exists d, d ∈ ds /\ sha256_hex (canonical (body d)) = zero_hash.

Lemma chains_agree ds es head :
  Forall doc_ok ds -> Forall doc_ok es -> chain zero_hash ds head -> chain zero_hash es head ->
  Forall2 same_record ds es \/ collision ds es \/ zero_preimage (ds ++ es).
Proof.
  revert es head. induction ds as [|d ds IH] using rev_ind; intros es head Hds Hes Hd He.
  - destruct es as [|e es _] using rev_ind; [by left; constructor|]. right; right.
    inversion Hd; subst. apply chain_snoc in He as (m&_&_&_&Hz). exists e. split; [set_solver|]. by symmetry.
  - apply Forall_app in Hds as [Hds [Hok _]%Forall_cons]. apply chain_snoc in Hd as (m&Hd&Hp&Hh&E).
    destruct es as [|e es _] using rev_ind.
    + right; right. inversion He; subst. exists d. split; [set_solver|]. by symmetry.
    + apply Forall_app in Hes as [Hes [Hok' _]%Forall_cons]. apply chain_snoc in He as (m'&He&Hp'&Hh'&E').
      destruct (decide (canonical (body d) = canonical (body e))) as [Heq|Hne].
      * destruct Hok as [Hwf Hpl], Hok' as [Hwf' Hpl'].
        apply canonical_inj in Heq; [|by apply plain_ddel..].
        assert (m = m') as <- by (by eapply (same_body_prev d e)).
        destruct (IH es m Hds Hes Hd He) as [H|[(x&y&Hx&Hy&Hxy)|(x&Hx&Hz)]].
        -- left. apply Forall2_app; [done|]. constructor; [|constructor]. split; [done|]. by rewrite Hh, Hh'.
        -- right; left. exists x, y. set_solver.
        -- right; right. exists x. set_solver.
      * right; left. exists d, e. split; [set_solver|]. split; [set_solver|]. split; [done|].
        exact (eq_trans (eq_sym E) E').
Qed.


Definition sample_log : list line :=
  match append_all two_events None with (_, Some ls) => ls | _ => [] end.
Definition sample_report : dict value := ok_or [] (audit_verify (Some sample_log)).

