(* ===== verification/Knowledge.v ===== *)
(** * The research knowledge graph ([ppc_lab_knowledge.py])

    The SQLite database is the record [graph] of its tables; a statement is an operation of the
    monad [G], with the conflict clauses and the foreign keys of the schema.  The order in which
    SQLite returns the rows of a query without ORDER BY is a parameter.  The time columns, which the
    script writes and never reads, are left out. *)
From stdpp Require Import pretty.
From Stdlib Require Import Ascii.
From S2P Require Export PyState Json Sha Sql.

Abbreviation obj := VDict.

Definition GRAPH_SCHEMA_VERSION : Z := 1.
Definition QUERY_SCHEMA : string := "ppc-lab-knowledge-query-v1".
Definition REPORT_SCHEMA : string := "ppc-lab-knowledge-report-v1".
Definition RELATED_SCHEMA : string := "ppc-lab-knowledge-related-v1".
Definition PATH_SCHEMA : string := "ppc-lab-knowledge-path-v1".
Definition EXPORT_SCHEMA : string := "ppc-lab-evidence-v1".
Definition VERIFY_SCHEMA : string := "ppc-lab-knowledge-verify-v1".

(** ** Values *)

(** [a or b] *)
Definition v_or (a b : value) : value := if py_bool a then a else b.
(** [str(d.get(k) or dflt)] *)
Definition str_or (k dflt : string) (d : dict value) : string := py_str (v_or (dget_n k d) (VStr dflt)).
Definition newline : string := sp 10.
Definition canonical (v : value) : string := json_raw (sort_keys v) +:+ newline.

Definition is_hex (c : ascii) : bool :=
  is_digit c || ((97 <=? code c) && (code c <=? 102)) || ((65 <=? code c) && (code c <=? 70)).
Definition valid_sha (v : value) : bool :=
  match v with VStr s => (String.length s =? 64)%nat && str_forall is_hex s | _ => false end.

Definition parse_address (v : value) : option string :=
  let number := match v with
    | VNone => None
    | VInt n => Some n
    | VBool b => Some (if b then 1 else 0)
    | v => int_of_string0 (py_str v)
    end in
  match number with Some n => Some ("0x" +:+ hex_digits 8 (n mod 4294967296)) | None => None end.

(** [Path(s).name] of an absolute path: what follows the last slash. *)
Fixpoint path_name_from (s last : string) : string :=
  match s with
  | EmptyString => last
  | String c s => if Ascii.eqb c "/" then path_name_from s s else path_name_from s last
  end.
Definition path_name (s : string) : string := path_name_from s s.

(** ** The tables *)

Record node := Node {
  n_key : string; n_type : string; n_label : string; n_target : option string; n_address : option string;
  n_meta : dict value }.
Record edge := Edge { e_src : string; e_dst : string; e_rel : string; e_doc : string; e_meta : dict value }.
(** [d_json] is what [json.loads] makes of the [canonical_json] column. *)
Record doc_row := DocRow { d_sha : string; d_schema : string; d_json : res value }.
Record source_row := SourceRow { s_doc : string; s_path : string; s_raw : string; s_size : Z }.
Record graph := Graph {
  meta : dict string; nodes : list node; edges : list edge; documents : list doc_row; sources : list source_row }.

Definition empty_graph : graph := Graph [] [] [] [] [].

Abbreviation G := (M graph).

Definition set_nodes (l : list node) (g : graph) := Graph (meta g) l (edges g) (documents g) (sources g).
Definition set_edges (l : list edge) (g : graph) := Graph (meta g) (nodes g) l (documents g) (sources g).

Definition find_node (k : string) (g : graph) : option node := List.find (fun n => String.eqb (n_key n) k) (nodes g).
Definition has_node (k : string) (g : graph) : bool := existsb (fun n => String.eqb (n_key n) k) (nodes g).
Definition has_doc (sha : string) (g : graph) : bool := existsb (fun d => String.eqb (d_sha d) sha) (documents g).

Definition init_schema : G unit :=
  modify (fun g => Graph (dset "schema_version" (pretty GRAPH_SCHEMA_VERSION) (meta g)) (nodes g) (edges g)
                     (documents g) (sources g)).

Definition coalesce (a b : option string) : option string := match a with Some _ => a | None => b end.

(** The ON CONFLICT clause of a node that is already there. *)
Definition merge_node (old new : node) : node :=
  Node (n_key old) (n_type old) (n_label new) (coalesce (n_target old) (n_target new))
    (coalesce (n_address old) (n_address new)) (match n_meta old with [] => n_meta new | m => m end).

Definition add_node (key node_type label : string) (target address : option string) (metadata : dict value) : G unit :=
  modify (fun g =>
    let new := Node key node_type label target address metadata in
    if has_node key g
    then set_nodes ((fun n => if String.eqb (n_key n) key then merge_node n new else n) <$> nodes g) g
    else set_nodes (nodes g ++ [new]) g).

Definition same_edge (a b : edge) : bool :=
  String.eqb (e_src a) (e_src b) && String.eqb (e_dst a) (e_dst b) && String.eqb (e_rel a) (e_rel b) &&
  String.eqb (e_doc a) (e_doc b).

(** INSERT OR IGNORE: a duplicate is ignored, a missing endpoint or document is an error. *)
Definition add_edge (src dst relation doc_sha : string) (metadata : dict value) : G unit := fun g =>
  let new := Edge src dst relation doc_sha metadata in
  if existsb (same_edge new) (edges g) then (Ok tt, g)
  else if has_node src g && has_node dst g && has_doc doc_sha g then (Ok tt, set_edges (edges g ++ [new]) g)
  else (Raise (Exn SqlError "FOREIGN KEY constraint failed"), g).

(** [with connect(root) as conn]: committed when the body returns, rolled back when it raises. *)
Definition transaction {A} (m : G A) : G A := fun g =>
  match m g with (Ok a, g') => (Ok a, g') | (Raise e, _) => (Raise e, g) end.

(** [connect(root)] without [create]: the database must exist. *)
Definition connect {A} (root : string) (m : G A) : M (option graph) A := fun o =>
  match o with
  | None => (Raise (Exn AppError ("knowledge graph is not initialized: " +:+ root)), None)
  | Some g => let '(r, g') := m g in (r, Some g')
  end.

Definition init_graph (root : string) : G value :=
  _ ← init_schema; mret (obj [("graph", VStr root); ("schema_version", VInt GRAPH_SCHEMA_VERSION)]).

(** ** Harvesting hashes *)

Definition item_sha (item : value) : list string :=
  match item with
  | VDict d => match dget_n "sha256" d with
               | VStr s => if valid_sha (VStr s) then [str_lower s] else []
               | _ => []
               end
  | _ => []
  end.

(** The hashes an object names itself. *)
Definition own_inputs (d : dict value) : list string :=
  match dget_n "inputs" d with
  | VDict i => flat_map item_sha (dvalues i)
  | VList l => flat_map item_sha l
  | _ => []
  end
  ++ match dget_n "input_provenance" d with VList l => flat_map item_sha l | _ => [] end
  ++ match dget_n "target_sha256" d with
     | VStr s => if valid_sha (VStr s) then [str_lower s] else []
     | _ => []
     end.
Fixpoint harvest_inputs (v : value) : list string :=
  match v with
  | VDict d => own_inputs d ++ flat_map (fun kv => harvest_inputs (snd kv)) d
  | VList l => flat_map harvest_inputs l
  | _ => []
  end.
(** The set of the hashes, as a list without repetition. *)
Definition harvest_input_hashes (v : value) : list string := remove_dups (harvest_inputs v).

Definition own_behavior (d : dict value) : list string :=
  match dget_n "behavior_sha256" d with VStr s => if valid_sha (VStr s) then [str_lower s] else [] | _ => [] end.
Fixpoint harvest_behaviors (v : value) : list string :=
  match v with
  | VDict d => own_behavior d ++ flat_map (fun kv => harvest_behaviors (snd kv)) d
  | VList l => flat_map harvest_behaviors l
  | _ => []
  end.
Definition harvest_behavior_hashes (v : value) : list string := remove_dups (harvest_behaviors v).

Definition result_payload (doc : dict value) : option (dict value) :=
  if eq_str (dget_n "schema" doc) "ppc-lab-result-v1" then Some doc
  else match dget_n "response" doc with
       | VDict r => match dget_n "result" r with
                    | VDict result => Some result
                    | _ => match dget_n "result" doc with VDict result => Some result | _ => None end
                    end
       | _ => match dget_n "result" doc with VDict result => Some result | _ => None end
       end.

Definition pick (ks : list string) (d : dict value) : dict value := (fun k => (k, dget_n k d)) <$> ks.

Definition behavior_payload (doc : dict value) : res (option value) :=
  match result_payload doc with
  | Some (x :: r) =>
      let result := x :: r in
      dumps ← viter (dget_or "dumps" (VList []) result);
      Ok (Some (obj (pick ["stop_reason"; "pc"; "registers"; "cr"; "lr"; "ctr"] result ++
        [("dumps", VList (flat_map (fun x => match x with
                                      | VDict x => [obj (pick ["address"; "size"; "fnv1a64"] x)] | _ => [] end) dumps))])))
  | _ =>
      if eq_str (dget_n "schema" doc) "ppc-lab-corpus-case-v1"
      then Ok (match dget_n "expectation" doc with VDict e => Some (obj e) | _ => None end)
      else Ok None
  end.

Definition scope_for (targets : list string) : string := match targets with [t] => t | _ => "global" end.
Definition function_key (scope name : string) : string :=
  let clean := str_strip name in
  "function:" +:+ scope +:+ ":" +:+ (if str_empty clean then "<unknown>" else clean).
Definition address_key (scope address : string) : string := "address:" +:+ scope +:+ ":" +:+ address.
Definition hypothesis_key (scope : string) (item : dict value) : string :=
  let material := str_join "|" ((fun k => str_or k "" item) <$> ["subject"; "role"; "claim"]) in
  "hypothesis:" +:+ scope +:+ ":" +:+ prefix_of 20 (sha256_hex material).

(** ** From a document to nodes and edges *)

Section relations.
Context (doc : dict value) (doc_sha : string) (targets : list string).

Definition doc_key : string := "document:" +:+ doc_sha.
Definition schema : string := str_or "schema" "unknown-json" doc.
Definition scope : string := scope_for targets.
Definition target_sha : option string := if String.eqb scope "global" then None else Some scope.
Definition target_key (t : string) : string := "target:" +:+ t.

(** The objects among the items of a field. *)
Definition dict_items (l : list value) : list (dict value) :=
  flat_map (fun v => match v with VDict d => [d] | _ => [] end) l.
Definition field_items (k : string) : G (list (dict value)) :=
  l ← lift (viter (dget_or k (VList []) doc)); mret (dict_items l).

Definition add_header (source_label : string) : G unit :=
  _ ← add_node doc_key "document" (path_name source_label) None None [("schema", VStr schema)];
  _ ← add_node ("schema:" +:+ schema) "schema" schema None None [];
  add_edge doc_key ("schema:" +:+ schema) "has-schema" doc_sha [].

Definition add_target (target : string) : G unit :=
  _ ← add_node (target_key target) "target" (prefix_of 16 target) (Some target) None [];
  add_edge doc_key (target_key target) "targets" doc_sha [].

(** An edge to an address, whose node it creates. *)
Definition link_address (src addr relation : string) (node_meta edge_meta : dict value) : G unit :=
  _ ← add_node (address_key scope addr) "address" addr target_sha (Some addr) node_meta;
  add_edge src (address_key scope addr) relation doc_sha edge_meta.

Definition symbol_address (item : dict value) : option string :=
  parse_address (match dget_n "address" item with VNone => dget_n "value" item | a => a end).
Definition symbol_name (item : dict value) : value := v_or (dget_n "name" item) (dget_n "symbol" item).
Definition add_symbol (counts : dict Z) (item : dict value) : G (dict Z) :=
  let name := str_strip (py_str (v_or (symbol_name item) (VStr ""))) in
  let addr := symbol_address item in
  match str_empty name, addr with
  | true, None => mret counts
  | _, _ =>
      let label := if str_empty name then default "symbol" addr else name in
      let skey := "symbol:" +:+ scope +:+ ":" +:+ default "none" addr +:+ ":" +:+ prefix_of 12 (sha1_hex label) in
      _ ← add_node skey "symbol" label target_sha addr item;
      _ ← add_edge doc_key skey "defines-symbol" doc_sha [];
      counts ← match addr with
               | Some a => _ ← link_address skey a "located-at" [] []; mret (cincr "addresses" counts)
               | None => mret counts
               end;
      mret (cincr "symbols" counts)
  end.
Definition add_symbols (counts : dict Z) : G (dict Z) :=
  match dget_n "symbols" doc with
  | VList l => m_fold add_symbol counts (dict_items l)
  | _ => mret counts
  end.

Definition add_function (counts : dict Z) (item : dict value) : G (dict Z) :=
  let name := str_or "name" "<unknown>" item in
  _ ← add_node (function_key scope name) "function" name target_sha None item;
  _ ← add_edge doc_key (function_key scope name) "observed-function" doc_sha (pick ["instructions_executed"] item);
  mret (cincr "functions" counts).

Definition add_hot_pc (counts : dict Z) (item : dict value) : G (dict Z) :=
  match parse_address (dget_n "pc" item) with
  | None => mret counts
  | Some addr =>
      _ ← link_address doc_key addr "executed" item (pick ["count"; "disassembly"] item);
      let fn := str_strip (str_or "function" "" item) in
      _ ← (if str_empty fn then mret tt
           else _ ← add_node (function_key scope fn) "function" fn target_sha None [];
                add_edge (address_key scope addr) (function_key scope fn) "belongs-to-function" doc_sha []);
      mret (cincr "addresses" counts)
  end.

Definition add_call (counts : dict Z) (item : dict value) : G (dict Z) :=
  let caller := str_or "caller" "<unknown>" item in
  let callee := str_or "callee" "<unknown>" item in
  _ ← add_node (function_key scope caller) "function" caller target_sha None [];
  _ ← add_node (function_key scope callee) "function" callee target_sha None [];
  _ ← add_edge (function_key scope caller) (function_key scope callee) "observed-call" doc_sha
        (pick ["site"; "target"; "count"] item);
  mret (cincr "calls" counts).

Definition coverage_material (hot : list (dict value)) : list string :=
  py_sorted id (py_str <$> List.filter py_bool (dget_n "pc" <$> hot)).
Definition add_coverage (counts : dict Z) (hot : list (dict value)) : G (dict Z) :=
  match coverage_material hot with
  | [] => mret counts
  | material =>
      let digest := sha256_hex (canonical (VList (VStr <$> material))) in
      _ ← add_node ("coverage:" +:+ digest) "coverage" (prefix_of 16 digest) None None
            [("unique_pcs", VInt (Z.of_nat (length material)))];
      _ ← add_edge doc_key ("coverage:" +:+ digest) "has-coverage" doc_sha [];
      mret (cincr "coverage" counts)
  end.

Definition add_trace (counts : dict Z) : G (dict Z) :=
  if String.eqb schema "ppc-lab-trace-analysis-v1" then
    functions ← field_items "functions"; counts ← m_fold add_function counts functions;
    hot ← field_items "hot_pcs"; counts ← m_fold add_hot_pc counts hot;
    calls ← field_items "calls"; counts ← m_fold add_call counts calls;
    add_coverage counts hot
  else mret counts.

Definition add_behavior (counts : dict Z) (digest : string) : G (dict Z) :=
  _ ← add_node ("behavior:" +:+ digest) "behavior" (prefix_of 16 digest) None None [("fingerprint", VStr digest)];
  _ ← add_edge doc_key ("behavior:" +:+ digest) "has-behavior" doc_sha [];
  mret (cincr "behaviors" counts).
Definition add_behaviors (counts : dict Z) : G (dict Z) :=
  behavior ← lift (behavior_payload doc);
  let digests := harvest_behavior_hashes (obj doc) ++
    match behavior with Some b => [sha256_hex (canonical b)] | None => [] end in
  m_fold add_behavior counts (py_sorted id (remove_dups digests)).

Definition link_targets (src relation : string) : G unit :=
  m_iter (fun t => add_edge src (target_key t) relation doc_sha []) (py_sorted id targets).

Definition add_corpus_case : G unit :=
  if String.eqb schema "ppc-lab-corpus-case-v1" then
    let case_id := str_or "id" (prefix_of 12 doc_sha) doc in
    let ckey := "corpus-case:" +:+ case_id in
    _ ← add_node ckey "corpus-case" case_id None None
          [("description", dget_n "description" doc); ("tags", dget_or "tags" (VList []) doc)];
    _ ← add_edge doc_key ckey "describes-case" doc_sha [];
    link_targets ckey "regresses-target"
  else mret tt.

Definition add_triage : G unit :=
  if String.eqb schema "ppc-lab-differential-triage-v1" then
    let tkey := "triage:" +:+ doc_sha in
    _ ← add_node tkey "triage" (str_or "classification" "triage" doc) None None (pick ["equal"; "classification"] doc);
    _ ← add_edge doc_key tkey "describes-triage" doc_sha [];
    match dget_n "first_divergence" doc with
    | VDict first =>
        m_iter (fun side =>
          match dget_n side first with
          | VDict item =>
              match parse_address (dget_n "pc" item) with
              | Some addr => link_address tkey addr ("first-divergence-" +:+ side) [] []
              | None => mret tt
              end
          | _ => mret tt
          end) ["left"; "right"]
    | _ => mret tt
    end
  else mret tt.

Definition add_campaign : G unit :=
  if String.eqb schema "ppc-lab-campaign-summary-v1" then
    let name := str_or "name" "campaign" doc in
    let manifest := prefix_of 16 (str_or "manifest_sha256" doc_sha doc) in
    let ckey := "campaign:" +:+ manifest +:+ ":" +:+ name in
    _ ← add_node ckey "campaign" name None None (pick ["status"; "engine_version"] doc);
    _ ← add_edge doc_key ckey "describes-campaign" doc_sha [];
    link_targets ckey "researched-target"
  else mret tt.

(** The fields of a hypothesis that are present. *)
Definition hypothesis_meta (item : dict value) : dict value :=
  List.filter (fun kv => negb (is_none (snd kv)))
    (pick ["id"; "subject"; "role"; "claim"; "confidence"; "status"; "metrics"] item).
Definition add_support (hkey : string) (digest : value) : G unit :=
  match digest with
  | VStr s =>
      if valid_sha digest then
        let bkey := "behavior:" +:+ str_lower s in
        _ ← add_node bkey "behavior" (prefix_of 16 s) None None [("fingerprint", VStr (str_lower s))];
        add_edge hkey bkey "supported-by-behavior" doc_sha []
      else mret tt
  | _ => mret tt
  end.
(** The address a subject such as [writes_u32.0x1000] names. *)
Definition subject_address (subject : string) : option string :=
  if str_startswith "writes_u32." subject || str_startswith "writes_f32." subject
  then match str_split1 "."%char subject with Some (_, a) => parse_address (VStr a) | None => None end
  else None.
Definition add_hypothesis (counts : dict Z) (item : dict value) : G (dict Z) :=
  let hkey := hypothesis_key scope item in
  let status := str_or "status" "candidate" item in
  let label := py_str (v_or (v_or (dget_n "claim" item) (dget_n "subject" item)) (VStr "hypothesis")) in
  _ ← add_node hkey "hypothesis" label target_sha None (hypothesis_meta item);
  _ ← add_edge doc_key hkey (if String.eqb status "supported" then "supports-hypothesis" else "proposes-hypothesis")
        doc_sha [("confidence", dget_n "confidence" item); ("status", VStr status)];
  _ ← link_targets hkey "hypothesizes-target";
  _ ← m_iter (add_support hkey) (match dget_n "supporting_behaviors" item with VList l => l | _ => [] end);
  _ ← match subject_address (str_or "subject" "" item) with
      | Some addr => link_address hkey addr "hypothesizes-state-at" [] (pick ["role"] item)
      | None => mret tt
      end;
  mret (cincr "hypotheses" counts).
Definition add_hypotheses (counts : dict Z) : G (dict Z) :=
  if String.eqb schema "ppc-lab-hypothesis-report-v1" then
    match dget_n "hypotheses" doc with VList l => m_fold add_hypothesis counts (dict_items l) | _ => mret counts end
  else if String.eqb schema "ppc-lab-hypothesis-v1" then m_fold add_hypothesis counts [doc]
  else mret counts.

Definition add_annotation (item : dict value) : G unit :=
  match parse_address (dget_n "address" item) with
  | Some addr => link_address doc_key addr "annotates" [] (pick ["kind"; "comment"] item)
  | None => mret tt
  end.
Definition add_annotations : G unit :=
  match dget_n "annotations" doc with VList l => m_iter add_annotation (dict_items l) | _ => mret tt end.
End relations.

Definition counts_init (targets : list string) : dict Z :=
  [("targets", Z.of_nat (length targets)); ("symbols", 0); ("addresses", 0); ("functions", 0); ("behaviors", 0);
   ("coverage", 0); ("calls", 0); ("hypotheses", 0)].

(** The hashes of the targets of a document, with the one that is forced on it. *)
Definition document_targets (doc : dict value) (forced : option string) : res (list string) :=
  let targets := harvest_input_hashes (obj doc) in
  match forced with
  | Some t =>
      if str_empty t then Ok targets
      else if valid_sha (VStr t) then Ok (remove_dups (targets ++ [str_lower t]))
      else app_error "--target-sha256 must be exactly 64 hexadecimal characters"
  | None => Ok targets
  end.

Definition document_relations (doc : dict value) (doc_sha source_label : string) (forced : option string) :
    G (dict Z) :=
  _ ← add_header doc doc_sha source_label;
  targets ← lift (document_targets doc forced);
  _ ← m_iter (add_target doc_sha) (py_sorted id targets);
  counts ← add_symbols doc doc_sha targets (counts_init targets);
  counts ← add_trace doc doc_sha targets counts;
  counts ← add_behaviors doc doc_sha counts;
  _ ← add_corpus_case doc doc_sha targets;
  _ ← add_triage doc doc_sha targets;
  _ ← add_campaign doc doc_sha targets;
  counts ← add_hypotheses doc doc_sha targets counts;
  _ ← add_annotations doc doc_sha targets;
  mret counts.

(** INSERT OR IGNORE INTO documents *)
Definition add_document (digest : string) (doc : dict value) : G bool := fun g =>
  let existed := has_doc digest g in
  (Ok existed,
   if existed then g
   else Graph (meta g) (nodes g) (edges g)
          (documents g ++ [DocRow digest (schema doc) (Ok (sort_keys (obj doc)))]) (sources g)).

Definition same_source (a b : source_row) : bool :=
  String.eqb (s_doc a) (s_doc b) && String.eqb (s_path a) (s_path b) && String.eqb (s_raw a) (s_raw b).
(** INSERT OR IGNORE INTO document_sources *)
Definition add_source (row : source_row) : G unit := fun g =>
  if existsb (same_source row) (sources g) then (Ok tt, g)
  else if has_doc (s_doc row) g
  then (Ok tt, Graph (meta g) (nodes g) (edges g) (documents g) (sources g ++ [row]))
  else (Raise (Exn SqlError "FOREIGN KEY constraint failed"), g).

Definition ingest_document (doc : dict value) (source_path raw_sha : string) (raw_size : Z) (forced : option string) :
    G (string * bool * dict Z) :=
  let digest := sha256_hex (canonical (obj doc)) in
  existed ← add_document digest doc;
  _ ← add_source (SourceRow digest source_path raw_sha raw_size);
  counts ← document_relations doc digest source_path forced;
  mret (digest, existed, counts).

(** A file as [path.read_bytes()] and [json.loads] find it; [None] when either fails. *)
Record input := Input { i_path : string; i_raw : string; i_size : Z; i_doc : option value }.

(** The files of the given paths: those below a directory in order, each path once. *)
Fixpoint candidate_files (seen : list string) (items : list input) : list input :=
  match items with
  | [] => []
  | i :: items => if bool_decide (i_path i ∈ seen) then candidate_files seen items
                  else i :: candidate_files (i_path i :: seen) items
  end.

Record ingest_counts := Ingested { g_added : Z; g_dedup : Z; g_skipped : Z; g_relations : dict Z }.

(** [relation_counts[key] = relation_counts.get(key, 0) + value] *)
Definition add_counts (c d : dict Z) : dict Z :=
  fold_left (fun c kv => dset (fst kv) (default 0 (dget (fst kv) c) + snd kv) c) d c.

Definition ingest_file (forced : option string) (c : ingest_counts) (i : input) : G ingest_counts :=
  let skip := mret (Ingested (g_added c) (g_dedup c) (g_skipped c + 1) (g_relations c)) in
  match i_doc i with
  | Some (VDict doc) =>
      if str_startswith "ppc-lab-" (py_str (dget_or "schema" (VStr "") doc)) then
        '(_, existed, counts) ← ingest_document doc (i_path i) (i_raw i) (i_size i) forced;
        mret (Ingested (g_added c + (if existed : bool then 0 else 1)) (g_dedup c + (if existed then 1 else 0))
                (g_skipped c) (add_counts (g_relations c) counts))
      else skip
  | _ => skip
  end.

Definition ingest_paths (items : list input) (forced : option string) : G ingest_counts :=
  _ ← init_schema;
  transaction (m_fold (ingest_file forced) (Ingested 0 0 0 []) (candidate_files [] items)).

(** The files of an evidence store, from the hashes of its artifacts. *)
Definition artifact_path (store sha : string) : string :=
  store +:+ "/objects/sha256/" +:+ prefix_of 2 sha +:+ "/" +:+ sha +:+ ".json".
Definition sync_evidence (store : string) (hashes : option (list string)) (read : string -> input) : G (ingest_counts * Z) :=
  match hashes with
  | None => throw AppError ("not a PPC Lab evidence store: " +:+ store)
  | Some hashes =>
      c ← ingest_paths (read <$> (artifact_path store <$> hashes)) None;
      mret (c, Z.of_nat (length hashes))
  end.

(** ** Queries *)

Definition opt_value (o : option string) : value := match o with Some s => VStr s | None => VNone end.
Definition node_row (n : node) : dict value :=
  [("key", VStr (n_key n)); ("type", VStr (n_type n)); ("label", VStr (n_label n));
   ("target_sha256", opt_value (n_target n)); ("address", opt_value (n_address n)); ("metadata", obj (n_meta n))].

Definition resolve_node (v : string) (g : graph) : res string :=
  if has_node v g then Ok v
  else match take 3 (py_sorted id (List.filter (fun k => sql_like k (v +:+ "%")) (n_key <$> nodes g))) with
       | [k] => Ok k
       | [] => app_error ("node not found: " +:+ v)
       | _ => app_error ("node reference is ambiguous: " +:+ v)
       end.

Record query := Query {
  q_type : option string; q_label : option string; q_target : option string; q_address : option string;
  q_relation : option string; q_limit : Z }.

(** [if ns.x] for an optional argument. *)
Definition given (o : option string) : option string :=
  match o with Some s => if str_empty s then None else Some s | None => None end.
Definition clause (o : option string) (test : string -> node -> bool) (n : node) : bool :=
  match given o with Some s => test s n | None => true end.

Definition touches (k : string) (e : edge) : bool := String.eqb (e_src e) k || String.eqb (e_dst e) k.

Definition query_rows (q : query) (addr : option string) (g : graph) : list node :=
  let hits := List.filter (fun n =>
    clause (q_type q) (fun s n => String.eqb (n_type n) s) n &&
    clause (q_label q) (fun s n => sql_like (n_label n) ("%" +:+ s +:+ "%")) n &&
    clause (q_target q) (fun s n => opt_like (n_target n) (str_lower s +:+ "%")) n &&
    match addr with Some a => bool_decide (n_address n = Some a) | None => true end) (nodes g) in
  let rows := py_sorted (fun n => (n_type n, (n_label n, n_key n))) hits in
  if q_limit q <? 0 then rows else take (Z.to_nat (q_limit q)) rows.

Definition query_graph (q : query) (g : graph) : res value :=
  addr ← match given (q_address q) with
         | Some a => match parse_address (VStr a) with
                     | Some a => Ok (Some a)
                     | None => app_error "invalid --address"
                     end
         | None => Ok None
         end;
  let rows := query_rows q addr g in
  let rows := match given (q_relation q) with
              | Some rel => List.filter (fun n => existsb (fun e => touches (n_key n) e && String.eqb (e_rel e) rel) (edges g)) rows
              | None => rows
              end in
  Ok (obj [("schema", VStr QUERY_SCHEMA); ("count", VInt (Z.of_nat (length rows)));
           ("results", VList ((fun n => obj (node_row n)) <$> rows))]).

Section search.
(** The order in which SQLite returns the rows of a query. *)
Context (scan : list edge -> list edge).

(** SELECT * FROM edges WHERE (source_key=? OR target_key=?) [AND relation=?] *)
Definition incident (g : graph) (relation : option string) (k : string) : list edge :=
  scan (List.filter (fun e => touches k e && match relation with Some r => String.eqb (e_rel e) r | None => true end) (edges g)).
(** The other end of an edge. *)
Definition other_end (k : string) (e : edge) : string := if String.eqb (e_src e) k then e_dst e else e_src e.

(** *** Everything within a distance *)

Record bfs := Bfs { b_seen : dict Z; b_queue : list string; b_edges : list edge }.

Definition bfs_edge (cur : string) (d : Z) (s : bfs) (e : edge) : bfs :=
  let nxt := other_end cur e in
  if dmem nxt (b_seen s) then Bfs (b_seen s) (b_queue s) (b_edges s ++ [e])
  else Bfs (dset nxt (d + 1) (b_seen s)) (b_queue s ++ [nxt]) (b_edges s ++ [e]).

(** [while q]: every node enters the queue once, so [fuel] above their number is enough. *)
Fixpoint bfs_loop (fuel : nat) (g : graph) (relation : option string) (depth : Z) (s : bfs) : option bfs :=
  match fuel with
  | O => None
  | S fuel =>
      match b_queue s with
      | [] => Some s
      | cur :: q =>
          let d := default 0 (dget cur (b_seen s)) in
          let s := Bfs (b_seen s) q (b_edges s) in
          bfs_loop fuel g relation depth
            (if depth <=? d then s else fold_left (bfs_edge cur d) (incident g relation cur) s)
      end
  end.

Definition bfs_fuel (g : graph) : nat := 3 + 2 * length (edges g).

Definition edge_json (e : edge) : value :=
  obj [("source", VStr (e_src e)); ("target", VStr (e_dst e)); ("relation", VStr (e_rel e));
       ("document_sha256", VStr (e_doc e))].
(** The edges by their key, each once, at its first place. *)
Fixpoint unique_edges (seen : list edge) (l : list edge) : list edge :=
  match l with
  | [] => []
  | e :: l => if existsb (same_edge e) seen then unique_edges seen l else e :: unique_edges (e :: seen) l
  end.

Definition fetch_node (g : graph) (k : string) : res (dict value) :=
  match find_node k g with
  | Some n => Ok (node_row n)
  | None => Raise (Exn TypeError "'NoneType' object is not subscriptable")
  end.

(** [if relation] *)
Definition related_nodes (g : graph) (start : string) (depth : Z) (relation : option string) : option bfs :=
  bfs_loop (bfs_fuel g) g (given relation) depth (Bfs [(start, 0)] [start] []).

Definition related_graph (ref : string) (depth : Z) (relation : option string) (g : graph) : option (res value) :=
  match resolve_node ref g with
  | Raise e => Some (Raise e)
  | Ok start =>
      match related_nodes g start depth relation with
      | None => None
      | Some s =>
          Some (nodes ← res_map (fun kd => row ← fetch_node g (fst kd); Ok (obj (row ++ [("depth", VInt (snd kd))])))
                          (py_sorted (fun kd => (snd kd, fst kd)) (b_seen s));
                Ok (obj [("schema", VStr RELATED_SCHEMA); ("start", VStr start); ("depth", VInt depth);
                         ("nodes", VList nodes); ("edges", VList (edge_json <$> unique_edges [] (b_edges s)))]))
      end
  end.

(** *** A shortest path *)

(** [prev] with the edge that led to each node. *)
Record path_state := PathState { p_prev : dict (option (string * edge)); p_queue : list string }.

(** [depth=0; p=cur; while prev[p] is not None: depth+=1; p=prev[p]]: a chain visits each node once,
    so [fuel] above the size of [prev] is enough. *)
Fixpoint chain_from (fuel : nat) (prev : dict (option (string * edge))) (k : string) : option (list string * list edge) :=
  match fuel with
  | O => None
  | S fuel =>
      match dget k prev with
      | Some (Some (p, e)) =>
          match chain_from fuel prev p with
          | Some (ks, es) => Some (ks ++ [k], es ++ [e])
          | None => None
          end
      | _ => Some ([k], [])
      end
  end.
(** The nodes and edges from the source to [k]. *)
Definition chain_to (prev : dict (option (string * edge))) (k : string) : option (list string * list edge) :=
  chain_from (S (length prev)) prev k.

Definition path_edge (cur : string) (s : path_state) (e : edge) : path_state :=
  let nxt := other_end cur e in
  if dmem nxt (p_prev s) then s
  else PathState (dset nxt (Some (cur, e)) (p_prev s)) (p_queue s ++ [nxt]).

Fixpoint path_loop (fuel : nat) (g : graph) (dst : string) (max_depth : Z) (s : path_state) : option path_state :=
  match fuel with
  | O => None
  | S fuel =>
      match p_queue s with
      | [] => Some s
      | cur :: q =>
          if dmem dst (p_prev s) then Some s
          else match chain_to (p_prev s) cur with
          | None => None
          | Some (_, es) =>
              let s := PathState (p_prev s) q in
              path_loop fuel g dst max_depth
                (if max_depth <=? Z.of_nat (length es) then s else fold_left (path_edge cur) (incident g None cur) s)
          end
      end
  end.

Definition find_path (g : graph) (src dst : string) (max_depth : Z) : option (option (list string * list edge)) :=
  match path_loop (bfs_fuel g) g dst max_depth (PathState [(src, None)] [src]) with
  | None => None
  | Some s => if dmem dst (p_prev s)
              then match chain_to (p_prev s) dst with Some c => Some (Some c) | None => None end
              else Some None
  end.

Definition shortest_path (src_ref dst_ref : string) (max_depth : Z) (g : graph) : option (res value) :=
  match resolve_node src_ref g with
  | Raise e => Some (Raise e)
  | Ok src =>
      match resolve_node dst_ref g with
      | Raise e => Some (Raise e)
      | Ok dst =>
          let doc found nodes es :=
            obj [("schema", VStr PATH_SCHEMA); ("found", VBool found); ("source", VStr src); ("target", VStr dst);
                 ("nodes", VList nodes); ("edges", VList es)] in
          match find_path g src dst max_depth with
          | None => None
          | Some None => Some (Ok (doc false [] []))
          | Some (Some (ks, es)) =>
              Some (rows ← res_map (fetch_node g) ks; Ok (doc true (obj <$> rows) (edge_json <$> es)))
          end
      end
  end.
End search.

(** ** Reports *)

(** SELECT x, COUNT of rows GROUP BY x ORDER BY x *)
Definition group_count (l : list string) : dict Z := py_sorted fst (counter l).
Definition int_dict (d : dict Z) : value := obj ((fun kv => (fst kv, VInt (snd kv))) <$> d).
Definition dict_sum (d : dict Z) : Z := foldr (fun kv acc => snd kv + acc) 0 d.

Definition report_graph (g : graph) : value :=
  let node_counts := group_count (n_type <$> nodes g) in
  obj [("schema", VStr REPORT_SCHEMA); ("documents", VInt (Z.of_nat (length (documents g))));
       ("nodes", VInt (dict_sum node_counts)); ("edges", VInt (Z.of_nat (length (edges g))));
       ("targets", VInt (Z.of_nat (length (List.filter (fun n => String.eqb (n_type n) "target") (nodes g)))));
       ("node_types", int_dict node_counts); ("relations", int_dict (group_count (e_rel <$> edges g)));
       ("document_schemas", int_dict (group_count (d_schema <$> documents g)))].

Definition docs_for_target (target : string) (g : graph) : list (res value) :=
  let near k := e_doc <$> List.filter (touches k) (edges g) in
  let own := near ("target:" +:+ target) in
  let scoped := flat_map (fun n => near (n_key n)) (List.filter (fun n => bool_decide (n_target n = Some target)) (nodes g)) in
  let shas := py_sorted id (remove_dups (own ++ scoped)) in
  flat_map (fun sha => match List.find (fun d => String.eqb (d_sha d) sha) (documents g) with
                       | Some d => [d_json d] | None => [] end) shas.

(** [PRAGMA integrity_check] is SQLite's own answer. *)
Definition corrupt_documents (g : graph) : list string :=
  d_sha <$> List.filter (fun d =>
    negb (String.eqb (match d_json d with Ok doc => sha256_hex (canonical doc) | Raise _ => "invalid-json" end) (d_sha d)))
    (documents g).
Definition dangling_edges (g : graph) : Z :=
  Z.of_nat (length (List.filter (fun e => negb (has_node (e_src e) g && has_node (e_dst e) g && has_doc (e_doc e) g)) (edges g))).
Definition verify_graph (integrity : string) (g : graph) : dict value :=
  let corrupt := corrupt_documents g in
  let dangling := dangling_edges g in
  [("schema", VStr VERIFY_SCHEMA);
   ("ok", VBool (String.eqb integrity "ok" && Nat.eqb (length corrupt) 0 && (dangling =? 0)));
   ("sqlite_integrity", VStr integrity); ("documents", VInt (Z.of_nat (length (documents g))));
   ("corrupt_documents", VList (VStr <$> corrupt)); ("dangling_edges", VInt dangling)].

(** ** The export for a decompiler *)

(** [x[:128]] *)
Definition slice128 (v : value) : res (list value) :=
  match v with
  | VList l => Ok (take 128 l)
  | VStr s => Ok (take 128 (str_chars s))
  | _ => Raise (Exn TypeError ("'" +:+ type_name v +:+ "' object is not subscriptable"))
  end.

(** [f"{v:.3f}"] *)
Definition format_3f (v : value) : res string :=
  match v with
  | VFloat x => Ok (float_fixed 3 x)
  | VInt n => x ← float_of_int n; Ok (float_fixed 3 x)
  | VBool b => Ok (if b then "1.000" else "0.000")
  | VStr _ => Raise (Exn ValueError "Unknown format code 'f' for object of type 'str'")
  | _ => Raise (Exn TypeError ("unsupported format string passed to " +:+ type_name v +:+ ".__format__"))
  end.

(** An annotation: address, kind, comment. *)
Abbreviation annotation := (string * (string * string))%type.
Definition field_str (k : string) (dflt : value) (d : dict value) : string := py_str (dget_or k dflt d).

Definition export_symbols (doc : dict value) : list (string * string) :=
  match dget_n "symbols" doc with
  | VList l =>
      flat_map (fun item => match symbol_address item with
        | Some addr => if py_bool (symbol_name item) then [(addr, py_str (symbol_name item))] else []
        | None => [] end) (dict_items l)
  | _ => []
  end.

Definition note (addr : option string) (kind comment : string) : list annotation :=
  match addr with Some a => [(a, (kind, comment))] | None => [] end.

Definition hot_note (item : dict value) : list annotation :=
  note (parse_address (dget_n "pc" item)) "execution"
    ("PPC Lab graph: executed " +:+ field_str "count" (VInt 0) item +:+ "x; " +:+ field_str "disassembly" (VStr "") item +:+
     "; function=" +:+ field_str "function" (VStr "") item).
Definition call_note (item : dict value) : list annotation :=
  note (parse_address (dget_n "site" item)) "observed-call"
    ("PPC Lab graph: observed call " +:+ field_str "caller" VNone item +:+ " -> " +:+ field_str "callee" VNone item +:+ " " +:+
     field_str "count" (VInt 0) item +:+ "x; target=" +:+ field_str "target" VNone item).
Definition trace_notes (doc : dict value) : res (list annotation) :=
  if eq_str (dget_n "schema" doc) "ppc-lab-trace-analysis-v1" then
    hot ← slice128 (dget_or "hot_pcs" (VList []) doc);
    calls ← slice128 (dget_or "calls" (VList []) doc);
    Ok (flat_map hot_note (dict_items hot) ++ flat_map call_note (dict_items calls))
  else Ok [].

Definition triage_notes (doc : dict value) : list annotation :=
  if eq_str (dget_n "schema" doc) "ppc-lab-differential-triage-v1" && negb (py_bool (dget_or "equal" (VBool true) doc)) then
    match dget_n "first_divergence" doc with
    | VDict first =>
        flat_map (fun side => match dget_n side first with
          | VDict item => note (parse_address (dget_n "pc" item)) "differential-divergence"
              ("PPC Lab graph: " +:+ field_str "classification" VNone doc +:+ " first divergence (" +:+ side +:+ ")")
          | _ => [] end) ["left"; "right"]
    | _ => []
    end
  else [].

Definition hypothesis_notes (doc : dict value) : res (list annotation) :=
  if eq_str (dget_n "schema" doc) "ppc-lab-hypothesis-v1" && eq_str (dget_n "status" doc) "supported" then
    match subject_address (str_or "subject" "" doc) with
    | Some addr =>
        confidence ← format_3f (dget_or "confidence" (VInt 0) doc);
        Ok (note (Some addr) "supported-hypothesis"
              ("PPC Lab hypothesis (" +:+ confidence +:+ "): " +:+ field_str "claim" (VStr "") doc))
    | None => Ok []
    end
  else Ok [].

Definition own_notes (doc : dict value) : list annotation :=
  match dget_n "annotations" doc with
  | VList l =>
      flat_map (fun item =>
        let comment := str_or "comment" "" item in
        if str_empty comment then [] else note (parse_address (dget_n "address" item)) (str_or "kind" "knowledge" item) comment)
        (dict_items l)
  | _ => []
  end.

(** The symbols and annotations of a document, in the order the loop meets them. *)
Definition doc_notes (doc : dict value) : res (list annotation) :=
  t ← trace_notes doc; h ← hypothesis_notes doc; Ok (t ++ triage_notes doc ++ h ++ own_notes doc).

(** [int(x["address"], 0)] *)
Definition address_int (addr : string) : Z := default 0 (int_of_string0 addr).

Definition export_docs (target : string) (docs : list (dict value)) : res value :=
  notes ← res_map doc_notes docs;
  let symbols := remove_dups (flat_map export_symbols docs) in
  let notes := remove_dups (concat notes) in
  Ok (obj [("schema", VStr EXPORT_SCHEMA); ("target_sha256", VStr target); ("format", VStr "knowledge-graph-aggregate");
           ("entry", VNone);
           ("symbols", VList ((fun s => obj [("address", VStr (fst s)); ("name", VStr (snd s))]) <$>
              py_sorted (fun s => (address_int (fst s), snd s)) symbols));
           ("annotations", VList ((fun a => obj [("address", VStr (fst a)); ("kind", VStr (fst (snd a))); ("comment", VStr (snd (snd a)))]) <$>
              py_sorted (fun a => (address_int (fst a), snd a)) notes))]).

Definition export_decompiler (target_prefix : string) (g : graph) : res value :=
  match List.filter (fun n => String.eqb (n_type n) "target" && opt_like (n_target n) (str_lower target_prefix +:+ "%")) (nodes g) with
  | [n] =>
      let target := default "" (n_target n) in
      docs ← res_map id (docs_for_target target g);
      docs ← res_map (fun v => match v with VDict d => Ok d | v => no_attr v "get" end) docs;
      export_docs target docs
  | _ => app_error "target hash prefix must resolve to exactly one target"
  end.

(** ** The command line *)

Inductive command :=
  | CInit | CIngest (items : list input) (forced : option string)
  | CSync (store : string) (hashes : option (list string)) (read : string -> input)
  | CQuery (q : query) | CRelated (ref : string) (depth : Z) (relation : option string)
  | CPath (src dst : string) (max_depth : Z) | CReport | CExport (target : string) | CVerify (integrity : string).

(** [bool(doc[k])] *)
Definition flag (k : string) (doc : dict value) : bool := py_bool (dget_n k doc).

Definition ok_code {A} (r : res A) : res Z := match r with Ok _ => Ok 0 | Raise e => Raise e end.

Definition run_command (scan : list edge -> list edge) (root : string) (c : command) : M (option graph) (option Z) :=
  let done {A} (m : G A) : M (option graph) (option Z) := _ ← connect root m; mret (Some 0) in
  let pure (f : graph -> option (res Z)) : M (option graph) (option Z) :=
    connect root (fun g => match f g with
      | None => (Ok None, g) | Some (Ok z) => (Ok (Some z), g) | Some (Raise e) => (Raise e, g) end) in
  match c with
  | CInit => fun o => let '(r, g) := init_graph root (default empty_graph o) in
                      (match r with Ok _ => Ok (Some 0) | Raise e => Raise e end, Some g)
  | CIngest items forced => done (ingest_paths items forced)
  | CSync store hashes read => done (sync_evidence store hashes read)
  | CQuery q => pure (fun g => Some (ok_code (query_graph q g)))
  | CRelated ref depth relation => pure (fun g => option_map ok_code (related_graph scan ref (Z.max 0 depth) relation g))
  | CPath src dst max_depth =>
      pure (fun g => option_map (fun r => match r with
        | Ok (VDict d) => Ok (if flag "found" d then 0 else 1) | Ok _ => Ok 1 | Raise e => Raise e end)
        (shortest_path scan src dst (Z.max 1 max_depth) g))
  | CReport => pure (fun g => Some (ok_code (Ok (report_graph g))))
  | CExport target => pure (fun g => Some (ok_code (export_decompiler target g)))
  | CVerify integrity => pure (fun g => Some (Ok (if flag "ok" (verify_graph integrity g) then 0 else 1)))
  end.

(** The exit code: 2 for the errors the command reports; [None] would be a search that does not end. *)
Definition main (scan : list edge -> list edge) (root : string) (c : command) : M (option graph) (option Z) :=
  catch [AppError; SqlError; OSError; JSONDecodeError] (run_command scan root c) (fun _ => mret (Some 2)).
