(* ===== verification/KnowledgeProps.v ===== *)
(** * The properties of the knowledge graph: integrity of the database *)
From stdpp Require Import pretty.
From Stdlib Require Import Ascii.
From S2P Require Import Knowledge.

(** ** Integrity *)

(** Every edge joins nodes of the graph and comes from one of its documents, keys are unique, and
    every document is stored under the digest of its canonical text. *)
Record graph_ok (g : graph) : Prop := {
  ok_nodes : NoDup (n_key <$> nodes g);
  ok_docs : NoDup (d_sha <$> documents g);
  ok_edges : forall e, e ∈ edges g ->
    has_node (e_src e) g = true /\ has_node (e_dst e) g = true /\ has_doc (e_doc e) g = true;
  ok_rows : forall d, d ∈ documents g ->
    exists doc, d_json d = Ok doc /\ sha256_hex (canonical doc) = d_sha d }.

(** Nothing is deleted. *)
Definition extends (g g' : graph) : Prop :=
  (forall k, has_node k g = true -> has_node k g' = true) /\ (forall k, has_doc k g = true -> has_doc k g' = true).

(** SQLite reported no error. *)
Definition no_sql {A} (r : res A) : Prop := match r with Raise e => exn_class e <> SqlError | Ok _ => True end.

Lemma extends_refl g : extends g g.
Proof. by split. Qed.
Lemma extends_trans g1 g2 g3 : extends g1 g2 -> extends g2 g3 -> extends g1 g3.
Proof. intros [H1 H2] [H3 H4]. split; auto. Qed.
#[local] Hint Resolve extends_refl : core.

Lemma has_node_in k g : has_node k g = true <-> k ∈ n_key <$> nodes g.
Proof.
  unfold has_node. rewrite existsb_exists, list_elem_of_fmap. split.
  - intros (n&Hn&<-%String.eqb_eq). exists n. by rewrite list_elem_of_In.
  - intros (n&->&Hn). exists n. by rewrite <- list_elem_of_In, String.eqb_refl.
Qed.
Lemma has_doc_in k g : has_doc k g = true <-> k ∈ d_sha <$> documents g.
Proof.
  unfold has_doc. rewrite existsb_exists, list_elem_of_fmap. split.
  - intros (n&Hn&<-%String.eqb_eq). exists n. by rewrite list_elem_of_In.
  - intros (n&->&Hn). exists n. by rewrite <- list_elem_of_In, String.eqb_refl.
Qed.

Section triples.
Context (sha : string).

(** [m], run where the nodes [ks] exist, keeps the integrity, raises no SQL error, and leaves the
    nodes [new a] there when it returns [a]. *)
Definition safe {A} (ks : list string) (m : G A) (new : A -> list string) : Prop :=
  forall g, graph_ok g -> has_doc sha g = true -> (forall k, k ∈ ks -> has_node k g = true) ->
    graph_ok (snd (m g)) /\ extends g (snd (m g)) /\ no_sql (fst (m g)) /\
    match fst (m g) with Ok a => forall k, k ∈ new a -> has_node k (snd (m g)) = true | Raise _ => True end.

Lemma safe_ret {A} ks (a : A) : safe ks (mret a) (fun _ => []).
Proof. intros g Hg Hd Hk. cbn. split_and!; auto. set_solver. Qed.

Lemma safe_lift {A} ks (r : res A) : no_sql r -> safe ks (lift r) (fun _ => []).
Proof. intros Hr g Hg Hd Hk. cbn. split_and!; auto. destruct r; [set_solver|done]. Qed.

Lemma safe_bind {A B} ks (m : G A) (f : A -> G B) new new' :
  safe ks m new -> (forall a, safe (ks ++ new a) (f a) new') -> safe ks (m ≫= f) new'.
Proof.
  intros Hm Hf g Hg Hd Hk. destruct (Hm g Hg Hd Hk) as (H1&H2&H3&H4). unfold mbind, M_bind.
  destruct (m g) as [[a|e] g']; cbn [fst snd] in *; [|done].
  destruct (Hf a g' H1) as (H5&H6&H7&H8).
  - by apply H2.
  - intros k [Hin|Hin]%elem_of_app; [apply H2; auto|auto].
  - split_and!; auto. by eapply extends_trans.
Qed.

(** The nodes of the first part are still there after the second. *)
Lemma safe_bind_keep {A B} ks (m : G A) (f : A -> G B) kept :
  safe ks m (fun _ => kept) -> (forall a, safe (ks ++ kept) (f a) (fun _ => [])) -> safe ks (m ≫= f) (fun _ => kept).
Proof.
  intros Hm Hf g Hg Hd Hk. destruct (Hm g Hg Hd Hk) as (H1&H2&H3&H4). unfold mbind, M_bind.
  destruct (m g) as [[a|e] g']; cbn [fst snd] in *; [|done].
  destruct (Hf a g' H1) as (H5&H6&H7&H8).
  - by apply H2.
  - intros k [Hin|Hin]%elem_of_app; [apply H2; auto|auto].
  - split_and!; auto; [by eapply extends_trans|]. destruct (fst (f a g')); [|done]. intros k Hin. apply H6. auto.
Qed.

Lemma safe_mono {A} ks ks' (m : G A) new new' :
  safe ks m new -> ks ⊆ ks' -> (forall a, new' a ⊆ new a) -> safe ks' m new'.
Proof.
  intros Hm Hks Hnew g Hg Hd Hk. destruct (Hm g Hg Hd) as (H1&H2&H3&H4); [set_solver|].
  split_and!; auto. destruct (fst (m g)); [set_solver|done].
Qed.

Lemma safe_weak {A} ks (m : G A) : safe [] m (fun _ => []) -> safe ks m (fun _ => []).
Proof. intros H. eapply safe_mono; [exact H|set_solver|set_solver]. Qed.

Lemma safe_fold {A S} ks (f : S -> A -> G S) (l : list A) s :
  (forall s x, x ∈ l -> safe ks (f s x) (fun _ => [])) -> safe ks (m_fold f s l) (fun _ => []).
Proof.
  revert s. induction l as [|x l IH]; intros s Hf; cbn [m_fold]; [apply safe_ret|].
  eapply safe_bind; [apply Hf; by left|]. intros s'. rewrite app_nil_r. apply IH. intros s1 y Hy. apply Hf. by right.
Qed.

Lemma safe_iter {A} ks (f : A -> G unit) (l : list A) (key : A -> list string) :
  (forall x, x ∈ l -> safe ks (f x) (fun _ => key x)) -> safe ks (m_iter f l) (fun _ => flat_map key l).
Proof.
  induction l as [|x l IH]; intros Hf; cbn [m_iter]; [apply safe_ret|].
  intros g Hg Hd Hk.
  destruct (Hf x ltac:(by left) g Hg Hd Hk) as (H1&H2&H3&H4). unfold mbind, M_bind.
  destruct (f x g) as [[[]|e] g']; cbn [fst snd] in *; [|done].
  destruct (IH (fun y Hy => Hf y ltac:(by right)) g' H1) as (H5&H6&H7&H8).
  - by apply H2.
  - intros k Hin. apply H2. auto.
  - split_and!; auto; [by eapply extends_trans|]. destruct (fst (m_iter f l g')); [|done].
    intros k. cbn [flat_map]. intros [Hin|Hin]%elem_of_app; [apply H6|]; auto.
Qed.

Lemma safe_iter_nil {A} ks (f : A -> G unit) (l : list A) :
  (forall x, x ∈ l -> safe ks (f x) (fun _ => [])) -> safe ks (m_iter f l) (fun _ => []).
Proof.
  intros Hf. eapply safe_mono; [apply (safe_iter ks f l (fun _ => []) Hf)|done|]. set_solver.
Qed.

Lemma safe_add_node ks key ty label target addr m : safe ks (add_node key ty label target addr m) (fun _ => [key]).
Proof.
  intros g [Hn Hdoc He Hr] Hd Hk. unfold add_node, modify. cbn [fst snd].
  set (new := Node key ty label target addr m).
  assert (Hkeys : forall l : list node, n_key <$> ((fun n => if String.eqb (n_key n) key then merge_node n new else n) <$> l) = n_key <$> l).
  { intros l. rewrite <- list_fmap_compose. apply list_fmap_ext. intros i n _. cbn. by case_bool. }
  destruct (has_node key g) eqn:E.
  - assert (Hh : forall k, has_node k (set_nodes ((fun n => if String.eqb (n_key n) key then merge_node n new else n) <$> nodes g) g) = has_node k g).
    { intros k. apply eq_bool_prop_intro. rewrite !Is_true_true, !has_node_in. cbn [set_nodes nodes]. by rewrite Hkeys. }
    split_and!; [|by split; intros k; rewrite ?Hh|done|].
    + split; cbn [set_nodes nodes documents edges]; [by rewrite Hkeys|done| |done].
      intros e Hin. rewrite !Hh. by apply He.
    + intros k ->%list_elem_of_singleton. by rewrite Hh.
  - assert (Hh : forall k, has_node k (set_nodes (nodes g ++ [new]) g) = true <-> has_node k g = true \/ k = key).
    { intros k. rewrite !has_node_in. cbn [set_nodes nodes]. rewrite fmap_app, elem_of_app. cbn.
      by rewrite list_elem_of_singleton. }
    split_and!; [|split; [|done]; intros k; rewrite Hh; auto|done|].
    + split; cbn [set_nodes nodes documents edges]; [|done| |done].
      * rewrite fmap_app. apply NoDup_app. split; [done|]. split; [|apply NoDup_singleton].
        intros k Hin Hin2. cbn in Hin2. apply list_elem_of_singleton in Hin2 as ->. apply has_node_in in Hin. congruence.
      * intros e Hin. rewrite !Hh. destruct (He e Hin) as (?&?&?). auto.
    + intros k ->%list_elem_of_singleton. apply Hh. auto.
Qed.

Lemma safe_add_edge ks src dst rel m : src ∈ ks -> dst ∈ ks -> safe ks (add_edge src dst rel sha m) (fun _ => []).
Proof.
  intros Hs Ht g [Hn Hdoc He Hr] Hd Hk. unfold add_edge. rewrite (Hk src Hs), (Hk dst Ht), Hd. cbn [andb].
  destruct (existsb _ _); cbn [fst snd]; (split_and!; [|done|done|set_solver]); [done|].
  split; cbn [set_edges nodes documents edges]; [done|done| |done].
  intros e [Hin| ->%list_elem_of_singleton]%elem_of_app; [by apply He|]. split_and!; [by apply Hk|by apply Hk|exact Hd].
Qed.
End triples.

(** [graph_step] runs through the statements of an operation. *)
Ltac graph_step :=
  match goal with
  | |- safe _ _ (add_node _ _ _ _ _ _ ≫= _) _ => eapply safe_bind; [apply safe_add_node|intros []]
  | |- safe _ _ (add_edge _ _ _ _ _ ≫= _) _ => eapply safe_bind; [apply safe_add_edge; set_solver|intros []; rewrite ?app_nil_r]
  | |- safe _ _ (add_edge _ _ _ _ _) _ => apply safe_add_edge; set_solver
  | |- safe _ _ (mret _) _ => apply safe_ret
  | |- safe _ _ (lift _ ≫= _) _ => eapply safe_bind; [apply safe_lift|intros ?; rewrite ?app_nil_r]
  | |- safe _ _ (m_fold _ _ _) _ => apply safe_fold; intros ???
  | |- safe _ _ (m_iter _ _) _ => apply safe_iter_nil; intros ??
  | |- safe _ _ (match ?x with _ => _ end) _ => destruct x eqn:?
  | |- safe _ _ (let _ := _ in _) _ => cbv zeta
  end.
Ltac graph_steps := repeat graph_step.

Section relations_safe.
Context (doc : dict value) (sha : string) (targets : list string).
Context (ks : list string) (Hdoc : doc_key sha ∈ ks).

Lemma viter_no_sql v : no_sql (viter v).
Proof. by destruct v. Qed.

Lemma safe_field_items k : safe sha ks (field_items doc k) (fun _ => []).
Proof. unfold field_items. graph_steps. apply viter_no_sql. Qed.

Lemma safe_header label : safe sha [] (add_header doc sha label) (fun _ => [doc_key sha]).
Proof.
  clear Hdoc ks. unfold add_header. eapply safe_bind_keep; [apply safe_add_node|intros []]. graph_steps.
Qed.

Lemma safe_link_address ks' src addr rel m m' : src ∈ ks' ->
  safe sha ks' (link_address sha targets src addr rel m m') (fun _ => [address_key (scope targets) addr]).
Proof. intros Hs. unfold link_address. eapply safe_bind_keep; [apply safe_add_node|intros []]. graph_steps. Qed.

Lemma safe_symbols c : safe sha ks (add_symbols doc sha targets c) (fun _ => []).
Proof using Hdoc.
  unfold add_symbols. graph_steps. unfold add_symbol. graph_steps.
  all: eapply safe_bind; [|intros ?; apply safe_ret].
  all: graph_steps.
  all: eapply safe_bind; [apply safe_link_address; set_solver|intros []; apply safe_ret].
Qed.

Lemma safe_trace c : safe sha ks (add_trace doc sha targets c) (fun _ => []).
Proof using Hdoc.
  unfold add_trace. case_bool; [|apply safe_ret].
  eapply safe_bind; [apply safe_field_items|intros fs; rewrite app_nil_r].
  eapply safe_bind; [|intros c1; rewrite app_nil_r].
  { apply safe_fold. intros s x _. unfold add_function. graph_steps. }
  eapply safe_bind; [apply safe_field_items|intros hot; rewrite app_nil_r].
  eapply safe_bind; [|intros c2; rewrite app_nil_r].
  { apply safe_fold. intros s x _. unfold add_hot_pc. destruct (parse_address _) as [addr|]; [|apply safe_ret].
    eapply safe_bind; [by apply safe_link_address|intros []].
    cbv zeta. eapply safe_bind; [|intros []; apply safe_ret]. graph_steps. }
  eapply safe_bind; [apply safe_field_items|intros calls; rewrite app_nil_r].
  eapply safe_bind; [|intros c3; rewrite app_nil_r].
  { apply safe_fold. intros s x _. unfold add_call. graph_steps. }
  unfold add_coverage. graph_steps.
Qed.

Lemma behavior_payload_no_sql : no_sql (behavior_payload doc).
Proof.
  unfold behavior_payload. destruct (result_payload doc) as [[|x r]|]; [by case_bool| |by case_bool].
  set (v := dget_or _ _ _). pose proof (viter_no_sql v). by destruct (viter v).
Qed.

Lemma safe_behaviors c : safe sha ks (add_behaviors doc sha c) (fun _ => []).
Proof using Hdoc.
  unfold add_behaviors. eapply safe_bind; [apply safe_lift, behavior_payload_no_sql|intros b; rewrite app_nil_r].
  cbv zeta. apply safe_fold. intros s d _. unfold add_behavior. graph_steps.
Qed.

Context (Htargets : forall t, t ∈ targets -> target_key t ∈ ks).

Lemma safe_link_targets ks' src rel :
  ks ⊆ ks' -> src ∈ ks' -> safe sha ks' (link_targets sha targets src rel) (fun _ => []).
Proof using Htargets.
  intros Hks Hs. unfold link_targets. apply safe_iter_nil. intros t Ht%elem_of_py_sorted.
  apply safe_add_edge; [done|]. by apply Hks, Htargets.
Qed.

Lemma safe_corpus_case : safe sha ks (add_corpus_case doc sha targets) (fun _ => []).
Proof using Hdoc Htargets.
  unfold add_corpus_case. case_bool; [|apply safe_ret]. cbv zeta. do 2 graph_step.
  apply safe_link_targets; set_solver.
Qed.

Lemma safe_campaign : safe sha ks (add_campaign doc sha targets) (fun _ => []).
Proof using Hdoc Htargets.
  unfold add_campaign. case_bool; [|apply safe_ret]. cbv zeta. do 2 graph_step.
  apply safe_link_targets; set_solver.
Qed.

Lemma safe_triage : safe sha ks (add_triage doc sha targets) (fun _ => []).
Proof using Hdoc Htargets.
  unfold add_triage. case_bool; [|apply safe_ret]. cbv zeta. do 2 graph_step.
  destruct (dget_n "first_divergence" doc); try apply safe_ret. apply safe_iter_nil. intros side _.
  destruct (dget_n side d); try apply safe_ret. destruct (parse_address _); [|apply safe_ret].
  eapply safe_mono; [apply safe_link_address with (ks' := ks ++ ["triage:" +:+ sha]); set_solver|done|set_solver].
Qed.

Lemma safe_hypothesis c item : safe sha ks (add_hypothesis sha targets c item) (fun _ => []).
Proof using Hdoc Htargets.
  unfold add_hypothesis. cbv zeta. do 2 graph_step.
  set (hkey := hypothesis_key _ item).
  eapply safe_bind; [apply safe_link_targets; set_solver|intros []; cbv beta; rewrite ?app_nil_r].
  eapply safe_bind; [|intros []; cbv beta; rewrite ?app_nil_r].
  { apply safe_iter_nil. intros d _. unfold add_support. destruct d; try apply safe_ret. case_bool; [|apply safe_ret].
    cbv zeta. graph_steps. }
  eapply safe_bind; [|intros []; apply safe_ret].
  destruct (subject_address _) as [addr|]; [|apply safe_ret].
  eapply safe_mono; [apply safe_link_address with (ks' := ks ++ [hkey]); set_solver|set_solver|set_solver].
Qed.

Lemma safe_hypotheses c : safe sha ks (add_hypotheses doc sha targets c) (fun _ => []).
Proof using Hdoc Htargets.
  unfold add_hypotheses. case_bool.
  - destruct (dget_n "hypotheses" doc); try apply safe_ret. apply safe_fold. intros s x _. apply safe_hypothesis.
  - case_bool; [|apply safe_ret]. apply safe_fold. intros s x _. apply safe_hypothesis.
Qed.

Lemma safe_annotations : safe sha ks (add_annotations doc sha targets) (fun _ => []).
Proof using Hdoc Htargets.
  unfold add_annotations. destruct (dget_n "annotations" doc); try apply safe_ret. apply safe_iter_nil.
  intros item _. unfold add_annotation. destruct (parse_address _); [|apply safe_ret].
  eapply safe_mono; [apply safe_link_address; exact Hdoc|set_solver|set_solver].
Qed.
End relations_safe.

Lemma document_targets_no_sql doc forced : no_sql (document_targets doc forced).
Proof. unfold document_targets. destruct forced as [t|]; [|done]. by repeat case_bool. Qed.

Lemma safe_document_relations doc sha label forced :
  safe sha [] (document_relations doc sha label forced) (fun _ => []).
Proof.
  unfold document_relations. eapply safe_bind; [apply safe_header|intros []].
  eapply safe_bind; [apply safe_lift, document_targets_no_sql|intros targets; rewrite app_nil_r].
  eapply safe_bind.
  { apply (safe_iter sha _ _ _ (fun t => [target_key t])). intros t _. unfold add_target.
    eapply safe_bind_keep; [apply safe_add_node|intros []; apply safe_add_edge; set_solver]. }
  intros []. set (ks := _ ++ flat_map _ _).
  assert (Hdoc : doc_key sha ∈ ks) by set_solver.
  assert (Htargets : forall t, t ∈ targets -> target_key t ∈ ks).
  { intros t Ht. apply elem_of_app. right. apply list_elem_of_In, in_flat_map. exists t.
    split; [by apply list_elem_of_In, elem_of_py_sorted|]. by left. }
  clearbody ks.
  eapply safe_bind; [by apply safe_symbols|intros c1; rewrite app_nil_r].
  eapply safe_bind; [by apply safe_trace|intros c2; rewrite app_nil_r].
  eapply safe_bind; [by apply safe_behaviors|intros c3; rewrite app_nil_r].
  eapply safe_bind; [by apply safe_corpus_case|intros []; rewrite app_nil_r].
  eapply safe_bind; [by apply safe_triage|intros []; rewrite app_nil_r].
  eapply safe_bind; [by apply safe_campaign|intros []; rewrite app_nil_r].
  eapply safe_bind; [by apply safe_hypotheses|intros c4; rewrite app_nil_r].
  eapply safe_bind; [by apply safe_annotations|intros []; apply safe_ret].
Qed.

(** What every statement outside [document_relations] keeps. *)
Definition keeps {A} (m : G A) : Prop := forall g, graph_ok g -> graph_ok (snd (m g)) /\ no_sql (fst (m g)).

Lemma keeps_ingest_document doc path raw size forced : keeps (ingest_document doc path raw size forced).
Proof.
  intros g Hg. destruct (ingest_document doc path raw size forced g) as [r g'] eqn:E. cbn [fst snd]. revert E.
  unfold ingest_document. cbv zeta. set (sha := sha256_hex (canonical (obj doc))).
  unfold mbind at 1, M_bind at 1, add_document.
  set (g1 := if has_doc sha g then g else _).
  assert (Hg1 : graph_ok g1 /\ has_doc sha g1 = true).
  { subst g1. destruct (has_doc sha g) eqn:E; [done|]. destruct Hg as [Hn Hdoc He Hr]. split.
    - assert (Hd : forall k, has_doc k g = true -> has_doc k (Graph (meta g) (nodes g) (edges g)
          (documents g ++ [DocRow sha (schema doc) (Ok (sort_keys (obj doc)))]) (sources g)) = true).
      { intros k. rewrite !has_doc_in. cbn. rewrite fmap_app. set_solver. }
      split; cbn [nodes documents edges]; [done| | |].
      + rewrite fmap_app. apply NoDup_app. split; [done|]. split; [|apply NoDup_singleton].
        intros k Hin Hin2. cbn in Hin2. apply list_elem_of_singleton in Hin2 as ->. apply has_doc_in in Hin. congruence.
      + intros e Hin. destruct (He e Hin) as (H1&H2&H3). split_and!; [exact H1|exact H2|by apply Hd].
      + intros d [Hin| ->%list_elem_of_singleton]%elem_of_app; [by apply Hr|]. eexists. split; [done|].
        unfold canonical. rewrite sort_keys_idem. reflexivity.
    - apply has_doc_in. cbn. rewrite fmap_app. set_solver. }
  clearbody g1. destruct Hg1 as [Hg1 Hd1]. unfold mbind at 1, M_bind at 1.
  assert (Hs : exists g2, add_source (SourceRow sha path raw size) g1 = (Ok tt, g2) /\ graph_ok g2 /\ has_doc sha g2 = true).
  { unfold add_source. cbn [s_doc]. destruct (existsb _ _); [by eexists|]. rewrite Hd1. eexists. split; [done|].
    split; [|exact Hd1]. destruct Hg1; by constructor. }
  destruct Hs as (g2&->&Hg2&Hd2).
  destruct (safe_document_relations doc sha path forced g2 Hg2 Hd2) as (H1&_&H2&_); [set_solver|].
  unfold mbind, M_bind. destruct (document_relations doc sha path forced g2) as [[c|e] g3]; by intros [= <- <-].
Qed.

Lemma keeps_fold {A S} (f : S -> A -> G S) (l : list A) s :
  (forall s x, keeps (f s x)) -> keeps (m_fold f s l).
Proof.
  intros Hf. revert s. induction l as [|x l IH]; intros s g Hg; cbn [m_fold]; [done|].
  destruct (Hf s x g Hg) as [H1 H2]. unfold mbind, M_bind. destruct (f s x g) as [[s'|e] g']; [|done]. by apply IH.
Qed.

Lemma keeps_ingest_paths items forced : keeps (ingest_paths items forced).
Proof.
  intros g Hg. unfold ingest_paths, init_schema, mbind, M_bind, modify.
  set (g1 := Graph _ _ _ _ _). assert (Hg1 : graph_ok g1) by (destruct Hg; by split).
  unfold transaction.
  assert (Hk : keeps (m_fold (ingest_file forced) (Ingested 0 0 0 []) (candidate_files [] items))).
  { apply keeps_fold. intros c i g2 Hg2. unfold ingest_file. destruct (i_doc i) as [[]|]; try done.
    case_bool; [|done]. unfold mbind, M_bind.
    destruct (keeps_ingest_document d (i_path i) (i_raw i) (i_size i) forced g2 Hg2) as [H1 H2].
    by destruct (ingest_document d (i_path i) (i_raw i) (i_size i) forced g2) as [[[[]]|] g3]. }
  destruct (Hk g1 Hg1) as [H1 H2]. by destruct (m_fold _ _ _ g1) as [[c|e] g2].
Qed.

(** Sound graphs verify. *)
Lemma graph_ok_verifies g : graph_ok g -> dget "ok" (verify_graph "ok" g) = Some (VBool true).
Proof.
  intros [Hn Hdoc He Hr]. cbn. do 2 f_equal.
  assert (Hc : corrupt_documents g = []).
  { unfold corrupt_documents. destruct (List.filter _ (documents g)) as [|d l] eqn:E; [done|]. exfalso.
    assert (Hin : List.In d (List.filter (fun d => negb (String.eqb
      (match d_json d with Ok doc => sha256_hex (canonical doc) | Raise _ => "invalid-json" end) (d_sha d))) (documents g)))
      by (rewrite E; by left).
    apply List.filter_In in Hin as [Hin Hd]. apply list_elem_of_In in Hin. destruct (Hr d Hin) as (doc&Ej&Es).
    by rewrite Ej, Es, String.eqb_refl in Hd. }
  assert (Hd : dangling_edges g = 0).
  { unfold dangling_edges. destruct (List.filter _ (edges g)) as [|e l] eqn:E; [done|]. exfalso.
    assert (Hin : List.In e (List.filter (fun e => negb (has_node (e_src e) g && has_node (e_dst e) g && has_doc (e_doc e) g)) (edges g)))
      by (rewrite E; by left).
    apply List.filter_In in Hin as [Hin Hd]. apply list_elem_of_In in Hin. destruct (He e Hin) as (H1&H2&H3). cbn beta in Hd. by rewrite H1, H2, H3 in Hd. }
  by rewrite Hc, Hd.
Qed.

(** C28: Ingesting keeps the integrity of the database.  Whatever the files hold, and whether the
    ingest succeeds or is rolled back: no foreign key is ever violated, every edge joins two nodes
    and names a document, keys stay unique, every document is stored under the digest of its
    canonical text, and the verify command accepts the result. *)
Theorem ingest_keeps_integrity (items : list input) (forced : option string) (g : graph) :
  graph_ok g ->
  graph_ok (snd (ingest_paths items forced g)) /\ no_sql (fst (ingest_paths items forced g)) /\
  dget "ok" (verify_graph "ok" (snd (ingest_paths items forced g))) = Some (VBool true).
Proof.
  intros Hg. destruct (keeps_ingest_paths items forced g Hg) as [H1 H2].
  split; [done|]. split; [done|]. by apply graph_ok_verifies.
Qed.

Lemma empty_graph_ok : graph_ok empty_graph.
Proof. split; cbn; [constructor|constructor|set_solver|set_solver]. Qed.

Definition sample_doc : value :=
  obj [("schema", VStr "ppc-lab-trace-analysis-v1");
       ("target_sha256", VStr "00112233445566778899aabbccddeeff00112233445566778899aabbccddeeff");
       ("symbols", VList [obj [("name", VStr "main"); ("address", VStr "0x100")]]);
       ("calls", VList [obj [("caller", VStr "main"); ("callee", VStr "f"); ("count", VInt 2)]])].
Definition sample_inputs : list input := [Input "/d/a.json" "aa" 10 (Some sample_doc); Input "/d/a.json" "aa" 10 (Some sample_doc)].

Lemma ingest_keeps_integrity_witness :
  length (edges (snd (ingest_paths sample_inputs None empty_graph))) = 5%nat /\
  graph_ok (snd (ingest_paths sample_inputs None empty_graph)) /\
  no_sql (fst (ingest_paths sample_inputs None empty_graph)) /\
  dget "ok" (verify_graph "ok" (snd (ingest_paths sample_inputs None empty_graph))) = Some (VBool true).
Proof.
  split; [vm_compute; reflexivity|].
  exact (ingest_keeps_integrity sample_inputs None empty_graph empty_graph_ok).
Defined.
