(* ===== verification/KnowledgePaths.v ===== *)
(** * The searches of the knowledge graph: distances and shortest paths *)
From stdpp Require Import pretty.
From Stdlib Require Import Ascii Sorting.Sorted.
From S2P Require Import Knowledge KnowledgeProps.

(** ** Walks *)

Definition relation_ok (relation : option string) (e : edge) : bool :=
  match relation with Some r => String.eqb (e_rel e) r | None => true end.

(** A walk of [n] edges, each taken in either direction. *)
Inductive walk (g : graph) (relation : option string) : nat -> string -> string -> Prop :=
  | walk_nil x : walk g relation 0 x x
  | walk_snoc n x y e :
      walk g relation n x y -> e ∈ edges g -> relation_ok relation e = true -> touches y e = true ->
      walk g relation (S n) x (other_end y e).

(** [y] is at distance [d] from [x]. *)
Definition distance (g : graph) (relation : option string) (x y : string) (d : Z) : Prop :=
  0 <= d /\ walk g relation (Z.to_nat d) x y /\ forall n, walk g relation n x y -> d <= Z.of_nat n.

#[local] Set Default Proof Using "All".
Section search.
Context (scan : list edge -> list edge) (scan_perm : forall l, scan l ≡ₚ l).
Context (g : graph) (relation : option string) (start : string) (D : Z) (HD : 0 <= D).

Lemma elem_of_incident k e :
  e ∈ incident scan g relation k <-> e ∈ edges g /\ touches k e = true /\ relation_ok relation e = true.
Proof.
  unfold incident. rewrite scan_perm, list_elem_of_In, List.filter_In, <- list_elem_of_In, andb_true_iff. done.
Qed.

Definition ends : list string := flat_map (fun e => [e_src e; e_dst e]) (edges g).

Lemma other_end_in k e : e ∈ edges g -> other_end k e ∈ ends.
Proof using Type.
  intros He. apply list_elem_of_In, in_flat_map. exists e. split; [by apply list_elem_of_In|].
  unfold other_end. case_bool; cbn; auto.
Qed.

(** ** Levels: what a breadth-first search knows after expanding [A], with [B] in its queue *)

Record levels (A B : list (string * Z)) : Prop := {
  lv_nodup : NoDup (A ++ B).*1;
  lv_ends : forall k, k ∈ (A ++ B).*1 -> k ∈ start :: ends;
  lv_walk : forall k d, (k, d) ∈ A ++ B -> 0 <= d <= D /\ walk g relation (Z.to_nat d) start k;
  lv_sorted : StronglySorted (fun x y => snd x <= snd y) (A ++ B);
  lv_near : forall x y, x ∈ A ++ B -> head B = Some y -> snd x <= snd y + 1;
  lv_start : (start, 0) ∈ A ++ B;
  lv_closed : forall k d e, (k, d) ∈ A -> d < D -> e ∈ incident scan g relation k ->
    exists d', (other_end k e, d') ∈ A ++ B /\ d' <= d + 1 }.

Lemma levels_start : levels [] [(start, 0)].
Proof.
  split; cbn.
  - apply NoDup_singleton.
  - set_solver.
  - intros k d [= -> ->]%list_elem_of_singleton. split; [lia|constructor].
  - repeat constructor.
  - intros x y ->%list_elem_of_singleton [= <-]. cbn. lia.
  - by left.
  - set_solver.
Qed.

Lemma sorted_app_le (A B : list (string * Z)) x y :
  StronglySorted (fun x y => snd x <= snd y) (A ++ B) -> x ∈ A -> y ∈ B -> snd x <= snd y.
Proof.
  induction A as [|a A IH]; cbn; [set_solver|]. intros [Hs Ha]%StronglySorted_inv [->|Hx]%elem_of_cons Hy; [|by apply IH].
  rewrite Forall_forall in Ha. apply Ha. set_solver.
Qed.

Lemma sorted_snoc (L new : list (string * Z)) m :
  StronglySorted (fun x y => snd x <= snd y) L -> (forall x, x ∈ L -> snd x <= m) -> (forall x, x ∈ new -> snd x = m) ->
  StronglySorted (fun x y => snd x <= snd y) (L ++ new).
Proof.
  intros Hs HL Hn. induction Hs as [|x L Hs IH Hx]; cbn.
  - induction new as [|y new IH]; [constructor|]. constructor; [apply IH; intros z Hz; apply Hn; set_solver|].
    apply Forall_forall. intros z Hz. rewrite (Hn y), (Hn z); [lia|set_solver..].
  - constructor; [apply IH; set_solver|]. apply Forall_app. split; [done|]. apply Forall_forall. intros z Hz.
    rewrite (Hn z) by done. apply HL. set_solver.
Qed.

(** The nodes that expanding [cur] adds. *)
Definition fresh_level (cur : string) (d : Z) (new : list (string * Z)) : Prop :=
  forall x, x ∈ new -> snd x = d + 1 /\ exists e, e ∈ incident scan g relation cur /\ fst x = other_end cur e.

Lemma levels_expand A cur d B new :
  levels A ((cur, d) :: B) -> d < D -> fresh_level cur d new -> NoDup (A ++ (cur, d) :: B ++ new).*1 ->
  (forall e, e ∈ incident scan g relation cur -> other_end cur e ∈ (A ++ (cur, d) :: B ++ new).*1) ->
  levels (A ++ [(cur, d)]) (B ++ new).
Proof.
  intros [Hnd Hends Hwalk Hsort Hnear Hstart Hclosed] Hd Hnew Hnd' Hall.
  assert (Happ : (A ++ [(cur, d)]) ++ B ++ new = (A ++ (cur, d) :: B) ++ new) by (by rewrite <- !app_assoc).
  assert (Hin : forall x, x ∈ (A ++ [(cur, d)]) ++ B ++ new <-> x ∈ A ++ (cur, d) :: B \/ x ∈ new).
  { intros x. rewrite Happ. apply elem_of_app. }
  assert (Hle : forall x, x ∈ A ++ (cur, d) :: B -> snd x <= d + 1) by (intros x Hx; by apply (Hnear x (cur, d))).
  assert (Hcur : (cur, d) ∈ A ++ (cur, d) :: B) by set_solver.
  split.
  - by rewrite <- app_assoc.
  - intros k (x&->&[Hx|Hx]%Hin)%list_elem_of_fmap; [apply Hends, list_elem_of_fmap; eauto|].
    destruct (Hnew x Hx) as (_&e&He&->). apply elem_of_incident in He as [He _]. right. by apply other_end_in.
  - intros k d' [Hx|Hx]%Hin; [by apply Hwalk|]. destruct (Hnew _ Hx) as (Hd'&e&He&Hk). cbn in Hd', Hk. subst k d'.
    apply elem_of_incident in He as (He&Ht&Hr). destruct (Hwalk cur d Hcur) as [Hd0 Hw]. split; [lia|].
    replace (Z.to_nat (d + 1)) with (S (Z.to_nat d)) by lia. by constructor.
  - rewrite Happ. apply sorted_snoc with (m := d + 1); [done|done|]. intros x Hx. by apply Hnew.
  - intros x y Hx Hy. assert (Hyd : d <= snd y).
    { destruct B as [|b B]; cbn in Hy.
      - assert (Hyn : y ∈ new) by (destruct new; [done|injection Hy as ->; by left]). destruct (Hnew y Hyn). lia.
      - injection Hy as ->. apply (sorted_app_le (A ++ [(cur, d)]) (y :: B) (cur, d)); [|set_solver|by left].
        by rewrite <- app_assoc. }
    apply Hin in Hx as [Hx|Hx]; [specialize (Hle x Hx); lia|]. destruct (Hnew x Hx). lia.
  - apply Hin. by left.
  - intros k dk e [Hk|[= -> ->]%list_elem_of_singleton]%elem_of_app Hdk He.
    + destruct (Hclosed k dk e Hk Hdk He) as (d'&Hd'&Hle'). exists d'. split; [|done]. apply Hin. by left.
    + specialize (Hall e He). apply list_elem_of_fmap in Hall as ([k' d']&Hk'&Hx). cbn in Hk'. subst k'.
      exists d'. assert (Hx' : (other_end cur e, d') ∈ (A ++ [(cur, d)]) ++ B ++ new) by (by rewrite <- app_assoc).
      split; [done|]. apply Hin in Hx' as [Hx'|Hx']; [by apply Hle in Hx'|]. destruct (Hnew _ Hx') as [E _]. cbn in E. lia.
Qed.

Lemma levels_skip A cur d B : levels A ((cur, d) :: B) -> D <= d -> levels (A ++ [(cur, d)]) B.
Proof.
  intros [Hnd Hends Hwalk Hsort Hnear Hstart Hclosed] Hd.
  assert (Happ : (A ++ [(cur, d)]) ++ B = A ++ (cur, d) :: B) by (by rewrite <- app_assoc).
  split; rewrite ?Happ; try done.
  - intros x y Hx Hy. destruct B as [|b B]; [done|]. injection Hy as ->.
    specialize (Hnear x (cur, d) Hx eq_refl). cbn in Hnear.
    assert (d <= snd y); [|lia]. apply (sorted_app_le (A ++ [(cur, d)]) (y :: B) (cur, d)); [by rewrite Happ|set_solver|by left].
  - intros k dk e [Hk|[= -> ->]%list_elem_of_singleton]%elem_of_app Hdk He; [by eapply Hclosed|lia].
Qed.

(** Everything nearer than the head of the queue is known. *)
Lemma levels_complete A B n k :
  levels A B -> walk g relation n start k -> Z.of_nat n <= D ->
  (forall y, head B = Some y -> Z.of_nat n <= snd y) -> exists d, (k, d) ∈ A ++ B /\ d <= Z.of_nat n.
Proof.
  intros HL Hw. remember start as s eqn:Es. induction Hw as [x|n x y e Hw IH He Hr Ht]; subst; intros Hn Hhead.
  - exists 0. split; [apply HL|lia].
  - destruct IH as (d&Hin&Hd); [done|lia|intros z Hz; specialize (Hhead z Hz); lia|].
    assert (HA : (y, d) ∈ A).
    { apply elem_of_app in Hin as [Hin|Hin]; [done|]. exfalso. destruct B as [|b B]; [by apply not_elem_of_nil in Hin|].
      specialize (Hhead b eq_refl). apply elem_of_cons in Hin as [<-|Hin]; [cbn in Hhead; lia|].
      assert (snd b <= d); [|lia]. apply (sorted_app_le (A ++ [b]) B b (y, d)); [|set_solver|done].
      rewrite <- app_assoc. apply HL. }
    destruct (lv_closed _ _ HL y d e HA) as (d'&Hd'&Hle); [lia|by apply elem_of_incident|]. exists d'. split; [done|lia].
Qed.

Lemma levels_fun A B k d d' : levels A B -> (k, d) ∈ A ++ B -> (k, d') ∈ A ++ B -> d = d'.
Proof.
  intros HL H1 H2. pose proof (dget_wf k d (A ++ B) (lv_nodup _ _ HL) H1) as E.
  rewrite (dget_wf k d' (A ++ B) (lv_nodup _ _ HL) H2) in E. by injection E.
Qed.

(** The level of a node is its distance. *)
Lemma levels_distance A B k d : levels A B -> (k, d) ∈ A ++ B -> distance g relation start k d.
Proof.
  intros HL Hin. destruct (lv_walk _ _ HL k d Hin) as [Hd Hw]. split; [lia|]. split; [done|]. intros n Hn.
  destruct (Z.le_gt_cases d (Z.of_nat n)) as [?|Hlt]; [done|].
  destruct (levels_complete A B n k HL Hn) as (d'&Hin'&Hle); [lia| |].
  - intros y Hy. pose proof (lv_near _ _ HL (k, d) y Hin Hy). cbn in *. lia.
  - rewrite (levels_fun A B k d d' HL Hin Hin'). done.
Qed.

Lemma levels_size A B : levels A B -> (length (A ++ B) <= 1 + 2 * length (edges g))%nat.
Proof.
  intros HL. assert (H : (length (A ++ B).*1 <= length (start :: ends))%nat).
  { apply NoDup_length_le; [apply HL|]. apply HL. }
  rewrite length_fmap in H. cbn in H. assert (E : length ends = (2 * length (edges g))%nat); [|lia].
  unfold ends. induction (edges g) as [|e l IH]; [done|]. cbn. lia.
Qed.

(** ** The search of everything within a distance *)

Lemma bfs_fold cur d es s :
  NoDup (dkeys (b_seen s)) -> exists new,
    b_seen (fold_left (bfs_edge cur d) es s) = b_seen s ++ new /\
    b_queue (fold_left (bfs_edge cur d) es s) = b_queue s ++ new.*1 /\
    b_edges (fold_left (bfs_edge cur d) es s) = b_edges s ++ es /\
    NoDup (b_seen s ++ new).*1 /\
    (forall x, x ∈ new -> snd x = d + 1 /\ exists e, e ∈ es /\ fst x = other_end cur e) /\
    (forall e, e ∈ es -> other_end cur e ∈ (b_seen s ++ new).*1).
Proof.
  revert s. induction es as [|e es IH]; intros s Hn; cbn [fold_left].
  - exists []. rewrite !app_nil_r. split_and!; try done; set_solver.
  - destruct (dmem (other_end cur e) (b_seen s)) eqn:E.
    + assert (Hs : bfs_edge cur d s e = Bfs (b_seen s) (b_queue s) (b_edges s ++ [e])) by (unfold bfs_edge; by rewrite E).
      rewrite Hs. destruct (IH (Bfs (b_seen s) (b_queue s) (b_edges s ++ [e])) Hn) as (new&H1&H2&H3&H4&H5&H6). cbn [b_seen b_queue b_edges] in *.
      exists new. split_and!; try done.
      * by rewrite H3, <- app_assoc.
      * intros x Hx. destruct (H5 x Hx) as (?&e'&?&?). split; [done|]. exists e'. set_solver.
      * intros e' [->|He']%elem_of_cons; [|by apply H6]. rewrite fmap_app. apply elem_of_app. left.
        unfold dmem in E. destruct (dget _ (b_seen s)) eqn:E'; [|done]. by eapply dget_some_key.
    + assert (Hk : other_end cur e ∉ dkeys (b_seen s)).
      { apply dget_none. unfold dmem in E. by destruct (dget _ _). }
      assert (Ed : dset (other_end cur e) (d + 1) (b_seen s) = b_seen s ++ [(other_end cur e, d + 1)]) by (by apply dkeys_dset_notin).
      assert (Hs : bfs_edge cur d s e = Bfs (b_seen s ++ [(other_end cur e, d + 1)]) (b_queue s ++ [other_end cur e]) (b_edges s ++ [e]))
        by (unfold bfs_edge; by rewrite E, Ed).
      rewrite Hs. destruct (IH (Bfs (b_seen s ++ [(other_end cur e, d + 1)]) (b_queue s ++ [other_end cur e]) (b_edges s ++ [e])))
        as (new&H1&H2&H3&H4&H5&H6).
      { cbn [b_seen]. rewrite <- Ed. by apply dwf_dset. }
      cbn [b_seen b_queue b_edges] in *. exists ((other_end cur e, d + 1) :: new).
      rewrite <- app_assoc in *. cbn [app] in *. split_and!; try done.
      * intros x [->|Hx]%elem_of_cons; [split; [done|]; exists e; set_solver|].
        destruct (H5 x Hx) as (?&e'&?&?). split; [done|]. exists e'. set_solver.
      * intros e' [->|He']%elem_of_cons; [|by apply H6]. rewrite fmap_app. set_solver.
Qed.

(** The state of the search after expanding [A]. *)
Definition bfs_inv (A B : list (string * Z)) (s : bfs) : Prop :=
  b_seen s = A ++ B /\ b_queue s = B.*1 /\ levels A B /\
  forall e, e ∈ b_edges s <-> exists k d, (k, d) ∈ A /\ d < D /\ e ∈ incident scan g relation k.

Lemma bfs_step A cur d B s :
  bfs_inv A ((cur, d) :: B) s ->
  exists B', bfs_inv (A ++ [(cur, d)]) B'
    (if D <=? d then Bfs (b_seen s) B.*1 (b_edges s)
     else fold_left (bfs_edge cur d) (incident scan g relation cur) (Bfs (b_seen s) B.*1 (b_edges s))).
Proof.
  intros (Hs&_&HL&He). destruct (D <=? d) eqn:E; bool_prop.
  - exists B. split_and!; cbn; [by rewrite Hs, <- app_assoc|done|by apply levels_skip|].
    intros e. rewrite He. split; intros (k&d'&Hk&Hd&Hin); exists k, d'; [set_solver|].
    apply elem_of_app in Hk as [Hk|[= -> ->]%list_elem_of_singleton]; [done|lia].
  - destruct (bfs_fold cur d (incident scan g relation cur) (Bfs (b_seen s) B.*1 (b_edges s))) as (new&H1&H2&H3&H4&H5&H6).
    { cbn. rewrite Hs. apply HL. }
    cbn [b_seen b_queue b_edges] in *. rewrite Hs, <- app_assoc in H4, H6. cbn [app] in H4, H6.
    exists (B ++ new). split_and!.
    + by rewrite H1, Hs, <- !app_assoc.
    + by rewrite H2, fmap_app.
    + apply levels_expand; try done.
    + intros e. rewrite H3, elem_of_app, He. split.
      * intros [(k&d'&Hk&Hd&Hin)|Hin]; [exists k, d'; set_solver|]. exists cur, d. split; [set_solver|]. split; [lia|done].
      * intros (k&d'&[Hk|[= -> ->]%list_elem_of_singleton]%elem_of_app&Hd&Hin); [left; by exists k, d'|by right].
Qed.

Lemma bfs_loop_levels fuel A B s :
  bfs_inv A B s -> (1 + 2 * length (edges g) < length A + fuel)%nat ->
  exists s' L, bfs_loop scan fuel g relation D s = Some s' /\ bfs_inv L [] s'.
Proof.
  revert A B s. induction fuel as [|fuel IH]; intros A B s Hinv Hf.
  - exfalso. destruct Hinv as (_&_&HL&_). apply levels_size in HL. rewrite length_app in HL. lia.
  - cbn [bfs_loop]. destruct B as [|[cur d] B].
    + destruct Hinv as (Hs&Hq&HL&He). rewrite Hq. by exists s, A.
    + destruct (bfs_step A cur d B s Hinv) as [B' Hinv']. destruct Hinv as (Hs&Hq&HL&He). rewrite Hq. cbn [fmap list_fmap fst].
      assert (Hd : dget cur (b_seen s) = Some d).
      { rewrite Hs. apply dget_wf; [apply HL|set_solver]. }
      rewrite Hd. cbn [default]. eapply IH; [exact Hinv'|]. rewrite length_app. cbn. lia.
Qed.

(** The search from [start] knows exactly the nodes within [D], each with its distance. *)
Lemma bfs_exact :
  exists s, bfs_loop scan (bfs_fuel g) g relation D (Bfs [(start, 0)] [start] []) = Some s /\
    NoDup (dkeys (b_seen s)) /\ (forall k, k ∈ dkeys (b_seen s) -> k ∈ start :: ends) /\
    (forall k d, dget k (b_seen s) = Some d <-> distance g relation start k d /\ d <= D) /\
    (forall e, e ∈ b_edges s <-> e ∈ edges g /\ relation_ok relation e = true /\
       exists k d, touches k e = true /\ dget k (b_seen s) = Some d /\ d < D).
Proof.
  destruct (bfs_loop_levels (bfs_fuel g) [] [(start, 0)] (Bfs [(start, 0)] [start] [])) as (s&L&Hloop&Hs&_&HL&He).
  { split_and!; [done|done|apply levels_start|]. intros e. cbn. set_solver. }
  { unfold bfs_fuel. cbn. lia. }
  rewrite app_nil_r in Hs. exists s. split; [exact Hloop|]. rewrite Hs.
  pose proof HL as [Hnd Hends Hwalk _ _ _ _]. rewrite app_nil_r in Hnd, Hends, Hwalk.
  split; [done|]. split; [done|]. split.
  - intros k d. split.
    + intros Hk%dget_some_in. split; [apply (levels_distance L [] k d HL); by rewrite app_nil_r|].
      by destruct (Hwalk k d Hk) as [[_ ?] _].
    + intros [(Hd0&Hw&Hmin) Hd]. destruct (levels_complete L [] (Z.to_nat d) k HL Hw) as (d'&Hin&Hle); [lia|done|].
      rewrite app_nil_r in Hin. destruct (Hwalk k d' Hin) as [Hd' Hw'%Hmin]. assert (d = d') as -> by lia. by apply dget_wf.
  - intros e. rewrite He. split.
    + intros (k&d&Hk&Hd&Hin). apply elem_of_incident in Hin as (H1&H2&H3). split; [done|]. split; [done|].
      exists k, d. split; [done|]. split; [by apply dget_wf|done].
    + intros (H1&H2&k&d&Ht&Hk&Hd). exists k, d. split; [by apply dget_some_in|]. split; [done|]. by apply elem_of_incident.
Qed.
(** ** The search of a shortest path *)

(** A walk with its nodes and edges. *)
Inductive path : string -> list string -> list edge -> Prop :=
  | path_nil : path start [start] []
  | path_snoc y ks es e :
      path y ks es -> e ∈ edges g -> relation_ok relation e = true -> touches y e = true ->
      path (other_end y e) (ks ++ [other_end y e]) (es ++ [e]).

(** Every known node but the first hangs on one of the level above. *)
Definition tree (A B : list (string * Z)) (prev : dict (option (string * edge))) : Prop :=
  forall k v, dget k prev = Some v ->
    match v with
    | None => k = start
    | Some (p, e) => k = other_end p e /\ e ∈ incident scan g relation p /\
                     exists d, (p, d) ∈ A /\ (k, d + 1) ∈ A ++ B
    end.

Definition path_inv (A B : list (string * Z)) (s : path_state) : Prop :=
  dkeys (p_prev s) = (A ++ B).*1 /\ p_queue s = B.*1 /\ levels A B /\ tree A B (p_prev s).

Lemma tree_parent A B prev k d :
  levels A B -> dkeys prev = (A ++ B).*1 -> tree A B prev -> (k, d) ∈ A ++ B ->
  (d = 0 /\ k = start /\ dget k prev = Some None) \/
  exists p e, dget k prev = Some (Some (p, e)) /\ k = other_end p e /\ e ∈ incident scan g relation p /\
    0 < d /\ (p, d - 1) ∈ A ++ B.
Proof.
  intros HL Hk Ht Hin. assert (Hkey : k ∈ dkeys prev) by (rewrite Hk; apply list_elem_of_fmap; by exists (k, d)).
  apply dget_in_keys in Hkey as [v Hv]. pose proof (Ht k v Hv) as Hp. destruct v as [[p e]|].
  - right. destruct Hp as (Hko&He&d'&Hpd&Hkd). exists p, e. split; [done|]. split; [done|]. split; [done|].
    rewrite (levels_fun A B k d (d' + 1) HL Hin Hkd).
    assert (Hpd' : (p, d') ∈ A ++ B) by (apply elem_of_app; by left).
    destruct (lv_walk _ _ HL p d' Hpd') as [Hd' _]. split; [lia|]. by replace (d' + 1 - 1) with d' by lia.
  - left. subst k. rewrite (levels_fun A B start d 0 HL Hin (lv_start _ _ HL)). done.
Qed.

(** A node of level [d] has [d] distinct nodes above it. *)
Lemma tree_above A B prev n k d :
  levels A B -> dkeys prev = (A ++ B).*1 -> tree A B prev -> (k, d) ∈ A ++ B -> Z.of_nat n = d ->
  exists l, length l = n /\ NoDup l /\ forall x, x ∈ l -> exists dx, (x, dx) ∈ A ++ B /\ dx < d.
Proof.
  intros HL Hk Ht. revert k d. induction n as [|n IH]; intros k d Hin Hn.
  - exists []. split; [done|]. split; [constructor|]. set_solver.
  - destruct (tree_parent A B prev k d HL Hk Ht Hin) as [(?&_)|(p&e&_&_&_&_&Hp)]; [lia|].
    destruct (IH p (d - 1) Hp) as (l&Hl&Hnd&Hall); [lia|]. exists (p :: l). split; [cbn; lia|]. split.
    + apply NoDup_cons. split; [|done]. intros Hpl. destruct (Hall p Hpl) as (dx&Hdx&Hlt).
      rewrite (levels_fun A B p dx (d - 1) HL Hdx Hp) in Hlt. lia.
    + intros x [->|Hx]%elem_of_cons; [exists (d - 1); split; [done|lia]|].
      destruct (Hall x Hx) as (dx&Hdx&Hlt). exists dx. split; [done|lia].
Qed.

Lemma tree_depth A B prev k d :
  levels A B -> dkeys prev = (A ++ B).*1 -> tree A B prev -> (k, d) ∈ A ++ B -> d < Z.of_nat (length prev).
Proof.
  intros HL Hk Ht Hin. destruct (lv_walk _ _ HL k d Hin) as [Hd _].
  destruct (tree_above A B prev (Z.to_nat d) k d HL Hk Ht Hin) as (l&Hl&Hnd&Hall); [lia|].
  assert (H : (length (k :: l) <= length (dkeys prev))%nat).
  { apply NoDup_length_le.
    - apply NoDup_cons. split; [|done]. intros Hkl. destruct (Hall k Hkl) as (dx&Hdx&Hlt).
      rewrite (levels_fun A B k dx d HL Hdx Hin) in Hlt. lia.
    - intros x [->|Hx]%elem_of_cons; rewrite Hk; apply list_elem_of_fmap; [by exists (k, d)|].
      destruct (Hall x Hx) as (dx&Hdx&_). by exists (x, dx). }
  unfold dkeys in H. rewrite length_fmap in H. cbn in H. lia.
Qed.

Lemma chain_from_ok A B prev fuel k d :
  levels A B -> dkeys prev = (A ++ B).*1 -> tree A B prev -> (k, d) ∈ A ++ B -> d < Z.of_nat fuel ->
  exists ks es, chain_from fuel prev k = Some (ks, es) /\ Z.of_nat (length es) = d /\ path k ks es.
Proof.
  intros HL Hk Ht. revert k d. induction fuel as [|fuel IH]; intros k d Hin Hf.
  - destruct (lv_walk _ _ HL k d Hin). lia.
  - cbn [chain_from]. destruct (tree_parent A B prev k d HL Hk Ht Hin) as [(->&->&->)|(p&e&->&Hko&He&Hd&Hp)].
    + exists [start], []. split; [done|]. split; [done|]. constructor.
    + destruct (IH p (d - 1) Hp) as (ks&es&->&Hlen&Hpath); [lia|]. exists (ks ++ [k]), (es ++ [e]).
      split; [done|]. split; [rewrite length_app; cbn; lia|]. rewrite Hko.
      apply elem_of_incident in He as (H1&H2&H3). by constructor.
Qed.

Lemma chain_to_ok A B s k d :
  path_inv A B s -> (k, d) ∈ A ++ B ->
  exists ks es, chain_to (p_prev s) k = Some (ks, es) /\ Z.of_nat (length es) = d /\ path k ks es.
Proof.
  intros (Hk&_&HL&Ht) Hin. apply (chain_from_ok A B); try done. pose proof (tree_depth A B _ k d HL Hk Ht Hin). lia.
Qed.

Lemma path_fold cur es s :
  NoDup (dkeys (p_prev s)) -> exists new,
    p_prev (fold_left (path_edge cur) es s) = p_prev s ++ new /\
    p_queue (fold_left (path_edge cur) es s) = p_queue s ++ new.*1 /\
    NoDup (p_prev s ++ new).*1 /\
    (forall x, x ∈ new -> exists e, e ∈ es /\ x = (other_end cur e, Some (cur, e))) /\
    (forall e, e ∈ es -> other_end cur e ∈ (p_prev s ++ new).*1).
Proof.
  revert s. induction es as [|e es IH]; intros s Hn; cbn [fold_left].
  - exists []. rewrite !app_nil_r. split_and!; try done; set_solver.
  - destruct (dmem (other_end cur e) (p_prev s)) eqn:E.
    + assert (Hs : path_edge cur s e = s) by (unfold path_edge; by rewrite E).
      rewrite Hs. destruct (IH s Hn) as (new&H1&H2&H3&H4&H5). exists new. split_and!; try done.
      * intros x Hx. destruct (H4 x Hx) as (e'&?&?). exists e'. set_solver.
      * intros e' [->|He']%elem_of_cons; [|by apply H5]. rewrite fmap_app. apply elem_of_app. left.
        unfold dmem in E. destruct (dget _ (p_prev s)) eqn:E'; [|done]. by eapply dget_some_key.
    + assert (Hk : other_end cur e ∉ dkeys (p_prev s)).
      { apply dget_none. unfold dmem in E. by destruct (dget _ _). }
      set (x := (other_end cur e, Some (cur, e))).
      assert (Ed : dset (other_end cur e) (Some (cur, e)) (p_prev s) = p_prev s ++ [x]) by (by apply dkeys_dset_notin).
      assert (Hs : path_edge cur s e = PathState (p_prev s ++ [x]) (p_queue s ++ [other_end cur e]))
        by (unfold path_edge; by rewrite E, Ed).
      rewrite Hs. destruct (IH (PathState (p_prev s ++ [x]) (p_queue s ++ [other_end cur e]))) as (new&H1&H2&H3&H4&H5).
      { cbn [p_prev]. rewrite <- Ed. by apply dwf_dset. }
      cbn [p_prev p_queue] in *. exists (x :: new).
      rewrite <- app_assoc in *. cbn [app] in *. split_and!; try done.
      * intros y [->|Hx]%elem_of_cons; [exists e; set_solver|].
        destruct (H4 y Hx) as (e'&?&?). exists e'. set_solver.
      * intros e' [->|He']%elem_of_cons; [|by apply H5]. rewrite fmap_app. set_solver.
Qed.

Lemma path_step A cur d B s :
  path_inv A ((cur, d) :: B) s ->
  exists B', path_inv (A ++ [(cur, d)]) B'
    (if D <=? d then PathState (p_prev s) B.*1
     else fold_left (path_edge cur) (incident scan g relation cur) (PathState (p_prev s) B.*1)).
Proof.
  intros (Hs&_&HL&Ht).
  assert (Hgrow : forall new k v, dget k (p_prev s) = Some v ->
    match v with
    | None => k = start
    | Some (p, e) => k = other_end p e /\ e ∈ incident scan g relation p /\
                     exists d0, (p, d0) ∈ A ++ [(cur, d)] /\ (k, d0 + 1) ∈ (A ++ [(cur, d)]) ++ B ++ new
    end).
  { intros new k v Hv. specialize (Ht k v Hv). destruct v as [[p e]|]; [|done]. destruct Ht as (H1&H2&d'&H3&H4).
    split; [done|]. split; [done|]. exists d'. set_solver. }
  destruct (D <=? d) eqn:E; bool_prop.
  - exists B. split_and!; cbn; [by rewrite Hs, <- app_assoc|done|by apply levels_skip|].
    intros k v Hv. specialize (Hgrow [] k v Hv). by rewrite app_nil_r in Hgrow.
  - destruct (path_fold cur (incident scan g relation cur) (PathState (p_prev s) B.*1)) as (newp&H1&H2&H3&H4&H5).
    { cbn. unfold dkeys in *. rewrite Hs. apply HL. }
    cbn [p_prev p_queue] in *. set (new := (fun kv => (fst kv, d + 1)) <$> newp).
    assert (Hnew : new.*1 = newp.*1) by (unfold new; rewrite <- list_fmap_compose; by apply list_fmap_ext).
    assert (Hkeys : (p_prev s ++ newp).*1 = (A ++ (cur, d) :: B ++ new).*1).
    { rewrite fmap_app. unfold dkeys in Hs. rewrite Hs, !fmap_app, !fmap_cons, fmap_app, Hnew. by rewrite <- app_assoc. }
    exists (B ++ new). split_and!.
    + rewrite H1. unfold dkeys. rewrite Hkeys. by rewrite <- app_assoc.
    + by rewrite H2, fmap_app, Hnew.
    + apply levels_expand; try done.
      * intros x (kv&->&Hkv)%list_elem_of_fmap. cbn. split; [done|]. destruct (H4 kv Hkv) as (e&He&->). by exists e.
      * by rewrite <- Hkeys.
      * intros e He. rewrite <- Hkeys. by apply H5.
    + rewrite H1. intros k v Hv. destruct (dget k (p_prev s)) as [v'|] eqn:Ev.
      * assert (v = v') as ->; [|by apply Hgrow].
        apply dget_some_in in Ev. assert (Hin : (k, v') ∈ p_prev s ++ newp) by set_solver.
        pose proof (dget_wf k v' _ H3 Hin) as Hv'. congruence.
      * apply dget_some_in in Hv. apply dget_none in Ev. apply elem_of_app in Hv as [Hv|Hv].
        { exfalso. apply Ev, list_elem_of_fmap. by exists (k, v). }
        destruct (H4 _ Hv) as (e&He&[= -> ->]). split; [done|]. split; [done|]. exists d. split; [set_solver|].
        apply elem_of_app. right. apply elem_of_app. right. apply list_elem_of_fmap. by exists (other_end cur e, Some (cur, e)).
Qed.

End search.

Lemma find_has_node k g : has_node k g = true -> exists n, find_node k g = Some n.
Proof.
  unfold has_node, find_node. intros H. apply existsb_exists in H as (n&Hn&Hk).
  destruct (List.find _ (nodes g)) as [m|] eqn:E; [by exists m|]. by rewrite (List.find_none _ _ E n Hn) in Hk.
Qed.

Lemma ends_have_nodes g k : graph_ok g -> k ∈ ends g -> has_node k g = true.
Proof.
  intros Hg Hk. apply list_elem_of_In, in_flat_map in Hk as (e&He&Hk). apply list_elem_of_In in He.
  destruct (ok_edges g Hg e He) as (H1&H2&_). by destruct Hk as [<-|[<-|[]]].
Qed.

Lemma resolve_has_node v g k : resolve_node v g = Ok k -> has_node k g = true.
Proof.
  unfold resolve_node. destruct (has_node v g) eqn:E; [by intros [= <-]|].
  destruct (take 3 _) as [|k' [|? ?]] eqn:Et; try done. intros [= <-]. apply has_node_in.
  assert (Hin : k' ∈ take 3 (py_sorted id (List.filter (fun k => sql_like k (v +:+ "%")) (n_key <$> nodes g))))
    by (rewrite Et; by left).
  apply elem_of_take in Hin as (i&Hi&_). apply list_elem_of_lookup_2 in Hi. apply elem_of_py_sorted in Hi.
  by apply list_elem_of_In, List.filter_In in Hi as [Hi%list_elem_of_In _].
Qed.

(** The related command always answers, on every graph, whatever the order in which SQLite
    returns rows.  Its search knows exactly the nodes within the depth, each with its distance (the
    length of a shortest walk along edges of the relation), and reports exactly the edges at the
    nodes nearer than the depth.  It prints one row for each of the nodes. *)
Theorem related_graph_exact (scan : list edge -> list edge) (scan_perm : forall l, scan l ≡ₚ l)
    (g : graph) (ref start : string) (depth : Z) (relation : option string) :
  graph_ok g -> resolve_node ref g = Ok start -> 0 <= depth ->
  exists s rows doc,
    related_nodes scan g start depth relation = Some s /\
    related_graph scan ref depth relation g = Some (Ok (obj doc)) /\
    dget "nodes" doc = Some (VList rows) /\ length rows = length (b_seen s) /\
    (forall k d, dget k (b_seen s) = Some d <-> distance g (given relation) start k d /\ d <= depth) /\
    (forall e, e ∈ b_edges s <-> e ∈ edges g /\ relation_ok (given relation) e = true /\
       exists k d, touches k e = true /\ dget k (b_seen s) = Some d /\ d < depth).
Proof.
  intros Hg Href Hd. pose proof (resolve_has_node _ _ _ Href) as Hstart.
  destruct (bfs_exact scan scan_perm g (given relation) start depth Hd) as (s&Hs&Hn&Hends&Hk&He).
  destruct (res_map_Forall2 (fun _ _ => True)
    (fun kd => row ← fetch_node g (fst kd); Ok (obj (row ++ [("depth", VInt (snd kd))])))
    (py_sorted (fun kd => (snd kd, fst kd)) (b_seen s))) as (rows&Hrows&HF).
  { intros [k d] Hin. apply elem_of_py_sorted in Hin. assert (Hnode : has_node k g = true).
    { assert (Hk' : k ∈ dkeys (b_seen s)) by (apply list_elem_of_fmap; by exists (k, d)).
      apply Hends in Hk' as [->|Hk']%elem_of_cons; [done|by apply ends_have_nodes]. }
    destruct (find_has_node k g Hnode) as [n Hf]. unfold fetch_node. cbn [fst snd]. rewrite Hf. by eexists. }
  exists s, rows. eexists. split; [exact Hs|]. split.
  { unfold related_graph. rewrite Href. unfold related_nodes. rewrite Hs, Hrows. reflexivity. }
  split; [reflexivity|]. split; [|done]. apply Forall2_length in HF. by rewrite <- HF, length_py_sorted.
Qed.

Section shortest.
Context (scan : list edge -> list edge) (scan_perm : forall l, scan l ≡ₚ l).
Context (g : graph) (src dst : string) (D : Z) (HD : 0 <= D).

Lemma path_loop_levels fuel A B s :
  path_inv scan g None src D A B s -> (1 + 2 * length (edges g) < length A + fuel)%nat ->
  exists s' A' B', path_loop scan fuel g dst D s = Some s' /\ path_inv scan g None src D A' B' s' /\
    (dmem dst (p_prev s') = true \/ B' = []).
Proof.
  revert A B s. induction fuel as [|fuel IH]; intros A B s Hinv Hf.
  - exfalso. destruct Hinv as (_&_&HL&_). apply levels_size in HL; [|done..]. rewrite length_app in HL. lia.
  - cbn [path_loop]. destruct B as [|[cur d] B].
    + assert (Hq : p_queue s = []) by apply Hinv. rewrite Hq. exists s, A, []. auto.
    + assert (Hq : p_queue s = cur :: B.*1) by apply Hinv. rewrite Hq.
      destruct (dmem dst (p_prev s)) eqn:Edst; [by exists s, A, ((cur, d) :: B); auto|].
      destruct (chain_to_ok scan scan_perm g None src D HD A ((cur, d) :: B) s cur d Hinv) as (ks&es&->&Hlen&_); [set_solver|].
      rewrite Hlen. destruct (path_step scan scan_perm g None src D HD A cur d B s Hinv) as [B' Hinv'].
      eapply IH; [exact Hinv'|]. rewrite length_app. cbn. lia.
Qed.

Lemma find_path_exact :
  match find_path scan g src dst D with
  | Some (Some (ks, es)) =>
      path g None src dst ks es /\ distance g None src dst (Z.of_nat (length es)) /\ Z.of_nat (length es) <= D
  | Some None => forall n, walk g None n src dst -> D < Z.of_nat n
  | None => False
  end.
Proof.
  destruct (path_loop_levels (bfs_fuel g) [] [(src, 0)] (PathState [(src, None)] [src])) as (s&A&B&Hloop&Hinv&Hend).
  { split_and!; [done|done|by apply levels_start|]. intros k v Hv. cbn in Hv.
    destruct (String.eqb_spec k src) as [->|]; by simplify_eq. }
  { unfold bfs_fuel. cbn. lia. }
  unfold find_path. rewrite Hloop. destruct (dmem dst (p_prev s)) eqn:E.
  - unfold dmem in E. destruct (dget dst (p_prev s)) as [v|] eqn:Ev; [|done]. apply dget_some_key in Ev.
    assert (Hk : dkeys (p_prev s) = (A ++ B).*1) by apply Hinv. rewrite Hk in Ev.
    apply list_elem_of_fmap in Ev as ([k d]&Hkd&Hin). cbn in Hkd. subst k.
    destruct (chain_to_ok scan scan_perm g None src D HD A B s dst d Hinv Hin) as (ks&es&->&Hlen&Hpath).
    split; [done|]. rewrite Hlen. assert (HL : levels scan g None src D A B) by apply Hinv.
    split; [by apply (levels_distance scan scan_perm g None src D HD A B)|].
    by destruct (lv_walk _ _ _ _ _ _ _ HL dst d Hin) as [[_ ?] _].
  - destruct Hend as [?| ->]; [done|]. intros n Hw. destruct (Z.le_gt_cases (Z.of_nat n) D) as [Hle|]; [|lia]. exfalso.
    assert (HL : levels scan g None src D A []) by apply Hinv.
    destruct (levels_complete scan scan_perm g None src D HD A [] n dst HL Hw Hle) as (d&Hin&_); [done|].
    unfold dmem in E. destruct (dget dst (p_prev s)) eqn:Ev; [done|]. apply dget_none in Ev. apply Ev.
    replace (dkeys (p_prev s)) with ((A ++ []).*1) by (symmetry; apply Hinv). apply list_elem_of_fmap. by exists (dst, d).
Qed.
End shortest.

Lemma path_nodes_exist g src dst ks es :
  graph_ok g -> has_node src g = true -> path g None src dst ks es -> forall k, k ∈ ks -> has_node k g = true.
Proof.
  intros Hg Hs. induction 1 as [|y ks es e Hp IH He _ _]; intros k.
  - by intros ->%list_elem_of_singleton.
  - intros [Hk| ->%list_elem_of_singleton]%elem_of_app; [by apply IH|]. by apply ends_have_nodes, other_end_in.
Qed.

(** C29: The path command always answers, on every graph, whatever the order in which SQLite returns
    rows.  A path is found exactly when some walk of at most the maximal depth joins the nodes; the
    printed nodes and edges are then such a walk, and none is shorter. *)
Theorem shortest_path_exact (scan : list edge -> list edge) (scan_perm : forall l, scan l ≡ₚ l)
    (g : graph) (src_ref dst_ref src dst : string) (max_depth : Z) :
  graph_ok g -> resolve_node src_ref g = Ok src -> resolve_node dst_ref g = Ok dst -> 0 <= max_depth ->
  exists doc, shortest_path scan src_ref dst_ref max_depth g = Some (Ok (obj doc)) /\
    match find_path scan g src dst max_depth with
    | Some (Some (ks, es)) =>
        dget "found" doc = Some (VBool true) /\ dget "edges" doc = Some (VList (edge_json <$> es)) /\
        path g None src dst ks es /\ distance g None src dst (Z.of_nat (length es)) /\ Z.of_nat (length es) <= max_depth
    | Some None => dget "found" doc = Some (VBool false) /\ forall n, walk g None n src dst -> max_depth < Z.of_nat n
    | None => False
    end.
Proof.
  intros Hg Hsrc Hdst HD. pose proof (find_path_exact scan scan_perm g src dst max_depth HD) as H.
  unfold shortest_path. rewrite Hsrc, Hdst. destruct (find_path scan g src dst max_depth) as [[[ks es]|]|]; [| |done].
  - destruct H as (Hp&Hd&Hle).
    destruct (res_map_Forall2 (fun _ _ => True) (fetch_node g) ks) as (rows&->&_).
    { intros k Hk. pose proof (path_nodes_exist g src dst ks es Hg (resolve_has_node _ _ _ Hsrc) Hp k Hk) as Hn.
      destruct (find_has_node k g Hn) as [n Hf]. unfold fetch_node. rewrite Hf. by eexists. }
    by eexists.
  - by eexists.
Qed.

Definition sample_graph : graph := snd (ingest_paths sample_inputs None empty_graph).
Definition sample_target : string := "target:00112233445566778899aabbccddeeff00112233445566778899aabbccddeeff".
Definition sample_f : string := "function:00112233445566778899aabbccddeeff00112233445566778899aabbccddeeff:f".
Definition sample_main : string := "function:00112233445566778899aabbccddeeff00112233445566778899aabbccddeeff:main".

Lemma sample_graph_ok : graph_ok sample_graph.
Proof. apply keeps_ingest_paths, empty_graph_ok. Qed.

Lemma shortest_path_exact_witness :
  find_path (fun l => l) sample_graph sample_main sample_f 8 =
    Some (Some ([sample_main; sample_f], [Edge sample_main sample_f "observed-call" (sha256_hex (canonical sample_doc))
      [("site", VNone); ("target", VNone); ("count", VInt 2)]])) /\
  exists doc, shortest_path (fun l => l) sample_main sample_f 8 sample_graph = Some (Ok (obj doc)) /\
    match find_path (fun l => l) sample_graph sample_main sample_f 8 with
    | Some (Some (ks, es)) =>
        dget "found" doc = Some (VBool true) /\ dget "edges" doc = Some (VList (edge_json <$> es)) /\
        path sample_graph None sample_main sample_f ks es /\
        distance sample_graph None sample_main sample_f (Z.of_nat (length es)) /\ Z.of_nat (length es) <= 8
    | Some None => dget "found" doc = Some (VBool false) /\
        forall n, walk sample_graph None n sample_main sample_f -> 8 < Z.of_nat n
    | None => False
    end.
Proof.
  split; [vm_compute; reflexivity|].
  refine (shortest_path_exact (fun l => l) (fun l => Permutation_refl l) sample_graph sample_main sample_f sample_main sample_f 8
            sample_graph_ok _ _ _); [vm_compute; reflexivity|vm_compute; reflexivity|discriminate].
Defined.

Lemma related_graph_exact_witness :
  exists s rows doc,
    related_nodes (fun l => l) sample_graph sample_target 1 None = Some s /\
    related_graph (fun l => l) sample_target 1 None sample_graph = Some (Ok (obj doc)) /\
    dget "nodes" doc = Some (VList rows) /\ length rows = length (b_seen s) /\
    (forall k d, dget k (b_seen s) = Some d <-> distance sample_graph (given None) sample_target k d /\ d <= 1) /\
    (forall e, e ∈ b_edges s <-> e ∈ edges sample_graph /\ relation_ok (given None) e = true /\
       exists k d, touches k e = true /\ dget k (b_seen s) = Some d /\ d < 1).
Proof.
  refine (related_graph_exact (fun l => l) (fun l => Permutation_refl l) sample_graph sample_target sample_target 1 None
            sample_graph_ok _ _); [vm_compute; reflexivity|discriminate].
Defined.
