(* ===== verification/Jobs.v ===== *)
(** * Job batches: what the orchestrator and the fleet share

    Job files, inputs and their fingerprints, names of result files, reusable records
    ([ppc_lab_orchestrate.py], [ppc_lab_fleet.py]).  The file system is the record [fs]. *)
From stdpp Require Import pretty.
From Stdlib Require Import Ascii.
From S2P Require Export PyState JsonParse Sha.

Abbreviation obj := VDict.

Definition JOB_SCHEMA : string := "ppc-lab-job-v1".
Definition WORKER_RESPONSE_SCHEMA : string := "ppc-lab-worker-response-v1".

Definition _safe_name (value : string) : string :=
  let dots c := Ascii.eqb c "."%char || Ascii.eqb c "_"%char in
  let text := str_rstrip dots (str_lstrip dots
    (str_map (fun c => if is_alnum c || Ascii.eqb c "-"%char || Ascii.eqb c "_"%char || Ascii.eqb c "."%char then c else "_"%char) value)) in
  let text := prefix_of 120 text in
  if str_empty text then "job" else text.

Definition _canonical (v : value) : string := json_raw (sort_keys v).

(** The file a path names, resolved. *)
Inductive lookup := Missing (path : string) | NotFile (path : string) | File (path : string).
Record fs := Fs {
  f_lookup : string -> string -> lookup;   (** base directory, path *)
  f_json : string -> res value;
  f_parent : string -> string;
  f_stem : string -> string;
  f_stat : string -> Z * string;           (** size and SHA-256 of the content *)
  f_under : string -> string -> bool       (** path, directory *)
}.

Record JobSpec := Spec {
  index : Z; name : string; job : dict value; base_dir : string; source : string; required_tags : list string }.

Section files.
Context (sys : fs).

Definition _resolve_existing_file (v : value) (base field : string) : res string :=
  match v with
  | VStr s =>
      if str_empty s then app_error (field +:+ " must be a non-empty path string")
      else match f_lookup sys base s with
           | Missing p => app_error (field +:+ " does not exist: " +:+ p)
           | NotFile p => app_error (field +:+ " is not a file: " +:+ p)
           | File p => Ok p
           end
  | _ => app_error (field +:+ " must be a non-empty path string")
  end.

(** [jobs[i]] and [hosts[i]] in messages. *)
Definition at_index (what : string) (i : Z) : string := what +:+ "[" +:+ pretty i +:+ "]".
Definition default_id (i : Z) : string := "job-" +:+ zpad 4 i.

(** The fields of an object that are not allowed. *)
Definition extra_fields (allowed : list string) (item : dict value) : list string :=
  List.filter (fun k => negb (existsb (String.eqb k) allowed)) (dkeys item).
Definition check_fields (what : string) (i : Z) (allowed : list string) (item : dict value) : res unit :=
  let extra := extra_fields allowed item in
  guard_app (Nat.eqb (length extra) 0) (at_index what i +:+ " has unknown fields: " +:+ str_join ", " (py_sorted id extra)).

(** The job of an entry: its document, its base directory, its source and its default name. *)
Definition job_source (parent : string) (i : Z) (item : dict value) : res (value * string * string * string) :=
  match dget "path" item with
  | Some p =>
      path ← _resolve_existing_file p parent (at_index "jobs" i +:+ ".path");
      match f_json sys path with
      | Ok job => Ok (job, f_parent sys path, path, f_stem sys path)
      | Raise e => app_error ("cannot read job " +:+ path +:+ ": " +:+ exn_msg e)
      end
  | None =>
      let job := dget_n "job" item in
      Ok (job, parent, "inline",
          match job with VDict d => py_str (dget_or "id" (VStr (default_id i)) d) | _ => default_id i end)
  end.

(** ** Fingerprints *)

Record input := Input { in_field : string; in_path : string; in_logical : value; in_size : Z; in_sha : string }.

(** The inputs of a job: its image and the data file next to it. *)
Definition job_inputs (outside : string) (root : option string) (spec : JobSpec) : res (list input) :=
  match dget_n "image" (job spec) with
  | VDict image =>
      let fields := ("image.path", dget_n "path" image) ::
        match dget_n "data_path" image with VNone => [] | v => [("image.data_path", v)] end in
      res_map (fun fv =>
        let what := "job " +:+ name spec +:+ " " +:+ fst fv in
        path ← _resolve_existing_file (snd fv) (base_dir spec) what;
        _ ← guard_app (match root with Some r => f_under sys path r | None => true end)
              (what +:+ " is outside " +:+ outside +:+ ": " +:+ path);
        Ok (Input (fst fv) path (snd fv) (fst (f_stat sys path)) (snd (f_stat sys path)))) fields
  | _ => app_error ("job " +:+ name spec +:+ ": image must be an object")
  end.
End files.

Definition portable_inputs (inputs : list input) : value :=
  obj ((fun i => (in_field i, obj [("logical_path", in_logical i); ("size", VInt (in_size i)); ("sha256", VStr (in_sha i))])) <$> inputs).

(** ** Processes *)

(** A finished process: exit code, output, what [json.loads] makes of the output, errors. *)
Record process := Process { exit_code : Z; stdout : string; parsed : res value; stderr : string }.

(** ** Result files *)

(** The files of the result directory and of the cache. *)
Record world := World { out : dict value; cache : dict value }.

Definition result_name (i : Z) (n : string) : string := zpad 4 i +:+ "-" +:+ _safe_name n +:+ ".json".
Definition result_file (spec : JobSpec) : string := result_name (index spec) (name spec).

(** A record that may be reused: the content of a file, if it can be read, has the schema, the cache
    key, and the response of a worker. *)
Definition valid_record (schema key : string) (file : option value) : option (dict value) :=
  match file with
  | Some (VDict d) =>
      if eq_str (dget_n "schema" d) schema && eq_str (dget_n "cache_key" d) key then
        match dget_n "response" d with
        | VDict r => if eq_str (dget_n "schema" r) WORKER_RESPONSE_SCHEMA then Some d else None
        | _ => None
        end
      else None
  | _ => None
  end.

(** The response of a record. *)
Definition response_of (record : dict value) : dict value :=
  match dget_n "response" record with VDict r => r | _ => [] end.

(** ** Arrays that are loaded in order *)

(** A loop that appends one element per entry numbers its elements by their position. *)
Lemma numbered_fold {A B S} (items : S -> list B) (ix : B -> Z) (P : B -> Prop) (f : S -> Z * A -> res S) :
  (forall s ia s', f s ia = Ok s' -> exists b, items s' = items s ++ [b] /\ ix b = fst ia /\ P b) ->
  forall l i s s', res_fold f s (enumerate_from i l) = Ok s' ->
  exists bs, items s' = items s ++ bs /\ ix <$> bs = (fun k => i + Z.of_nat k) <$> seq 0 (length l) /\ Forall P bs.
Proof.
  intros Hf l. induction l as [|x l IH]; intros i s s'.
  - intros [= <-]. exists []. by rewrite app_nil_r.
  - rewrite enumerate_from_cons. cbn [res_fold]. intros H. inv_res.
    match goal with H : f _ _ = Ok _ |- _ => destruct (Hf _ _ _ H) as (b&Hb&Hi&HP) end.
    match goal with H : res_fold _ _ _ = _ |- _ => destruct (IH _ _ _ H) as (bs&->&Hbs&HPs) end.
    exists (b :: bs). rewrite Hb, <- app_assoc. split; [done|]. split; [|by constructor]. cbn. f_equal; [cbn in Hi; lia|].
    rewrite Hbs, <- fmap_S_seq, <- list_fmap_compose. apply list_fmap_ext. intros. cbn. lia.
Qed.

(** [range(n)] *)
Definition range (n : nat) : list Z := Z.of_nat <$> seq 0 n.

Lemma range_NoDup n : NoDup (range n).
Proof. unfold range. apply NoDup_fmap; [intros ???; lia|apply NoDup_seq]. Qed.

Lemma numbered_fold_all {A B S} (items : S -> list B) (ix : B -> Z) (P : B -> Prop) (f : S -> Z * A -> res S) (l : list A) s s' :
  (forall s ia s', f s ia = Ok s' -> exists b, items s' = items s ++ [b] /\ ix b = fst ia /\ P b) ->
  items s = [] -> res_fold f s (enumerate l) = Ok s' -> ix <$> items s' = range (length (items s')) /\ Forall P (items s').
Proof.
  intros Hf Hs H. destruct (numbered_fold items ix P f Hf _ _ _ _ H) as (bs&->&Hi&HP). rewrite Hs. cbn [app].
  split; [|done]. rewrite Hi. assert (Hlen : length bs = length l).
  { apply (f_equal length) in Hi. by rewrite !length_fmap, length_seq in Hi. }
  rewrite Hlen. unfold range. apply list_fmap_ext. intros. lia.
Qed.

(** ** Different jobs have different result files *)

Lemma zpad_digits w n : 0 <= n -> str_forall is_digit (zpad w n) = true.
Proof.
  intros Hn. unfold zpad. rewrite str_forall_app. apply andb_true_iff. split.
  - induction (w - _)%nat as [|k IH]; [done|]. exact IH.
  - by apply pretty_digits.
Qed.

Lemma split_digits (a b s t : string) :
  str_forall is_digit a = true -> str_forall is_digit b = true -> a +:+ "-" +:+ s = b +:+ "-" +:+ t -> a = b.
Proof.
  revert b. induction a as [|c a IH]; intros [|d b] Ha Hb Heq; [done| | |].
  - exfalso. change (String "-" s = String d (b +:+ "-" +:+ t)) in Heq. injection Heq as <- _. done.
  - exfalso. change (String c (a +:+ "-" +:+ s) = String "-" t) in Heq. injection Heq as -> _. done.
  - cbn in Ha, Hb. apply andb_true_iff in Ha as [_ Ha], Hb as [_ Hb].
    change (String c (a +:+ "-" +:+ s) = String d (b +:+ "-" +:+ t)) in Heq. injection Heq as -> Heq.
    f_equal. by apply IH.
Qed.

Lemma result_name_inj i j m n : 0 <= i -> 0 <= j -> result_name i m = result_name j n -> i = j.
Proof.
  intros Hi Hj Heq. unfold result_name in Heq. apply split_digits in Heq; [|by apply zpad_digits..].
  apply (f_equal (fun s => digits_value s 0)) in Heq. unfold zpad in Heq.
  rewrite !digits_value_zeros, !pretty_value in Heq by done. lia.
Qed.

Lemma result_name_not_summary i n : 0 <= i -> result_name i n <> "summary.json".
Proof.
  intros Hi. unfold result_name. pose proof (zpad_digits 4 i Hi) as Hd. destruct (zpad 4 i) as [|c s]; [done|].
  rewrite str_app_cons. intros [-> _]%str_cons_inj. done.
Qed.
