(* ===== verification/Orchestrate.v ===== *)
(** * The parallel orchestrator ([ppc_lab_orchestrate.py])

    A run loads a manifest, fingerprints the inputs of its jobs, reuses the records that the result
    directory and the cache hold for the same key, executes the other jobs in parallel, and writes a
    summary.  The result directory and the cache are dictionaries of the JSON files that can be read;
    the order in which the parallel jobs complete is a parameter. *)
From stdpp Require Import pretty.
From Stdlib Require Import Ascii.
From S2P Require Export Jobs.

Definition MANIFEST_SCHEMA : string := "ppc-lab-orchestration-v1".
Definition JOB_RESULT_SCHEMA : string := "ppc-lab-orchestration-job-result-v1".
Definition SUMMARY_SCHEMA : string := "ppc-lab-orchestration-summary-v1".

(** ** The manifest *)

Section manifest.
Context (sys : fs) (parent : string).

Definition load_job (st : list string * list JobSpec) (ij : Z * value) : res (list string * list JobSpec) :=
  let '(seen, jobs) := st in
  let i := fst ij in
  match snd ij with
  | VDict item =>
      _ ← check_fields "jobs" i ["name"; "job"; "path"] item;
      _ ← guard_app (xorb (dmem "job" item) (dmem "path" item)) (at_index "jobs" i +:+ " must contain exactly one of job or path");
      let explicit := dget_n "name" item in
      _ ← guard_app (is_none explicit || (is_str explicit && py_bool explicit)) (at_index "jobs" i +:+ ".name must be a non-empty string");
      '(job, base, source, default_name) ← job_source sys parent i item;
      match job with
      | VDict job =>
          _ ← guard_app (eq_str (dget_n "schema" job) JOB_SCHEMA) (at_index "jobs" i +:+ " schema must be " +:+ JOB_SCHEMA);
          let name := match explicit with VStr s => s | _ => default_name end in
          _ ← guard_app (negb (existsb (String.eqb name) seen)) ("duplicate job name: " +:+ name);
          Ok (seen ++ [name], jobs ++ [Spec i name job base source []])
      | _ => app_error (at_index "jobs" i +:+ " job must be a JSON object")
      end
  | _ => app_error (at_index "jobs" i +:+ " must be an object")
  end.

(** [manifest["parallelism"]] is a positive integer. *)
Definition parallelism_ok (manifest : dict value) : bool :=
  match dget "parallelism" manifest with
  | None => true
  | Some (VInt n) => 1 <=? n
  | Some _ => false
  end.

Definition _load_manifest (read : res value) : res (dict value * list JobSpec) :=
  match read with
  | Raise e => app_error ("cannot read manifest: " +:+ exn_msg e)
  | Ok v =>
      let bad := app_error ("manifest schema must be " +:+ MANIFEST_SCHEMA) in
      match v with
      | VDict manifest =>
          if negb (eq_str (dget_n "schema" manifest) MANIFEST_SCHEMA) then bad
          else match dget_n "jobs" manifest with
          | VList (x :: l) =>
              _ ← guard_app (parallelism_ok manifest) "manifest.parallelism must be a positive integer";
              '(_, jobs) ← res_fold load_job ([], []) (enumerate (x :: l));
              Ok (manifest, jobs)
          | _ => app_error "manifest.jobs must be a non-empty array"
          end
      | _ => bad
      end
  end.
End manifest.

Definition _input_fingerprints (sys : fs) (root : option string) (spec : JobSpec) : res (list input) :=
  job_inputs sys "orchestration root" root spec.

(** ** The engine and the cache key *)

Definition _engine_identity (proc : process) : res (dict value) :=
  _ ← guard_app (exit_code proc =? 0)
        ("cannot query ppc-lab capabilities: " +:+
         (let e := str_strip (stderr proc) in if str_empty e then str_strip (stdout proc) else e));
  match parsed proc with
  | Raise e => app_error ("invalid ppc-lab capabilities JSON: " +:+ exn_msg e)
  | Ok (VDict caps) =>
      _ ← guard_app (eq_str (dget_n "schema" caps) "ppc-lab-capabilities-v1") "ppc-lab returned an unsupported capabilities document";
      Ok caps
  | Ok _ => app_error "ppc-lab returned an unsupported capabilities document"
  end.

Definition _cache_key (spec : JobSpec) (engine : dict value) (inputs : list input) : string :=
  sha256_hex (_canonical (obj [
    ("protocol", VStr MANIFEST_SCHEMA); ("job", obj (job spec));
    ("engine", obj ((fun k => (k, dget_n k engine)) <$> ["version"; "guest"; "formats"; "backends"]));
    ("inputs", portable_inputs inputs)])).

Definition _valid_record (file : option value) (key : string) : option (dict value) :=
  valid_record JOB_RESULT_SCHEMA key file.

(** What a worker process answers for a job. *)
Definition _run_worker (spec : JobSpec) (proc : process) : value :=
  let response := match parsed proc with
    | Ok v => v
    | Raise e => obj [("schema", VStr WORKER_RESPONSE_SCHEMA); ("id", dget_n "id" (job spec)); ("ok", VBool false);
        ("exit_code", VNone); ("timed_out", VBool false); ("error", VStr ("worker transport failure: " +:+ exn_msg e));
        ("stdout", VStr (stdout proc)); ("stderr", VStr (stderr proc))]
    end in
  match response with
  | VDict r => if negb (str_empty (stderr proc)) && negb (dmem "worker_stderr" r)
               then obj (dset "worker_stderr" (VStr (stderr proc)) r) else response
  | v => v
  end.

(** ** A run *)

Record options := Options {
  opt_resume : bool; opt_cache : bool; opt_no_cache_read : bool; opt_no_cache_write : bool;
  opt_parallel : option Z }.

(** The number of worker threads: the option, the manifest's or the smaller of jobs and processors. *)
Definition parallel (opts : options) (manifest : dict value) (cpu_count : option Z) (jobs : nat) : Z :=
  let cpus := match cpu_count with Some n => if n =? 0 then 1 else n | None => 1 end in
  let default := Z.max 1 (Z.min (Z.of_nat jobs) cpus) in
  let of_manifest := match dget_n "parallelism" manifest with VInt n => if n =? 0 then default else n | _ => default end in
  match opt_parallel opts with Some n => if n =? 0 then of_manifest else n | None => of_manifest end.

(** A job with its inputs and its cache key. *)
Record item := Item { it_spec : JobSpec; it_inputs : list input; it_key : string }.

Definition prepare (sys : fs) (root : option string) (engine : dict value) (spec : JobSpec) : res item :=
  inputs ← _input_fingerprints sys root spec; Ok (Item spec inputs (_cache_key spec engine inputs)).

Definition cache_path (key : string) : string := prefix_of 2 key +:+ "/" +:+ key +:+ ".json".

Record plan := Plan {
  p_records : list (Z * dict value); p_pending : list item; p_resumed : Z; p_hits : Z; p_out : dict value }.

Section run.
Context (opts : options) (engine : dict value).

Definition plan_item (files : dict value) (p : plan) (it : item) : plan :=
  let spec := it_spec it in
  let result_path := result_file spec in
  match (if opt_resume opts then _valid_record (dget result_path (p_out p)) (it_key it) else None) with
  | Some record =>
      Plan (aset (index spec) (dset "reuse" (VStr "resume") record) (p_records p)) (p_pending p) (p_resumed p + 1)
        (p_hits p) (p_out p)
  | None =>
      match (if opt_cache opts && negb (opt_no_cache_read opts)
             then _valid_record (dget (cache_path (it_key it)) files) (it_key it) else None) with
      | Some record =>
          let record := dset "reuse" (VStr "cache") record in
          Plan (aset (index spec) record (p_records p)) (p_pending p) (p_resumed p) (p_hits p + 1)
            (dset result_path (obj record) (p_out p))
      | None => Plan (p_records p) (p_pending p ++ [it]) (p_resumed p) (p_hits p) (p_out p)
      end
  end.

Definition plan_all (w : world) (items : list item) : plan :=
  fold_left (plan_item (cache w)) items (Plan [] [] 0 0 (out w)).

(** What a job's worker process gives, and how long it took. *)
Context (worker : JobSpec -> process) (elapsed : JobSpec -> float).

Definition executed_record (it : item) : dict value :=
  let spec := it_spec it in
  [("schema", VStr JOB_RESULT_SCHEMA); ("name", VStr (name spec)); ("index", VInt (index spec)); ("source", VStr (source spec));
   ("cache_key", VStr (it_key it)); ("engine_version", dget_n "version" engine);
   ("duration_seconds", VFloat (fround (elapsed spec) 6)); ("inputs", portable_inputs (it_inputs it)); ("reuse", VStr "executed");
   ("response", _run_worker spec (worker spec))].

(** [response.get("ok") is True] *)
Definition is_true (v : value) : bool := match v with VBool b => b | _ => false end.
Definition response_ok (response : value) : res bool := ok ← vget "ok" response; Ok (is_true ok).

Definition execute (it : item) : M world (Z * dict value) :=
  let record := executed_record it in
  _ ← modify (fun w => World (dset (result_file (it_spec it)) (obj record) (out w)) (cache w));
  ok ← (if opt_cache opts && negb (opt_no_cache_write opts)
        then lift (response_ok (_run_worker (it_spec it) (worker (it_spec it)))) else mret false);
  _ ← (if ok : bool then modify (fun w => World (out w) (dset (cache_path (it_key it)) (obj record) (cache w))) else mret tt);
  mret (index (it_spec it), record).

(** The order in which the parallel jobs complete. *)
Context (schedule : list item -> list item).

(** Every pending job runs, and [future.result()] raises what its job raised. *)
Definition execute_all (pending : list item) : M world (list (Z * dict value)) := fun w =>
  let '(rs, w) := fold_left (fun rw it => let '(r, w) := execute it (snd rw) in (fst rw ++ [r], w)) (schedule pending) ([], w) in
  (res_map id rs, w).

Definition ordered_records (records : list (Z * dict value)) (n : nat) : res (list (dict value)) :=
  res_map (fun i => match aget i records with Some r => Ok r | None => Raise (Exn KeyError (pretty i)) end) (range n).

(** [record.get("response", {})] *)
Definition record_response (record : dict value) : value := dget_or "response" (obj []) record.
Definition record_ok (record : dict value) : res bool := response_ok (record_response record).

Definition summary_row (record : dict value) : res value :=
  i ← vindex "index" (obj record); n ← vindex "name" (obj record); key ← vindex "cache_key" (obj record);
  ok ← record_ok record; code ← vget "exit_code" (record_response record);
  file ← match i, n with
         | VInt i, VStr n => Ok (result_name i n)
         | VBool b, VStr n => Ok (result_name (Z.b2z b) n)
         | _, _ => Raise (Exn ValueError "Unknown format code 'd'")
         end;
  Ok (obj [("index", i); ("name", n); ("cache_key", key); ("reuse", dget_n "reuse" record); ("ok", VBool ok);
           ("exit_code", code); ("file", VStr file)]).

Definition count_true (l : list bool) : Z := Z.of_nat (length (List.filter id l)).

Record result := Result { r_code : Z; r_summary : dict value; r_records : list (dict value) }.

(** From the prepared jobs to the summary and the exit code.  The summary also names the manifest's
    path, the run's duration and the evidence store. *)
Context (cpu_count : option Z).
Definition run_items (manifest : dict value) (items : list item) : M world result :=
  w ← gets id;
  let p := plan_all w items in
  _ ← modify (fun w => World (p_out p) (cache w));
  done ← execute_all (p_pending p);
  let records := fold_left (fun rs ir => aset (fst ir) (snd ir) rs) done (p_records p) in
  ordered ← lift (ordered_records records (length items));
  oks ← lift (res_map record_ok ordered);
  let failures := count_true (negb <$> oks) in
  let executed := count_true ((fun r => eq_str (dget_n "reuse" r) "executed") <$> ordered) in
  rows ← lift (res_map summary_row ordered);
  let summary := [("schema", VStr SUMMARY_SCHEMA); ("manifest_schema", VStr MANIFEST_SCHEMA); ("id", dget_n "id" manifest);
    ("engine", obj engine); ("parallelism", VInt (parallel opts manifest cpu_count (length items))); ("jobs", VInt (Z.of_nat (length ordered))); ("executed", VInt executed);
    ("resumed", VInt (p_resumed p)); ("cache_hits", VInt (p_hits p)); ("failed", VInt failures); ("results", VList rows)] in
  _ ← modify (fun w => World (dset "summary.json" (obj summary) (out w)) (cache w));
  mret (Result (if failures =? 0 then 0 else 1) summary ordered).

(** The whole command, from the manifest: 2 for the errors of its preparation and for a failed
    publication of the evidence, when a store is given. *)
Definition main (sys : fs) (parent : string) (read : res value) (capabilities : process) (root : option string)
    (evidence : option bool) : M world Z :=
  match ('(manifest, jobs) ← _load_manifest sys parent read; engine ← _engine_identity capabilities;
         items ← res_map (prepare sys root engine) jobs; Ok (manifest, items)) with
  | Raise e => if handled [AppError] e then mret 2 else lift (Raise e)
  | Ok (manifest, items) => r ← run_items manifest items; mret (match evidence with Some false => 2 | _ => r_code r end)
  end.
End run.
