(* ===== verification/OrchestrateProps.v ===== *)
(** * What an orchestrated run computes

    The records of a run do not depend on the order in which its parallel jobs complete, every job
    is accounted for once, and a run that resumes a finished one executes nothing. *)
From stdpp Require Import pretty.
From S2P Require Import Orchestrate.

(** ** The jobs of a manifest *)

Lemma batch_job_spec sys parent st ij st' :
  load_job sys parent st ij = Ok st' -> exists s, snd st' = snd st ++ [s] /\ index s = fst ij /\ True.
Proof.
  destruct st as [seen jobs]. unfold load_job. destruct (snd ij) as [| | | | | |item]; try done.
  intros H. inv_res.
  match goal with x : (value * string * string * string)%type |- _ => destruct x as [[[[] ?] ?] ?] end; try done.
  inv_res. eexists. by split.
Qed.

(** The jobs of a manifest are numbered by their position. *)
Lemma load_manifest_indices sys parent read manifest jobs :
  _load_manifest sys parent read = Ok (manifest, jobs) -> index <$> jobs = range (length jobs).
Proof.
  unfold _load_manifest. destruct read as [[| | | | | |m]|]; try done. case_bool; [done|].
  destruct (dget_n "jobs" m) as [| | | | |[|x l]|]; try done. intros H. inv_res. case_match; subst. inv_res. simplify_eq.
  match goal with H : res_fold _ _ _ = _ |- _ =>
    exact (proj1 (numbered_fold_all snd index (fun _ => True) _ _ ([], []) _ (batch_job_spec sys parent) eq_refl H)) end.
Qed.

Lemma prepare_specs sys root engine jobs items :
  res_map (prepare sys root engine) jobs = Ok items -> it_spec <$> items = jobs.
Proof.
  revert items. induction jobs as [|s jobs IH]; intros items; cbn; [by intros [= <-]|].
  intros H. inv_res. cbn. f_equal; [|by apply IH]. unfold prepare in *. by inv_res.
Qed.

(** ** Dictionaries of records *)

Lemma dget_fold_notin {A B} (f : B -> string) (g : B -> A) (l : list B) (d : dict A) k :
  k ∉ f <$> l -> dget k (fold_left (fun d x => dset (f x) (g x) d) l d) = dget k d.
Proof.
  revert d. induction l as [|x l IH]; intros d; cbn; [done|]. rewrite not_elem_of_cons. intros [Hne Hk].
  rewrite IH by done. by apply dget_dset_ne.
Qed.

Lemma dget_fold_in {A B} (f : B -> string) (g : B -> A) (l : list B) (d : dict A) x :
  NoDup (f <$> l) -> x ∈ l -> dget (f x) (fold_left (fun d x => dset (f x) (g x) d) l d) = Some (g x).
Proof.
  revert d. induction l as [|y l IH]; intros d; cbn; [by intros _ ?%not_elem_of_nil|].
  intros [Hk Hnd]%NoDup_cons [->|Hin]%elem_of_cons; [|by apply IH].
  rewrite dget_fold_notin by done. apply dget_dset_eq.
Qed.

(** ** Reuse *)

Inductive decision := Resumed (r : dict value) | Hit (r : dict value) | Fresh.
Definition is_resumed (d : decision) : bool := match d with Resumed _ => true | _ => false end.
Definition is_hit (d : decision) : bool := match d with Hit _ => true | _ => false end.
Definition is_fresh (d : decision) : bool := match d with Fresh => true | _ => false end.

Definition it_index (it : item) : Z := index (it_spec it).
Definition it_file (it : item) : string := result_file (it_spec it).

(** Jobs numbered by their position. *)
Definition numbered (items : list item) : Prop := it_index <$> items = range (length items).

Lemma numbered_nonneg items it : numbered items -> it ∈ items -> 0 <= it_index it.
Proof.
  intros Hn Hin. assert (H : it_index it ∈ range (length items)) by (rewrite <- Hn; by apply list_elem_of_fmap_2).
  unfold range in H. apply list_elem_of_fmap in H as (k&->&_). lia.
Qed.

Lemma numbered_files items : numbered items -> NoDup (it_file <$> items).
Proof.
  intros Hn. assert (Hnd : NoDup (it_index <$> items)) by (rewrite Hn; apply range_NoDup).
  assert (Hpos : forall it, it ∈ items -> 0 <= it_index it) by eauto using numbered_nonneg.
  clear Hn. induction items as [|x l IH]; cbn in *; [constructor|].
  apply NoDup_cons in Hnd as [Hx Hnd]. constructor; [|apply IH; [done|]; intros ??; apply Hpos; by right].
  intros (y&Heq&Hy)%list_elem_of_fmap. apply Hx, list_elem_of_fmap. exists y. split; [|done].
  eapply result_name_inj; [| |exact Heq]; apply Hpos; [by left|by right].
Qed.

Lemma NoDup_fmap_filter {A B} (f : A -> B) (P : A -> bool) (l : list A) : NoDup (f <$> l) -> NoDup (f <$> List.filter P l).
Proof.
  induction l as [|x l IH]; cbn; [done|]. intros [Hx Hnd]%NoDup_cons. destruct (P x); cbn; [|auto].
  constructor; [|auto]. intros (y&Heq&Hy)%list_elem_of_fmap. apply Hx, list_elem_of_fmap. exists y. split; [done|].
  rewrite list_elem_of_In, List.filter_In, <- list_elem_of_In in Hy. by apply Hy.
Qed.

Section plan.
Context (opts : options) (engine : dict value).

(** What the scheduler decides for a job, given the files it finds. *)
Definition decide_reuse (w : world) (it : item) : decision :=
  match (if opt_resume opts then _valid_record (dget (it_file it) (out w)) (it_key it) else None) with
  | Some r => Resumed r
  | None =>
      match (if opt_cache opts && negb (opt_no_cache_read opts)
             then _valid_record (dget (cache_path (it_key it)) (cache w)) (it_key it) else None) with
      | Some r => Hit r
      | None => Fresh
      end
  end.

Definition reused_record (d : decision) : option (dict value) :=
  match d with
  | Resumed r => Some (dset "reuse" (VStr "resume") r)
  | Hit r => Some (dset "reuse" (VStr "cache") r)
  | Fresh => None
  end.
(** The file planning leaves for a job. *)
Definition planned_file (w : world) (it : item) : option value :=
  match decide_reuse w it with
  | Hit r => Some (obj (dset "reuse" (VStr "cache") r))
  | _ => dget (it_file it) (out w)
  end.

Definition count_by (P : decision -> bool) (w : world) (items : list item) : Z :=
  Z.of_nat (length (List.filter (fun it => P (decide_reuse w it)) items)).

Lemma count_by_snoc P w items it :
  count_by P w (items ++ [it]) = count_by P w items + Z.b2z (P (decide_reuse w it)).
Proof. unfold count_by. rewrite List.filter_app, length_app. cbn. destruct (P _); cbn; lia. Qed.

Record plan_spec (w : world) (items : list item) (p : plan) : Prop := PlanSpec {
  ps_in : forall it, it ∈ items -> aget (it_index it) (p_records p) = reused_record (decide_reuse w it);
  ps_out : forall i, i ∉ it_index <$> items -> aget i (p_records p) = None;
  ps_pending : p_pending p = List.filter (fun it => is_fresh (decide_reuse w it)) items;
  ps_resumed : p_resumed p = count_by is_resumed w items;
  ps_hits : p_hits p = count_by is_hit w items;
  ps_file : forall it, it ∈ items -> dget (it_file it) (p_out p) = planned_file w it;
  ps_other : forall n, n ∉ it_file <$> items -> dget n (p_out p) = dget n (out w)
}.

Lemma plan_item_step w p it :
  dget (it_file it) (p_out p) = dget (it_file it) (out w) ->
  plan_item opts (cache w) p it =
    match decide_reuse w it with
    | Fresh => Plan (p_records p) (p_pending p ++ [it]) (p_resumed p) (p_hits p) (p_out p)
    | Resumed r => Plan (aset (it_index it) (dset "reuse" (VStr "resume") r) (p_records p)) (p_pending p) (p_resumed p + 1)
        (p_hits p) (p_out p)
    | Hit r => Plan (aset (it_index it) (dset "reuse" (VStr "cache") r) (p_records p)) (p_pending p) (p_resumed p)
        (p_hits p + 1) (dset (it_file it) (obj (dset "reuse" (VStr "cache") r)) (p_out p))
    end.
Proof.
  intros H. unfold plan_item, decide_reuse. fold (it_file it). rewrite H. cbv zeta.
  destruct (if opt_resume opts then _ else _); [done|]. by destruct (if _ && _ then _ else _).
Qed.

Lemma plan_all_spec w items :
  NoDup (it_index <$> items) -> NoDup (it_file <$> items) -> plan_spec w items (plan_all opts w items).
Proof.
  unfold plan_all. induction items as [|it items IH] using rev_ind.
  { intros _ _. split; cbn; try done; by intros ? ?%not_elem_of_nil. }
  rewrite !fmap_app. cbn. intros (Hi1&Hi2&_)%NoDup_app (Hf1&Hf2&_)%NoDup_app.
  assert (Hi : it_index it ∉ it_index <$> items) by (intros H; by eapply Hi2, list_elem_of_singleton).
  assert (Hf : it_file it ∉ it_file <$> items) by (intros H; by eapply Hf2, list_elem_of_singleton).
  specialize (IH Hi1 Hf1). rewrite fold_left_app. cbn. destruct IH as [A B C D E F G].
  rewrite (plan_item_step w) by (by apply G). generalize dependent (fold_left (plan_item opts (cache w)) items (Plan [] [] 0 0 (out w))).
  intros p A B C D E F G.
  assert (Hne : forall x, x ∈ items -> it_index x <> it_index it) by (intros x Hx Heq; apply Hi; rewrite <- Heq; by apply list_elem_of_fmap_2).
  assert (Hnf : forall x, x ∈ items -> it_file x <> it_file it) by (intros x Hx Heq; apply Hf; rewrite <- Heq; by apply list_elem_of_fmap_2).
  split.
  - intros x [Hx| ->%list_elem_of_singleton]%elem_of_app.
    + destruct (decide_reuse w it); cbn; rewrite ?aget_aset, ?decide_False by (by apply Hne); by apply A.
    + destruct (decide_reuse w it); cbn; rewrite ?aget_aset, ?decide_True by done; [done..|by apply B].
  - intros i. rewrite fmap_app, not_elem_of_app. cbn. rewrite list_elem_of_singleton. intros [Hn Hn'].
    destruct (decide_reuse w it); cbn; rewrite ?aget_aset, ?decide_False by done; by apply B.
  - rewrite List.filter_app. cbn. destruct (decide_reuse w it); cbn; rewrite ?app_nil_r; congruence.
  - rewrite count_by_snoc. destruct (decide_reuse w it); cbn; lia.
  - rewrite count_by_snoc. destruct (decide_reuse w it); cbn; lia.
  - intros x [Hx| ->%list_elem_of_singleton]%elem_of_app.
    + destruct (decide_reuse w it); cbn; rewrite ?dget_dset_ne by (by apply Hnf); by apply F.
    + unfold planned_file. destruct (decide_reuse w it); cbn; rewrite ?dget_dset_eq; [by apply G|done|by apply G].
  - intros n. rewrite fmap_app, not_elem_of_app. cbn. rewrite list_elem_of_singleton. intros [Hn Hn'].
    destruct (decide_reuse w it); cbn; rewrite ?dget_dset_ne by done; by apply G.
Qed.

(** ** Execution *)

Context (worker : JobSpec -> process) (elapsed : JobSpec -> float) (schedule : list item -> list item).
Hypothesis schedule_perm : forall l, schedule l ≡ₚ l.

(** The worker answers a job with a JSON object. *)
Definition answers (it : item) : Prop := is_dict (_run_worker (it_spec it) (worker (it_spec it))) = true.
Definition response_is_ok (it : item) : bool :=
  match _run_worker (it_spec it) (worker (it_spec it)) with VDict r => is_true (dget_n "ok" r) | _ => false end.
Definition writes_cache (it : item) : bool :=
  opt_cache opts && negb (opt_no_cache_write opts) && response_is_ok it.

Local Abbreviation record_of := (executed_record engine worker elapsed).

Lemma execute_Ok it w : answers it ->
  execute opts engine worker elapsed it w =
    (Ok (it_index it, record_of it),
     World (dset (it_file it) (obj (record_of it)) (out w))
       (if writes_cache it then dset (cache_path (it_key it)) (obj (record_of it)) (cache w) else cache w)).
Proof.
  unfold answers, writes_cache, response_is_ok, execute. intros Ha.
  generalize (record_of it). intros rec. cbv [mbind M_bind modify lift mret M_ret res_bind].
  destruct (opt_cache opts && negb (opt_no_cache_write opts)); cbn [andb]; [|done].
  destruct (_run_worker _ _) as [| | | | | |r]; try done. unfold response_ok. cbn.
  unfold dget_n. by destruct (is_true _).
Qed.

Lemma res_map_id_Ok {A} (l : list A) : res_map id (Ok <$> l) = Ok l.
Proof. induction l as [|x l IH]; cbn; [done|]. by rewrite IH. Qed.

Definition cache_after (l : list item) (c : dict value) : dict value :=
  fold_left (fun c it => if writes_cache it then dset (cache_path (it_key it)) (obj (record_of it)) c else c) l c.
Definition results (l : list item) : list (Z * dict value) := (fun it => (it_index it, record_of it)) <$> l.

Lemma execute_all_Ok pending w : (forall it, it ∈ pending -> answers it) ->
  execute_all opts engine worker elapsed schedule pending w =
    (Ok (results (schedule pending)),
     World (fold_left (fun o it => dset (it_file it) (obj (record_of it)) o) (schedule pending) (out w))
       (cache_after (schedule pending) (cache w))).
Proof.
  intros Ha. unfold execute_all. assert (Ha' : forall it, it ∈ schedule pending -> answers it).
  { intros it. rewrite schedule_perm. apply Ha. }
  clear Ha. generalize dependent (schedule pending). intros l Ha. unfold results, cache_after.
  match goal with |- (let '(rs, w0) := fold_left ?F l ([], w) in _) = _ => set (f := F) end.
  assert (H : forall rs w, fold_left f l (rs, w) = (rs ++ (Ok <$> results l),
    World (fold_left (fun o it => dset (it_file it) (obj (record_of it)) o) l (out w)) (cache_after l (cache w)))).
  { clear w. induction l as [|it l IH]; intros rs w; cbn [fold_left].
    - cbn. rewrite app_nil_r. by destruct w.
    - subst f. cbn beta. cbn [fst snd]. rewrite execute_Ok by (apply Ha; by left). rewrite IH by (intros ??; apply Ha; by right).
      cbn [out cache]. f_equal. rewrite <- app_assoc. done. }
  rewrite H. cbn [app]. by rewrite res_map_id_Ok.
Qed.

(** ** The records of a run *)

Definition final (w : world) (it : item) : dict value :=
  match reused_record (decide_reuse w it) with Some r => r | None => record_of it end.
(** The record a run leaves in the result directory. *)
Definition stored (w : world) (it : item) : dict value :=
  match decide_reuse w it with Resumed r => r | _ => final w it end.

(** Stored records have the fields every record is written with. *)
Definition wf_record (r : dict value) : Prop :=
  exists i s, dget "index" r = Some (VInt i) /\ dget "name" r = Some (VStr s).
Definition wf_files (d : dict value) : Prop :=
  forall n r, dget n d = Some (VDict r) -> dget_n "schema" r = VStr JOB_RESULT_SCHEMA -> wf_record r.

(** Records a summary can be made from. *)
Definition readable (r : dict value) : Prop :=
  wf_record r /\ (exists k, dget "cache_key" r = Some k) /\ exists resp, dget "response" r = Some (VDict resp).
Definition rec_ok (r : dict value) : bool := is_true (dget_n "ok" (response_of r)).

Lemma dget_n_some k d v : dget_n k d = v -> v <> VNone -> dget k d = Some v.
Proof. unfold dget_n, dget_or. destruct (dget k d); congruence. Qed.

Lemma valid_record_spec schema key file d : valid_record schema key file = Some d ->
  file = Some (VDict d) /\ dget_n "schema" d = VStr schema /\ dget_n "cache_key" d = VStr key /\
  exists r, dget "response" d = Some (VDict r) /\ dget_n "schema" r = VStr WORKER_RESPONSE_SCHEMA.
Proof.
  unfold valid_record. destruct file as [[| | | | | |d']|]; try done. case_bool; [|done]. bool_prop. rewrite !eq_str_true in *.
  destruct (dget_n "response" d') as [| | | | | |r] eqn:Hr; try done. case_bool; [|done]. rewrite eq_str_true in *.
  intros [= ->]. split_and!; try done. exists r. split; [by apply dget_n_some|done].
Qed.

Lemma valid_record_intro schema key d r :
  dget_n "schema" d = VStr schema -> dget_n "cache_key" d = VStr key -> dget_n "response" d = VDict r ->
  dget_n "schema" r = VStr WORKER_RESPONSE_SCHEMA -> valid_record schema key (Some (VDict d)) = Some d.
Proof.
  intros H1 H2 H3 H4. unfold valid_record. rewrite H3, (proj2 (eq_str_true _ _) H1), (proj2 (eq_str_true _ _) H2). cbn [andb].
  by rewrite (proj2 (eq_str_true _ _) H4).
Qed.

Lemma readable_dset_reuse r v : readable r -> readable (dset "reuse" v r).
Proof. intros ((i&s&?&?)&(k&?)&(resp&?)). unfold readable, wf_record. rewrite !dget_dset. cbn. eauto 10. Qed.

Lemma rec_ok_dset_reuse r v : rec_ok (dset "reuse" v r) = rec_ok r.
Proof. unfold rec_ok, response_of, dget_n, dget_or. by rewrite dget_dset. Qed.

Lemma record_ok_readable r : readable r -> record_ok r = Ok (rec_ok r).
Proof.
  intros (_&_&(resp&Hr)). unfold record_ok, rec_ok, record_response, response_of, dget_n, dget_or.
  rewrite Hr. unfold response_ok. cbn. done.
Qed.

Lemma summary_row_readable r : readable r -> exists row, summary_row r = Ok row.
Proof.
  intros Hr. pose proof (record_ok_readable r Hr) as Hok. destruct Hr as ((i&s&Hi&Hs)&(k&Hk)&(resp&Hresp)).
  unfold summary_row. cbn [vindex]. rewrite Hi, Hs, Hk. cbn. rewrite Hok. cbn.
  unfold record_response, dget_or. rewrite Hresp. cbn. eauto.
Qed.

Lemma record_of_readable it : answers it -> readable (record_of it).
Proof.
  unfold answers. intros Ha. destruct (_run_worker (it_spec it) (worker (it_spec it))) as [| | | | | |r] eqn:E; try done.
  split_and!.
  - unfold wf_record, executed_record. cbn. eauto.
  - unfold executed_record. cbn. eauto.
  - exists r. unfold executed_record. cbn. by rewrite E.
Qed.

Lemma decide_reuse_wf w it r : wf_files (out w) -> wf_files (cache w) ->
  reused_record (decide_reuse w it) = Some r -> readable r.
Proof.
  intros Ho Hc. unfold decide_reuse, _valid_record.
  assert (Hv : forall d n x, wf_files d -> valid_record JOB_RESULT_SCHEMA (it_key it) (dget n d) = Some x -> readable x).
  { intros d n x Hd (Hf&Hs&Hk&(resp&Hr&_))%valid_record_spec. split; [by eapply Hd|].
    split; [|by exists resp]. eexists. by apply dget_n_some. }
  destruct (if opt_resume opts then _ else _) as [x|] eqn:E1.
  - destruct (opt_resume opts); [|done]. intros [= <-]. apply readable_dset_reuse. by apply (Hv _ _ _ Ho E1).
  - destruct (if _ && _ then _ else _) as [x|] eqn:E2; [|done].
    destruct (_ && _); [|done]. intros [= <-]. apply readable_dset_reuse. by apply (Hv _ _ _ Hc E2).
Qed.

Lemma final_readable w it :
  wf_files (out w) -> wf_files (cache w) -> (decide_reuse w it = Fresh -> answers it) -> readable (final w it).
Proof.
  intros Ho Hc Ha. unfold final. destruct (reused_record _) eqn:E; [by eapply decide_reuse_wf|].
  apply record_of_readable, Ha. by destruct (decide_reuse w it).
Qed.

Lemma final_executed w it : eq_str (dget_n "reuse" (final w it)) "executed" = is_fresh (decide_reuse w it).
Proof.
  unfold final, reused_record, dget_n, dget_or. destruct (decide_reuse w it); rewrite ?dget_dset; [done..|]. done.
Qed.

Lemma res_map_Ok {A B} (f : A -> res B) (g : A -> B) l :
  (forall x, x ∈ l -> f x = Ok (g x)) -> res_map f l = Ok (g <$> l).
Proof.
  induction l as [|x l IH]; intros H; cbn; [done|]. rewrite (H x) by (by left). cbn.
  rewrite IH; [done|]. intros y Hy. apply H. by right.
Qed.

Lemma count_true_map {A} (P : A -> bool) (l : list A) : count_true (P <$> l) = Z.of_nat (length (List.filter P l)).
Proof.
  unfold count_true. f_equal. induction l as [|x l IH]; [done|].
  change (P <$> x :: l) with (P x :: (P <$> l)). cbn [List.filter]. change (id (P x)) with (P x).
  destruct (P x); cbn [length]; by rewrite IH.
Qed.

(** Every job has one decision. *)
Lemma count_total w items :
  count_by is_fresh w items + count_by is_resumed w items + count_by is_hit w items = Z.of_nat (length items).
Proof. unfold count_by. induction items as [|it l IH]; [done|]. cbn. destruct (decide_reuse w it); cbn; lia. Qed.

Definition failures (w : world) (items : list item) : Z :=
  Z.of_nat (length (List.filter (fun it => negb (rec_ok (final w it))) items)).

Context (cpu_count : option Z).
Local Abbreviation run := (run_items opts engine worker elapsed schedule cpu_count).

Lemma ordered_exact w items (p : plan) :
  numbered items -> plan_spec w items p ->
  ordered_records (fold_left (fun rs ir => aset (fst ir) (snd ir) rs) (results (schedule (p_pending p))) (p_records p))
    (length items) = Ok (final w <$> items).
Proof.
  intros Hn Hp. unfold ordered_records. rewrite <- Hn. assert (Hnd : NoDup (it_index <$> items)) by (rewrite Hn; apply range_NoDup).
  set (rs := fold_left _ _ _).
  assert (Hr : forall it, it ∈ items -> aget (it_index it) rs = Some (final w it)).
  { intros it Hin. subst rs. unfold final. pose proof (ps_in _ _ _ Hp it Hin) as Hg. rewrite (ps_pending _ _ _ Hp).
    set (pend := List.filter _ items). assert (Hkeys : (results (schedule pend)).*1 ≡ₚ it_index <$> pend).
    { unfold results. rewrite schedule_perm, <- list_fmap_compose. done. }
    assert (Hndp : NoDup (results (schedule pend)).*1) by (rewrite Hkeys; by apply NoDup_fmap_filter).
    destruct (is_fresh (decide_reuse w it)) eqn:Ef.
    - assert (Hit : it ∈ pend).
      { subst pend. rewrite list_elem_of_In, List.filter_In, <- list_elem_of_In. by split. }
      destruct (decide_reuse w it); try done. cbn. apply aget_fold_in; [done|]. unfold results.
      apply list_elem_of_fmap. exists it. split; [done|]. by rewrite schedule_perm.
    - rewrite aget_fold_notin.
      { rewrite Hg. by destruct (decide_reuse w it). }
      rewrite Hkeys. intros (it'&Heq&Hin')%list_elem_of_fmap.
      subst pend. rewrite list_elem_of_In, List.filter_In, <- list_elem_of_In in Hin'. destruct Hin' as [Hin' Hf'].
      assert (it = it') as <-.
      { apply list_elem_of_lookup in Hin as (a&Ha), Hin' as (b&Hb).
        assert (a = b) as ->; [|congruence].
        eapply (NoDup_lookup _ _ _ (it_index it) Hnd); rewrite list_lookup_fmap, ?Ha, ?Hb; cbn; congruence. }
      congruence. }
  clear - Hr. induction items as [|it l IH]; cbn; [done|]. rewrite (Hr it) by (by left). cbn.
  rewrite IH; [done|]. intros x Hx. apply Hr. by right.
Qed.

(** ** The files of a run *)

Lemma wf_files_dset n r d : wf_files d -> (dget_n "schema" r = VStr JOB_RESULT_SCHEMA -> wf_record r) -> wf_files (dset n (VDict r) d).
Proof.
  intros Hd Hr m x. rewrite dget_dset. case_bool; [by intros [= <-]|]. apply Hd.
Qed.

Lemma wf_record_dset_reuse r v : wf_record r -> wf_record (dset "reuse" v r).
Proof. intros (i&s&?&?). exists i, s. by rewrite !dget_dset. Qed.

Lemma wf_executed it : wf_record (record_of it).
Proof. unfold wf_record, executed_record. cbn. eauto. Qed.

Lemma plan_wf w items : wf_files (out w) -> wf_files (cache w) -> wf_files (p_out (plan_all opts w items)).
Proof.
  intros Ho Hc. unfold plan_all. induction items as [|it items IH] using rev_ind; [done|].
  rewrite fold_left_app. cbn. generalize dependent (fold_left (plan_item opts (cache w)) items (Plan [] [] 0 0 (out w))).
  intros p Hp. unfold plan_item, _valid_record. destruct (if opt_resume opts then _ else _); [done|].
  destruct (if _ && _ then _ else _) as [r|] eqn:E; [|done]. destruct (_ && _); [|done].
  apply valid_record_spec in E as (Hf&Hs&_). apply wf_files_dset; [done|]. intros _.
  apply wf_record_dset_reuse. by eapply Hc.
Qed.

Lemma executed_wf l (d : dict value) :
  wf_files d -> wf_files (fold_left (fun o it => dset (it_file it) (obj (record_of it)) o) l d).
Proof.
  revert d. induction l as [|it l IH]; intros d Hd; cbn; [done|]. apply IH, wf_files_dset; [done|]. intros _. apply wf_executed.
Qed.

Lemma cache_wf l (d : dict value) : wf_files d -> wf_files (cache_after l d).
Proof.
  unfold cache_after. revert d. induction l as [|it l IH]; intros d Hd; cbn [fold_left]; [done|]. apply IH.
  destruct (writes_cache it); [|done]. apply wf_files_dset; [done|]. intros _. apply wf_executed.
Qed.

Lemma stored_exact w items (p : plan) (s : value) it :
  numbered items -> plan_spec w items p -> it ∈ items ->
  dget (it_file it) (dset "summary.json" s
    (fold_left (fun o it => dset (it_file it) (obj (record_of it)) o) (schedule (p_pending p)) (p_out p)))
  = Some (obj (stored w it)).
Proof.
  intros Hn Hp Hin. rewrite dget_dset_ne by (apply result_name_not_summary; by eapply numbered_nonneg).
  assert (Hnd : NoDup (it_file <$> schedule (p_pending p))).
  { rewrite schedule_perm, (ps_pending _ _ _ Hp). by apply NoDup_fmap_filter, numbered_files. }
  unfold stored, final. destruct (is_fresh (decide_reuse w it)) eqn:Ef.
  - rewrite (dget_fold_in it_file (fun it => obj (record_of it))) by
      (done || (rewrite schedule_perm, (ps_pending _ _ _ Hp), list_elem_of_In, List.filter_In, <- list_elem_of_In; by split)).
    by destruct (decide_reuse w it).
  - rewrite (dget_fold_notin it_file (fun it => obj (record_of it))).
    { rewrite (ps_file _ _ _ Hp) by done. unfold planned_file. destruct (decide_reuse w it) as [r| |] eqn:E; try done.
      unfold decide_reuse, _valid_record in E. destruct (opt_resume opts); [|by destruct (if _ && _ then _ else _)].
      destruct (valid_record _ _ (dget (it_file it) (out w))) eqn:Ev; [|by destruct (if _ && _ then _ else _)].
      injection E as ->. by apply valid_record_spec in Ev as (->&_). }
    rewrite schedule_perm, (ps_pending _ _ _ Hp). intros (it'&Heq&Hin')%list_elem_of_fmap.
    rewrite list_elem_of_In, List.filter_In, <- list_elem_of_In in Hin'. destruct Hin' as [Hin' Hf'].
    assert (it = it') as <-; [|congruence]. pose proof (numbered_files items Hn) as Hndf.
    apply list_elem_of_lookup in Hin as (a&Ha), Hin' as (b&Hb).
    assert (a = b) as ->; [|congruence].
    eapply (NoDup_lookup _ _ _ (it_file it) Hndf); rewrite list_lookup_fmap, ?Ha, ?Hb; cbn; congruence.
Qed.

(** ** The run *)

Record accounts (w : world) (items : list item) (r : result) (w' : world) : Prop := Accounts {
  ac_records : r_records r = final w <$> items;
  ac_jobs : dget_n "jobs" (r_summary r) = VInt (Z.of_nat (length items));
  ac_executed : dget_n "executed" (r_summary r) = VInt (count_by is_fresh w items);
  ac_resumed : dget_n "resumed" (r_summary r) = VInt (count_by is_resumed w items);
  ac_hits : dget_n "cache_hits" (r_summary r) = VInt (count_by is_hit w items);
  ac_failed : dget_n "failed" (r_summary r) = VInt (failures w items);
  ac_code : r_code r = if failures w items =? 0 then 0 else 1;
  ac_stored : forall it, it ∈ items -> dget (it_file it) (out w') = Some (obj (stored w it));
  ac_wf : wf_files (out w') /\ wf_files (cache w')
}.

Lemma res_map_total {A B} (f : A -> res B) l : (forall x, x ∈ l -> exists y, f x = Ok y) -> exists ys, res_map f l = Ok ys.
Proof.
  intros H. destruct (res_map_Forall2 (fun _ _ => True) f l) as (ys&Hys&_); [|by exists ys].
  intros x Hx. destruct (H x Hx) as (y&Hy). eauto.
Qed.

Lemma run_exact manifest items w :
  numbered items -> wf_files (out w) -> wf_files (cache w) ->
  (forall it, it ∈ items -> decide_reuse w it = Fresh -> answers it) ->
  exists r w', run manifest items w = (Ok r, w') /\ accounts w items r w'.
Proof.
  intros Hn Ho Hc Ha.
  assert (Hp : plan_spec w items (plan_all opts w items)).
  { apply plan_all_spec; [rewrite Hn; apply range_NoDup|by apply numbered_files]. }
  pose proof (plan_wf w items Ho Hc) as Hwf. unfold run_items. cbv [mbind M_bind gets modify lift mret M_ret id].
  cbv zeta. generalize dependent (plan_all opts w items). intros p Hp Hwf.
  rewrite execute_all_Ok.
  2: { intros it Hin. rewrite (ps_pending _ _ _ Hp) in Hin.
       rewrite list_elem_of_In, List.filter_In, <- list_elem_of_In in Hin. destruct Hin as [Hin Hf].
       apply Ha; [done|]. by destruct (decide_reuse w it). }
  cbn [out cache]. rewrite (ordered_exact w) by done.
  assert (Hread : forall r, r ∈ final w <$> items -> readable r).
  { intros r (it&->&Hin)%list_elem_of_fmap. apply final_readable; auto. }
  rewrite (res_map_Ok record_ok rec_ok) by (intros; by apply record_ok_readable, Hread).
  destruct (res_map_total summary_row (final w <$> items)) as (rows&Hrows).
  { intros x Hx. by apply summary_row_readable, Hread. }
  rewrite Hrows. do 2 eexists. split; [reflexivity|].
  assert (Hfail : count_true (negb <$> (rec_ok <$> (final w <$> items))) = failures w items).
  { rewrite <- !list_fmap_compose. unfold failures. by rewrite <- count_true_map. }
  assert (Hexec : count_true ((fun r => eq_str (dget_n "reuse" r) "executed") <$> (final w <$> items)) = count_by is_fresh w items).
  { rewrite <- list_fmap_compose, count_true_map. unfold count_by. do 2 f_equal. apply List.filter_ext.
    intros it. apply final_executed. }
  cbn -[count_true]. split; cbn -[count_true dset].
  - done.
  - unfold dget_n, dget_or. cbn. by rewrite length_fmap.
  - unfold dget_n, dget_or. cbn -[count_true]. by rewrite <- Hexec.
  - unfold dget_n, dget_or. cbn -[count_true]. by rewrite (ps_resumed _ _ _ Hp).
  - unfold dget_n, dget_or. cbn -[count_true]. by rewrite (ps_hits _ _ _ Hp).
  - unfold dget_n, dget_or. cbn -[count_true]. by rewrite Hfail.
  - by rewrite Hfail.
  - intros it Hin. by apply (stored_exact w items).
  - split; [|by apply cache_wf]. apply wf_files_dset; [by apply executed_wf|]. done.
Qed.

(** ** Resuming *)

(** The worker answers a job with a response of its protocol. *)
Definition answers_properly (it : item) : Prop :=
  exists r, _run_worker (it_spec it) (worker (it_spec it)) = VDict r /\ dget_n "schema" r = VStr WORKER_RESPONSE_SCHEMA.

Lemma answers_properly_answers it : answers_properly it -> answers it.
Proof. intros (r&Hr&_). unfold answers. by rewrite Hr. Qed.

(** What a run stores for a job is a record that may be reused. *)
Lemma stored_valid w it : (decide_reuse w it = Fresh -> answers_properly it) ->
  _valid_record (Some (obj (stored w it))) (it_key it) = Some (stored w it).
Proof.
  intros Ha. unfold stored, final. destruct (decide_reuse w it) as [r|r|] eqn:E.
  - unfold decide_reuse, _valid_record in E. destruct (opt_resume opts); [|by destruct (if _ && _ then _ else _)].
    destruct (valid_record _ _ (dget (it_file it) (out w))) eqn:Ev; [|by destruct (if _ && _ then _ else _)].
    injection E as ->. pose proof (valid_record_spec _ _ _ _ Ev) as (Hf&_). by rewrite Hf in Ev.
  - assert (Hv : _valid_record (dget (cache_path (it_key it)) (cache w)) (it_key it) = Some r).
    { unfold decide_reuse in E. destruct (if opt_resume opts then _ else _); [done|].
      destruct (_ && _); [|done]. destruct (_valid_record _ _); congruence. }
    apply valid_record_spec in Hv as (_&Hs&Hk&(resp&Hr&Hrs)). cbn.
    assert (Hget : forall k, k <> "reuse" -> dget_n k (dset "reuse" (VStr "cache") r) = dget_n k r).
    { intros k Hk'. unfold dget_n, dget_or. by rewrite dget_dset_ne. }
    eapply (valid_record_intro _ _ _ resp); rewrite ?Hget by done; try done. unfold dget_n, dget_or. by rewrite Hr.
  - destruct (Ha eq_refl) as (r&Hr&Hs). eapply (valid_record_intro _ _ _ r); try done.
Qed.

Lemma rec_ok_stored w it : rec_ok (stored w it) = rec_ok (final w it).
Proof. unfold stored, final. destruct (decide_reuse w it); cbn; by rewrite ?rec_ok_dset_reuse. Qed.
End plan.

(** A run that finds the records another run of the same jobs stored reuses them all. *)
Lemma resume_all opts opts' engine worker elapsed (w w' : world) (items : list item) :
  opt_resume opts' = true ->
  (forall it, it ∈ items -> decide_reuse opts w it = Fresh -> answers_properly worker it) ->
  (forall it, it ∈ items -> dget (it_file it) (out w') = Some (obj (stored opts engine worker elapsed w it))) ->
  forall it, it ∈ items -> decide_reuse opts' w' it = Resumed (stored opts engine worker elapsed w it).
Proof.
  intros Hres Ha Hst it Hin. unfold decide_reuse. rewrite Hres, Hst by done. rewrite stored_valid; [done|]. by apply Ha.
Qed.

Section loaded.
Context (sys : fs) (parent : string) (read : res value) (manifest : dict value) (jobs : list JobSpec)
  (root : option string) (engine : dict value) (items : list item).
Hypothesis loads : _load_manifest sys parent read = Ok (manifest, jobs).
Hypothesis prepares : res_map (prepare sys root engine) jobs = Ok items.
#[local] Set Default Proof Using "All".

Lemma loaded_numbered : numbered items.
Proof.
  unfold numbered, it_index. rewrite (list_fmap_compose it_spec index), (prepare_specs _ _ _ _ _ prepares).
  rewrite (load_manifest_indices _ _ _ _ _ loads). f_equal.
  by rewrite <- (prepare_specs _ _ _ _ _ prepares), length_fmap.
Qed.


(** Running the same manifest again with [--resume], whatever the workers now answer, in
    whatever order and with whatever other options: no job is executed, every job is resumed, the
    numbers of failures and the exit codes agree, and the records of the result directory stay. *)
Theorem resume_executes_nothing opts opts' worker worker' elapsed elapsed' schedule schedule' cpus cpus' w r w' :
  (forall l, schedule l ≡ₚ l) -> (forall l, schedule' l ≡ₚ l) -> wf_files (out w) -> wf_files (cache w) ->
  (forall it, it ∈ items -> decide_reuse opts w it = Fresh -> answers_properly worker it) ->
  opt_resume opts' = true ->
  run_items opts engine worker elapsed schedule cpus manifest items w = (Ok r, w') ->
  exists r' w'', run_items opts' engine worker' elapsed' schedule' cpus' manifest items w' = (Ok r', w'') /\
    dget_n "executed" (r_summary r') = VInt 0 /\ dget_n "resumed" (r_summary r') = VInt (Z.of_nat (length jobs)) /\
    dget_n "failed" (r_summary r') = dget_n "failed" (r_summary r) /\ r_code r' = r_code r /\
    (forall it, it ∈ items -> dget (it_file it) (out w'') = dget (it_file it) (out w')).
Proof.
  intros Hperm Hperm' Ho Hc Ha Hres Hrun. pose proof loaded_numbered as Hnum.
  destruct (run_exact opts engine worker elapsed schedule Hperm cpus manifest items w Hnum Ho Hc) as (r1&w1&Hrun1&Hac).
  { intros. by apply answers_properly_answers, Ha. }
  rewrite Hrun in Hrun1. injection Hrun1 as <- <-.
  assert (Hall := resume_all opts opts' engine worker elapsed w w' items Hres Ha (ac_stored _ _ _ _ _ _ _ _ Hac)).
  destruct (run_exact opts' engine worker' elapsed' schedule' Hperm' cpus' manifest items w' Hnum) as (r2&w2&Hrun2&Hac2).
  1, 2: apply (ac_wf _ _ _ _ _ _ _ _ Hac).
  { intros it Hin. by rewrite Hall. }
  assert (Hfresh : count_by opts' is_fresh w' items = 0).
  { unfold count_by. assert (Hnil : List.filter (fun it => is_fresh (decide_reuse opts' w' it)) items = []); [|by rewrite Hnil].
    clear - Hall. induction items as [|it l IH]; cbn; [done|]. rewrite Hall by (by left). cbn. apply IH. intros. apply Hall. by right. }
  assert (Hhit : count_by opts' is_hit w' items = 0).
  { unfold count_by. assert (Hnil : List.filter (fun it => is_hit (decide_reuse opts' w' it)) items = []); [|by rewrite Hnil].
    clear - Hall. induction items as [|it l IH]; cbn; [done|]. rewrite Hall by (by left). cbn. apply IH. intros. apply Hall. by right. }
  assert (Hfail : failures opts' engine worker' elapsed' w' items = failures opts engine worker elapsed w items).
  { unfold failures. do 2 f_equal. apply List.filter_ext_in. intros it Hin%list_elem_of_In. f_equal.
    rewrite <- (rec_ok_stored opts engine worker elapsed). unfold final at 1. rewrite Hall by done. cbn. apply rec_ok_dset_reuse. }
  exists r2, w2. split; [done|]. destruct Hac, Hac2. split_and!.
  - by rewrite ac_executed1, Hfresh.
  - rewrite ac_resumed1. pose proof (count_total opts' w' items) as Htot. rewrite Hfresh, Hhit in Htot.
    rewrite <- (prepare_specs _ _ _ _ _ prepares), length_fmap. f_equal. lia.
  - by rewrite ac_failed1, ac_failed0, Hfail.
  - by rewrite ac_code1, ac_code0, Hfail.
  - intros it Hin. rewrite ac_stored1, ac_stored0 by done. unfold stored at 1. by rewrite Hall.
Qed.
End loaded.

(** ** A run of two jobs *)

Module Sample.
Definition sys : fs :=
  Fs (fun base p => File (base +:+ "/" +:+ p)) (fun p => Raise (Exn FileNotFoundError p)) (fun p => p) (fun p => p)
    (fun p => (4, sha256_hex p)) (fun p d => String.prefix d p).
Definition job_doc (id image : string) : value :=
  obj [("schema", VStr JOB_SCHEMA); ("id", VStr id); ("image", obj [("path", VStr image)])].
Definition doc : dict value :=
  [("schema", VStr MANIFEST_SCHEMA);
   ("jobs", VList [obj [("job", job_doc "first" "a.bin")]; obj [("name", VStr "second"); ("job", job_doc "x" "b.bin")]])].
Definition engine : dict value := [("version", VStr "1.0")].
Definition jobs : list JobSpec := snd (ok_or ([], []) (_load_manifest sys "/m" (Ok (obj doc)))).
Definition items : list item := ok_or [] (res_map (prepare sys None engine) jobs).
(** The second job fails. *)
Definition worker (spec : JobSpec) : process :=
  let ok := String.eqb (name spec) "first" in
  Process (if ok then 0 else 1) "..." (Ok (obj [("schema", VStr WORKER_RESPONSE_SCHEMA); ("ok", VBool ok); ("exit_code", VInt (if ok then 0 else 1))])) "".
Definition opts (resume : bool) : options := Options resume true false false None.
Definition empty : world := World [] [].

Lemma batch_loads : _load_manifest sys "/m" (Ok (obj doc)) = Ok (doc, jobs).
Proof. vm_compute. reflexivity. Qed.
Lemma prepares : res_map (prepare sys None engine) jobs = Ok items.
Proof. vm_compute. reflexivity. Qed.
Lemma worker_answers it : answers_properly worker it.
Proof. eexists. split; reflexivity. Qed.
Lemma empty_wf : wf_files [].
Proof. by intros ???. Qed.
Definition run (resume : bool) (schedule : list item -> list item) (w : world) : res result * world :=
  run_items (opts resume) engine worker (fun _ => fzero) schedule None doc items w.

(** The numbers of a summary: executed, resumed, taken from the cache, failed; and the exit code. *)
Definition numbers (r : res result * world) : list value * Z :=
  match fst r with
  | Ok r => ((fun k => dget_n k (r_summary r)) <$> ["executed"; "resumed"; "cache_hits"; "failed"], r_code r)
  | Raise _ => ([], -1)
  end.
Example first_run : numbers (run false (@rev item) empty) = ([VInt 2; VInt 0; VInt 0; VInt 1], 1).
Proof. vm_compute. reflexivity. Qed.
Example second_run : numbers (run true id (snd (run false (@rev item) empty))) = ([VInt 0; VInt 2; VInt 0; VInt 1], 1).
Proof. vm_compute. reflexivity. Qed.

(** A record from the cache keeps the index and the name of the job that made it.  Here the same job,
    now called "renamed" and second in its manifest, is taken from the cache of the first run: the
    summary's row says index 0, name "first" and a file that this run has not written. *)
Definition doc2 : dict value :=
  [("schema", VStr MANIFEST_SCHEMA);
   ("jobs", VList [obj [("name", VStr "second"); ("job", job_doc "x" "b.bin")]; obj [("name", VStr "renamed"); ("job", job_doc "first" "a.bin")]])].
Definition items2 : list item :=
  ok_or [] (res_map (prepare sys None engine) (snd (ok_or ([], []) (_load_manifest sys "/m" (Ok (obj doc2)))))).
Definition second : res result * world :=
  run_items (opts false) engine worker (fun _ => fzero) id None doc2 items2 (World [] (cache (snd (run false id empty)))).
Definition reported : list (value * value * value) :=
  match fst second with
  | Ok r => match dget_n "results" (r_summary r) with
            | VList l => (fun row => match row with VDict d => (dget_n "index" d, dget_n "name" d, dget_n "file" d) | _ => (VNone, VNone, VNone) end) <$> l
            | _ => []
            end
  | Raise _ => []
  end.
Example cached_row_is_stale :
  reported = [(VInt 0, VStr "second", VStr "0000-second.json"); (VInt 0, VStr "first", VStr "0000-first.json")] /\
  dkeys (out (snd second)) = ["0001-renamed.json"; "0000-second.json"; "summary.json"].
Proof. vm_compute. split; reflexivity. Qed.
End Sample.


Lemma resume_executes_nothing_witness :
  let first := Sample.run false (@rev item) Sample.empty in
  exists r r' w'', fst first = Ok r /\ Sample.run true id (snd first) = (Ok r', w'') /\
    dget_n "executed" (r_summary r') = VInt 0 /\ dget_n "resumed" (r_summary r') = VInt (Z.of_nat (length Sample.jobs)) /\
    dget_n "failed" (r_summary r') = dget_n "failed" (r_summary r) /\ r_code r' = r_code r /\
    (forall it, it ∈ Sample.items -> dget (it_file it) (out w'') = dget (it_file it) (out (snd first))).
Proof.
  cbv zeta. destruct (Sample.run false (@rev item) Sample.empty) as [[r|e] w'] eqn:E.
  2: { pose proof Sample.first_run as H. unfold Sample.numbers in H. rewrite E in H. discriminate H. }
  exists r. destruct (resume_executes_nothing _ _ _ _ _ None _ _ Sample.batch_loads Sample.prepares
    (Sample.opts false) (Sample.opts true) Sample.worker Sample.worker (fun _ => fzero) (fun _ => fzero) (@rev item) id None None Sample.empty r w')
    as (r'&w''&H).
  - intros l. symmetry. apply Permutation_rev.
  - done.
  - apply Sample.empty_wf.
  - apply Sample.empty_wf.
  - intros it _ _. apply Sample.worker_answers.
  - reflexivity.
  - exact E.
  - exists r', w''. split; [reflexivity|]. exact H.
Defined.
