(* ===== verification/Shell.v ===== *)
(** * Remote command lines and POSIX paths

    What the fleet uses of [shlex] and of [PurePosixPath]: quoting of the words of a command that a
    remote shell splits again, and lexical paths.  [sh_words] is the reference: how a POSIX shell
    splits a line whose unquoted characters are all ordinary. *)
From Stdlib Require Import Ascii.
From S2P Require Export PyCore Json.

Definition squote : ascii := "'"%char.
Definition dquote : ascii := ascii_of_nat 34.
Definition sp_char : ascii := " "%char.

(** ** [shlex] *)

(** The complement of [[^\w@%+=:,./-]], in ASCII. *)
Definition safe_char (c : ascii) : bool :=
  is_alnum c || str_mem c "_@%+=:,./-".

(** [s.replace("'", "'\"'\"'")] *)
Fixpoint escape_squotes (s : string) : string :=
  match s with
  | EmptyString => EmptyString
  | String c s => if Ascii.eqb c squote
                  then String squote (String dquote (String squote (String dquote (String squote (escape_squotes s)))))
                  else String c (escape_squotes s)
  end.

Definition shlex_quote (s : string) : string :=
  if str_empty s then String squote (String squote EmptyString)
  else if str_forall safe_char s then s
  else String squote (escape_squotes s +:+ String squote EmptyString).

Definition shlex_join (l : list string) : string := str_join " " (shlex_quote <$> l).

(** ** Paths *)

Fixpoint split_slash (s : string) (cur : string) : list string :=
  match s with
  | EmptyString => [cur]
  | String c s => if Ascii.eqb c "/"%char then cur :: split_slash s "" else split_slash s (cur +:+ String c EmptyString)
  end.
Definition path_parts (s : string) : list string :=
  List.filter (fun p => negb (String.eqb p "") && negb (String.eqb p ".")) (split_slash s "").
(** The root of a path: exactly two leading slashes are kept. *)
Definition path_root (s : string) : string :=
  if str_startswith "//" s && negb (str_startswith "///" s) then "//" else if str_startswith "/" s then "/" else "".
(** [str(PurePosixPath(s) / ...)] for relative parts. *)
Definition posix_join (s : string) (rest : list string) : string :=
  let text := path_root s +:+ str_join "/" (path_parts s ++ rest) in
  if str_empty text then "." else text.

(** ** The shell *)

Inductive quoting := Unquoted | Single | Double.

(** The words of a line; [None] when a character has a meaning to the shell where it stands. *)
Fixpoint sh_words (q : quoting) (word : option string) (s : string) : option (list string) :=
  let add c := Some (default "" word +:+ String c EmptyString) in
  match s, q with
  | EmptyString, Unquoted => Some (match word with Some w => [w] | None => [] end)
  | EmptyString, _ => None
  | String c s, Unquoted =>
      if Ascii.eqb c sp_char then
        match word, sh_words Unquoted None s with
        | Some w, Some l => Some (w :: l)
        | None, r => r
        | _, None => None
        end
      else if Ascii.eqb c squote then sh_words Single (Some (default "" word)) s
      else if Ascii.eqb c dquote then sh_words Double (Some (default "" word)) s
      else if safe_char c then sh_words Unquoted (add c) s else None
  | String c s, Single => if Ascii.eqb c squote then sh_words Unquoted word s else sh_words Single (add c) s
  | String c s, Double =>
      if Ascii.eqb c dquote then sh_words Unquoted word s
      else if str_mem c "$`\!" then None else sh_words Double (add c) s
  end.

Lemma str_app_snoc (a : string) c s : (a +:+ String c EmptyString) +:+ s = a +:+ String c s.
Proof. by rewrite str_app_assoc. Qed.

Lemma safe_char_plain c : safe_char c = true ->
  Ascii.eqb c sp_char = false /\ Ascii.eqb c squote = false /\ Ascii.eqb c dquote = false.
Proof.
  intros Hs. split_and!; apply Ascii.eqb_neq; intros ->; vm_compute in Hs; discriminate Hs.
Qed.

(** Safe characters are literal. *)
Lemma sh_words_safe s w r : str_forall safe_char s = true ->
  sh_words Unquoted (Some w) (s +:+ r) = sh_words Unquoted (Some (w +:+ s)) r.
Proof.
  revert w. induction s as [|c s IH]; intros w; [by rewrite str_app_nil_r|].
  intros [Hc Hs]%andb_true_iff. rewrite str_app_cons. cbn [sh_words].
  destruct (safe_char_plain c Hc) as (->&->&->). rewrite Hc. cbn [default]. rewrite IH by done. by rewrite str_app_snoc.
Qed.

(** Between single quotes, with the escapes of [shlex.quote], everything is literal. *)
Lemma sh_words_escaped s w r :
  sh_words Single (Some w) (escape_squotes s +:+ String squote r) = sh_words Unquoted (Some (w +:+ s)) r.
Proof.
  revert w. induction s as [|c s IH]; intros w.
  - rewrite str_app_nil_r. done.
  - cbn [escape_squotes]. destruct (Ascii.eqb_spec c squote) as [->|Hne].
    + rewrite !str_app_cons.
      transitivity (sh_words Single (Some (w +:+ String squote EmptyString)) (escape_squotes s +:+ String squote r)); [reflexivity|].
      rewrite IH. by rewrite str_app_snoc.
    + rewrite str_app_cons. cbn [sh_words]. rewrite (proj2 (Ascii.eqb_neq _ _) Hne). cbn [default]. rewrite IH. by rewrite str_app_snoc.
Qed.

Lemma sh_words_quote s r :
  sh_words Unquoted None (shlex_quote s +:+ r) = sh_words Unquoted (Some s) r.
Proof.
  unfold shlex_quote. destruct s as [|c s]; [done|]. cbn [str_empty].
  destruct (str_forall safe_char (String c s)) eqn:E.
  - cbn in E. apply andb_true_iff in E as [Hc Hs]. rewrite str_app_cons. cbn [sh_words].
    destruct (safe_char_plain c Hc) as (->&->&->). rewrite Hc. cbn [default]. by rewrite sh_words_safe.
  - rewrite str_app_cons, str_app_assoc. change (String squote EmptyString +:+ r) with (String squote r).
    change (sh_words Unquoted None (String squote (escape_squotes (String c s) +:+ String squote r)))
      with (sh_words Single (Some "") (escape_squotes (String c s) +:+ String squote r)). by rewrite sh_words_escaped.
Qed.

Lemma shlex_join_words l : sh_words Unquoted None (shlex_join l) = Some l.
Proof.
  unfold shlex_join. induction l as [|x l IH]; [done|]. destruct l as [|y l].
  - change (str_join " " (shlex_quote <$> [x])) with (shlex_quote x). rewrite <- (str_app_nil_r (shlex_quote x)).
    by rewrite sh_words_quote.
  - change (str_join " " (shlex_quote <$> x :: y :: l)) with (shlex_quote x +:+ String sp_char (str_join " " (shlex_quote <$> y :: l))).
    rewrite sh_words_quote. cbn [sh_words]. rewrite Ascii.eqb_refl. by rewrite IH.
Qed.
