(* ===== verification/Members.v ===== *)
(** * Names of archive members

    What the proofs about archives share: the parts of paths, members found by name, and the
    characters of digests. *)
From Stdlib Require Import Ascii.
From S2P Require Export PyState JsonParse Sha Shell.

(** ** Parts of paths *)

(** A component without a slash. *)
Lemma split_slash_component p cur r : str_mem "/" p = false ->
  split_slash (p +:+ String "/" r) cur = (cur +:+ p) :: split_slash r "".
Proof.
  revert cur. induction p as [|c p IH]; intros cur Hp; [by rewrite str_app_nil_r|].
  cbn [str_mem] in Hp. apply orb_false_iff in Hp as [Hc Hp]. rewrite str_app_cons. cbn [split_slash].
  rewrite Ascii.eqb_sym in Hc. rewrite Hc, IH, str_app_assoc by done. done.
Qed.
Lemma split_slash_last p cur : str_mem "/" p = false -> split_slash p cur = [cur +:+ p].
Proof.
  revert cur. induction p as [|c p IH]; intros cur Hp; [by rewrite str_app_nil_r|].
  cbn [str_mem] in Hp. apply orb_false_iff in Hp as [Hc Hp]. cbn [split_slash].
  rewrite Ascii.eqb_sym in Hc. by rewrite Hc, IH, str_app_assoc.
Qed.
Lemma str_mem_app c a b : str_mem c (a +:+ b) = str_mem c a || str_mem c b.
Proof. induction a as [|d a IH]; [done|]. rewrite str_app_cons. cbn [str_mem]. by rewrite IH, orb_assoc. Qed.
Lemma str_mem_prefix c n s : str_mem c s = false -> str_mem c (prefix_of n s) = false.
Proof.
  revert n. induction s as [|d s IH]; intros n; [done|]. cbn [str_mem prefix_of]. intros [Hd Hs]%orb_false_iff.
  destruct (is_cont d); [|destruct n; [done|]]; cbn [str_mem]; by rewrite Hd, IH.
Qed.

Lemma strip_prefix_append p s : strip_prefix p (p +:+ s) = Some s.
Proof. induction p as [|c p IH]; [done|]. rewrite str_app_cons. cbn [strip_prefix]. by rewrite Ascii.eqb_refl. Qed.
Lemma startswith_append p s : str_startswith p (p +:+ s) = true.
Proof.
  unfold str_startswith. induction p as [|c p IH]; [by destruct s|]. rewrite str_app_cons. cbn [String.prefix]. by destruct (ascii_dec c c).
Qed.

(** A part that is neither empty nor a dot, and is ASCII without slashes. *)
Definition plain_name (s : string) : Prop := s <> "" /\ s <> "." /\ s <> ".." /\ str_mem "/" s = false /\ ascii_string s = true.

Lemma split_join p : p <> [] -> Forall plain_name p -> split_slash (str_join "/" p) "" = p.
Proof.
  intros Hp H. induction H as [|x p (_&_&_&Hx&_) H IH]; [done|]. destruct p as [|y p].
  - cbn [str_join]. by rewrite split_slash_last.
  - change (str_join "/" (x :: y :: p)) with (x +:+ String "/" (str_join "/" (y :: p))). by rewrite split_slash_component, IH.
Qed.
Lemma parts_join p : Forall plain_name p -> path_parts (str_join "/" p) = p.
Proof.
  intros H. destruct p as [|x p]; [done|]. unfold path_parts. rewrite split_join by done. induction H as [|y l (H1&H2&_) Hl IH]; [done|]. cbn [List.filter].
  destruct (String.eqb_spec y ""), (String.eqb_spec y "."); try done. cbn [negb andb]. by rewrite IH.
Qed.
Lemma join_ascii p : Forall plain_name p -> ascii_string (str_join "/" p) = true.
Proof. intros H. apply ascii_join; [done|]. eapply Forall_impl; [exact H|]. by intros x (_&_&_&_&Hx). Qed.
Lemma slash_join_inj p q : Forall plain_name p -> Forall plain_name q -> str_join "/" p = str_join "/" q -> p = q.
Proof. intros Hp Hq H. by rewrite <- (parts_join p), H, parts_join. Qed.
Lemma join_relative p : p <> [] -> Forall plain_name p -> str_startswith "/" (str_join "/" p) = false.
Proof.
  intros Hp H. destruct H as [|x p (Hx&_&_&Hs&_) H]; [done|]. destruct x as [|c x]; [done|]. cbn [str_mem] in Hs. apply orb_false_iff in Hs as [Hc _].
  destruct p as [|y p]; cbn [str_join]; [|rewrite str_app_cons]; unfold str_startswith; cbn [String.prefix]; (destruct (ascii_dec "/" c) as [<-|]; [discriminate Hc|done]).
Qed.

Lemma str_rev_app_spec s acc : str_rev_app s acc = str_rev s +:+ acc.
Proof.
  unfold str_rev. revert acc. induction s as [|c s IH]; intros acc; [done|]. cbn [str_rev_app].
  rewrite IH, (IH (String c "")), str_app_assoc. done.
Qed.
Lemma str_rev_append a b : str_rev (a +:+ b) = str_rev b +:+ str_rev a.
Proof.
  induction a as [|c a IH]; [change (str_rev b = str_rev b +:+ ""); by rewrite str_app_nil_r|].
  rewrite str_app_cons. unfold str_rev. cbn [str_rev_app].
  rewrite (str_rev_app_spec (a +:+ b)), (str_rev_app_spec a), IH, str_app_assoc. done.
Qed.

Lemma str_mem_rev c s : str_mem c (str_rev s) = str_mem c s.
Proof.
  induction s as [|d s IH]; [done|]. change (String d s) with (String d "" +:+ s). rewrite str_rev_append, !str_mem_app, IH.
  cbn [str_mem str_rev str_rev_app]. by rewrite orb_comm.
Qed.
Lemma str_rev_empty s : str_rev s = "" -> s = "".
Proof. destruct s as [|c s]; [done|]. change (String c s) with (String c "" +:+ s). rewrite str_rev_append. by destruct (str_rev s). Qed.
Lemma no_slash_end a x : x <> "" -> str_mem "/" x = false -> str_endswith "/" (a +:+ x) = false.
Proof.
  intros Hx Hs. unfold str_endswith. rewrite str_rev_append. rewrite <- str_mem_rev in Hs. destruct (str_rev x) as [|c r] eqn:E; [by apply str_rev_empty in E|].
  cbn [str_mem] in Hs. apply orb_false_iff in Hs as [Hc _]. rewrite str_app_cons. cbn [str_rev str_rev_app String.prefix].
  destruct (ascii_dec "/" c) as [<-|]; [discriminate Hc|done].
Qed.
Lemma join_end p : p <> [] -> Forall plain_name p -> str_endswith "/" (str_join "/" p) = false.
Proof.
  intros Hp H. assert (He : exists a x, str_join "/" p = a +:+ x /\ plain_name x).
  { induction H as [|x p Hx H IH]; [done|]. destruct p as [|y p]; [by exists "", x|]. destruct IH as (a&z&Heq&Hz); [done|].
    exists (x +:+ "/" +:+ a), z. split; [|done]. change (str_join "/" (x :: y :: p)) with (x +:+ "/" +:+ str_join "/" (y :: p)). by rewrite Heq, !str_app_assoc. }
  destruct He as (a&x&->&Hx&_&_&Hs&_). by apply no_slash_end.
Qed.

(** ** Digests *)

Lemma hex_no_slash s : str_forall hex_char s = true -> str_mem "/" s = false.
Proof.
  induction s as [|c s IH]; [done|]. cbn [str_forall str_mem]. intros [Hc Hs]%andb_true_iff. rewrite (IH Hs), orb_false_r.
  destruct (Ascii.eqb_spec "/" c) as [<-|]; [discriminate Hc|done].
Qed.
Lemma hex_ascii s : str_forall hex_char s = true -> ascii_string s = true.
Proof.
  unfold ascii_string. induction s as [|c s IH]; [done|]. cbn [str_forall]. intros [Hc Hs]%andb_true_iff. rewrite (IH Hs), andb_true_r.
  revert Hc. destruct c as [[] [] [] [] [] [] [] []]; vm_compute; congruence.
Qed.
Lemma sha256_ascii s : ascii_string (sha256_hex s) = true.
Proof. pose proof (sha256_hex64 s) as H. unfold is_hex64 in H. apply andb_true_iff in H as [_ H]. by apply hex_ascii. Qed.

(** ** Members *)

Lemma filter_everything {A} (f : A -> bool) (l : list A) : (forall x, x ∈ l -> f x = true) -> List.filter f l = l.
Proof. induction l as [|x l IH]; intros Hf; [done|]. cbn. rewrite (Hf x) by (by left). f_equal. apply IH. intros y Hy. apply Hf. by right. Qed.
Lemma filter_nothing {A} (f : A -> bool) (l : list A) : (forall x, x ∈ l -> f x = false) -> List.filter f l = [].
Proof.
  induction l as [|x l IH]; intros Hf; [done|]. cbn. rewrite Hf by by left. apply IH. intros y Hy. apply Hf. by right.
Qed.
(** The last element with a key is the one, when keys are distinct. *)
Lemma find_last {A} (key : A -> string) (l : list A) (x : A) : NoDup (key <$> l) -> x ∈ l ->
  List.find (fun y => String.eqb (key y) (key x)) (rev l) = Some x.
Proof.
  intros Hnd Hx. destruct (List.find _ (rev l)) as [y|] eqn:E.
  - apply List.find_some in E as [Hin Heq%String.eqb_eq]. rewrite <- List.in_rev in Hin. apply list_elem_of_In in Hin.
    f_equal. apply list_elem_of_lookup in Hin as [i Hi], Hx as [j Hj]. assert (i = j) as <-; [|congruence].
    eapply NoDup_lookup; [exact Hnd|rewrite list_lookup_fmap, Hi; reflexivity|rewrite list_lookup_fmap, Hj; cbn; by rewrite Heq].
  - eapply List.find_none in E; [|apply List.in_rev; rewrite rev_involutive; by apply list_elem_of_In]. cbn in E. by rewrite String.eqb_refl in E.
Qed.
