(* ===== verification/Fleet.v ===== *)
(** * The worker fleet ([ppc_lab_fleet.py])

    A fleet runs the jobs of a manifest on several hosts: it probes the hosts, reuses the records of
    earlier runs, stages the inputs of the other jobs on a host by content, runs each there and
    retries transient failures on the next compatible host.  The jobs are threads of a pool that
    hold a host's semaphore during an attempt; the model interleaves their steps freely. *)
From stdpp Require Import pretty.
From Stdlib Require Import Ascii.
From S2P Require Export Jobs Shell.

Definition FLEET_SCHEMA : string := "ppc-lab-fleet-v1".
Definition JOB_RESULT_SCHEMA : string := "ppc-lab-fleet-job-result-v1".
Definition SUMMARY_SCHEMA : string := "ppc-lab-fleet-summary-v1".
Definition CAPABILITIES_SCHEMA : string := "ppc-lab-capabilities-v1".

(** ** Hosts *)

Record HostSpec := Host {
  h_index : Z; h_name : string; transport : string; slots : Z; h_root : string; ppc_lab : string; worker : string;
  endpoint : option string; python : string; tags : list string; capabilities : option (dict value); error : option string }.

Definition is_local (h : HostSpec) : bool := String.eqb (transport h) "local".

Definition nonempty_str (v : value) : bool := match v with VStr s => negb (str_empty s) | _ => false end.
Definition str_of (v : value) : string := match v with VStr s => s | _ => "" end.

(** A set of strings: its elements, once each. *)
Definition _string_list (v : value) (what : string) : res (list string) :=
  match v with
  | VNone => Ok []
  | VList l => _ ← guard_app (forallb nonempty_str l) (what +:+ " must be an array of non-empty strings"); Ok (remove_dups (str_of <$> l))
  | _ => app_error (what +:+ " must be an array of non-empty strings")
  end.

(** The fields [ppc_lab], [worker] and [python] of a host. *)
Definition host_command (i : Z) (item : dict value) (field dflt : string) : res string :=
  let v := dget_or field (VStr dflt) item in
  _ ← guard_app (nonempty_str v) (at_index "hosts" i +:+ "." +:+ field +:+ " must be a non-empty string"); Ok (str_of v).

Section manifest.
Context (sys : fs) (parent : string).
(** [str((parent / Path(root).expanduser()).resolve())] *)
Context (resolve_root : string -> string).

Definition load_host (st : list string * list HostSpec) (ij : Z * value) : res (list string * list HostSpec) :=
  let '(seen, hosts) := st in
  let i := fst ij in
  let field f := at_index "hosts" i +:+ "." +:+ f in
  match snd ij with
  | VDict item =>
      _ ← check_fields "hosts" i ["name"; "transport"; "endpoint"; "slots"; "root"; "ppc_lab"; "worker"; "python"; "tags"] item;
      let name := dget_n "name" item in
      _ ← guard_app (nonempty_str name) (field "name" +:+ " must be a non-empty string");
      let name := str_of name in
      _ ← guard_app (negb (existsb (String.eqb name) seen)) ("duplicate host name: " +:+ name);
      let transport := dget_or "transport" (VStr "ssh") item in
      _ ← guard_app (eq_str transport "local" || eq_str transport "ssh") (field "transport" +:+ " must be local or ssh");
      let endpoint := dget_n "endpoint" item in
      _ ← guard_app (negb (eq_str transport "ssh") || nonempty_str endpoint) (field "endpoint" +:+ " is required for ssh transport");
      _ ← guard_app (is_none endpoint || is_str endpoint) (field "endpoint" +:+ " must be a string");
      slots ← match dget_or "slots" (VInt 1) item with
              | VInt n => _ ← guard_app (1 <=? n) (field "slots" +:+ " must be a positive integer"); Ok n
              | _ => app_error (field "slots" +:+ " must be a positive integer")
              end;
      let root := dget_n "root" item in
      _ ← guard_app (nonempty_str root) (field "root" +:+ " must be a non-empty path string");
      root ← (if eq_str transport "local" then Ok (resolve_root (str_of root))
              else _ ← guard_app (str_startswith "/" (str_of root)) (field "root" +:+ " must be an absolute POSIX path for ssh transport");
                   Ok (str_of root));
      ppc_lab ← host_command i item "ppc_lab" "ppc-lab";
      worker ← host_command i item "worker" "ppc-lab-worker";
      python ← host_command i item "python" "python3";
      tags ← _string_list (dget_n "tags" item) (field "tags");
      Ok (seen ++ [name], hosts ++ [Host i name (str_of transport) slots root ppc_lab worker
        (match endpoint with VStr e => Some e | _ => None end) python tags None None])
  | _ => app_error (at_index "hosts" i +:+ " must be an object")
  end.

Definition load_job (st : list string * list JobSpec) (ij : Z * value) : res (list string * list JobSpec) :=
  let '(seen, jobs) := st in
  let i := fst ij in
  match snd ij with
  | VDict item =>
      _ ← check_fields "jobs" i ["name"; "job"; "path"; "requires_tags"] item;
      _ ← guard_app (xorb (dmem "job" item) (dmem "path" item)) (at_index "jobs" i +:+ " must contain exactly one of job or path");
      '(job, base, source, default_name) ← job_source sys parent i item;
      match job with
      | VDict job =>
          _ ← guard_app (eq_str (dget_n "schema" job) JOB_SCHEMA) (at_index "jobs" i +:+ " schema must be " +:+ JOB_SCHEMA);
          let name := dget_or "name" (VStr default_name) item in
          _ ← guard_app (nonempty_str name) (at_index "jobs" i +:+ ".name must be a non-empty string");
          let name := str_of name in
          _ ← guard_app (negb (existsb (String.eqb name) seen)) ("duplicate job name: " +:+ name);
          required ← _string_list (dget_n "requires_tags" item) (at_index "jobs" i +:+ ".requires_tags");
          Ok (seen ++ [name], jobs ++ [Spec i name job base source required])
      | _ => app_error (at_index "jobs" i +:+ " schema must be " +:+ JOB_SCHEMA)
      end
  | _ => app_error (at_index "jobs" i +:+ " must be an object")
  end.

Definition retries_ok (manifest : dict value) : bool :=
  match dget "retries" manifest with None => true | Some (VInt n) => 0 <=? n | Some _ => false end.
Definition timeout_ok (manifest : dict value) : bool :=
  match dget "timeout" manifest with
  | None => true | Some (VInt n) => 0 <? n | Some (VFloat x) => negb (fleb x fzero) | Some _ => false end.

Definition _load_manifest (read : res value) : res (dict value * list HostSpec * list JobSpec) :=
  match read with
  | Raise e => app_error ("cannot read fleet manifest: " +:+ exn_msg e)
  | Ok v =>
      match v with
      | VDict manifest =>
          _ ← guard_app (eq_str (dget_n "schema" manifest) FLEET_SCHEMA) ("manifest schema must be " +:+ FLEET_SCHEMA);
          match dget_n "hosts" manifest, dget_n "jobs" manifest with
          | VList (h :: hs), VList (j :: js) =>
              _ ← guard_app (retries_ok manifest) "manifest.retries must be a non-negative integer";
              _ ← guard_app (timeout_ok manifest) "manifest.timeout must be greater than zero";
              '(_, hosts) ← res_fold load_host ([], []) (enumerate (h :: hs));
              '(_, jobs) ← res_fold load_job ([], []) (enumerate (j :: js));
              Ok (manifest, hosts, jobs)
          | VList (_ :: _), _ => app_error "manifest.jobs must be a non-empty array"
          | _, _ => app_error "manifest.hosts must be a non-empty array"
          end
      | _ => app_error ("manifest schema must be " +:+ FLEET_SCHEMA)
      end
  end.
End manifest.

Definition _job_inputs (sys : fs) (local_root : option string) (spec : JobSpec) : res (list input) :=
  job_inputs sys "local root" local_root spec.

(** ** Processes on a host *)

(** A command that cannot be started or times out raises. *)
Abbreviation run := (res process).

Definition _ssh_cmd (ssh : string) (ssh_options : list string) (endpoint : string) (remote_argv : list string) : list string :=
  ssh :: ssh_options ++ [endpoint; shlex_join remote_argv].

(** [a.strip() or b.strip()] *)
Definition first_text (a b : string) : string := let a := str_strip a in if str_empty a then str_strip b else a.

(** What probing a host observes: its [capabilities --json], whether a local worker is found, and
    the remote check for the worker. *)
Record probe := Probe { pr_run : run; pr_worker : bool; pr_check : run }.

Definition check_capabilities (h : HostSpec) (p : probe) : res (dict value) :=
  proc ← pr_run p;
  _ ← guard_app (exit_code proc =? 0)
        (let e := first_text (stderr proc) (stdout proc) in if str_empty e then "exit " +:+ pretty (exit_code proc) else e);
  caps ← parsed proc;
  match caps with
  | VDict caps =>
      _ ← guard_app (eq_str (dget_n "schema" caps) CAPABILITIES_SCHEMA) "unsupported capabilities document";
      _ ← guard_app (match dget_n "protocols" caps with
                     | VDict ps => eq_str (dget_n "job" ps) JOB_SCHEMA && eq_str (dget_n "worker_response" ps) WORKER_RESPONSE_SCHEMA
                     | _ => false
                     end) "host does not advertise the required worker protocols";
      _ ← (if is_local h then guard_app (pr_worker p) ("worker not found on local host: " +:+ worker h)
           else check ← pr_check p; guard_app (exit_code check =? 0) ("worker not found on remote host: " +:+ worker h));
      Ok caps
  | _ => app_error "unsupported capabilities document"
  end.

Definition set_health (caps : option (dict value)) (err : option string) (h : HostSpec) : HostSpec :=
  Host (h_index h) (h_name h) (transport h) (slots h) (h_root h) (ppc_lab h) (worker h) (endpoint h) (python h) (tags h) caps err.

Definition _probe_host (p : probe) (h : HostSpec) : HostSpec :=
  match check_capabilities h p with
  | Ok caps => set_health (Some caps) (error h) h
  | Raise e => set_health None (Some (exn_msg e)) h
  end.

(** ** Staging *)

Definition _remote_store_path (h : HostSpec) (digest : string) : string := posix_join (h_root h) [".ppc-lab"; "store"; digest].

(** What staging a file observes: on a local host the digest of the object already there and that
    of the copy made; on an SSH host the outcomes of its commands. *)
Record staging := Staging {
  s_existing : option string; s_copied : string;
  s_hash : run; s_mkdir : run; s_scp : run; s_move : run; s_cleanup : run }.

Definition _stage_local (h : HostSpec) (source digest : string) (s : staging) : res string :=
  let dest := posix_join (h_root h) [".ppc-lab"; "store"; digest] in
  if bool_decide (s_existing s = Some digest) then Ok dest
  else _ ← guard_app (String.eqb (s_copied s) digest) ("local staging hash mismatch for " +:+ source); Ok dest.

Definition _remote_hash_ok (s : staging) : res bool := proc ← s_hash s; Ok (exit_code proc =? 0).

(** The [-o] options of the command, for [scp]. *)
Fixpoint scp_options (l : list string) : list string :=
  match l with
  | a :: (b :: _) as l' => (if String.eqb a "-o" then [a; b] else []) ++ scp_options l'
  | _ => []
  end.

Definition _stage_ssh (h : HostSpec) (digest : string) (s : staging) : res string :=
  let remote := _remote_store_path h digest in
  present ← _remote_hash_ok s;
  if present : bool then Ok remote
  else
    mkdir ← s_mkdir s;
    _ ← guard_app (exit_code mkdir =? 0) (h_name h +:+ ": cannot create remote store: " +:+ str_strip (stderr mkdir));
    scp ← s_scp s;
    _ ← guard_app (exit_code scp =? 0) (h_name h +:+ ": scp failed: " +:+ first_text (stderr scp) (stdout scp));
    move ← s_move s;
    if exit_code move =? 0 then Ok remote
    else _ ← s_cleanup s; app_error (h_name h +:+ ": remote staging verification failed").

(** Replace a path of the job's image. *)
Definition set_image (field staged : string) (job : dict value) : dict value :=
  match dget_n "image" job with
  | VDict image =>
      let key := if String.eqb field "image.path" then Some "path"
                 else if String.eqb field "image.data_path" then Some "data_path" else None in
      match key with Some k => dset "image" (obj (dset k (VStr staged) image)) job | None => job end
  | _ => job
  end.

Definition _stage_job (spec : JobSpec) (inputs : list input) (h : HostSpec) (s : string -> staging) : res (dict value) :=
  res_fold (fun job i =>
    staged ← (if is_local h then _stage_local h (in_path i) (in_sha i) (s (in_field i)) else _stage_ssh h (in_sha i) (s (in_field i)));
    Ok (set_image (in_field i) staged job)) (job spec) inputs.

(** ** Running a job on a host *)

Definition worker_argv (h : HostSpec) (timeout : float) : list string :=
  [worker h; "--ppc-lab"; ppc_lab h; "--base-dir"; h_root h; "--root"; h_root h; "--timeout"; float_repr timeout; "run"; "-"].
Definition command (ssh : string) (ssh_options : list string) (h : HostSpec) (timeout : float) : list string :=
  if is_local h then worker_argv h timeout else _ssh_cmd ssh ssh_options (default "" (endpoint h)) (worker_argv h timeout).

Definition failure (job : dict value) (timed_out : bool) (msg : string) (rest : dict value) : dict value :=
  [("schema", VStr WORKER_RESPONSE_SCHEMA); ("id", dget_n "id" job); ("ok", VBool false); ("exit_code", VNone);
   ("timed_out", VBool timed_out); ("error", VStr msg)] ++ rest.

(** A response, whether it is worth a retry, and the layer that gave it. *)
Definition _run_host_job (job : dict value) (ran : run) : res (dict value * bool * string) :=
  match ran with
  | Raise e =>
      if handled [TimeoutExpired] e then Ok (failure job true "fleet transport timeout" [], true, "transport-timeout")
      else Raise e
  | Ok proc =>
      let output := [("stdout", VStr (stdout proc)); ("stderr", VStr (stderr proc))] in
      if negb ((exit_code proc =? 0) || (exit_code proc =? 1)) then
        Ok (failure job false ("worker transport exit " +:+ pretty (exit_code proc)) output, true, "transport-exit")
      else match parsed proc with
      | Raise e => Ok (failure job false ("invalid worker response: " +:+ exn_msg e) output, true, "transport-json")
      | Ok (VDict response) =>
          if eq_str (dget_n "schema" response) WORKER_RESPONSE_SCHEMA
          then Ok (response, py_bool (dget_n "timed_out" response), "worker")
          else Ok (failure job false "unsupported worker response" [], true, "transport-schema")
      | Ok _ => Ok (failure job false "unsupported worker response" [], true, "transport-schema")
      end
  end.

(** ** Placement and cache keys *)

Definition _cache_key (spec : JobSpec) (engine_version : string) (inputs : list input) : string :=
  sha256_hex (_canonical (obj [
    ("protocol", VStr FLEET_SCHEMA); ("job", obj (job spec)); ("engine_version", VStr engine_version);
    ("inputs", portable_inputs inputs)])).

Definition _valid_record (file : option value) (key : string) : option (dict value) := valid_record JOB_RESULT_SCHEMA key file.

Definition _job_backend (spec : JobSpec) : value :=
  match dget_n "execution" (job spec) with VDict e => dget_or "backend" (VStr "auto") e | _ => VStr "auto" end.

(** [x in container] *)
Definition py_in (x container : value) : res bool :=
  let type_error := Raise (Exn TypeError ("'in' on " +:+ type_name container)) in
  match container, x with
  | VList l, _ => Ok (existsb (py_eq x) l)
  | VDict d, VStr s => Ok (dmem s d)
  | VDict _, (VList _ | VDict _) => type_error
  | VDict _, _ => Ok false
  | VStr c, VStr s => Ok (str_contains s c)
  | _, _ => type_error
  end.

Definition eligible (spec : JobSpec) (engine_version : string) (h : HostSpec) : res bool :=
  match capabilities h with
  | None => Ok false
  | Some caps =>
      if negb (eq_str (dget_n "version" caps) engine_version) then Ok false
      else if negb (forallb (fun t => existsb (String.eqb t) (tags h)) (required_tags spec)) then Ok false
      else let backend := _job_backend spec in
        if eq_str backend "auto" || eq_str backend "builtin" then Ok true
        else py_in backend (dget_or "backends" (VList []) caps)
  end.

Definition _eligible_hosts (spec : JobSpec) (hosts : list HostSpec) (engine_version : string) : res (list HostSpec) :=
  keep ← res_map (eligible spec engine_version) hosts;
  Ok (fst <$> List.filter snd (zip hosts keep)).

(** ** Planning *)

Record counters := Counters { executed : Z; resumed : Z; cache_hits : Z; failed : Z }.
Record task := Task { t_spec : JobSpec; t_inputs : list input; t_key : string; t_hosts : list HostSpec }.
Record planning := Planning { pn_tasks : list task; pn_rows : list value; pn_counters : counters }.

Definition response_ok (record : dict value) : bool := py_bool (dget_n "ok" (response_of record)).
Definition row (spec : JobSpec) (key status : string) (ok : bool) (host : value) (rest : dict value) : value :=
  obj ([("name", VStr (name spec)); ("file", VStr (result_file spec)); ("status", VStr status); ("ok", VBool ok);
        ("host", host); ("cache_key", VStr key)] ++ rest).
(** [summary_rows[spec.index] = row] *)
Definition set_row (spec : JobSpec) (r : value) (rows : list value) : list value := <[Z.to_nat (index spec) := r]> rows.

Definition cache_path (key : string) : string := key +:+ ".json".
Definition put_out (file : string) (record : dict value) (w : world) : world := World (dset file (obj record) (out w)) (cache w).
Definition put_cache (key : string) (record : dict value) (w : world) : world := World (out w) (dset (cache_path key) (obj record) (cache w)).

Section planning.
Context (no_resume use_cache : bool) (hosts : list HostSpec) (engine_version : string).

(** A job is resumed, taken from the cache, or planned; [None] when no host may run it. *)
Definition plan_job (p : planning) (si : JobSpec * list input) : M world (option planning) :=
  let '(spec, inputs) := si in
  let c := pn_counters p in
  able ← lift (_eligible_hosts spec hosts engine_version);
  match able with
  | [] => mret None
  | _ =>
      let key := _cache_key spec engine_version inputs in
      w ← gets id;
      match (if no_resume then None else _valid_record (dget (result_file spec) (out w)) key) with
      | Some record =>
          let ok := response_ok record in
          mret (Some (Planning (pn_tasks p) (set_row spec (row spec key "resumed" ok (dget_n "host" record) []) (pn_rows p))
            (Counters (executed c) (resumed c + 1) (cache_hits c) (if ok then failed c else failed c + 1))))
      | None =>
          match (if use_cache then _valid_record (dget (cache_path key) (cache w)) key else None) with
          | Some cached =>
              if response_ok cached then
                _ ← modify (put_out (result_file spec) cached);
                mret (Some (Planning (pn_tasks p) (set_row spec (row spec key "cache-hit" true (dget_n "host" cached) []) (pn_rows p))
                  (Counters (executed c) (resumed c) (cache_hits c + 1) (failed c))))
              else mret (Some (Planning (pn_tasks p ++ [Task spec inputs key able]) (pn_rows p) c))
          | None => mret (Some (Planning (pn_tasks p ++ [Task spec inputs key able]) (pn_rows p) c))
          end
      end
  end.

Fixpoint plan_jobs (p : planning) (jobs : list (JobSpec * list input)) : M world (option planning) :=
  match jobs with
  | [] => mret (Some p)
  | j :: jobs => r ← plan_job p j; match r with Some p => plan_jobs p jobs | None => mret None end
  end.
End planning.

(** ** Execution *)

(** What an attempt observes: the staging of each input, the process a command line gives, and the
    time it takes. *)
Record observation := Observation { ob_staging : string -> staging; ob_run : list string -> run; ob_elapsed : float }.

(** A thread's local variables. *)
Record progress := Progress { g_attempts : list value; g_response : option (dict value); g_host : option string }.

(** Where a thread is: queued in the pool; waiting for the semaphore of its attempt's host; holding
    it; past the attempts, about to write its record, to publish it to the cache, and to count it
    under the lock. *)
Inductive phase :=
  | Queued
  | Waiting (i : nat) (g : progress)
  | Holding (i : nat) (g : progress)
  | Writing (g : progress)
  | Caching (g : progress) (response : dict value)
  | Counting (g : progress) (response : dict value)
  | Finished
  | Failed.

Record config := Config { c_phases : list phase; c_world : world; c_counters : counters; c_rows : list value }.

Section execution.
Context (ssh : string) (ssh_options : list string) (timeout : float) (use_cache : bool) (engine_version : string).
Context (max_attempts max_workers : nat).
Context (observe : JobSpec -> HostSpec -> nat -> observation).

(** The hosts of a job, rotated by its index. *)
Definition ordered (t : task) : list HostSpec :=
  let k := Z.to_nat (index (t_spec t) mod Z.of_nat (length (t_hosts t))) in drop k (t_hosts t) ++ take k (t_hosts t).
Definition host_at (t : task) (i : nat) : option HostSpec := ordered t !! (i mod length (ordered t))%nat.

Definition try_host (t : task) (h : HostSpec) (i : nat) : res (dict value * bool * string) :=
  let o := observe (t_spec t) h i in
  staged_job ← _stage_job (t_spec t) (t_inputs t) h (ob_staging o);
  _run_host_job staged_job (ob_run o (command ssh ssh_options h timeout)).

(** One pass of the loop over the attempts, and whether the loop goes on. *)
Definition attempt (t : task) (h : HostSpec) (i : nat) (g : progress) : progress * bool :=
  let elapsed := ob_elapsed (observe (t_spec t) h i) in
  match try_host t h i with
  | Ok (response, retryable, layer) =>
      (Progress (g_attempts g ++ [obj [("host", VStr (h_name h)); ("elapsed_seconds", VFloat (fround elapsed 6)); ("layer", VStr layer);
         ("retryable", VBool retryable); ("ok", VBool (py_bool (dget_n "ok" response)));
         ("timed_out", VBool (py_bool (dget_n "timed_out" response)))]]) (Some response) (Some (h_name h)), retryable)
  | Raise e =>
      (Progress (g_attempts g ++ [obj [("host", VStr (h_name h)); ("elapsed_seconds", VFloat fzero); ("layer", VStr "staging");
         ("retryable", VBool true); ("ok", VBool false); ("error", VStr (exn_msg e))]])
         (Some (failure (job (t_spec t)) false (exn_msg e) [])) (Some (h_name h)), (i + 1 <? max_attempts)%nat)
  end.

(** The loop's next pass, if there is one. *)
Definition next (i : nat) (g : progress) (goes_on : bool) : phase :=
  if goes_on && (i <? max_attempts)%nat then Waiting i g else Writing g.

Definition opt_str (o : option string) : value := match o with Some s => VStr s | None => VNone end.
Definition record_of (t : task) (g : progress) (response : dict value) : dict value :=
  [("schema", VStr JOB_RESULT_SCHEMA); ("name", VStr (name (t_spec t))); ("source", VStr (source (t_spec t)));
   ("cache_key", VStr (t_key t)); ("engine_version", VStr engine_version); ("host", opt_str (g_host g));
   ("attempts", VList (g_attempts g)); ("inputs", portable_inputs (t_inputs t)); ("response", obj response)].

Definition is_active (p : phase) : bool := match p with Queued | Finished | Failed => false | _ => true end.
(** The host whose semaphore a thread holds. *)
Definition holds (t : task) (p : phase) : option Z :=
  match p with Holding i _ => h_index <$> host_at t i | _ => None end.
Definition in_use (tasks : list task) (phases : list phase) (h : Z) : nat :=
  length (List.filter (fun tp => bool_decide (holds (fst tp) (snd tp) = Some h)) (zip tasks phases)).

Definition count_executed (ok : bool) (c : counters) : counters :=
  Counters (executed c + 1) (resumed c) (cache_hits c) (if ok then failed c else failed c + 1).

(** The next step of thread [k]; [None] when it is blocked or has ended. *)
Definition step (tasks : list task) (k : nat) (c : config) : option config :=
  match tasks !! k, c_phases c !! k with
  | Some t, Some p =>
      let move p := Config (<[k := p]> (c_phases c)) (c_world c) (c_counters c) (c_rows c) in
      match p with
      | Queued =>
          if (length (List.filter is_active (c_phases c)) <? max_workers)%nat
          then Some (move (next 0 (Progress [] None None) true)) else None
      | Waiting i g =>
          match host_at t i with
          | Some h => if Z.of_nat (in_use tasks (c_phases c) (h_index h)) <? slots h then Some (move (Holding i g)) else None
          | None => Some (move Failed)
          end
      | Holding i g =>
          match host_at t i with
          | Some h => let '(g, goes_on) := attempt t h i g in Some (move (next (i + 1) g goes_on))
          | None => None
          end
      | Writing g =>
          match g_response g with
          | Some r => Some (Config (<[k := Caching g r]> (c_phases c))
              (put_out (result_file (t_spec t)) (record_of t g r) (c_world c)) (c_counters c) (c_rows c))
          | None => Some (move Failed)
          end
      | Caching g r =>
          Some (Config (<[k := Counting g r]> (c_phases c))
            (if use_cache && py_bool (dget_n "ok" r) then put_cache (t_key t) (record_of t g r) (c_world c) else c_world c)
            (c_counters c) (c_rows c))
      | Counting g r =>
          let ok := py_bool (dget_n "ok" r) in
          Some (Config (<[k := Finished]> (c_phases c)) (c_world c) (count_executed ok (c_counters c))
            (set_row (t_spec t) (row (t_spec t) (t_key t) "executed" ok (opt_str (g_host g))
               [("attempts", VInt (Z.of_nat (length (g_attempts g))))]) (c_rows c)))
      | Finished | Failed => None
      end
  | _, _ => None
  end.

(** The threads that step, in order. *)
Fixpoint run_steps (tasks : list task) (sched : list nat) (c : config) : option config :=
  match sched with
  | [] => Some c
  | k :: sched => match step tasks k c with Some c => run_steps tasks sched c | None => None end
  end.

Definition ended (p : phase) : bool := match p with Finished | Failed => true | _ => false end.
Definition has_failed (p : phase) : bool := match p with Failed => true | _ => false end.
Definition start (tasks : list task) (w : world) (c : counters) (rows : list value) : config :=
  Config (replicate (length tasks) Queued) w c rows.
End execution.

(** ** The command *)

Record options := Options {
  opt_cache : bool; opt_local_root : option string; opt_retries : option Z; opt_timeout : option float;
  opt_probe_timeout : float; opt_ssh : string; opt_ssh_option : list string; opt_no_resume : bool; opt_evidence : option bool }.

Definition retries (opts : options) (manifest : dict value) : Z :=
  match opt_retries opts with Some n => n | None => match dget_or "retries" (VInt 1) manifest with VInt n => n | _ => 1 end end.
Definition timeout (opts : options) (manifest : dict value) : res float :=
  match opt_timeout opts with Some x => Ok x | None => py_float (dget_or "timeout" (VFloat (ratio 60 1)) manifest) end.
Definition ssh_options (opts : options) : res (list string) :=
  seconds ← int_of_float (opt_probe_timeout opts);
  Ok (["-o"; "BatchMode=yes"; "-o"; "ConnectTimeout=" +:+ pretty (Z.max 1 seconds)] ++ flat_map (fun o => ["-o"; o]) (opt_ssh_option opts)).

Definition is_healthy (h : HostSpec) : bool := match capabilities h with Some _ => true | None => false end.
Definition version (h : HostSpec) : value := match capabilities h with Some caps => dget_n "version" caps | None => VNone end.
(** Hosts of another version are excluded. *)
Definition exclude_other (engine_version : string) (h : HostSpec) : HostSpec :=
  if is_healthy h && negb (eq_str (version h) engine_version)
  then set_health None (Some ("engine version mismatch: " +:+ py_str (version h) +:+ " != " +:+ engine_version)) h
  else h.

Definition host_row (h : HostSpec) : value :=
  let cap k := match capabilities h with Some (kv :: d) => dget_n k (kv :: d) | _ => VNone end in
  obj [("name", VStr (h_name h)); ("transport", VStr (transport h)); ("endpoint", opt_str (endpoint h)); ("slots", VInt (slots h));
       ("tags", VList (VStr <$> py_sorted id (tags h))); ("healthy", VBool (is_healthy h)); ("version", cap "version");
       ("backends", cap "backends"); ("error", opt_str (error h))].

Definition summary_of (engine_version : string) (jobs : nat) (c : counters) (hosts : list HostSpec) (rows : list value) : dict value :=
  [("schema", VStr SUMMARY_SCHEMA); ("engine_version", VStr engine_version); ("jobs", VInt (Z.of_nat jobs));
   ("executed", VInt (executed c)); ("resumed", VInt (resumed c)); ("cache_hits", VInt (cache_hits c)); ("failed", VInt (failed c));
   ("hosts", VList (host_row <$> hosts)); ("results", VList rows)].

Record outcome := Outcome { o_code : Z; o_summary : option (dict value) }.
Definition refused : outcome := Outcome 2 None.

Section command.
Context (opts : options) (sys : fs) (parent : string) (resolve_root : string -> string).
Context (probe_of : HostSpec -> probe) (observe : JobSpec -> HostSpec -> nat -> observation).

(** The pool of threads and the summary; [None] when the schedule stops before the threads have
    ended.  The summary also names the evidence store. *)
Definition run_pool (hosts : list HostSpec) (jobs max_attempts max_workers : nat) (timeout : float) (ssh_options : list string)
    (engine_version : string) (sched : list nat) (p : planning) : M world (option outcome) := fun w =>
  match run_steps (opt_ssh opts) ssh_options timeout (opt_cache opts) engine_version max_attempts max_workers observe
          (pn_tasks p) sched (start (pn_tasks p) w (pn_counters p) (pn_rows p)) with
  | Some c =>
      if negb (forallb ended (c_phases c)) then (Ok None, c_world c)
      else if existsb has_failed (c_phases c) then (Ok (Some (Outcome 3 None)), c_world c)
      else
        let summary := summary_of engine_version jobs (c_counters c) hosts (c_rows c) in
        let code := match opt_evidence opts with Some false => 2 | _ => if failed (c_counters c) =? 0 then 0 else 1 end in
        (Ok (Some (Outcome code (Some summary))), World (dset "summary.json" (obj summary) (out (c_world c))) (cache (c_world c)))
  | None => (Ok None, w)
  end.

Definition total_slots (hosts : list HostSpec) : Z := foldr (fun h n => slots h + n) 0 (List.filter is_healthy hosts).

(** From the compatible hosts on. *)
Definition run_fleet (manifest : dict value) (hosts : list HostSpec) (jobs : list (JobSpec * list input))
    (timeout : float) (ssh_options : list string) (engine_version : string) (sched : list nat) : M world (option outcome) :=
  planned ← plan_jobs (opt_no_resume opts) (opt_cache opts) hosts engine_version
    (Planning [] (replicate (length jobs) VNone) (Counters 0 0 0 0)) jobs;
  match planned with
  | None => mret (Some refused)
  | Some p => run_pool hosts (length jobs) (Z.to_nat (1 + retries opts manifest)) (Z.to_nat (Z.max 1 (total_slots hosts)))
                timeout ssh_options engine_version sched p
  end.

Definition main (read : res value) (sched : list nat) : M world (option outcome) :=
  match ('(manifest, hosts, jobs) ← _load_manifest sys parent resolve_root read;
         inputs ← res_map (_job_inputs sys (opt_local_root opts)) jobs;
         Ok (manifest, hosts, zip jobs inputs)) with
  | Raise e => if handled [AppError; FileNotFoundError] e then mret (Some refused) else lift (Raise e)
  | Ok (manifest, hosts, jobs) =>
      timeout ← lift (timeout opts manifest);
      ssh_options ← lift (ssh_options opts);
      let hosts := (fun h => _probe_host (probe_of h) h) <$> hosts in
      match List.filter is_healthy hosts with
      | [] => mret (Some refused)
      | first :: _ =>
          let engine_version := py_str (version first) in
          let hosts := exclude_other engine_version <$> hosts in
          if existsb is_healthy hosts then run_fleet manifest hosts jobs timeout ssh_options engine_version sched
          else mret (Some refused)
      end
  end.
End command.
