(* ===== verification/FleetFacts.v ===== *)
(** * The threads of a fleet: invariants of their interleavings *)
From stdpp Require Import pretty.
From S2P Require Import Fleet.

(** ** Lists updated at one place *)

Lemma filter_insert {A} (P : A -> bool) (l : list A) k x y :
  l !! k = Some x ->
  (length (List.filter P (<[k := y]> l)) + Nat.b2n (P x) = length (List.filter P l) + Nat.b2n (P y))%nat.
Proof.
  revert k. induction l as [|z l IH]; intros [|k]; [done..| |].
  - intros [= ->]. cbn. destruct (P x), (P y); cbn; lia.
  - change (<[S k:=y]> (z :: l)) with (z :: <[k:=y]> l). intros H%IH. cbn [List.filter]. destruct (P z); cbn [length]; lia.
Qed.

Lemma zip_insert_r {A B} (l : list A) (m : list B) k x y :
  l !! k = Some x -> zip l (<[k := y]> m) = <[k := (x, y)]> (zip l m).
Proof. intros H. rewrite <- (list_insert_id l k x) at 1 by done. symmetry. apply insert_zip_with. Qed.

Lemma filter_none {A} (P : A -> bool) (l : list A) : (forall x, x ∈ l -> P x = false) -> List.filter P l = [].
Proof.
  induction l as [|x l IH]; intros H; cbn; [done|]. rewrite H by (by left). apply IH. intros y Hy. apply H. by right.
Qed.

Lemma filter_pos {A} (P : A -> bool) (l : list A) : (0 < length (List.filter P l))%nat -> exists x, x ∈ l /\ P x = true.
Proof.
  destruct (List.filter P l) as [|x m] eqn:E; cbn; [lia|]. intros _. exists x.
  rewrite list_elem_of_In. apply List.filter_In. rewrite E. by left.
Qed.

Section threads.
Context (ssh : string) (ssh_options : list string) (timeout : float) (use_cache : bool) (engine_version : string).
Context (max_attempts max_workers : nat) (observe : JobSpec -> HostSpec -> nat -> observation).
Context (hosts : list HostSpec) (tasks : list task) (w0 : world) (c0 : counters) (rows0 : list value).

Local Abbreviation step := (step ssh ssh_options timeout use_cache engine_version max_attempts max_workers observe tasks).
Local Abbreviation run_steps := (run_steps ssh ssh_options timeout use_cache engine_version max_attempts max_workers observe tasks).
Local Abbreviation attempt := (attempt ssh ssh_options timeout max_attempts observe).
Local Abbreviation record_of := (record_of engine_version).

(** What planning guarantees of its tasks. *)
Record well_planned : Prop := WellPlanned {
  wp_attempts : (1 <= max_attempts)%nat;
  wp_workers : (1 <= max_workers)%nat;
  wp_hosts : forall t, t ∈ tasks -> t_hosts t <> [] /\ forall h, h ∈ t_hosts t -> h ∈ hosts;
  wp_slots : forall h, h ∈ hosts -> 1 <= slots h;
  wp_distinct : forall h h', h ∈ hosts -> h' ∈ hosts -> h_index h = h_index h' -> h = h';
  wp_indices : NoDup ((fun t => index (t_spec t)) <$> tasks);
  wp_range : forall t, t ∈ tasks -> 0 <= index (t_spec t) < Z.of_nat (length rows0)
}.
Hypothesis wp : well_planned.
#[local] Set Default Proof Using "Type".

(** ** The sequential specification of a job *)

Fixpoint attempts_from (fuel i : nat) (t : task) (g : progress) : progress :=
  match fuel with
  | O => g
  | S fuel =>
      match host_at t i with
      | Some h => let '(g, goes_on) := attempt t h i g in if goes_on then attempts_from fuel (i + 1) t g else g
      | None => g
      end
  end.
Definition sequential (t : task) : progress := attempts_from max_attempts 0 t (Progress [] None None).

(** The response and the success of a job. *)
Definition answer (t : task) : dict value := default [] (g_response (sequential t)).
Definition succeeds (t : task) : bool := py_bool (dget_n "ok" (answer t)).
Definition job_record (t : task) : dict value := record_of t (sequential t) (answer t).
Definition job_row (t : task) : value :=
  row (t_spec t) (t_key t) "executed" (succeeds t) (opt_str (g_host (sequential t)))
    [("attempts", VInt (Z.of_nat (length (g_attempts (sequential t)))))].

Lemma host_at_in t i : t_hosts t <> [] -> exists h, host_at t i = Some h /\ h ∈ t_hosts t.
Proof.
  intros Hne. unfold host_at, ordered. set (k := Z.to_nat _).
  assert (Hp : drop k (t_hosts t) ++ take k (t_hosts t) ≡ₚ t_hosts t).
  { rewrite Permutation_app_comm. by rewrite take_drop. }
  destruct (lookup_lt_is_Some_2 (drop k (t_hosts t) ++ take k (t_hosts t))
    (i mod length (drop k (t_hosts t) ++ take k (t_hosts t)))%nat) as (h&Hh).
  { apply Nat.mod_upper_bound. rewrite Hp. by destruct (t_hosts t). }
  exists h. split; [done|]. rewrite <- Hp. by eapply list_elem_of_lookup_2.
Qed.

Lemma attempt_spec t h i g : exists a r,
  g_attempts (fst (attempt t h i g)) = g_attempts g ++ [a] /\ g_response (fst (attempt t h i g)) = Some r.
Proof. unfold Fleet.attempt. destruct (try_host _ _ _ _ _ _ _) as [[[r ?] ?]|e]; cbn; eauto. Qed.

(** ** The invariant *)

(** A thread is on its way to the sequential result. *)
Definition on_course (t : task) (p : phase) : Prop :=
  match p with
  | Queued => True
  | Waiting i g | Holding i g =>
      (i < max_attempts)%nat /\ length (g_attempts g) = i /\ attempts_from (max_attempts - i) i t g = sequential t
  | Writing g => g = sequential t
  | Caching g r | Counting g r => g = sequential t /\ g_response g = Some r
  | Finished => True
  | Failed => False
  end.

Definition written (p : phase) : bool := match p with Caching _ _ | Counting _ _ | Finished => true | _ => false end.
Definition finished (p : phase) : bool := match p with Finished => true | _ => false end.

(** What the files and rows of a job hold while its thread is at a phase. *)
Definition files_agree (t : task) (p : phase) (c : config) : Prop :=
  dget (result_file (t_spec t)) (out (c_world c)) =
    (if written p then Some (obj (job_record t)) else dget (result_file (t_spec t)) (out w0)) /\
  c_rows c !! Z.to_nat (index (t_spec t)) =
    (if finished p then Some (job_row t) else rows0 !! Z.to_nat (index (t_spec t))).

Record inv (c : config) : Prop := Inv {
  i_length : length (c_phases c) = length tasks;
  i_slots : forall h, h ∈ hosts -> Z.of_nat (in_use tasks (c_phases c) (h_index h)) <= slots h;
  i_workers : (length (List.filter is_active (c_phases c)) <= max_workers)%nat;
  i_threads : forall k t p, tasks !! k = Some t -> c_phases c !! k = Some p -> on_course t p /\ files_agree t p c;
  i_files : forall n, n ∉ (fun t => result_file (t_spec t)) <$> tasks -> dget n (out (c_world c)) = dget n (out w0);
  i_rows : length (c_rows c) = length rows0 /\
    forall i, (forall t, t ∈ tasks -> Z.to_nat (index (t_spec t)) <> i) -> c_rows c !! i = rows0 !! i;
  i_cache : forall n, dget n (cache (c_world c)) = dget n (cache w0) \/
    exists t, t ∈ tasks /\ succeeds t = true /\ n = cache_path (t_key t) /\ dget n (cache (c_world c)) = Some (obj (job_record t));
  i_counters : c_counters c =
    Counters (executed c0 + Z.of_nat (length (List.filter finished (c_phases c)))) (resumed c0) (cache_hits c0)
      (failed c0 + Z.of_nat (length (List.filter (fun tp => finished (snd tp) && negb (succeeds (fst tp))) (zip tasks (c_phases c)))))
}.

Lemma files_distinct t t' : t ∈ tasks -> t' ∈ tasks -> result_file (t_spec t) = result_file (t_spec t') -> index (t_spec t) = index (t_spec t').
Proof using wp.
  intros Ht Ht' Heq. eapply result_name_inj; [| |exact Heq]; eapply (wp_range wp); eauto.
Qed.

Lemma index_place k k' t t' : tasks !! k = Some t -> tasks !! k' = Some t' -> index (t_spec t) = index (t_spec t') -> k = k'.
Proof using wp.
  intros Hk Hk' Heq. pose proof (wp_indices wp) as Hnd.
  eapply (NoDup_lookup _ _ _ (index (t_spec t)) Hnd); rewrite list_lookup_fmap, ?Hk, ?Hk'; cbn; congruence.
Qed.

(** The other threads do not see a step of thread [k] that only writes [k]'s file and row. *)
Lemma threads_kept c c' k t p' :
  inv c -> tasks !! k = Some t -> c_phases c' = <[k := p']> (c_phases c) ->
  (forall n, n <> result_file (t_spec t) -> dget n (out (c_world c')) = dget n (out (c_world c))) ->
  (forall i, i <> Z.to_nat (index (t_spec t)) -> c_rows c' !! i = c_rows c !! i) ->
  on_course t p' -> files_agree t p' c' ->
  forall k2 t2 p2, tasks !! k2 = Some t2 -> c_phases c' !! k2 = Some p2 -> on_course t2 p2 /\ files_agree t2 p2 c'.
Proof using wp.
  intros Hinv Hk Hph Hout Hrow Hc Hf k2 t2 p2 Hk2 Hp2. rewrite Hph in Hp2.
  destruct (decide (k2 = k)) as [->|Hne].
  - rewrite Hk in Hk2. injection Hk2 as <-. apply list_lookup_insert_Some in Hp2 as [(_&<-&_)|(?&_)]; [by split|done].
  - rewrite list_lookup_insert_ne in Hp2 by done. destruct (i_threads _ Hinv k2 t2 p2 Hk2 Hp2) as (H1&H2&H3).
    assert (Ht : t ∈ tasks) by (by eapply list_elem_of_lookup_2). assert (Ht2 : t2 ∈ tasks) by (by eapply list_elem_of_lookup_2).
    assert (Hi : index (t_spec t2) <> index (t_spec t)) by (intros Heq; by eapply Hne, index_place).
    split; [done|]. split.
    + rewrite Hout; [done|]. intros Heq. by apply Hi, files_distinct.
    + rewrite Hrow; [done|]. pose proof (wp_range wp t Ht). pose proof (wp_range wp t2 Ht2). lia.
Qed.

(** A step of thread [k] from [p] to [p'] that keeps the rules keeps the invariant. *)
Lemma inv_step c c' k t p p' :
  inv c -> tasks !! k = Some t -> c_phases c !! k = Some p -> c_phases c' = <[k := p']> (c_phases c) ->
  (forall h, holds t p' = Some (h_index h) -> h ∈ hosts ->
     Z.of_nat (in_use tasks (c_phases c) (h_index h)) < slots h) ->
  (is_active p' = true -> is_active p = true \/ (length (List.filter is_active (c_phases c)) < max_workers)%nat) ->
  on_course t p' -> files_agree t p' c' ->
  (forall n, n <> result_file (t_spec t) -> dget n (out (c_world c')) = dget n (out (c_world c))) ->
  (forall i, i <> Z.to_nat (index (t_spec t)) -> c_rows c' !! i = c_rows c !! i) -> length (c_rows c') = length (c_rows c) ->
  (forall n, dget n (cache (c_world c')) = dget n (cache (c_world c)) \/
     (succeeds t = true /\ n = cache_path (t_key t) /\ dget n (cache (c_world c')) = Some (obj (job_record t)))) ->
  finished p = false ->
  c_counters c' = (if finished p' then count_executed (succeeds t) (c_counters c) else c_counters c) ->
  inv c'.
Proof using wp.
  intros Hinv Hk Hp Hph Hslot Hact Hc Hf Hout Hrow Hlen Hcache Hfin Hcnt.
  assert (Ht : t ∈ tasks) by (by eapply list_elem_of_lookup_2).
  assert (Hz : zip tasks (c_phases c) !! k = Some (t, p)) by (by apply lookup_zip_with_Some; eauto 6).
  split.
  - rewrite Hph, length_insert. apply Hinv.
  - intros h Hh. unfold in_use. rewrite Hph, (zip_insert_r _ _ _ t) by done.
    set (P := fun tp => _). pose proof (filter_insert P _ k (t, p) (t, p') Hz) as Hcount.
    pose proof (i_slots _ Hinv h Hh) as Hold. unfold in_use in Hold. fold P in Hold.
    destruct (P (t, p')) eqn:EP; [|cbn in Hcount; lia].
    subst P. cbn in EP. apply bool_decide_eq_true in EP. specialize (Hslot h EP Hh). unfold in_use in Hslot.
    set (P := fun tp => _) in *. destruct (P (t, p)); cbn in Hcount; lia.
  - rewrite Hph. pose proof (filter_insert is_active _ k p p' Hp) as Hcount. pose proof (i_workers _ Hinv) as Hw.
    destruct (is_active p') eqn:E'; [|destruct (is_active p); cbn in Hcount; lia].
    destruct (Hact eq_refl) as [Hpa|Hlt]; [rewrite Hpa in Hcount; cbn in Hcount; lia|].
    destruct (is_active p); cbn in Hcount; lia.
  - by eapply threads_kept.
  - intros n Hn. rewrite Hout; [by apply Hinv|]. intros ->. apply Hn, list_elem_of_fmap. by exists t.
  - split; [rewrite Hlen; apply Hinv|]. intros i Hi. rewrite Hrow; [by apply Hinv|]. intros ->. by eapply (Hi t).
  - intros n. destruct (Hcache n) as [->|(H1&H2&H3)]; [apply Hinv|]. right. by exists t.
  - rewrite Hcnt, (i_counters _ Hinv), Hph. rewrite (zip_insert_r _ _ _ t) by done.
    pose proof (filter_insert finished _ k p p' Hp) as H1. rewrite Hfin in H1. cbn in H1.
    set (P := fun tp : task * phase => finished (snd tp) && negb (succeeds (fst tp))).
    pose proof (filter_insert P _ k (t, p) (t, p') Hz) as H2. unfold P at 2 4 in H2. cbn [fst snd] in H2. rewrite Hfin in H2. cbn [andb Nat.b2n] in H2.
    destruct (finished p'); cbn [andb Nat.b2n] in *.
    + unfold count_executed. destruct (succeeds t); cbn [negb Nat.b2n executed resumed cache_hits failed] in *; f_equal; lia.
    + f_equal; lia.
Qed.

Lemma attempts_from_step fuel i t g h g' goes_on :
  host_at t i = Some h -> attempt t h i g = (g', goes_on) ->
  attempts_from (S fuel) i t g = if goes_on then attempts_from fuel (i + 1) t g' else g'.
Proof. intros Hh Ha. cbn [attempts_from]. by rewrite Hh, Ha. Qed.

(** What the loop leaves: between one attempt and the maximum, and a response. *)
Lemma attempts_from_bounds fuel i t g :
  t_hosts t <> [] -> g_response (attempts_from (S fuel) i t g) <> None /\
  (length (g_attempts g) + 1 <= length (g_attempts (attempts_from (S fuel) i t g)) <= length (g_attempts g) + S fuel)%nat.
Proof.
  intros Hne. revert i g. induction fuel as [|fuel IH]; intros i g.
  all: destruct (host_at_in t i Hne) as (h&Hh&_); destruct (attempt t h i g) as [g' on] eqn:Ha.
  all: rewrite (attempts_from_step _ _ _ _ _ _ _ Hh Ha); destruct (attempt_spec t h i g) as (a&r&H1&H2); rewrite Ha in H1, H2; cbn in H1, H2.
  - assert (attempts_from 0 (i + 1) t g' = g') as -> by done. assert ((if on then g' else g') = g') as -> by (by destruct on).
    rewrite H1, H2, length_app. cbn. split; [done|lia].
  - assert (Hlen : length (g_attempts g') = (length (g_attempts g) + 1)%nat) by (rewrite H1, length_app; done).
    destruct on.
    + destruct (IH (i + 1)%nat g') as [H3 H4]. split; [done|]. rewrite Hlen in H4. lia.
    + rewrite H2. split; [done|]. lia.
Qed.

Lemma sequential_bounds t : t ∈ tasks ->
  g_response (sequential t) = Some (answer t) /\ (1 <= length (g_attempts (sequential t)) <= max_attempts)%nat.
Proof using wp.
  intros Ht. unfold answer, sequential. destruct (wp_hosts wp t Ht) as [Hne _]. pose proof (wp_attempts wp) as Hm.
  destruct max_attempts as [|m]; [lia|]. destruct (attempts_from_bounds m 0 t (Progress [] None None) Hne) as [H1 H2].
  cbn [g_attempts length] in H2. split; [|lia]. by destruct (g_response _).
Qed.

Lemma step_inv c k c' : inv c -> step k c = Some c' -> inv c'.
Proof using wp.
  intros Hinv. unfold Fleet.step. destruct (tasks !! k) as [t|] eqn:Hk; [|done].
  destruct (c_phases c !! k) as [p|] eqn:Hp; [|done].
  assert (Ht : t ∈ tasks) by (by eapply list_elem_of_lookup_2).
  destruct (i_threads _ Hinv k t p Hk Hp) as [Hc [Hf1 Hf2]]. destruct (wp_hosts wp t Ht) as [Hne Hin].
  pose proof (wp_attempts wp) as Hmax. destruct (sequential_bounds t Ht) as [Hans _].
  assert (Hidx : (Z.to_nat (index (t_spec t)) < length (c_rows c))%nat).
  { rewrite (proj1 (i_rows _ Hinv)). pose proof (wp_range wp t Ht). lia. }
  destruct p as [|i g|i g|g|g r|g r| |]; try done; cbn [on_course] in Hc.
  - destruct (_ <? _)%nat eqn:E; [|done]. bool_prop. intros [= <-].
    unfold next. destruct (Nat.ltb_spec 0 max_attempts) as [_|]; [|lia]. cbn [andb].
    eapply (inv_step c _ k t Queued); try done; [by right| |by left].
    cbn [on_course]. split; [lia|]. split; [done|]. by rewrite Nat.sub_0_r.
  - destruct (host_at t i) as [h|] eqn:Eh; [|destruct (host_at_in t i Hne) as (?&?&_); congruence].
    destruct (_ <? slots h) eqn:E; [|done]. bool_prop. intros [= <-].
    eapply (inv_step c _ k t (Waiting i g) (Holding i g)); try done; [|by left|by left].
    cbn [holds]. rewrite Eh. cbn. intros h' [= Hh'] Hh'in.
    destruct (host_at_in t i Hne) as (h2&Eh2&Hh2). rewrite Eh in Eh2. injection Eh2 as <-.
    assert (h = h') as <- by (apply (wp_distinct wp); auto). done.
  - destruct (host_at t i) as [h|] eqn:Eh; [|done]. destruct (attempt t h i g) as [g' on] eqn:Ea. intros [= <-].
    destruct Hc as (Hi&Hlen&Hfrom). destruct (attempt_spec t h i g) as (a&r&H1&H2). rewrite Ea in H1, H2. cbn in H1, H2.
    replace (max_attempts - i)%nat with (S (max_attempts - (i + 1))) in Hfrom by lia.
    rewrite (attempts_from_step _ _ _ _ _ _ _ Eh Ea) in Hfrom.
    eapply (inv_step c _ k t (Holding i g) (next max_attempts (i + 1) g' on)); try done.
    + unfold next. case_bool; done.
    + by left.
    + unfold next. destruct on; cbn [andb].
      * destruct (Nat.ltb_spec (i + 1) max_attempts); cbn [on_course].
        -- split; [done|]. split; [|done]. rewrite H1, length_app. cbn. lia.
        -- replace (max_attempts - (i + 1))%nat with 0%nat in Hfrom by lia. done.
      * done.
    + unfold files_agree, next. case_bool; by split.
    + by left.
    + unfold next. by case_bool.
  - subst g. rewrite Hans. intros [= <-].
    eapply (inv_step c _ k t (Writing (sequential t)) (Caching (sequential t) (answer t))); try done; [by left| | |by left].
    + split; [|done]. apply dget_dset_eq.
    + intros n Hn. by apply dget_dset_ne.
  - destruct Hc as [-> Hr]. rewrite Hans in Hr. injection Hr as <-. intros [= <-].
    eapply (inv_step c _ k t (Caching (sequential t) (answer t)) (Counting (sequential t) (answer t))); try done; [by left| | |].
    + split; [|done]. cbn [written] in Hf1. cbn. by case_bool.
    + intros n Hn. cbn. by case_bool.
    + intros n. cbn. fold (succeeds t). destruct use_cache; [|by left]. destruct (succeeds t); [|by left]. cbn [andb put_cache cache].
      rewrite dget_dset. destruct (String.eqb_spec n (cache_path (t_key t))) as [->|]; [by right|by left].
  - destruct Hc as [-> Hr]. rewrite Hans in Hr. injection Hr as <-. intros [= <-].
    eapply (inv_step c _ k t (Counting (sequential t) (answer t)) Finished); try done; [| | |by left].
    + split; [done|]. cbn. unfold set_row. by rewrite list_lookup_insert_eq.
    + intros i Hi. cbn. unfold set_row. by rewrite list_lookup_insert_ne.
    + cbn. unfold set_row. apply length_insert.
Qed.

Lemma zip_replicate_in (l : list task) tp : tp ∈ zip l (replicate (length l) Queued) -> snd tp = Queued.
Proof.
  induction l as [|x l IH]; cbn; [by intros ?%not_elem_of_nil|]. intros [->|H]%elem_of_cons; [done|auto].
Qed.

Lemma start_inv : inv (start tasks w0 c0 rows0).
Proof using wp.
  unfold start. split; cbn [c_phases c_world c_counters c_rows].
  - apply length_replicate.
  - intros h Hh. unfold in_use. rewrite filter_none; [cbn; pose proof (wp_slots wp h Hh); lia|].
    intros tp Htp. rewrite (zip_replicate_in _ _ Htp). done.
  - rewrite filter_none; [cbn; lia|]. intros p Hp. by apply elem_of_replicate in Hp as [-> _].
  - intros k t p Hk Hp. apply lookup_replicate_1 in Hp as [-> _]. done.
  - done.
  - done.
  - by left.
  - rewrite !filter_none; [by destruct c0; cbn; rewrite !Z.add_0_r| |].
    + intros tp Htp. rewrite (zip_replicate_in _ _ Htp). done.
    + intros p Hp. by apply elem_of_replicate in Hp as [-> _].
Qed.

Lemma run_steps_inv sched c c' : inv c -> run_steps sched c = Some c' -> inv c'.
Proof using wp.
  revert c. induction sched as [|k sched IH]; intros c Hc; cbn; [by intros [= <-]|].
  destruct (step k c) as [c1|] eqn:E; [|done]. apply IH. by eapply step_inv.
Qed.

(** ** Progress *)

(** How many steps a thread has left, at most. *)
Definition steps_left (p : phase) : nat :=
  match p with
  | Queued => 2 * max_attempts + 4
  | Waiting i _ => 2 * (max_attempts - i) + 3
  | Holding i _ => 2 * (max_attempts - i) + 2
  | Writing _ => 3
  | Caching _ _ => 2
  | Counting _ _ => 1
  | Finished | Failed => 0
  end.
Definition measure (c : config) : nat := foldr (fun p n => steps_left p + n)%nat 0%nat (c_phases c).

Lemma measure_insert (l : list phase) k p p' : l !! k = Some p ->
  (foldr (fun p n => steps_left p + n) 0 (<[k := p']> l) + steps_left p =
   foldr (fun p n => steps_left p + n) 0 l + steps_left p')%nat.
Proof.
  revert k. induction l as [|z l IH]; intros [|k]; [done..| |].
  - intros [= ->]. cbn. lia.
  - change (<[S k:=p']> (z :: l)) with (z :: <[k:=p']> l). intros H%IH. cbn [foldr]. lia.
Qed.

Lemma step_measure c k c' : inv c -> step k c = Some c' -> (measure c' < measure c)%nat.
Proof using wp.
  intros Hinv Hstep. unfold Fleet.step in Hstep. destruct (tasks !! k) as [t|] eqn:Hk; [|done].
  destruct (c_phases c !! k) as [p|] eqn:Hp; [|done]. destruct (i_threads _ Hinv k t p Hk Hp) as [Hc _].
  assert (H : exists p', c_phases c' = <[k := p']> (c_phases c) /\ (steps_left p' < steps_left p)%nat).
  { destruct p as [|i g|i g|g|g r|g r| |]; try done; cbn [on_course] in Hc.
    - destruct (_ <? _)%nat; [|done]. injection Hstep as <-. eexists. split; [done|]. unfold next. case_bool; cbn; lia.
    - destruct (host_at t i); [|injection Hstep as <-; eexists; split; [done|cbn; lia]].
      destruct (_ <? _); [|done]. injection Hstep as <-. eexists. split; [done|]. cbn. lia.
    - destruct (host_at t i) as [h|]; [|done]. destruct (attempt t h i g) as [g' on]. injection Hstep as <-.
      eexists. split; [done|]. unfold next. case_bool; cbn; lia.
    - destruct (g_response g); injection Hstep as <-; eexists; (split; [done|cbn; lia]).
    - injection Hstep as <-. eexists. split; [done|]. cbn. lia.
    - injection Hstep as <-. eexists. split; [done|]. cbn. lia. }
  destruct H as (p'&Hph&Hlt). unfold measure. rewrite Hph. pose proof (measure_insert _ _ _ p' Hp). lia.
Qed.

Lemma run_steps_measure sched c c' : inv c -> run_steps sched c = Some c' -> (length sched + measure c' <= measure c)%nat.
Proof using wp.
  revert c. induction sched as [|k sched IH]; intros c Hc; cbn; [intros [= <-]; lia|].
  destruct (step k c) as [c1|] eqn:E; [|done]. intros H. pose proof (step_measure _ _ _ Hc E).
  specialize (IH c1 (step_inv _ _ _ Hc E) H). lia.
Qed.

Lemma start_measure : measure (start tasks w0 c0 rows0) = (length tasks * (2 * max_attempts + 4))%nat.
Proof. unfold measure, start. cbn [c_phases]. induction tasks as [|t l IH]; [done|]. cbn [length replicate foldr]. rewrite IH. cbn. lia. Qed.

(** Some thread is at a phase of a kind, or none is. *)
Lemma phase_dec (P : phase -> bool) (l : list phase) : (exists k p, l !! k = Some p /\ P p = true) \/ (forall p, p ∈ l -> P p = false).
Proof.
  destruct (existsb P l) eqn:E.
  - left. apply existsb_exists in E as (p&Hin&HP). apply list_elem_of_In, list_elem_of_lookup in Hin as (k&Hk). eauto.
  - right. intros p Hp. destruct (P p) eqn:HP; [|done].
    enough (existsb P l = true) by congruence. apply existsb_exists. exists p. split; [by apply list_elem_of_In|done].
Qed.

(** A thread that neither waits nor is queued can step. *)
Definition moves (p : phase) : bool := match p with Holding _ _ | Writing _ | Caching _ _ | Counting _ _ => true | _ => false end.
Definition is_waiting (p : phase) : bool := match p with Waiting _ _ => true | _ => false end.

(** The threads never deadlock. *)
Lemma progress_step c : inv c -> forallb ended (c_phases c) = false -> exists k c', step k c = Some c'.
Proof using wp.
  intros Hinv Hend.
  assert (Htask : forall k p, c_phases c !! k = Some p -> exists t, tasks !! k = Some t /\ t ∈ tasks).
  { intros k p Hp. destruct (lookup_lt_is_Some_2 tasks k) as (t&Ht).
    { rewrite <- (i_length _ Hinv). by eapply lookup_lt_Some. }
    exists t. split; [done|]. by eapply list_elem_of_lookup_2. }
  destruct (phase_dec moves (c_phases c)) as [(k&p&Hp&Hm)|Hnm].
  { destruct (Htask k p Hp) as (t&Ht&Hin). exists k. unfold Fleet.step. rewrite Ht, Hp.
    destruct p as [|i g|i g|g|g r|g r| |]; try done; [|destruct (g_response g)|..]; eauto.
    destruct (host_at_in t i (proj1 (wp_hosts wp t Hin))) as (h&->&_). destruct (attempt t h i g). eauto. }
  destruct (phase_dec is_waiting (c_phases c)) as [(k&p&Hp&Hw)|Hnw].
  { destruct (Htask k p Hp) as (t&Ht&Hin). exists k. unfold Fleet.step. rewrite Ht, Hp.
    destruct p as [|i g| | | | | |]; try done.
    destruct (host_at_in t i (proj1 (wp_hosts wp t Hin))) as (h&->&Hh).
    assert (in_use tasks (c_phases c) (h_index h) = 0%nat) as ->.
    { unfold in_use. rewrite filter_none; [done|]. intros [t' p'] Htp. apply elem_of_zip_r in Htp.
      specialize (Hnm p' Htp). by destruct p'. }
    pose proof (wp_slots wp h (proj2 (wp_hosts wp t Hin) h Hh)). destruct (Z.ltb_spec (Z.of_nat 0) (slots h)); [eauto|lia]. }
  assert (Hq : exists k, c_phases c !! k = Some Queued).
  { destruct (phase_dec (fun p => negb (ended p)) (c_phases c)) as [(k&p&Hp&Hn)|Hall].
    - exists k. assert (Hin : p ∈ c_phases c) by (by eapply list_elem_of_lookup_2).
      specialize (Hnm p Hin). specialize (Hnw p Hin). by destruct p.
    - exfalso. enough (forallb ended (c_phases c) = true) by congruence. apply forallb_forall.
      intros p Hp%list_elem_of_In. specialize (Hall p Hp). by apply negb_false_iff in Hall. }
  destruct Hq as (k&Hp). destruct (Htask k Queued Hp) as (t&Ht&Hin). exists k. unfold Fleet.step. rewrite Ht, Hp.
  rewrite filter_none; [pose proof (wp_workers wp); destruct (Nat.ltb_spec (@length phase []) max_workers); [eauto|cbn in *; lia]|].
  intros p Hpin. specialize (Hnm p Hpin). specialize (Hnw p Hpin). by destruct p.
Qed.

(** ** The end of the threads *)

(** The counters and the rows of the sequential run. *)
Definition sequential_counters : counters :=
  Counters (executed c0 + Z.of_nat (length tasks)) (resumed c0) (cache_hits c0)
    (failed c0 + Z.of_nat (length (List.filter (fun t => negb (succeeds t)) tasks))).
Definition sequential_rows : list value := fold_left (fun rows t => set_row (t_spec t) (job_row t) rows) tasks rows0.

Lemma set_rows_lookup (l : list task) rows i :
  NoDup ((fun t => Z.to_nat (index (t_spec t))) <$> l) -> (forall t, t ∈ l -> (Z.to_nat (index (t_spec t)) < length rows)%nat) ->
  (forall t, t ∈ l -> fold_left (fun rows t => set_row (t_spec t) (job_row t) rows) l rows !! Z.to_nat (index (t_spec t)) = Some (job_row t)) /\
  ((forall t, t ∈ l -> Z.to_nat (index (t_spec t)) <> i) -> fold_left (fun rows t => set_row (t_spec t) (job_row t) rows) l rows !! i = rows !! i) /\
  length (fold_left (fun rows t => set_row (t_spec t) (job_row t) rows) l rows) = length rows.
Proof.
  revert rows i. induction l as [|t l IH]; intros rows i Hnd Hr; cbn [fold_left].
  - split; [|done]. by intros ? ?%not_elem_of_nil.
  - cbn in Hnd. apply NoDup_cons in Hnd as [Ht Hnd]. set (rows' := set_row (t_spec t) (job_row t) rows).
    assert (Hlen : length rows' = length rows) by apply length_insert.
    assert (Hr' : forall t', t' ∈ l -> (Z.to_nat (index (t_spec t')) < length rows')%nat).
    { intros t' Ht'. rewrite Hlen. apply Hr. by right. }
    split; [|split].
    + intros t' [->|Ht']%elem_of_cons; [|by apply (IH rows' 0%nat)].
      destruct (IH rows' (Z.to_nat (index (t_spec t))) Hnd Hr') as (_&H&_). rewrite H.
      * apply list_lookup_insert_eq, Hr. by left.
      * intros t' Ht' Heq. apply Ht, list_elem_of_fmap. by exists t'.
    + intros Hi. destruct (IH rows' i Hnd Hr') as (_&H&_). rewrite H by (intros t' Ht'; apply Hi; by right).
      apply list_lookup_insert_ne. apply Hi. by left.
    + destruct (IH rows' 0%nat Hnd Hr') as (_&_&H). by rewrite H.
Qed.

Lemma places_NoDup : NoDup ((fun t => Z.to_nat (index (t_spec t))) <$> tasks).
Proof using wp.
  pose proof (wp_indices wp) as Hnd. pose proof (wp_range wp) as Hr. clear -Hnd Hr. induction tasks as [|t l IH]; cbn in *; [constructor|].
  apply NoDup_cons in Hnd as [Ht Hnd]. constructor; [|apply IH; [done|]; intros t' Ht'; apply Hr; by right].
  intros (t'&Heq&Ht')%list_elem_of_fmap. apply Ht, list_elem_of_fmap. exists t'. split; [|done].
  pose proof (Hr t ltac:(by left)). pose proof (Hr t' ltac:(by right)). lia.
Qed.

Lemma sequential_rows_lookup :
  (forall t, t ∈ tasks -> sequential_rows !! Z.to_nat (index (t_spec t)) = Some (job_row t)) /\
  (forall i, (forall t, t ∈ tasks -> Z.to_nat (index (t_spec t)) <> i) -> sequential_rows !! i = rows0 !! i) /\
  length sequential_rows = length rows0.
Proof using wp.
  assert (H := fun i => set_rows_lookup tasks rows0 i places_NoDup).
  assert (Hr : forall t, t ∈ tasks -> (Z.to_nat (index (t_spec t)) < length rows0)%nat).
  { intros t Ht. pose proof (wp_range wp t Ht). lia. }
  split_and!; [apply (H 0%nat Hr)|intros i; apply (H i Hr)|apply (H 0%nat Hr)].
Qed.

Lemma all_finished c : inv c -> forallb ended (c_phases c) = true -> forall p, p ∈ c_phases c -> p = Finished.
Proof using wp.
  intros Hinv Hend p Hp. rewrite forallb_forall in Hend. pose proof (Hend p ltac:(by apply list_elem_of_In)) as He.
  apply list_elem_of_lookup in Hp as (k&Hk). destruct (lookup_lt_is_Some_2 tasks k) as (t&Ht).
  { rewrite <- (i_length _ Hinv). by eapply lookup_lt_Some. }
  destruct (i_threads _ Hinv k t p Ht Hk) as [Hc _]. by destruct p.
Qed.

Lemma count_all {A} (P : A -> bool) (l : list A) : (forall x, x ∈ l -> P x = true) -> length (List.filter P l) = length l.
Proof.
  induction l as [|x l IH]; intros H; cbn; [done|]. rewrite H by (by left). cbn. f_equal. apply IH. intros y Hy. apply H. by right.
Qed.

(** Once all threads have ended, the run is the sequential one. *)
Lemma ended_sequential c : inv c -> forallb ended (c_phases c) = true ->
  existsb has_failed (c_phases c) = false /\ c_counters c = sequential_counters /\ c_rows c = sequential_rows /\
  (forall t, t ∈ tasks -> dget (result_file (t_spec t)) (out (c_world c)) = Some (obj (job_record t))).
Proof using wp.
  intros Hinv Hend. pose proof (all_finished c Hinv Hend) as Hall. split; [|split; [|split]].
  - destruct (existsb has_failed (c_phases c)) eqn:E; [|done]. apply existsb_exists in E as (p&Hp%list_elem_of_In&Hf).
    by rewrite (Hall p Hp) in Hf.
  - rewrite (i_counters _ Hinv). unfold sequential_counters. f_equal; do 2 f_equal.
    + rewrite count_all; [apply Hinv|]. intros p Hp. by rewrite (Hall p Hp).
    + pose proof (i_length _ Hinv) as Hlen. clear Hend Hinv. revert Hlen Hall. generalize (c_phases c). intros l. revert l.
      induction tasks as [|t ts IH]; intros [|p l] Hlen Hall; try done. cbn. rewrite (Hall p) by (by left). cbn [finished andb].
      destruct (negb (succeeds t)); cbn; [f_equal|]; (apply IH; [by injection Hlen|]; intros q Hq; apply Hall; by right).
  - destruct sequential_rows_lookup as (H1&H2&H3). destruct (i_rows _ Hinv) as [H4 H5].
    apply list_eq. intros i.
    destruct (existsb (fun t => Nat.eqb (Z.to_nat (index (t_spec t))) i) tasks) eqn:E.
    + apply existsb_exists in E as (t&Ht%list_elem_of_In&Hi%Nat.eqb_eq). rewrite <- Hi, H1 by done.
      apply list_elem_of_lookup in Ht as (k&Hk). destruct (lookup_lt_is_Some_2 (c_phases c) k) as (p&Hp).
      { rewrite (i_length _ Hinv). by eapply lookup_lt_Some. }
      destruct (i_threads _ Hinv k t p Hk Hp) as [_ [_ Hrow]]. rewrite (Hall p) in Hrow by (by eapply list_elem_of_lookup_2). done.
    + assert (Hi : forall t, t ∈ tasks -> Z.to_nat (index (t_spec t)) <> i).
      { intros t Ht Heq. enough (existsb (fun t => Nat.eqb (Z.to_nat (index (t_spec t))) i) tasks = true) by congruence.
        apply existsb_exists. exists t. split; [by apply list_elem_of_In|by apply Nat.eqb_eq]. }
      by rewrite H2, H5.
  - intros t Ht. apply list_elem_of_lookup in Ht as (k&Hk). destruct (lookup_lt_is_Some_2 (c_phases c) k) as (p&Hp).
    { rewrite (i_length _ Hinv). by eapply lookup_lt_Some. }
    destruct (i_threads _ Hinv k t p Hk Hp) as [_ [Hf _]]. by rewrite (Hall p) in Hf by (by eapply list_elem_of_lookup_2).
Qed.
End threads.
