(* ===== verification/FleetProps.v ===== *)
(** * What a fleet run guarantees

    Slots are never exceeded and jobs are attempted a bounded number of times; the threads never
    deadlock and end; however they interleave, the run is the sequential one; and a command sent
    over SSH reaches the remote shell word for word. *)
From stdpp Require Import pretty.
From S2P Require Import FleetFacts Fleet.

(** ** What loading guarantees *)

Lemma load_host_spec resolve st ij st' : load_host resolve st ij = Ok st' ->
  exists h, snd st' = snd st ++ [h] /\ h_index h = fst ij /\ 1 <= slots h.
Proof.
  destruct st as [seen hosts]. unfold load_host. destruct (snd ij) as [| | | | | |item]; try done.
  intros H. inv_res.
  match goal with H : match dget_or "slots" _ _ with _ => _ end = Ok _ |- _ =>
    destruct (dget_or "slots" (VInt 1) item); try discriminate H; inv_res end.
  bool_prop. eexists. split; [reflexivity|]. by split.
Qed.

Lemma fleet_job_spec sys parent st ij st' : load_job sys parent st ij = Ok st' ->
  exists s, snd st' = snd st ++ [s] /\ index s = fst ij /\ True.
Proof.
  destruct st as [seen jobs]. unfold load_job. destruct (snd ij) as [| | | | | |item]; try done.
  intros H. inv_res.
  match goal with x : (value * string * string * string)%type |- _ => destruct x as [[[[] ?] ?] ?] end; try done.
  inv_res. eexists. by split.
Qed.

(** The hosts and jobs of a manifest are numbered, every host has a slot, and retries are not negative. *)
Lemma load_manifest_facts sys parent resolve read manifest hosts jobs :
  _load_manifest sys parent resolve read = Ok (manifest, hosts, jobs) ->
  h_index <$> hosts = range (length hosts) /\ Forall (fun h => 1 <= slots h) hosts /\
  index <$> jobs = range (length jobs) /\ retries_ok manifest = true.
Proof.
  unfold _load_manifest. destruct read as [[| | | | | |m]|]; try done. intros H. inv_res.
  destruct (dget_n "hosts" m) as [| | | | |[|h hs]|]; try done. destruct (dget_n "jobs" m) as [| | | | |[|j js]|]; try done.
  inv_res. repeat case_match; subst. inv_res. repeat case_match; subst. inv_res. simplify_eq.
  match goal with H1 : res_fold (load_host _) _ _ = Ok _, H2 : res_fold (load_job _ _) _ _ = Ok _ |- _ =>
    destruct (numbered_fold_all snd h_index (fun h => 1 <= slots h) _ _ ([], []) _ (load_host_spec resolve) eq_refl H1);
    destruct (numbered_fold_all snd index (fun _ => True) _ _ ([], []) _ (fleet_job_spec sys parent) eq_refl H2) end.
  by split_and!.
Qed.

(** ** What planning guarantees *)

Lemma eligible_hosts_in spec hosts ev able h :
  _eligible_hosts spec hosts ev = Ok able -> h ∈ able -> h ∈ hosts.
Proof.
  unfold _eligible_hosts. intros H. inv_res. intros Hin. apply list_elem_of_fmap in Hin as ([h' b]&->&Hin).
  rewrite list_elem_of_In, List.filter_In, <- list_elem_of_In in Hin. destruct Hin as [Hin _]. by apply elem_of_zip_l in Hin.
Qed.

(** A result row, and whether it counts as failed. *)
Definition row_named (v : value) (n : string) : Prop := exists d, v = VDict d /\ dget_n "name" d = VStr n.
Definition row_failed (v : value) : bool := match v with VDict d => negb (py_bool (dget_n "ok" d)) | _ => false end.
Definition failed_rows (rows : list value) : Z := Z.of_nat (length (List.filter row_failed rows)).

Lemma row_row_named spec key status ok host rest : row_named (row spec key status ok host rest) (name spec).
Proof. eexists. by split. Qed.
Lemma row_row_failed spec key status ok host rest : row_failed (row spec key status ok host rest) = negb ok.
Proof. by destruct ok. Qed.

Lemma failed_rows_insert rows i v : rows !! i = Some VNone ->
  failed_rows (<[i := v]> rows) = failed_rows rows + Z.b2z (row_failed v).
Proof. intros H. unfold failed_rows. pose proof (filter_insert row_failed rows i VNone v H) as Hc. cbn in Hc. destruct (row_failed v); cbn in *; lia. Qed.

Section planning.
Context (no_resume use_cache : bool) (hosts : list HostSpec) (ev : string).

Record plan_ok (n : nat) (before : list JobSpec) (p : planning) : Prop := PlanOk {
  po_tasks : forall t, t ∈ pn_tasks p -> t_spec t ∈ before /\ t_hosts t <> [] /\ forall h, h ∈ t_hosts t -> h ∈ hosts;
  po_nodup : NoDup ((fun t => index (t_spec t)) <$> pn_tasks p);
  po_length : length (pn_rows p) = n;
  po_counts : executed (pn_counters p) = 0 /\
    resumed (pn_counters p) + cache_hits (pn_counters p) + Z.of_nat (length (pn_tasks p)) = Z.of_nat (length before);
  po_failed : failed (pn_counters p) = failed_rows (pn_rows p);
  po_rows : forall s, s ∈ before ->
    (exists t, t ∈ pn_tasks p /\ t_spec t = s) \/
    (exists v, pn_rows p !! Z.to_nat (index s) = Some v /\ row_named v (name s));
  po_open : forall t, t ∈ pn_tasks p -> pn_rows p !! Z.to_nat (index (t_spec t)) = Some VNone;
  po_fresh : forall i, (i < n)%nat -> (forall s, s ∈ before -> Z.to_nat (index s) <> i) -> pn_rows p !! i = Some VNone
}.

(** A job that is reused sets its row. *)
Lemma plan_reused n before p s v c :
  plan_ok n before p -> 0 <= index s < Z.of_nat n -> (forall s', s' ∈ before -> Z.to_nat (index s') <> Z.to_nat (index s)) ->
  row_named v (name s) -> executed c = 0 ->
  resumed c + cache_hits c = resumed (pn_counters p) + cache_hits (pn_counters p) + 1 ->
  failed c = failed (pn_counters p) + Z.b2z (row_failed v) ->
  plan_ok n (before ++ [s]) (Planning (pn_tasks p) (set_row s v (pn_rows p)) c).
Proof.
  intros [T N L C F R O E] Hs Hnew Hv Hc1 Hc2 Hc3.
  assert (Hnone : pn_rows p !! Z.to_nat (index s) = Some VNone) by (apply E; [lia|done]).
  split; cbn [pn_tasks pn_rows pn_counters]; unfold set_row.
  - intros t Ht. destruct (T t Ht) as (?&?&?). split; [apply elem_of_app; by left|done].
  - done.
  - by rewrite length_insert.
  - split; [done|]. rewrite length_app. cbn. lia.
  - rewrite failed_rows_insert by done. lia.
  - intros s' [Hs'|Hs']%elem_of_app.
    + rewrite list_lookup_insert_ne by (apply not_eq_sym, Hnew; done). by apply R.
    + apply list_elem_of_singleton in Hs' as ->. right. exists v. split; [|done]. apply list_lookup_insert_eq. lia.
  - intros t Ht. rewrite list_lookup_insert_ne; [by apply O|]. apply not_eq_sym, Hnew. by apply (T t Ht).
  - intros i Hi Hn. rewrite list_lookup_insert_ne.
    + apply E; [done|]. intros s' Hs'. apply Hn, elem_of_app. by left.
    + apply Hn, elem_of_app. right. by apply list_elem_of_singleton.
Qed.

(** A job that is planned leaves its row open. *)
Lemma plan_task n before p s t :
  plan_ok n before p -> 0 <= index s < Z.of_nat n -> (forall s', s' ∈ before -> Z.to_nat (index s') <> Z.to_nat (index s)) ->
  t_spec t = s -> t_hosts t <> [] -> (forall h, h ∈ t_hosts t -> h ∈ hosts) ->
  plan_ok n (before ++ [s]) (Planning (pn_tasks p ++ [t]) (pn_rows p) (pn_counters p)).
Proof.
  intros [T N L C F R O E] Hs Hnew Ht Hh1 Hh2. split; cbn [pn_tasks pn_rows pn_counters].
  - intros t' [Ht'|Ht']%elem_of_app.
    + destruct (T t' Ht') as (?&?&?). split; [apply elem_of_app; by left|done].
    + apply list_elem_of_singleton in Ht' as ->. split; [|done]. rewrite Ht. apply elem_of_app. right. by apply list_elem_of_singleton.
  - rewrite fmap_app. apply NoDup_app. split; [done|]. split; [|apply NoDup_singleton].
    intros i Hi Hi'. apply list_elem_of_singleton in Hi' as ->. apply list_elem_of_fmap in Hi as (t'&Heq&Ht').
    destruct (T t' Ht') as (Hin&_). apply (Hnew _ Hin). rewrite Ht in Heq. by rewrite Heq.
  - done.
  - rewrite !length_app. cbn. split; [apply C|lia].
  - done.
  - intros s' [Hs'|Hs']%elem_of_app.
    + destruct (R s' Hs') as [(t'&?&?)|?]; [left; exists t'; split; [apply elem_of_app; by left|done]|by right].
    + apply list_elem_of_singleton in Hs' as ->. left. exists t.
      split; [apply elem_of_app; right; by apply list_elem_of_singleton|done].
  - intros t' [Ht'|Ht']%elem_of_app; [by apply O|]. apply list_elem_of_singleton in Ht' as ->. rewrite Ht. apply E; [lia|done].
  - intros i Hi Hn. apply E; [done|]. intros s' Hs'. apply Hn, elem_of_app. by left.
Qed.

Lemma plan_job_ok n before p s inputs w p' w' :
  plan_ok n before p -> 0 <= index s < Z.of_nat n -> (forall s', s' ∈ before -> Z.to_nat (index s') <> Z.to_nat (index s)) ->
  plan_job no_resume use_cache hosts ev p (s, inputs) w = (Ok (Some p'), w') -> plan_ok n (before ++ [s]) p'.
Proof.
  intros Hp Hs Hnew. unfold plan_job. cbv [mbind M_bind lift gets modify mret M_ret id].
  destruct (_eligible_hosts s hosts ev) as [able|] eqn:Ea; [|done]. destruct able as [|h0 able]; [done|].
  pose proof (po_counts _ _ _ Hp) as [Hc0 _].
  destruct (if no_resume then _ else _) as [record|].
  { intros [= <- <-]. apply plan_reused; try done; [apply row_row_named|cbn; lia|]. rewrite row_row_failed. cbn.
    destruct (response_ok record); cbn; lia. }
  assert (Htask : plan_ok n (before ++ [s])
    (Planning (pn_tasks p ++ [Task s inputs (_cache_key s ev inputs) (h0 :: able)]) (pn_rows p) (pn_counters p))).
  { apply plan_task; try done. cbn [t_hosts]. intros h Hh. by eapply eligible_hosts_in. }
  destruct (if use_cache then _ else _) as [record|]; [|by intros [= <- <-]].
  destruct (response_ok record); [|by intros [= <- <-]].
  intros [= <- <-]. apply plan_reused; try done; [apply row_row_named|cbn; lia|]. rewrite row_row_failed. cbn. lia.
Qed.

Lemma plan_jobs_ok n before p (jobs : list (JobSpec * list input)) w p' w' :
  plan_ok n before p -> NoDup (index <$> (before ++ jobs.*1)) -> (forall s, s ∈ before ++ jobs.*1 -> 0 <= index s < Z.of_nat n) ->
  plan_jobs no_resume use_cache hosts ev p jobs w = (Ok (Some p'), w') -> plan_ok n (before ++ jobs.*1) p'.
Proof.
  revert before p w. induction jobs as [|[s i] jobs IH]; intros before p w Hp Hnd Hr; cbn [plan_jobs fmap list_fmap fst].
  - intros [= <- <-]. by rewrite app_nil_r.
  - cbv [mbind M_bind]. destruct (plan_job _ _ _ _ _ _ _) as [[[p1|]|] w1] eqn:E; try done.
    change (((s, i) :: jobs).*1) with ([s] ++ jobs.*1) in *. change (s :: jobs.*1) with ([s] ++ jobs.*1).
    intros H. rewrite (app_assoc before [s]) in Hnd, Hr |- *.
    apply (IH _ p1 w1); try done.
    eapply plan_job_ok; [done| | |exact E].
    + apply Hr. set_solver.
    + rewrite <- app_assoc, fmap_app in Hnd. apply NoDup_app in Hnd as (_&Hnd&_). intros s' Hs' Heq.
      assert (Hi : index s' = index s) by (pose proof (Hr s ltac:(set_solver)); pose proof (Hr s' ltac:(set_solver)); lia).
      apply (Hnd (index s')); [by apply list_elem_of_fmap_2|]. rewrite Hi. cbn. by left.
Qed.
End planning.

(** The attempts a thread has made. *)
Definition attempts_made (p : phase) : nat :=
  match p with
  | Waiting _ g | Holding _ g | Writing g | Caching g _ | Counting g _ => length (g_attempts g)
  | _ => 0
  end.

Lemma sequential_rows_failed ssh ssh_options timeout max observe (l : list task) rows :
  NoDup ((fun t => Z.to_nat (index (t_spec t))) <$> l) -> (forall t, t ∈ l -> rows !! Z.to_nat (index (t_spec t)) = Some VNone) ->
  failed_rows (sequential_rows ssh ssh_options timeout max observe l rows) =
    failed_rows rows + Z.of_nat (length (List.filter (fun t => negb (succeeds ssh ssh_options timeout max observe t)) l)).
Proof.
  unfold sequential_rows. revert rows. induction l as [|t l IH]; intros rows Hnd Hn; cbn [fold_left]; [cbn; lia|].
  cbn in Hnd. apply NoDup_cons in Hnd as [Ht Hnd]. rewrite IH; [|done|].
  - unfold set_row. rewrite failed_rows_insert by (apply Hn; by left). unfold job_row. rewrite row_row_failed. cbn.
    destruct (negb _); cbn; lia.
  - intros t' Ht'. unfold set_row. rewrite list_lookup_insert_ne; [apply Hn; by right|].
    intros Heq. apply Ht, list_elem_of_fmap. by exists t'.
Qed.

Section fleet.
Context (sys : fs) (parent : string) (resolve : string -> string) (read : res value).
Context (manifest : dict value) (loaded : list HostSpec) (jobs : list JobSpec) (opts : options).
Context (probe_of : HostSpec -> probe) (engine_version : string) (inputs : list (list input)).
Context (w w1 : world) (p : planning) (timeout : float) (ssh_options : list string).
Context (observe : JobSpec -> HostSpec -> nat -> observation).

(** The hosts once probed, those of another version excluded. *)
Definition fleet_hosts : list HostSpec := exclude_other engine_version <$> ((fun h => _probe_host (probe_of h) h) <$> loaded).
Definition attempts_max : nat := Z.to_nat (1 + retries opts manifest).
Definition workers_max : nat := Z.to_nat (Z.max 1 (total_slots fleet_hosts)).

Hypothesis loads : _load_manifest sys parent resolve read = Ok (manifest, loaded, jobs).
Hypothesis retries_option : forall n, opt_retries opts = Some n -> 0 <= n.
Hypothesis fingerprints : res_map (_job_inputs sys (opt_local_root opts)) jobs = Ok inputs.
Hypothesis plans :
  plan_jobs (opt_no_resume opts) (opt_cache opts) fleet_hosts engine_version
    (Planning [] (replicate (length (zip jobs inputs)) VNone) (Counters 0 0 0 0)) (zip jobs inputs) w = (Ok (Some p), w1).
#[local] Set Default Proof Using "All".

Local Abbreviation steps := (run_steps (opt_ssh opts) ssh_options timeout (opt_cache opts) engine_version attempts_max workers_max observe (pn_tasks p)).
Local Abbreviation from := (start (pn_tasks p) w1 (pn_counters p) (pn_rows p)).

Lemma zip_jobs : (zip jobs inputs).*1 = jobs.
Proof using fingerprints. apply fst_zip. by rewrite (res_map_length _ _ _ fingerprints). Qed.

Lemma attempts_max_pos : 0 <= retries opts manifest.
Proof using loads retries_option.
  destruct (load_manifest_facts _ _ _ _ _ _ _ loads) as (_&_&_&Hr). unfold retries, retries_ok, dget_or in *.
  destruct (opt_retries opts) as [n|]; [by apply retries_option|]. destruct (dget "retries" manifest) as [[]|]; bool_prop; try done; lia.
Qed.

Lemma fleet_hosts_facts :
  (forall h, h ∈ fleet_hosts -> 1 <= slots h) /\ (forall h h', h ∈ fleet_hosts -> h' ∈ fleet_hosts -> h_index h = h_index h' -> h = h').
Proof using loads.
  destruct (load_manifest_facts _ _ _ _ _ _ _ loads) as (Hi&Hs&_&_).
  unfold fleet_hosts. rewrite <- list_fmap_compose. set (f := _ ∘ _).
  assert (Hf : forall h, h_index (f h) = h_index h /\ slots (f h) = slots h).
  { intros h. subst f. unfold exclude_other, _probe_host. cbn. destruct (check_capabilities _ _); case_bool; done. }
  rewrite Forall_forall in Hs. split.
  - intros h (h0&->&Hh)%list_elem_of_fmap. rewrite (proj2 (Hf h0)). by apply Hs.
  - intros h h' (h0&->&Hh)%list_elem_of_fmap (h1&->&Hh')%list_elem_of_fmap. rewrite !(proj1 (Hf _)). intros Heq.
    apply list_elem_of_lookup in Hh as (a&Ha), Hh' as (b&Hb). assert (a = b) as ->; [|congruence].
    assert (Hnd : NoDup (h_index <$> loaded)) by (rewrite Hi; apply range_NoDup).
    eapply (NoDup_lookup _ _ _ (h_index h0) Hnd); rewrite list_lookup_fmap, ?Ha, ?Hb; cbn; congruence.
Qed.

Lemma planned_ok : plan_ok fleet_hosts (length jobs) jobs p.
Proof.
  destruct (load_manifest_facts _ _ _ _ _ _ _ loads) as (_&_&Hi&_).
  assert (Hlen : length (zip jobs inputs) = length jobs) by (rewrite <- zip_jobs at 2; by rewrite length_fmap).
  assert (Hj : [] ++ (zip jobs inputs).*1 = jobs) by apply zip_jobs.
  pose proof plans as H. rewrite Hlen in H. rewrite <- Hj at 2. eapply plan_jobs_ok; [| | |exact H].
  - split; cbn [pn_tasks pn_rows pn_counters].
    + by intros ? ?%not_elem_of_nil.
    + constructor.
    + apply length_replicate.
    + done.
    + unfold failed_rows. rewrite filter_none; [done|]. intros v Hv. by apply elem_of_replicate in Hv as [-> _].
    + by intros ? ?%not_elem_of_nil.
    + by intros ? ?%not_elem_of_nil.
    + intros i Hi' _. by apply lookup_replicate_2.
  - rewrite Hj, Hi. apply range_NoDup.
  - rewrite Hj. intros s Hs. assert (Hin : index s ∈ range (length jobs)) by (rewrite <- Hi; by apply list_elem_of_fmap_2).
    unfold range in Hin. apply list_elem_of_fmap in Hin as (k&->&Hk%elem_of_seq). lia.
Qed.

Lemma fleet_well_planned : well_planned attempts_max workers_max fleet_hosts (pn_tasks p) (pn_rows p).
Proof.
  destruct (load_manifest_facts _ _ _ _ _ _ _ loads) as (_&_&Hi&_). destruct planned_ok as [T N L _ _ _ _ _].
  destruct fleet_hosts_facts as [F1 F2]. split; try done.
  - unfold attempts_max. pose proof attempts_max_pos. lia.
  - unfold workers_max. lia.
  - intros t Ht. apply (T t Ht).
  - intros t Ht. destruct (T t Ht) as (Hin&_). rewrite L.
    assert (Hidx : index (t_spec t) ∈ range (length jobs)) by (rewrite <- Hi; by apply list_elem_of_fmap_2).
    unfold range in Hidx. apply list_elem_of_fmap in Hidx as (k&->&Hk%elem_of_seq). lia.
Qed.

(** C34: Whatever the interleaving of the threads, at every moment each host runs at most [slots] jobs,
    at most as many threads are active as the pool has workers, no thread has failed, and no job has
    been attempted more than [1 + retries] times. *)
Theorem fleet_bounds sched c : steps sched from = Some c ->
  (forall h, h ∈ fleet_hosts -> Z.of_nat (in_use (pn_tasks p) (c_phases c) (h_index h)) <= slots h) /\
  (length (List.filter is_active (c_phases c)) <= workers_max)%nat /\
  (forall ph, ph ∈ c_phases c -> has_failed ph = false /\ Z.of_nat (attempts_made ph) <= 1 + retries opts manifest).
Proof.
  intros H. pose proof fleet_well_planned as wp.
  assert (Hinv := run_steps_inv _ _ _ _ _ _ _ _ _ _ _ _ _ wp _ _ _ (start_inv _ _ _ _ _ _ _ _ _ w1 (pn_counters p) _ wp) H).
  split_and!; [by apply (i_slots _ _ _ _ _ _ _ _ _ _ _ _ _ Hinv)|by apply (i_workers _ _ _ _ _ _ _ _ _ _ _ _ _ Hinv)|].
  intros ph (k&Hk)%list_elem_of_lookup. destruct (lookup_lt_is_Some_2 (pn_tasks p) k) as (t&Ht).
  { rewrite <- (i_length _ _ _ _ _ _ _ _ _ _ _ _ _ Hinv). by eapply lookup_lt_Some. }
  destruct (i_threads _ _ _ _ _ _ _ _ _ _ _ _ _ Hinv k t ph Ht Hk) as [Hc _].
  destruct (sequential_bounds (opt_ssh opts) ssh_options timeout _ _ observe _ _ _ wp t) as [_ Hb]; [by eapply list_elem_of_lookup_2|].
  pose proof attempts_max_pos as Hpos. assert (Hmax : Z.of_nat attempts_max = 1 + retries opts manifest) by (unfold attempts_max; lia).
  rewrite <- Hmax. destruct ph; cbn [on_course attempts_made has_failed] in *; (split; [done|]); try lia; try (subst; lia);
    destruct Hc as [-> _]; lia.
Qed.

(** C35: The threads never deadlock and end: as long as one has not ended, some thread can step, and
    no schedule has more than [2 * (1 + retries) + 4] steps per planned job. *)
Theorem fleet_terminates sched c : steps sched from = Some c ->
  Z.of_nat (length sched) <= Z.of_nat (length (pn_tasks p)) * (2 * (1 + retries opts manifest) + 4) /\
  (forallb ended (c_phases c) = true \/ exists k c', steps [k] c = Some c').
Proof.
  intros H. pose proof fleet_well_planned as wp. pose proof attempts_max_pos as Hpos.
  assert (Hs := start_inv (opt_ssh opts) ssh_options timeout engine_version _ _ observe _ _ w1 (pn_counters p) _ wp).
  assert (Hinv := run_steps_inv _ _ _ _ _ _ _ _ _ _ _ _ _ wp _ _ _ Hs H). split.
  - pose proof (run_steps_measure _ _ _ _ _ _ _ _ _ _ _ _ _ wp _ _ _ Hs H) as Hm. rewrite start_measure in Hm.
    assert (Hmax : Z.of_nat attempts_max = 1 + retries opts manifest) by (unfold attempts_max; lia). nia.
  - destruct (forallb ended (c_phases c)) eqn:E; [by left|]. right.
    destruct (progress_step (opt_ssh opts) ssh_options timeout (opt_cache opts) engine_version _ _ observe _ _ _ _ _ wp c Hinv E) as (k&c'&Hk).
    exists k, c'. cbn [run_steps]. by rewrite Hk.
Qed.

(** C37: When the threads have ended, in whatever order they stepped, the run is the sequential one:
    the same counters, the same rows and the same exit code, 0 exactly when no job failed (2 if the
    evidence was not published).  Every job has its row, each is counted once as executed, resumed or
    taken from the cache, the failures are the failed rows, the result directory holds the record of
    every executed job, and only successful records have entered the shared cache. *)
Theorem fleet_refines_sequential sched c :
  steps sched from = Some c -> forallb ended (c_phases c) = true ->
  let counts := sequential_counters (opt_ssh opts) ssh_options timeout attempts_max observe (pn_tasks p) (pn_counters p) in
  let rows := sequential_rows (opt_ssh opts) ssh_options timeout attempts_max observe (pn_tasks p) (pn_rows p) in
  let record := job_record (opt_ssh opts) ssh_options timeout engine_version attempts_max observe in
  let code := match opt_evidence opts with Some false => 2 | _ => if failed counts =? 0 then 0 else 1 end in
  exists w2,
    run_pool opts observe fleet_hosts (length jobs) attempts_max workers_max timeout ssh_options engine_version sched p w1 =
      (Ok (Some (Outcome code (Some (summary_of engine_version (length jobs) counts fleet_hosts rows)))), w2) /\
    executed counts + resumed counts + cache_hits counts = Z.of_nat (length jobs) /\
    failed counts = failed_rows rows /\
    (forall s, s ∈ jobs -> exists v, rows !! Z.to_nat (index s) = Some v /\ row_named v (name s)) /\
    (forall t, t ∈ pn_tasks p -> dget (result_file (t_spec t)) (out w2) = Some (obj (record t))) /\
    (forall n, dget n (cache w2) = dget n (cache w1) \/
       exists t, t ∈ pn_tasks p /\ succeeds (opt_ssh opts) ssh_options timeout attempts_max observe t = true /\
         n = cache_path (t_key t) /\ dget n (cache w2) = Some (obj (record t))).
Proof.
  intros H Hend counts rows record code. pose proof fleet_well_planned as wp.
  assert (Hs := start_inv (opt_ssh opts) ssh_options timeout engine_version _ _ observe _ _ w1 (pn_counters p) _ wp).
  assert (Hinv := run_steps_inv _ _ _ _ _ _ _ _ _ _ _ _ _ wp _ _ _ Hs H).
  destruct (ended_sequential _ _ _ _ _ _ _ _ _ _ _ _ wp c Hinv Hend) as (Hnf&Hcnt&Hrow&Hout).
  destruct planned_ok as [T N L [C1 C2] F R O E].
  destruct (sequential_rows_lookup (opt_ssh opts) ssh_options timeout _ _ observe _ _ _ wp) as (S1&S2&_).
  unfold run_pool. rewrite H, Hend, Hnf, Hcnt, Hrow. eexists. split; [reflexivity|]. split_and!.
  - unfold counts. cbn [sequential_counters executed resumed cache_hits]. lia.
  - unfold counts, rows. rewrite sequential_rows_failed; [by cbn; rewrite F| |].
    + by apply (places_NoDup _ _ _ _ _ wp).
    + apply O.
  - intros s Hs'. destruct (R s Hs') as [(t&Ht&<-)|(v&Hv&Hn)].
    + exists (job_row (opt_ssh opts) ssh_options timeout attempts_max observe t). split; [by apply S1|apply row_row_named].
    + exists v. split; [|done]. unfold rows. rewrite S2; [done|]. intros t Ht Heq. pose proof (O t Ht) as Ho.
      rewrite Heq, Hv in Ho. injection Ho as ->. by destruct Hn as (d&?&_).
  - intros t Ht. cbn [out]. rewrite dget_dset_ne; [by apply Hout|]. apply result_name_not_summary.
    by apply (wp_range _ _ _ _ _ wp).
  - intros n. apply (i_cache _ _ _ _ _ _ _ _ _ _ _ _ _ Hinv).
Qed.
End fleet.

(** The last word of an SSH command is a line that a POSIX shell splits into exactly the given
    words: no character of a host's worker path, root or options has a meaning to the remote shell. *)
Theorem ssh_command_words ssh ssh_options endpoint remote_argv : exists line,
  _ssh_cmd ssh ssh_options endpoint remote_argv = (ssh :: ssh_options) ++ [endpoint; line] /\
  sh_words Unquoted None line = Some remote_argv.
Proof. exists (shlex_join remote_argv). split; [done|apply shlex_join_words]. Qed.

(** ** A fleet of two local hosts *)

Module Sample.
Definition sys : fs :=
  Fs (fun base p => File (base +:+ "/" +:+ p)) (fun p => Raise (Exn FileNotFoundError p)) (fun p => p) (fun p => p)
    (fun p => (4, "d-" +:+ p)) (fun p d => String.prefix d p).
Definition host_doc (n : string) : value :=
  obj [("name", VStr n); ("transport", VStr "local"); ("root", VStr ("/" +:+ n)); ("tags", VList [VStr "cpu"])].
Definition job_doc (id : string) : value :=
  obj [("job", obj [("schema", VStr JOB_SCHEMA); ("id", VStr id); ("image", obj [("path", VStr (id +:+ ".bin"))])]);
       ("requires_tags", VList [VStr "cpu"])].
Definition doc : dict value :=
  [("schema", VStr FLEET_SCHEMA); ("retries", VInt 1); ("hosts", VList [host_doc "a"; host_doc "b"]);
   ("jobs", VList [job_doc "first"; job_doc "second"])].
Definition loaded : dict value * list HostSpec * list JobSpec :=
  ok_or ([], [], []) (_load_manifest sys "/m" (fun r => r) (Ok (obj doc))).
Definition hosts : list HostSpec := snd (fst loaded).
Definition jobs : list JobSpec := snd loaded.
Definition opts : options := Options true None None None fzero "ssh" [] false None.
Definition caps : value :=
  obj [("schema", VStr CAPABILITIES_SCHEMA); ("version", VStr "1.3");
       ("protocols", obj [("job", VStr JOB_SCHEMA); ("worker_response", VStr WORKER_RESPONSE_SCHEMA)])].
Definition probe_of (h : HostSpec) : probe := Probe (Ok (Process 0 "" (Ok caps) "")) true (app_error "").
Definition inputs : list (list input) := ok_or [] (res_map (_job_inputs sys None) jobs).
Definition empty : world := World [] [].
Abbreviation all_hosts := (fleet_hosts hosts probe_of "1.3").
Definition planned : res (option planning) * world :=
  plan_jobs false true all_hosts "1.3" (Planning [] (replicate (length (zip jobs inputs)) VNone) (Counters 0 0 0 0)) (zip jobs inputs) empty.
Definition p : planning := match fst planned with Ok (Some p) => p | _ => Planning [] [] (Counters 0 0 0 0) end.

(** The first attempt of the first job times out. *)
Definition observe (s : JobSpec) (h : HostSpec) (i : nat) : observation :=
  Observation (fun _ => Staging None ("d-/m/" +:+ name s +:+ ".bin") (app_error "") (app_error "") (app_error "") (app_error "") (app_error ""))
    (fun _ => if String.eqb (name s) "first" && Nat.eqb i 0 then Raise (Exn TimeoutExpired "")
              else Ok (Process 0 "" (Ok (obj [("schema", VStr WORKER_RESPONSE_SCHEMA); ("ok", VBool true)])) "")) fzero.
Definition sched : list nat := [0; 1; 0; 1; 1; 0; 0; 1; 0; 0; 1; 0; 1; 0]%nat.
Abbreviation all_done :=
  (run_steps (opt_ssh opts) [] fzero (opt_cache opts) "1.3" (attempts_max doc opts) (workers_max hosts probe_of "1.3") observe (pn_tasks p) sched
    (start (pn_tasks p) empty (pn_counters p) (pn_rows p))).
Definition last : config := match all_done with Some c => c | None => Config [] empty (Counters 0 0 0 0) [] end.

Lemma fleet_loads : _load_manifest sys "/m" (fun r => r) (Ok (obj doc)) = Ok (doc, hosts, jobs).
Proof. vm_compute. reflexivity. Qed.
Lemma no_retries_option n : opt_retries opts = Some n -> 0 <= n.
Proof. done. Qed.
Lemma fingerprints : res_map (_job_inputs sys (opt_local_root opts)) jobs = Ok inputs.
Proof. vm_compute. reflexivity. Qed.
Lemma plans : plan_jobs (opt_no_resume opts) (opt_cache opts) (fleet_hosts hosts probe_of "1.3") "1.3"
  (Planning [] (replicate (length (zip jobs inputs)) VNone) (Counters 0 0 0 0)) (zip jobs inputs) empty = (Ok (Some p), empty).
Proof. vm_compute. reflexivity. Qed.
Lemma all_steps : all_done = Some last.
Proof. vm_compute. reflexivity. Qed.
Example all_end : forallb ended (c_phases last) = true.
Proof. vm_compute. reflexivity. Qed.

(** The whole command, on the same schedule. *)
Example whole : (fun o => (o_code o, match o_summary o with Some s => (dget_n "executed" s, dget_n "failed" s) | None => (VNone, VNone) end))
  <$> match fst (main opts sys "/m" (fun r => r) probe_of observe (Ok (obj doc)) sched empty) with Ok o => o | Raise _ => None end
  = Some (0, (VInt 2, VInt 0)).
Proof. vm_compute. reflexivity. Qed.
End Sample.

Lemma fleet_bounds_witness :
  (forall h, h ∈ Sample.all_hosts -> Z.of_nat (in_use (pn_tasks Sample.p) (c_phases Sample.last) (h_index h)) <= slots h) /\
  (length (List.filter is_active (c_phases Sample.last)) <= workers_max Sample.hosts Sample.probe_of "1.3")%nat /\
  (forall ph, ph ∈ c_phases Sample.last -> has_failed ph = false /\ Z.of_nat (attempts_made ph) <= 1 + retries Sample.opts Sample.doc).
Proof.
  exact (fleet_bounds Sample.sys "/m" (fun r => r) (Ok (obj Sample.doc)) Sample.doc Sample.hosts Sample.jobs Sample.opts Sample.probe_of "1.3"
    Sample.inputs Sample.empty Sample.empty Sample.p fzero [] Sample.observe Sample.fleet_loads Sample.no_retries_option Sample.fingerprints Sample.plans
    Sample.sched Sample.last Sample.all_steps).
Defined.

Lemma fleet_terminates_witness :
  Z.of_nat (length Sample.sched) <= Z.of_nat (length (pn_tasks Sample.p)) * (2 * (1 + retries Sample.opts Sample.doc) + 4) /\
  (forallb ended (c_phases Sample.last) = true \/ exists k c',
    run_steps (opt_ssh Sample.opts) [] fzero (opt_cache Sample.opts) "1.3" (attempts_max Sample.doc Sample.opts)
      (workers_max Sample.hosts Sample.probe_of "1.3") Sample.observe (pn_tasks Sample.p) [k] Sample.last = Some c').
Proof.
  exact (fleet_terminates Sample.sys "/m" (fun r => r) (Ok (obj Sample.doc)) Sample.doc Sample.hosts Sample.jobs Sample.opts Sample.probe_of "1.3"
    Sample.inputs Sample.empty Sample.empty Sample.p fzero [] Sample.observe Sample.fleet_loads Sample.no_retries_option Sample.fingerprints Sample.plans
    Sample.sched Sample.last Sample.all_steps).
Defined.

Lemma fleet_refines_sequential_witness : exists w2 counts rows,
  run_pool Sample.opts Sample.observe Sample.all_hosts (length Sample.jobs) (attempts_max Sample.doc Sample.opts)
    (workers_max Sample.hosts Sample.probe_of "1.3") fzero [] "1.3" Sample.sched Sample.p Sample.empty =
    (Ok (Some (Outcome 0 (Some (summary_of "1.3" (length Sample.jobs) counts Sample.all_hosts rows)))), w2) /\
  executed counts = 2 /\ (forall s, s ∈ Sample.jobs -> exists v, rows !! Z.to_nat (index s) = Some v /\ row_named v (name s)).
Proof.
  destruct (fleet_refines_sequential Sample.sys "/m" (fun r => r) (Ok (obj Sample.doc)) Sample.doc Sample.hosts Sample.jobs Sample.opts Sample.probe_of "1.3"
    Sample.inputs Sample.empty Sample.empty Sample.p fzero [] Sample.observe Sample.fleet_loads Sample.no_retries_option Sample.fingerprints Sample.plans
    Sample.sched Sample.last Sample.all_steps Sample.all_end) as (w2&H1&_&_&H2&_).
  exists w2. eexists. eexists. split; [exact H1|]. split; [vm_compute; reflexivity|exact H2].
Defined.
