(* ===== verification/Compat.v ===== *)
(** * Compatibility snapshots ([ppc_lab_compat.py])

    The public surface of a source tree, read from its build files, and the checks that compare it
    with a baseline or with an incoming release. *)
From stdpp Require Import pretty.
From Stdlib Require Import Ascii.
From S2P Require Export PyValue Json.

Abbreviation obj := VDict.

Definition SCHEMA : string := "ppc-lab-compatibility-snapshot-v1".
Definition API_VERSION : Z := 1.

(** ** Regular expressions of the scripts *)

(** [re.search]: the leftmost match. *)
Fixpoint search {A} (m : string -> option A) (s : string) : option A :=
  match m s with
  | Some x => Some x
  | None => match s with EmptyString => None | String _ s => search m s end
  end.

(** [[0-9]+], with the rest. *)
Definition digits1 (s : string) : option (string * string) :=
  let '(a, r) := span is_digit s in if str_empty a then None else Some (a, r).

(** [[0-9]+\.[0-9]+\.[0-9]+]: the three numbers and the rest. *)
Definition version3 (s : string) : option (string * string * string * string) :=
  '(a, r) ← digits1 s; r ← strip_prefix "." r;
  '(b, r) ← digits1 r; r ← strip_prefix "." r;
  '(c, r) ← digits1 r; Some (a, b, c, r).

Definition text_of_version (v : string * string * string * string) : string :=
  let '(a, b, c, _) := v in a +:+ "." +:+ b +:+ "." +:+ c.

Definition digits_int (s : string) : Z := default 0 (int_of_string s).

Definition version_match (s : string) : option string :=
  r ← strip_prefix "project(PPCLab VERSION " s; text_of_version <$> version3 r.
Definition project_version (cmake : string) : res string :=
  match search version_match cmake with Some v => Ok v | None => app_error "cannot determine project version" end.

(** ** The snapshot of a tree *)

Definition MACROS : list (string * string) :=
  [("cpp_api", "PPCLAB_CPP_API_VERSION"); ("cpp_abi", "PPCLAB_CPP_ABI_VERSION"); ("target_profile_api", "PPCLAB_TARGET_PROFILE_API_VERSION");
   ("release_api", "PPCLAB_RELEASE_API_VERSION"); ("compatibility_api", "PPCLAB_COMPATIBILITY_API_VERSION");
   ("backup_api", "PPCLAB_BACKUP_API_VERSION"); ("observability_api", "PPCLAB_OBSERVABILITY_API_VERSION");
   ("security_api", "PPCLAB_SECURITY_API_VERSION"); ("replication_api", "PPCLAB_REPLICATION_API_VERSION")].

Definition macro_match (macro s : string) : option Z :=
  r ← strip_prefix ("#define " +:+ macro +:+ " ") s; '(n, _) ← digits1 r; Some (digits_int n).
Definition macro_versions (header : string) : res (dict Z) :=
  res_map (fun km => match search (macro_match (snd km)) header with
                     | Some n => Ok (fst km, n)
                     | None => app_error ("missing public version macro " +:+ snd km)
                     end) MACROS.

(** The names of the files of [schemas/]. *)
Definition schema_names (files : list string) : list string := py_sorted id (List.filter (str_endswith ".schema.json") files).

(** [RENAME\s+([A-Za-z0-9_.-]+)\)] at the head of a string: the group. *)
Definition rename_match (s : string) : option string :=
  r ← strip_prefix "RENAME" s;
  let '(sep, r) := span is_space r in
  if str_empty sep then None
  else let '(name, r) := span id_char r in
    if str_empty name then None else match r with String ")" _ => Some name | _ => None end.
(** [re.findall]: no match begins inside another, since blanks follow RENAME and none follows in a match. *)
Fixpoint find_renames (s : string) : list string :=
  match s with
  | EmptyString => []
  | String _ s' => match rename_match s with Some n => [n] | None => [] end ++ find_renames s'
  end.
Definition installed_tools (cmake : string) : list string :=
  let names := "ppc-lab" :: find_renames cmake in
  let names := if str_contains "scripts/ppc_trace_intelligence.py" cmake then names ++ ["ppc_trace_intelligence.py"] else names in
  py_sorted id (remove_dups names).

(** The files of a tree that the snapshot reads. *)
Record source_tree := Source { s_cmake : res string; s_header : res string; s_schemas : list string }.

Definition persisted_formats : dict value := [("evidence", VInt 1); ("knowledge", VInt 1); ("control", VInt 1); ("replication", VInt 1)].
Definition policy : dict value :=
  [("same_major_additive", VBool true); ("schema_removal_breaking", VBool true); ("api_abi_change_breaking", VBool true);
   ("persisted_format_downgrade_forbidden", VBool true)].

Definition build_snapshot (t : source_tree) : res (dict value) :=
  cmake ← s_cmake t; version ← project_version cmake;
  header ← s_header t; apis ← macro_versions header;
  let doc := fold_left (fun d kn => dset (fst kn) (VInt (snd kn)) d) apis
    [("schema", VStr SCHEMA); ("compatibility_api", VInt API_VERSION); ("platform_version", VStr version);
     ("platform_major", VInt (digits_int (str_before "." version))); ("license", VStr "GPL-3.0-only")] in
  Ok (doc ++ [("schemas", VList (VStr <$> schema_names (s_schemas t))); ("installed_tools", VList (VStr <$> installed_tools cmake));
              ("persisted_formats", obj persisted_formats); ("policy", obj policy)]).

(** ** Comparison with a baseline *)

(** The strings of [set(v)]: a [TypeError] when an element cannot be hashed. *)
Definition set_of (v : value) : res (list value) :=
  l ← viter v;
  if existsb (fun x => is_list x || is_dict x) l then Raise (Exn TypeError "unhashable type") else Ok l.
(** [sorted(set(a) - set(b))]; the lists hold strings, others make [sorted] or [join] raise. *)
Definition missing_from (a b : value) : res (list string) :=
  xs ← set_of a; ys ← set_of b;
  let gone := List.filter (fun x => negb (existsb (py_eq x) ys)) xs in
  names ← res_map (fun x => match x with VStr s => Ok s | _ => Raise (Exn TypeError "expected str instance") end) gone;
  Ok (py_sorted id (remove_dups names)).

Definition STABLE_APIS : list string := ["cpp_api"; "cpp_abi"; "target_profile_api"; "release_api"; "compatibility_api"].
Definition STABLE_LISTS : list string := ["schemas"; "installed_tools"].

Definition same_int (current baseline : dict value) (key : string) : res bool :=
  a ← py_int (dget_or key (VInt (-1)) current); b ← py_int (dget_or key (VInt (-2)) baseline); Ok (a =? b).

Definition api_error (current baseline : dict value) (key : string) : res (list string) :=
  same ← same_int current baseline key;
  Ok (if same : bool then [] else [key +:+ " changed: baseline=" +:+ py_str (dget_n key baseline) +:+ " current=" +:+ py_str (dget_n key current)]).
Definition list_error (current baseline : dict value) (field : string) : res (list string) :=
  missing ← missing_from (dget_or field (VList []) baseline) (dget_or field (VList []) current);
  Ok (match missing with [] => [] | _ => ["missing stable " +:+ field +:+ ": " +:+ str_join ", " missing] end).
Definition format_error (current : dict value) (kv : string * value) : res (list string) :=
  let '(key, val) := kv in
  cur ← vget key (dget_or "persisted_formats" (obj []) current);
  match cur with
  | VNone => Ok ["missing persisted format declaration: " +:+ key]
  | _ => c ← py_int cur; v ← py_int val;
         Ok (if c <? v then ["persisted format downgraded: " +:+ key +:+ " baseline=" +:+ py_str val +:+ " current=" +:+ py_str cur] else [])
  end.

Definition compare (current baseline : dict value) : res (list string) :=
  let schema := if eq_str (dget_n "schema" baseline) SCHEMA then [] else ["baseline schema must be " +:+ SCHEMA] in
  same ← same_int current baseline "platform_major";
  let major := if same : bool then [] else ["platform major changed"] in
  apis ← res_map (api_error current baseline) STABLE_APIS;
  lists ← res_map (list_error current baseline) STABLE_LISTS;
  formats ← vitems (dget_or "persisted_formats" (obj []) baseline);
  formats ← res_map (format_error current) formats;
  Ok (schema ++ major ++ concat apis ++ concat lists ++ concat formats).

(** ** The command *)

(** [audit_state], from the platform's upgrade report. *)
Definition audit_state (report : dict value) : dict value :=
  [("schema", VStr "ppc-lab-compatibility-state-audit-v1"); ("compatible", VBool (py_bool (dget_n "compatible" report)));
   ("migration_required", VBool (py_bool (dget_n "migration_required" report))); ("platform", obj report)].

Inductive command := Snapshot | Check (baseline : res value) | State (report : res (dict value)).

Definition check_doc (cur : dict value) (base : value) : res (dict value) :=
  base' ← match base with VDict d => Ok d | _ => no_attr base "get" end;
  errors ← compare cur base';
  Ok [("schema", VStr "ppc-lab-compatibility-check-v1"); ("compatible", VBool (match errors with [] => true | _ => false end));
      ("current", obj cur); ("baseline", dget_n "platform_version" base'); ("errors", VList (VStr <$> errors))].

(** The document printed and the exit code; [2] for the errors the command reports. *)
Definition main (t : source_tree) (c : command) : res (option (dict value) * Z) :=
  let doc := match c with
    | Snapshot => build_snapshot t
    | Check baseline => cur ← build_snapshot t; base ← baseline; check_doc cur base
    | State report => audit_state <$> report
    end in
  match doc with
  | Ok d => Ok (Some d, match c with Snapshot => 0 | _ => if py_bool (dget_n "compatible" d) then 0 else 1 end)
  | Raise e => if handled [OSError; ValueError; AppError] e then Ok (None, 2) else Raise e
  end.
