(* ===== verification/CompatProps.v ===== *)
(** * Compatibility checks compose *)
From S2P Require Import Compat.

(** What a comparison without errors says. *)
Record passes (current baseline : dict value) : Prop := Passes {
  ps_schema : eq_str (dget_n "schema" baseline) SCHEMA = true;
  ps_major : same_int current baseline "platform_major" = Ok true;
  ps_apis : forall k, k ∈ STABLE_APIS -> same_int current baseline k = Ok true;
  ps_lists : forall f, f ∈ STABLE_LISTS -> missing_from (dget_or f (VList []) baseline) (dget_or f (VList []) current) = Ok [];
  ps_formats : exists fs, vitems (dget_or "persisted_formats" (obj []) baseline) = Ok fs /\ forall kv, kv ∈ fs -> format_error current kv = Ok []
}.

Lemma api_error_nil cur base k : api_error cur base k = Ok [] <-> same_int cur base k = Ok true.
Proof. unfold api_error. destruct (same_int cur base k) as [[]|]; cbn; split; congruence. Qed.

Lemma list_error_nil cur base f :
  list_error cur base f = Ok [] <-> missing_from (dget_or f (VList []) base) (dget_or f (VList []) cur) = Ok [].
Proof. unfold list_error. destruct (missing_from _ _) as [[]|]; cbn; split; congruence. Qed.

Lemma compare_passes cur base : compare cur base = Ok [] <-> passes cur base.
Proof.
  unfold compare. split.
  - intros H. inv_res. case_bool; [|by symmetry in H].
    repeat match goal with H : [] = _ ++ _ |- _ => symmetry in H | H : _ ++ _ = [] |- _ => apply app_eq_nil in H as [? ?] end.
    repeat match goal with H : res_map _ _ = Ok ?y |- _ => apply res_map_concat_nil in H end.
    split; try done.
    + match goal with H : same_int _ _ _ = Ok ?b |- _ => by destruct b end.
    + intros k Hk. apply api_error_nil. intuition.
    + intros f Hf. apply list_error_nil. intuition.
    + eexists. split; [eassumption|]. intuition.
  - intros [-> -> Ha Hl (fs&Hfs&Hf)]. cbn [mbind res_bind].
    destruct (res_map_nil (api_error cur base) STABLE_APIS) as (ys&->&Hy); [intros; by apply api_error_nil, Ha|]. cbn [mbind res_bind].
    destruct (res_map_nil (list_error cur base) STABLE_LISTS) as (zs&->&Hz); [intros; by apply list_error_nil, Hl|]. cbn [mbind res_bind].
    rewrite Hfs. cbn [mbind res_bind]. destruct (res_map_nil (format_error cur) fs) as (ws&->&Hw); [done|]. cbn [mbind res_bind]. by rewrite Hy, Hz, Hw.
Qed.

(** ** Snapshots *)

Definition snapshot_shape (d : dict value) : Prop :=
  dget "schema" d = Some (VStr SCHEMA) /\
  (forall k, k ∈ "platform_major" :: STABLE_APIS -> exists n, dget k d = Some (VInt n)) /\
  (forall f, f ∈ STABLE_LISTS -> exists l, dget f d = Some (VList (VStr <$> l))) /\
  dget "persisted_formats" d = Some (obj persisted_formats).

Lemma build_snapshot_shape t d : build_snapshot t = Ok d -> snapshot_shape d.
Proof.
  unfold build_snapshot. intros H. inv_res.
  match goal with H : macro_versions _ = Ok ?x |- _ => rename x into apis; rename H into Hm end.
  unfold macro_versions, MACROS in Hm. cbn [res_map snd fst] in Hm.
  repeat match goal with H : context [match search ?m ?s with Some _ => _ | None => _ end] |- _ => destruct (search m s) as [?n|]; [cbn [mbind res_bind] in H|discriminate H] end.
  injection Hm as <-. unfold snapshot_shape. split; [reflexivity|]. split; [|split; [|reflexivity]].
  - intros k Hk. unfold STABLE_APIS in Hk. repeat (apply elem_of_cons in Hk as [->|Hk]; [cbn; eauto|]). by apply not_elem_of_nil in Hk.
  - intros f Hf. unfold STABLE_LISTS in Hf. repeat (apply elem_of_cons in Hf as [->|Hf]; [cbn; eauto|]). by apply not_elem_of_nil in Hf.
Qed.

(** ** Sets of names *)

Definition no_containers (l : list value) : bool := negb (existsb (fun x => is_list x || is_dict x) l).
Lemma set_of_Ok v l : set_of v = Ok l <-> viter v = Ok l /\ no_containers l = true.
Proof.
  unfold set_of, no_containers. destruct (viter v) as [l'|]; cbn; [|naive_solver].
  destruct (existsb _ l') eqn:E; split.
  - done.
  - intros [[= ->] H]. by rewrite E in H.
  - intros [= ->]. by rewrite E.
  - by intros [[= ->] _].
Qed.

Lemma set_of_strs l : set_of (VList (VStr <$> l)) = Ok (VStr <$> l).
Proof. apply set_of_Ok. split; [done|]. unfold no_containers. by induction l as [|x l IH]. Qed.

Lemma existsb_eq_strs s l : existsb (py_eq (VStr s)) (VStr <$> l) = true <-> s ∈ l.
Proof.
  rewrite existsb_exists. split.
  - intros (v&Hv&He). apply list_elem_of_In, list_elem_of_fmap in Hv as (x&->&Hx). cbn in He. by apply String.eqb_eq in He as ->.
  - intros Hs. exists (VStr s). split; [by apply list_elem_of_In, list_elem_of_fmap_2|]. cbn. by rewrite String.eqb_refl.
Qed.

(** Nothing of a document is missing from a list of strings. *)
Lemma missing_none v l : missing_from v (VList (VStr <$> l)) = Ok [] <->
  exists xs, set_of v = Ok xs /\ forall x, x ∈ xs -> exists s, x = VStr s /\ s ∈ l.
Proof.
  unfold missing_from. destruct (set_of v) as [xs|]; [|cbn; naive_solver]. rewrite set_of_strs. cbn. split.
  - intros H. exists xs. split; [done|]. inv_res.
    match goal with H : py_sorted id _ = [] |- _ => apply (f_equal length) in H; rewrite length_py_sorted in H end.
    match goal with H : res_map _ _ = Ok ?ns |- _ => rename ns into names; rename H into Hn end.
    assert (names = []) as ->.
    { destruct names as [|n ns]; [done|]. exfalso. assert (Hin : n ∈ remove_dups (n :: ns)) by (apply elem_of_remove_dups; by left).
      destruct (remove_dups (n :: ns)); [by apply not_elem_of_nil in Hin|done]. }
    assert (Hnil : List.filter (fun x => negb (existsb (py_eq x) (VStr <$> l))) xs = []).
    { destruct (List.filter _ xs) as [|y ys]; [done|]. cbn in Hn. destruct y; cbn in Hn; try done. inv_res. done. }
    intros x Hx. assert (He : existsb (py_eq x) (VStr <$> l) = true).
    { destruct (existsb (py_eq x) (VStr <$> l)) eqn:E; [done|]. exfalso. enough (Hin : In x []) by done. rewrite <- Hnil.
      apply List.filter_In. split; [by apply list_elem_of_In|by rewrite E]. }
    apply existsb_exists in He as (y&Hy&He). apply list_elem_of_In, list_elem_of_fmap in Hy as (s&->&Hs).
    exists s. split; [|done]. by apply eq_str_true.
  - intros (xs'&[= <-]&Hall). assert (Hnil : List.filter (fun x => negb (existsb (py_eq x) (VStr <$> l))) xs = []).
    { induction xs as [|x xs IH]; cbn; [done|]. destruct (Hall x ltac:(by left)) as (s&->&Hs).
      rewrite (proj2 (existsb_eq_strs s l) Hs). cbn. apply IH. intros y Hy. apply Hall. by right. }
    by rewrite Hnil.
Qed.

(** Compatibility is checked against the previous release only, and that is enough: when a
    release passes against a baseline document and the next release passes against its snapshot,
    the next release passes against that baseline. *)
Theorem compare_chain tree next a b c :
  build_snapshot tree = Ok b -> build_snapshot next = Ok c -> compare b a = Ok [] -> compare c b = Ok [] -> compare c a = Ok [].
Proof.
  intros (_&Bn&Bl&Bf)%build_snapshot_shape (_&Cn&Cl&Cf)%build_snapshot_shape Hba%compare_passes Hcb%compare_passes.
  destruct Hba as [S1 M1 A1 L1 (fs&Hfs&F1)], Hcb as [_ M2 A2 L2 _]. apply compare_passes.
  assert (Hint : forall k, k ∈ "platform_major" :: STABLE_APIS -> same_int b a k = Ok true -> same_int c b k = Ok true -> same_int c a k = Ok true).
  { intros k Hk. destruct (Bn k Hk) as (n&Hb), (Cn k Hk) as (m&Hc). unfold same_int, dget_or. rewrite Hb, Hc. cbn.
    destruct (py_int _) as [z|]; cbn; [|done]. intros [= H1] [= H2]. bool_prop. f_equal. apply Z.eqb_eq. lia. }
  split; [done|apply Hint; [by left|done|done]| | |].
  - intros k Hk. apply Hint; [by right|by apply A1|by apply A2].
  - intros f Hf. destruct (Bl f Hf) as (lb&Hb), (Cl f Hf) as (lc&Hc). specialize (L1 f Hf). specialize (L2 f Hf).
    unfold dget_or in *. rewrite Hb in L1, L2. rewrite Hc in L2 |- *. rewrite missing_none in L1, L2 |- *.
    destruct L1 as (xs&Hxs&H1), L2 as (ys&Hys&H2). exists xs. split; [done|]. intros x Hx.
    destruct (H1 x Hx) as (s&->&Hs). rewrite set_of_strs in Hys. injection Hys as <-.
    destruct (H2 (VStr s)) as (s'&[= <-]&Hs'); [by apply list_elem_of_fmap_2|]. eauto.
  - exists fs. split; [done|]. intros [k v] Hkv. specialize (F1 _ Hkv). unfold format_error, dget_or in *.
    rewrite Bf in F1. rewrite Cf. done.
Qed.

Module Sample.
Definition cmake (v tools : string) : string := "project(PPCLab VERSION " +:+ v +:+ " LANGUAGES CXX) " +:+ tools.
Definition header : string := fold_right (fun km s => "#define " +:+ snd km +:+ " 1" +:+ sp 10 +:+ s) "" MACROS.
Definition release (v tools : string) (schemas : list string) : source_tree := Source (Ok (cmake v tools)) (Ok header) schemas.
Definition baseline : dict value :=
  [("schema", VStr SCHEMA); ("platform_major", VInt 3); ("cpp_api", VInt 1); ("cpp_abi", VInt 1); ("target_profile_api", VInt 1);
   ("release_api", VInt 1); ("compatibility_api", VInt 1); ("schemas", VList [VStr "job.schema.json"]);
   ("installed_tools", VList [VStr "ppc-lab"]); ("persisted_formats", obj [("evidence", VInt 1)])].
Definition r32 : source_tree := release "3.2.0" "install(RENAME ppc-lab-compat)" ["job.schema.json"; "job.md"].
Definition r33 : source_tree := release "3.3.0" "install(RENAME ppc-lab-compat) install(RENAME ppc-lab-observe)" ["a.schema.json"; "job.schema.json"].
Example removed_tool : compare (ok_or [] (build_snapshot r32)) (ok_or [] (build_snapshot r33))
  = Ok ["missing stable schemas: a.schema.json"; "missing stable installed_tools: ppc-lab-observe"].
Proof. vm_compute. reflexivity. Qed.
End Sample.

Lemma compare_chain_witness : compare (ok_or [] (build_snapshot Sample.r33)) Sample.baseline = Ok [].
Proof.
  apply (compare_chain Sample.r32 Sample.r33 Sample.baseline (ok_or [] (build_snapshot Sample.r32)) (ok_or [] (build_snapshot Sample.r33)));
    vm_compute; reflexivity.
Defined.
