(* ===== verification/Upgrade.v ===== *)
(** * Transactional upgrades ([ppc_lab_upgrade.py])

    A release archive is verified against its manifest, the channel's policy and the current public
    surface, and then replaces the managed files of a repository; a snapshot taken before restores
    them when the replacement fails and on request.  A repository is a map from paths to directories
    and files with their modes (no symbolic links, which the code skips); an operation on it may
    fail. *)
From stdpp Require Import pretty gmap.
From Stdlib Require Import Ascii.
From S2P Require Export PyState Shell Compat Sha.

Definition PLAN_SCHEMA : string := "ppc-lab-upgrade-plan-v1".
Definition TX_SCHEMA : string := "ppc-lab-upgrade-transaction-v1".
Definition CHANNEL_SCHEMA : string := "ppc-lab-release-channel-v1".
Definition RELEASE_SCHEMA : string := "ppc-lab-release-manifest-v1".
Definition EXCLUDED_TOP : list string := [".git"; "build"; "build-release"; "build-asan"; "__pycache__"].

Abbreviation path := (list string).
(** A file: its content and its mode. *)
Abbreviation file := (string * Z)%type.
Inductive node := Dir | File (f : file).
Abbreviation tree := (gmap path node).

(** ** Versions *)

(** [re.fullmatch(r"(\d+)\.(\d+)\.(\d+)(?:[-+].*)?", v)] *)
Definition version_tuple (v : string) : res (Z * Z * Z) :=
  let invalid := app_error ("invalid release version: " +:+ v) in
  match version3 v with
  | Some (a, b, c, r) =>
      let suffix := match r with
        | EmptyString => true
        | String x r => (Ascii.eqb x "-" || Ascii.eqb x "+") && negb (str_mem (ascii_of_nat 10) r)
        end in
      if suffix then Ok (digits_int a, digits_int b, digits_int c) else invalid
  | None => invalid
  end.

Definition project_version (cmake : res string) : res string :=
  text ← cmake; match search version_match text with Some v => Ok v | None => app_error "cannot determine current PPC Lab version" end.

(** [project_version(root)] *)
Definition tree_version (t : tree) : res string :=
  project_version (match t !! ["CMakeLists.txt"] with
    | Some (File (text, _)) => Ok text
    | Some Dir => Raise (Exn OSError "Is a directory")
    | None => Raise (Exn FileNotFoundError "CMakeLists.txt")
    end).

(** ** Release archives *)

Definition safe_member (name : string) : res path :=
  let parts := path_parts name in
  let unsafe := str_startswith "/" name || existsb (String.eqb "..") parts || match parts with [] => true | _ => false end in
  if unsafe then app_error ("unsafe archive member: " +:+ name) else Ok parts.

(** A member: [a_attr] is the upper half of [external_attr], the Unix mode. *)
Record member := Member { m_name : string; m_data : string; m_attr : Z }.
(** An archive: its entries in order, what [json.loads] gives for its manifest, its digest. *)
Record archive := Archive { a_members : list member; a_doc : res value; a_sha : string }.

Definition MANIFEST : string := "RELEASE-MANIFEST.json".
(** [{i.filename: i for i in zf.infolist()}] *)
Definition infos_of (a : archive) : dict member := fold_left (fun d m => dset (m_name m) m d) (a_members a) [].

Definition is_symlink (m : member) : bool := Z.land (m_attr m) 61440 =? 40960.

Definition check_member (nm : string * member) : res unit :=
  _ ← safe_member (fst nm); guard_app (negb (is_symlink (snd nm))) ("symlink member rejected: " +:+ fst nm).

(** [{x.get("path"): x for x in files if isinstance(x, dict)}]: the entries with a string path, and
    whether all paths are strings. *)
Definition add_expected (st : dict (dict value) * bool) (x : value) : res (dict (dict value) * bool) :=
  match x with
  | VDict d =>
      match dget_n "path" d with
      | VStr p => Ok (dset p d (fst st), snd st)
      | VList _ | VDict _ => Raise (Exn TypeError "unhashable type")
      | _ => Ok (fst st, false)
      end
  | _ => Ok st
  end.

Definition verify_member (infos : dict member) (expected : dict (dict value)) (name : string) : res unit :=
  m ← dindex name infos; item ← dindex name expected;
  guard_app (py_eq (dget_n "size" item) (VInt (Z.of_nat (String.length (m_data m)))) && eq_str (dget_n "sha256" item) (sha256_hex (m_data m)))
    ("release member failed manifest verification: " +:+ name).

Definition verify_release (a : archive) : res (dict value) :=
  let infos := infos_of a in
  _ ← guard_app (dmem MANIFEST infos) "release archive needs one RELEASE-MANIFEST.json";
  _ ← res_map check_member infos;
  doc ← a_doc a;
  schema ← vget "schema" doc;
  _ ← guard_app (eq_str schema RELEASE_SCHEMA) ("unsupported release schema: " +:+ py_str schema);
  files ← vget_or "files" (VList []) doc; files ← viter files;
  '(expected, all_str) ← res_fold add_expected ([], true) files;
  let actual := dkeys (ddel MANIFEST infos) in
  _ ← guard_app (all_str && forallb (fun n => dmem n expected) actual && forallb (fun n => existsb (String.eqb n) actual) (dkeys expected))
        "release archive members do not match embedded manifest";
  _ ← res_map (verify_member infos expected) (py_sorted id actual);
  match doc with VDict d => Ok d | _ => no_attr doc "get" end.

(** [release_doc]: a damaged archive is an [OSError] of opening it. *)
Definition release_doc (opened : res archive) : res (dict value) :=
  match (a ← opened; verify_release a) with
  | Raise e => if handled [OSError; JSONDecodeError; KeyError] e then app_error ("cannot verify release archive: " +:+ exn_msg e) else Raise e
  | r => r
  end.

(** ** Policy *)

Definition differs (incoming current : dict value) (key : string) : list string :=
  if py_eq (dget_n key incoming) (dget_n key current) then []
  else [key +:+ " differs current=" +:+ py_str (dget_n key current) +:+ " incoming=" +:+ py_str (dget_n key incoming)].
Definition removed (incoming current : dict value) (field : string) : res (list string) :=
  missing ← missing_from (dget_or field (VList []) current) (dget_or field (VList []) incoming);
  Ok (match missing with [] => [] | _ => ["incoming release removes stable " +:+ field +:+ ": " +:+ str_join ", " missing] end).
Definition regresses (incoming : dict value) (kv : string * value) : res (list string) :=
  inc ← vget (fst kv) (dget_or "persisted_formats" (obj []) incoming);
  bad ← match inc with VNone => Ok true | _ => i ← py_int inc; v ← py_int (snd kv); Ok (i <? v) end;
  Ok (if bad : bool then ["incoming persisted format regresses " +:+ fst kv] else []).

Definition compat_errors (incoming : value) (current : dict value) : res (list string) :=
  schema ← vget "schema" incoming;
  match incoming with
  | VDict inc =>
      if negb (eq_str schema SCHEMA) then Ok ["incoming release has no supported compatibility declaration"]
      else
        let major := if py_eq (dget_n "platform_major" inc) (dget_n "platform_major" current) then [] else ["platform major differs"] in
        lists ← res_map (removed inc current) STABLE_LISTS;
        formats ← vitems (dget_or "persisted_formats" (obj []) current);
        formats ← res_map (regresses inc) formats;
        Ok (major ++ flat_map (differs inc current) STABLE_APIS ++ concat lists ++ concat formats)
  | _ => no_attr incoming "get"
  end.

Definition channel (major : Z) (prerelease : bool) : dict value :=
  [("major", VInt major); ("allow_prerelease", VBool prerelease); ("allow_downgrade", VBool false)].
Definition default_channels : dict value :=
  [("schema", VStr CHANNEL_SCHEMA); ("channel_api", VInt API_VERSION); ("default", VStr "stable");
   ("channels", obj [("stable", obj (channel 3 false)); ("candidate", obj (channel 3 true));
                     ("pinned", obj (channel 3 false ++ [("pin", VNone)]))])].
Definition load_channels (read : option (res value)) : res value :=
  match read with
  | None => Ok (obj default_channels)
  | Some read =>
      doc ← read; schema ← vget "schema" doc;
      _ ← guard_app (eq_str schema CHANNEL_SCHEMA) ("unsupported channel schema: " +:+ py_str schema);
      Ok doc
  end.

(** [a < b] on triples. *)
Definition version_lt (a b : Z * Z * Z) : bool :=
  let '(a1, a2, a3) := a in let '(b1, b2, b3) := b in
  (a1 <? b1) || ((a1 =? b1) && ((a2 <? b2) || ((a2 =? b2) && (a3 <? b3)))).

Definition channel_errors (channels : value) (name : string) (incoming_version : value) (current_version : string) : res (list string) :=
  all ← vget_or "channels" (obj []) channels; cfg ← vget name all;
  match cfg with
  | VDict cfg =>
      text ← match incoming_version with VStr s => Ok s | _ => Raise (Exn TypeError "expected string or bytes-like object") end;
      inc ← version_tuple text; cur ← version_tuple current_version;
      major ← py_int (dget_or "major" (VInt (fst (fst inc))) cfg);
      let chan e := "channel " +:+ name +:+ e in
      let prerelease := str_mem "-" text || str_mem "+" text in
      let pin := dget_n "pin" cfg in
      Ok ((if fst (fst inc) =? major then [] else [chan (" only permits major " +:+ py_str (dget_n "major" cfg))]) ++
          (if prerelease && negb (py_bool (dget_or "allow_prerelease" (VBool false) cfg)) then [chan " rejects prereleases"] else []) ++
          (if version_lt inc cur && negb (py_bool (dget_or "allow_downgrade" (VBool false) cfg))
           then [chan (" rejects downgrade " +:+ current_version +:+ " -> " +:+ text)] else []) ++
          (if py_bool pin && negb (py_eq incoming_version pin) then [chan (" is pinned to " +:+ py_str pin)] else []))
  | _ => Ok ["unknown release channel: " +:+ name]
  end.

(** What [ppc_lab_compat.build_snapshot] gives for the current tree; its errors are not [UpgradeError]s. *)
Definition current_compat (t : source_tree) : res (dict value) :=
  match build_snapshot t with
  | Raise e => Raise (if handled [AppError] e then Exn RuntimeError (exn_msg e) else e)
  | r => r
  end.

(** The plan of an upgrade, without the archive's path. *)
Definition plan_policy : dict value :=
  [("target_binaries_copied", VBool false); ("git_metadata_preserved", VBool true); ("build_directories_preserved", VBool true)].
Definition preflight (opened : res archive) (sha : string) (root : tree) (source : source_tree)
    (channels : option (res value)) (channel : string) : res (dict value) :=
  doc ← release_doc opened; current_version ← tree_version root;
  channels ← load_channels channels; version ← vindex "version" (obj doc);
  errors ← channel_errors channels channel version current_version;
  let compat := dget_or "compatibility" (obj []) doc in
  current ← current_compat source;
  more ← compat_errors compat current;
  let errors := errors ++ more in
  Ok [("schema", VStr PLAN_SCHEMA); ("upgrade_api", VInt API_VERSION); ("ok", VBool (match errors with [] => true | _ => false end));
      ("current_version", VStr current_version); ("incoming_version", version); ("archive_sha256", VStr sha);
      ("channel", VStr channel); ("compatibility", compat); ("errors", VList (VStr <$> errors)); ("policy", obj plan_policy)].

(** ** The file tree *)

Definition file_at (t : tree) (p : path) : option file := match t !! p with Some (File f) => Some f | _ => None end.

(** [p.suffix] of a name. *)
Fixpoint last_suffix (s : string) (best : option string) : option string :=
  match s with
  | EmptyString => best
  | String c s' => last_suffix s' (if Ascii.eqb c "." then Some s else best)
  end.
Definition suffix (name : string) : string :=
  match name with
  | EmptyString => EmptyString
  | String _ s => match last_suffix s None with Some x => if String.eqb x "." then "" else x | None => "" end
  end.

(** Whether a file belongs to the release: outside the excluded directories, no byte code. *)
Definition managed (p : path) : bool :=
  negb (match p with x :: _ => existsb (String.eqb x) EXCLUDED_TOP | [] => false end) &&
  negb (existsb (String.eqb "__pycache__") p || existsb (String.eqb (suffix (List.last p ""))) [".pyc"; ".pyo"]).

Definition keys (t : tree) : list path := (map_to_list t).*1.
Definition is_file (t : tree) (p : path) : bool := match t !! p with Some (File _) => true | _ => false end.
Definition is_dir (t : tree) (p : path) : bool := match t !! p with Some Dir => true | _ => false end.
Definition managed_files (t : tree) : list path := List.filter (fun p => is_file t p && managed p) (keys t).

Definition parent (p : path) : path := removelast p.
(** The proper prefixes of a path below the root, shortest first. *)
Fixpoint ancestors_from (done p : path) : list path :=
  match p with [] | [_] => [] | x :: p => (done ++ [x]) :: ancestors_from (done ++ [x]) p end.
Definition ancestors (p : path) : list path := ancestors_from [] p.
Definition as_posix (p : path) : string := str_join "/" p.

Definition os_error {A} (msg : string) : res A := Raise (Exn OSError msg).

(** [mkdir(parents=True, exist_ok=True)] of the directory of a file. *)
Definition mkdir_step (t : tree) (d : path) : res tree :=
  match t !! d with
  | None => Ok (<[d := Dir]> t)
  | Some Dir => Ok t
  | Some (File _) => os_error ("Not a directory: " +:+ as_posix d)
  end.
Definition mkdir_parent (p : path) (t : tree) : res tree := res_fold mkdir_step t (ancestors p).
Definition write_file (p : path) (f : file) (t : tree) : res tree :=
  match t !! p with Some Dir => os_error ("Is a directory: " +:+ as_posix p) | _ => Ok (<[p := File f]> t) end.
Definition unlink (p : path) (t : tree) : res tree :=
  match t !! p with
  | None => Raise (Exn FileNotFoundError (as_posix p))
  | Some (File _) => Ok (delete p t)
  | Some Dir => os_error ("Is a directory: " +:+ as_posix p)
  end.
(** [os.replace(tmp, p)] *)
Definition rename (tmp p : path) (t : tree) : res tree :=
  match t !! tmp, t !! p with
  | Some (File _), Some Dir => os_error ("Is a directory: " +:+ as_posix p)
  | Some (File f), _ => Ok (<[p := File f]> (delete tmp t))
  | _, _ => Raise (Exn FileNotFoundError (as_posix tmp))
  end.
Definition has_child (d : path) (t : tree) : bool := existsb (fun p => bool_decide (p <> [] /\ parent p = d)) (keys t).
Definition rmdir (d : path) (t : tree) : res tree :=
  match t !! d with
  | Some Dir => if has_child d t then os_error ("Directory not empty: " +:+ as_posix d) else Ok (delete d t)
  | Some (File _) => os_error ("Not a directory: " +:+ as_posix d)
  | None => Raise (Exn FileNotFoundError (as_posix d))
  end.

(** ** A repository whose operations may fail

    [r_faults] is the number of operations that succeed before one fails, when one does. *)
Record repo := Repo { r_tree : tree; r_faults : option nat }.

Definition operate (op : tree -> res tree) : M repo unit := fun r =>
  match r_faults r with
  | Some O => (Raise (Exn OSError "I/O error"), Repo (r_tree r) None)
  | n => match op (r_tree r) with
         | Ok t => (Ok tt, Repo t (pred <$> n))
         | Raise e => (Raise e, Repo (r_tree r) (pred <$> n))
         end
  end.

(** [try: body except Exception: handler; raise] *)
Definition guarded {W A} (body : M W A) (handler : M W unit) : M W A := fun w =>
  match body w with
  | (Raise e, w) => match handler w with (Ok _, w) => (Raise e, w) | (Raise e', w) => (Raise e', w) end
  | r => r
  end.

(** [d.with_name(d.name + ".upgrade-<pid>")] *)
Definition tmp_path (pid : Z) (p : path) : path := parent p ++ [List.last p "" +:+ ".upgrade-" +:+ pretty pid].

(** [shutil.copy2] creates the file and then writes it. *)
Definition copy_file (pid : Z) (p : path) (f : file) : M repo unit :=
  _ ← operate (mkdir_parent p);
  _ ← operate (write_file (tmp_path pid p) (EmptyString, snd f));
  _ ← operate (write_file (tmp_path pid p) f);
  operate (rename (tmp_path pid p) p).

Definition remove_obsolete (p : path) : M repo unit := catch [FileNotFoundError] (operate (unlink p)) (fun _ => mret tt).
Definition prune (d : path) : M repo unit :=
  match d with
  | x :: _ => if existsb (String.eqb x) EXCLUDED_TOP then mret tt else catch [OSError] (operate (rmdir d)) (fun _ => mret tt)
  | [] => mret tt
  end.

Definition deepest_first (l : list path) : list path := py_sorted (fun p => - Z.of_nat (length p)) l.

Definition replace_from_dir (pid : Z) (src : tree) : M repo unit :=
  dst ← gets r_tree;
  let incoming := managed_files src in
  let obsolete := List.filter (fun p => negb (bool_decide (p ∈ incoming))) (managed_files dst) in
  _ ← m_iter remove_obsolete (deepest_first obsolete);
  _ ← m_iter (fun p => match file_at src p with Some f => copy_file pid p f | None => mret tt end) (py_sorted as_posix incoming);
  dst ← gets r_tree;
  m_iter prune (deepest_first (List.filter (is_dir dst) (keys dst))).

(** ** Snapshots and extraction *)

(** The entries of a rollback archive, by path. *)
Abbreviation snapshot := (list (path * file)).

Definition snapshot_tree (t : tree) : snapshot :=
  omap (fun p => (fun f => (p, (fst f, Z.land (snd f) 4095))) <$> file_at t p) (py_sorted as_posix (managed_files t)).

Section transactions.
(** The mode a new file gets by default, the digest of the bytes of a rollback archive, the process. *)
Context (default_mode : Z) (digest : snapshot -> string) (pid : Z).

(** Writing an entry: [chmod] when it has permission bits. *)
Definition extract_entry (t : tree) (pf : path * file) : res tree :=
  let '(p, (data, attr)) := pf in
  t ← mkdir_parent p t;
  let before := match file_at t p with Some (_, m) => m | None => default_mode end in
  let mode := Z.land attr 511 in
  write_file p (data, if mode =? 0 then before else mode) t.
Definition extract_entries (l : snapshot) : res tree := res_fold extract_entry ∅ l.

(** [extract_verified], into an empty directory: the data of a name is read once per entry. *)
Definition member_entry (infos : dict member) (m : member) : res (path * file) :=
  p ← safe_member (m_name m); last ← dindex (m_name m) infos; Ok (p, (m_data last, m_attr m)).
Definition extract_verified (opened : res archive) : res (dict value * tree) :=
  doc ← release_doc opened; a ← opened;
  entries ← res_map (member_entry (infos_of a)) (a_members a);
  t ← extract_entries entries; Ok (doc, t).

Definition restore_snapshot (s : snapshot) : M repo unit :=
  stage ← lift (extract_entries s); replace_from_dir pid stage.

(** ** Transactions *)

(** The repository, and the transaction files and rollback archives of the backup directory, which
    lies outside the repository. *)
Record machine := Machine { m_repo : repo; m_tx : dict value; m_snapshots : dict snapshot }.

Definition on_repo {A} (m : M repo A) : M machine A := fun w =>
  let '(r, t) := m (m_repo w) in (r, Machine t (m_tx w) (m_snapshots w)).
Definition put_tx (id : string) (tx : dict value) : M machine unit :=
  modify (fun w => Machine (m_repo w) (dset id (obj tx) (m_tx w)) (m_snapshots w)).

Definition plan_str (k : string) (plan : dict value) : string := py_str (dget_n k plan).
Definition transaction_id (plan : dict value) : string :=
  plan_str "current_version" plan +:+ "-to-" +:+ plan_str "incoming_version" plan +:+ "-" +:+ prefix_of 12 (plan_str "archive_sha256" plan).
Definition snapshot_name (id : string) : string := id +:+ ".rollback.zip".

(** A new transaction, without the paths of the repository and of the archive. *)
Definition new_transaction (plan : dict value) (s : snapshot) (channel : string) : dict value :=
  let id := transaction_id plan in
  [("schema", VStr TX_SCHEMA); ("upgrade_api", VInt API_VERSION); ("transaction_id", VStr id); ("status", VStr "prepared");
   ("from_version", dget_n "current_version" plan); ("to_version", dget_n "incoming_version" plan);
   ("archive_sha256", dget_n "archive_sha256" plan); ("rollback_archive", VStr (snapshot_name id));
   ("rollback_sha256", VStr (digest s)); ("channel", VStr channel)].

(** Extract the release, replace the managed files, and check the version the tree then has. *)
Definition replace_release (opened : res archive) (plan : dict value) : M machine string :=
  '(_, stage) ← lift (extract_verified opened);
  _ ← on_repo (replace_from_dir pid stage);
  t ← gets (fun w => r_tree (m_repo w));
  v ← lift (tree_version t);
  _ ← lift (guard_app (eq_str (dget_n "incoming_version" plan) v) "applied tree version mismatch");
  mret v.

Definition apply_release (opened : res archive) (sha : string) (source : source_tree) (channels : option (res value)) (channel : string) :
    M machine (dict value) :=
  t ← gets (fun w => r_tree (m_repo w));
  plan ← lift (preflight opened sha t source channels channel);
  _ ← lift (guard_app (py_bool (dget_n "ok" plan))
        ("preflight failed: " +:+ match dget_n "errors" plan with VList l => str_join "; " (py_str <$> l) | _ => "" end));
  let s := snapshot_tree t in
  let id := transaction_id plan in
  _ ← modify (fun w => Machine (m_repo w) (m_tx w) (dset (snapshot_name id) s (m_snapshots w)));
  let tx := new_transaction plan s channel in
  _ ← put_tx id tx;
  v ← guarded (replace_release opened plan)
        (_ ← on_repo (restore_snapshot s); put_tx id (dset "status" (VStr "rolled-back-after-failure") tx));
  let tx := dset "result_version" (VStr v) (dset "status" (VStr "applied") tx) in
  _ ← put_tx id tx;
  mret (dset "ok" (VBool true) tx).

Definition rollback (id : string) : M machine (dict value) :=
  file ← gets (fun w => dget id (m_tx w));
  doc ← lift (match file with Some v => Ok v | None => Raise (Exn FileNotFoundError id) end);
  schema ← lift (vget "schema" doc);
  _ ← lift (guard_app (eq_str schema TX_SCHEMA) "unsupported transaction schema");
  tx ← lift (vitems doc);
  name ← lift (vindex "rollback_archive" doc);
  found ← gets (fun w => dget (py_str name) (m_snapshots w));
  s ← lift (match found with
            | Some s => if eq_str (dget_n "rollback_sha256" tx) (digest s) then Ok s
                        else app_error "rollback archive is missing or hash-mismatched"
            | None => app_error "rollback archive is missing or hash-mismatched"
            end);
  _ ← on_repo (restore_snapshot s);
  t ← gets (fun w => r_tree (m_repo w));
  restored ← lift (tree_version t);
  _ ← lift (guard_app (eq_str (dget_n "from_version" tx) restored) ("rollback restored unexpected version " +:+ restored));
  let tx := dset "rollback_result_version" (VStr restored) (dset "status" (VStr "rolled-back") tx) in
  _ ← put_tx id tx;
  mret (dset "ok" (VBool true) tx).

(** ** The command *)

Inductive upgrade_command :=
  | Preflight (opened : res archive) (sha : string) (source : source_tree) (channels : option (res value)) (channel : string)
  | Stage (empty : bool) (opened : res archive)
  | Apply (opened : res archive) (sha : string) (source : source_tree) (channels : option (res value)) (channel : string)
  | Rollback (id : string)
  | ChannelInit.

Definition dispatch (c : upgrade_command) : M machine (dict value) :=
  match c with
  | Preflight opened sha source channels channel =>
      t ← gets (fun w => r_tree (m_repo w)); lift (preflight opened sha t source channels channel)
  | Stage empty opened =>
      _ ← lift (guard_app empty "staging directory must be empty");
      '(doc, _) ← lift (extract_verified opened); version ← lift (vindex "version" (obj doc));
      mret [("schema", VStr PLAN_SCHEMA); ("ok", VBool true); ("version", version)]
  | Apply opened sha source channels channel => apply_release opened sha source channels channel
  | Rollback id => rollback id
  | ChannelInit => mret [("schema", VStr CHANNEL_SCHEMA); ("ok", VBool true)]
  end.

(** The exit code: 1 for a preflight that found errors, 2 for the errors the command reports. *)
Definition main (c : upgrade_command) : M machine Z := fun w =>
  match dispatch c w with
  | (Ok doc, w) => (Ok (if py_bool (dget_n "ok" doc) then 0 else 1), w)
  | (Raise e, w) => if handled [AppError; OSError; ValueError] e then (Ok 2, w) else (Raise e, w)
  end.
End transactions.
