(* ===== verification/UpgradeFacts.v ===== *)
(** * Replacing the managed files of a tree

    [replace_exact] says what a replacement that nothing disturbs leaves, and what the tree can be
    at the moment an operation of it fails; [extract_entries_exact] what extraction gives. *)
From stdpp Require Import gmap.
From S2P Require Import Upgrade.

(** ** Loops that may raise *)

Lemma wp_iter_exn {W A} (f : A -> M W unit) (I : list A -> W -> Prop) (E : exn -> W -> Prop) l w :
  (forall done x w, x ∈ l -> I done w ->
     wp (f x) (fun r w' => match r with Ok _ => I (done ++ [x]) w' | Raise e => E e w' end) w) ->
  I [] w -> wp (m_iter f l) (fun r w' => match r with Ok _ => I l w' | Raise e => E e w' end) w.
Proof.
  intros Hf. assert (H : forall done w, I done w ->
    wp (m_iter f l) (fun r w' => match r with Ok _ => I (done ++ l) w' | Raise e => E e w' end) w).
  { induction l as [|x l IH]; intros done w' Hw; cbn [m_iter].
    - rewrite app_nil_r. exact Hw.
    - rewrite wp_bind. eapply wp_mono; [apply Hf; [by left|exact Hw]|]. intros [u|e] w2 H2; [|done].
      rewrite cons_middle, app_assoc. apply IH; [|done]. intros d y w3 Hy. apply Hf. by right. }
  intros Hw. apply (H [] w Hw).
Qed.

(** ** Paths *)

Lemma elem_of_ancestors_from q done p :
  q ∈ ancestors_from done p <-> exists a b, a <> [] /\ b <> [] /\ p = a ++ b /\ q = done ++ a.
Proof.
  revert done. induction p as [|x p IH]; intros done.
  - split; [by intros ?%not_elem_of_nil|]. intros ([|? ?]&[|? ?]&?&?&?&?); done.
  - destruct p as [|y p].
    + split; [by intros ?%not_elem_of_nil|]. intros ([|? [|? ?]]&[|? ?]&?&?&?&?); done.
    + change (ancestors_from done (x :: y :: p)) with ((done ++ [x]) :: ancestors_from (done ++ [x]) (y :: p)).
      rewrite elem_of_cons, IH. split.
      * intros [->|(a&b&Ha&Hb&Hp&->)]; [by exists [x], (y :: p)|].
        exists (x :: a), b. rewrite Hp, <- app_assoc. done.
      * intros (a&b&Ha&Hb&Hp&->). destruct a as [|x' a]; [done|]. injection Hp as <- Hp.
        destruct a as [|y' a]; [by left|]. right. exists (y' :: a), b. rewrite <- app_assoc. done.
Qed.

Lemma elem_of_ancestors q p : q ∈ ancestors p <-> exists b, q <> [] /\ b <> [] /\ p = q ++ b.
Proof.
  unfold ancestors. rewrite elem_of_ancestors_from. cbn. split.
  - intros (a&b&?&?&?&->). eauto.
  - intros (b&?&?&?). exists q, b. eauto.
Qed.

Lemma ancestors_irrefl p : p ∉ ancestors p.
Proof.
  rewrite elem_of_ancestors. intros (b&_&Hb&Hp). apply Hb. apply (f_equal length) in Hp. rewrite length_app in Hp.
  destruct b; [done|]. cbn in Hp. lia.
Qed.

Lemma ancestors_trans a q p : a ∈ ancestors q -> q ∈ ancestors p -> a ∈ ancestors p.
Proof.
  rewrite !elem_of_ancestors. intros (b&?&?&->) (c&?&?&->). exists (b ++ c). split_and!; [done| |by rewrite app_assoc].
  by destruct b.
Qed.

(** ** Trees *)

Lemma file_at_insert t p n q :
  file_at (<[p := n]> t) q = if decide (q = p) then match n with File f => Some f | Dir => None end else file_at t q.
Proof. unfold file_at. destruct (decide (q = p)) as [->|Hne]; [by rewrite lookup_insert_eq|by rewrite lookup_insert_ne]. Qed.

Lemma file_at_delete t p q : file_at (delete p t) q = if decide (q = p) then None else file_at t q.
Proof. unfold file_at. destruct (decide (q = p)) as [->|Hne]; [by rewrite lookup_delete_eq|by rewrite lookup_delete_ne]. Qed.

Lemma file_at_Some t p f : file_at t p = Some f <-> t !! p = Some (File f).
Proof. unfold file_at. destruct (t !! p) as [[]|]; naive_solver. Qed.

Lemma elem_of_keys t p : p ∈ keys t <-> exists n, t !! p = Some n.
Proof.
  unfold keys. rewrite list_elem_of_fmap. split.
  - intros ([q n]&->&H%elem_of_map_to_list). by exists n.
  - intros (n&H). exists (p, n). by rewrite elem_of_map_to_list.
Qed.

(** The files of a release in a tree. *)
Definition incoming (t : tree) (p : path) : Prop := managed p = true /\ exists f, file_at t p = Some f.

Lemma elem_of_managed_files t p : p ∈ managed_files t <-> incoming t p.
Proof.
  unfold managed_files, incoming. rewrite list_elem_of_In, List.filter_In, <- list_elem_of_In, elem_of_keys.
  unfold is_file, file_at. split.
  - intros [_ H]. apply andb_true_iff in H as [H ->]. split; [done|]. destruct (t !! p) as [[]|]; try done. eauto.
  - intros [-> (f&H)]. destruct (t !! p) as [[|f']|]; try done. eauto.
Qed.

(** Every directory above an entry is there. *)
Definition wf_tree (t : tree) : Prop := forall p n a, t !! p = Some n -> a ∈ ancestors p -> t !! a = Some Dir.

Lemma wf_tree_check t : forallb (fun p => forallb (is_dir t) (ancestors p)) (keys t) = true -> wf_tree t.
Proof.
  rewrite forallb_forall. intros H p n a Hp Ha. assert (Hk : p ∈ keys t) by (apply elem_of_keys; eauto).
  specialize (H p ltac:(by apply list_elem_of_In)). rewrite forallb_forall in H. specialize (H a ltac:(by apply list_elem_of_In)).
  unfold is_dir in H. by destruct (t !! a) as [[]|].
Qed.

Lemma mkdir_parent_ok t p :
  (forall a, a ∈ ancestors p -> file_at t a = None) ->
  exists t', mkdir_parent p t = Ok t' /\ forall q, t' !! q = if decide (q ∈ ancestors p) then Some Dir else t !! q.
Proof.
  unfold mkdir_parent. generalize (ancestors p). intros l. revert t. induction l as [|a l IH]; intros t Hl; cbn.
  - exists t. split; [done|]. intros q. destruct (decide _) as [H|]; [by apply not_elem_of_nil in H|done].
  - assert (Ha : exists t1, mkdir_step t a = Ok t1 /\ forall q, t1 !! q = if decide (q = a) then Some Dir else t !! q).
    { unfold mkdir_step. pose proof (Hl a ltac:(by left)) as H. unfold file_at in H. destruct (t !! a) as [[|f]|] eqn:E; [|done|].
      - exists t. split; [done|]. intros q. case_decide; congruence.
      - eexists. split; [done|]. intros q. destruct (decide (q = a)) as [->|Hne]; [by rewrite lookup_insert_eq|by rewrite lookup_insert_ne]. }
    destruct Ha as (t1&->&Ht1). cbn. destruct (IH t1) as (t'&->&Ht').
    { intros b Hb. unfold file_at. rewrite Ht1. destruct (decide (b = a)); [done|]. apply Hl. by right. }
    exists t'. split; [done|]. intros q. rewrite Ht', Ht1.
    destruct (decide (q ∈ l)), (decide (q = a)), (decide (q ∈ a :: l)); set_solver.
Qed.

(** What [mkdir] does when it succeeds. *)
Lemma mkdir_parent_spec t p t' : mkdir_parent p t = Ok t' ->
  forall q, t' !! q = if decide (q ∈ ancestors p) then Some Dir else t !! q.
Proof.
  intros H. destruct (mkdir_parent_ok t p) as (t2&H2&Hq); [|by assert (t2 = t') as <- by congruence].
  intros a Ha. unfold mkdir_parent in H. revert t H Ha. generalize (ancestors p). intros l. induction l as [|b l IH]; intros t; cbn; [by intros _ ?%not_elem_of_nil|].
  intros H. inv_res. intros [->|Ha]%elem_of_cons.
  - unfold mkdir_step, file_at in *. by destruct (t !! b) as [[]|].
  - match goal with H1 : mkdir_step t b = Ok ?x |- _ => assert (file_at x a = None -> file_at t a = None) as Hx end.
    { unfold mkdir_step, file_at in *. destruct (t !! b) as [[]|] eqn:E; try done; [by simplify_eq|]. simplify_eq.
      destruct (decide (a = b)) as [->|Hne]; [by rewrite E|]. by rewrite lookup_insert_ne. }
    eauto.
Qed.

(** ** One operation *)

Lemma wp_operate op (r : repo) (Q : res unit -> repo -> Prop) t' :
  op (r_tree r) = Ok t' -> Q (Ok tt) (Repo t' (pred <$> r_faults r)) ->
  (r_faults r <> None -> Q (Raise (Exn OSError "I/O error")) (Repo (r_tree r) None)) -> wp (operate op) Q r.
Proof.
  intros Hop Hok Hfault. unfold wp, operate. destruct (r_faults r) as [[|n]|] eqn:E; cbn in *; rewrite ?Hop; cbn; auto.
Qed.

Section replace.
Context (pid : Z) (src dst : tree) (n0 : option nat).

(** Where the files of [src] can go in [dst]: no directory is in their way, no file that stays is
    above them, and the names of their temporary copies are free. *)
Record replaceable : Prop := Replaceable {
  rp_wf : wf_tree src;
  rp_no_dir : forall p, incoming src p -> dst !! p <> Some Dir;
  rp_above : forall p a f, incoming src p -> a ∈ ancestors p -> file_at dst a = Some f -> managed a = true;
  rp_tmp : forall p, incoming src p -> managed (tmp_path pid p) = true /\ ~ incoming src (tmp_path pid p) /\
    dst !! tmp_path pid p <> Some Dir /\ forall p', incoming src p' -> tmp_path pid p ∉ ancestors p'
}.

(** What the tree can be while it is replaced. *)
Record midway (t : tree) : Prop := Midway {
  bt_unmanaged : forall q, managed q = false -> file_at t q = file_at dst q;
  bt_dirs : forall q, t !! q = Some Dir -> dst !! q = Some Dir \/ exists p, incoming src p /\ q ∈ ancestors p
}.

Definition replaced (t : tree) : Prop :=
  midway t /\ forall q, file_at t q = if managed q then file_at src q else file_at dst q.

(** The faults so far: none strikes when none was to come. *)
Definition unharmed (r : repo) : Prop := n0 = None -> r_faults r = None.
Definition struck (r : repo) : Prop := n0 <> None /\ r_faults r = None.

Lemma unharmed_step (r : repo) t : unharmed r -> unharmed (Repo t (pred <$> r_faults r)).
Proof. unfold unharmed. cbn. intros H Hn. by rewrite (H Hn). Qed.
Lemma unharmed_struck (r : repo) t : unharmed r -> r_faults r <> None -> struck (Repo t None).
Proof. unfold unharmed, struck. cbn. tauto. Qed.

Hypothesis rp : replaceable.
#[local] Set Default Proof Using "All".

Lemma incoming_not_above p q : incoming src p -> incoming src q -> p ∉ ancestors q.
Proof.
  intros [_ (f&Hf%file_at_Some)] [_ (g&Hg%file_at_Some)] Hin. pose proof (rp_wf rp q _ p Hg Hin). congruence.
Qed.

(** *** Removing *)

Definition obsolete (p : path) : Prop := incoming dst p /\ ~ incoming src p.

Lemma remove_phase l (r : repo) :
  (forall p, p ∈ l -> obsolete p) -> r_tree r = dst -> unharmed r ->
  wp (m_iter remove_obsolete l) (fun x r' => match x with
    | Ok _ => (forall q, r_tree r' !! q = if decide (q ∈ l) then None else dst !! q) /\ unharmed r'
    | Raise _ => midway (r_tree r') /\ struck r' end) r.
Proof.
  intros Hl Hr Hu.
  eapply wp_mono; [apply (wp_iter_exn remove_obsolete
    (fun (done : list path) r' => (forall q, r_tree r' !! q = if decide (q ∈ done) then None else dst !! q) /\ unharmed r' /\
       forall q, q ∈ done -> obsolete q)
    (fun _ r' => midway (r_tree r') /\ struck r') l r)|].
  2: { split; [|split; [done|by intros ? ?%not_elem_of_nil]]. intros q. rewrite Hr.
       destruct (decide (q ∈ [])) as [H|]; [by apply not_elem_of_nil in H|done]. }
  2: { intros [u|e] r'; [|done]. by intros (?&?&_). }
  intros done x r1 Hx (Ht&Hu1&Hd). unfold remove_obsolete, wp, catch.
  assert (Hb : midway (r_tree r1)).
  { split.
    - intros q Hq. unfold file_at. rewrite Ht. destruct (decide (q ∈ done)) as [Hin|]; [|done].
      destruct (Hd q Hin) as [[Hm _] _]. congruence.
    - intros q. rewrite Ht. case_decide; [done|by left]. }
  assert (Hd' : forall q, q ∈ done ++ [x] -> obsolete q).
  { intros q [Hq|Hq]%elem_of_app; [by apply Hd|]. apply list_elem_of_singleton in Hq as ->. by apply Hl. }
  assert (Hnext : forall (t' : tree) q, (t' !! q = if decide (q = x) then None else r_tree r1 !! q) ->
    t' !! q = if decide (q ∈ done ++ [x]) then None else dst !! q).
  { intros t' q ->. rewrite Ht. destruct (decide (q = x)), (decide (q ∈ done)), (decide (q ∈ done ++ [x])); set_solver. }
  assert (Hun : unlink x (r_tree r1) = Ok (delete x (r_tree r1)) \/
    (unlink x (r_tree r1) = Raise (Exn FileNotFoundError (as_posix x)) /\ r_tree r1 !! x = None)).
  { unfold unlink. destruct (Hl x Hx) as [[_ (f&Hf%file_at_Some)] _]. rewrite Ht. case_decide; [by right|]. rewrite Hf. by left. }
  unfold operate. destruct (r_faults r1) as [[|n]|] eqn:Ef.
  { cbn. split; [done|]. eapply unharmed_struck; [exact Hu1|congruence]. }
  all: destruct Hun as [->|[-> Hnone]]; cbn; (split; [|split; [unfold unharmed in *; cbn; rewrite Ef in Hu1; (done || (intros Hn; specialize (Hu1 Hn); done))|done]]).
  all: intros q; apply Hnext; destruct (decide (q = x)) as [->|]; rewrite ?lookup_delete_eq, ?lookup_delete_ne by done; done.
Qed.

(** *** Copying *)

Record copying (done : list path) (t : tree) : Prop := Copying {
  cp_done : forall p, p ∈ done -> file_at t p = file_at src p;
  cp_between : midway t;
  cp_gone : forall q, managed q = true -> ~ incoming src q -> file_at t q = None
}.

Lemma between_no_dir t p : midway t -> incoming src p -> t !! p <> Some Dir /\ t !! tmp_path pid p <> Some Dir.
Proof.
  intros Hb Hp. destruct (rp_tmp rp p Hp) as (_&_&Hd&Ha). split; intros H; destruct (bt_dirs _ Hb _ H) as [?|(p'&Hp'&Hin)].
  - by apply (rp_no_dir rp p Hp).
  - by apply (incoming_not_above p p').
  - done.
  - by apply (Ha p').
Qed.

Lemma copying_above done t p a : copying done t -> incoming src p -> a ∈ ancestors p -> file_at t a = None.
Proof.
  intros Hc Hp Ha. destruct (managed a) eqn:Em.
  - apply (cp_gone _ _ Hc); [done|]. intros Hin. by apply (incoming_not_above a p).
  - rewrite (bt_unmanaged _ (cp_between _ _ Hc)) by done. destruct (file_at dst a) as [f|] eqn:E; [|done].
    rewrite (rp_above rp p a f) in Em; done.
Qed.

(** A tree with directories made above an incoming file, and its temporary file written. *)
Lemma between_step t t' p : midway t -> incoming src p ->
  (forall q, t' !! q = (if decide (q ∈ ancestors p) then Some Dir else t !! q) \/ (q = tmp_path pid p /\ exists f, t' !! q = Some (File f)) \/
     (q = p /\ exists f, t' !! q = Some (File f)) \/ (q = tmp_path pid p /\ t' !! q = None)) ->
  (forall a, a ∈ ancestors p -> file_at t a = None) -> midway t'.
Proof.
  intros Hb Hp Ht Hab. destruct (rp_tmp rp p Hp) as (Hm&_&_&_). pose proof (proj1 Hp) as Hmp. split.
  - intros q Hq. destruct (Ht q) as [H|[[-> _]|[[-> _]|[-> _]]]]; try congruence.
    rewrite <- (bt_unmanaged _ Hb q Hq). unfold file_at at 1. rewrite H. destruct (decide (q ∈ ancestors p)) as [Hin|]; [|done].
    symmetry. by apply Hab.
  - intros q Hq. destruct (Ht q) as [H|[[_ (f&H)]|[[_ (f&H)]|[_ H]]]]; rewrite Hq in H; try done.
    destruct (decide (q ∈ ancestors p)) as [Hin|]; [right; by exists p|]. symmetry in H. by apply (bt_dirs _ Hb).
Qed.

Lemma copy_step done p f (r : repo) :
  incoming src p -> file_at src p = Some f -> copying done (r_tree r) -> unharmed r -> (forall q, q ∈ done -> incoming src q) ->
  wp (copy_file pid p f) (fun x r' => match x with
    | Ok _ => copying (done ++ [p]) (r_tree r') /\ unharmed r'
    | Raise _ => midway (r_tree r') /\ struck r' end) r.
Proof.
  intros Hp Hf Hc Hu Hdone. pose proof (cp_between _ _ Hc) as Hb. destruct (rp_tmp rp p Hp) as (Hm&Hni&_&Hna).
  set (tmp := tmp_path pid p) in *. assert (Hne : tmp <> p) by (intros Heq; by rewrite Heq in Hni).
  assert (Hab : forall a, a ∈ ancestors p -> file_at (r_tree r) a = None) by (intros a; by apply (copying_above done)).
  destruct (mkdir_parent_ok (r_tree r) p Hab) as (t1&H1&Ht1).
  assert (Htd : t1 !! tmp <> Some Dir /\ t1 !! p <> Some Dir).
  { rewrite !Ht1. rewrite (decide_False (P := tmp ∈ ancestors p)) by (by apply Hna). rewrite decide_False by apply ancestors_irrefl.
    destruct (between_no_dir _ _ Hb Hp). by split. }
  assert (Hb1 : midway t1) by (eapply (between_step (r_tree r)); try done; intros q; left; apply Ht1).
  assert (Hw : forall g t, t !! tmp <> Some Dir -> write_file tmp g t = Ok (<[tmp := File g]> t)).
  { intros g t. unfold write_file. by destruct (t !! tmp) as [[]|]. }
  assert (Hb2 : forall t g, (forall q, q <> tmp -> t !! q = t1 !! q) -> midway (<[tmp := File g]> t)).
  { intros t g Ht. eapply (between_step (r_tree r)); try done. intros q. destruct (decide (q = tmp)) as [->|Hq].
    - right. left. split; [done|]. exists g. apply lookup_insert_eq.
    - left. rewrite lookup_insert_ne by done. rewrite Ht by done. apply Ht1. }
  unfold copy_file. fold tmp. rewrite wp_bind.
  eapply wp_operate; [exact H1| |intros Hs; split; [done|by eapply unharmed_struck]].
  rewrite wp_bind. set (r1 := Repo t1 _). assert (Hu1 : unharmed r1) by (by apply unharmed_step).
  eapply wp_operate; [apply Hw, Htd| |intros Hs; split; [done|by eapply unharmed_struck]].
  rewrite wp_bind. set (r2 := Repo _ _). assert (Hu2 : unharmed r2) by (by apply (unharmed_step r1)).
  eapply wp_operate; [apply Hw; subst r2; cbn; by rewrite lookup_insert_eq| |intros Hs; split; [by apply Hb2|by eapply unharmed_struck]].
  set (r3 := Repo _ _). assert (Hu3 : unharmed r3) by (by apply (unharmed_step r2)). subst r2. cbn [r_tree] in r3.
  eapply wp_operate with (t' := <[p := File f]> (delete tmp t1)).
  - subst r3. cbn [r_tree]. unfold rename. rewrite lookup_insert_eq, !lookup_insert_ne by done.
    change (r_tree r1) with t1. destruct (t1 !! p) as [[]|] eqn:Ep; [by destruct Htd| |]; by rewrite !delete_insert_eq.
  - split; [|by apply (unharmed_step r3)]. cbn [r_tree].
    assert (Hfin : midway (<[p:=File f]> (delete tmp t1))).
    { eapply (between_step (r_tree r)); try done. intros q. destruct (decide (q = p)) as [->|Hq].
      - right. right. left. split; [done|]. exists f. apply lookup_insert_eq.
      - rewrite lookup_insert_ne by done. destruct (decide (q = tmp)) as [->|Hq'].
        + right. right. right. split; [done|]. apply lookup_delete_eq.
        + left. rewrite lookup_delete_ne by done. apply Ht1. }
    assert (Hfile : forall q, q <> p -> q <> tmp -> file_at (<[p:=File f]> (delete tmp t1)) q = file_at (r_tree r) q).
    { intros q Hq Hq'. unfold file_at at 1. rewrite lookup_insert_ne, lookup_delete_ne, Ht1 by done.
      destruct (decide (q ∈ ancestors p)) as [Hin|]; [|done]. symmetry. by apply Hab. }
    split; [|done|].
    + intros q [Hq|Hq]%elem_of_app.
      * destruct (decide (q = p)) as [->|Hqp]; [rewrite file_at_insert, decide_True by done; done|].
        rewrite Hfile; [by apply (cp_done _ _ Hc)|done|]. intros ->. by apply Hni, Hdone.
      * apply list_elem_of_singleton in Hq as ->. rewrite file_at_insert, decide_True by done. done.
    + intros q Hmq Hnq. assert (Hqp : q <> p) by (by intros ->). destruct (decide (q = tmp)) as [->|Hqt].
      * rewrite file_at_insert, decide_False, file_at_delete, decide_True by done. done.
      * rewrite Hfile by done. by apply (cp_gone _ _ Hc).
  - intros Hs. split; [|by eapply unharmed_struck]. subst r3. cbn [r_tree]. apply Hb2. intros q Hq. by rewrite lookup_insert_ne.
Qed.

(** *** Pruning *)

Lemma prune_step d (r : repo) t0 :
  (forall q, file_at (r_tree r) q = file_at t0 q) -> (forall q, r_tree r !! q = Some Dir -> t0 !! q = Some Dir) -> unharmed r ->
  wp (prune d) (fun x r' => match x with
    | Ok _ => (forall q, file_at (r_tree r') q = file_at t0 q) /\ (forall q, r_tree r' !! q = Some Dir -> t0 !! q = Some Dir) /\ unharmed r'
    | Raise _ => False end) r.
Proof.
  intros Hf Hd Hu. destruct d as [|x d]; [done|]. unfold prune. case_bool; [done|].
  unfold wp, catch, operate. assert (Hup : forall t, unharmed (Repo t (pred <$> r_faults r))) by (intros t; by apply unharmed_step).
  destruct (r_faults r) as [[|n]|] eqn:Ef; cbn.
  { by split_and!. }
  all: unfold rmdir; destruct (r_tree r !! (x :: d)) as [[|g]|] eqn:Ed; [destruct (has_child _ _)|..]; cbn; try (split_and!; try done; apply Hup).
  all: split_and!; [| |apply Hup].
  1, 3: intros q; rewrite file_at_delete; destruct (decide (q = x :: d)) as [->|]; [|done]; rewrite <- Hf; unfold file_at; by rewrite Ed.
  all: intros q Hq; apply Hd; destruct (decide (q = x :: d)) as [->|Hne]; [by rewrite lookup_delete_eq in Hq|by rewrite lookup_delete_ne in Hq].
Qed.

(** ** The replacement *)

Lemma copying_start (l : list path) (t : tree) :
  (forall p, p ∈ l <-> obsolete p) -> (forall q, t !! q = if decide (q ∈ l) then None else dst !! q) -> copying [] t.
Proof.
  intros Hl Ht. split; [by intros ? ?%not_elem_of_nil| |].
  - split.
    + intros q Hq. unfold file_at. rewrite Ht. destruct (decide (q ∈ l)) as [Hin|]; [|done].
      apply Hl in Hin as [[Hm _] _]. congruence.
    + intros q. rewrite Ht. case_decide; [done|by left].
  - intros q Hm Hni. unfold file_at. rewrite Ht. destruct (decide (q ∈ l)) as [|Hn]; [done|].
    destruct (dst !! q) as [[|f]|] eqn:E; try done. exfalso. apply Hn, Hl. split; [|done]. split; [done|]. exists f. by apply file_at_Some.
Qed.

Lemma copying_replaced (l : list path) (t t' : tree) :
  (forall p, p ∈ l <-> incoming src p) -> copying l t ->
  (forall q, file_at t' q = file_at t q) -> (forall q, t' !! q = Some Dir -> t !! q = Some Dir) -> replaced t'.
Proof.
  intros Hl [Hd Hb Hg] Hf Hdir. split.
  - split; [intros q Hq; rewrite Hf; by apply Hb|]. intros q Hq. by apply Hb, Hdir.
  - intros q. rewrite Hf. destruct (managed q) eqn:Em; [|by apply Hb].
    destruct (decide (q ∈ l)) as [Hin|Hn]; [by apply Hd|].
    assert (Hni : ~ incoming src q) by (by rewrite <- Hl). rewrite Hg by done.
    destruct (file_at src q) eqn:E; [|done]. exfalso. apply Hni. split; [done|eauto].
Qed.

Lemma replace_exact (r : repo) :
  r_tree r = dst -> unharmed r ->
  wp (replace_from_dir pid src) (fun x r' => match x with
    | Ok _ => replaced (r_tree r') /\ unharmed r'
    | Raise _ => midway (r_tree r') /\ struck r' end) r.
Proof.
  intros Hr Hu. unfold replace_from_dir. rewrite wp_bind. unfold gets. change (wp _ ?Q r) with (Q (Ok (r_tree r)) r). cbv beta iota.
  rewrite Hr. set (obs := deepest_first _).
  assert (Hobs : forall p, p ∈ obs <-> obsolete p).
  { intros p. unfold obs, deepest_first, obsolete. rewrite elem_of_py_sorted, list_elem_of_In, List.filter_In, <- list_elem_of_In.
    rewrite elem_of_managed_files, negb_true_iff, bool_decide_eq_false, elem_of_managed_files. done. }
  rewrite wp_bind. eapply wp_mono; [apply (remove_phase obs r); [apply Hobs|done|done]|].
  intros [u|e] r1; [|done]. intros (Ht1&Hu1). pose proof (copying_start obs (r_tree r1) Hobs Ht1) as Hc1.
  set (inc := py_sorted as_posix (managed_files src)).
  assert (Hinc : forall p, p ∈ inc <-> incoming src p) by (intros p; unfold inc; by rewrite elem_of_py_sorted, elem_of_managed_files).
  rewrite wp_bind. eapply wp_mono.
  { apply (wp_iter_exn _ (fun done r' => copying done (r_tree r') /\ unharmed r' /\ forall q, q ∈ done -> incoming src q)
      (fun _ r' => midway (r_tree r') /\ struck r') inc r1); [|split; [done|split; [done|by intros ? ?%not_elem_of_nil]]].
    intros done p r2 Hp (Hc2&Hu2&Hd2). apply Hinc in Hp. pose proof Hp as [_ (f&Hf)]. rewrite Hf.
    eapply wp_mono; [by apply (copy_step done p f r2)|]. intros [u'|e] r3; [|done]. intros [Hc3 Hu3]. split; [done|]. split; [done|].
    intros q [Hq|Hq]%elem_of_app; [by apply Hd2|]. by apply list_elem_of_singleton in Hq as ->. }
  intros [u'|e] r2; [|done]. intros (Hc2&Hu2&_). rewrite wp_bind. change (wp (λ w, (Ok (r_tree w), w)) ?Q r2) with (Q (Ok (r_tree r2)) r2).
  cbv beta iota. set (dirs := deepest_first _).
  eapply wp_mono; [apply (wp_iter_exn prune (fun _ r' => (forall q, file_at (r_tree r') q = file_at (r_tree r2) q) /\
    (forall q, r_tree r' !! q = Some Dir -> r_tree r2 !! q = Some Dir) /\ unharmed r') (fun _ _ => False) dirs r2)|].
  - intros done d r3 _ (Hf&Hd&Hu3). eapply wp_mono; [by apply (prune_step d r3 (r_tree r2))|]. intros [u2|e] r4; done.
  - done.
  - intros [u2|e] r3; [|done]. intros (Hf&Hd&Hu3). split; [|done]. by eapply copying_replaced.
Qed.
End replace.

(** ** Extraction *)

(** Putting files into a tree, with the mode that [mode_of] gives from what is there and the entry's. *)
Section put.
Context (mode_of : option file -> Z -> Z).

Definition put_entry (t : tree) (pf : path * file) : res tree :=
  let '(p, (data, attr)) := pf in
  t ← mkdir_parent p t; write_file p (data, mode_of (file_at t p) attr) t.
Definition put_entries (l : list (path * file)) : res tree := res_fold put_entry ∅ l.

Lemma put_entry_wf t pf t' : wf_tree t -> put_entry t pf = Ok t' -> wf_tree t'.
Proof.
  destruct pf as [p [data attr]]. unfold put_entry. intros Hwf H. inv_res.
  match goal with H : mkdir_parent p t = Ok ?x |- _ => rename x into t1; pose proof (mkdir_parent_spec _ _ _ H) as Ht1 end.
  unfold write_file in *. destruct (t1 !! p) as [[|g]|] eqn:Ep; try done; simplify_eq.
  all: intros q n a Hq Ha; assert (Hap : a <> p) by
    (intros ->; destruct (decide (q = p)) as [->|Hqp]; [by apply ancestors_irrefl in Ha|];
     rewrite lookup_insert_ne, Ht1 in Hq by done; rewrite Ht1 in Ep;
     destruct (decide (p ∈ ancestors p)) as [Hpp|]; [by apply ancestors_irrefl in Hpp|];
     destruct (decide (q ∈ ancestors p)) as [Hqin|]; [by eapply ancestors_irrefl, ancestors_trans|];
     pose proof (Hwf _ _ _ Hq Ha); congruence).
  all: rewrite lookup_insert_ne by done; rewrite Ht1; destruct (decide (a ∈ ancestors p)) as [|Hna]; [done|].
  all: destruct (decide (q = p)) as [->|Hqp]; [done|]; rewrite lookup_insert_ne, Ht1 in Hq by done.
  all: destruct (decide (q ∈ ancestors p)) as [Hqin|]; [exfalso; apply Hna; by eapply ancestors_trans|by eapply Hwf].
Qed.

Lemma put_wf l t : put_entries l = Ok t -> wf_tree t.
Proof.
  unfold put_entries. apply (res_fold_inv wf_tree); [|by intros ???; rewrite lookup_empty].
  intros t1 x t2 _. apply put_entry_wf.
Qed.

(** Entries that do not get in each other's way are all extracted. *)
Lemma put_exact (l : list (path * file)) :
  NoDup l.*1 -> (forall p q, p ∈ l.*1 -> q ∈ l.*1 -> p ∉ ancestors q) ->
  exists t, put_entries l = Ok t /\
    (forall p d m, (p, (d, m)) ∈ l -> file_at t p = Some (d, mode_of None m)) /\
    (forall p, p ∉ l.*1 -> file_at t p = None) /\
    (forall p, t !! p = Some Dir -> exists q, q ∈ l.*1 /\ p ∈ ancestors q).
Proof.
  unfold put_entries. induction l as [|[p [d m]] l IH] using rev_ind.
  { intros _ _. exists ∅. split; [done|]. split; [by intros ??? ?%not_elem_of_nil|].
    split; [intros p _; unfold file_at; by rewrite lookup_empty|]. intros p. by rewrite lookup_empty. }
  rewrite fmap_app. cbn. intros Hnd Hab.
  assert (Hnd' : NoDup l.*1) by (by apply NoDup_app in Hnd as (?&_)).
  assert (Hp : p ∉ l.*1) by (apply NoDup_app in Hnd as (_&H&_); intros Hin; apply (H p Hin); by apply list_elem_of_singleton).
  destruct IH as (t&Ht&H1&H2&H3); [done|intros; apply Hab; set_solver|].
  assert (Hfold : forall x, res_fold put_entry ∅ (l ++ [x]) = put_entry t x).
  { intros x. revert Ht. generalize (∅ : tree). clear. induction l as [|y l IH]; intros t0; cbn.
    - intros [= ->]. by destruct (put_entry _ _).
    - destruct (put_entry t0 y); cbn; [apply IH|done]. }
  rewrite Hfold. unfold put_entry.
  destruct (mkdir_parent_ok t p) as (t1&->&Ht1).
  { intros a Ha. apply H2. intros Hin. by apply (Hab a p); [set_solver|set_solver|]. }
  cbn. assert (Htp : file_at t p = None) by (by apply H2).
  assert (Hpp : t1 !! p = t !! p) by (rewrite Ht1, decide_False by apply ancestors_irrefl; done).
  assert (Hfp : file_at t1 p = None) by (unfold file_at in *; by rewrite Hpp).
  rewrite Hfp. assert (Hnd1 : t1 !! p <> Some Dir).
  { rewrite Hpp. intros (q&Hq&Hin)%H3. apply (Hab p q); set_solver. }
  unfold write_file. exists (<[p := File (d, mode_of None m)]> t1).
  split; [by destruct (t1 !! p) as [[]|]|].
  assert (Hkeep : forall q, q <> p -> file_at (<[p := File (d, mode_of None m)]> t1) q = file_at t q \/ (q ∈ ancestors p)).
  { intros q Hq. rewrite file_at_insert, decide_False by done. unfold file_at. rewrite Ht1. case_decide; auto. }
  split; [|split].
  - intros q d' m' [Hq|Hq]%elem_of_app.
    + assert (Hqk : q ∈ l.*1) by (apply list_elem_of_fmap; by exists (q, (d', m'))).
      destruct (Hkeep q) as [->|Hin]; [intros ->; done|by apply H1|]. exfalso. apply (Hab q p); set_solver.
    + apply list_elem_of_singleton in Hq. injection Hq as -> -> ->. by rewrite file_at_insert, decide_True.
  - intros q Hq. assert (Hqp : q <> p) by set_solver. rewrite file_at_insert, decide_False by done.
    unfold file_at. rewrite Ht1. case_decide; [done|]. fold (file_at t q). apply H2. set_solver.
  - intros q. destruct (decide (q = p)) as [->|Hqp]; [by rewrite lookup_insert_eq|]. rewrite lookup_insert_ne, Ht1 by done.
    case_decide as Hin; [intros _; exists p; split; [set_solver|done]|]. intros (q'&Hq'&Hin')%H3. exists q'. split; [set_solver|done].
Qed.
End put.

Section extraction.
Context (default_mode : Z).

(** The mode a file gets from the mode of its entry. *)
Definition entry_mode (m : Z) : Z := if Z.land m 511 =? 0 then default_mode else Z.land m 511.
(** Extraction puts files. *)
Definition extracted_mode (before : option file) (attr : Z) : Z :=
  if Z.land attr 511 =? 0 then match before with Some (_, m) => m | None => default_mode end else Z.land attr 511.

Lemma extract_wf l t : extract_entries default_mode l = Ok t -> wf_tree t.
Proof. exact (put_wf extracted_mode l t). Qed.

(** Entries that do not get in each other's way are all extracted. *)
Lemma extract_exact (l : snapshot) :
  NoDup l.*1 -> (forall p q, p ∈ l.*1 -> q ∈ l.*1 -> p ∉ ancestors q) ->
  exists t, extract_entries default_mode l = Ok t /\
    (forall p d m, (p, (d, m)) ∈ l -> file_at t p = Some (d, entry_mode m)) /\
    (forall p, p ∉ l.*1 -> file_at t p = None) /\
    (forall p, t !! p = Some Dir -> exists q, q ∈ l.*1 /\ p ∈ ancestors q).
Proof. exact (put_exact extracted_mode l). Qed.
End extraction.
