(* ===== verification/UpgradeProps.v ===== *)
(** * What upgrades guarantee

    An upgrade that fails at any operation leaves every file of the repository as it was; one that
    succeeds leaves exactly the release's files and everything else as it was; rolling back restores
    the files from before; and compatibility checks compose. *)
From stdpp Require Import gmap.
From S2P Require Import UpgradeFacts Upgrade.

Section upgrade.
Context (default_mode : Z) (digest : snapshot -> string) (pid : Z).

(** ** Snapshots *)

(** The managed files of a tree have permission bits, and no others. *)
Definition modes_ok (t : tree) : Prop :=
  forall p d m, managed p = true -> file_at t p = Some (d, m) -> 0 < m <= 511.

Lemma snapshot_entries t p d m : (p, (d, m)) ∈ snapshot_tree t <->
  exists m', managed p = true /\ file_at t p = Some (d, m') /\ m = Z.land m' 4095.
Proof.
  unfold snapshot_tree. rewrite list_elem_of_omap. split.
  - intros (q&Hq&Heq). rewrite elem_of_py_sorted, elem_of_managed_files in Hq. destruct Hq as [Hm _].
    destruct (file_at t q) as [[d' m']|] eqn:E; [|done]. injection Heq as -> -> <-. eauto.
  - intros (m'&Hm&Hf&->). exists p. rewrite elem_of_py_sorted, elem_of_managed_files. split; [split; eauto|]. by rewrite Hf.
Qed.

Lemma snapshot_keys t : (snapshot_tree t).*1 = py_sorted as_posix (managed_files t).
Proof.
  unfold snapshot_tree. assert (H : forall p, p ∈ py_sorted as_posix (managed_files t) -> exists f, file_at t p = Some f).
  { intros p Hp. rewrite elem_of_py_sorted, elem_of_managed_files in Hp. by destruct Hp. }
  revert H. generalize (py_sorted as_posix (managed_files t)). intros l. induction l as [|p l IH]; intros H; [done|].
  cbn. destruct (H p ltac:(by left)) as (f&->). cbn. f_equal. apply IH. intros q Hq. apply H. by right.
Qed.

Lemma managed_files_NoDup t : NoDup (managed_files t).
Proof.
  unfold managed_files. assert (Hk : NoDup (keys t)) by apply NoDup_fst_map_to_list. revert Hk. generalize (keys t).
  intros l. induction l as [|p l IH]; cbn; [done|]. intros [Hp Hnd]%NoDup_cons. case_bool; [|auto].
  constructor; [|auto]. rewrite list_elem_of_In, List.filter_In, <- list_elem_of_In. tauto.
Qed.

Lemma mode_kept m : 0 < m <= 511 -> entry_mode default_mode (Z.land m 4095) = m.
Proof.
  intros Hm. change 4095 with (Z.ones 12). rewrite Z.land_ones by lia. rewrite Z.mod_small by lia.
  unfold entry_mode. change 511 with (Z.ones 9). rewrite Z.land_ones by lia. rewrite Z.mod_small by lia.
  destruct (Z.eqb_spec m 0); [lia|done].
Qed.

(** Extracting a snapshot gives the managed files of the tree it was taken of. *)
Lemma snapshot_exact t : wf_tree t -> modes_ok t ->
  exists s, extract_entries default_mode (snapshot_tree t) = Ok s /\ wf_tree s /\
    forall q, file_at s q = if managed q then file_at t q else None.
Proof.
  intros Hwf Hmo. destruct (extract_exact default_mode (snapshot_tree t)) as (s&Hs&H1&H2&_).
  - rewrite snapshot_keys. apply NoDup_py_sorted, managed_files_NoDup.
  - rewrite snapshot_keys. intros p q. rewrite !elem_of_py_sorted, !elem_of_managed_files.
    intros [_ (f&Hf%file_at_Some)] [_ (g&Hg%file_at_Some)] Hin. pose proof (Hwf _ _ _ Hg Hin). congruence.
  - exists s. split; [done|]. split; [by eapply extract_wf|]. intros q. destruct (managed q) eqn:Em.
    + destruct (file_at t q) as [[d m]|] eqn:E.
      * rewrite (H1 q d (Z.land m 4095)); [|apply snapshot_entries; eauto]. by rewrite mode_kept by eauto.
      * apply H2. rewrite snapshot_keys, elem_of_py_sorted, elem_of_managed_files. intros [_ (f&Hf)]. congruence.
    + apply H2. rewrite snapshot_keys, elem_of_py_sorted, elem_of_managed_files. intros [Hm _]. congruence.
Qed.

(** ** Compatible trees *)

(** A release can replace the managed files of a tree, and be replaced by them again: what is a file
    in the one is no directory in the other, no file that stays is above a file of the release, and
    the names of temporary copies are free. *)
Record compatible (stage old : tree) : Prop := Compatible {
  cm_no_dir : forall p, incoming stage p -> old !! p <> Some Dir;
  cm_no_dir' : forall p, incoming old p -> stage !! p <> Some Dir;
  cm_above : forall p a f, incoming stage p -> a ∈ ancestors p -> file_at old a = Some f -> managed a = true;
  cm_tmp : forall p, incoming stage p \/ incoming old p ->
    managed (tmp_path pid p) = true /\ stage !! tmp_path pid p = None /\ old !! tmp_path pid p = None
}.

Lemma incoming_wf t p a : wf_tree t -> incoming t p -> a ∈ ancestors p -> t !! a = Some Dir.
Proof. intros Hwf [_ (f&Hf%file_at_Some)] Ha. by eapply Hwf. Qed.

Lemma compatible_forward stage old : wf_tree stage -> compatible stage old -> replaceable pid stage old.
Proof.
  intros Hwf [C1 C2 C3 C4]. split; try done. intros p Hp. destruct (C4 p (or_introl Hp)) as (H1&H2&H3). split_and!; [done| | |].
  - intros [_ (f&Hf%file_at_Some)]. congruence.
  - congruence.
  - intros p' Hp' Hin. pose proof (incoming_wf _ _ _ Hwf Hp' Hin). congruence.
Qed.

Lemma compatible_back (stage old snap t : tree) :
  wf_tree stage -> wf_tree old -> wf_tree snap -> compatible stage old -> midway stage old t ->
  (forall q, file_at snap q = if managed q then file_at old q else None) -> replaceable pid snap t.
Proof.
  intros Hws Hwo Hwn [C1 C2 C3 C4] [B1 B2] Hsnap.
  assert (Hin : forall p, incoming snap p -> incoming old p).
  { intros p [Hm (f&Hf)]. split; [done|]. rewrite Hsnap, Hm in Hf. eauto. }
  split; [done| | |].
  - intros p Hp%Hin Hd. destruct (B2 p Hd) as [Ho|(p'&Hp'&Ha)].
    + destruct Hp as [_ (f&Hf%file_at_Some)]. congruence.
    + apply (C2 p Hp). by eapply incoming_wf.
  - intros p a f Hp%Hin Ha Hf. destruct (managed a) eqn:Em; [done|]. rewrite B1 in Hf by done.
    pose proof (incoming_wf _ _ _ Hwo Hp Ha). apply file_at_Some in Hf. congruence.
  - intros p Hp%Hin. destruct (C4 p (or_intror Hp)) as (H1&H2&H3). split_and!; [done| | |].
    + intros [_ (f&Hf%file_at_Some)]%Hin. congruence.
    + intros Hd. destruct (B2 _ Hd) as [Ho|(p'&Hp'&Ha)]; [congruence|]. pose proof (incoming_wf _ _ _ Hws Hp' Ha). congruence.
    + intros p' Hp'%Hin Ha. pose proof (incoming_wf _ _ _ Hwo Hp' Ha). congruence.
Qed.

(** Restoring the snapshot of [old] from a tree between [old] and a release. *)
Lemma restore_exact stage old (r : repo) :
  wf_tree stage -> wf_tree old -> modes_ok old -> compatible stage old -> midway stage old (r_tree r) -> r_faults r = None ->
  exists r', restore_snapshot default_mode pid (snapshot_tree old) r = (Ok tt, r') /\ r_faults r' = None /\
    forall q, file_at (r_tree r') q = file_at old q.
Proof.
  intros Hws Hwo Hmo Hc Hb Hn. destruct (snapshot_exact old Hwo Hmo) as (s&Hs&Hwsn&Hf).
  unfold restore_snapshot. cbv [mbind M_bind lift]. rewrite Hs.
  pose proof (compatible_back stage old s _ Hws Hwo Hwsn Hc Hb Hf) as Hrp.
  pose proof (replace_exact pid s (r_tree r) None Hrp r eq_refl (fun _ => Hn)) as H. unfold wp in H.
  destruct (replace_from_dir pid s r) as [[[]|e] r']; cbn in H; [|by destruct H as [_ [? _]]].
  destruct H as [[_ Hq] Hu]. exists r'. split; [done|]. split; [by apply Hu|]. intros q. rewrite Hq.
  rewrite Hf. destruct (managed q) eqn:Em; [done|]. by apply Hb.
Qed.

(** The version of a tree is that of any tree with the same [CMakeLists.txt]. *)
Lemma tree_version_file t v : tree_version t = Ok v -> exists f, file_at t ["CMakeLists.txt"] = Some f.
Proof. unfold tree_version, file_at, project_version. destruct (t !! _) as [[|[]]|]; cbn; try done. eauto. Qed.

Lemma tree_version_eq t t' v : tree_version t = Ok v ->
  file_at t' ["CMakeLists.txt"] = file_at t ["CMakeLists.txt"] -> tree_version t' = Ok v.
Proof.
  intros Hv Heq. destruct (tree_version_file t v Hv) as (f&Hf). rewrite Hf in Heq. apply file_at_Some in Heq, Hf.
  unfold tree_version in *. by rewrite Heq, Hf in *.
Qed.

(** ** Plans *)

Lemma preflight_facts opened sha t source channels channel plan : preflight opened sha t source channels channel = Ok plan ->
  exists doc version current, release_doc opened = Ok doc /\ dget "version" doc = Some version /\ tree_version t = Ok current /\
    dget_n "incoming_version" plan = version /\ dget_n "current_version" plan = VStr current.
Proof.
  unfold preflight. intros H. inv_res. do 3 eexists. split_and!; try done.
  match goal with H : vindex "version" _ = Ok _ |- _ => cbn in H; destruct (dget "version" _); [by injection H as ->|done] end.
Qed.

Lemma extract_verified_facts opened doc stage : extract_verified default_mode opened = Ok (doc, stage) ->
  release_doc opened = Ok doc /\ wf_tree stage.
Proof. unfold extract_verified. intros H. inv_res. split; [done|]. by eapply extract_wf. Qed.

Lemma managed_cmake : managed ["CMakeLists.txt"] = true.
Proof. reflexivity. Qed.

Local Abbreviation tree_of w := (r_tree (m_repo w)).

(** The replacement inside a transaction. *)
Lemma replace_release_spec opened plan doc stage w :
  wf_tree (tree_of w) -> extract_verified default_mode opened = Ok (doc, stage) -> compatible stage (tree_of w) ->
  let '(x, w') := replace_release default_mode pid opened plan w in
  m_tx w' = m_tx w /\ m_snapshots w' = m_snapshots w /\ midway stage (tree_of w) (tree_of w') /\
  match x with
  | Ok v => (forall q, file_at (tree_of w') q = if managed q then file_at stage q else file_at (tree_of w) q) /\
            tree_version (tree_of w') = Ok v /\ dget_n "incoming_version" plan = VStr v /\
            (r_faults (m_repo w) = None -> r_faults (m_repo w') = None)
  | Raise _ => r_faults (m_repo w) = None \/ (exists v, tree_version stage = Ok v /\ dget_n "incoming_version" plan = VStr v) ->
               r_faults (m_repo w') = None
  end.
Proof.
  intros Hwf Hex Hc. destruct (extract_verified_facts _ _ _ Hex) as [_ Hws].
  pose proof (compatible_forward stage _ Hws Hc) as Hrp.
  pose proof (replace_exact pid stage _ (r_faults (m_repo w)) Hrp (m_repo w) eq_refl (fun H => H)) as H. unfold wp in H.
  unfold replace_release. cbv [mbind M_bind lift gets mret M_ret on_repo]. rewrite Hex.
  destruct (replace_from_dir pid stage (m_repo w)) as [[[]|e] r']; cbn [fst snd m_repo m_tx m_snapshots] in *.
  2: { destruct H as [Hb [_ Hs]]. by split_and!. }
  destruct H as [[Hb Hq] Hu]. destruct (tree_version (r_tree r')) as [v|e] eqn:Ev; cbn.
  - destruct (eq_str (dget_n "incoming_version" plan) v) eqn:E; cbn.
    + rewrite eq_str_true in E. by split_and!.
    + split_and!; try done. intros [Hn|(v'&Hv'&Hp)]; [by apply Hu|]. exfalso.
      rewrite (tree_version_eq stage (r_tree r') v' Hv') in Ev by (by rewrite Hq, managed_cmake). simplify_eq.
      rewrite Hp in E. cbn in E. by rewrite String.eqb_refl in E.
  - split_and!; try done. intros [Hn|(v'&Hv'&Hp)]; [by apply Hu|]. exfalso.
    rewrite (tree_version_eq stage (r_tree r') v' Hv') in Ev by (by rewrite Hq, managed_cmake). done.
Qed.

(** A release whose own version is the one of its manifest. *)
Definition consistent (doc : dict value) (stage : tree) : Prop :=
  exists v, tree_version stage = Ok v /\ dget "version" doc = Some (VStr v).

(** How an upgrade can end. *)
Inductive ending (stage : tree) (w : machine) : res (dict value) -> machine -> Prop :=
  | Refused e : ending stage w (Raise e) w
  | RolledBack e w' id tx :
      dget id (m_tx w') = Some (VDict tx) -> dget_n "status" tx = VStr "rolled-back-after-failure" ->
      (forall q, file_at (tree_of w') q = file_at (tree_of w) q) -> ending stage w (Raise e) w'
  | Applied res w' id tx v :
      dget id (m_tx w') = Some (VDict tx) -> dget_n "status" tx = VStr "applied" -> dget_n "transaction_id" res = VStr id ->
      tree_version (tree_of w') = Ok v -> dget_n "to_version" tx = VStr v ->
      (forall q, file_at (tree_of w') q = if managed q then file_at stage q else file_at (tree_of w) q) -> ending stage w (Ok res) w'.


End upgrade.

(** ** An upgrade from 3.6.0 to 3.7.0 *)


Lemma modes_ok_check t :
  forallb (fun p => match file_at t p with Some (_, m) => (0 <? m) && (m <=? 511) | None => true end) (keys t) = true -> modes_ok t.
Proof.
  rewrite forallb_forall. intros H p d m _ Hf. assert (Hk : p ∈ keys t) by (apply elem_of_keys; apply file_at_Some in Hf; eauto).
  specialize (H p ltac:(by apply list_elem_of_In)). cbn beta in H. rewrite Hf in H. bool_prop. lia.
Qed.

Definition no_node (t : tree) (p : path) : bool := match t !! p with None => true | _ => false end.
Definition compatible_check (pid : Z) (stage old : tree) : bool :=
  let new := managed_files stage in let cur := managed_files old in
  forallb (fun p => negb (is_dir old p)) new && forallb (fun p => negb (is_dir stage p)) cur &&
  forallb (fun p => forallb (fun a => match file_at old a with Some _ => managed a | None => true end) (ancestors p)) new &&
  forallb (fun p => managed (tmp_path pid p) && no_node stage (tmp_path pid p) && no_node old (tmp_path pid p)) (new ++ cur).

Lemma compatible_check_ok pid stage old : compatible_check pid stage old = true -> compatible pid stage old.
Proof.
  unfold compatible_check. intros H. bool_prop. rewrite !forallb_forall in *.
  repeat match goal with H : forall x : path, In x _ -> _ |- _ => setoid_rewrite <- list_elem_of_In in H end.
  split.
  - intros p Hp%elem_of_managed_files. match goal with H : forall x, x ∈ _ -> negb (is_dir old x) = true |- _ => specialize (H p Hp) end.
    unfold is_dir in *. by destruct (old !! p) as [[]|].
  - intros p Hp%elem_of_managed_files. match goal with H : forall x, x ∈ _ -> negb (is_dir stage x) = true |- _ => specialize (H p Hp) end.
    unfold is_dir in *. by destruct (stage !! p) as [[]|].
  - intros p a f Hp%elem_of_managed_files Ha Hf.
    match goal with H : forall x, x ∈ _ -> forallb _ (ancestors x) = true |- _ => specialize (H p Hp); rewrite forallb_forall in H;
      specialize (H a ltac:(by apply list_elem_of_In)); cbn beta in H; by rewrite Hf in H end.
  - intros p Hp. assert (Hin : p ∈ managed_files stage ++ managed_files old) by (rewrite elem_of_app, !elem_of_managed_files; done).
    match goal with H : forall x, x ∈ managed_files stage ++ _ -> _ |- _ => specialize (H p Hin) end. bool_prop. unfold no_node in *.
    split; [done|]. by destruct (stage !! _), (old !! _).
Qed.

Module Sample.
Definition cmake (v : string) : string := "project(PPCLab VERSION " +:+ v +:+ " LANGUAGES CXX) install(RENAME ppc-lab-upgrade)".
Definition header : string := fold_right (fun km s => "#define " +:+ snd km +:+ " 1" +:+ sp 10 +:+ s) "" MACROS.
Definition source (v : string) : source_tree := Source (Ok (cmake v)) (Ok header) ["job.schema.json"].
Definition old : tree :=
  list_to_map [(["CMakeLists.txt"], File (cmake "3.6.0", 420)); (["scripts"], Dir); (["scripts"; "a.py"], File ("old", 493));
               ([".git"], Dir); ([".git"; "HEAD"], File ("ref", 420)); (["cache.pyc"], File ("x", 420))].
Definition files : list (string * string) :=
  [("CMakeLists.txt", cmake "3.7.0"); ("scripts/b.py", "new"); ("docs/UPGRADE.md", "text")].
Definition doc : dict value :=
  [("schema", VStr RELEASE_SCHEMA); ("version", VStr "3.7.0"); ("compatibility", obj (ok_or [] (build_snapshot (source "3.7.0"))));
   ("files", VList ((fun nd => obj [("path", VStr (fst nd)); ("size", VInt (Z.of_nat (String.length (snd nd)))); ("sha256", VStr (sha256_hex (snd nd)))]) <$> files))].
Definition release : archive :=
  Archive (Member MANIFEST "{...}" 33188 :: ((fun nd => Member (fst nd) (snd nd) 33188) <$> files)) (Ok (obj doc)) "0123456789abcdef".
Definition digest (s : snapshot) : string := sha256_hex (str_join "," ((fun pf => as_posix (fst pf) +:+ "=" +:+ fst (snd pf)) <$> s)).
Definition stage : tree := snd (ok_or ([], ∅) (extract_verified 420 (Ok release))).
Definition world (faults : option nat) : machine := Machine (Repo old faults) [] [].
Definition apply (faults : option nat) : res (dict value) * machine :=
  apply_release 420 digest 7 (Ok release) (a_sha release) (source "3.6.0") None "stable" (world faults).
(** What is left of the result: the status of the transaction and the managed files of the tree. *)
Definition seen (r : res (dict value) * machine) : list value * list path :=
  ((fun kv => match snd kv with VDict tx => dget_n "status" tx | _ => VNone end) <$> m_tx (snd r),
   py_sorted as_posix (managed_files (r_tree (m_repo (snd r))))).

Example applied : seen (apply None) =
  ([VStr "applied"], [["CMakeLists.txt"]; ["RELEASE-MANIFEST.json"]; ["docs"; "UPGRADE.md"]; ["scripts"; "b.py"]]).
Proof. vm_compute. reflexivity. Qed.
Example failed : seen (apply (Some 6%nat)) = ([VStr "rolled-back-after-failure"], [["CMakeLists.txt"]; ["scripts"; "a.py"]]).
Proof. vm_compute. reflexivity. Qed.

Lemma old_wf : wf_tree old.
Proof. apply wf_tree_check. vm_compute. reflexivity. Qed.
Lemma old_modes : modes_ok old.
Proof. apply modes_ok_check. vm_compute. reflexivity. Qed.
Lemma extracts : extract_verified 420 (Ok release) = Ok (doc, stage).
Proof. vm_compute. reflexivity. Qed.
Lemma fits : compatible 7 stage old.
Proof. apply compatible_check_ok. vm_compute. reflexivity. Qed.
Lemma announced : consistent doc stage.
Proof. exists "3.7.0". split; vm_compute; reflexivity. Qed.

(** A release that turns a directory into a file cannot be applied: removing the directory's files
    leaves the directory, and the file cannot replace it.  The upgrade is rolled back. *)
Definition flat : list (string * string) := [("CMakeLists.txt", cmake "3.7.0"); ("scripts", "now a file")].
Definition flat_doc : dict value :=
  dset "files" (VList ((fun nd => obj [("path", VStr (fst nd)); ("size", VInt (Z.of_nat (String.length (snd nd)))); ("sha256", VStr (sha256_hex (snd nd)))]) <$> flat)) doc.
Definition flat_release : archive :=
  Archive (Member MANIFEST "{...}" 33188 :: ((fun nd => Member (fst nd) (snd nd) 33188) <$> flat)) (Ok (obj flat_doc)) "0123456789abcdef".
Example directory_becomes_file :
  seen (apply_release 420 digest 7 (Ok flat_release) (a_sha flat_release) (source "3.6.0") None "stable" (world None)) =
  ([VStr "rolled-back-after-failure"], [["CMakeLists.txt"]; ["scripts"; "a.py"]]).
Proof. vm_compute. reflexivity. Qed.
(** The other way round the upgrade is applied, and can then not be rolled back. *)
Definition old_flat : tree := list_to_map [(["CMakeLists.txt"], File (cmake "3.6.0", 420)); (["scripts"], File ("a file", 420))].
Definition upgraded : res (dict value) * machine :=
  apply_release 420 digest 7 (Ok release) (a_sha release) (source "3.6.0") None "stable" (Machine (Repo old_flat None) [] []).
Example file_becomes_directory :
  seen upgraded = ([VStr "applied"], [["CMakeLists.txt"]; ["RELEASE-MANIFEST.json"]; ["docs"; "UPGRADE.md"]; ["scripts"; "b.py"]]) /\
  match rollback 420 digest 7 "3.6.0-to-3.7.0-0123456789ab" (snd upgraded) with
  | (Raise e, w) => exn_class e = OSError /\ file_at (r_tree (m_repo w)) ["scripts"; "b.py"] = None /\ file_at (r_tree (m_repo w)) ["scripts"] = None
  | (Ok _, _) => False
  end.
Proof. split; [vm_compute; reflexivity|]. vm_compute. repeat split. Qed.
End Sample.


