(* ===== verification/Evidence.v ===== *)
(** * The evidence store ([ppc_lab_evidence.py])

    JSON documents stored by the digest of their canonical text, with a SQLite index of their fields,
    sources and inputs.  The record [store] is the directory: the tables of its database and its
    object files.  Rows without ORDER BY come in the order of their ids; the time columns are left
    out. *)
From stdpp Require Import pretty.
From Stdlib Require Import Ascii.
From S2P Require Export PyState JsonParse Sha Sql Shell.

Abbreviation obj := VDict.

Definition STORE_SCHEMA_VERSION : Z := 1.
Definition QUERY_SCHEMA : string := "ppc-lab-evidence-query-v1".
Definition REPORT_SCHEMA : string := "ppc-lab-evidence-report-v1".
Definition VERIFY_SCHEMA : string := "ppc-lab-evidence-verify-v1".
Definition PPC_PREFIX : string := "ppc-lab-".

(** A string of surrogates cannot be encoded. *)
Definition _canonical (v : value) : res string :=
  let text := json_raw (sort_keys v) +:+ sp 10 in
  if valid_utf8 text then Ok text else Raise (Exn UnicodeError "surrogates not allowed").

(** [_object_path], below the store. *)
Definition object_root : string := "objects/sha256/".
Definition _object_path (sha256 : string) : string := object_root +:+ prefix_of 2 sha256 +:+ "/" +:+ sha256 +:+ ".json".

(** ** The tables *)

Record fields := Fields {
  f_schema_name : string; f_name : option string; f_job_id : option string; f_engine_version : option string;
  f_backend : option string; f_stop_reason : option string; f_ok : option bool; f_exit_code : option Z;
  f_host : option string; f_cache_key : option string; f_instructions : option Z; f_pc : option string }.
Record artifact := Artifact { a_id : Z; a_sha : string; a_size : Z; a_fields : fields }.
Record source_row := SourceRow { s_artifact : Z; s_path : string; s_raw : string; s_size : Z }.
Record input_row := InputRow { i_field : string; i_logical : option string; i_sha : string; i_size : option Z }.
Record db := Db { meta : dict string; artifacts : list artifact; sources : list source_row; inputs : list (Z * input_row) }.
Record store := Store { database : option db; objects : dict string }.

Abbreviation SM := (M store).
Definition the_db (s : store) : db := default (Db [] [] [] []) (database s).
Definition set_db (d : db) (s : store) : store := Store (Some d) (objects s).
Definition update (f : db -> db) : SM unit := modify (fun s => set_db (f (the_db s)) s).

(** [_connect(store)] *)
Definition _connect : SM unit := fun s =>
  match database s with
  | Some _ => (Ok tt, s)
  | None => (Raise (Exn AppError "evidence store is not initialized"), s)
  end.
Definition init_store : SM unit :=
  update (fun d => Db (dset "schema_version" (pretty STORE_SCHEMA_VERSION) (meta d)) (artifacts d) (sources d) (inputs d)).

(** [with _connect(store) as conn]: the tables are rolled back when the body raises, files are not. *)
Definition transaction {A} (m : SM A) : SM A := fun s =>
  match m s with (Raise e, s') => (Raise e, Store (database s) (objects s')) | r => r end.

(** ** The fields of a document *)

Definition as_dict (v : value) : option (dict value) := match v with VDict d => Some d | _ => None end.
Definition as_str (v : value) : option string := match v with VStr s => Some s | _ => None end.
Definition as_int (v : value) : option Z := match v with VInt n => Some n | _ => None end.
(** [isinstance(v, int)], which holds of booleans. *)
Definition as_int_or_bool (v : value) : option Z := match v with VInt n => Some n | VBool b => Some (Z.b2z b) | _ => None end.
Definition has_schema (schema : string) (v : value) : option (dict value) :=
  d ← as_dict v; if eq_str (dget_n "schema" d) schema then Some d else None.
Definition first_some {A} (a b : option A) : option A := match a with Some _ => a | None => b end.

(** The document itself, the member of its response, or its own member. *)
Definition nested (schema key : string) (doc : dict value) : option (dict value) :=
  first_some (has_schema schema (obj doc))
    (first_some (r ← as_dict (dget_n "response" doc); has_schema schema (dget_n key r)) (has_schema schema (dget_n key doc))).
Definition _nested_result : dict value -> option (dict value) := nested "ppc-lab-result-v1" "result".
Definition _nested_snapshot : dict value -> option (dict value) := nested "ppc-lab-snapshot-v1" "snapshot".

(** Inputs found so far, by field and digest. *)
Abbreviation found := (list (string * string * input_row)).
Definition add_input (acc : found) (kv : string * value) : found :=
  match snd kv with
  | VDict item =>
      match dget_n "sha256" item with
      | VStr digest =>
          if (String.length digest =? 64)%nat then
            let logical := match dget_n "logical_path" item with VNone => None | v => Some (py_str v) end in
            aset (fst kv, digest) (InputRow (fst kv) logical (str_lower digest) (as_int_or_bool (dget_n "size" item))) acc
          else acc
      | _ => acc
      end
  | _ => acc
  end.
Fixpoint harvest (acc : found) (v : value) : found :=
  match v with
  | VDict d =>
      let acc := match dget_n "inputs" d with VDict i => fold_left add_input i acc | _ => acc end in
      (fix response d := match d with
        | [] => acc
        | (k, x) :: d => if String.eqb "response" k then harvest acc x else response d
        end) d
  | _ => acc
  end.
Definition _extract_inputs (doc : dict value) : list input_row := (harvest [] (obj doc)).*2.

(** [a.get(k)] of the right type, else [b.get(k)], else [c.get(k)]. *)
Definition first_field {A} (as_a : value -> option A) (k : string) (a b c : dict value) : option A :=
  first_some (as_a (dget_n k a)) (first_some (as_a (dget_n k b)) (as_a (dget_n k c))).

Definition _extract_fields (doc : dict value) : fields :=
  let result := default [] (_nested_result doc) in
  let response := default [] (as_dict (dget_n "response" doc)) in
  let snapshot := default [] (_nested_snapshot doc) in
  let engine := default [] (as_dict (dget_n "engine" doc)) in
  let of_response k := match response with [] => dget_n k doc | _ => dget_n k response end in
  Fields (py_str (dget_or "schema" (VStr "") doc))
    (as_str (dget_n "name" doc))
    (first_some (as_str (dget_n "id" doc)) (as_str (dget_n "id" response)))
    (first_some (as_str (dget_n "engine_version" doc)) (first_some (as_str (dget_n "version" engine))
       (first_some (as_str (dget_n "engine_version" response)) (as_str (dget_n "engine_version" snapshot)))))
    (first_field as_str "backend" result doc snapshot)
    (first_field as_str "stop_reason" result doc snapshot)
    (match of_response "ok" with VBool b => Some b | _ => None end)
    (as_int (of_response "exit_code"))
    (as_str (dget_n "host" doc))
    (as_str (dget_n "cache_key" doc))
    (first_some (match dget_n "instructions" result with VBool _ => None | VInt n => Some n | _ => as_int (dget_n "instructions" doc) end)
       (as_int_or_bool (dget_n "instructions" snapshot)))
    (first_field as_str "pc" result doc snapshot).

(** ** Ingesting *)

(** A file, with what reading it gives; a path of the command line. *)
Record file := InFile { p_path : string; p_raw : res string }.
Inductive path_item := Absent (path : string) | Regular (f : file) | Directory (files : list file) | Special.

Record tally := Tally { t_added : Z; t_dedup : Z; t_skipped : Z; t_malformed : Z; t_artifacts : list Z; t_seen : list string }.

Definition bind_option (o : option Z) : res (option Z) := match o with Some n => n ← bind_int n; Ok (Some n) | None => Ok None end.
Definition find_sha (sha : string) (d : db) : option artifact := List.find (fun a => String.eqb (a_sha a) sha) (artifacts d).
Definition next_id (d : db) : Z := 1 + foldr (fun a n => Z.max (a_id a) n) 0 (artifacts d).

(** INSERT INTO artifacts: the new id. *)
Definition insert_artifact (sha : string) (size : Z) (f : fields) : SM Z :=
  _ ← lift (bind_option (f_exit_code f)); _ ← lift (bind_option (f_instructions f));
  id ← gets (fun s => next_id (the_db s));
  _ ← update (fun d => Db (meta d) (artifacts d ++ [Artifact id sha size f]) (sources d) (inputs d));
  mret id.
(** INSERT OR IGNORE INTO inputs, sources *)
Definition insert_input (id : Z) (row : input_row) : SM unit :=
  _ ← lift (bind_option (i_size row));
  update (fun d => if existsb (fun ir => (fst ir =? id) && String.eqb (i_field (snd ir)) (i_field row) && String.eqb (i_sha (snd ir)) (i_sha row)) (inputs d)
    then d else Db (meta d) (artifacts d) (sources d) (inputs d ++ [(id, row)])).
Definition insert_source (row : source_row) : SM unit :=
  update (fun d => if existsb (fun r => (s_artifact r =? s_artifact row) && String.eqb (s_path r) (s_path row) && String.eqb (s_raw r) (s_raw row)) (sources d)
    then d else Db (meta d) (artifacts d) (sources d ++ [row]) (inputs d)).
Definition _atomic_bytes (path data : string) : SM unit := modify (fun s => Store (database s) (dset path data (objects s))).

(** Storing a document: its id, and whether it is new. *)
Definition store_document (doc : dict value) (canonical : string) : SM (Z * bool) :=
  let semantic_sha := sha256_hex canonical in
  existing ← gets (fun s => find_sha semantic_sha (the_db s));
  match existing with
  | Some a => mret (a_id a, false)
  | None =>
      id ← insert_artifact semantic_sha (Z.of_nat (String.length canonical)) (_extract_fields doc);
      _ ← _atomic_bytes (_object_path semantic_sha) canonical;
      _ ← m_iter (insert_input id) (_extract_inputs doc);
      mret (id, true)
  end.

Definition is_evidence (v : value) : option (dict value) :=
  match v with
  | VDict doc => match dget_n "schema" doc with VStr s => if str_startswith PPC_PREFIX s then Some doc else None | _ => None end
  | _ => None
  end.

(** One pass of the loop. *)
Definition ingest_file (strict : bool) (t : tally) (f : file) : SM tally :=
  if bool_decide (p_path f ∈ t_seen t) then mret t
  else
    let seen := p_path f :: t_seen t in
    match (raw ← p_raw f; doc ← loads raw; Ok (raw, doc)) with
    | Raise e =>
        if strict then throw AppError ("cannot parse JSON " +:+ p_path f +:+ ": " +:+ exn_msg e)
        else mret (Tally (t_added t) (t_dedup t) (t_skipped t) (t_malformed t + 1) (t_artifacts t) seen)
    | Ok (raw, v) =>
        match is_evidence v with
        | None =>
            if strict then throw AppError ("not a PPC Lab evidence document: " +:+ p_path f)
            else mret (Tally (t_added t) (t_dedup t) (t_skipped t + 1) (t_malformed t) (t_artifacts t) seen)
        | Some doc =>
            canonical ← lift (_canonical (obj doc));
            '(id, new) ← store_document doc canonical;
            _ ← insert_source (SourceRow id (p_path f) (sha256_hex raw) (Z.of_nat (String.length raw)));
            mret (Tally (t_added t + if (new : bool) then 1 else 0) (t_dedup t + if new then 0 else 1) (t_skipped t) (t_malformed t)
                    (t_artifacts t ++ [id]) seen)
        end
    end.
Definition ingest_path (strict : bool) (t : tally) (item : path_item) : SM tally :=
  match item with
  | Absent p => throw AppError ("input does not exist: " +:+ p)
  | Regular f => ingest_file strict t f
  | Directory files => m_fold (ingest_file strict) t files
  | Special => mret t
  end.
Definition ingest (paths : list path_item) (strict : bool) : SM tally :=
  _ ← init_store; transaction (m_fold (ingest_path strict) (Tally 0 0 0 0 [] []) paths).

(** ** Queries *)

Definition opt_eq {A} `{EqDecision A} (x : A) (o : option A) : bool := bool_decide (o = Some x).
Definition opt_str (o : option string) : value := match o with Some s => VStr s | None => VNone end.
Definition opt_int (o : option Z) : value := match o with Some n => VInt n | None => VNone end.
Definition _artifact_row (a : artifact) : dict value :=
  let f := a_fields a in
  [("id", VInt (a_id a)); ("sha256", VStr (a_sha a)); ("schema", VStr (f_schema_name f)); ("name", opt_str (f_name f));
   ("job_id", opt_str (f_job_id f)); ("engine_version", opt_str (f_engine_version f)); ("backend", opt_str (f_backend f));
   ("stop_reason", opt_str (f_stop_reason f)); ("ok", match f_ok f with Some b => VBool b | None => VNone end);
   ("exit_code", opt_int (f_exit_code f)); ("host", opt_str (f_host f)); ("cache_key", opt_str (f_cache_key f));
   ("instructions", opt_int (f_instructions f)); ("pc", opt_str (f_pc f)); ("canonical_size", VInt (a_size a))].

(** The options of a query; an option that is not given is the empty string. *)
Record filter := Filter {
  q_schema : string; q_engine_version : string; q_backend : string; q_stop_reason : string; q_host : string; q_name : string;
  q_cache_key : string; q_ok : option bool; q_input_sha256 : string; q_oldest : bool; q_limit : Z }.

Definition backslash : ascii := "\"%char.
Fixpoint escape_like (s : string) : string :=
  match s with
  | EmptyString => EmptyString
  | String c s => if existsb (Ascii.eqb c) [backslash; "%"; "_"]%char then String backslash (String c (escape_like s)) else String c (escape_like s)
  end.
Definition clause (arg : string) (test : bool) : bool := str_empty arg || test.
Definition matches (q : filter) (d : db) (a : artifact) : bool :=
  let f := a_fields a in
  clause (q_schema q) (String.eqb (f_schema_name f) (q_schema q)) &&
  clause (q_engine_version q) (opt_eq (q_engine_version q) (f_engine_version f)) &&
  clause (q_backend q) (opt_eq (q_backend q) (f_backend f)) &&
  clause (q_stop_reason q) (opt_eq (q_stop_reason q) (f_stop_reason f)) &&
  clause (q_host q) (opt_eq (q_host q) (f_host f)) &&
  clause (q_name q) (match f_name f with Some s => sql_like_escape (Some backslash) s ("%" +:+ escape_like (q_name q) +:+ "%") | None => false end) &&
  clause (q_cache_key q) (opt_like (f_cache_key f) (q_cache_key q +:+ "%")) &&
  match q_ok q with Some b => opt_eq b (f_ok f) | None => true end &&
  clause (q_input_sha256 q)
    (existsb (fun ir => (fst ir =? a_id a) && sql_like (i_sha (snd ir)) (str_lower (q_input_sha256 q) +:+ "%")) (inputs d)).
Definition query (q : filter) : SM value :=
  _ ← _connect; limit ← lift (bind_int (q_limit q));
  d ← gets the_db;
  let rows := py_sorted a_id (List.filter (matches q d) (artifacts d)) in
  let rows := take (Z.to_nat limit) (if q_oldest q then rows else rev rows) in
  mret (obj [("schema", VStr QUERY_SCHEMA); ("count", VInt (Z.of_nat (length rows))); ("results", VList ((fun a => obj (_artifact_row a)) <$> rows))]).

(** A reference is an id or a prefix of a digest. *)
Definition any_hex (c : ascii) : bool := hex_char c || ((65 <=? code c) && (code c <=? 70)).
Definition by_prefix (ref : string) (d : db) : res artifact :=
  if (String.length ref <? 8)%nat || negb (str_forall any_hex ref)
  then app_error "artifact reference must be an integer id or SHA-256 prefix of at least 8 hex characters"
  else match List.filter (fun a => sql_like (a_sha a) (str_lower ref +:+ "%")) (artifacts d) with
       | [] => app_error ("artifact not found: " +:+ ref)
       | [a] => Ok a
       | _ => app_error ("ambiguous artifact SHA prefix: " +:+ ref)
       end.
Definition _resolve_ref (ref : string) (d : db) : res artifact :=
  if str_isdigit ref then
    id ← bind_int (default 0 (int_of_string ref));
    match List.find (fun a => a_id a =? id) (artifacts d) with Some a => Ok a | None => by_prefix ref d end
  else by_prefix ref d.

Definition show (ref : string) : SM value :=
  _ ← _connect; d ← gets the_db; row ← lift (_resolve_ref ref d); files ← gets objects;
  match dget (_object_path (a_sha row)) files with
  | Some text => lift (loads text)
  | None => throw AppError ("object missing from store: " +:+ _object_path (a_sha row))
  end.

(** SELECT column, COUNT GROUP BY column ORDER BY the count, descending, and the column *)
Definition count_of (x : string) (l : list string) : Z := Z.of_nat (length (List.filter (String.eqb x) l)).
Definition counts (column : fields -> option string) (d : db) : dict value :=
  let l := omap (fun a => column (a_fields a)) (artifacts d) in
  (fun x => (x, VInt (count_of x l))) <$> py_sorted (fun x => - count_of x l) (py_sorted id (remove_dups l)).
Definition count_ok (o : option bool) (d : db) : value :=
  VInt (Z.of_nat (length (List.filter (fun a => bool_decide (f_ok (a_fields a) = o)) (artifacts d)))).
Definition report : SM value :=
  _ ← _connect; d ← gets the_db;
  mret (obj [("schema", VStr REPORT_SCHEMA); ("schema_version", VInt STORE_SCHEMA_VERSION);
    ("artifacts", VInt (Z.of_nat (length (artifacts d)))); ("sources", VInt (Z.of_nat (length (sources d))));
    ("unique_input_hashes", VInt (Z.of_nat (length (remove_dups ((fun ir => i_sha (snd ir)) <$> inputs d)))));
    ("canonical_bytes", VInt (foldr (fun a n => a_size a + n) 0 (artifacts d)));
    ("success", obj [("true", count_ok (Some true) d); ("false", count_ok (Some false) d); ("unknown", count_ok None d)]);
    ("schemas", obj (counts (fun f => Some (f_schema_name f)) d)); ("engine_versions", obj (counts f_engine_version d));
    ("backends", obj (counts f_backend d)); ("hosts", obj (counts f_host d)); ("stop_reasons", obj (counts f_stop_reason d))]).

(** ** Verification *)

Inductive health := Healthy | Missing | Corrupt.
Definition object_health (files : dict string) (row : string * Z) : health :=
  match dget (_object_path (fst row)) files with
  | None => Missing
  | Some data =>
      if negb (Z.of_nat (String.length data) =? snd row) || negb (String.eqb (sha256_hex data) (fst row)) then Corrupt else Healthy
  end.
(** [path.stem] of a file with the suffix ".json". *)
Definition json_stem (path : string) : option string :=
  let name := List.last (path_parts path) "" in
  if str_endswith ".json" name && negb (String.eqb name ".json") then Some (String.substring 0 (String.length name - 5) name) else None.
Definition is_orphan (rows : dict Z) (path : string) : bool :=
  str_startswith object_root path &&
  match json_stem path with
  | Some stem => (String.length stem =? 64)%nat && negb (dmem (str_lower stem) rows)
  | None => false
  end.
Record verification := Verification { v_artifacts : Z; v_missing : list string; v_corrupt : list string; v_orphans : list string }.
Definition v_ok (v : verification) : bool := match v_missing v, v_corrupt v with [], [] => true | _, _ => false end.
Definition verify : SM verification :=
  _ ← _connect; d ← gets the_db; files ← gets objects;
  let rows := fold_left (fun m a => dset (a_sha a) (a_size a) m) (artifacts d) [] in
  version ← lift (match dget "schema_version" (meta d) with Some v => py_int (VStr v) | None => Ok (-1) end);
  _ ← lift (guard_app (version =? STORE_SCHEMA_VERSION) "unsupported or missing evidence-store schema version");
  let select h := (List.filter (fun r => match object_health files r, h with Missing, Missing | Corrupt, Corrupt => true | _, _ => false end) rows).*1 in
  mret (Verification (Z.of_nat (length rows)) (select Missing) (select Corrupt) (List.filter (is_orphan rows) (dkeys files))).

(** ** The command *)

Inductive command :=
  | Init | Ingest (paths : list path_item) (strict : bool) | Query (q : filter) | Show (ref : string) | Report | Verify.
Definition dispatch (c : command) : SM Z :=
  match c with
  | Init => _ ← init_store; mret 0
  | Ingest paths strict => _ ← ingest paths strict; mret 0
  | Query q => _ ← query q; mret 0
  | Show ref => _ ← show ref; mret 0
  | Report => _ ← report; mret 0
  | Verify => v ← verify; mret (if v_ok v then 0 else 1)
  end.
(** The exit code; other exceptions end in a traceback. *)
Definition main (c : command) : SM Z := catch [AppError; SqlError] (dispatch c) (fun _ => mret 2).
