(* ===== verification/EvidenceProps.v ===== *)
(** * What the evidence store guarantees

    A store verifies after any commands, and a document that was ingested is read back. *)
From Stdlib Require Import Ascii.
From S2P Require Import Members.
From S2P Require Import Evidence.

(** ** Object paths *)

Lemma append_inj_r (a b x y : string) : String.length x = String.length y -> a +:+ x = b +:+ y -> a = b /\ x = y.
Proof.
  revert b. induction a as [|c a IH]; intros [|d b] Hl Heq.
  - done.
  - exfalso. change (x = String d (b +:+ y)) in Heq. subst x. cbn in Hl. rewrite length_append in Hl. lia.
  - exfalso. change (String c (a +:+ x) = y) in Heq. subst y. cbn in Hl. rewrite length_append in Hl. lia.
  - rewrite !str_app_cons in Heq. injection Heq as -> Heq. destruct (IH b Hl Heq) as [-> ->]. done.
Qed.

Lemma is_hex64_length s : is_hex64 s = true -> String.length s = 64%nat.
Proof. unfold is_hex64. intros [H _]%andb_true_iff. by apply Nat.eqb_eq in H. Qed.

Lemma object_path_inj a b : is_hex64 a = true -> is_hex64 b = true -> _object_path a = _object_path b -> a = b.
Proof.
  intros Ha%is_hex64_length Hb%is_hex64_length. unfold _object_path. rewrite <- !str_app_assoc. intros Heq.
  apply append_inj_r in Heq as [Heq _]; [|done]. apply append_inj_r in Heq as [_ Heq]; [done|]. by rewrite Ha, Hb.
Qed.



Lemma substring_append (a b : string) : String.substring 0 (String.length a) (a +:+ b) = a.
Proof.
  induction a as [|c a IH]; [by destruct b|]. rewrite str_app_cons. cbn. by rewrite IH.
Qed.

Lemma prefix_append a b : String.prefix a (a +:+ b) = true.
Proof. induction a as [|c a IH]; [by destruct b|]. rewrite str_app_cons. cbn. by destruct (ascii_dec c c). Qed.
Lemma endswith_append a b : str_endswith b (a +:+ b) = true.
Proof. unfold str_endswith. rewrite str_rev_append. apply prefix_append. Qed.

Lemma json_stem_object_path sha : is_hex64 sha = true -> json_stem (_object_path sha) = Some sha.
Proof.
  intros Hh. assert (Hl := is_hex64_length _ Hh). unfold is_hex64 in Hh. apply andb_true_iff in Hh as [_ Hh].
  apply hex_no_slash in Hh. assert (Hp : str_mem "/" (prefix_of 2 sha) = false) by by apply str_mem_prefix.
  assert (Hn : str_mem "/" (sha +:+ ".json") = false) by (by rewrite str_mem_app, Hh).
  assert (Hlast : List.last (path_parts (_object_path sha)) "" = sha +:+ ".json").
  { unfold path_parts, _object_path, object_root.
    change ("objects/sha256/" +:+ prefix_of 2 sha +:+ "/" +:+ sha +:+ ".json") with
      ("objects" +:+ String "/" ("sha256" +:+ String "/" (prefix_of 2 sha +:+ String "/" (sha +:+ ".json")))).
    rewrite !split_slash_component, split_slash_last by done. rewrite !str_app_nil.
    assert (Hne : forall x, (String.length x < 5)%nat -> String.eqb (sha +:+ ".json") x = false).
    { intros x Hx. apply String.eqb_neq. intros <-. rewrite length_append in Hx. cbn in Hx. lia. }
    cbn [List.filter]. rewrite (Hne "") by (cbn; lia). rewrite (Hne ".") by (cbn; lia). cbn [negb andb].
    change (String.eqb "objects" "") with false. change (String.eqb "sha256" "") with false.
    change (String.eqb "objects" ".") with false. change (String.eqb "sha256" ".") with false. cbn [negb andb].
    by destruct (_ && _). }
  unfold json_stem. rewrite Hlast, endswith_append.
  assert (Hne : String.eqb (sha +:+ ".json") ".json" = false).
  { apply String.eqb_neq. intros E. apply (f_equal String.length) in E. rewrite length_append in E. cbn in E. lia. }
  rewrite Hne. cbn [negb andb]. rewrite length_append. cbn [String.length].
  replace (String.length sha + 5 - 5)%nat with (String.length sha) by lia. by rewrite substring_append.
Qed.

(** ** The invariant *)

(** The object of a row is there, with its digest and size. *)
Definition backed (files : dict string) (a : artifact) : Prop :=
  exists data, dget (_object_path (a_sha a)) files = Some data /\ sha256_hex data = a_sha a /\ Z.of_nat (String.length data) = a_size a.
Definition ids (d : db) : list Z := a_id <$> artifacts d.
Record db_ok (d : db) (files : dict string) : Prop := {
  ok_version : dget "schema_version" (meta d) = Some "1";
  ok_ids : NoDup (ids d);
  ok_shas : NoDup (a_sha <$> artifacts d);
  ok_backed : Forall (backed files) (artifacts d);
  ok_sources : Forall (fun r => s_artifact r ∈ ids d) (sources d);
  ok_inputs : Forall (fun r => fst r ∈ ids d) (inputs d) }.
(** Every object is named by the digest of its content. *)
Definition files_ok (files : dict string) : Prop :=
  dwf files /\ forall x : string * string, x ∈ files -> fst x = _object_path (sha256_hex (snd x)).
(** Every object is indexed. *)
Definition complete (d : db) (files : dict string) : Prop :=
  forall p, p ∈ dkeys files -> exists a : artifact, a ∈ artifacts d /\ p = _object_path (a_sha a).

Definition inv (C : Prop) (s : store) : Prop :=
  files_ok (objects s) /\ exists d, database s = Some d /\ db_ok d (objects s) /\ (C -> complete d (objects s)).

Lemma backed_hex files a : backed files a -> is_hex64 (a_sha a) = true.
Proof. intros (data&_&<-&_). apply sha256_hex64. Qed.

Lemma next_id_fresh (a : artifact) l : a ∈ l -> a_id a < 1 + foldr (fun a n => Z.max (a_id a) n) 0 l.
Proof. induction l as [|b l IH]; [by intros ?%not_elem_of_nil|]. intros [->|H]%elem_of_cons; cbn; [lia|]. specialize (IH H). lia. Qed.

Lemma elem_of_dset {A} k (v : A) d x : x ∈ dset k v d -> x = (k, v) \/ x ∈ d.
Proof.
  induction d as [|[k' v'] d IH]; cbn.
  - intros ->%list_elem_of_singleton. by left.
  - destruct (String.eqb_spec k k') as [->|]; rewrite !elem_of_cons; naive_solver.
Qed.

(** Adding a new row together with its object. *)
Lemma db_ok_add d files sha text f :
  db_ok d files -> sha = sha256_hex text -> find_sha sha d = None ->
  db_ok (Db (meta d) (artifacts d ++ [Artifact (next_id d) sha (Z.of_nat (String.length text)) f]) (sources d) (inputs d))
    (dset (_object_path sha) text files).
Proof.
  intros [V I H B S N] -> Hnew.
  assert (Hsha : sha256_hex text ∉ a_sha <$> artifacts d).
  { intros (a&Ha&Hin)%list_elem_of_fmap. apply list_elem_of_In in Hin. pose proof (List.find_none _ _ Hnew a Hin) as Hf.
    cbn in Hf. by rewrite Ha, String.eqb_refl in Hf. }
  assert (Hmono : forall i, i ∈ ids d -> i ∈ a_id <$> artifacts d ++ [Artifact (next_id d) (sha256_hex text) (Z.of_nat (String.length text)) f]).
  { intros i Hi. rewrite fmap_app. apply elem_of_app. by left. }
  split; unfold ids in *; cbn [meta artifacts sources inputs]; [done| | | | |].
  - rewrite fmap_app. apply NoDup_app. split_and!; [done| |apply NoDup_singleton].
    intros i (a&->&Ha)%list_elem_of_fmap. cbn. intros Heq%list_elem_of_singleton.
    pose proof (next_id_fresh a (artifacts d) Ha). unfold next_id in Heq. lia.
  - rewrite fmap_app. apply NoDup_app. split_and!; [done| |apply NoDup_singleton].
    intros s Hs ->%list_elem_of_singleton. done.
  - apply Forall_app. split.
    + rewrite Forall_forall in B |- *. intros a Ha. pose proof (backed_hex _ _ (B a Ha)) as Hx. destruct (B a Ha) as (data&Hd&Hs&Hz).
      exists data. split; [|done]. rewrite dget_dset_ne; [done|]. intros Heq%object_path_inj; [|done|apply sha256_hex64].
      apply Hsha. rewrite <- Heq. apply list_elem_of_fmap. by exists a.
    + repeat constructor. exists text. cbn. by rewrite dget_dset_eq.
  - eapply Forall_impl; [exact S|]. auto.
  - eapply Forall_impl; [exact N|]. auto.
Qed.

Lemma files_ok_add files text : files_ok files -> files_ok (dset (_object_path (sha256_hex text)) text files).
Proof. intros [Hw Hf]. split; [by apply dwf_dset|]. intros x [->|H]%elem_of_dset; [done|by apply Hf]. Qed.

(** ** The operations keep the invariant *)

(** A computation that raises keeps the invariant, one that returns establishes [Q]. *)
Definition post {A} (C : Prop) (Q : A -> store -> Prop) : res A -> store -> Prop :=
  fun r s => match r with Ok a => Q a s | Raise _ => inv C s end.

Lemma wp_post_bind {A B} C (m : SM A) (f : A -> SM B) R Q s :
  wp m (post C R) s -> (forall a s', R a s' -> wp (f a) (post C Q) s') -> wp (m ≫= f) (post C Q) s.
Proof. unfold wp, mbind, M_bind. destruct (m s) as [[a|e] s']; cbn; auto. Qed.

Lemma wp_post_lift {A} C (r : res A) (Q : A -> store -> Prop) s : inv C s -> (forall a, r = Ok a -> Q a s) -> wp (lift r) (post C Q) s.
Proof. intros Hi Hq. unfold wp, lift. cbn. destruct r; cbn; auto. Qed.

Lemma wp_post_fold {A T} C (f : T -> A -> SM T) (l : list A) t s :
  (forall t x s, x ∈ l -> inv C s -> wp (f t x) (post C (fun _ => inv C)) s) -> inv C s -> wp (m_fold f t l) (post C (fun _ => inv C)) s.
Proof.
  revert t s. induction l as [|x l IH]; intros t s Hf Hs; [done|]. cbn [m_fold]. eapply wp_post_bind.
  - apply Hf; [by left|done].
  - intros t' s' Hs'. apply IH; [|done]. intros ??? Hin. apply Hf. by right.
Qed.

(** A row with an id and a digest. *)
Definition indexed (id : Z) (sha : string) (s : store) : Prop := exists a : artifact, a ∈ artifacts (the_db s) /\ a_id a = id /\ a_sha a = sha.
Definition inv_with C id sha s := inv C s /\ indexed id sha s.

Lemma insert_input_keeps C id sha row s : inv_with C id sha s ->
  wp (insert_input id row) (post C (fun _ => inv_with C id sha)) s.
Proof.
  intros [Hi Hx]. unfold insert_input. eapply (wp_post_bind _ _ _ (fun _ s' => s' = s)); [by apply wp_post_lift|].
  intros _ _ ->. destruct Hi as [Hf (d&Hd&[V I H B S N]&Hc)]. destruct Hx as (a&Ha&Hid&Hsha).
  unfold wp, update, modify, set_db, the_db in *. rewrite Hd in *. cbn in *. split.
  - split; [done|]. eexists. split; [done|]. split; [|by case_bool]. case_bool; [by split|]. split; try done. cbn.
    apply Forall_app. split; [done|]. repeat constructor. cbn. rewrite <- Hid. apply list_elem_of_fmap. by exists a.
  - exists a. unfold the_db. cbn. split; [by case_bool|done].
Qed.

Lemma insert_source_keeps C id sha row s : s_artifact row = id -> inv_with C id sha s ->
  wp (insert_source row) (post C (fun _ => inv_with C id sha)) s.
Proof.
  intros Hrow [Hi Hx]. destruct Hi as [Hf (d&Hd&[V I H B S N]&Hc)]. destruct Hx as (a&Ha&Hid&Hsha).
  unfold wp, insert_source, update, modify, set_db, the_db in *. rewrite Hd in *. cbn in *. split.
  - split; [done|]. eexists. split; [done|]. split; [|by case_bool]. case_bool; [by split|]. split; try done. cbn.
    apply Forall_app. split; [done|]. repeat constructor. cbn. rewrite Hrow, <- Hid. apply list_elem_of_fmap. by exists a.
  - exists a. unfold the_db. cbn. split; [by case_bool|done].
Qed.

Lemma insert_inputs_keep C id sha rows s : inv_with C id sha s ->
  wp (m_iter (insert_input id) rows) (post C (fun _ => inv_with C id sha)) s.
Proof.
  revert s. induction rows as [|r rows IH]; intros s Hs; [done|]. cbn [m_iter].
  eapply wp_post_bind; [by apply insert_input_keeps|]. intros ? s' Hs'. by apply IH.
Qed.

Lemma store_document_keeps C doc text s : inv C s ->
  wp (store_document doc text) (post C (fun r => inv_with C (fst r) (sha256_hex text))) s.
Proof.
  intros Hi. unfold store_document. eapply (wp_post_bind _ _ _ (fun e s' => s' = s /\ e = find_sha (sha256_hex text) (the_db s))); [done|].
  intros e s' [-> ->]. destruct (find_sha _ _) as [a|] eqn:E.
  - split; [done|]. unfold find_sha in E. apply List.find_some in E as [Hin Heq%String.eqb_eq].
    exists a. split; [by apply list_elem_of_In|done].
  - eapply (wp_post_bind _ _ _ (fun id s' => inv_with C id (sha256_hex text) (snd (_atomic_bytes (_object_path (sha256_hex text)) text s')))).
    + unfold insert_artifact. eapply (wp_post_bind _ _ _ (fun _ s' => s' = s)); [by apply wp_post_lift|]. intros _ _ ->.
      eapply (wp_post_bind _ _ _ (fun _ s' => s' = s)); [by apply wp_post_lift|]. intros _ _ ->.
      destruct Hi as [Hf (d&Hd&Hok&Hc)]. destruct s as [o files]. cbn in Hd. subst o. change (the_db _) with d in E.
      unfold wp. cbn [fst snd mbind M_bind mret M_ret gets update modify post]. split; [split; [by apply files_ok_add|]|].
      * eexists. split; [done|]. split; [by apply (db_ok_add d files)|]. intros HC p [->|Hp]%elem_of_dkeys_dset.
        { eexists. cbn. split; [apply elem_of_app; right; by left|done]. }
        destruct (Hc HC p Hp) as (a&Ha&->). exists a. cbn. split; [apply elem_of_app; by left|done].
      * eexists. cbn. split; [apply elem_of_app; right; by left|done].
    + intros id s' Hs'. eapply (wp_post_bind _ _ _ (fun _ => inv_with C id (sha256_hex text))); [exact Hs'|].
      intros _ s2 Hs2. eapply wp_post_bind; [by apply insert_inputs_keep|]. by intros ? s3 Hs3.
Qed.

Lemma ingest_file_keeps C strict t f s : inv C s -> wp (ingest_file strict t f) (post C (fun _ => inv C)) s.
Proof.
  intros Hi. unfold ingest_file. case_bool; [done|]. destruct (_ ≫= _) as [[raw v]|e]; [|by destruct strict].
  destruct (is_evidence v) as [doc|]; [|by destruct strict].
  eapply (wp_post_bind _ _ _ (fun _ s' => s' = s)); [by apply wp_post_lift|]. intros text _ ->.
  eapply wp_post_bind; [by apply store_document_keeps|]. intros [id new] s' Hs'.
  eapply wp_post_bind; [by apply (insert_source_keeps C id (sha256_hex text))|]. intros ? s2 [Hs2 _]. exact Hs2.
Qed.

Lemma ingest_path_keeps C strict t item s : inv C s -> wp (ingest_path strict t item) (post C (fun _ => inv C)) s.
Proof.
  intros Hi. destruct item as [p|f|l|]; [exact Hi|by apply ingest_file_keeps| |exact Hi].
  apply wp_post_fold; [|done]. intros. by apply ingest_file_keeps.
Qed.

(** Rows are never removed. *)
Definition grows {A} (m : SM A) : Prop := forall s (a : artifact), a ∈ artifacts (the_db s) -> a ∈ artifacts (the_db (snd (m s))).

Lemma grows_bind {A B} (m : SM A) (f : A -> SM B) : grows m -> (forall a, grows (f a)) -> grows (m ≫= f).
Proof.
  intros Hm Hf s a Ha. unfold mbind, M_bind. specialize (Hm s a Ha). destruct (m s) as [[x|e] s']; cbn in *; [by apply Hf|done].
Qed.
Lemma grows_lift {A} (r : res A) : grows (lift r).
Proof. by intros s b. Qed.
Lemma grows_ret {A} (x : A) : grows (mret x).
Proof. by intros s b. Qed.
Lemma grows_gets {A} (f : store -> A) : grows (gets f).
Proof. by intros s b. Qed.
Lemma grows_update f : (forall d (a : artifact), a ∈ artifacts d -> a ∈ artifacts (f d)) -> grows (update f).
Proof. intros Hf s a Ha. by apply Hf. Qed.
Lemma grows_iter {A} (f : A -> SM unit) l : (forall x, grows (f x)) -> grows (m_iter f l).
Proof. intros Hf. induction l as [|x l IH]; cbn [m_iter]; [apply grows_ret|]. by apply grows_bind. Qed.
Lemma grows_fold {A T} (f : T -> A -> SM T) t l : (forall t x, grows (f t x)) -> grows (m_fold f t l).
Proof. intros Hf. revert t. induction l as [|x l IH]; intros t; cbn [m_fold]; [apply grows_ret|]. by apply grows_bind. Qed.
#[local] Hint Resolve grows_bind grows_lift grows_ret grows_gets grows_iter grows_fold : core.

Lemma grows_ingest_file strict t f : grows (ingest_file strict t f).
Proof.
  unfold ingest_file. case_bool; [auto|]. destruct (_ ≫= _) as [[raw v]|e]; [|destruct strict; apply grows_lift || apply grows_ret].
  destruct (is_evidence v) as [doc|]; [|destruct strict; apply grows_lift || apply grows_ret].
  apply grows_bind; [auto|]. intros text. apply grows_bind.
  - unfold store_document. apply grows_bind; [auto|]. intros [a|]; [auto|]. apply grows_bind.
    + unfold insert_artifact. do 3 (apply grows_bind; [auto|intros ?]). apply grows_bind; [|auto].
      apply grows_update. intros d b Hb. cbn. apply elem_of_app. by left.
    + intros id. apply grows_bind; [by intros s a|]. intros _. apply grows_bind; [|auto]. apply grows_iter. intros row.
      unfold insert_input. apply grows_bind; [auto|]. intros _. apply grows_update. intros d a Ha. by case_bool.
  - intros [id new]. apply grows_bind; [|auto]. apply grows_update. intros d a Ha. by case_bool.
Qed.
Lemma grows_ingest_path strict t item : grows (ingest_path strict t item).
Proof. destruct item; cbn; auto using grows_ingest_file. by intros s b. Qed.

(** A store that has not been initialised is empty. *)
Definition store_ok (C : Prop) (s : store) : Prop := s = Store None [] \/ inv C s.

Lemma inv_weaken (C C' : Prop) s : (C' -> C) -> inv C s -> inv C' s.
Proof. intros H (Hf&d&Hd&Hok&Hc). split; [done|]. exists d. auto. Qed.

Lemma init_store_keeps C s : store_ok C s -> inv C (snd (init_store s)).
Proof.
  intros [->|(Hf&d&Hd&[V I H B S N]&Hc)].
  - split; [by split; [constructor|intros x ?%not_elem_of_nil]|]. eexists. split; [done|]. split.
    + split; try constructor; try apply Forall_nil_2; done.
    + intros _ p Hp. by apply not_elem_of_nil in Hp.
  - destruct s as [o files]. cbn in Hd. subst o. split; [done|]. eexists. split; [done|]. split; [|done].
    split; try done. cbn. by rewrite dget_dset_eq.
Qed.

Lemma ingest_keeps C paths strict s : store_ok C s ->
  match ingest paths strict s with (Ok _, s') => inv C s' | (Raise _, s') => inv False s' end.
Proof.
  intros Hs%init_store_keeps. unfold ingest, mbind, M_bind. change (init_store s) with (Ok tt, snd (init_store s)). cbv iota beta.
  generalize dependent (snd (init_store s)). intros s1 Hs1. unfold transaction.
  pose proof (wp_post_fold C (ingest_path strict) paths (Tally 0 0 0 0 [] []) s1 (fun t x s _ => ingest_path_keeps C strict t x s) Hs1) as Hw.
  pose proof (grows_fold (ingest_path strict) (Tally 0 0 0 0 [] []) paths (grows_ingest_path strict) s1) as Hg.
  unfold wp in Hw. destruct (m_fold _ _ _ s1) as [[t|e] s2]; cbn in *; [done|].
  destruct Hs1 as (Hf&d&Hd&[V I H B S N]&_), Hw as (Hf2&d2&Hd2&[V2 I2 H2 B2 S2 N2]&_).
  split; [done|]. exists d. cbn. split; [done|]. split; [|done]. split; try done. unfold the_db in Hg. rewrite Hd, Hd2 in Hg. cbn in Hg.
  rewrite Forall_forall in B2 |- *. auto.
Qed.

(** ** Verification *)

Lemma rows_of_artifacts (l : list artifact) (acc : dict Z) (r : string * Z) :
  r ∈ fold_left (fun m a => dset (a_sha a) (a_size a) m) l acc -> r ∈ acc \/ exists a, a ∈ l /\ r = (a_sha a, a_size a).
Proof.
  revert acc. induction l as [|a l IH]; intros acc; cbn; [by left|]. intros [Hr|(b&Hb&->)]%IH.
  - apply elem_of_dset in Hr as [->|Hr]; [|by left]. right. exists a. split; [by left|done].
  - right. exists b. split; [by right|done].
Qed.
Lemma rows_keys (l : list artifact) (acc : dict Z) x :
  x ∈ dkeys (fold_left (fun m a => dset (a_sha a) (a_size a) m) l acc) <-> x ∈ dkeys acc \/ x ∈ a_sha <$> l.
Proof.
  revert acc. induction l as [|a l IH]; intros acc; cbn [fold_left fmap list_fmap].
  - split; [by left|]. intros [H|H%not_elem_of_nil]; done.
  - rewrite IH, elem_of_dkeys_dset, elem_of_cons. tauto.
Qed.
Lemma rows_length (l : list artifact) (acc : dict Z) : NoDup (dkeys acc ++ (a_sha <$> l)) ->
  length (fold_left (fun m a => dset (a_sha a) (a_size a) m) l acc) = (length acc + length l)%nat.
Proof.
  revert acc. induction l as [|a l IH]; intros acc; cbn [fold_left fmap list_fmap length]; intros Hnd; [lia|].
  assert (Hn : a_sha a ∉ dkeys acc).
  { apply NoDup_app in Hnd as (_&Hnd&_). intros Hin. apply (Hnd _ Hin). by left. }
  rewrite IH, dkeys_dset_notin; [rewrite length_app; cbn; lia|done|].
  rewrite dkeys_dset_notin by done. unfold dkeys in *. rewrite fmap_app, <- app_assoc. exact Hnd.
Qed.


Lemma lower_hex c : hex_char c = true -> lower_char c = c.
Proof. destruct c as [[] [] [] [] [] [] [] []]; intros H; try discriminate H; reflexivity. Qed.
Lemma str_lower_hex s : str_forall hex_char s = true -> str_lower s = s.
Proof.
  induction s as [|c s IH]; [done|]. cbn [str_forall]. intros [Hc Hs]%andb_true_iff. unfold str_lower in *. cbn [str_map].
  by rewrite lower_hex, IH.
Qed.

Lemma verify_healthy C s : inv C s -> exists v, verify s = (Ok v, s) /\ v_ok v = true /\
  v_artifacts v = Z.of_nat (length (artifacts (the_db s))) /\ (C -> v_orphans v = []).
Proof.
  intros (Hf&d&Hd&[V I H B _ _]&Hc). destruct s as [o files]. cbn in Hd, Hf, B, Hc. subst o. cbn [the_db default database].
  cbv beta iota delta [verify mbind M_bind _connect gets lift database the_db default objects mret M_ret id]. rewrite V.
  change (py_int (VStr "1")) with (Ok 1). cbv beta iota delta [guard_app Z.eqb STORE_SCHEMA_VERSION Pos.eqb].
  set (rows := fold_left _ (artifacts d) []). eexists. split; [reflexivity|].
  assert (Hrows : forall r, r ∈ rows -> object_health files r = Healthy).
  { intros r [Hr%not_elem_of_nil|(a&Ha&->)]%rows_of_artifacts; [done|]. rewrite Forall_forall in B.
    destruct (B a Ha) as (data&Hg&Hs&Hz). unfold object_health. cbn. by rewrite Hg, Hs, Hz, Z.eqb_refl, String.eqb_refl. }
  cbn [v_ok v_missing v_corrupt v_artifacts v_orphans]. split_and!.
  - rewrite !(filter_nothing _ rows) by (by intros r ->%Hrows). done.
  - unfold rows. rewrite rows_length; [done|exact H].
  - intros HC. apply filter_nothing. intros p Hp. destruct (Hc HC p Hp) as (a&Ha&->). unfold is_orphan.
    rewrite Forall_forall in B. pose proof (backed_hex _ _ (B a Ha)) as Hx. rewrite json_stem_object_path by done.
    assert (Hin : dmem (str_lower (a_sha a)) rows = true).
    { unfold is_hex64 in Hx. apply andb_true_iff in Hx as [_ Hx]. rewrite str_lower_hex by done.
      assert (Hk : a_sha a ∈ dkeys rows). { apply rows_keys. right. apply list_elem_of_fmap. by exists a. }
      unfold dmem. by apply dget_in_keys in Hk as [v ->]. }
    by rewrite Hin, andb_false_r, andb_false_r.
Qed.

(** ** Commands in sequence *)

(** The results of a sequence of commands, and the store they leave. *)
Fixpoint run (cs : list command) (s : store) : list (res Z) * store :=
  match cs with
  | [] => ([], s)
  | c :: cs => let '(r, s) := main c s in let '(rs, s) := run cs s in (r :: rs, s)
  end.
(** Whether a command did what it was asked to. *)
Definition succeeded (r : res Z) : bool := match r with Ok code => negb (code =? 2) | Raise _ => false end.

Lemma query_keeps q s : snd (query q s) = s.
Proof. unfold query, mbind, M_bind, _connect, lift. destruct (database s); [|done]. by destruct (bind_int _). Qed.
Lemma show_keeps ref s : snd (show ref s) = s.
Proof.
  unfold show, mbind, M_bind, _connect, lift, gets. destruct (database s); [|done]. destruct (_resolve_ref _ _); [|done]. by destruct (dget _ _).
Qed.
Lemma report_keeps s : snd (report s) = s.
Proof. unfold report, mbind, M_bind, _connect, lift, gets. by destruct (database s). Qed.
Lemma verify_keeps s : snd (verify s) = s.
Proof.
  unfold verify, mbind, M_bind, _connect, lift, gets. destruct (database s); [|done].
  destruct (match dget _ _ with Some _ => _ | None => _ end) as [n|]; [|done]. by destruct (guard_app _ _).
Qed.

(** A command that only reads leaves the store. *)
Lemma reading_keeps {A} (m : SM A) (f : A -> Z) C s : (forall s, snd (m s) = s) -> store_ok C s ->
  store_ok C (snd (catch [AppError; SqlError] (v ← m; mret (f v)) (fun _ => mret 2) s)).
Proof.
  intros Hm Hs. unfold catch, mbind, M_bind. pose proof (Hm s) as E. destruct (m s) as [[v|e] s']; cbn in E; subst s'; [done|].
  by destruct (handled _ e).
Qed.

Lemma main_keeps C c s : store_ok C s ->
  store_ok (C /\ succeeded (fst (main c s)) = true) (snd (main c s)).
Proof.
  intros Hs. assert (Hweak : forall s', store_ok C s' -> store_ok (C /\ succeeded (fst (main c s)) = true) s').
  { intros s' [->|Hi]; [by left|]. right. eapply inv_weaken; [|exact Hi]. by intros []. }
  destruct c as [|paths strict|q|ref| |].
  - apply Hweak. right. by apply init_store_keeps.
  - pose proof (ingest_keeps C paths strict s Hs) as Hi. unfold main, catch, dispatch, mbind, M_bind in *.
    destruct (ingest paths strict s) as [[t|e] s']; cbn in *; [apply Hweak; by right|].
    right. case_match; cbn; (eapply inv_weaken; [|exact Hi]); by intros [].
  - apply Hweak. apply (reading_keeps (query q) (fun _ => 0)); [apply query_keeps|done].
  - apply Hweak. apply (reading_keeps (show ref) (fun _ => 0)); [apply show_keeps|done].
  - apply Hweak. apply (reading_keeps report (fun _ => 0)); [apply report_keeps|done].
  - apply Hweak. apply (reading_keeps verify (fun v => if v_ok v then 0 else 1)); [apply verify_keeps|done].
Qed.

Lemma run_keeps C cs s : store_ok C s -> store_ok (C /\ forallb succeeded (fst (run cs s)) = true) (snd (run cs s)).
Proof.
  revert C s. induction cs as [|c cs IH]; intros C s Hs; cbn [run].
  - destruct Hs as [->|Hs]; [by left|]. right. eapply inv_weaken; [|exact Hs]. by intros [].
  - apply (main_keeps C c) in Hs. destruct (main c s) as [r s1]. cbn [fst snd] in Hs. specialize (IH _ _ Hs).
    destruct (run cs s1) as [rs s2]. cbn in *. destruct IH as [->|IH]; [by left|]. right. eapply inv_weaken; [|exact IH].
    intros [HC [Hr Hrs]%andb_true_iff]. by rewrite Hr.
Qed.

(** C31: whatever commands have run on a store, in whatever order and with whatever failures, an
    initialised store verifies: every row has its object, with its size and digest; ids and digests
    are unique, sources and inputs belong to rows, every object is named by the digest of its content,
    and when no command failed every object is indexed. *)
Theorem evidence_store_verifies cs :
  let '(results, s) := run cs (Store None []) in
  (s = Store None [] \/
   exists v, verify s = (Ok v, s) /\ v_ok v = true /\ v_artifacts v = Z.of_nat (length (artifacts (the_db s))) /\
     (forallb succeeded results = true -> v_orphans v = []) /\
     NoDup (ids (the_db s)) /\ NoDup (a_sha <$> artifacts (the_db s)) /\
     (forall r : source_row, r ∈ sources (the_db s) -> s_artifact r ∈ ids (the_db s)) /\
     (forall r : Z * input_row, r ∈ inputs (the_db s) -> fst r ∈ ids (the_db s)) /\
     (forall path text, dget path (objects s) = Some text -> path = _object_path (sha256_hex text))).
Proof.
  pose proof (run_keeps True cs (Store None []) ltac:(by left)) as Hs. destruct (run cs _) as [rs s]. cbn [fst snd] in Hs.
  destruct Hs as [->|Hi]; [by left|]. right. destruct (verify_healthy _ _ Hi) as (v&Hv&Hok&Hn&Ho). exists v.
  destruct Hi as ([_ Hf]&d&Hd&[V I H B Hs N]&_). destruct s as [o files]. cbn in Hd, Hf. subst o. cbn [the_db default database objects] in *.
  rewrite Forall_forall in Hs. rewrite Forall_forall in N. split_and!; try done; [auto|]. intros path text Hg%dget_some_in. apply (Hf (path, text) Hg).
Qed.

(** ** Retrieval *)

Definition files_of (paths : list path_item) : list file :=
  flat_map (fun p => match p with Regular f => [f] | Directory l => l | _ => [] end) paths.

Lemma by_prefix_exact d files (a : artifact) : db_ok d files -> a ∈ artifacts d -> by_prefix (a_sha a) d = Ok a.
Proof.
  intros [V I H B _ _] Ha. rewrite Forall_forall in B. assert (Hx := backed_hex _ _ (B a Ha)). assert (Hl := is_hex64_length _ Hx).
  assert (Hx' := Hx). unfold is_hex64 in Hx'. apply andb_true_iff in Hx' as [_ Hh]. unfold by_prefix. rewrite Hl. cbn [Nat.ltb Nat.leb].
  assert (Hany : str_forall any_hex (a_sha a) = true).
  { clear -Hh. induction (a_sha a) as [|c s IH]; [done|]. cbn [str_forall] in *. apply andb_true_iff in Hh as [Hc Hs].
    unfold any_hex. rewrite Hc. by apply IH. }
  rewrite Hany. cbn [negb orb].
  assert (Hlike : forall b : artifact, b ∈ artifacts d -> sql_like (a_sha b) (str_lower (a_sha a) +:+ "%") = String.eqb (a_sha b) (a_sha a)).
  { intros b Hb. assert (Hbx := backed_hex _ _ (B b Hb)). assert (Hbl := is_hex64_length _ Hbx). unfold is_hex64 in Hbx.
    apply andb_true_iff in Hbx as [_ Hbh]. rewrite str_lower_hex by done. unfold sql_like, sql_like_escape.
    rewrite like_prefix, !str_lower_hex; [|done|done| |rewrite length_append; cbn; lia].
    - apply eq_true_iff_eq. rewrite String.eqb_eq. split; [|intros ->; rewrite <- (str_app_nil_r (a_sha a)) at 2; apply prefix_append].
      rewrite <- Hbl in Hl. clear -Hl. revert Hl. generalize (a_sha b). induction (a_sha a) as [|c s IH]; intros [|c' t]; try done.
      cbn. intros [= Hl]. destruct (ascii_dec c c') as [->|]; [|done]. intros Hp. f_equal. by apply IH.
    - clear -Hh. induction (a_sha a) as [|c s IH]; [done|]. cbn [str_forall] in *. apply andb_true_iff in Hh as [Hc Hs].
      rewrite IH by done. destruct c as [[] [] [] [] [] [] [] []]; try discriminate Hc; reflexivity. }
  assert (Hf : List.filter (fun b => sql_like (a_sha b) (str_lower (a_sha a) +:+ "%")) (artifacts d) = [a]).
  { clear -H Ha Hlike. induction (artifacts d) as [|b l IH]; [by apply not_elem_of_nil in Ha|].
    cbn in H. apply NoDup_cons in H as [Hb H]. cbn [List.filter]. rewrite Hlike by by left. apply elem_of_cons in Ha as [->|Ha].
    - rewrite String.eqb_refl. f_equal. apply filter_nothing. intros c Hc. rewrite Hlike by by right. apply String.eqb_neq.
      intros E. apply Hb. rewrite <- E. apply list_elem_of_fmap. by exists c.
    - destruct (String.eqb_spec (a_sha b) (a_sha a)) as [E|_].
      + exfalso. apply Hb. rewrite E. apply list_elem_of_fmap. by exists a.
      + apply IH; [done|done|]. intros c Hc. apply Hlike. by right. }
  by rewrite Hf.
Qed.

Lemma m_fold_app {A T} (f : T -> A -> SM T) t l1 l2 s :
  m_fold f t (l1 ++ l2) s = (t ← m_fold f t l1; m_fold f t l2) s.
Proof.
  revert t s. induction l1 as [|x l1 IH]; intros t s; [done|]. cbn [app m_fold]. unfold mbind, M_bind in *.
  destruct (f t x s) as [[t'|e] s']; [apply IH|done].
Qed.

Lemma ingest_flat strict paths t s r s' :
  m_fold (ingest_path strict) t paths s = (Ok r, s') -> m_fold (ingest_file strict) t (files_of paths) s = (Ok r, s').
Proof.
  revert t s. induction paths as [|p paths IH]; intros t s; [done|]. cbn [m_fold files_of flat_map]. unfold mbind, M_bind.
  destruct p as [p|f|l|]; cbn [ingest_path]; try done.
  - cbn [app m_fold]. unfold mbind, M_bind. destruct (ingest_file strict t f s) as [[t1|e] s1]; [apply IH|done].
  - rewrite m_fold_app. unfold mbind, M_bind. destruct (m_fold _ t l s) as [[t1|e] s1]; [apply IH|done].
  - apply IH.
Qed.

Lemma ingest_file_seen strict t x s t' s' : ingest_file strict t x s = (Ok t', s') ->
  forall p, p ∈ t_seen t' -> p = p_path x \/ p ∈ t_seen t.
Proof.
  unfold ingest_file. case_bool; [intros [= <- <-] p Hp; by right|].
  assert (Hcons : forall a b c d e p, p ∈ t_seen (Tally a b c d e (p_path x :: t_seen t)) -> p = p_path x \/ p ∈ t_seen t).
  { intros. by apply elem_of_cons. }
  destruct (_ ≫= _) as [[raw v]|e]; [|destruct strict; [done|intros [= <- <-]; apply Hcons]].
  destruct (is_evidence v) as [doc|]; [|destruct strict; [done|intros [= <- <-]; apply Hcons]].
  unfold mbind, M_bind, lift. destruct (_canonical _) as [text|]; [|done]. destruct (store_document _ _ s) as [[[id new]|e] s1]; [|done].
  destruct (insert_source _ s1) as [[u|e] s2]; [|done]. intros [= <- <-]. apply Hcons.
Qed.

(** The pass that meets the file indexes its document, and later ones keep it. *)
Lemma ingest_indexes C strict f raw doc text l t s t' s' :
  inv C s -> m_fold (ingest_file strict) t l s = (Ok t', s') -> f ∈ l -> p_path f ∉ t_seen t ->
  (forall g, g ∈ l -> p_path g = p_path f -> g = f) ->
  p_raw f = Ok raw -> loads raw = Ok (VDict doc) -> is_evidence (VDict doc) = Some doc -> _canonical (obj doc) = Ok text ->
  exists a : artifact, a ∈ artifacts (the_db s') /\ a_sha a = sha256_hex text.
Proof.
  intros Hi Hfold Hf Hseen Huniq Hraw Hdoc Hev Htext. revert t s Hi Hfold Hseen.
  induction l as [|x l IH]; intros t s Hi Hfold Hseen; [by apply not_elem_of_nil in Hf|].
  cbn [m_fold] in Hfold. unfold mbind, M_bind in Hfold.
  destruct (ingest_file strict t x s) as [[t1|e] s1] eqn:E; [|done].
  destruct (decide (p_path x = p_path f)) as [Hp|Hne].
  - apply Huniq in Hp as ->; [|by left].
    assert (Hx : exists a : artifact, a ∈ artifacts (the_db s1) /\ a_sha a = sha256_hex text).
    { unfold ingest_file in E. rewrite bool_decide_false, Hraw in E by done. cbn [mbind res_bind] in E. rewrite Hdoc in E. cbn [mbind res_bind] in E.
      rewrite Hev in E. unfold mbind at 1, M_bind at 1, lift in E. rewrite Htext in E.
      pose proof (store_document_keeps C doc text s Hi) as Hk. unfold wp in Hk. unfold mbind, M_bind in E.
      destruct (store_document doc text s) as [[[id new]|e] s0]; [|done]. destruct Hk as [Hk1 Hk2].
      pose proof (insert_source_keeps C id (sha256_hex text) (SourceRow id (p_path f) (sha256_hex raw) (Z.of_nat (String.length raw))) s0 eq_refl (conj Hk1 Hk2)) as Hk.
      unfold wp in Hk. destruct (insert_source _ s0) as [[u|e] s2]; [|done]. injection E as <- <-. destruct Hk as [_ (a&Ha&_&Hs)].
      by exists a. }
    destruct Hx as (a&Ha&Hs). exists a. split; [|done].
    pose proof (grows_fold (ingest_file strict) t1 l (grows_ingest_file strict) s1 a Ha) as Hg. by rewrite Hfold in Hg.
  - apply elem_of_cons in Hf as [->|Hf]; [done|].
    apply (IH Hf ltac:(intros g Hg; apply Huniq; by right) t1 s1); [|done|].
    + pose proof (ingest_file_keeps C strict t x s Hi) as Hk. unfold wp in Hk. by rewrite E in Hk.
    + intros Hin. apply (ingest_file_seen _ _ _ _ _ _ E) in Hin as [Hp|Hp]; [by rewrite Hp in Hne|done].
Qed.

Lemma grows_main c : grows (main c).
Proof.
  assert (Hread : forall {A} (m : SM A) (f : A -> Z), (forall s, snd (m s) = s) -> grows (catch [AppError; SqlError] (v ← m; mret (f v)) (fun _ => mret 2))).
  { intros A m f Hm s a Ha. unfold catch, mbind, M_bind. pose proof (Hm s) as E. destruct (m s) as [[v|e] s']; cbn in E; subst s'; [done|].
    by destruct (handled _ e). }
  assert (Hinit : grows init_store). { apply grows_update. by intros d a Ha. }
  destruct c as [|paths strict|q|ref| |].
  - intros s a Ha. exact (Hinit s a Ha).
  - intros s a Ha. assert (Hg : a ∈ artifacts (the_db (snd (ingest paths strict s)))).
    { unfold ingest. apply (grows_bind init_store); [done| |done]. intros _ s1 b Hb. unfold transaction.
      pose proof (grows_fold (ingest_path strict) (Tally 0 0 0 0 [] []) paths (grows_ingest_path strict) s1 b Hb) as Hg.
      by destruct (m_fold _ _ _ s1) as [[t|e] s2]. }
    unfold main, catch, dispatch, mbind, M_bind. destruct (ingest paths strict s) as [[t|e] s']; [done|]. cbn [snd] in Hg. by case_match.
  - apply (Hread _ (query q) (fun _ => 0)), query_keeps.
  - apply (Hread _ (show ref) (fun _ => 0)), show_keeps.
  - apply (Hread _ report (fun _ => 0)), report_keeps.
  - apply (Hread _ verify (fun v => if v_ok v then 0 else 1)), verify_keeps.
Qed.

Lemma grows_run cs s (a : artifact) : a ∈ artifacts (the_db s) -> a ∈ artifacts (the_db (snd (run cs s))).
Proof.
  revert s. induction cs as [|c cs IH]; intros s Ha; [done|]. cbn [run]. pose proof (grows_main c s a Ha) as Hg.
  destruct (main c s) as [r s1]. specialize (IH s1 Hg). by destruct (run cs s1).
Qed.

Lemma canonical_plain v : plain v = true -> _canonical v = Ok (json_raw (sort_keys v) +:+ sp 10).
Proof.
  intros Hp. unfold _canonical. rewrite valid_utf8_ascii; [done|]. rewrite ascii_app, <- (json_layout_compact _ 0%nat).
  apply andb_true_iff. split; [|done]. change ":" with (":" +:+ ""). apply layout_ascii; [apply json_string_raw_reads_back|done|done|].
  by apply plain_sort_keys.
Qed.

Lemma ingest_indexed C paths strict t s s' f raw doc text : store_ok C s -> ingest paths strict s = (Ok t, s') ->
  f ∈ files_of paths -> (forall g, g ∈ files_of paths -> p_path g = p_path f -> g = f) ->
  p_raw f = Ok raw -> loads raw = Ok (VDict doc) -> is_evidence (VDict doc) = Some doc -> _canonical (obj doc) = Ok text ->
  exists a : artifact, a ∈ artifacts (the_db s') /\ a_sha a = sha256_hex text.
Proof.
  intros H0 Hin Hf Hu Hraw Hdoc Hev Htext. unfold ingest, mbind, M_bind in Hin. change (init_store s) with (Ok tt, snd (init_store s)) in Hin.
  cbv iota beta in Hin. unfold transaction in Hin. destruct (m_fold (ingest_path strict) _ paths _) as [[t'|e] s1] eqn:E; [|done]. injection Hin as <- <-.
  apply ingest_flat in E. eapply ingest_indexes; [by eapply init_store_keeps|exact E|exact Hf|by apply not_elem_of_nil|done..].
Qed.

(** A row whose digest is that of a document's text is shown as the document. *)
Lemma indexed_is_shown C s (a : artifact) doc : store_ok C s -> a ∈ artifacts (the_db s) -> json_ok (VDict doc) = true ->
  let text := json_raw (sort_keys (VDict doc)) +:+ sp 10 in
  a_sha a = sha256_hex text -> str_isdigit (sha256_hex text) = false ->
  show (sha256_hex text) s = (Ok (sort_keys (VDict doc)), s) \/ exists other, other <> text /\ sha256_hex other = sha256_hex text.
Proof.
  intros H2 Ha Hok text Hsha Hdigit. destruct H2 as [E|H2]; [rewrite E in Ha; by apply not_elem_of_nil in Ha|].
  destruct H2 as (_&d&Hd&Hdb&_). assert (Hd2 : the_db s = d) by (unfold the_db; by rewrite Hd). rewrite Hd2 in Ha.
  unfold show, mbind, M_bind, _connect, gets, lift. rewrite Hd, Hd2.
  unfold _resolve_ref. rewrite Hdigit, <- Hsha, (by_prefix_exact d (objects s)) by done.
  destruct Hdb as [_ _ _ B _ _]. rewrite Forall_forall in B. destruct (B a Ha) as (data&->&Hs&_).
  destruct (decide (data = text)) as [->|Hne]; [left|right; exists data; by rewrite Hs].
  assert (E : loads text = Ok (sort_keys (VDict doc))) by by apply loads_raw, json_ok_sort_keys. by rewrite E.
Qed.

(** A document that was ingested, from a file read once and with a digest that is not a decimal
    number, is shown under its digest, with its keys sorted, after any further commands, unless
    another text with the same SHA-256 digest turned up. *)
Theorem ingested_document_is_shown cs paths strict t s' later f raw doc :
  ingest paths strict (snd (run cs (Store None []))) = (Ok t, s') ->
  f ∈ files_of paths -> (forall g, g ∈ files_of paths -> p_path g = p_path f -> g = f) ->
  p_raw f = Ok raw -> loads raw = Ok (VDict doc) -> is_evidence (VDict doc) = Some doc -> json_ok (VDict doc) = true ->
  let text := json_raw (sort_keys (VDict doc)) +:+ sp 10 in
  let s := snd (run later s') in
  str_isdigit (sha256_hex text) = false ->
  show (sha256_hex text) s = (Ok (sort_keys (VDict doc)), s) \/ exists other, other <> text /\ sha256_hex other = sha256_hex text.
Proof.
  intros Hin Hf Hu Hraw Hdoc Hev Hok text s Hdigit.
  pose proof (run_keeps True cs (Store None []) ltac:(by left)) as H0. pose proof (ingest_keeps _ paths strict _ H0) as H1. rewrite Hin in H1.
  destruct (ingest_indexed _ _ _ _ _ _ _ _ _ text H0 Hin Hf Hu Hraw Hdoc Hev) as (a&Ha&Hsha).
  { apply canonical_plain. unfold json_ok in Hok. by apply andb_true_iff in Hok as [? _]. }
  eapply indexed_is_shown; [by eapply (run_keeps _ later); right|by apply (grows_run later)|done..].
Qed.

(** ** Witnesses *)

Definition sample_text : string := "{" +:+ json_string "schema" +:+ ": " +:+ json_string "ppc-lab-x-v1" +:+ ", " +:+ json_string "id" +:+ ":7}".
Definition sample_doc : dict value := [("schema", VStr "ppc-lab-x-v1"); ("id", VInt 7)].
Definition sample_file : file := InFile "/in/a.json" (Ok sample_text).
Definition sample_store : store := snd (ingest [Directory [sample_file]] true (Store None [])).

Lemma ingested_document_is_shown_witness :
  let text := json_raw (sort_keys (VDict sample_doc)) +:+ sp 10 in
  let s := snd (run [Ingest [Absent "/x"] false; Verify] sample_store) in
  show (sha256_hex text) s = (Ok (sort_keys (VDict sample_doc)), s) \/
  exists other, other <> text /\ sha256_hex other = sha256_hex text.
Proof.
  apply (ingested_document_is_shown [Init] [Directory [sample_file]] true (Tally 1 0 0 0 [1] ["/in/a.json"]) sample_store
           [Ingest [Absent "/x"] false; Verify] sample_file sample_text sample_doc).
  - vm_compute. reflexivity.
  - by left.
  - intros g [->|[]%not_elem_of_nil]%elem_of_cons _. done.
  - reflexivity.
  - vm_compute. reflexivity.
  - vm_compute. reflexivity.
  - vm_compute. reflexivity.
  - vm_compute. reflexivity.
Defined.

(** ** What the model showed *)

(** A reference of nineteen or more digits is bound as an integer before it is tried as a digest: the
    command ends in an [OverflowError] that nothing handles. *)
Example numeric_reference_overflows :
  fst (main (Show "99999999999999999999") sample_store) =
  Raise (Exn OverflowError "Python int too large to convert to SQLite INTEGER").
Proof. vm_compute. reflexivity. Qed.

(** A refused strict ingest takes back the rows of the files before, but not their objects. *)
Example refused_ingest_leaves_orphans :
  let s := snd (main (Ingest [Regular sample_file; Absent "/x"] true) (Store None [])) in
  (artifacts (the_db s), length (objects s), ok_or 9%nat (v ← fst (verify s); Ok (length (v_orphans v)))) = ([], 1%nat, 1%nat).
Proof. vm_compute. reflexivity. Qed.
