(* ===== verification/Replicate.v ===== *)
(** * Offline replication ([ppc_lab_replicate.py])

    A site exports its evidence, knowledge and control history as a bundle, a ZIP archive with a
    manifest; another site verifies a bundle and merges it into its stores, once per source site and
    generation.  A site is the record [site] of its files, the stores are those of [Evidence] and
    [Knowledge].  Reading a member of an archive that opens succeeds. *)
From stdpp Require Import pretty.
From Stdlib Require Import Ascii.
From S2P Require Import Knowledge.
From S2P Require Import Evidence.
From S2P Require Export PyState JsonParse Sha Shell.

Abbreviation obj := VDict.

Definition REPLICATION_API_VERSION : Z := 1.
Definition STORE_SCHEMA : string := "ppc-lab-replication-store-v1".
Definition BUNDLE_SCHEMA : string := "ppc-lab-replication-bundle-v1".
Definition RECEIPT_SCHEMA : string := "ppc-lab-replication-receipt-v1".
Definition STATUS_SCHEMA : string := "ppc-lab-replication-status-v1".
Definition MAX_MEMBER_BYTES : Z := 64 * 1024 * 1024.
Definition MAX_BUNDLE_BYTES : Z := 512 * 1024 * 1024.

Definition canonical_json (v : value) : res string :=
  let text := json_raw (sort_keys v) +:+ sp 10 in
  if valid_utf8 text then Ok text else Raise (Exn UnicodeError "surrogates not allowed").

(** [read_json] of a file whose text [json.loads] makes [file] of. *)
Definition read_json (file : res value) : res (dict value) :=
  match file with
  | Ok (VDict d) => Ok d
  | Ok _ => app_error "expected JSON object"
  | Raise e => if handled [OSError; JSONDecodeError] e then app_error ("cannot read JSON: " +:+ exn_msg e) else Raise e
  end.

(** ** A site *)

(** The files below the root: the state, the receipts and the archived histories, by path. *)
Record site := Site { z_state : option (res value); z_receipts : dict (res value); z_history : dict string }.

Definition site_re (s : string) : bool := (1 <=? String.length s)%nat && (String.length s <=? 64)%nat && str_forall id_char s.
Definition validate_site (s : string) : res string :=
  if site_re s then Ok s else app_error "site id must be 1..64 characters using A-Z a-z 0-9 . _ -".

Definition new_state (name now : string) : dict value :=
  [("schema", VStr STORE_SCHEMA); ("replication_api", VInt REPLICATION_API_VERSION); ("site", VStr name);
   ("next_generation", VInt 1); ("created_at", VStr now)].
Definition set_state (d : dict value) (z : site) : site := Site (Some (Ok (obj d))) (z_receipts z) (z_history z).

(** The checks of [ensure_store] on the state file. *)
Definition load_state (expected : option string) (z : site) : res (dict value) :=
  state ← match z_state z with Some file => read_json file | None => app_error "replication store is not initialized; run init first" end;
  supported ← (if eq_str (dget_n "schema" state) STORE_SCHEMA
               then n ← py_int (dget_or "replication_api" (VInt (-1)) state); Ok (n =? REPLICATION_API_VERSION) else Ok false);
  _ ← guard_app supported "unsupported replication store format";
  _ ← validate_site (py_str (dget_or "site" (VStr "") state));
  _ ← guard_app (match expected with Some s => eq_str (dget_n "site" state) s | None => true end) "replication store site mismatch";
  Ok state.
(** [ensure_store(root, create=True, site=name)] *)
Definition create_store (name now : string) : M site (dict value) :=
  _ ← lift (validate_site name);
  _ ← modify (fun z => match z_state z with None => set_state (new_state name now) z | Some _ => z end);
  z ← gets id; lift (load_state (Some name) z).

(** ** Exporting *)

(** The entries of an archive in order; [m_attr] is the Unix mode. *)
Record member := Member { m_name : string; m_data : string; m_attr : Z }.
Abbreviation entry := (string * string)%type.

(** A document of a store, checked against the digest it is stored under. *)
Definition checked (kind digest : string) (parsed : res value) : res entry :=
  _ ← guard_app (is_hex64 digest) ("invalid digest in database: " +:+ digest);
  doc ← match parsed with
        | Raise e => if handled [JSONDecodeError] e then app_error ("invalid JSON for " +:+ digest) else Raise e
        | r => r
        end;
  canonical ← canonical_json doc;
  _ ← guard_app (String.eqb (sha256_hex canonical) digest) ("semantic hash mismatch: " +:+ digest);
  Ok (kind +:+ "/" +:+ digest +:+ ".json", canonical).

Definition collect_evidence (s : Evidence.store) : res (list entry) :=
  match Evidence.database s with
  | None => app_error "evidence store is not initialized"
  | Some d =>
      res_map (fun row =>
        let digest := str_lower row in
        _ ← guard_app (is_hex64 digest) ("invalid evidence artifact digest in database: " +:+ digest);
        match dget (Evidence._object_path digest) (Evidence.objects s) with
        | None => app_error ("evidence object missing: " +:+ digest)
        | Some raw => checked "evidence" digest (loads raw)
        end) (py_sorted id (Evidence.a_sha <$> Evidence.artifacts d))
  end.

Definition collect_knowledge (g : option Knowledge.graph) : res (list entry) :=
  match g with
  | None => app_error "knowledge graph is not initialized"
  | Some g => res_map (fun row => checked "knowledge" (str_lower (Knowledge.d_sha row)) (Knowledge.d_json row))
                (py_sorted Knowledge.d_sha (Knowledge.documents g))
  end.

(** The history of a control plane, by line; fields that show the host's file system are removed. *)
Definition private_fields : list string := ["manifest"; "run_out"; "log_path"; "scheduler_tool"].
Definition safe_record (line : res value) : res string :=
  rec ← match line with
        | Raise e => if handled [JSONDecodeError] e then app_error "invalid control history line" else Raise e
        | r => r
        end;
  match rec with
  | VDict d => canonical_json (obj (List.filter (fun kv => negb (existsb (String.eqb (fst kv)) private_fields)) d))
  | _ => app_error "control history line is not an object"
  end.
Definition concat_text (l : list string) : string := str_join "" l.
(** [None] when the control plane is not initialised. *)
Definition collect_control_history (history : option (list (res value))) : res (list entry) :=
  match history with
  | None => app_error "control plane is not initialized"
  | Some lines =>
      records ← res_map safe_record lines;
      let payload := concat_text records in
      Ok (if str_empty payload then [] else [("control/history.ndjson", payload)])
  end.

(** [bytes.splitlines()]: at line feeds, carriage returns and both together. *)
Fixpoint bytes_lines (s cur : string) : list string :=
  match s with
  | EmptyString => if str_empty cur then [] else [cur]
  | String c s' =>
      if code c =? 10 then cur :: bytes_lines s' ""
      else if code c =? 13 then cur :: match s' with
        | String d s2 => if code d =? 10 then bytes_lines s2 "" else bytes_lines s' ""
        | EmptyString => []
        end
      else bytes_lines s' (cur +:+ String c "")
  end.
Definition manifest_material (manifest : dict value) : res string :=
  canonical_json (obj (List.filter (fun kv => negb (String.eqb (fst kv) "bundle_id")) manifest)).

Definition bundle_policy : dict value :=
  [("target_binaries_included", VBool false); ("live_control_state_included", VBool false); ("merge", VStr "content-addressed-idempotent")].
Definition listed (e : entry) : value :=
  obj [("path", VStr (fst e)); ("size", VInt (Z.of_nat (String.length (snd e)))); ("sha256", VStr (sha256_hex (snd e)))].

Definition count (n : nat) : value := VInt (Z.of_nat n).
Definition control_count (entries : list entry) : nat :=
  match entries with
  | [] => O
  | (_, payload) :: _ => length (List.filter (fun l => negb (str_empty (str_strip l))) (bytes_lines payload ""))
  end.
(** What an export collects: the entries, and the summary of each part. *)
Definition collect (evidence : option Evidence.store) (knowledge : option (option Knowledge.graph))
    (control : option (option (list (res value)))) : res (list entry * dict value) :=
  ev ← match evidence with Some s => l ← collect_evidence s; Ok (l, [("evidence", obj [("objects", count (length l))])]) | None => Ok ([], []) end;
  kg ← match knowledge with Some g => l ← collect_knowledge g; Ok (l, [("knowledge", obj [("documents", count (length l))])]) | None => Ok ([], []) end;
  cp ← match control with
       | Some h => l ← collect_control_history h; Ok (l, [("control_history", obj [("records", count (control_count l))])])
       | None => Ok ([], [])
       end;
  let components := snd ev ++ snd kg ++ snd cp in
  _ ← guard_app (match components with [] => false | _ => true end) "export requires at least one of --evidence, --knowledge, or --control";
  Ok (fst ev ++ fst kg ++ fst cp, components).

Definition regular_file : Z := 33188.
Definition archive_of (entries : list entry) (manifest : dict value) : list member :=
  ((fun e => Member (fst e) (snd e) regular_file) <$> entries) ++
  [Member "bundle.json" (json_indent (sort_keys (obj manifest)) +:+ sp 10) regular_file].

(** The manifest without its id. *)
Definition manifest_body (site_name : value) (generation : Z) (now : string) (components : dict value) (entries : list entry) : dict value :=
  [("schema", VStr BUNDLE_SCHEMA); ("replication_api", VInt REPLICATION_API_VERSION); ("source_site", site_name);
   ("generation", VInt generation); ("created_at", VStr now); ("components", obj components); ("files", VList (listed <$> entries));
   ("policy", obj bundle_policy)].
(** The bundle, its manifest, and the site with the next generation. *)
Definition build_bundle (out now : string) (evidence : option Evidence.store) (knowledge : option (option Knowledge.graph))
    (control : option (option (list (res value)))) : M site (dict value * list member) :=
  z ← gets id;
  state ← lift (load_state None z);
  generation ← lift (py_int (dget_or "next_generation" (VInt 1) state));
  _ ← lift (guard_app (1 <=? generation) "invalid next_generation in replication store");
  '(entries, components) ← lift (collect evidence knowledge control);
  let entries := py_sorted fst entries in
  site_name ← lift (vindex "site" (obj state));
  let body := manifest_body site_name generation now components entries in
  material ← lift (manifest_material body);
  let manifest := body ++ [("bundle_id", VStr (sha256_hex material))] in
  let last := obj [("generation", VInt generation); ("bundle_id", VStr (sha256_hex material)); ("path", VStr out); ("created_at", VStr now)] in
  _ ← modify (set_state (dset "last_export" last (dset "next_generation" (VInt (generation + 1)) state)));
  mret (manifest, archive_of entries manifest).

(** ** Verifying *)

Definition safe_member (name : string) : bool :=
  negb (str_empty name) && negb (str_startswith "/" name) && negb (existsb (String.eqb "..") (path_parts name)) && negb (str_mem "\" name).

(** [Path(s).name] and [Path(s).stem] *)
Definition path_name (s : string) : string := List.last (path_parts s) "".
Fixpoint last_dot (s : string) (i : nat) (found : option nat) : option nat :=
  match s with EmptyString => found | String c s => last_dot s (S i) (if Ascii.eqb c "." then Some i else found) end.
Definition stem (name : string) : string :=
  match last_dot name O None with
  | Some i => if (0 <? i)%nat && (i <? String.length name - 1)%nat then String.substring 0 i name else name
  | None => name
  end.

(** What opening the path of a bundle gives: no file, a damaged archive, or its size and its members. *)
Inductive bundle_file := NoFile | Damaged (e : exn) | Bundle (size : Z) (digest : string) (members : list member).
(** [zf.read(name)]: the last member of that name. *)
Definition read_member (name : string) (ms : list member) : option string :=
  m_data <$> List.find (fun m => String.eqb (m_name m) name) (rev ms).

Definition member_errors (m : member) : list string :=
  (if safe_member (m_name m) then [] else ["unsafe member path: " +:+ m_name m]) ++
  (if MAX_MEMBER_BYTES <? Z.of_nat (String.length (m_data m)) then ["member exceeds size limit: " +:+ m_name m] else []) ++
  (if Z.land (m_attr m) 61440 =? 40960 then ["symlink members are forbidden: " +:+ m_name m] else []).

Definition error_if (b : bool) (msg : string) : list string := if b then [msg] else [].

(** The errors of the manifest's own fields. *)
Definition generation_errors (manifest : dict value) : res (list string) :=
  match py_int (dget_or "generation" (VInt 0) manifest) with
  | Ok n => Ok (error_if (n <? 1) "generation must be >= 1")
  | Raise e => if handled [TypeError; ValueError] e then Ok ["invalid generation"] else Raise e
  end.
Definition header_errors (manifest : dict value) : res (list string) :=
  api ← py_int (dget_or "replication_api" (VInt (-1)) manifest);
  generation ← generation_errors manifest;
  material ← manifest_material manifest;
  Ok (error_if (negb (eq_str (dget_n "schema" manifest) BUNDLE_SCHEMA)) ("schema must be " +:+ BUNDLE_SCHEMA) ++
      error_if (negb (api =? REPLICATION_API_VERSION)) "unsupported replication_api" ++
      error_if (negb (site_re (py_str (dget_or "source_site" (VStr "") manifest)))) "site id must be 1..64 characters using A-Z a-z 0-9 . _ -" ++
      generation ++
      error_if (negb (eq_str (dget_n "bundle_id" manifest) (sha256_hex material))) "bundle_id mismatch").

(** A document named by its digest. *)
Definition content_errors (name raw : string) : res (list string) :=
  let leaf := stem (path_name name) in
  if negb (is_hex64 leaf) then Ok ["invalid content-addressed filename: " +:+ name]
  else match loads raw with
  | Raise e => if handled [JSONDecodeError] e then Ok ["invalid JSON object: " +:+ name] else Raise e
  | Ok doc => canonical ← canonical_json doc; Ok (error_if (negb (String.eqb (sha256_hex canonical) leaf)) ("semantic hash mismatch: " +:+ name))
  end.
Definition is_document (name : string) : bool := str_startswith "evidence/" name || str_startswith "knowledge/" name.
Definition item_errors (ms : list member) (actual : list string) (name : string) (item : dict value) : res (list string) :=
  if negb (safe_member name) then Ok ["unsafe declared path: " +:+ name]
  else if negb (existsb (String.eqb name) actual) then Ok ["missing member: " +:+ name]
  else
    let raw := default "" (read_member name ms) in
    content ← (if is_document name then content_errors name raw else Ok []);
    Ok (error_if (negb (py_eq (VInt (Z.of_nat (String.length raw))) (dget_n "size" item))) ("size mismatch: " +:+ name) ++
        error_if (negb (eq_str (dget_n "sha256" item) (sha256_hex raw))) ("hash mismatch: " +:+ name) ++ content).
(** One pass over the declared files: the names declared so far, and the errors. *)
Definition check_item (ms : list member) (actual : list string) (st : list string * list string) (item : value) : res (list string * list string) :=
  match item with
  | VDict d =>
      let name := py_str (dget_or "path" (VStr "") d) in
      more ← item_errors ms actual name d; Ok (name :: fst st, snd st ++ more)
  | _ => Ok (fst st, snd st ++ ["invalid file manifest entry"])
  end.

Definition is_false (v : value) : bool := match v with VBool false => true | _ => false end.
Definition check_manifest (ms : list member) (manifest : dict value) : res (list string) :=
  header ← header_errors manifest;
  let actual := List.filter (fun n => negb (String.eqb n "bundle.json")) (m_name <$> ms) in
  let '(files, shape) := match dget_n "files" manifest with VList l => (l, []) | _ => ([], ["files must be an array"]) end in
  '(declared, errors) ← res_fold (check_item ms actual) ([], []) files;
  let extra := py_sorted id (remove_dups (List.filter (fun n => negb (existsb (String.eqb n) declared)) actual)) in
  let policy := match dget_n "policy" manifest with VDict d => d | _ => [] end in
  Ok (header ++ shape ++ errors ++
      error_if (match extra with [] => false | _ => true end) ("undeclared bundle members: " +:+ str_join ", " extra) ++
      error_if (negb (is_false (dget_n "target_binaries_included" policy))) "bundle must declare target_binaries_included=false" ++
      error_if (negb (is_false (dget_n "live_control_state_included" policy))) "bundle must declare live_control_state_included=false").

Definition verify_members (ms : list member) : res (dict value * list string) :=
  match read_member "bundle.json" ms with
  | None => Ok ([], ["bundle.json is missing"])
  | Some text =>
      let names := m_name <$> ms in
      let before := error_if (negb (bool_decide (NoDup names))) "bundle contains duplicate member names" ++ flat_map member_errors ms in
      doc ← loads text;
      match doc with
      | VDict manifest => errors ← check_manifest ms manifest; Ok (manifest, before ++ errors)
      | _ => Ok ([], ["bundle manifest is not an object"])
      end
  end.
Definition verify_bundle (b : bundle_file) : res (dict value * list string) :=
  match b with
  | NoFile => Ok ([], ["bundle does not exist"])
  | Damaged e => if handled [OSError; JSONDecodeError; KeyError] e then Ok ([], ["cannot verify bundle: " +:+ exn_msg e]) else Raise e
  | Bundle size _ ms =>
      if MAX_BUNDLE_BYTES <? size then Ok ([], ["bundle exceeds size limit"])
      else match verify_members ms with
      | Raise e => if handled [OSError; JSONDecodeError; KeyError] e then Ok ([], ["cannot verify bundle: " +:+ exn_msg e]) else Raise e
      | r => r
      end
  end.

(** ** Importing *)

Definition receipt_path (name : string) (generation : Z) : string := name +:+ "/" +:+ zpad 20 generation +:+ ".json".
Definition history_path (name : string) (generation : Z) : string := name +:+ "/" +:+ zpad 20 generation +:+ ".ndjson".

(** The site and the stores it merges into. *)
Record world := World { w_site : site; w_evidence : Evidence.store; w_graph : option Knowledge.graph }.

Definition on_site {A} (m : M site A) : M world A := fun w =>
  let '(r, z) := m (w_site w) in (r, World z (w_evidence w) (w_graph w)).
(** The error class of another script is a [RuntimeError]. *)
Definition foreign {A} (r : res A) : res A :=
  match r with Raise e => Raise (if handled [AppError] e then Exn RuntimeError (exn_msg e) else e) | r => r end.
Definition on_evidence {A} (m : Evidence.SM A) : M world A := fun w =>
  let '(r, s) := m (w_evidence w) in (foreign r, World (w_site w) s (w_graph w)).
Definition on_graph {A} (m : Knowledge.G A) : M world A := fun w =>
  let '(r, g) := m (default Knowledge.empty_graph (w_graph w)) in (foreign r, World (w_site w) (w_evidence w) (Some g)).

(** The files unpacked for the two stores, in order, and the lines of the history. *)
Record staged := Staged { g_evidence : list entry; g_knowledge : list entry; g_lines : list string }.
Definition stage_file (ms : list member) (st : staged) (item : value) : res staged :=
  path ← vindex "path" item;
  match path with
  | VStr name =>
      match read_member name ms with
      | None => Raise (Exn KeyError name)
      | Some data =>
          if str_startswith "evidence/" name then Ok (Staged (g_evidence st ++ [(path_name name, data)]) (g_knowledge st) (g_lines st))
          else if str_startswith "knowledge/" name then Ok (Staged (g_evidence st) (g_knowledge st ++ [(path_name name, data)]) (g_lines st))
          else if String.eqb name "control/history.ndjson"
          then if valid_utf8 data then Ok (Staged (g_evidence st) (g_knowledge st) (text_lines data "")) else Raise (Exn UnicodeError "invalid utf-8")
          else Ok st
      end
  | _ => Raise (Exn KeyError (py_str path))
  end.
(** A file of the temporary directory holds what was written to its path last. *)
Definition content_of (files : list entry) (name : string) : string := default "" (snd <$> List.find (fun e => String.eqb (fst e) name) (rev files)).
Definition evidence_files (tmp : string) (files : list entry) : list Evidence.path_item :=
  (fun e => Evidence.Regular (Evidence.InFile (tmp +:+ "/evidence/" +:+ fst e) (Ok (content_of files (fst e))))) <$> files.
Definition knowledge_files (tmp : string) (files : list entry) : list Knowledge.input :=
  (fun e => let data := content_of files (fst e) in
     Knowledge.Input (tmp +:+ "/knowledge/" +:+ fst e) (sha256_hex data) (Z.of_nat (String.length data))
       (match loads data with Ok v => Some v | Raise _ => None end)) <$> files.

(** [--evidence] and [--knowledge] name the stores of the world when they are given. *)
Definition merge_evidence (given : bool) (tmp : string) (files : list entry) : M world (dict value) :=
  match files with
  | [] => mret [("objects", VInt 0); ("ingested", VInt 0)]
  | _ =>
      _ ← lift (guard_app given "bundle contains evidence; --evidence destination is required");
      t ← on_evidence (_ ← Evidence.init_store; Evidence.ingest (evidence_files tmp files) true);
      mret [("objects", count (length files)); ("ingested", count (length (Evidence.t_artifacts t)))]
  end.
Definition merge_knowledge (given : bool) (tmp : string) (files : list entry) : M world (dict value) :=
  match files with
  | [] => mret [("documents", VInt 0); ("ingested", VInt 0)]
  | _ =>
      _ ← lift (guard_app given "bundle contains knowledge; --knowledge destination is required");
      c ← on_graph (_ ← Knowledge.init_schema; Knowledge.ingest_paths (knowledge_files tmp files) None);
      mret [("documents", count (length files)); ("ingested", VInt (Knowledge.g_added c)); ("deduplicated", VInt (Knowledge.g_dedup c))]
  end.

Definition receipt (status site_name : string) (generation : Z) (id : string) (rest : dict value) : dict value :=
  [("schema", VStr RECEIPT_SCHEMA); ("status", VStr status); ("source_site", VStr site_name); ("generation", VInt generation);
   ("bundle_id", VStr id)] ++ rest.

Definition put_receipt (path : string) (doc : dict value) (z : site) : site := Site (z_state z) (dset path (Ok (obj doc)) (z_receipts z)) (z_history z).
Definition put_history (path text : string) (z : site) : site := Site (z_state z) (z_receipts z) (dset path text (z_history z)).

(** A bundle that is new to the site. *)
Definition merge_bundle (given_evidence given_knowledge : bool) (tmp now digest : string) (ms : list member) (manifest : dict value)
    (site_name : string) (generation : Z) (id : string) : M world (dict value) :=
  files ← lift (viter (dget_or "files" (VList []) manifest));
  st ← lift (res_fold (stage_file ms) (Staged [] [] []) files);
  ev ← merge_evidence given_evidence tmp (g_evidence st);
  kg ← merge_knowledge given_knowledge tmp (g_knowledge st);
  _ ← (match g_lines st with
       | [] => mret tt
       | lines => on_site (modify (put_history (history_path site_name generation) (str_join (sp 10) lines +:+ sp 10)))
       end);
  let doc := receipt "imported" site_name generation id
    [("replication_api", VInt REPLICATION_API_VERSION); ("bundle_sha256", VStr digest); ("imported_at", VStr now); ("evidence", obj ev);
     ("knowledge", obj kg); ("control_history", obj [("records", count (length (g_lines st)))])] in
  _ ← on_site (modify (put_receipt (receipt_path site_name generation) doc));
  mret doc.

Definition import_bundle (given_evidence given_knowledge : bool) (tmp now : string) (b : bundle_file) : M world (dict value) :=
  '(manifest, errors) ← lift (verify_bundle b);
  _ ← lift (guard_app (match errors with [] => true | _ => false end) ("bundle verification failed: " +:+ str_join "; " errors));
  site_name ← lift (vindex "source_site" (obj manifest)); let site_name := py_str site_name in
  generation ← lift (vindex "generation" (obj manifest)); generation ← lift (py_int generation);
  id ← lift (vindex "bundle_id" (obj manifest)); let id := py_str id in
  found ← gets (fun w => dget (receipt_path site_name generation) (z_receipts (w_site w)));
  match found with
  | Some file =>
      old ← lift (read_json file);
      _ ← lift (guard_app (eq_str (dget_n "bundle_id" old) id)
            ("replication conflict: site " +:+ site_name +:+ " generation " +:+ pretty generation +:+ " already imported with different bundle_id"));
      let part k := (k, dget_or k (obj []) old) in
      mret (receipt "already-imported" site_name generation id [part "evidence"; part "knowledge"; part "control_history"])
  | None =>
      match b with
      | Bundle _ digest ms => merge_bundle given_evidence given_knowledge tmp now digest ms manifest site_name generation id
      | _ => throw FileNotFoundError "bundle"
      end
  end.

(** ** Status *)

Definition max_generation (by_site : dict Z) (r : dict value) : res (dict Z) :=
  let name := py_str (let v := dget_n "source_site" r in if py_bool v then v else VStr "") in
  gen ← match py_int (dget_or "generation" (VInt 0) r) with
        | Raise e => if handled [TypeError; ValueError] e then Ok 0 else Raise e
        | r => r
        end;
  Ok (dset name (Z.max (default 0 (dget name by_site)) gen) by_site).
(** The receipts [glob("*/*.json")] finds, those that can be read. *)
Definition readable_receipts (z : site) : res (list (dict value)) :=
  let paths := py_sorted fst (List.filter (fun kv => negb (str_startswith "./" (fst kv)) && negb (str_startswith "../" (fst kv))) (z_receipts z)) in
  rows ← res_map (fun kv => match read_json (snd kv) with
                            | Ok d => Ok [d]
                            | Raise e => if handled [AppError] e then Ok [] else Raise e
                            end) paths;
  Ok (concat rows).
Definition status (state : dict value) (z : site) : res (dict value) :=
  rows ← readable_receipts z;
  by_site ← res_fold max_generation []
    ((fun d => [("source_site", dget_n "source_site" d); ("generation", dget_n "generation" d)]) <$> rows);
  site_name ← vindex "site" (obj state); next ← vindex "next_generation" (obj state);
  Ok [("schema", VStr STATUS_SCHEMA); ("replication_api", VInt REPLICATION_API_VERSION); ("site", site_name); ("next_generation", next);
      ("last_export", dget_n "last_export" state); ("imported_receipts", count (length rows));
      ("latest_generation_by_site", obj (py_sorted fst ((fun kv => (fst kv, VInt (snd kv))) <$> by_site)))].

(** ** The command *)

Inductive command :=
  | Init (name now : string)
  | Export (out now : string) (evidence : option Evidence.store) (knowledge : option (option Knowledge.graph))
      (control : option (option (list (res value))))
  | VerifyBundle (b : bundle_file)
  | Import (given_evidence given_knowledge : bool) (tmp now : string) (b : bundle_file)
  | Status.
(** The exit code, and the bundle an export writes. *)
Definition dispatch (c : command) : M world (Z * list member) :=
  match c with
  | Init name now => _ ← on_site (create_store name now); mret (0, [])
  | VerifyBundle b => '(_, errors) ← lift (verify_bundle b); mret (match errors with [] => 0 | _ => 1 end, [])
  | Export out now evidence knowledge control =>
      '(_, ms) ← on_site (build_bundle out now evidence knowledge control); mret (0, ms)
  | Import given_evidence given_knowledge tmp now b =>
      z ← gets w_site; _ ← lift (load_state None z);
      _ ← import_bundle given_evidence given_knowledge tmp now b; mret (0, [])
  | Status => z ← gets w_site; state ← lift (load_state None z); _ ← lift (status state z); mret (0, [])
  end.
Definition main (c : command) : M world (Z * list member) :=
  catch [AppError; OSError; ValueError; SqlError] (dispatch c) (fun _ => mret (2, [])).
