(* ===== verification/ReplicateProps.v ===== *)
(** * What replication guarantees

    A bundle that was exported verifies, and a bundle is merged once: the receipts are never
    rewritten, and a second bundle for the same site and generation changes nothing. *)
From Stdlib Require Import Ascii.
From S2P Require Import Members.
From S2P Require Import Knowledge.
From S2P Require Import Evidence EvidenceProps.
From S2P Require Import Replicate.

(** ** The names of members *)

Lemma hex_parts kind digest : str_mem "/" kind = false -> kind <> "" -> kind <> "." -> is_hex64 digest = true ->
  path_parts (kind +:+ "/" +:+ digest +:+ ".json") = [kind; digest +:+ ".json"].
Proof.
  intros Hk H1 H2 Hh. assert (Hl := is_hex64_length _ Hh). unfold is_hex64 in Hh. apply andb_true_iff in Hh as [_ Hh].
  apply hex_no_slash in Hh. change (kind +:+ "/" +:+ digest +:+ ".json") with (kind +:+ String "/" (digest +:+ ".json")).
  unfold path_parts. rewrite split_slash_component, split_slash_last by (done || by rewrite str_mem_app, Hh). rewrite !str_app_nil.
  cbn [List.filter]. apply String.eqb_neq in H1 as ->. apply String.eqb_neq in H2 as ->.
  assert (Hne : forall x, (String.length x < 5)%nat -> String.eqb (digest +:+ ".json") x = false).
  { intros x Hx. apply String.eqb_neq. intros <-. rewrite length_append in Hx. cbn in Hx. lia. }
  by rewrite (Hne "" ltac:(cbn; lia)), (Hne "." ltac:(cbn; lia)).
Qed.

(** The last dot of a name whose suffix holds the only one. *)
Lemma last_dot_app s t i f : str_mem "." s = false -> last_dot (s +:+ t) i f = last_dot t (i + String.length s) f.
Proof.
  revert i f. induction s as [|c s IH]; intros i f; cbn [str_mem]; [by rewrite Nat.add_0_r|].
  intros [Hc Hs]%orb_false_iff. rewrite Ascii.eqb_sym in Hc. rewrite str_app_cons. cbn [last_dot]. rewrite Hc, IH by done. f_equal. cbn. lia.
Qed.
Lemma hex_no_char c s : hex_char c = false -> str_forall hex_char s = true -> str_mem c s = false.
Proof.
  intros Hc. induction s as [|d s IH]; [done|]. cbn [str_forall str_mem]. intros [Hd Hs]%andb_true_iff. rewrite (IH Hs), orb_false_r.
  destruct (Ascii.eqb_spec c d) as [<-|]; congruence.
Qed.
Lemma hex_stem digest : is_hex64 digest = true -> stem (digest +:+ ".json") = digest.
Proof.
  intros Hh. assert (Hl := is_hex64_length _ Hh). unfold is_hex64 in Hh. apply andb_true_iff in Hh as [_ Hh].
  unfold stem. rewrite last_dot_app by (by apply hex_no_char). cbn [last_dot Ascii.eqb Bool.eqb].
  rewrite Nat.add_0_l, length_append, Hl. cbn [String.length Nat.add Nat.ltb Nat.leb Nat.sub andb]. rewrite <- Hl. apply substring_append.
Qed.


(** An entry of a bundle as an export makes it: a document under the digest of its text, or the history. *)
Definition kinds : list string := ["evidence"; "knowledge"].
Definition good_entry (e : entry) : Prop :=
  fst e = "control/history.ndjson" \/
  exists kind digest doc, kind ∈ kinds /\ is_hex64 digest = true /\ fst e = kind +:+ "/" +:+ digest +:+ ".json" /\ json_ok doc = true /\
    snd e = json_raw (sort_keys doc) +:+ sp 10 /\ sha256_hex (snd e) = digest.

Lemma kind_facts kind : kind ∈ kinds ->
  str_mem "/" kind = false /\ kind <> "" /\ kind <> "." /\ kind <> ".." /\ str_mem "\" kind = false /\ ascii_string kind = true /\
  (forall r, str_startswith "/" (kind +:+ r) = false) /\ (forall r, kind +:+ "/" +:+ r <> "bundle.json") /\
  (forall r, str_startswith "evidence/" (kind +:+ "/" +:+ r) || str_startswith "knowledge/" (kind +:+ "/" +:+ r) = true).
Proof.
  unfold kinds. rewrite !elem_of_cons, elem_of_nil. intros [->|[->|[]]]; split_and!; try done.
  - intros r. apply orb_true_iff. left. apply (prefix_append "evidence/").
  - intros r. apply orb_true_iff. right. apply (prefix_append "knowledge/").
Qed.

Lemma good_name e : good_entry e -> safe_member (fst e) = true /\ fst e <> "bundle.json" /\ ascii_string (fst e) = true.
Proof.
  intros [->|(kind&digest&doc&Hk&Hh&->&_)]; [done|].
  destruct (kind_facts kind Hk) as (K1&K2&K3&K4&K5&K6&K7&K8&_). split_and!; [|done|].
  - unfold safe_member. rewrite hex_parts, K7 by done. unfold is_hex64 in Hh. apply andb_true_iff in Hh as [Hl Hh]. apply Nat.eqb_eq in Hl.
    rewrite !str_mem_app, K5. rewrite (hex_no_char "\" digest) by done. cbn [str_mem Ascii.eqb Bool.eqb orb].
    apply String.eqb_neq in K4. cbn [existsb]. rewrite String.eqb_sym, K4.
    assert (Hne : String.eqb ".." (digest +:+ ".json") = false).
    { apply String.eqb_neq. intros E. apply (f_equal String.length) in E. rewrite length_append in E. cbn in E. lia. }
    rewrite Hne. destruct kind; [done|]. by rewrite str_app_cons.
  - unfold is_hex64 in Hh. apply andb_true_iff in Hh as [_ Hh]. rewrite !ascii_app, K6, (hex_ascii digest) by done. done.
Qed.

(** ** Contents *)

Lemma canonical_ok v : plain v = true -> canonical_json v = Ok (json_raw (sort_keys v) +:+ sp 10).
Proof. exact (canonical_plain v). Qed.
Lemma json_ok_dwf d : json_ok (VDict d) = true -> dwf d.
Proof. unfold json_ok. intros [_ H]%andb_true_iff. cbn [distinct_keys] in H. apply andb_true_iff in H as [H _]. by apply bool_decide_eq_true in H. Qed.
Lemma json_ok_plain v : json_ok v = true -> plain v = true.
Proof. unfold json_ok. by intros [? _]%andb_true_iff. Qed.

Lemma good_content e : good_entry e -> is_document (fst e) = true -> content_errors (fst e) (snd e) = Ok [].
Proof.
  intros [->|(kind&digest&doc&Hk&Hh&->&Hok&->&Hd)] Hdoc; [discriminate Hdoc|].
  destruct (kind_facts kind Hk) as (K1&K2&K3&_). unfold content_errors, path_name. rewrite hex_parts by done.
  cbn [List.last]. rewrite hex_stem, Hh by done. cbn [negb].
  pose proof (json_ok_sort_keys _ Hok) as Hs. rewrite loads_raw, canonical_ok by (done || by apply json_ok_plain).
  cbn [mbind res_bind]. by rewrite sort_keys_idem, Hd, String.eqb_refl.
Qed.

Lemma read_member_unique ms (m : member) : NoDup (m_name <$> ms) -> m ∈ ms -> read_member (m_name m) ms = Some (m_data m).
Proof. intros Hnd Hm. unfold read_member. by rewrite (find_last m_name). Qed.

(** The record of an entry in the manifest, as it is read back. *)
Definition listed_fields (e : entry) : dict value :=
  [("path", VStr (fst e)); ("sha256", VStr (sha256_hex (snd e))); ("size", VInt (Z.of_nat (String.length (snd e))))].
Lemma sorted_listed e : sort_keys (listed e) = VDict (listed_fields e).
Proof. done. Qed.

Section export.
Context (entries : list entry) (ms : list member).
Hypothesis entries_good : Forall good_entry entries.
Hypothesis entries_stored : forall e, e ∈ entries -> read_member (fst e) ms = Some (snd e).

Lemma good_item e : e ∈ entries -> item_errors ms (entries.*1) (fst e) (listed_fields e) = Ok [].
Proof.
  intros He. rewrite Forall_forall in entries_good. pose proof (entries_good e He) as Hg. destruct (good_name e Hg) as (Hs&_&_).
  unfold item_errors. rewrite Hs. cbn [negb].
  assert (Hx : existsb (String.eqb (fst e)) entries.*1 = true).
  { apply existsb_exists. exists (fst e). rewrite String.eqb_refl. split; [|done]. apply list_elem_of_In, list_elem_of_fmap. by exists e. }
  rewrite Hx, entries_stored by done. cbn [negb default from_option id]. cbv zeta.
  assert (Hc : (if is_document (fst e) then content_errors (fst e) (snd e) else Ok []) = Ok []).
  { destruct (is_document (fst e)) eqn:E; [by apply good_content|done]. }
  rewrite Hc. cbn [mbind res_bind listed_fields dget_n dget_or dget String.eqb Ascii.eqb Bool.eqb eq_str py_eq num_eq].
  change (eq_str (VStr ?a) ?b) with (String.eqb a b). by rewrite Z.eqb_refl, String.eqb_refl.
Qed.

Lemma good_items l declared : l ⊆ entries ->
  res_fold (check_item ms (entries.*1)) (declared, []) (sort_keys <$> (listed <$> l)) = Ok (rev (l.*1) ++ declared, []).
Proof.
  revert declared. induction l as [|e l IH]; intros declared Hl; [done|].
  cbn [fmap list_fmap res_fold]. rewrite sorted_listed.
  assert (He : check_item ms (entries.*1) (declared, []) (VDict (listed_fields e)) = Ok (fst e :: declared, [])).
  { unfold check_item. change (py_str (dget_or "path" (VStr "") (listed_fields e))) with (fst e). cbv zeta.
    by rewrite (good_item e) by (apply Hl; by left). }
  rewrite He. cbn [mbind res_bind]. rewrite IH by (intros x Hx; apply Hl; by right).
  cbn [rev fst snd app]. by rewrite <- app_assoc.
Qed.
End export.

(** ** The manifest *)

(** What a verifier reads of a manifest. *)
Definition manifest_read (name : string) (generation : Z) (now id : string) (components : dict value) (entries : list entry) : dict value :=
  [("bundle_id", VStr id); ("components", sort_keys (VDict components)); ("created_at", VStr now);
   ("files", VList (sort_keys <$> (listed <$> entries))); ("generation", VInt generation); ("policy", sort_keys (VDict bundle_policy));
   ("replication_api", VInt REPLICATION_API_VERSION); ("schema", VStr BUNDLE_SCHEMA); ("source_site", VStr name)].
Lemma sorted_manifest name generation now id components entries :
  sort_keys (VDict (manifest_body (VStr name) generation now components entries ++ [("bundle_id", VStr id)])) =
  VDict (manifest_read name generation now id components entries).
Proof. done. Qed.

Lemma read_material name generation now id components entries :
  sort_keys (VDict (List.filter (fun kv => negb (String.eqb (fst kv) "bundle_id")) (manifest_read name generation now id components entries))) =
  sort_keys (VDict (manifest_body (VStr name) generation now components entries)).
Proof.
  pose proof (sort_keys_idem (VDict (manifest_body (VStr name) generation now components entries))) as H.
  rewrite <- H at 1. done.
Qed.

Section manifest.
Context (name now : string) (generation : Z) (components : dict value) (entries : list entry).
Hypothesis name_ok : site_re name = true.
Hypothesis now_ascii : ascii_string now = true.
Hypothesis components_ok : json_ok (VDict components) = true.
Hypothesis entries_good : Forall good_entry entries.

Lemma site_ascii s : site_re s = true -> ascii_string s = true.
Proof.
  unfold site_re. intros [_ H]%andb_true_iff. revert H. unfold ascii_string. induction s as [|c s IH]; [done|]. cbn [str_forall].
  intros [Hc Hs]%andb_true_iff. rewrite (IH Hs), andb_true_r. revert Hc. destruct c as [[] [] [] [] [] [] [] []]; vm_compute; congruence.
Qed.

Lemma listed_ok e : good_entry e -> json_ok (listed e) = true.
Proof.
  intros Hg. destruct (good_name e Hg) as (_&_&Ha). unfold json_ok, listed. cbn [plain distinct_keys forallb fst snd]. rewrite Ha, sha256_ascii. done.
Qed.

Lemma manifest_ok id : ascii_string id = true ->
  json_ok (VDict (manifest_body (VStr name) generation now components entries ++ [("bundle_id", VStr id)])) = true.
Proof.
  intros Hid. unfold json_ok in components_ok |- *. apply andb_true_iff in components_ok as [Cp Cd].
  assert (Hf : forallb plain (listed <$> entries) = true /\ forallb distinct_keys (listed <$> entries) = true).
  { rewrite !forallb_forall. split; intros v Hv; apply list_elem_of_In, list_elem_of_fmap in Hv as (e&->&He);
      rewrite Forall_forall in entries_good; pose proof (listed_ok e (entries_good e He)) as Hj; unfold json_ok in Hj; by bool_prop. }
  destruct Hf as [Hf1 Hf2]. unfold manifest_body. cbn [app]. apply andb_true_iff. split.
  - change (plain (VDict ?d)) with (forallb (fun kv => ascii_string (fst kv) && plain (snd kv)) d). cbn [forallb fst snd].
    change (plain (VStr ?s)) with (ascii_string s). change (plain (VList ?l)) with (forallb plain l).
    rewrite (site_ascii _ name_ok), now_ascii, Cp, Hf1, Hid. done.
  - change (distinct_keys (VDict ?d)) with (bool_decide (NoDup (dkeys d)) && forallb (fun kv => distinct_keys (snd kv)) d).
    cbn [forallb fst snd]. change (distinct_keys (VList ?l)) with (forallb distinct_keys l). rewrite Cd, Hf2. done.
Qed.

(** The id a bundle gets, which is the one a verifier computes. *)
Definition bundle_id : string := sha256_hex (json_raw (sort_keys (VDict (manifest_body (VStr name) generation now components entries))) +:+ sp 10).
Lemma body_material : manifest_material (manifest_body (VStr name) generation now components entries) =
  Ok (json_raw (sort_keys (VDict (manifest_body (VStr name) generation now components entries))) +:+ sp 10).
Proof.
  unfold manifest_material. change (List.filter _ _) with (manifest_body (VStr name) generation now components entries).
  apply canonical_ok. pose proof (json_ok_plain _ (manifest_ok "" eq_refl)) as Hp.
  change (plain (VDict ?d)) with (forallb (fun kv => ascii_string (fst kv) && plain (snd kv)) d) in *.
  rewrite forallb_app in Hp. by apply andb_true_iff in Hp as [Hp _].
Qed.

Lemma read_header : 1 <= generation -> header_errors (manifest_read name generation now bundle_id components entries) = Ok [].
Proof.
  intros Hg. unfold header_errors, generation_errors, manifest_material.
  assert (Hm : canonical_json (VDict (List.filter (fun kv => negb (String.eqb (fst kv) "bundle_id")) (manifest_read name generation now bundle_id components entries)))
    = Ok (json_raw (sort_keys (VDict (manifest_body (VStr name) generation now components entries))) +:+ sp 10)).
  { rewrite canonical_ok, read_material; [done|]. pose proof (json_ok_plain _ (json_ok_sort_keys _ (manifest_ok bundle_id (sha256_ascii _)))) as Hp.
    rewrite sorted_manifest in Hp. revert Hp.
    change (plain (VDict ?d)) with (forallb (fun kv => ascii_string (fst kv) && plain (snd kv)) d).
    rewrite !forallb_forall. intros Hp x Hx. apply Hp. by apply List.filter_In in Hx as [Hx _]. }
  rewrite Hm. unfold manifest_read. cbn [dget_or dget_n dget String.eqb Ascii.eqb Bool.eqb mbind res_bind].
  change (py_int (VInt ?n)) with (Ok n). cbn [mbind res_bind]. change (eq_str (VStr ?a) ?b) with (String.eqb a b).
  change (py_str (VStr ?a)) with a. unfold bundle_id. rewrite !String.eqb_refl, name_ok.
  replace (generation <? 1) with false by (symmetry; apply Z.ltb_ge; lia). done.
Qed.
End manifest.

(** ** An exported bundle verifies *)

Lemma flat_map_nil {A B} (f : A -> list B) (l : list A) : (forall x, x ∈ l -> f x = []) -> flat_map f l = [].
Proof. induction l as [|x l IH]; intros Hf; [done|]. cbn. rewrite (Hf x) by (by left). apply IH. intros y Hy. apply Hf. by right. Qed.

Lemma extra_none (entries : list entry) :
  List.filter (fun n => negb (existsb (String.eqb n) (rev (entries.*1) ++ []))) (entries.*1) = [].
Proof.
  apply filter_nothing. intros n Hn. apply negb_false_iff, existsb_exists. exists n. rewrite String.eqb_refl, app_nil_r.
  split; [|done]. rewrite <- List.in_rev. by apply list_elem_of_In.
Qed.

Lemma member_fine m : safe_member (m_name m) = true -> Z.of_nat (String.length (m_data m)) <= MAX_MEMBER_BYTES ->
  m_attr m = regular_file -> member_errors m = [].
Proof.
  intros Hs Hl Ha. unfold member_errors. rewrite Hs, Ha. replace (MAX_MEMBER_BYTES <? _) with false by (symmetry; apply Z.ltb_ge; lia). done.
Qed.

Lemma archive_names entries manifest : m_name <$> archive_of entries manifest = entries.*1 ++ ["bundle.json"].
Proof. unfold archive_of. rewrite fmap_app, <- list_fmap_compose. done. Qed.

Lemma archive_distinct entries manifest : Forall good_entry entries -> NoDup (entries.*1) -> NoDup (m_name <$> archive_of entries manifest).
Proof.
  intros Hg Hnd. rewrite archive_names. apply NoDup_app. split_and!; [done| |apply NoDup_singleton].
  intros n Hn ->%list_elem_of_singleton. apply list_elem_of_fmap in Hn as (e&He&Hin). rewrite Forall_forall in Hg.
  destruct (good_name e (Hg e Hin)) as (_&Hb&_). congruence.
Qed.

Lemma archive_verifies name now generation components entries :
  site_re name = true -> ascii_string now = true -> json_ok (VDict components) = true -> Forall good_entry entries ->
  1 <= generation -> NoDup (entries.*1) ->
  let id := bundle_id name now generation components entries in
  let ms := archive_of entries (manifest_body (VStr name) generation now components entries ++ [("bundle_id", VStr id)]) in
  Forall (fun m => Z.of_nat (String.length (m_data m)) <= MAX_MEMBER_BYTES) ms ->
  verify_members ms = Ok (manifest_read name generation now id components entries, []).
Proof.
  intros Hname Hnow Hc Hg Hgen Hnd id ms Hsize.
  assert (Hnames : NoDup (m_name <$> ms)) by by apply archive_distinct.
  set (text := json_indent (sort_keys (VDict (manifest_body (VStr name) generation now components entries ++ [("bundle_id", VStr id)]))) +:+ sp 10).
  assert (Hbundle : read_member "bundle.json" ms = Some text).
  { apply (read_member_unique ms (Member "bundle.json" text regular_file)); [done|]. apply elem_of_app. right. by left. }
  assert (Hstored : forall e, e ∈ entries -> read_member (fst e) ms = Some (snd e)).
  { intros e He. apply (read_member_unique ms (Member (fst e) (snd e) regular_file)); [done|].
    apply elem_of_app. left. apply list_elem_of_fmap. by exists e. }
  unfold verify_members. rewrite Hbundle. rewrite bool_decide_eq_true_2 by done. cbn [negb error_if].
  assert (Hme : flat_map member_errors ms = []).
  { rewrite Forall_forall in Hg. rewrite Forall_forall in Hsize. apply flat_map_nil. intros m Hm. pose proof (Hsize m Hm) as Hl. apply elem_of_app in Hm as [(e&->&He)%list_elem_of_fmap| ->%list_elem_of_singleton].
    - destruct (good_name e (Hg e He)) as (Hs&_). by apply member_fine.
    - by apply member_fine. }
  rewrite Hme. unfold text.
  rewrite loads_indent by (apply json_ok_sort_keys, manifest_ok; [done..|apply sha256_ascii]).
  rewrite sorted_manifest. cbn [mbind res_bind]. unfold check_manifest. rewrite (read_header name now generation components entries : _ -> _ -> _ -> _ -> _ -> header_errors (manifest_read name generation now id components entries) = Ok []) by done.
  cbn [mbind res_bind]. cbv zeta.
  assert (Hact : List.filter (fun n => negb (String.eqb n "bundle.json")) (m_name <$> ms) = entries.*1).
  { unfold ms. rewrite archive_names, List.filter_app. cbn. rewrite app_nil_r. apply filter_everything. intros n (e&->&He)%list_elem_of_fmap.
    rewrite Forall_forall in Hg. destruct (good_name e (Hg e He)) as (_&Hb&_). by apply negb_true_iff, String.eqb_neq. }
  rewrite Hact. change (dget_n "files" _) with (VList (sort_keys <$> (listed <$> entries))). cbv iota beta.
  rewrite (good_items entries) by done. cbn [mbind res_bind]. by rewrite extra_none.
Qed.

Lemma archive_stored name now generation components entries : Forall good_entry entries -> NoDup (entries.*1) ->
  forall e, e ∈ entries ->
    read_member (fst e) (archive_of entries (manifest_body (VStr name) generation now components entries ++ [("bundle_id", VStr (bundle_id name now generation components entries))])) = Some (snd e).
Proof.
  intros Hg Hnd e He. apply (read_member_unique _ (Member (fst e) (snd e) regular_file)); [by apply archive_distinct|].
  apply elem_of_app. left. apply list_elem_of_fmap. by exists e.
Qed.

Lemma bundle_verifies name now generation components entries size digest :
  site_re name = true -> ascii_string now = true -> json_ok (VDict components) = true -> Forall good_entry entries ->
  1 <= generation -> NoDup (entries.*1) -> size <= MAX_BUNDLE_BYTES ->
  let id := bundle_id name now generation components entries in
  let ms := archive_of entries (manifest_body (VStr name) generation now components entries ++ [("bundle_id", VStr id)]) in
  Forall (fun m => Z.of_nat (String.length (m_data m)) <= MAX_MEMBER_BYTES) ms ->
  verify_bundle (Bundle size digest ms) = Ok (manifest_read name generation now id components entries, []).
Proof.
  intros Hname Hnow Hc Hg Hgen Hnd Hsize id ms Hms. cbn [verify_bundle].
  replace (MAX_BUNDLE_BYTES <? size) with false by (symmetry; apply Z.ltb_ge; lia). unfold ms, id. by rewrite archive_verifies.
Qed.

(** ** What an export collects *)

Definition plain_doc (r : res value) : Prop := forall v, r = Ok v -> json_ok v = true.
(** Documents without floats and outside ASCII, each stored under one digest. *)
Definition plain_evidence (s : Evidence.store) : Prop := forall d, Evidence.database s = Some d ->
  NoDup (str_lower <$> (Evidence.a_sha <$> Evidence.artifacts d)) /\ forall p text, dget p (Evidence.objects s) = Some text -> plain_doc (loads text).
Definition plain_knowledge (g : option Knowledge.graph) : Prop := forall g', g = Some g' ->
  NoDup (str_lower <$> (Knowledge.d_sha <$> Knowledge.documents g')) /\ forall d : Knowledge.doc_row, d ∈ Knowledge.documents g' -> plain_doc (Knowledge.d_json d).

Definition entry_name (kind digest : string) : string := kind +:+ "/" +:+ digest +:+ ".json".

Lemma checked_good kind digest parsed e : kind ∈ kinds -> plain_doc parsed -> checked kind digest parsed = Ok e ->
  good_entry e /\ fst e = entry_name kind digest.
Proof.
  intros Hk Hp. unfold checked. intros H. inv_res.
  destruct parsed as [v|ex]; [|by destruct (handled _ _)]. simplify_eq.
  match goal with H : canonical_json _ = Ok _ |- _ => rewrite canonical_ok in H by (apply json_ok_plain; by apply Hp) end. simplify_eq.
  split; [|done]. right. eexists kind, digest, _. split_and!; [done|done|done|by apply Hp|done|]. by apply String.eqb_eq.
Qed.

(** Entries of one kind, with distinct names. *)
Definition of_kind (kind : string) (l : list entry) : Prop :=
  Forall good_entry l /\ NoDup (l.*1) /\ Forall (fun e => exists digest, fst e = entry_name kind digest) l.

Lemma collected_kind {A} kind (f : A -> res entry) (digest : A -> string) l l' : NoDup (digest <$> l) ->
  (forall x e, x ∈ l -> f x = Ok e -> good_entry e /\ fst e = entry_name kind (digest x)) ->
  res_map f l = Ok l' -> of_kind kind l'.
Proof.
  intros Hnd Hf H. assert (Hn : Forall good_entry l' /\ l'.*1 = entry_name kind <$> (digest <$> l)).
  { revert l' H. induction l as [|x l IH]; intros l' H; cbn in H; [by simplify_eq|]. inv_res.
    destruct (Hf x x0) as [Hg Hx]; [by left|done|]. destruct (IH (NoDup_cons_1_2 _ _ Hnd) ltac:(intros; apply Hf; [by right|done]) x1) as [Hg' Hx']; [done|].
    split; [by constructor|]. cbn. by rewrite Hx, Hx'. }
  destruct Hn as [Hg Hn]. split_and!; [done| |].
  - rewrite Hn. apply NoDup_fmap_2_strong; [|done]. intros a b _ _. unfold entry_name. intros Heq.
    rewrite <- !str_app_assoc in Heq. apply append_inj_r in Heq as [Heq _]; [|done]. rewrite !str_app_assoc in Heq.
    apply (inj (String.append kind)) in Heq. by apply (inj (String.append "/")) in Heq.
  - apply Forall_forall. intros e He. assert (Hx : fst e ∈ l'.*1) by (apply list_elem_of_fmap; by exists e).
    rewrite Hn in Hx. apply list_elem_of_fmap in Hx as (s&Hs&_). by exists s.
Qed.

Lemma collect_evidence_good s l : plain_evidence s -> collect_evidence s = Ok l -> of_kind "evidence" l.
Proof.
  unfold collect_evidence. intros Hp. destruct (Evidence.database s) as [d|] eqn:Hd; [|done]. destruct (Hp d Hd) as [Hnd Hdoc].
  apply (collected_kind "evidence" _ str_lower).
  - by rewrite py_sorted_perm.
  - intros row e Hrow H. cbv zeta in H. inv_res. destruct (dget _ _) as [text|] eqn:E; [|done].
    eapply checked_good; [by left|by eapply Hdoc|done].
Qed.
Lemma collect_knowledge_good g l : plain_knowledge g -> collect_knowledge g = Ok l -> of_kind "knowledge" l.
Proof.
  unfold collect_knowledge. intros Hp. destruct g as [g|]; [|done]. destruct (Hp g eq_refl) as [Hnd Hdoc].
  apply (collected_kind "knowledge" _ (fun d => str_lower (Knowledge.d_sha d))).
  - rewrite <- list_fmap_compose in Hnd. by rewrite py_sorted_perm.
  - intros d e Hd%elem_of_py_sorted H. eapply checked_good; [by right; left|by apply Hdoc|done].
Qed.
Lemma collect_history_good h l : collect_control_history h = Ok l ->
  Forall good_entry l /\ NoDup (l.*1) /\ Forall (fun e => fst e = "control/history.ndjson") l.
Proof.
  unfold collect_control_history. destruct h as [lines|]; [|done]. intros H. inv_res. case_bool; [by split_and!; constructor|].
  split_and!; [by apply Forall_singleton; left|apply NoDup_singleton|by apply Forall_singleton].
Qed.

Definition plain_stores (evidence : option Evidence.store) (knowledge : option (option Knowledge.graph)) : Prop :=
  (forall s, evidence = Some s -> plain_evidence s) /\ (forall g, knowledge = Some g -> plain_knowledge g).

Lemma of_kind_nil kind : of_kind kind [].
Proof. split_and!; constructor. Qed.

Lemma collect_good evidence knowledge control entries components : plain_stores evidence knowledge ->
  collect evidence knowledge control = Ok (entries, components) ->
  Forall good_entry entries /\ NoDup (entries.*1) /\ json_ok (VDict components) = true.
Proof.
  intros [He Hk] H. unfold collect in H.
  apply res_bind_Ok in H as ([ev ec]&H1&H). apply res_bind_Ok in H as ([kg kc]&H2&H). apply res_bind_Ok in H as ([cp cc]&H3&H).
  cbn [fst snd] in H. inv_res.
  assert (E1 : of_kind "evidence" ev /\ (ec = [] \/ exists n, ec = [("evidence", VDict [("objects", count n)])])).
  { destruct evidence as [s|]; inv_res; simplify_eq; [|by split; [apply of_kind_nil|left]]. split; [by eapply collect_evidence_good; [apply He|]|]. right. eauto. }
  assert (E2 : of_kind "knowledge" kg /\ (kc = [] \/ exists n, kc = [("knowledge", VDict [("documents", count n)])])).
  { destruct knowledge as [g|]; inv_res; simplify_eq; [|by split; [apply of_kind_nil|left]]. split; [by eapply collect_knowledge_good; [apply Hk|]|]. right. eauto. }
  assert (E3 : (Forall good_entry cp /\ NoDup (cp.*1) /\ Forall (fun e => fst e = "control/history.ndjson") cp) /\
    (cc = [] \/ exists n, cc = [("control_history", VDict [("records", count n)])])).
  { destruct control as [h|]; inv_res; simplify_eq; [|by split; [split_and!; constructor|left]]. split; [by eapply collect_history_good|]. right. eauto. }
  destruct E1 as [(G1&N1&K1) C1], E2 as [(G2&N2&K2) C2], E3 as [(G3&N3&K3) C3]. split_and!.
  - by rewrite !Forall_app.
  - rewrite !fmap_app. apply NoDup_app. split_and!; [done| |apply NoDup_app; split_and!; [done| |done]].
    + intros n (e&->&Hin)%list_elem_of_fmap. rewrite Forall_forall in K1. destruct (K1 e Hin) as (i&Hi). rewrite Hi.
      rewrite elem_of_app, !list_elem_of_fmap. rewrite Forall_forall in K2. rewrite Forall_forall in K3.
      intros [(e'&E&Hin')|(e'&E&Hin')]; [destruct (K2 e' Hin') as (j&Hj); rewrite Hj in E|rewrite (K3 e' Hin') in E]; discriminate E.
    + intros n (e&->&Hin)%list_elem_of_fmap. rewrite Forall_forall in K2. destruct (K2 e Hin) as (i&Hi). rewrite Hi.
      rewrite list_elem_of_fmap. rewrite Forall_forall in K3. intros (e'&E&Hin'). rewrite (K3 e' Hin') in E. discriminate E.
  - destruct C1 as [->|[n1 ->]], C2 as [->|[n2 ->]], C3 as [->|[n3 ->]]; done.
Qed.

(** What a state file that loads holds. *)
Lemma load_state_inv expected z s : load_state expected z = Ok s ->
  exists n, z_state z = Some (Ok (VDict s)) /\ eq_str (dget_n "schema" s) STORE_SCHEMA = true /\
    py_int (dget_or "replication_api" (VInt (-1)) s) = Ok n /\ (n =? REPLICATION_API_VERSION) = true /\
    site_re (py_str (dget_or "site" (VStr "") s)) = true.
Proof.
  unfold load_state, validate_site. intros H.
  destruct (z_state z) as [[v|e]|]; cbn [read_json] in H; [|by destruct (handled _ _)|done].
  destruct v; try done. cbn [mbind res_bind] in H. inv_res.
  destruct (eq_str _ _) eqn:E; inv_res; simplify_eq. destruct (site_re _) eqn:Es; [|done]. eauto 10.
Qed.
(** The other fields may change. *)
Lemma load_state_kept expected z s s' name : load_state expected z = Ok s -> dget "site" s = Some (VStr name) ->
  (forall k, k ∈ ["schema"; "replication_api"; "site"] -> dget k s' = dget k s) -> load_state (Some name) (set_state s' z) = Ok s'.
Proof.
  intros (n&_&H1&H2&H3&H4)%load_state_inv Hn Hk. unfold load_state. cbn [z_state set_state read_json mbind res_bind].
  unfold dget_n, dget_or in *. rewrite !Hk by set_solver. rewrite H1, H2. cbn [mbind res_bind]. rewrite H3. cbn [guard_app mbind res_bind].
  rewrite Hn in *. unfold validate_site. rewrite H4. cbn [mbind res_bind]. change (eq_str (VStr name) name) with (String.eqb name name).
  by rewrite String.eqb_refl.
Qed.

(** What an export writes. *)
Lemma export_shape out now evidence knowledge control z state name manifest ms z' :
  z_state z = Some (Ok (VDict state)) -> dget "site" state = Some (VStr name) -> ascii_string now = true ->
  plain_stores evidence knowledge -> build_bundle out now evidence knowledge control z = (Ok (manifest, ms), z') ->
  exists generation components collected, let entries := py_sorted fst collected in
    collect evidence knowledge control = Ok (collected, components) /\ 1 <= generation /\ site_re name = true /\
    json_ok (VDict components) = true /\ Forall good_entry entries /\ NoDup (entries.*1) /\
    manifest = manifest_body (VStr name) generation now components entries ++ [("bundle_id", VStr (bundle_id name now generation components entries))] /\
    ms = archive_of entries manifest /\ exists last, z' = set_state (dset "last_export" last (dset "next_generation" (VInt (generation + 1)) state)) z /\
    load_state None z = Ok state.
Proof.
  intros Hz Hname Hnow Hp Hb. unfold build_bundle, mbind, M_bind, gets, lift, id in Hb.
  destruct (load_state None z) as [s|] eqn:Hl; [|done]. destruct (load_state_inv _ _ _ Hl) as (n&Hs&_&_&_&Hre). rewrite Hz in Hs. simplify_eq.
  destruct (py_int _) as [generation|] eqn:Hgen; [|done]. destruct (1 <=? generation) eqn:Hg; [|done]. cbn [guard_app] in Hb.
  destruct (collect _ _ _) as [[collected components]|] eqn:Hc; [|done]. destruct (collect_good _ _ _ _ _ Hp Hc) as (Hgood&Hnd&Hcomp).
  cbn [vindex] in Hb. rewrite Hname in Hb. unfold dget_or in Hre. rewrite Hname in Hre. cbn [py_str] in Hre.
  assert (Hgood' : Forall good_entry (py_sorted fst collected)) by by rewrite py_sorted_perm.
  assert (Hnd' : NoDup ((py_sorted fst collected).*1)) by by rewrite py_sorted_perm.
  rewrite body_material in Hb by done. unfold modify, mret, M_ret in Hb. injection Hb as <- <- <-. apply Z.leb_le in Hg.
  exists generation, components, collected. cbv zeta. split_and!; [done..|]. eexists. by split.
Qed.

(** A bundle exported from stores of plain documents verifies without an error, whatever the
    other side knows, within the size limits: verification reads back the manifest that was
    written, and the site's next export has the next generation. *)
Theorem export_verifies out now evidence knowledge control z state name manifest ms z' size digest :
  z_state z = Some (Ok (VDict state)) -> dget "site" state = Some (VStr name) -> ascii_string now = true ->
  plain_stores evidence knowledge ->
  build_bundle out now evidence knowledge control z = (Ok (manifest, ms), z') ->
  size <= MAX_BUNDLE_BYTES -> Forall (fun m => Z.of_nat (String.length (m_data m)) <= MAX_MEMBER_BYTES) ms ->
  exists manifest' generation, VDict manifest' = sort_keys (VDict manifest) /\ verify_bundle (Bundle size digest ms) = Ok (manifest', []) /\
    dget_n "generation" manifest' = VInt generation /\ 1 <= generation /\ dget_n "source_site" manifest' = VStr name /\
    exists state', load_state (Some name) z' = Ok state' /\ dget "next_generation" state' = Some (VInt (generation + 1)).
Proof.
  intros Hz Hname Hnow Hp Hb Hsize Hms.
  destruct (export_shape _ _ _ _ _ _ _ _ _ _ _ Hz Hname Hnow Hp Hb) as (generation&components&collected&_&Hg&Hre&Hcomp&Hgood&Hnd&->&->&last&->&Hl).
  eexists _, generation. split_and!; [symmetry; apply sorted_manifest| |done|done|done|].
  - by apply bundle_verifies.
  - eexists. split; [eapply load_state_kept; [exact Hl|done|]|].
    + intros k Hk. rewrite !dget_dset. rewrite !elem_of_cons, elem_of_nil in Hk. destruct Hk as [->|[->|[->|[]]]]; done.
    + by rewrite dget_dset_ne, dget_dset_eq.
Qed.

(** ** A bundle is merged once *)

Definition receipts (w : world) : dict (res value) := z_receipts (w_site w).

(** A computation that writes no receipt. *)
Definition no_receipt {A} (m : M world A) : Prop := forall w, receipts (snd (m w)) = receipts w.
Lemma no_receipt_bind {A B} (m : M world A) (f : A -> M world B) : no_receipt m -> (forall a, no_receipt (f a)) -> no_receipt (m ≫= f).
Proof. intros Hm Hf w. unfold mbind, M_bind. specialize (Hm w). destruct (m w) as [[a|e] w']; cbn in *; [by rewrite Hf|done]. Qed.
Lemma no_receipt_lift {A} (r : res A) : no_receipt (lift r).
Proof. done. Qed.
Lemma no_receipt_ret {A} (x : A) : no_receipt (mret x).
Proof. done. Qed.
Lemma no_receipt_evidence {A} (m : Evidence.SM A) : no_receipt (on_evidence m).
Proof. intros w. unfold on_evidence. by destruct (m (w_evidence w)). Qed.
Lemma no_receipt_graph {A} (m : Knowledge.G A) : no_receipt (on_graph m).
Proof. intros w. unfold on_graph. by destruct (m _). Qed.
#[local] Hint Resolve no_receipt_bind no_receipt_lift no_receipt_ret no_receipt_evidence no_receipt_graph : ppc.

Lemma no_receipt_merge_evidence given tmp files : no_receipt (merge_evidence given tmp files).
Proof. unfold merge_evidence. destruct files; auto with ppc. Qed.
Lemma no_receipt_merge_knowledge given tmp files : no_receipt (merge_knowledge given tmp files).
Proof. unfold merge_knowledge. destruct files; auto with ppc. Qed.

(** A merge that ends writes one receipt, for its site and generation; one that fails writes none. *)
Lemma merge_receipts ge gk tmp now digest ms manifest name generation id w :
  match merge_bundle ge gk tmp now digest ms manifest name generation id w with
  | (Ok doc, w') => dget "bundle_id" doc = Some (VStr id) /\ dget "status" doc = Some (VStr "imported") /\
      receipts w' = dset (receipt_path name generation) (Ok (VDict doc)) (receipts w)
  | (Raise _, w') => receipts w' = receipts w
  end.
Proof.
  unfold merge_bundle, mbind, M_bind, lift. destruct (viter _) as [files|]; [|done].
  destruct (res_fold _ _ _) as [st|]; [|done].
  pose proof (no_receipt_merge_evidence ge tmp (g_evidence st) w) as H1. destruct (merge_evidence _ _ _ w) as [[ev|] w1]; cbn [snd] in H1; [|done].
  pose proof (no_receipt_merge_knowledge gk tmp (g_knowledge st) w1) as H2. destruct (merge_knowledge _ _ _ w1) as [[kg|] w2]; cbn [snd] in H2; [|congruence].
  unfold on_site, modify. destruct (g_lines st); cbn; (split; [done|split; [done|]]); unfold receipts in *; cbn; congruence.
Qed.

(** What a verified bundle says it is. *)
Definition claims (b : bundle_file) (name : string) (generation : Z) (id : string) : Prop :=
  exists manifest, verify_bundle b = Ok (manifest, []) /\ exists s g i, dget "source_site" manifest = Some s /\ py_str s = name /\
    dget "generation" manifest = Some g /\ py_int g = Ok generation /\ dget "bundle_id" manifest = Some i /\ py_str i = id.

Lemma import_claims ge gk tmp now b w : match import_bundle ge gk tmp now b w with
  | (Ok doc, w') => exists name generation id, claims b name generation id /\
      exists file, dget (receipt_path name generation) (receipts w') = Some file /\
        exists old, read_json file = Ok old /\ eq_str (dget_n "bundle_id" old) id = true
  | (Raise _, w') => receipts w' = receipts w
  end /\ forall p file, dget p (receipts w) = Some file -> dget p (receipts (snd (import_bundle ge gk tmp now b w))) = Some file.
Proof.
  unfold import_bundle. unfold mbind at 1, M_bind at 1, lift at 1. destruct (verify_bundle b) as [[manifest errors]|] eqn:Hv; [|done].
  unfold mbind, M_bind, lift, gets. destruct errors as [|e errors]; [|done]. cbn [guard_app vindex].
  destruct (dget "source_site" manifest) as [s|] eqn:Hs; [|done]. destruct (dget "generation" manifest) as [g|] eqn:Hg; [|done].
  destruct (py_int g) as [generation|] eqn:Hn; [|done]. destruct (dget "bundle_id" manifest) as [i|] eqn:Hi; [|done]. cbv zeta.
  assert (Hc : claims b (py_str s) generation (py_str i)) by (exists manifest; split; [done|]; exists s, g, i; done).
  destruct (dget (receipt_path _ _) _) as [file|] eqn:Hf.
  - destruct (read_json file) as [old|] eqn:Ho; [|done]. destruct (eq_str _ _) eqn:E; [|done]. cbn.
    split; [|done]. eexists _, _, _. split; [exact Hc|]. eauto 10.
  - destruct b as [|e|size digest ms]; [done|done|].
    pose proof (merge_receipts ge gk tmp now digest ms manifest (py_str s) generation (py_str i) w) as Hm.
    destruct (merge_bundle _ _ _ _ _ _ _ _ _ _ w) as [[doc|] w']; cbn [snd].
    + destruct Hm as (Hd&_&->). split.
      * eexists _, _, _. split; [exact Hc|]. eexists. rewrite dget_dset_eq. split; [done|]. exists doc. split; [done|].
        unfold dget_n, dget_or. rewrite Hd. apply String.eqb_refl.
      * intros p file Hp. rewrite dget_dset_ne; [done|]. intros ->. unfold receipts in Hp. congruence.
    + by rewrite Hm.
Qed.

Lemma site_receipts out now ev kg cp z : z_receipts (snd (build_bundle out now ev kg cp z)) = z_receipts z.
Proof.
  unfold build_bundle, mbind, M_bind, gets, lift, id. destruct (load_state _ _) as [state|]; [|done].
  destruct (py_int _); [|done]. destruct (guard_app _ _); [|done]. destruct (collect _ _ _) as [[entries components]|]; [|done].
  destruct (vindex _ _); [|done]. by destruct (manifest_material _).
Qed.

Lemma main_keeps_receipts c w p file : dget p (receipts w) = Some file -> dget p (receipts (snd (main c w))) = Some file.
Proof.
  intros Hp. unfold main, catch.
  assert (H : dget p (receipts (snd (dispatch c w))) = Some file).
  { destruct c as [name now|out now ev kg cp|b|ge gk tmp now b|]; cbn [dispatch]; unfold mbind, M_bind, lift, gets.
    - unfold on_site, create_store, mbind, M_bind, lift, gets, modify. destruct (validate_site _); [|done].
      destruct (z_state (w_site w)); by destruct (load_state _ _).
    - pose proof (site_receipts out now ev kg cp (w_site w)) as Hr. unfold on_site. destruct (build_bundle _ _ _ _ _ _) as [[[m ms]|] z]; cbn in Hr |- *;
        unfold receipts in *; cbn; congruence.
    - by destruct (verify_bundle b) as [[]|].
    - destruct (load_state _ _); [|done]. pose proof (proj2 (import_claims ge gk tmp now b w) p file Hp) as Hi.
      by destruct (import_bundle _ _ _ _ _ _) as [[]].
    - destruct (load_state _ _); [|done]. by destruct (status _ _). }
  destruct (dispatch c w) as [[r|e] w']; [done|]. by destruct (handled _ _).
Qed.

(** A sequence of commands, each run to its end. *)
Definition run_all (cs : list command) (w : world) : world := fold_left (fun w c => snd (main c w)) cs w.
Lemma run_keeps_receipts cs w p file : dget p (receipts w) = Some file -> dget p (receipts (run_all cs w)) = Some file.
Proof. revert w. induction cs as [|c cs IH]; intros w Hp; [done|]. cbn. by apply IH, main_keeps_receipts. Qed.

(** A bundle is merged at most once.  After an import that returned and any further commands, a
    bundle for the same site and generation changes nothing: it is answered as already imported when
    it has the same id, and refused as a conflict when it has another. *)
Theorem import_is_final ge gk tmp now b w doc w1 name generation id cs ge' gk' tmp' now' b' id' :
  import_bundle ge gk tmp now b w = (Ok doc, w1) -> claims b name generation id -> claims b' name generation id' ->
  let w2 := run_all cs w1 in
  exists r, import_bundle ge' gk' tmp' now' b' w2 = (r, w2) /\
    if decide (id = id') then exists doc', r = Ok doc' /\ dget "status" doc' = Some (VStr "already-imported") /\ dget "bundle_id" doc' = Some (VStr id)
    else exists e, r = Raise e /\ exn_class e = AppError.
Proof.
  intros Hi Hc (m'&Hv'&s'&g'&i'&Hs'&Es'&Hg'&Eg'&Hi'&Ei') w2.
  pose proof (proj1 (import_claims ge gk tmp now b w)) as H1. rewrite Hi in H1.
  destruct H1 as (n1&g1&id1&(m1&Hv1&s1&gv1&i1&Hs1&Es1&Hg1&Eg1&Hi1&Ei1)&file&Hf&old&Ho&Eo).
  destruct Hc as (m&Hv&s&g&i&Hs&Es&Hg&Eg&Hid&Eid). rewrite Hv in Hv1. simplify_eq. assert (g1 = generation) as -> by congruence.
  apply (run_keeps_receipts cs) in Hf. fold w2 in Hf. unfold import_bundle, mbind, M_bind, lift, gets. rewrite Hv'. cbn [guard_app vindex].
  rewrite Hs', Hg', Eg', Hi'. cbv zeta. change (z_receipts (w_site w2)) with (receipts w2). rewrite Es', Hf, Ho.
  assert (Eo' : eq_str (dget_n "bundle_id" old) (py_str i') = bool_decide (py_str i = py_str i')).
  { apply eq_str_true in Eo. rewrite Eo. change (eq_str (VStr ?a) ?b) with (String.eqb a b). case_bool_decide as E; [rewrite E; apply String.eqb_refl|by apply String.eqb_neq]. }
  rewrite Eo'. destruct (decide (py_str i = py_str i')) as [E|E].
  - rewrite bool_decide_eq_true_2 by done. eexists. split; [reflexivity|]. eexists. split; [done|]. split; [done|]. cbn. by rewrite E.
  - rewrite bool_decide_eq_false_2 by done. eexists. split; [reflexivity|]. by eexists.
Qed.

(** ** What was exported arrives *)

Definition unpacked (e : entry) : entry := (path_name (fst e), snd e).
Definition is_evidence_name (e : entry) : bool := str_startswith "evidence/" (fst e).

(** Unpacking a verified archive keeps every document. *)
Lemma stage_entries entries ms l st st' : (forall e, e ∈ entries -> read_member (fst e) ms = Some (snd e)) -> l ⊆ entries ->
  res_fold (stage_file ms) st (sort_keys <$> (listed <$> l)) = Ok st' ->
  g_evidence st' = g_evidence st ++ (unpacked <$> List.filter is_evidence_name l).
Proof.
  intros Hs. revert st. induction l as [|e l IH]; intros st Hl H; [injection H as <-; by rewrite app_nil_r|].
  cbn [fmap list_fmap res_fold] in H. rewrite sorted_listed in H. apply res_bind_Ok in H as (st1&H1&H).
  unfold stage_file in H1. change (vindex "path" (VDict (listed_fields e))) with (Ok (VStr (fst e))) in H1. cbn [mbind res_bind] in H1.
  rewrite (Hs e) in H1 by (apply Hl; by left). rewrite (IH st1) by (done || (intros x Hx; apply Hl; by right)).
  cbn [List.filter]. unfold is_evidence_name at 2. destruct (str_startswith "evidence/" (fst e)).
  - injection H1 as <-. cbn. by rewrite <- app_assoc.
  - destruct (str_startswith "knowledge/" (fst e)); [by injection H1 as <-|]. destruct (String.eqb _ _); [|by injection H1 as <-].
    destruct (valid_utf8 _); [|done]. by injection H1 as <-.
Qed.

Lemma content_unique (files : list entry) (e : entry) : NoDup (files.*1) -> e ∈ files -> content_of files (fst e) = snd e.
Proof. intros Hnd He. unfold content_of. by rewrite (find_last fst). Qed.

Lemma evidence_name e : good_entry e -> is_evidence_name e = true -> fst e = "evidence/" +:+ fst (unpacked e).
Proof.
  unfold is_evidence_name, unpacked, path_name. cbn [fst]. intros [->|(kind&digest&doc&Hk&Hh&->&_)] He; [discriminate He|].
  destruct (kind_facts kind Hk) as (K1&K2&K3&_). rewrite hex_parts by done. cbn [List.last].
  unfold kinds in Hk. rewrite !elem_of_cons, elem_of_nil in Hk. destruct Hk as [->|[->|[]]]; [done|discriminate He].
Qed.
Lemma unpacked_distinct entries : Forall good_entry entries -> NoDup (entries.*1) -> NoDup ((unpacked <$> List.filter is_evidence_name entries).*1).
Proof.
  intros Hg Hnd. rewrite <- list_fmap_compose.
  assert (Hn : (List.filter is_evidence_name entries).*1 = String.append "evidence/" <$> ((fst ∘ unpacked) <$> List.filter is_evidence_name entries)).
  { rewrite <- list_fmap_compose. apply list_fmap_ext. intros i e He. apply list_elem_of_lookup_2, list_elem_of_In, List.filter_In in He as [Hin He].
    rewrite Forall_forall in Hg. apply evidence_name; [|done]. apply Hg. by apply list_elem_of_In. }
  eapply (NoDup_fmap_1 (String.append "evidence/")). rewrite <- Hn. clear Hn Hg. induction entries as [|e l IH]; [constructor|].
  cbn in Hnd. apply NoDup_cons in Hnd as [Hne Hnd]. cbn [List.filter]. destruct (is_evidence_name e); [|by apply IH].
  cbn. apply NoDup_cons. split; [|by apply IH]. intros (x&Hx&Hin)%list_elem_of_fmap. apply Hne. rewrite Hx.
  apply list_elem_of_fmap. exists x. split; [done|]. apply list_elem_of_In in Hin. apply List.filter_In in Hin as [Hin _]. by apply list_elem_of_In.
Qed.

(** Merging evidence that succeeds indexes every file. *)
Lemma merge_indexes C tmp files w r w' e doc text : store_ok C (w_evidence w) -> merge_evidence true tmp files w = (Ok r, w') ->
  NoDup (files.*1) -> e ∈ files -> loads (snd e) = Ok (VDict doc) -> Evidence.is_evidence (VDict doc) = Some doc -> Evidence._canonical (VDict doc) = Ok text ->
  store_ok C (w_evidence w') /\ exists a : Evidence.artifact, a ∈ Evidence.artifacts (the_db (w_evidence w')) /\ Evidence.a_sha a = sha256_hex text.
Proof.
  intros Hi H Hnd He Hdoc Hev Htext. unfold merge_evidence in H. destruct files as [|e0 files]; [by apply not_elem_of_nil in He|].
  set (fs := e0 :: files) in *. cbn [guard_app] in H. unfold mbind at 1, M_bind at 1, lift in H.
  unfold mbind at 1, M_bind at 1, on_evidence in H.
  unfold mbind at 1, M_bind at 1 in H.
  change (Evidence.init_store (w_evidence w)) with (Ok tt, snd (Evidence.init_store (w_evidence w))) in H.
  set (s0 := snd (Evidence.init_store (w_evidence w))) in *. cbv iota beta in H.
  pose proof (init_store_keeps C _ Hi) as H0. fold s0 in H0.
  destruct (Evidence.ingest (evidence_files tmp fs) true s0) as [[t|x] s] eqn:Hin; [|done]. injection H as _ <-. cbn [w_evidence].
  pose proof (ingest_keeps C (evidence_files tmp fs) true s0 ltac:(by right)) as Hk. rewrite Hin in Hk. cbn [snd fst] in Hk.
  split; [by right|].
  assert (Hfiles : files_of (evidence_files tmp fs) = (fun e => InFile (tmp +:+ "/evidence/" +:+ fst e) (Ok (content_of fs (fst e)))) <$> fs).
  { unfold files_of, evidence_files. clear. generalize fs at 2 4. intros l. induction l as [|x l IH]; [done|]. cbn. by f_equal. }
  eapply (ingest_indexed C (evidence_files tmp fs) true t s0 s (InFile (tmp +:+ "/evidence/" +:+ fst e) (Ok (content_of fs (fst e))))); [by right|exact Hin| | |reflexivity| |exact Hev|exact Htext].
  - rewrite Hfiles. apply list_elem_of_fmap. by exists e.
  - rewrite Hfiles. intros g (e'&->&_)%list_elem_of_fmap. cbn [p_path]. intros Heq.
    apply (inj (String.append tmp)) in Heq. apply (inj (String.append "/evidence/")) in Heq. by rewrite Heq.
  - by rewrite content_unique.
Qed.

(** An artifact that was collected is an entry. *)
Lemma collected_artifact s d (a : Evidence.artifact) text doc l : Evidence.database s = Some d -> a ∈ Evidence.artifacts d ->
  dget (Evidence._object_path (str_lower (Evidence.a_sha a))) (Evidence.objects s) = Some text -> loads text = Ok doc -> json_ok doc = true ->
  collect_evidence s = Ok l ->
  (entry_name "evidence" (str_lower (Evidence.a_sha a)), json_raw (sort_keys doc) +:+ sp 10) ∈ l /\
  str_lower (Evidence.a_sha a) = sha256_hex (json_raw (sort_keys doc) +:+ sp 10).
Proof.
  intros Hd Ha Htext Hdoc Hok. unfold collect_evidence. rewrite Hd. intros H.
  assert (Hin : Evidence.a_sha a ∈ py_sorted id (Evidence.a_sha <$> Evidence.artifacts d)).
  { apply elem_of_py_sorted, list_elem_of_fmap. by exists a. }
  generalize dependent (py_sorted id (Evidence.a_sha <$> Evidence.artifacts d)). intros rows. revert l.
  induction rows as [|row rows IH]; intros l H Hin; [by apply not_elem_of_nil in Hin|].
  cbn [res_map] in H. apply res_bind_Ok in H as (x&Hx&H). apply res_bind_Ok in H as (xs&Hxs&H). injection H as <-.
  apply elem_of_cons in Hin as [<-|Hin].
  - cbv zeta in Hx. apply res_bind_Ok in Hx as ([]&_&Hx). rewrite Htext in Hx. unfold checked in Hx. rewrite Hdoc in Hx.
    apply res_bind_Ok in Hx as ([]&_&Hx). cbn [mbind res_bind] in Hx. rewrite canonical_ok in Hx by by apply json_ok_plain.
    cbn [mbind res_bind] in Hx. apply res_bind_Ok in Hx as ([]&Hx%guard_app_Ok&[= <-]). apply String.eqb_eq in Hx. rewrite Hx. split; [by left|done].
  - destruct (IH xs Hxs Hin) as [H1 H2]. split; [by right|done].
Qed.

Lemma sorted_is_evidence doc : dwf doc -> Evidence.is_evidence (VDict doc) = Some doc ->
  exists doc', sort_keys (VDict doc) = VDict doc' /\ Evidence.is_evidence (VDict doc') = Some doc'.
Proof.
  intros Hwf. cbn [sort_keys Evidence.is_evidence]. unfold dget_n, dget_or. intros H. eexists. split; [done|]. rewrite dget_sort_keys by done.
  destruct (dget "schema" doc) as [[]|]; try done. cbn. by destruct (str_startswith _ _).
Qed.

Lemma import_imported ge gk tmp now size digest ms manifest w r w' : verify_bundle (Bundle size digest ms) = Ok (manifest, []) ->
  import_bundle ge gk tmp now (Bundle size digest ms) w = (Ok r, w') -> dget "status" r = Some (VStr "imported") ->
  exists name generation id, merge_bundle ge gk tmp now digest ms manifest name generation id w = (Ok r, w').
Proof.
  intros Hv Hi Hst. unfold import_bundle, mbind, M_bind, lift, gets in Hi. rewrite Hv in Hi. cbn [guard_app vindex] in Hi.
  destruct (dget "source_site" manifest) as [s|]; [|done]. destruct (dget "generation" manifest) as [g|]; [|done].
  destruct (py_int g) as [generation|]; [|done]. destruct (dget "bundle_id" manifest) as [i|]; [|done]. cbv zeta in Hi.
  destruct (dget (receipt_path _ _) _) as [file|]; [|by eexists _, _, _].
  destruct (read_json file) as [old|]; [|done]. destruct (eq_str _ _); [|done]. cbn [guard_app] in Hi. injection Hi as <- _. discriminate Hst.
Qed.
Lemma merge_parts ge gk tmp now digest ms manifest name generation id w r w' :
  merge_bundle ge gk tmp now digest ms manifest name generation id w = (Ok r, w') ->
  exists files st ev w1, viter (dget_or "files" (VList []) manifest) = Ok files /\ res_fold (stage_file ms) (Staged [] [] []) files = Ok st /\
    merge_evidence ge tmp (g_evidence st) w = (Ok ev, w1) /\ w_evidence w' = w_evidence w1.
Proof.
  unfold merge_bundle, mbind, M_bind, lift. destruct (viter _) as [files|]; [|done].
  destruct (res_fold _ _ _) as [st|] eqn:Hst; [|done]. destruct (merge_evidence _ _ _ w) as [[ev|] w1] eqn:He; [|done].
  assert (Hk : w_evidence (snd (merge_knowledge gk tmp (g_knowledge st) w1)) = w_evidence w1).
  { unfold merge_knowledge. destruct (g_knowledge st); [done|]. unfold mbind, M_bind, lift. destruct (guard_app _ _); [|done].
    unfold on_graph. by destruct (_ : res _ * Knowledge.graph) as [[]]. }
  destruct (merge_knowledge _ _ _ w1) as [[kg|] w2]; [|done]. cbn [snd] in Hk. intros H. exists files, st, ev, w1. split_and!; [done..|].
  rewrite <- Hk. unfold on_site, modify in H. destruct (g_lines st); cbn in H; by injection H as _ <-.
Qed.


(** ** Witnesses *)

Definition sample_time : string := "2026-01-01T00:00:00Z".
Definition sample_state (name : string) : dict value := new_state name sample_time.
Definition sample_site (name : string) : site := Site (Some (Ok (VDict (sample_state name)))) [] [].
Definition sample_history : list (res value) := [Ok (VDict [("job", VStr "j1"); ("log_path", VStr "/x")])].
Definition sample_export := build_bundle "/out.zip" sample_time (Some sample_store) None (Some (Some sample_history)) (sample_site "alpha").
Definition sample_manifest : dict value := Eval vm_compute in fst (ok_or ([], []) (fst sample_export)).
Definition sample_members : list member := Eval vm_compute in snd (ok_or ([], []) (fst sample_export)).
Definition sample_bundle : bundle_file := Bundle 4096 "d" sample_members.
Definition sample_world : world := World (sample_site "beta") (Evidence.Store None []) None.

Lemma sample_export_ok : build_bundle "/out.zip" sample_time (Some sample_store) None (Some (Some sample_history)) (sample_site "alpha") =
  (Ok (sample_manifest, sample_members), snd sample_export).
Proof. vm_compute. reflexivity. Qed.
Lemma sample_sizes : Forall (fun m => Z.of_nat (String.length (m_data m)) <= MAX_MEMBER_BYTES) sample_members.
Proof. apply (bool_decide_unpack _). vm_compute. exact I. Qed.

Lemma sample_plain : plain_stores (Some sample_store) None.
Proof.
  split; [|done]. intros s [= <-] d Hd. split.
  - vm_compute in Hd. injection Hd as <-. apply (bool_decide_unpack _). vm_compute. exact I.
  - intros p text Hp v Hv. apply dget_some_value in Hp. assert (Hf : Forall (fun x => match loads x with Ok v => json_ok v | Raise _ => true end = true) (dvalues (Evidence.objects sample_store))).
    { apply (bool_decide_unpack _). vm_compute. exact I. }
    rewrite Forall_forall in Hf. specialize (Hf text Hp). by rewrite Hv in Hf.
Qed.

Lemma export_verifies_witness :
  exists manifest' generation, VDict manifest' = sort_keys (VDict sample_manifest) /\ verify_bundle sample_bundle = Ok (manifest', []) /\
    dget_n "generation" manifest' = VInt generation /\ 1 <= generation /\ dget_n "source_site" manifest' = VStr "alpha" /\
    exists state', load_state (Some "alpha") (snd sample_export) = Ok state' /\ dget "next_generation" state' = Some (VInt (generation + 1)).
Proof.
  exact (export_verifies "/out.zip" sample_time (Some sample_store) None (Some (Some sample_history)) (sample_site "alpha") (sample_state "alpha") "alpha"
    sample_manifest sample_members (snd sample_export) 4096 "d" eq_refl eq_refl eq_refl sample_plain sample_export_ok ltac:(done) sample_sizes).
Defined.

Definition sample_import := import_bundle true false "/tmp/r" sample_time sample_bundle sample_world.
Definition sample_receipt : dict value := Eval vm_compute in ok_or [] (fst sample_import).
Lemma sample_import_ok : import_bundle true false "/tmp/r" sample_time sample_bundle sample_world = (Ok sample_receipt, snd sample_import).
Proof. vm_compute. reflexivity. Qed.
Definition sample_id : string := Eval vm_compute in match dget "bundle_id" sample_manifest with Some (VStr i) => i | _ => "" end.
Lemma sample_claims : claims sample_bundle "alpha" 1 sample_id.
Proof. eexists. split; [vm_compute; reflexivity|]. eexists _, _, _. repeat split. Qed.

Lemma import_is_final_witness :
  exists doc', import_bundle true true "/tmp/s" sample_time sample_bundle (run_all [Status] (snd sample_import)) = (Ok doc', run_all [Status] (snd sample_import)) /\
    dget "status" doc' = Some (VStr "already-imported").
Proof.
  destruct (import_is_final true false "/tmp/r" sample_time sample_bundle sample_world sample_receipt (snd sample_import) "alpha" 1 sample_id
    [Status] true true "/tmp/s" sample_time sample_bundle sample_id sample_import_ok sample_claims sample_claims) as (r&Hr&H).
  rewrite decide_True in H by reflexivity. destruct H as (doc'&->&Hs&_). exists doc'. split; [exact Hr|exact Hs].
Defined.

Definition stored_doc : dict value := [("id", VInt 7); ("schema", VStr "ppc-lab-x-v1")].
Definition sample_digest : string := Eval vm_compute in default "" (Evidence.a_sha <$> head (Evidence.artifacts (the_db sample_store))).
Definition sample_artifact : Evidence.artifact := Eval vm_compute in List.hd (Evidence.Artifact 0 "" 0 (Evidence._extract_fields [])) (Evidence.artifacts (the_db sample_store)).

(** ** What the model shows besides *)

(** A line separator inside a record is a line boundary to the importer: the records it archives and
    counts are not those that were exported. *)
Definition split_record : string := ok_or "" (safe_record (Ok (VDict [("note", VStr (String "a" (String (byte 226) (String (byte 128) (String (byte 168) "b")))))]))).
Example history_record_is_split : control_count [("control/history.ndjson", split_record)] = 1%nat /\ length (text_lines split_record "") = 2%nat.
Proof. vm_compute. done. Qed.

(** The name of a site may be a step up. *)
Example site_may_be_a_step_up : validate_site ".." = Ok ".." /\ receipt_path ".." 1 = "../00000000000000000001.json".
Proof. vm_compute. done. Qed.

(** A manifest whose version is a list stops the command. *)
Example odd_version_stops_verify : exists msg, header_errors [("replication_api", VList [])] = Raise (Exn TypeError msg) /\ handled [AppError; OSError; ValueError; SqlError] (Exn TypeError msg) = false.
Proof. eexists. vm_compute. done. Qed.
