(* ===== verification/Api.v ===== *)
(** * The HTTP research API ([ppc_lab_api.py])

    A request handler authorises a request, records the decision in the audit log, and answers from
    the capabilities document or by running the worker or the evidence command.  [world] is what
    handlers change: the audit log, the answers sent, the commands run and the unread bytes of the
    connection.  Sending an answer succeeds; the framing of HTTP messages is that of [http.server]. *)
From stdpp Require Import pretty.
From Stdlib Require Import Ascii.
From S2P Require Import Security.
From S2P Require Export PyState JsonParse.

Abbreviation obj := VDict.

Definition API_PROTOCOL : string := "ppc-lab-http-api-v1".
Definition HEALTH_SCHEMA : string := "ppc-lab-api-health-v1".
Definition DISCOVERY_SCHEMA : string := "ppc-lab-api-discovery-v1".
Definition MAX_BODY_DEFAULT : Z := 1024 * 1024.

(** ** Request targets *)

(** [s.find(c)] as the text before and after; [str_rsplit1] splits at the last one. *)
Fixpoint str_rsplit1 (c : ascii) (s : string) : option (string * string) :=
  match s with
  | EmptyString => None
  | String d s' =>
      match str_rsplit1 c s' with
      | Some (a, b) => Some (String d a, b)
      | None => if Ascii.eqb c d then Some ("", s') else None
      end
  end.
Definition cut (c : ascii) (s : string) : string := match str_split1 c s with Some (a, _) => a | None => s end.

Definition scheme_char (c : ascii) : bool := is_alnum c || existsb (Ascii.eqb c) ["+"; "-"; "."]%char.
Definition is_alpha (c : ascii) : bool := is_upper c || is_lower c.
(** [url.find(":") > 0] and the characters before it make a scheme. *)
Definition split_scheme (url : string) : string * string :=
  match str_split1 ":"%char url with
  | Some (String c s as scheme, rest) => if is_alpha c && str_forall scheme_char scheme then (str_lower scheme, rest) else ("", url)
  | _ => ("", url)
  end.
Definition uses_params : list string :=
  [""; "ftp"; "hdl"; "prospero"; "http"; "imap"; "https"; "shttp"; "rtsp"; "rtspu"; "sip"; "sips"; "mms"; "sftp"; "tel"].
Definition authority_char (c : ascii) : bool := negb (existsb (Ascii.eqb c) ["/"; "?"; "#"]%char).
(** The parameters of the last segment are no part of the path. *)
Definition drop_params (scheme path : string) : string :=
  if existsb (String.eqb scheme) uses_params then
    match str_rsplit1 "/"%char path with
    | Some (dir, leaf) => dir +:+ "/" +:+ cut ";"%char leaf
    | None => cut ";"%char path
    end
  else path.
Definition url_space (c : ascii) : bool := code c <=? 32.
Fixpoint str_remove (f : ascii -> bool) (s : string) : string :=
  match s with EmptyString => "" | String c s => if f c then str_remove f s else String c (str_remove f s) end.
(** [urlparse(url).path]; [bracketed] tells which authorities with brackets are addresses. *)
Definition url_path (bracketed : string -> bool) (url : string) : res string :=
  let '(scheme, rest) := split_scheme (str_remove (fun c => existsb (Z.eqb (code c)) [9; 10; 13]) (str_lstrip url_space url)) in
  let '(netloc, rest) := match strip_prefix "//" rest with Some r => span authority_char r | None => ("", rest) end in
  let opened := str_mem "[" netloc in let closed := str_mem "]" netloc in
  if xorb opened closed || (opened && negb (bracketed netloc)) then Raise (Exn ValueError "Invalid IPv6 URL")
  else Ok (drop_params scheme (cut "?"%char (cut "#"%char rest))).

(** [unquote], byte by byte: text that is not UTF-8 has no character of a reference. *)
Fixpoint unquote (s : string) : string :=
  match s with
  | EmptyString => ""
  | String c s' =>
      match s' with
      | String a (String b s3) =>
          match (if Ascii.eqb c "%" then match digit_val 16 a, digit_val 16 b with Some x, Some y => Some (x * 16 + y) | _, _ => None end else None) with
          | Some n => String (byte_of n) (unquote s3)
          | None => String c (unquote s')
          end
      | _ => String c (unquote s')
      end
  end.

(** ** The server *)

(** The fields of [ServerState]: paths are resolved, [python] is [sys.executable]. *)
Record server := Server {
  python : string; ppc_lab : string; worker : string; evidence : option string; root : option string;
  evidence_store : option string; token : option string; auth_store : option string; audit_log : option string;
  job_timeout : float; max_body : Z; expose_command : bool; capabilities : dict value }.

(** What running a command gives: no program, output that is not text, or the parsed output. *)
Inductive tool := TimedOut | NotRun (msg : string) | Undecodable (msg : string) | Finished (code : Z) (stdout : res value).

(** What a request meets: the time, the client's address, the token store, the programs and the
    addresses of [ipaddress]. *)
Record env := Env {
  e_now : string; e_client : option string; e_auth : Store.file;
  e_run : list string -> option string -> tool; e_bracketed : string -> bool }.

Inductive method := GET | POST.
Record request := Request { q_method : method; q_target : string; q_authorization : option string; q_length : option string }.
Record response := Response { s_status : Z; s_headers : list (string * string); s_body : string }.

Record world := World {
  w_log : Audit.log; w_sent : list response; w_runs : list (list string * option string); w_input : string }.
Abbreviation H := (M world).

Definition on_log {A} (m : M (Audit.log) A) : H A := fun w =>
  let '(r, l) := m (w_log w) in (r, World l (w_sent w) (w_runs w) (w_input w)).
Definition send (r : response) : H unit := modify (fun w => World (w_log w) (w_sent w ++ [r]) (w_runs w) (w_input w)).

Definition method_name (m : method) : string := match m with GET => "GET" | POST => "POST" end.

(** [except Exception] *)
Definition exceptions : list exc_class :=
  [AppError; TypeError; ValueError; KeyError; IndexError; AttributeError; OSError; OverflowError; ZeroDivisionError; TimeoutExpired;
   AssertionError; SqlError; RuntimeError].

Definition _send (status : Z) (v : value) : H unit :=
  let raw := canonical v +:+ sp 10 in
  send (Response status [("Content-Type", "application/json; charset=utf-8"); ("Content-Length", pretty (Z.of_nat (String.length raw)));
                         ("Cache-Control", "no-store")] raw).
Definition _error (status : Z) (message : string) : H unit :=
  _send status (obj [("schema", VStr API_PROTOCOL); ("ok", VBool false); ("error", VStr message)]).

(** [_run_json] *)
Definition _run_json (e : env) (command : list string) (stdin : option string) : H (Z * value) :=
  _ ← modify (fun w => World (w_log w) (w_sent w) (w_runs w ++ [(command, stdin)]) (w_input w));
  match e_run e command stdin with
  | TimedOut => throw TimeoutExpired "timed out"
  | NotRun msg => throw OSError msg
  | Undecodable msg => throw UnicodeError msg
  | Finished code (Ok v) => mret (code, v)
  | Finished _ (Raise _) => throw RuntimeError "command returned invalid JSON"
  end.

(** ** Authorisation *)

(** [hmac.compare_digest] of two [str]s. *)
Definition compare_digest (a b : string) : res bool :=
  if ascii_string a && ascii_string b then Ok (String.eqb a b)
  else Raise (Exn TypeError "comparing strings with non-ASCII characters is not supported").

Definition anyone (id label role : string) : value :=
  obj [("ok", VBool true); ("token_id", VStr id); ("label", VStr label); ("role", VStr role); ("scopes", VList [VStr "*"])].
Definition bearer (q : request) : option string := strip_prefix "Bearer " (default "" (q_authorization q)).

(** Whom a request comes from, if it may. *)
Definition principal (st : server) (e : env) (q : request) (required_scope : string) : res (option value) :=
  match auth_store st, token st with
  | Some path, _ =>
      match bearer q with
      | Some raw =>
          if str_empty raw then Ok None
          else result ← Store.verify_token path (e_auth e) raw (Some required_scope);
               ok ← vget "ok" result; Ok (if py_bool ok then Some result else None)
      | None => Ok None
      end
  | None, Some t =>
      match bearer q with
      | Some raw => same ← compare_digest raw t; Ok (if same : bool then Some (anyone "legacy" "legacy-token" "admin") else None)
      | None => Ok None
      end
  | None, None => Ok (Some (anyone "anonymous-local" "anonymous-local" "local"))
  end.

Definition audit_event (q : request) (path scope : string) (client : option string) (p : option value) : res (dict value) :=
  id ← match p with Some v => vget "token_id" v | None => Ok VNone end;
  Ok [("event", VStr "api.authorization"); ("method", VStr (method_name (q_method q))); ("path", VStr path); ("required_scope", VStr scope);
      ("allowed", VBool (match p with Some _ => true | None => false end)); ("token_id", id);
      ("client", match client with Some c => VStr c | None => VNone end)].
Definition audit (st : server) (now : string) (event : dict value) : H unit :=
  match audit_log st with Some _ => _ ← on_log (Audit.audit_append now event); mret tt | None => mret tt end.

Definition _principal (st : server) (e : env) (q : request) (scope : string) : H (option value) :=
  p ← lift (principal st e q scope);
  path ← lift (url_path (e_bracketed e) (q_target q));
  event ← lift (audit_event q path scope (e_client e) p);
  _ ← audit st (e_now e) event; mret p.

Definition unauthorized_body : string :=
  "{" +:+ json_string "schema" +:+ ":" +:+ json_string "ppc-lab-http-api-v1" +:+ "," +:+ json_string "ok" +:+ ":false," +:+
  json_string "error" +:+ ":" +:+ json_string "unauthorized" +:+ "}" +:+ sp 10.
Definition refusal (q : request) : response :=
  Response (if str_empty (default "" (q_authorization q)) then 401 else 403)
    [("Content-Type", "application/json; charset=utf-8"); ("Content-Length", pretty (Z.of_nat (String.length unauthorized_body)));
     ("WWW-Authenticate", "Bearer realm=" +:+ quote_char +:+ "PPC Lab" +:+ quote_char); ("Cache-Control", "no-store")] unauthorized_body.
Definition _require_scope (st : server) (e : env) (q : request) (scope : string) : H bool :=
  p ← _principal st e q scope;
  match p with Some _ => mret true | None => _ ← send (refusal q); mret false end.

(** ** Request bodies *)

Fixpoint split_at (n : nat) (s : string) : string * string :=
  match n, s with
  | Datatypes.S n, String c s => let '(a, b) := split_at n s in (String c a, b)
  | _, _ => ("", s)
  end.
(** [self.rfile.read(length)] *)
Definition read_input (length : Z) : H string := fun w =>
  let '(data, rest) := split_at (Z.to_nat length) (w_input w) in (Ok data, World (w_log w) (w_sent w) (w_runs w) rest).

Definition _body (st : server) (q : request) : H value :=
  match q_length q with
  | None => throw ValueError "Content-Length is required"
  | Some text =>
      match int_of_string text with
      | None => throw ValueError "invalid Content-Length"
      | Some length =>
          if (length <? 0) || (max_body st <? length) then throw OverflowError "request body exceeds configured limit"
          else
            data ← read_input length;
            match loads data with
            | Ok v => mret v
            | Raise x => throw ValueError ("invalid JSON: " +:+ exn_msg x)
            end
      end
  end.

(** ** Endpoints *)

(** [json.dumps(v)] *)
Fixpoint json_dumps (v : value) : string :=
  match v with
  | VList l => "[" +:+ str_join ", " (json_dumps <$> l) +:+ "]"
  | VDict d => "{" +:+ str_join ", " ((fun kv => json_string (fst kv) +:+ ": " +:+ json_dumps (snd kv)) <$> d) +:+ "}"
  | v => json_with json_string v
  end.
(** [dict(v)], of pairs whose first component is a string. *)
Definition py_dict (v : value) : res (dict value) :=
  match v with
  | VDict d => Ok d
  | _ => items ← viter v;
         res_fold (fun d it => pair ← viter it;
           match pair with
           | [VStr k; x] => Ok (dset k x d)
           | [_; _] => Raise (Exn TypeError "not a string")
           | _ => Raise (Exn ValueError "dictionary update sequence element has the wrong length")
           end) [] items
  end.

Definition present {A} (o : option A) : value := VBool (match o with Some _ => true | None => false end).
Definition endpoints (st : server) : list string :=
  ["GET /v1/health"; "GET /v1/capabilities"; "POST /v1/run"] ++
  match evidence_store st with
  | Some _ => ["GET /v1/evidence/report"; "POST /v1/evidence/query"; "GET /v1/evidence/artifacts/{ref}"]
  | None => []
  end.
Definition discovery (st : server) : value :=
  obj [("schema", VStr DISCOVERY_SCHEMA); ("protocol", VStr API_PROTOCOL); ("version", dget_n "version" (capabilities st));
       ("security", obj [("scoped_tokens", present (auth_store st)); ("audit_log", present (audit_log st))]);
       ("endpoints", VList (VStr <$> endpoints st))].
Definition health (st : server) : value :=
  obj [("schema", VStr HEALTH_SCHEMA); ("ok", VBool true); ("version", dget_n "version" (capabilities st))].
Definition capabilities_doc (st : server) : res value :=
  let caps := capabilities st in
  protocols ← py_dict (dget_or "protocols" (obj []) caps);
  let caps := dset "protocols" (obj (dset "http_api" (VStr API_PROTOCOL) protocols)) caps in
  api_info ← py_dict (dget_or "api" (obj []) caps);
  let api_info := dset "scoped_auth" (present (auth_store st)) (dset "evidence" (present (evidence_store st)) api_info) in
  Ok (obj (dset "api" (obj api_info) caps)).

(** A script is run by the interpreter. *)
Definition program (st : server) (path : string) : list string := if str_endswith ".py" path then [python st; path] else [path].

Definition job_command (st : server) : list string :=
  program st (worker st) ++ ["--ppc-lab"; ppc_lab st] ++
  match root st with Some r => ["--root"; r; "--base-dir"; r] | None => [] end ++
  ["--timeout"; py_str (VFloat (job_timeout st))] ++ (if expose_command st then ["--expose-command"] else []) ++ ["run"; "-"].
Definition _run_job (st : server) (e : env) (body : value) : H unit :=
  '(code, v) ← _run_json e (job_command st) (Some (json_dumps body));
  match v with
  | VDict d => if eq_str (dget_n "schema" d) "ppc-lab-worker-response-v1" then _send 200 v
               else _error 502 ("worker protocol failure (exit " +:+ pretty code +:+ ")")
  | _ => _error 502 ("worker protocol failure (exit " +:+ pretty code +:+ ")")
  end.

Definition _evidence_base (st : server) : option (string * string) :=
  match evidence_store st, evidence st with Some store, Some command => Some (command, store) | _, _ => None end.
Definition not_configured : string := "evidence API is not configured".

Definition _evidence_report (st : server) (e : env) : H unit :=
  match _evidence_base st with
  | None => _error 404 not_configured
  | Some (command, store) => '(_, v) ← _run_json e (program st command ++ ["report"; store; "--json"]) None; _send 200 v
  end.

Definition hex_digit (c : ascii) : bool := match digit_val 16 c with Some _ => true | None => false end.
Definition ref_ok (ref : string) : bool := negb (str_empty ref) && str_forall hex_digit ref.
Definition _evidence_show (st : server) (e : env) (ref : string) : H unit :=
  match _evidence_base st with
  | None => _error 404 not_configured
  | Some (command, store) =>
      if ref_ok ref then
        '(code, v) ← _run_json e (program st command ++ ["show"; store; ref]) None; _send (if code =? 0 then 200 else 404) v
      else _error 400 "artifact ref must be an integer id or SHA-256 prefix"
  end.

Definition query_fields : list (string * string) :=
  [("schema", "--schema"); ("engine_version", "--engine-version"); ("backend", "--backend"); ("stop_reason", "--stop-reason");
   ("host", "--host"); ("name", "--name"); ("cache_key", "--cache-key"); ("input_sha256", "--input-sha256")].
(** The arguments of a query, or what is wrong with it. *)
Definition field_args (body : dict value) (args : list string) (kf : string * string) : string + list string :=
  match dget_n (fst kf) body with
  | VNone => inr args
  | VStr s => inr (args ++ [snd kf; s])
  | _ => inl (fst kf +:+ " must be a string")
  end.
Fixpoint fields_args (body : dict value) (args : list string) (fields : list (string * string)) : string + list string :=
  match fields with
  | [] => inr args
  | kf :: fields => match field_args body args kf with inr args => fields_args body args fields | inl msg => inl msg end
  end.
Definition ok_args (body : dict value) : string + list string :=
  match dget "ok" body with
  | None => inr []
  | Some (VBool b) => inr ["--ok"; if b then "yes" else "no"]
  | Some _ => inl "ok must be boolean"
  end.
Definition limit_args (body : dict value) : string + list string :=
  match dget "limit" body with
  | None => inr []
  | Some (VInt n) => if (1 <=? n) && (n <=? 1000) then inr ["--limit"; pretty n] else inl "limit must be an integer from 1 to 1000"
  | Some _ => inl "limit must be an integer from 1 to 1000"
  end.
Definition oldest_args (body : dict value) : string + list string :=
  match dget "oldest" body with
  | None | Some (VBool false) => inr []
  | Some (VBool true) => inr ["--oldest"]
  | Some _ => inl "oldest must be boolean"
  end.
Definition query_args (body : dict value) : string + list string :=
  match fields_args body [] query_fields with
  | inl msg => inl msg
  | inr fields =>
      match ok_args body with
      | inl msg => inl msg
      | inr ok => match limit_args body with
                  | inl msg => inl msg
                  | inr limit => match oldest_args body with inl msg => inl msg | inr oldest => inr (fields ++ ok ++ limit ++ oldest ++ ["--json"]) end
                  end
      end
  end.
Definition _evidence_query (st : server) (e : env) (body : value) : H unit :=
  match _evidence_base st with
  | None => _error 404 not_configured
  | Some (command, store) =>
      match body with
      | VDict d =>
          match query_args d with
          | inl msg => _error 400 msg
          | inr args => '(_, v) ← _run_json e (program st command ++ ["query"; store] ++ args) None; _send 200 v
          end
      | _ => _error 400 "query must be a JSON object"
      end
  end.

(** ** Requests *)

Definition failed (x : exn) : H unit :=
  if bool_decide (exn_class x = TimeoutExpired) then _error 504 "backend command timed out" else _error 500 (exn_msg x).
Definition is_evidence_path (path : string) : bool := str_startswith "/v1/evidence/" path.
Definition artifacts_prefix : string := "/v1/evidence/artifacts/".

Definition get_scope (path : string) : string := if is_evidence_path path then "evidence:read" else "status:read".
Definition get_path (st : server) (e : env) (path : string) : H unit :=
  if existsb (String.eqb path) ["/"; "/v1"] then _send 200 (discovery st)
  else if String.eqb path "/v1/health" then _send 200 (health st)
  else if String.eqb path "/v1/capabilities" then caps ← lift (capabilities_doc st); _send 200 caps
  else if String.eqb path "/v1/evidence/report" then _evidence_report st e
  else match strip_prefix artifacts_prefix path with
  | Some (String _ _ as rest) => _evidence_show st e (unquote rest)
  | _ => _error 404 "not found"
  end.
Definition do_GET (st : server) (e : env) (q : request) : H unit :=
  path ← lift (url_path (e_bracketed e) (q_target q));
  granted ← _require_scope st e q (get_scope path);
  if granted : bool then catch exceptions (get_path st e path) failed else mret tt.

Definition post_scope (path : string) : string :=
  if String.eqb path "/v1/run" then "execute:run" else if is_evidence_path path then "evidence:read" else "status:read".
Definition post_path (st : server) (e : env) (path : string) (body : value) : H unit :=
  if String.eqb path "/v1/run" then _run_job st e body
  else if String.eqb path "/v1/evidence/query" then _evidence_query st e body
  else _error 404 "not found".
(** A body that cannot be read is answered at once. *)
Definition read_body (st : server) (q : request) : H (option value) :=
  catch [ValueError] (catch [OverflowError] (v ← _body st q; mret (Some v))
    (fun x => _ ← _error 413 (exn_msg x); mret None)) (fun x => _ ← _error 400 (exn_msg x); mret None).
Definition do_POST (st : server) (e : env) (q : request) : H unit :=
  path ← lift (url_path (e_bracketed e) (q_target q));
  granted ← _require_scope st e q (post_scope path);
  if granted : bool then
    body ← read_body st q;
    match body with Some v => catch exceptions (post_path st e path v) failed | None => mret tt end
  else mret tt.

Definition handle (st : server) (e : env) (q : request) : H unit :=
  match q_method q with GET => do_GET st e q | POST => do_POST st e q end.

(** ** Starting a server *)

Definition _loopback (host : string) : bool := existsb (String.eqb host) ["127.0.0.1"; "::1"; "localhost"].

(** The machine a server starts on: [h_resolve] is [Path(p).expanduser().resolve()], [h_stores] reads
    a token store. *)
Record machine := Machine {
  h_resolve : string -> string; h_file : string -> bool; h_dir : string -> bool; h_env : string -> option string;
  h_which : string -> option string; h_scripts : string; h_python : string; h_stores : string -> Store.file;
  h_run : list string -> tool }.

Definition nonempty (o : option string) : option string := match o with Some s => if str_empty s then None else Some s | None => None end.
(** [a or b] *)
Definition or_else (a b : option string) : option string := match nonempty a with Some s => Some s | None => b end.
Definition sys_exit {A} (msg : string) : res A := Raise (Exn SystemExit msg).
Definition check_arg (ok : bool) (msg : string) : res unit := if ok then Ok tt else sys_exit msg.

Definition _find_command (m : machine) (explicit : option string) (env_name installed source_name : string) : res string :=
  match nonempty (or_else (or_else explicit (h_env m env_name)) (h_which m installed)) with
  | Some candidate => Ok (if str_mem "/" candidate then h_resolve m candidate else candidate)
  | None =>
      let source := h_resolve m (h_scripts m +:+ "/" +:+ source_name) in
      if h_file m source then Ok source else sys_exit ("ppc-lab-api: cannot find " +:+ installed)
  end.

Definition _load_capabilities (m : machine) (ppc_lab : string) : res (dict value) :=
  match h_run m [ppc_lab; "capabilities"; "--json"] with
  | TimedOut => Raise (Exn TimeoutExpired "timed out")
  | NotRun msg => Raise (Exn OSError msg)
  | Undecodable msg => Raise (Exn UnicodeError msg)
  | Finished _ (Ok (VDict d)) =>
      if eq_str (dget_n "schema" d) "ppc-lab-capabilities-v1" then Ok d
      else sys_exit "ppc-lab-api: ppc-lab returned an unsupported capabilities document"
  | Finished _ (Ok _) => sys_exit "ppc-lab-api: ppc-lab returned an unsupported capabilities document"
  | Finished _ (Raise _) => Raise (Exn RuntimeError "command returned invalid JSON")
  end.

Record arguments := Arguments {
  a_host : string; a_port : Z; a_ppc_lab : option string; a_worker : option string; a_evidence : option string; a_root : option string;
  a_evidence_store : option string; a_token : option string; a_auth_store : option string; a_audit_log : option string;
  a_allow_remote : bool; a_job_timeout : float; a_max_body : Z; a_expose_command : bool }.

(** The token store is there and can be read. *)
Definition check_store (m : machine) (path : string) : res unit :=
  _ ← check_arg (h_file m path) "--auth-store must be an existing PPC Lab auth store";
  probe ← Store.verify_token path (h_stores m path) "invalid.invalid" (Some "status:read");
  reason ← vget "reason" probe;
  check_arg (negb (eq_str reason "auth-store-error")) "--auth-store is invalid".
Definition is_some {A} (o : option A) : bool := match o with Some _ => true | None => false end.
(** [path.parent / "audit.jsonl"] of a resolved path *)
Definition beside (path : string) : string := match str_rsplit1 "/"%char path with Some (dir, _) => dir | None => "" end +:+ "/audit.jsonl".

(** The command and the store of the evidence endpoints, when they are enabled. *)
Definition find_evidence (m : machine) (a : arguments) : res (option string * option string) :=
  match nonempty (a_evidence_store a) with
  | None => Ok (None, None)
  | Some store =>
      command ← _find_command m (a_evidence a) "PPC_LAB_EVIDENCE" "ppc-lab-evidence" "ppc_lab_evidence.py";
      _ ← check_arg (h_file m (h_resolve m store +:+ "/evidence.sqlite3")) "--evidence-store is not an initialized PPC Lab evidence store";
      Ok (Some command, Some (h_resolve m store))
  end.

(** The checks of [main] up to the server's state. *)
Definition start (m : machine) (a : arguments) : res server :=
  _ ← check_arg ((0 <=? a_port a) && (a_port a <=? 65535)) "--port must be 0..65535";
  _ ← check_arg (negb (fleb (a_job_timeout a) fzero)) "--job-timeout must be > 0";
  _ ← check_arg (0 <? a_max_body a) "--max-body must be > 0";
  let token := or_else (a_token a) (h_env m "PPC_LAB_API_TOKEN") in
  let auth_store := h_resolve m <$> nonempty (a_auth_store a) in
  _ ← match auth_store with Some path => check_store m path | None => Ok tt end;
  let audit_log := match nonempty (a_audit_log a) with Some p => Some (h_resolve m p) | None => beside <$> auth_store end in
  _ ← check_arg (negb (is_some auth_store && is_some token)) "use either --auth-store or --token, not both";
  _ ← check_arg (_loopback (a_host a) || is_some token || is_some auth_store || a_allow_remote a)
        "non-loopback binding requires --auth-store or --token/PPC_LAB_API_TOKEN";
  ppc_lab ← _find_command m (a_ppc_lab a) "PPC_LAB_BIN" "ppc-lab" "../build/release/ppc-lab";
  worker ← _find_command m (a_worker a) "PPC_LAB_WORKER" "ppc-lab-worker" "ppc_lab_worker.py";
  '(evidence, store) ← find_evidence m a;
  let root := h_resolve m <$> nonempty (a_root a) in
  _ ← check_arg (match root with Some r => h_dir m r | None => true end) "--root must be an existing directory";
  caps ← _load_capabilities m ppc_lab;
  Ok (Server (h_python m) ppc_lab worker evidence root store token auth_store audit_log (a_job_timeout a) (a_max_body a) (a_expose_command a) caps).

(** What the server reports once it listens on an address. *)
Definition ready (st : server) (host : string) (port : Z) : value :=
  let display := if existsb (String.eqb host) ["0.0.0.0"; "::"] then "127.0.0.1" else host in
  obj [("schema", VStr "ppc-lab-api-ready-v1"); ("protocol", VStr API_PROTOCOL); ("host", VStr host); ("port", VInt port);
       ("url", VStr ("http://" +:+ display +:+ ":" +:+ pretty port)); ("version", dget_n "version" (capabilities st))].
