(* ===== verification/ApiProps.v ===== *)
(** * What the HTTP API guarantees

    A request is answered once and recorded once, and runs at most one command, which its
    credentials permit. *)
From Stdlib Require Import Ascii.
From S2P Require Import Security SecurityProps AuditProps.
From S2P Require Import Api.

(** ** Answering a request *)

(** At most one command is run, one that [P] permits. *)
Definition ran (P : list string -> option string -> Prop) (w w' : world) : Prop :=
  w_runs w' = w_runs w \/ exists command stdin, P command stdin /\ w_runs w' = w_runs w ++ [(command, stdin)].
Definition answered (w w' : world) : Prop := exists r, w_sent w' = w_sent w ++ [r].

(** A computation that answers once, or raises what a handler catches before it answers. *)
Definition tries {A} P (m : H A) : Prop := forall w, match m w with
  | (Ok _, w') => answered w w' /\ ran P w w' /\ w_log w' = w_log w /\ w_input w' = w_input w
  | (Raise x, w') => w_sent w' = w_sent w /\ ran P w w' /\ w_log w' = w_log w /\ w_input w' = w_input w /\ handled exceptions x = true
  end.

Lemma tries_send P status v : tries P (_send status v).
Proof. intros w. unfold _send, send, modify. split; [by eexists|]. split; [by left|done]. Qed.
Lemma tries_error P status msg : tries P (_error status msg).
Proof. apply tries_send. Qed.
Lemma tries_lift {A B} P (r : res A) (f : A -> H B) : (forall x, r = Raise x -> handled exceptions x = true) -> (forall a, tries P (f a)) -> tries P (x ← lift r; f x).
Proof.
  intros Hr Hf w. unfold mbind, M_bind, lift. destruct r as [a|x]; [apply Hf|]. split_and!; [done|by left|done|done|by apply Hr].
Qed.

(** Running a command, and answering with its result. *)
Lemma tries_run (P : list string -> option string -> Prop) e command stdin (f : Z * value -> H unit) : P command stdin ->
  (forall cv, tries (fun _ _ => False) (f cv)) -> tries P (cv ← _run_json e command stdin; f cv).
Proof.
  intros Hp Hf w. unfold mbind, M_bind, _run_json. unfold mbind, M_bind, modify, throw, lift.
  set (w1 := World (w_log w) (w_sent w) (w_runs w ++ [(command, stdin)]) (w_input w)).
  assert (Hran : ran P w w1) by (right; by exists command, stdin).
  destruct (e_run e command stdin) as [|msg|msg|code [v|x]]; try by (split_and!; [done|exact Hran|done|done|done]).
  pose proof (Hf (code, v) w1) as H. unfold mret, M_ret. destruct (f (code, v) w1) as [[u|x] w2].
  - destruct H as ((r&Hr)&[Hn|(?&?&[]&_)]&Hl&Hi). split; [by exists r|]. split; [|done].
    unfold ran. rewrite Hn. exact Hran.
  - destruct H as (Hs&[Hn|(?&?&[]&_)]&Hl&Hi&Hx). split; [done|]. split; [|done]. unfold ran. rewrite Hn. exact Hran.
Qed.
#[local] Hint Resolve tries_send tries_error : ppc.

(** The commands a scope permits. *)
Definition permitted (st : server) (scope : string) (command : list string) (stdin : option string) : Prop :=
  if String.eqb scope "execute:run" then command = job_command st /\ exists body, stdin = Some (json_dumps body)
  else if String.eqb scope "evidence:read" then
    stdin = None /\ exists tool store verb rest, _evidence_base st = Some (tool, store) /\ verb ∈ ["report"; "show"; "query"] /\
      command = program st tool ++ verb :: store :: rest
  else False.

Lemma viter_handled v x : viter v = Raise x -> handled exceptions x = true.
Proof. destruct v; cbn; intros [= <-]; done. Qed.
Lemma py_dict_handled v x : py_dict v = Raise x -> handled exceptions x = true.
Proof.
  unfold py_dict. destruct v; try discriminate; intros H;
    (apply res_bind_Raise in H as [H|(items&_&H)]; [by eapply viter_handled|]);
    (revert H; generalize (@nil (string * value)); induction items as [|it items IH]; intros d H; [done|]; cbn [res_fold] in H;
     apply res_bind_Raise in H as [H|(d'&_&H)]; [|by eapply IH]; apply res_bind_Raise in H as [H|(p&_&H)]; [by eapply viter_handled|]);
    (repeat case_match; try discriminate H; injection H as <-; done).
Qed.
Lemma capabilities_handled st x : capabilities_doc st = Raise x -> handled exceptions x = true.
Proof.
  unfold capabilities_doc. intros H. apply res_bind_Raise in H as [H|(p&_&H)]; [by eapply py_dict_handled|].
  apply res_bind_Raise in H as [H|(i&_&H)]; [by eapply py_dict_handled|discriminate H].
Qed.

Lemma tries_job st e body : tries (permitted st "execute:run") (_run_job st e body).
Proof.
  apply tries_run; [by split; [|eexists]|]. intros [code v]. destruct v; auto with ppc. case_bool; auto with ppc.
Qed.

Section evidence.
Context (st : server) (e : env).

Lemma evidence_permitted tool store verb rest : _evidence_base st = Some (tool, store) -> verb ∈ ["report"; "show"; "query"] ->
  permitted st "evidence:read" (program st tool ++ verb :: store :: rest) None.
Proof. intros Hb Hv. split; [done|]. by exists tool, store, verb, rest. Qed.

Lemma tries_report : tries (permitted st "evidence:read") (_evidence_report st e).
Proof.
  unfold _evidence_report. destruct (_evidence_base st) as [[tool store]|] eqn:E; [|auto with ppc].
  apply tries_run; [apply evidence_permitted; [done|by left]|]. intros [code v]. auto with ppc.
Qed.
Lemma tries_show ref : tries (permitted st "evidence:read") (_evidence_show st e ref).
Proof.
  unfold _evidence_show. destruct (_evidence_base st) as [[tool store]|] eqn:E; [|auto with ppc]. case_bool; [|auto with ppc].
  apply tries_run; [apply evidence_permitted; [done|by right; left]|]. intros [code v]. auto with ppc.
Qed.
Lemma tries_query body : tries (permitted st "evidence:read") (_evidence_query st e body).
Proof.
  unfold _evidence_query. destruct (_evidence_base st) as [[tool store]|] eqn:E; [|auto with ppc]. destruct body; auto with ppc.
  destruct (query_args d); auto with ppc. apply tries_run; [apply evidence_permitted; [done|by right; right; left]|]. intros [code v]. auto with ppc.
Qed.
End evidence.

Lemma strip_prefix_spec p s r : strip_prefix p s = Some r -> s = p +:+ r.
Proof.
  revert s. induction p as [|c p IH]; intros [|d s]; cbn; try (by intros [= <-]).
  destruct (Ascii.eqb_spec c d) as [->|]; [|done]. intros ->%IH. done.
Qed.
Lemma startswith_app p q r : str_startswith p q = true -> str_startswith p (q +:+ r) = true.
Proof.
  unfold str_startswith. revert q. induction p as [|c p IH]; intros [|d q]; [by destruct r|by destruct (_ +:+ _)|done|].
  rewrite str_app_cons. cbn [String.prefix]. destruct (ascii_dec c d); [apply IH|done].
Qed.

Lemma tries_get st e path : tries (permitted st (get_scope path)) (get_path st e path).
Proof.
  unfold get_path. destruct (existsb _ _); [auto with ppc|]. destruct (String.eqb path "/v1/health"); [auto with ppc|].
  destruct (String.eqb_spec path "/v1/capabilities"); [apply tries_lift; [apply capabilities_handled|auto with ppc]|].
  destruct (String.eqb_spec path "/v1/evidence/report") as [->|]; [apply tries_report|].
  destruct (strip_prefix artifacts_prefix path) as [[|c rest]|] eqn:E; [auto with ppc| |auto with ppc].
  assert (Hs : get_scope path = "evidence:read").
  { unfold get_scope, is_evidence_path. apply strip_prefix_spec in E as ->. by rewrite startswith_app. }
  rewrite Hs. apply tries_show.
Qed.
Lemma tries_post st e path body : tries (permitted st (post_scope path)) (post_path st e path body).
Proof.
  unfold post_path, post_scope. destruct (String.eqb path "/v1/run"); [apply tries_job|].
  destruct (String.eqb_spec path "/v1/evidence/query") as [->|]; [apply tries_query|]. auto with ppc.
Qed.

(** What is caught is answered. *)
Definition settles {A} P (m : H A) : Prop := forall w, exists a w', m w = (Ok a, w') /\ answered w w' /\ ran P w w' /\ w_log w' = w_log w.
Lemma settles_caught P (m : H unit) : tries P m -> settles P (catch exceptions m failed).
Proof.
  intros Hm w. unfold catch. specialize (Hm w). destruct (m w) as [[u|x] w1].
  - destruct Hm as (Ha&Hr&Hl&_). exists u, w1. by split_and!.
  - destruct Hm as (Hs&Hr&Hl&_&Hx). rewrite Hx. pose proof (tries_send P) as Ht.
    assert (Hf : exists r, failed x w1 = (Ok tt, World (w_log w1) (w_sent w1 ++ [r]) (w_runs w1) (w_input w1))).
    { unfold failed. case_bool_decide; by eexists. }
    destruct Hf as (r&->). exists tt. eexists. split; [done|]. split; [exists r; cbn; by rewrite Hs|]. split; [|done].
    unfold ran in *. cbn. exact Hr.
Qed.

Lemma read_body_spec st q w : exists w1, w_runs w1 = w_runs w /\ w_log w1 = w_log w /\
  ((exists v, read_body st q w = (Ok (Some v), w1) /\ w_sent w1 = w_sent w) \/ read_body st q w = (Ok None, w1) /\ answered w w1).
Proof.
  assert (Herr : forall status msg, exists r, forall w, (_ ← _error status msg; mret (@None value)) w = (Ok None, World (w_log w) (w_sent w ++ [r]) (w_runs w) (w_input w))).
  { intros. by eexists. }
  unfold read_body, catch, _body. unfold mbind at 1 4, M_bind at 1 4.
  destruct (q_length q) as [text|]; [|destruct (Herr 400 "Content-Length is required") as [r Hr]; eexists; split_and!; [..|right; split; [apply Hr|by exists r]]; done].
  destruct (int_of_string text) as [n|]; [|destruct (Herr 400 "invalid Content-Length") as [r Hr]; eexists; split_and!; [..|right; split; [apply Hr|by exists r]]; done].
  case_bool; [destruct (Herr 413 "request body exceeds configured limit") as [r Hr]; eexists; split_and!; [..|right; split; [cbn; reflexivity|by eexists]]; done|].
  unfold mbind, M_bind, read_input. destruct (split_at _ _) as [data rest].
  destruct (loads data) as [v|x]; [eexists; split_and!; [..|left; exists v; split; [reflexivity|done]]; done|].
  destruct (Herr 400 ("invalid JSON: " +:+ exn_msg x)) as [r Hr].
  eexists; split_and!; [..|right; split; [cbn; reflexivity|by eexists]]; done.
Qed.

(** ** The guard *)

Definition scope_of (m : method) (path : string) : string := match m with GET => get_scope path | POST => post_scope path end.

(** The log has the event as its next record, when there is a log. *)
Definition recorded (st : server) (now : string) (event : dict value) (w w' : world) : Prop :=
  match audit_log st with
  | None => w_log w' = w_log w
  | Some _ => exists record, Audit.audit_append now event (w_log w) = (Ok record, w_log w')
  end.

Lemma append_raises now event l x l' : Audit.audit_append now event l = (Raise x, l') -> l' = l.
Proof.
  unfold Audit.audit_append, mbind, M_bind, gets, lift, modify. destruct (Audit.chain_end _) as [[prev seq]|]; [done|]. by intros [= _ <-].
Qed.

(** A decision is recorded before anything else happens. *)
Lemma principal_spec st e q scope path w : url_path (e_bracketed e) (q_target q) = Ok path ->
  match _principal st e q scope w with
  | (Raise _, w') => w' = w
  | (Ok p, w') => principal st e q scope = Ok p /\ exists event, audit_event q path scope (e_client e) p = Ok event /\
      recorded st (e_now e) event w w' /\ w_sent w' = w_sent w /\ w_runs w' = w_runs w /\ w_input w' = w_input w
  end.
Proof.
  intros Hp. unfold _principal, mbind, M_bind, lift. destruct (principal st e q scope) as [p|]; [|done]. rewrite Hp.
  destruct (audit_event _ _ _ _ _) as [event|] eqn:Hev; [|done]. unfold audit, recorded, mbind, M_bind, on_log.
  destruct (audit_log st) as [log|]; [|split; [done|by exists event]].
  destruct (Audit.audit_append (e_now e) event (w_log w)) as [[record|x] l] eqn:E.
  - split; [done|]. exists event. split_and!; try done. by exists record.
  - apply append_raises in E as ->. by destruct w.
Qed.

Lemma event_fields q path scope client p event : audit_event q path scope client p = Ok event ->
  dget "allowed" event = Some (VBool (match p with Some _ => true | None => false end)) /\ dget "path" event = Some (VStr path) /\
  dget "required_scope" event = Some (VStr scope) /\ event_ok event.
Proof.
  unfold audit_event. intros H. apply res_bind_Ok in H as (id&_&[= <-]). split_and!; try done.
  unfold event_ok. repeat (apply Forall_cons_2; [cbn [fst]; apply (bool_decide_unpack _); vm_compute; exact I|]). apply Forall_nil_2.
Qed.

(** The answer of a request that is let through. *)
Definition served (st : server) (e : env) (q : request) (path : string) : H unit :=
  match q_method q with
  | GET => catch exceptions (get_path st e path) failed
  | POST => body ← read_body st q; match body with Some v => catch exceptions (post_path st e path v) failed | None => mret tt end
  end.
Lemma served_settles st e q path : settles (permitted st (scope_of (q_method q) path)) (served st e q path).
Proof.
  unfold served. destruct (q_method q); [apply settles_caught, tries_get|]. intros w. unfold mbind, M_bind.
  destruct (read_body_spec st q w) as (w1&Hr&Hl&[(v&Hb&Hs)|[Hb Ha]]); rewrite Hb.
  - destruct (settles_caught _ _ (tries_post st e path v) w1) as (u&w2&H2&(r&Ha)&Hr2&Hl2). exists u, w2. split; [exact H2|].
    split; [exists r; congruence|]. split; [|congruence]. unfold ran in *. rewrite Hr in Hr2. exact Hr2.
  - exists tt, w1. split_and!; [done|done|by left|done].
Qed.

Lemma handle_guarded st e q : handle st e q =
  (path ← lift (url_path (e_bracketed e) (q_target q)); granted ← _require_scope st e q (scope_of (q_method q) path);
   if granted : bool then served st e q path else mret tt).
Proof. unfold handle, served. by destruct (q_method q). Qed.

(** What a request does. *)
Definition guards (st : server) (e : env) (q : request) (w : world) : Prop :=
  match handle st e q w with
  | (Raise _, w') => w' = w
  | (Ok _, w') => exists path p event r, let scope := scope_of (q_method q) path in
      url_path (e_bracketed e) (q_target q) = Ok path /\ principal st e q scope = Ok p /\
      dget "allowed" event = Some (VBool (match p with Some _ => true | None => false end)) /\ dget "path" event = Some (VStr path) /\
      dget "required_scope" event = Some (VStr scope) /\ recorded st (e_now e) event w w' /\ w_sent w' = w_sent w ++ [r] /\
      match p with
      | None => r = refusal q /\ w_runs w' = w_runs w /\ w_input w' = w_input w
      | Some _ => ran (permitted st scope) w w'
      end
  end.
Lemma guarded st e q w : guards st e q w.
Proof.
  unfold guards. rewrite handle_guarded. unfold mbind at 1, M_bind at 1, lift at 1. destruct (url_path _ _) as [path|] eqn:Hp; [|done].
  unfold _require_scope. unfold mbind, M_bind.
  pose proof (principal_spec st e q (scope_of (q_method q) path) path w Hp) as H.
  destruct (_principal _ _ _ _ w) as [[[p|]|x] w1]; [| |done].
  - destruct H as (Hd&event&He&Hrec&Hs&Hr&_). destruct (event_fields _ _ _ _ _ _ He) as (E1&E2&E3&_).
    destruct (served_settles st e q path w1) as (u&w2&H2&(r&Ha)&Hr2&Hl2). unfold mret, M_ret. rewrite H2. cbv beta iota.
    exists path, (Some p), event, r. split_and!; try done.
    + unfold recorded in *. by rewrite Hl2.
    + by rewrite Ha, Hs.
    + unfold ran in *. by rewrite Hr in Hr2.
  - destruct H as (Hd&event&He&Hrec&Hs&Hr&Hi). destruct (event_fields _ _ _ _ _ _ He) as (E1&E2&E3&_).
    unfold send, modify, mret, M_ret. cbv beta iota. exists path, None, event, (refusal q). split_and!; try done. cbn. by rewrite Hs.
Qed.

(** C12: every request is guarded.  A request that is answered is answered once, after its
    authorisation was decided and recorded once; a refused request is answered 401 or 403, runs
    nothing and leaves its body unread, and one that is let through runs at most one command: the
    worker with the server's own arguments for a job, or a reading evidence command on the server's
    store.  A request whose handler raises is not answered and runs nothing. *)
Theorem request_guarded st e q w :
  match handle st e q w with
  | (Raise _, w') => w' = w
  | (Ok _, w') => exists path p event r, let scope := scope_of (q_method q) path in
      url_path (e_bracketed e) (q_target q) = Ok path /\ principal st e q scope = Ok p /\
      dget "allowed" event = Some (VBool (match p with Some _ => true | None => false end)) /\ dget "path" event = Some (VStr path) /\
      dget "required_scope" event = Some (VStr scope) /\ recorded st (e_now e) event w w' /\ w_sent w' = w_sent w ++ [r] /\
      match p with
      | None => r = refusal q /\ w_runs w' = w_runs w /\ w_input w' = w_input w
      | Some _ => ran (permitted st scope) w w'
      end
  end.
Proof. exact (guarded st e q w). Qed.

(** ** Credentials *)

(** The request carries a token of the store that is not revoked, with its secret, and that has the scope. *)
Definition holds_token (path : string) (e : env) (q : request) (scope : string) : Prop :=
  exists raw id secret doc tokens item salt expected rounds scopes,
    q_authorization q = Some ("Bearer " +:+ raw) /\ str_split1 "."%char raw = Some (id, secret) /\
    Store.load_doc path (e_auth e) = Ok (doc, tokens) /\ dget id tokens = Some (VDict item) /\ py_bool (dget_n "revoked_at" item) = false /\
    Store.read_record item = Ok (salt, expected, rounds) /\ Store.derive secret salt rounds = Ok expected /\
    Store.value_set (dget_or "scopes" (VList []) item) = Ok scopes /\ (VStr "*" ∈ scopes \/ VStr scope ∈ scopes).
Definition entitled (st : server) (e : env) (q : request) (scope : string) : Prop :=
  match auth_store st, token st with
  | Some path, _ => holds_token path e q scope
  | None, Some t => q_authorization q = Some ("Bearer " +:+ t)
  | None, None => True
  end.

Lemma bearer_spec q raw : bearer q = Some raw -> q_authorization q = Some ("Bearer " +:+ raw).
Proof. unfold bearer. destruct (q_authorization q) as [s|]; [intros H%strip_prefix_spec; cbn in H; by subst s|done]. Qed.

Lemma has_scope scopes x : existsb (fun y => eq_str y x) scopes = true -> VStr x ∈ scopes.
Proof. intros (v&Hv&->%eq_str_true)%existsb_exists. by apply list_elem_of_In. Qed.

Lemma verified_token path f raw scope v : Store.verify_token path f raw (Some scope) = Ok v -> (exists ok, vget "ok" v = Ok ok /\ py_bool ok = true) ->
  exists id secret doc tokens item salt expected rounds scopes, str_split1 "."%char raw = Some (id, secret) /\
    Store.load_doc path f = Ok (doc, tokens) /\ dget id tokens = Some (VDict item) /\ py_bool (dget_n "revoked_at" item) = false /\
    Store.read_record item = Ok (salt, expected, rounds) /\ Store.derive secret salt rounds = Ok expected /\
    Store.value_set (dget_or "scopes" (VList []) item) = Ok scopes /\ (VStr "*" ∈ scopes \/ VStr scope ∈ scopes).
Proof.
  unfold Store.verify_token. intros H (ok&Hok&Hb).
  assert (Hrefuse : forall reason rest, v <> Store.refuse reason rest).
  { intros reason rest ->. cbn in Hok. injection Hok as <-. done. }
  destruct (str_split1 _ raw) as [[id secret]|]; [|injection H as <-; by exfalso; eapply Hrefuse].
  destruct (Store.load_doc path f) as [[doc tokens]|x]; [|case_bool; [injection H as <-; by exfalso; eapply Hrefuse|done]].
  unfold dget_n at 1, dget_or at 1 in H.
  destruct (dget id tokens) as [[| | | | | |item]|] eqn:Hi; try (injection H as <-; by exfalso; eapply Hrefuse).
  unfold Store.check_item in H. destruct (py_bool (dget_n "revoked_at" item)) eqn:Hr; [injection H as <-; by exfalso; eapply Hrefuse|].
  destruct (Store.read_record item) as [[[salt expected] rounds]|] eqn:Hrec; [|injection H as <-; by exfalso; eapply Hrefuse].
  apply res_bind_Ok in H as (actual&Hd&H). destruct (String.eqb_spec actual expected) as [->|]; [|injection H as <-; by exfalso; eapply Hrefuse].
  cbn [negb] in H. unfold Store.authorize in H. apply res_bind_Ok in H as (scopes&Hs&H). apply res_bind_Ok in H as (sorted&_&[= <-]).
  cbn in Hok. injection Hok as <-. exists id, secret, doc, tokens, item, salt, expected, rounds, scopes. split_and!; try done.
  cbn [py_bool] in Hb. apply orb_true_iff in Hb as [Hb|Hb]; [left|right]; by apply has_scope.
Qed.

Lemma principal_entitled st e q scope v : principal st e q scope = Ok (Some v) -> entitled st e q scope.
Proof.
  unfold principal, entitled. destruct (auth_store st) as [path|].
  - destruct (bearer q) as [raw|] eqn:Hb; [|done]. apply bearer_spec in Hb. case_bool; [done|]. intros H.
    apply res_bind_Ok in H as (result&Hv&H). apply res_bind_Ok in H as (ok&Hok&H). destruct (py_bool ok) eqn:E; [|done].
    destruct (verified_token path (e_auth e) raw scope result Hv ltac:(by exists ok)) as (id&secret&H'). exists raw, id, secret. naive_solver.
  - destruct (token st) as [t|]; [|done]. destruct (bearer q) as [raw|] eqn:Hb; [|done]. apply bearer_spec in Hb. intros H.
    apply res_bind_Ok in H as (same&Hs&H). destruct same; [|done]. unfold compare_digest in Hs. case_bool; [|done].
    injection Hs as Hs. apply String.eqb_eq in Hs as ->. done.
Qed.

Lemma start_guarded m a st : start m a = Ok st -> _loopback (a_host a) = false -> a_allow_remote a = false ->
  is_some (auth_store st) = true \/ is_some (token st) = true.
Proof.
  unfold start. intros H Hh Ha. rewrite Hh, Ha in H. do 5 (apply res_bind_Ok in H as (?&_&H)).
  apply res_bind_Ok in H as (u&Hc&H). apply res_bind_Ok in H as (p&_&H). apply res_bind_Ok in H as (wk&_&H).
  apply res_bind_Ok in H as ([ev store]&_&H). apply res_bind_Ok in H as (?&_&H). apply res_bind_Ok in H as (caps&_&[= <-]). cbn [auth_store token].
  unfold check_arg in Hc. case_bool; [|done]. bool_prop. destruct Heqb as [Hx|Hx]; [|done]. apply orb_true_iff in Hx. naive_solver.
Qed.

(** C14: a server that other machines can reach works only for those who hold a token.  When it was
    started on an address that is not the loopback, without the flag that allows anyone, a request
    that makes it run a command carries the server's token, or a token of the store, with its
    secret, that is not revoked and has the scope the command needs. *)
Theorem remote_work_needs_credentials m a st e q w r w' :
  start m a = Ok st -> _loopback (a_host a) = false -> a_allow_remote a = false -> handle st e q w = (r, w') -> w_runs w' <> w_runs w ->
  exists scope command stdin, w_runs w' = w_runs w ++ [(command, stdin)] /\ permitted st scope command stdin /\
    (scope = "execute:run" \/ scope = "evidence:read") /\
    match auth_store st, token st with
    | Some path, _ => holds_token path e q scope
    | None, Some t => q_authorization q = Some ("Bearer " +:+ t)
    | None, None => False
    end.
Proof.
  intros Hs Hh Ha Hr Hne. pose proof (guarded st e q w) as Hg. unfold guards in Hg. rewrite Hr in Hg. destruct r as [u|x]; [|by subst w'].
  destruct Hg as (path&p&event&rs&_&Hp&_&_&_&_&_&Hx). destruct p as [v|]; [|by destruct Hx as (_&Hx&_)].
  destruct Hx as [Hx|(command&stdin&Hperm&Hruns)]; [done|]. exists (scope_of (q_method q) path), command, stdin. split; [done|]. split; [done|].
  split.
  - unfold permitted in Hperm. destruct (String.eqb_spec (scope_of (q_method q) path) "execute:run"); [by left|].
    destruct (String.eqb_spec (scope_of (q_method q) path) "evidence:read"); [by right|done].
  - apply principal_entitled in Hp. unfold entitled in Hp. destruct (start_guarded m a st Hs Hh Ha) as [Hi|Hi];
      destruct (auth_store st); try done; by destruct (token st).
Qed.

(** ** The audit trail *)

(** Requests served one after another, each on what its connection sends; an exception ends only its
    own request. *)
Fixpoint serve (st : server) (rs : list (env * request * string)) (w : world) : world :=
  match rs with
  | [] => w
  | (e, q, input) :: rs => serve st rs (snd (handle st e q (World (w_log w) (w_sent w) (w_runs w) input)))
  end.

(** The log is a chain with a record for each answer. *)
Definition trailed (w : world) : Prop := exists prev, chained (default [] (w_log w)) prev (Z.of_nat (length (w_sent w))).

Lemma append_none now event l : Audit.audit_append now event l = Audit.audit_append now event (Some (default [] l)).
Proof. by destruct l. Qed.

Lemma handle_trailed st e q w : is_some (audit_log st) = true -> trailed w -> trailed (snd (handle st e q w)).
Proof.
  intros Hl [prev Hc]. rewrite handle_guarded. unfold mbind at 1, M_bind at 1, lift at 1.
  destruct (url_path _ _) as [path|] eqn:Hp; [|by exists prev]. unfold _require_scope, mbind, M_bind.
  pose proof (principal_spec st e q (scope_of (q_method q) path) path w Hp) as H.
  destruct (_principal _ _ _ _ w) as [[p|x] w1]; [|subst w1; by exists prev].
  destruct H as (_&event&He&Hrec&Hs&_). unfold recorded in Hrec. destruct (audit_log st); [|done]. destruct Hrec as (record&Hrec).
  destruct (event_fields _ _ _ _ _ _ He) as (_&_&_&Hok). rewrite append_none in Hrec.
  destruct (append_chained (e_now e) event _ prev _ Hok Hc) as (record'&Ha&Hc'&_). rewrite Ha in Hrec. injection Hrec as _ Hlog.
  assert (Ht : forall w2, w_log w2 = w_log w1 -> answered w1 w2 -> trailed w2).
  { intros w2 Hw (r&Hr). eexists. rewrite Hw, Hr, Hs, <- Hlog, length_app. cbn [default from_option id length].
    rewrite Nat2Z.inj_add. exact Hc'. }
  destruct p as [v|].
  - destruct (served_settles st e q path w1) as (u&w2&H2&Ha2&_&Hl2). unfold mret, M_ret. rewrite H2. by apply Ht.
  - apply Ht; [done|]. by eexists.
Qed.

Lemma serve_trailed st rs w : is_some (audit_log st) = true -> trailed w -> trailed (serve st rs w).
Proof.
  intros Hl. revert w. induction rs as [|[[e q] input] rs IH]; intros w Hw; [done|]. cbn [serve]. apply IH. by apply handle_trailed.
Qed.

(** Every answer is on the record.  Whatever requests a server with an audit log serves, with
    whatever credentials, and whatever the programs it runs do, the log verifies without an error
    and has as many records as answers were sent. *)
Theorem every_answer_is_audited st rs : is_some (audit_log st) = true ->
  let w := serve st rs (World None [] [] "") in
  exists report, Audit.audit_verify (w_log w) = Ok report /\ dget "ok" report = Some (VBool true) /\ dget "errors" report = Some (VList []) /\
    dget "records" report = Some (VInt (Z.of_nat (length (w_sent w)))).
Proof.
  intros Hl w. assert (Hw : trailed w) by (apply serve_trailed; [done|]; by exists Audit.zero_hash). clearbody w.
  destruct Hw as (prev&_&Hc). destruct (w_log w) as [ls|].
  - unfold Audit.audit_verify. cbn [default from_option id] in Hc. rewrite Hc. by eexists.
  - cbn in Hc. injection Hc as _ Hn. rewrite <- Hn. by eexists.
Qed.

(** ** Witnesses *)

Definition sample_caps : dict value := [("schema", VStr "ppc-lab-capabilities-v1"); ("version", VStr "1.0")].
Definition sample_machine : machine :=
  Machine id (fun _ => true) (fun _ => true) (fun k => if String.eqb k "PPC_LAB_API_TOKEN" then Some "s3cret" else None) (fun p => Some ("/usr/bin/" +:+ p))
    "/opt/scripts" "/usr/bin/python3" (fun _ => None) (fun _ => Finished 0 (Ok (VDict sample_caps))).
Definition sample_arguments : arguments :=
  Arguments "0.0.0.0" 8765 None None None None None None None (Some "/var/audit.jsonl") false (ratio 60 1) MAX_BODY_DEFAULT false.
Definition sample_server : server := Eval vm_compute in
  ok_or (Server "" "" "" None None None None None None fzero 0 false []) (start sample_machine sample_arguments).
Definition sample_env : env := Env "2026-01-01T00:00:00Z" (Some "10.0.0.9") None
  (fun _ _ => Finished 0 (Ok (VDict [("schema", VStr "ppc-lab-worker-response-v1"); ("ok", VBool true)]))) (fun _ => false).
Definition sample_request (authorization : option string) : request := Request POST "/v1/run?x=1" authorization (Some "2").
Definition sample_start : world := World None [] [] "{}".

Lemma remote_work_needs_credentials_witness :
  let '(_, w') := handle sample_server sample_env (sample_request (Some "Bearer s3cret")) sample_start in
  exists scope command stdin, w_runs w' = [(command, stdin)] /\ permitted sample_server scope command stdin /\
    (scope = "execute:run" \/ scope = "evidence:read") /\ q_authorization (sample_request (Some "Bearer s3cret")) = Some ("Bearer " +:+ "s3cret").
Proof.
  destruct (handle sample_server sample_env (sample_request (Some "Bearer s3cret")) sample_start) as [r w'] eqn:E.
  apply (remote_work_needs_credentials sample_machine sample_arguments sample_server sample_env (sample_request (Some "Bearer s3cret")) sample_start r w').
  - vm_compute. reflexivity.
  - reflexivity.
  - reflexivity.
  - exact E.
  - intros Hn. apply (f_equal (fun x => length (w_runs (snd x)))) in E. cbn [snd] in E. rewrite Hn in E. vm_compute in E. discriminate E.
Defined.

Lemma every_answer_is_audited_witness :
  let w := serve sample_server [(sample_env, sample_request None, "{}"); (sample_env, sample_request (Some "Bearer s3cret"), "{}")] (World None [] [] "") in
  exists report, Audit.audit_verify (w_log w) = Ok report /\ dget "ok" report = Some (VBool true) /\ dget "errors" report = Some (VList []) /\
    dget "records" report = Some (VInt (Z.of_nat (length (w_sent w)))).
Proof. exact (every_answer_is_audited sample_server _ eq_refl). Defined.

(** ** What the model shows besides *)

(** The body of a refused request stays on the connection, where the next request is read. *)
Example refused_body_is_left : let w := snd (handle sample_server sample_env (sample_request None) sample_start) in
  s_status <$> w_sent w = [401] /\ w_input w = "{}".
Proof. vm_compute. done. Qed.

(** A bearer token outside ASCII drops the connection: no answer, and no record. *)
Example odd_token_is_not_recorded :
  handle sample_server sample_env (sample_request (Some ("Bearer " +:+ String (byte 195) (String (byte 169) "")))) sample_start =
    (Raise (Exn TypeError "comparing strings with non-ASCII characters is not supported"), sample_start).
Proof. vm_compute. done. Qed.

(** An empty [PPC_LAB_API_TOKEN] counts as a token, which [Bearer] and a space match. *)
Definition empty_token_machine : machine :=
  Machine id (fun _ => true) (fun _ => true) (fun _ => Some "") (fun p => Some ("/usr/bin/" +:+ p)) "/opt/scripts" "/usr/bin/python3" (fun _ => None)
    (fun _ => Finished 0 (Ok (VDict sample_caps))).
Example empty_token_opens_the_server :
  match start empty_token_machine sample_arguments with
  | Ok st => token st = Some "" /\ length (w_runs (snd (handle st sample_env (sample_request (Some "Bearer ")) sample_start))) = 1%nat
  | Raise _ => False
  end.
Proof. vm_compute. done. Qed.
