(* ===== verification/Explore.v ===== *)
(** * Guided exploration of an input domain ([ppc_lab_explore.py])

    A manifest names a job and axes, fields of the job with values to try.  Exploration runs the job
    under assignments of values to axes; a case is novel when it reaches new instructions or behaves in
    a new way, and the guided strategies go on from novel cases.  The record [search] is what the
    closures of [main] share; the worker and the promotion tool are an oracle. *)
From stdpp Require Import pretty.
From Stdlib Require Import Ascii.
From S2P Require Import Trace Worker.
From S2P Require Export PyState Json Sha.

Abbreviation obj := VDict.

Definition MANIFEST_SCHEMA : string := "ppc-lab-exploration-v1".
Definition CASE_SCHEMA : string := "ppc-lab-exploration-case-v1".
Definition SUMMARY_SCHEMA : string := "ppc-lab-exploration-summary-v1".
Definition ALLOWED_AXIS_ROOTS : list string := ["registers"; "float_registers"; "writes_u32"; "writes_f32"; "bindings"; "syscall_returns"].

Definition canonical_hash (v : value) : string := sha256_hex (canonical v).

(** ** Inputs *)

(** The file system: strict resolution and regular files, and the size and digest of a file. *)
Record system := System { y_files : files; y_root : string; y_base : string; y_digest : string -> Z * string }.

Definition contained (y : system) (path : string) : res string :=
  resolved ← fs_resolve (y_files y) path;
  _ ← guard_app (path_within (y_root y) resolved) ("input is outside exploration root: " +:+ resolved);
  _ ← guard_app (fs_is_file (y_files y) resolved) ("input is not a file: " +:+ resolved);
  Ok resolved.

Definition input_row (y : system) (image : dict value) (field : string) : res (list value) :=
  match dget_n field image with
  | VNone => Ok []
  | VStr raw =>
      _ ← guard_app (negb (str_empty raw)) ("base_job.image." +:+ field +:+ " must be a non-empty path");
      p ← contained y (path_join (y_base y) raw);
      let '(size, digest) := y_digest y p in
      Ok [obj [("field", VStr ("image." +:+ field)); ("path", VStr p); ("size", VInt size); ("sha256", VStr digest)]]
  | _ => app_error ("base_job.image." +:+ field +:+ " must be a non-empty path")
  end.
Definition resolve_inputs (y : system) (job : dict value) : res (list value) :=
  match dget_n "image" job with
  | VDict image =>
      rows ← res_map (input_row y image) ["path"; "data_path"];
      _ ← guard_app (match concat rows with [] => false | _ => true end) "base_job.image.path is required";
      Ok (concat rows)
  | _ => app_error "base_job.image must be an object"
  end.

(** ** Axes and assignments *)

Record axis := Axis { ax_path : string; ax_values : list value }.

Definition validate_axis (iv : Z * value) : res axis :=
  let at_axis := "axes[" +:+ pretty (fst iv) +:+ "]" in
  match snd iv with
  | VDict d =>
      match dget_n "path" d with
      | VStr path =>
          match str_split1 "."%char path with
          | Some (root, _) =>
              _ ← guard_app (existsb (String.eqb root) ALLOWED_AXIS_ROOTS) (at_axis +:+ ".path cannot mutate structural field");
              match dget_n "values" d with
              | VList (v :: vs) => Ok (Axis path (v :: vs))
              | _ => app_error (at_axis +:+ ".values must be a non-empty array")
              end
          | None => app_error (at_axis +:+ ".path must be FIELD.KEY")
          end
      | _ => app_error (at_axis +:+ ".path must be FIELD.KEY")
      end
  | _ => app_error (at_axis +:+ " must be an object")
  end.

(** [path.split(".", 1)] of an axis that was validated. *)
Definition split_path (path : string) : string * string := default (path, "") (str_split1 "."%char path).

Definition set_path (job : dict value) (pv : string * value) : res (dict value) :=
  let '(first, second) := split_path (fst pv) in
  match dget_or first (obj []) job with
  | VDict d => Ok (dset first (obj (dset second (snd pv) d)) job)
  | _ => app_error ("base_job." +:+ first +:+ " must be an object to mutate " +:+ fst pv)
  end.
Definition job_with_assignment (base_job : dict value) (assignment : dict value) : res (dict value) :=
  res_fold set_path base_job assignment.
Definition assignment_key (assignment : dict value) : string := canonical (obj assignment).

(** ** What a case shows *)

Definition trace_pcs (stderr : string) : list string :=
  omap (fun line => match match_head (str_strip line) with Some (pc, _, _) => Some (str_lower pc) | None => None end) (text_lines stderr "").

Definition _u32 (v : value) : option Z :=
  match v with
  | VBool b => Some (u32 (if b then 1 else 0))
  | VInt n => Some (u32 n)
  | VStr s => u32 <$> int_of_string0 s
  | _ => None
  end.

Definition result_keys : list string := ["stop_reason"; "instructions"; "pc"; "instruction"; "registers"; "lr"; "ctr"; "cr"; "dumps"].
Definition snapshot_keys : list string := ["stop_reason"; "instructions"; "pc"; "instruction"; "cpu"; "regions"; "dumps"].

(** Change the value of a key that holds an object. *)
Definition in_dict (k : string) (f : dict value -> dict value) (d : dict value) : dict value :=
  match dget k d with Some (VDict x) => dset k (obj (f x)) d | _ => d end.
Definition same_u32 (expected : Z) (v : value) : bool := match _u32 v with Some n => n =? expected | None => false end.
Definition mask_register (name : string) (expected : Z) (regs : dict value) : dict value :=
  if same_u32 expected (dget_n name regs) then dset name (VStr "<input>") regs else regs.
Definition mask_gpr (index : Z) (expected : Z) (cpu : dict value) : dict value :=
  match dget "gpr" cpu with
  | Some (VList gpr) =>
      match gpr !! Z.to_nat index with
      | Some v => if same_u32 expected v then dset "gpr" (VList (<[Z.to_nat index := VStr "<input>"]> gpr)) cpu else cpu
      | None => cpu
      end
  | _ => cpu
  end.
(** An input register that still holds its input is no behaviour. *)
Definition mask_input (d : dict value) (pv : string * value) : dict value :=
  if str_startswith "registers.r" (fst pv) then
    let name := snd (split_path (fst pv)) in
    match int_of_string (String.substring 1 (String.length name - 1) name), _u32 (snd pv) with
    | Some index, Some expected =>
        if (0 <=? index) && (index <? 32)
        then in_dict "snapshot" (in_dict "cpu" (mask_gpr index expected)) (in_dict "result" (in_dict "registers" (mask_register name expected)) d)
        else d
    | _, _ => d
    end
  else d.
Definition stable_architecture (response : dict value) (assignment : dict value) : dict value :=
  let head := [("ok", dget_n "ok" response); ("exit_code", dget_n "exit_code" response);
               ("timed_out", dget_or "timed_out" (VBool false) response)] in
  let error := match dget_n "error" response with VNone => [] | v => [("error", v)] end in
  let result := match dget_n "result" response with VDict d => [("result", obj (pick result_keys d))] | _ => [] end in
  let snapshot := match dget_n "snapshot" response with VDict d => [("snapshot", obj (pick snapshot_keys d))] | _ => [] end in
  fold_left mask_input assignment (head ++ error ++ result ++ snapshot).

(** ** Running a case *)

(** What the worker does with a job: the output as [json.loads] has it. *)
Inductive outcome := TransportTimeout | NotRun (msg : string) | Answered (stdout : res value).
(** The worker, by case, and the promotion tool when there is one. *)
Record oracle := Oracle { o_worker : nat -> dict value -> outcome; o_promote : option (string -> dict value -> bool) }.

(** [execution["trace"] = True] *)
Definition with_trace (job : dict value) : res (dict value) :=
  match dget_or "execution" (obj []) job with
  | VDict execution => Ok (dset "execution" (obj (dset "trace" (VBool true) execution)) job)
  | _ => app_error "base_job.execution must be an object"
  end.
Definition run_worker (o : oracle) (n : nat) (job : dict value) : res value :=
  match o_worker o n job with
  | TransportTimeout => app_error "worker transport timeout"
  | NotRun msg => Raise (Exn OSError msg)
  | Answered (Raise _) => app_error "worker returned invalid JSON"
  | Answered r => r
  end.

(** The inputs of a promoted job are absolute. *)
Definition absolute_field (y : system) (image : dict value) (field : string) : res (dict value) :=
  match dget_n field image with
  | VNone => Ok image
  | VStr raw => p ← contained y (path_join (y_base y) raw); Ok (dset field (VStr p) image)
  | _ => Raise (Exn TypeError "argument should be a str or an os.PathLike object")
  end.
Definition absolute_job_inputs (y : system) (job : dict value) : res (dict value) :=
  match dget "image" job with
  | None => Ok job
  | Some (VDict image) => image ← res_fold (absolute_field y) image ["path"; "data_path"]; Ok (dset "image" (obj image) job)
  | Some v => no_attr v "get"
  end.

(** ** The search *)

Record row := Row {
  r_index : nat; r_parent : option nat; r_assignment : dict value; r_novel : bool; r_new_pcs : list string; r_behavior_novel : bool;
  r_behavior : string; r_events : nat; r_pcs : list string; r_worker : dict value; r_job : dict value; r_promoted : option string }.
Record stats := Stats { attempts : Z; novel : Z; new_pcs : Z }.
Record search := Search {
  evaluated : list string; seen_pcs : list string; seen_behaviors : list string; case_rows : list row; promoted : Z; axis_stats : dict stats }.
Abbreviation E := (M search).

(** The elements of [l] that are not in [seen], once each. *)
Definition set_minus (l seen : list string) : list string := List.filter (fun x => negb (existsb (String.eqb x) seen)) (remove_dups l).
Definition set_union (seen l : list string) : list string := seen ++ set_minus l seen.

Definition count_case (is_novel : bool) (pcs : nat) (s : stats) : stats :=
  Stats (attempts s + 1) (novel s + if is_novel then 1 else 0) (new_pcs s + Z.of_nat pcs).
Definition update_stats (mutated_axis : option string) (is_novel : bool) (pcs : nat) (d : dict stats) : dict stats :=
  match mutated_axis with
  | Some path => match dget path d with Some s => dset path (count_case is_novel pcs s) d | None => d end
  | None => d
  end.

(** [f"{index:05d}"] *)
Definition case_name (index : nat) : string := zpad 5 (Z.of_nat index).
Definition add_row (r : row) (mutated_axis : option string) (s : search) : search :=
  Search (evaluated s) (seen_pcs s) (seen_behaviors s) (case_rows s ++ [r]) (promoted s)
    (update_stats mutated_axis (r_novel r) (length (r_new_pcs r)) (axis_stats s)).
Definition learn (r : row) (s : search) : search :=
  Search (evaluated s) (set_union (seen_pcs s) (r_pcs r)) (set_union (seen_behaviors s) [r_behavior r]) (case_rows s) (promoted s) (axis_stats s).
Definition set_promoted (cid : string) (r : row) : row :=
  Row (r_index r) (r_parent r) (r_assignment r) (r_novel r) (r_new_pcs r) (r_behavior_novel r) (r_behavior r) (r_events r) (r_pcs r)
    (r_worker r) (r_job r) (Some cid).
Definition mark_promoted (cid : string) (index : nat) (s : search) : search :=
  Search (evaluated s) (seen_pcs s) (seen_behaviors s) (alter (set_promoted cid) index (case_rows s)) (promoted s + 1) (axis_stats s).

Definition promote (y : system) (o : oracle) (r : row) : E unit :=
  match o_promote o with
  | Some tool =>
      if py_bool (dget_n "ok" (r_worker r)) then
        let cid := "explore-" +:+ case_name (r_index r) +:+ "-" +:+ prefix_of 12 (r_behavior r) in
        job ← lift (absolute_job_inputs y (r_job r));
        _ ← lift (guard_app (tool cid job) ("corpus promotion failed for " +:+ cid));
        modify (mark_promoted cid (r_index r))
      else mret tt
  | None => mret tt
  end.

(** The row of a case, from what was seen before it. *)
Definition make_row (s : search) (assignment : dict value) (parent : option nat) (response job : dict value) : row :=
  let pcs := trace_pcs (py_str (dget_or "stderr" (VStr "") response)) in
  let fresh := py_sorted id (set_minus pcs (seen_pcs s)) in
  let behavior := canonical_hash (obj (stable_architecture response assignment)) in
  let behavior_novel := negb (existsb (String.eqb behavior) (seen_behaviors s)) in
  let first := match case_rows s with [] => true | _ => false end in
  let is_novel := match fresh with [] => false | _ => true end || behavior_novel || first in
  Row (length (case_rows s)) parent assignment is_novel fresh behavior_novel behavior (length pcs) (py_sorted id (remove_dups pcs)) response job None.

(** [evaluate]: whether the case is novel and its index, nothing for an assignment that was run. *)
Definition evaluate (y : system) (o : oracle) (base_job assignment : dict value) (parent : option nat) (mutated_axis : option string) :
    E (option (bool * nat)) :=
  let key := assignment_key assignment in
  known ← gets (fun s => existsb (String.eqb key) (evaluated s));
  if known : bool then mret None
  else
    _ ← modify (fun s => Search (key :: evaluated s) (seen_pcs s) (seen_behaviors s) (case_rows s) (promoted s) (axis_stats s));
    job ← lift (job_with_assignment base_job assignment);
    job ← lift (with_trace job);
    n ← gets (fun s => length (case_rows s));
    response ← lift (run_worker o n job);
    match response with
    | VDict response =>
        s ← gets id;
        let r := make_row s assignment parent response job in
        _ ← modify (add_row r mutated_axis);
        _ ← (if r_novel r then _ ← modify (learn r); promote y o r else mret tt);
        mret (Some (r_novel r, r_index r))
    | v => lift (no_attr v "get")
    end.

(** ** The strategies *)

Record config := Config {
  g_job : dict value; g_axes : list axis; g_max_cases : Z; g_window : Z; g_rate : float; g_min_cases : Z }.

Record candidate := Candidate { c_assignment : dict value; c_parent : option nat; c_axis : option string; c_serial : Z }.

(** The assignments that differ from one in the value of one axis, in the order of axes and values. *)
Definition neighbours (axes : list axis) (assignment : dict value) : list (string * dict value) :=
  concat ((fun a => (fun v => (ax_path a, dset (ax_path a) v assignment)) <$>
                      List.filter (fun v => negb (py_eq (dget_n (ax_path a) assignment) v)) (ax_values a)) <$> axes).
(** The queue, the keys that were ever queued, and the next serial number. *)
Record frontier := Frontier { f_queue : list candidate; f_queued : list string; f_serial : Z }.
Definition offer (known : list string) (parent : nat) (f : frontier) (pa : string * dict value) : frontier :=
  let k := assignment_key (snd pa) in
  if existsb (String.eqb k) known || existsb (String.eqb k) (f_queued f) then f
  else Frontier (f_queue f ++ [Candidate (snd pa) (Some parent) (Some (fst pa)) (f_serial f)]) (k :: f_queued f) (f_serial f + 1).
Definition expand (axes : list axis) (known : list string) (assignment : dict value) (index : nat) (f : frontier) : frontier :=
  fold_left (offer known index) (neighbours axes assignment) f.

(** The loop of the guided strategies: [choose] picks the next candidate of a queue that is not empty,
    [plateau] ends the search after a case. *)
Section strategy.
Context (y : system) (o : oracle) (g : config) (choose : search -> list candidate -> nat) (plateau : search -> bool).

Definition room (s : search) : bool := Z.of_nat (length (case_rows s)) <? g_max_cases g.
(** Whether the search was stopped before its queue and its budget. *)
Fixpoint search_loop (fuel : nat) (f : frontier) : E bool :=
  more ← gets room;
  match f_queue f, more, fuel with
  | first :: rest, true, S fuel =>
      s ← gets id;
      let i := choose s (first :: rest) in
      let c := default first ((first :: rest) !! i) in
      let f := Frontier (delete i (first :: rest)) (f_queued f) (f_serial f) in
      outcome ← evaluate y o (g_job g) (c_assignment c) (c_parent c) (c_axis c);
      stop ← gets plateau;
      if stop : bool then mret true
      else
        match outcome with
        | Some (true, index) => s ← gets id; search_loop fuel (expand (g_axes g) (evaluated s) (c_assignment c) index f)
        | _ => search_loop fuel f
        end
  | _, _, _ => mret false
  end.
End strategy.

Definition guided_choice (_ : search) (_ : list candidate) : nat := O.
Definition never (_ : search) : bool := false.

Definition fint (n : Z) : float := ok_or fzero (float_of_int n).
(** Unknown axes keep a prior; the baseline comes first. *)
Definition axis_priority (s : search) (path : option string) : float :=
  match path with
  | None => fint 1000000000
  | Some path =>
      let st := default (Stats 0 0 0) (dget path (axis_stats s)) in
      let novelty_yield := fdiv_ieee (fadd (fint (novel st)) (fint 1)) (fadd (fint (attempts st)) (fint 2)) in
      let coverage_yield := fdiv_ieee (fint (new_pcs st)) (fadd (fint (attempts st)) (fint 1)) in
      fadd novelty_yield (fmul (if fltb (fint 1000) coverage_yield then fint 1000 else coverage_yield) (ratio 1 100))
  end.
(** [max(range(n), key=...)]: the first index whose key no other exceeds. *)
Definition above (a b : float * Z) : bool := fltb (fst b) (fst a) || (feqb (fst a) (fst b) && (snd b <? snd a)).
Fixpoint max_index (key : candidate -> float * Z) (l : list candidate) (i best : nat) (best_key : float * Z) : nat :=
  match l with
  | [] => best
  | c :: l => if above (key c) best_key then max_index key l (S i) i (key c) else max_index key l (S i) best best_key
  end.
Definition candidate_key (s : search) (c : candidate) : float * Z := (axis_priority s (c_axis c), - c_serial c).
Definition adaptive_choice (s : search) (l : list candidate) : nat :=
  match l with [] => O | c :: l => max_index (candidate_key s) l 1 0 (candidate_key s c) end.

(** The share of novel cases among the last ones. *)
Definition tail_rows (n : Z) (s : search) : list row := drop (length (case_rows s) - Z.to_nat n) (case_rows s).
Definition novelty_rate (l : list row) : float :=
  match l with [] => fzero | _ => ratio (Z.of_nat (length (List.filter r_novel l))) (Z.of_nat (length l)) end.
Definition adaptive_plateau (g : config) (s : search) : bool :=
  let n := Z.of_nat (length (case_rows s)) in
  (g_min_cases g <=? n) && (g_window g <=? n) && fleb (novelty_rate (tail_rows (g_window g) s)) (g_rate g).

Definition baseline_value (base_job : dict value) (a : axis) : value :=
  let '(first, second) := split_path (ax_path a) in
  let dflt := List.hd VNone (ax_values a) in
  match dget_or first (obj []) base_job with VDict d => dget_or second dflt d | _ => dflt end.
Definition baseline (g : config) : dict value :=
  fold_left (fun d a => dset (ax_path a) (baseline_value (g_job g) a) d) (g_axes g) [].
Definition start_frontier (g : config) : frontier :=
  Frontier [Candidate (baseline g) None None 0] [assignment_key (baseline g)] 1.

(** Every round of a guided search runs a case, so the budget bounds the rounds. *)
Definition guided_fuel (g : config) : nat := Z.to_nat (g_max_cases g).
Definition explore_guided (y : system) (o : oracle) (g : config) : E bool :=
  search_loop y o g guided_choice never (guided_fuel g) (start_frontier g).
Definition explore_adaptive (y : system) (o : oracle) (g : config) : E bool :=
  search_loop y o g adaptive_choice (adaptive_plateau g) (guided_fuel g) (start_frontier g).

(** [itertools.product] of the values of the axes, the last axis fastest *)
Fixpoint assignments (axes : list axis) (prefix : dict value) : list (dict value) :=
  match axes with
  | [] => [prefix]
  | a :: axes => concat ((fun v => assignments axes (dset (ax_path a) v prefix)) <$> ax_values a)
  end.
Fixpoint sweep (y : system) (o : oracle) (g : config) (l : list (dict value)) : E unit :=
  match l with
  | [] => mret tt
  | a :: l =>
      more ← gets (room g);
      if more : bool then _ ← evaluate y o (g_job g) a None None; sweep y o g l else mret tt
  end.
Definition explore_cartesian (y : system) (o : oracle) (g : config) : E bool :=
  _ ← sweep y o g (assignments (g_axes g) []); mret false.

(** ** The command *)

Definition empty_search (axes : list axis) : search :=
  Search [] [] [] [] 0 ((fun a => (ax_path a, Stats 0 0 0)) <$> axes).

Definition check_adaptive (manifest : dict value) : res (Z * float * Z) :=
  adaptive ← match dget_or "adaptive" (obj []) manifest with
             | VNone => Ok []
             | VDict d => Ok d
             | _ => app_error "adaptive must be an object"
             end;
  window ← py_int (dget_or "plateau_window" (VInt 8) adaptive);
  rate ← py_float (dget_or "plateau_novelty_rate" (VFloat (ratio 125 1000)) adaptive);
  min_cases ← py_int (dget_or "min_cases" (VInt (Z.max 8 window)) adaptive);
  _ ← guard_app ((1 <=? window) && (1 <=? min_cases) && fleb fzero rate && fleb rate (ratio 1 1)) "adaptive plateau_window/min_cases must be positive";
  Ok (window, rate, min_cases).
Definition check_max_cases (manifest : dict value) : res Z :=
  match dget_or "max_cases" (VInt 64) manifest with
  | VInt n => _ ← guard_app ((1 <=? n) && (n <=? 100000)) "max_cases must be an integer in 1..100000"; Ok n
  | _ => app_error "max_cases must be an integer in 1..100000"
  end.
Inductive strategy_name := Guided | Cartesian | Adaptive.
Definition check_strategy (manifest : dict value) : res strategy_name :=
  match dget_or "strategy" (VStr "guided") manifest with
  | VStr s => if String.eqb s "guided" then Ok Guided else if String.eqb s "cartesian" then Ok Cartesian
              else if String.eqb s "adaptive" then Ok Adaptive else app_error "strategy must be guided, adaptive, or cartesian"
  | _ => app_error "strategy must be guided, adaptive, or cartesian"
  end.
Definition load_manifest (read : res value) : res (config * strategy_name) :=
  v ← read;
  match v with
  | VDict manifest =>
      _ ← guard_app (eq_str (dget_n "schema" manifest) MANIFEST_SCHEMA) ("manifest schema must be " +:+ MANIFEST_SCHEMA);
      match dget_n "base_job" manifest with
      | VDict base_job =>
          _ ← guard_app (eq_str (dget_n "schema" base_job) "ppc-lab-job-v1") "base_job must be a ppc-lab-job-v1 object";
          match dget_n "axes" manifest with
          | VList (a :: rest) =>
              axes ← res_map validate_axis (enumerate (a :: rest));
              _ ← guard_app (bool_decide (NoDup (ax_path <$> axes))) "axis paths must be unique";
              strategy ← check_strategy manifest;
              '(window, rate, min_cases) ← check_adaptive manifest;
              max_cases ← check_max_cases manifest;
              Ok (Config base_job axes max_cases window rate min_cases, strategy)
          | _ => app_error "axes must be a non-empty array"
          end
      | _ => app_error "base_job must be a ppc-lab-job-v1 object"
      end
  | _ => app_error ("manifest schema must be " +:+ MANIFEST_SCHEMA)
  end.

Definition explore (y : system) (o : oracle) (g : config) (strategy : strategy_name) : E bool :=
  match strategy with
  | Guided => explore_guided y o g
  | Cartesian => explore_cartesian y o g
  | Adaptive => explore_adaptive y o g
  end.

Definition count (n : nat) : value := VInt (Z.of_nat n).
Definition opt_index (o : option nat) : value := match o with Some n => count n | None => VNone end.
Definition case_summary (r : row) : value :=
  obj ([("index", count (r_index r)); ("parent", opt_index (r_parent r)); ("novel", VBool (r_novel r)); ("behavior_sha256", VStr (r_behavior r));
        ("new_pc_count", count (length (r_new_pcs r)))] ++ match r_promoted r with Some cid => [("promoted_case", VStr cid)] | None => [] end).
(** [round(n / attempts, 6)] *)
Definition per_attempt (n : Z) (s : stats) : value := VFloat (if attempts s =? 0 then fzero else fround (ratio n (attempts s)) 6).
Definition yield_row (s : stats) : value :=
  obj [("attempts", VInt (attempts s)); ("novel", VInt (novel s)); ("new_pcs", VInt (new_pcs s));
       ("novelty_rate", per_attempt (novel s) s); ("new_pcs_per_case", per_attempt (new_pcs s) s)].
Definition strategy_text (s : strategy_name) : string := match s with Guided => "guided" | Cartesian => "cartesian" | Adaptive => "adaptive" end.
Definition summary (manifest_path : string) (inputs : list value) (g : config) (strategy : strategy_name) (stopped : bool) (s : search) : dict value :=
  let rows := case_rows s in
  [("schema", VStr SUMMARY_SCHEMA); ("strategy", VStr (strategy_text strategy)); ("manifest", VStr manifest_path); ("max_cases", VInt (g_max_cases g));
   ("evaluated_cases", count (length rows)); ("novel_cases", count (length (List.filter r_novel rows)));
   ("successful_cases", count (length (List.filter (fun r => py_bool (dget_n "ok" (r_worker r))) rows)));
   ("unique_pcs", count (length (seen_pcs s))); ("unique_behaviors", count (length (seen_behaviors s))); ("promoted_cases", VInt (promoted s));
   ("input_provenance", VList inputs); ("cases", VList (case_summary <$> rows));
   ("axis_yield", obj (py_sorted fst ((fun kv => (fst kv, yield_row (snd kv))) <$> axis_stats s)))] ++
  match strategy with
  | Adaptive => [("adaptive", obj [("plateau_window", VInt (g_window g)); ("plateau_novelty_rate", VFloat (g_rate g)); ("min_cases", VInt (g_min_cases g));
                   ("stopped_early", VBool stopped); ("stop_reason", if stopped then VStr "novelty-plateau" else VNone);
                   ("tail_novelty_rate", VFloat (fround (novelty_rate (tail_rows (g_window g) s)) 6));
                   ("unused_case_budget", VInt (g_max_cases g - Z.of_nat (length rows)))])]
  | _ => []
  end.

(** The file written for a case. *)
Definition row_doc (r : row) : dict value :=
  [("schema", VStr CASE_SCHEMA); ("index", count (r_index r)); ("parent", opt_index (r_parent r)); ("assignment", obj (r_assignment r));
   ("novel", VBool (r_novel r));
   ("novelty", obj [("new_pcs", VList (VStr <$> r_new_pcs r)); ("new_pc_count", count (length (r_new_pcs r))); ("behavior_novel", VBool (r_behavior_novel r))]);
   ("behavior_sha256", VStr (r_behavior r));
   ("trace", obj [("events", count (r_events r)); ("unique_pcs", count (length (r_pcs r))); ("pcs", VList (VStr <$> r_pcs r))]);
   ("worker", obj (r_worker r)); ("job", obj (r_job r))] ++
  match r_promoted r with Some cid => [("promoted_case", VStr cid)] | None => [] end.

(** The exit code, and the cases and the summary that were written. *)
Definition main (y : system) (o : oracle) (timeout : float) (manifest_path out : string) (read : res value) : res (Z * list row * option (dict value)) :=
  let failed (rows : list row) (e : exn) := if handled [AppError; JSONDecodeError; OSError] e then Ok (2, rows, None) else Raise e in
  match (_ ← guard_app (negb (fleb timeout fzero)) "--timeout must be greater than zero";
         '(g, strategy) ← load_manifest read;
         inputs ← resolve_inputs y (g_job g);
         _ ← guard_app (negb (String.eqb out (y_root y))) "--out cannot be the exploration input root itself";
         Ok (g, strategy, inputs)) with
  | Raise e => failed [] e
  | Ok (g, strategy, inputs) =>
      match explore y o g strategy (empty_search (g_axes g)) with
      | (Ok stopped, s) => Ok (0, case_rows s, Some (summary manifest_path inputs g strategy stopped s))
      | (Raise e, s) => failed (case_rows s) e
      end
  end.
