(* ===== verification/ExploreProps.v ===== *)
(** * What exploration guarantees

    No assignment runs twice, novelty is exact, and a guided search that neither meets its budget nor
    a plateau has run every neighbour of every novel case. *)
From Stdlib Require Import Ascii.
From S2P Require Import Trace Worker.
From S2P Require Import Explore.

(** ** Sets *)

Lemma elem_of_set_minus l seen x : x ∈ set_minus l seen <-> x ∈ l /\ x ∉ seen.
Proof.
  unfold set_minus. rewrite list_elem_of_In, List.filter_In, <- list_elem_of_In, elem_of_remove_dups, negb_true_iff.
  split; intros [Hx Hs]; (split; [done|]).
  - intros Hin. assert (Ht : existsb (String.eqb x) seen = true); [|congruence].
    apply existsb_exists. exists x. split; [by apply list_elem_of_In|apply String.eqb_refl].
  - apply not_true_iff_false. intros (y&Hy&->%String.eqb_eq)%existsb_exists. apply Hs. by apply list_elem_of_In.
Qed.
Lemma NoDup_set_minus l seen : NoDup (set_minus l seen).
Proof.
  unfold set_minus. pose proof (NoDup_remove_dups l) as H. induction (remove_dups l) as [|x r IH]; [constructor|].
  apply NoDup_cons in H as [Hx H]. cbn. case_bool; [|by apply IH]. apply NoDup_cons. split; [|by apply IH].
  intros Hin. apply Hx. apply list_elem_of_In in Hin. apply List.filter_In in Hin as [Hin _]. by apply list_elem_of_In.
Qed.
Lemma elem_of_set_union seen l x : x ∈ set_union seen l <-> x ∈ seen \/ x ∈ l.
Proof. unfold set_union. rewrite elem_of_app, elem_of_set_minus. destruct (decide (x ∈ seen)); naive_solver. Qed.
Lemma NoDup_set_union seen l : NoDup seen -> NoDup (set_union seen l).
Proof.
  intros H. apply NoDup_app. split_and!; [done| |apply NoDup_set_minus]. intros x Hx [_ Hn]%elem_of_set_minus. done.
Qed.
Lemma existsb_eqb x (l : list string) : existsb (String.eqb x) l = bool_decide (x ∈ l).
Proof.
  apply eq_bool_prop_intro. rewrite bool_decide_spec, Is_true_true, existsb_exists. split.
  - intros (y&Hy&->%String.eqb_eq). by apply list_elem_of_In.
  - intros Hx. exists x. split; [by apply list_elem_of_In|apply String.eqb_refl].
Qed.

(** ** The cases of a search *)

Definition case_key (r : row) : string := assignment_key (r_assignment r).
(** A case that is the first, reaches an instruction no earlier one reached, or behaves in a new way. *)
Definition breaks_ground (earlier : list row) (r : row) : Prop :=
  earlier = [] \/ (exists pc, pc ∈ r_pcs r /\ forall q, q ∈ earlier -> pc ∉ r_pcs q) \/ forall q, q ∈ earlier -> r_behavior q <> r_behavior r.

Record search_ok (s : search) : Prop := {
  so_evaluated : evaluated s = rev (case_key <$> case_rows s);
  so_distinct : NoDup (evaluated s);
  so_pcs : forall pc, pc ∈ seen_pcs s <-> exists r, r ∈ case_rows s /\ pc ∈ r_pcs r;
  so_pcs_once : NoDup (seen_pcs s);
  so_behaviors : forall b, b ∈ seen_behaviors s <-> exists r, r ∈ case_rows s /\ r_behavior r = b;
  so_behaviors_once : NoDup (seen_behaviors s);
  so_rows : forall i r, case_rows s !! i = Some r -> r_index r = i /\ (r_novel r = true <-> breaks_ground (take i (case_rows s)) r) }.

Lemma empty_search_ok axes : search_ok (empty_search axes).
Proof.
  split; cbn; [done|constructor| |constructor| |constructor|done].
  - intros pc. rewrite elem_of_nil. split; [done|]. by intros (r&Hr%not_elem_of_nil&_).
  - intros b. rewrite elem_of_nil. split; [done|]. by intros (r&Hr%not_elem_of_nil&_).
Qed.

(** The fields of a case that promotion leaves alone. *)
Definition same_case (r r' : row) : Prop := r' = r \/ exists cid, r' = set_promoted cid r.

Lemma promote_spec y o r s s' : promote y o r s = (Ok tt, s') -> forall rows, case_rows s = rows ++ [r] -> r_index r = length rows ->
  exists r', same_case r r' /\ case_rows s' = rows ++ [r'] /\ evaluated s' = evaluated s /\ seen_pcs s' = seen_pcs s /\ seen_behaviors s' = seen_behaviors s.
Proof.
  unfold promote. intros H rows Hr Hi. destruct (o_promote o) as [tool|]; [|injection H as <-; exists r; split_and!; try done; by left].
  destruct (py_bool _); [|injection H as <-; exists r; split_and!; try done; by left]. unfold mbind, M_bind, lift, modify in H.
  destruct (absolute_job_inputs _ _) as [job|]; [|done]. destruct (guard_app _ _); [|done]. injection H as <-.
  eexists. split; [right; by eexists|]. split; [|done]. cbn. rewrite Hr, Hi, alter_app_r_alt, Nat.sub_diag by lia. done.
Qed.

(** A case that was run. *)
Lemma evaluate_inv y o base_job a parent ax s oc s' : evaluate y o base_job a parent ax s = (Ok oc, s') ->
  (assignment_key a ∈ evaluated s /\ oc = None /\ s' = s) \/
  (assignment_key a ∉ evaluated s /\ exists r response job, let r0 := make_row s a parent response job in same_case r0 r /\
     oc = Some (r_novel r, length (case_rows s)) /\ case_rows s' = case_rows s ++ [r] /\ evaluated s' = assignment_key a :: evaluated s /\
     (if r_novel r then seen_pcs s' = set_union (seen_pcs s) (r_pcs r) /\ seen_behaviors s' = set_union (seen_behaviors s) [r_behavior r]
      else seen_pcs s' = seen_pcs s /\ seen_behaviors s' = seen_behaviors s)).
Proof.
  unfold evaluate. unfold mbind at 1, M_bind at 1, gets at 1. rewrite existsb_eqb. case_bool_decide as Hk.
  { intros [= <- <-]. by left. }
  intros H. right. split; [done|]. unfold mbind, M_bind, modify, lift, gets, id in H.
  destruct (job_with_assignment _ _) as [job|]; [|done]. destruct (with_trace job) as [job'|]; [|done].
  destruct (run_worker _ _ _) as [[| | | | | |response]|]; try done. cbn [case_rows] in H.
  set (r0 := make_row s a parent response job').
  change (make_row _ a parent response job') with r0 in H.
  destruct (r_novel r0) eqn:En.
  - cbn [fst snd] in H. destruct (promote y o r0 _) as [[[]|x] s1] eqn:Hp; [|done]. injection H as <- <-.
    eapply promote_spec in Hp as (r'&Hsame&Hrows&He&Hs&Hb); [|reflexivity|done]. exists r', response, job'. split; [done|].
    assert (Hn : r_novel r' = true) by (destruct Hsame as [->|(cid&->)]; done). rewrite Hn.
    assert (Hpb : r_pcs r' = r_pcs r0 /\ r_behavior r' = r_behavior r0) by (destruct Hsame as [->|(cid&->)]; done). destruct Hpb as [-> ->].
    split; [done|]. split; [done|]. split; [done|]. by split.
  - injection H as <- <-. exists r0, response, job'. split; [by left|]. rewrite En. done.
Qed.

Lemma make_row_fresh s a parent response job : search_ok s -> let r := make_row s a parent response job in
  r_index r = length (case_rows s) /\ (r_novel r = true <-> breaks_ground (case_rows s) r).
Proof.
  intros [_ _ Hp _ Hb _ _] r. split; [done|]. unfold r, breaks_ground. cbn [make_row r_novel r_pcs r_behavior].
  rewrite !orb_true_iff, negb_true_iff, existsb_eqb, bool_decide_eq_false, Hb.
  set (pcs := trace_pcs _). set (fresh := py_sorted id (set_minus pcs (seen_pcs s))).
  assert (Hf : (match fresh with [] => false | _ => true end) = true <-> exists pc, pc ∈ py_sorted id (remove_dups pcs) /\ forall q, q ∈ case_rows s -> pc ∉ r_pcs q).
  { assert (Hin : forall x, x ∈ fresh <-> x ∈ pcs /\ x ∉ seen_pcs s) by (intros x; unfold fresh; by rewrite elem_of_py_sorted, elem_of_set_minus).
    split.
    - destruct fresh as [|x l]; [done|]. intros _. destruct (proj1 (Hin x) ltac:(by left)) as [Hx Hn]. exists x.
      rewrite elem_of_py_sorted, elem_of_remove_dups. split; [done|]. intros q Hq Hxq. apply Hn, Hp. by exists q.
    - intros (x&Hx&Hn). rewrite elem_of_py_sorted, elem_of_remove_dups in Hx. assert (Hxf : x ∈ fresh).
      { apply Hin. split; [done|]. rewrite Hp. intros (q&Hq&Hxq). by eapply Hn. }
      by destruct fresh; [apply not_elem_of_nil in Hxf|]. }
  rewrite Hf. assert (Hfirst : (match case_rows s with [] => true | _ => false end) = true <-> case_rows s = []) by by destruct (case_rows s).
  rewrite Hfirst. split.
  - intros [[H|H]|H]; [right; left; done|right; right|by left]. intros q Hq Heq. apply H. by exists q.
  - intros [H|[H|H]]; [by right|left; by left|left; right]. intros (q&Hq&Heq). by eapply H.
Qed.

Lemma same_case_fields r0 r : same_case r0 r -> r_index r = r_index r0 /\ r_parent r = r_parent r0 /\ r_assignment r = r_assignment r0 /\
  r_novel r = r_novel r0 /\ r_pcs r = r_pcs r0 /\ r_behavior r = r_behavior r0.
Proof. by intros [->|(cid&->)]. Qed.

Lemma evaluate_ok y o base_job a parent ax s oc s' : search_ok s -> evaluate y o base_job a parent ax s = (Ok oc, s') ->
  search_ok s' /\ ((assignment_key a ∈ evaluated s /\ oc = None /\ s' = s) \/
    (assignment_key a ∉ evaluated s /\ exists r, case_rows s' = case_rows s ++ [r] /\ r_assignment r = a /\ r_parent r = parent /\
       oc = Some (r_novel r, length (case_rows s)))).
Proof.
  intros Hs [(Hk&->&->)|(Hk&r&response&job&Hsame&Hoc&Hrows&Hev&Hseen)]%evaluate_inv; [by split; [|left]|].
  destruct (same_case_fields _ _ Hsame) as (F1&F2&F3&F4&F5&F6). destruct (make_row_fresh s a parent response job Hs) as (Hi&Hn).
  assert (Hn' : r_novel r = true <-> breaks_ground (case_rows s) r) by (rewrite F4, Hn; unfold breaks_ground; by rewrite F5, F6).
  split; [|right; split; [done|]; exists r; split_and!; done].
  assert (Hsee : (forall pc, pc ∈ seen_pcs s' <-> pc ∈ seen_pcs s \/ pc ∈ r_pcs r) /\ (forall b, b ∈ seen_behaviors s' <-> b ∈ seen_behaviors s \/ b = r_behavior r) /\
    NoDup (seen_pcs s') /\ NoDup (seen_behaviors s')).
  { destruct Hs as [_ _ Hp Hpn Hb Hbn _]. destruct (r_novel r) eqn:En.
    - destruct Hseen as [-> ->]. split_and!; [|intros b; rewrite elem_of_set_union|by apply NoDup_set_union..].
      + intros pc. apply elem_of_set_union.
      + by rewrite list_elem_of_singleton.
    - destruct Hseen as [-> ->]. assert (Hnot : ~ breaks_ground (case_rows s) r) by (intros H; apply Hn' in H; congruence).
      unfold breaks_ground in Hnot. split_and!; [| |done|done].
      + intros pc. split; [by left|]. intros [H|H]; [done|]. destruct (decide (pc ∈ seen_pcs s)) as [|Hne]; [done|]. exfalso. apply Hnot.
        right. left. exists pc. split; [done|]. intros q Hq Hin. apply Hne, Hp. by exists q.
      + intros b. split; [by left|]. intros [H| ->]; [done|]. destruct (decide (r_behavior r ∈ seen_behaviors s)) as [|Hne]; [done|]. exfalso. apply Hnot.
        right. right. intros q Hq Heq. apply Hne, Hb. by exists q. }
  destruct Hs as [He Hd Hp Hpn Hb Hbn Hr]. destruct Hsee as (S1&S2&S3&S4). split.
  - rewrite Hev, Hrows, fmap_app, rev_app_distr, He. cbn. unfold case_key at 2. by rewrite F3.
  - rewrite Hev. by apply NoDup_cons.
  - intros pc. rewrite S1, Hp, Hrows. split.
    + intros [(q&Hq&Hx)|Hx]; [exists q|exists r]; rewrite elem_of_app, ?list_elem_of_singleton; auto.
    + intros (q&Hq&Hx). apply elem_of_app in Hq as [Hq| ->%list_elem_of_singleton]; [left; by exists q|by right].
  - done.
  - intros b. rewrite S2, Hb, Hrows. split.
    + intros [(q&Hq&Hx)| ->]; [exists q|exists r]; rewrite elem_of_app, ?list_elem_of_singleton; auto.
    + intros (q&Hq&Hx). apply elem_of_app in Hq as [Hq| ->%list_elem_of_singleton]; [left; by exists q|by right].
  - done.
  - intros i q Hq. rewrite Hrows in Hq |- *. apply lookup_app_Some in Hq as [Hq|[Hle Hq]].
    + pose proof (lookup_lt_Some _ _ _ Hq). rewrite take_app_le by lia. by apply Hr.
    + apply list_lookup_singleton_Some in Hq as [Hz <-]. assert (i = length (case_rows s)) as -> by lia. rewrite take_app_length. by rewrite F1.
Qed.

(** ** The frontier *)

Section search.
Context (y : system) (o : oracle) (g : config) (choose : search -> list candidate -> nat) (plateau : search -> bool).
Hypothesis choose_in : forall s c l, (choose s (c :: l) < length (c :: l))%nat.

Definition candidate_id (c : candidate) : string := assignment_key (c_assignment c).
(** Where an assignment came from: it is the baseline, or a neighbour of an earlier novel case. *)
Definition came_from (rows : list row) (a : dict value) (parent : option nat) : Prop :=
  match parent with
  | None => a = baseline g
  | Some p => exists q path, rows !! p = Some q /\ r_novel q = true /\ (path, a) ∈ neighbours (g_axes g) (r_assignment q)
  end.
Definition rows_ok (rows : list row) : Prop := forall i r, rows !! i = Some r -> came_from (take i rows) (r_assignment r) (r_parent r).
Definition closed_in (keys : list string) (rows : list row) : Prop :=
  forall r pa, r ∈ rows -> r_novel r = true -> pa ∈ neighbours (g_axes g) (r_assignment r) -> assignment_key (snd pa) ∈ keys.

Record frontier_ok (s : search) (f : frontier) : Prop := {
  fo_once : NoDup (candidate_id <$> f_queue f);
  fo_new : forall c, c ∈ f_queue f -> candidate_id c ∉ evaluated s;
  fo_queued : forall k, k ∈ f_queued f <-> k ∈ evaluated s \/ k ∈ candidate_id <$> f_queue f;
  fo_from : forall c, c ∈ f_queue f -> came_from (case_rows s) (c_assignment c) (c_parent c) }.

Lemma came_from_app rows more a parent : came_from rows a parent -> came_from (rows ++ more) a parent.
Proof.
  unfold came_from. destruct parent as [p|]; [|done]. intros (q&path&Hq&Hn&Hin). exists q, path. split; [|done]. by apply lookup_app_l_Some.
Qed.

Lemma offer_ok s p q f pa : case_rows s !! p = Some q -> r_novel q = true -> pa ∈ neighbours (g_axes g) (r_assignment q) ->
  frontier_ok s f -> frontier_ok s (offer (evaluated s) p f pa) /\ assignment_key (snd pa) ∈ f_queued (offer (evaluated s) p f pa) /\
  f_queued f ⊆ f_queued (offer (evaluated s) p f pa).
Proof.
  intros Hq Hn Hin [Ho Hnew Hqd Hfrom]. unfold offer. rewrite !existsb_eqb.
  destruct (bool_decide (assignment_key (snd pa) ∈ evaluated s)) eqn:E1; cbn [orb].
  { apply bool_decide_eq_true in E1. split; [by split|]. split; [|done]. apply Hqd. by left. }
  destruct (bool_decide (assignment_key (snd pa) ∈ f_queued f)) eqn:E2.
  { apply bool_decide_eq_true in E2. split; [by split|]. by split. }
  apply bool_decide_eq_false in E1, E2. split; [|split; [by left|intros k Hk; by right]]. split; cbn [f_queue f_queued].
  - rewrite fmap_app. apply NoDup_app. split_and!; [done| |apply NoDup_singleton]. intros k Hk ->%list_elem_of_singleton.
    apply E2, Hqd. by right.
  - intros c [Hc| ->%list_elem_of_singleton]%elem_of_app; [by apply Hnew|done].
  - intros k. rewrite elem_of_cons, fmap_app, elem_of_app, Hqd. cbn [fmap list_fmap]. rewrite list_elem_of_singleton.
    unfold candidate_id at 3. cbn [c_assignment]. naive_solver.
  - intros c [Hc| ->%list_elem_of_singleton]%elem_of_app; [by apply Hfrom|]. cbn. exists q, (fst pa). split; [done|]. split; [done|]. by destruct pa.
Qed.

Lemma expand_ok s p q f : case_rows s !! p = Some q -> r_novel q = true -> frontier_ok s f ->
  let f' := expand (g_axes g) (evaluated s) (r_assignment q) p f in
  frontier_ok s f' /\ f_queued f ⊆ f_queued f' /\ forall pa, pa ∈ neighbours (g_axes g) (r_assignment q) -> assignment_key (snd pa) ∈ f_queued f'.
Proof.
  intros Hq Hn Hf. unfold expand.
  assert (H : forall l f, l ⊆ neighbours (g_axes g) (r_assignment q) -> frontier_ok s f -> let f' := fold_left (offer (evaluated s) p) l f in
    frontier_ok s f' /\ f_queued f ⊆ f_queued f' /\ forall pa, pa ∈ l -> assignment_key (snd pa) ∈ f_queued f').
  { clear f Hf. induction l as [|pa l IH]; intros f Hl Hf; [cbn; split_and!; [done|done|by intros pa ?%not_elem_of_nil]|].
    destruct (offer_ok s p q f pa Hq Hn ltac:(apply Hl; by left) Hf) as (H1&H2&H3).
    destruct (IH (offer (evaluated s) p f pa) ltac:(intros x Hx; apply Hl; by right) H1) as (I1&I2&I3). cbn [fold_left].
    split_and!; [done|by etrans|]. intros pa' [->|Hin]%elem_of_cons; [by apply I2|by apply I3]. }
  by apply H.
Qed.

Lemma in_delete {A} (l : list A) i x y' : l !! i = Some x -> y' ∈ delete i l -> y' ∈ l.
Proof. intros Hi Hy. rewrite (delete_Permutation l i x Hi). by right. Qed.

(** Taking a candidate from the queue. *)
Lemma taken_ok s f i c : f_queue f !! i = Some c -> frontier_ok s f ->
  candidate_id c ∉ evaluated s /\ came_from (case_rows s) (c_assignment c) (c_parent c) /\
  NoDup (candidate_id <$> delete i (f_queue f)) /\ candidate_id c ∉ candidate_id <$> delete i (f_queue f) /\
  (forall k, k ∈ candidate_id <$> f_queue f <-> k = candidate_id c \/ k ∈ candidate_id <$> delete i (f_queue f)).
Proof.
  intros Hi [Ho Hnew Hqd Hfrom]. assert (Hin : c ∈ f_queue f) by by eapply list_elem_of_lookup_2.
  assert (Hp : f_queue f ≡ₚ c :: delete i (f_queue f)) by by apply delete_Permutation.
  assert (Hp2 : candidate_id <$> f_queue f ≡ₚ candidate_id c :: (candidate_id <$> delete i (f_queue f))) by (rewrite Hp at 1; done).
  rewrite Hp2 in Ho. apply NoDup_cons in Ho as [Ho1 Ho2]. split_and!; [by apply Hnew|by apply Hfrom|done|done|].
  intros k. by rewrite Hp2, elem_of_cons.
Qed.

Lemma closed_mono keys keys' rows : keys ⊆ keys' -> closed_in keys rows -> closed_in keys' rows.
Proof. intros Hk Hc r pa Hr Hn Hin. apply Hk. by eapply Hc. Qed.

Lemma loop_ok fuel f s stopped s' : search_ok s -> rows_ok (case_rows s) -> frontier_ok s f -> closed_in (f_queued f) (case_rows s) ->
  g_max_cases g <= Z.of_nat (length (case_rows s)) + Z.of_nat fuel -> Z.of_nat (length (case_rows s)) <= g_max_cases g ->
  search_loop y o g choose plateau fuel f s = (Ok stopped, s') ->
  search_ok s' /\ rows_ok (case_rows s') /\ Z.of_nat (length (case_rows s')) <= g_max_cases g /\
  if stopped then plateau s' = true else room g s' = false \/ closed_in (evaluated s') (case_rows s').
Proof.
  revert f s. induction fuel as [|fuel IH]; intros f s Hs Hr Hf Hc Hfuel Hmax H; cbn [search_loop] in H; unfold mbind at 1, M_bind at 1, gets at 1 in H.
  { assert (Hfull : room g s = false) by (unfold room; apply Z.ltb_ge; lia). rewrite Hfull in H.
    destruct (f_queue f); injection H as <- <-; (split_and!; [done..|by left]). }
  destruct (f_queue f) as [|first rest] eqn:Hq.
  { destruct (room g s); injection H as <- <-; (split_and!; [done..|right]); (eapply closed_mono; [|exact Hc]);
      intros k Hk; apply (fo_queued _ _ Hf) in Hk as [Hk|Hk]; [done|rewrite Hq in Hk; by apply not_elem_of_nil in Hk|done|rewrite Hq in Hk; by apply not_elem_of_nil in Hk]. }
  destruct (room g s) eqn:Hroom; [|injection H as <- <-; split_and!; [done..|by left]].
  unfold mbind at 1, M_bind at 1, gets at 1, id in H. set (i := choose s (first :: rest)) in H.
  destruct (lookup_lt_is_Some_2 (first :: rest) i (choose_in s first rest)) as [c Hi]. rewrite Hi in H. cbn [default from_option id] in H.
  rewrite <- Hq in Hi, H. destruct (taken_ok s f i c Hi Hf) as (T1&T2&T3&T4&T5).
  unfold mbind at 1, M_bind at 1 in H.
  destruct (evaluate _ _ _ _ _ _ s) as [[oc|x] s1] eqn:He; [|done].
  destruct (evaluate_ok _ _ _ _ _ _ _ _ _ Hs He) as (Hs1&[(Hk&_)|(_&r&Hrows&Ha&Hp&Hoc)]); [done|].
  assert (Hr1 : rows_ok (case_rows s1)).
  { intros j q Hj. rewrite Hrows in Hj |- *. apply lookup_app_Some in Hj as [Hj|[Hle Hj]].
    - pose proof (lookup_lt_Some _ _ _ Hj). rewrite take_app_le by lia. by apply Hr.
    - apply list_lookup_singleton_Some in Hj as [Hz <-]. assert (j = length (case_rows s)) as -> by lia. rewrite take_app_length, Ha, Hp. done. }
  apply Z.ltb_lt in Hroom. assert (Hlen : length (case_rows s1) = S (length (case_rows s))) by (rewrite Hrows, length_app; cbn; lia).
  unfold mbind at 1, M_bind at 1, gets at 1 in H.
  destruct (plateau s1) eqn:Hpl; [injection H as <- <-; split_and!; [done|done|lia|done]|].
  set (f1 := Frontier (delete i (f_queue f)) (f_queued f) (f_serial f)) in H.
  assert (Hev1 : forall k, k ∈ evaluated s1 <-> k = candidate_id c \/ k ∈ evaluated s).
  { intros k. rewrite (so_evaluated _ Hs1), (so_evaluated _ Hs), Hrows, fmap_app, rev_app_distr. cbn. rewrite elem_of_cons.
    unfold case_key at 1, candidate_id. by rewrite Ha. }
  assert (Hf1 : frontier_ok s1 f1).
  { split; unfold f1; cbn [f_queue f_queued]; [done| | |].
    - intros d Hd. rewrite Hev1. intros [Hd2|Hd2].
      + apply T4. rewrite <- Hd2. apply list_elem_of_fmap. by exists d.
      + eapply (fo_new _ _ Hf d); [|exact Hd2]. by eapply in_delete.
    - intros k. rewrite (fo_queued _ _ Hf k), T5, Hev1. naive_solver.
    - intros d Hd. rewrite Hrows. apply came_from_app. apply (fo_from _ _ Hf d). by eapply in_delete. }
  assert (Hc1 : r_novel r = false -> closed_in (f_queued f1) (case_rows s1)).
  { intros Hn q pa Hin. rewrite Hrows in Hin. apply elem_of_app in Hin as [Hin| ->%list_elem_of_singleton]; [by apply Hc|congruence]. }
  subst oc. destruct (r_novel r) eqn:Hn.
  - unfold mbind at 1, M_bind at 1, gets at 1, id in H.
    assert (Hlook : case_rows s1 !! length (case_rows s) = Some r) by (rewrite Hrows; apply list_lookup_middle; done).
    destruct (expand_ok s1 _ r f1 Hlook Hn Hf1) as (X1&X2&X3). rewrite Ha in X1, X2, X3.
    eapply IH; [exact Hs1|exact Hr1|exact X1| | | |exact H]; [|lia|lia].
    intros q pa Hin. rewrite Hrows in Hin. apply elem_of_app in Hin as [Hin| ->%list_elem_of_singleton].
    + intros Hqn Hpa. apply X2. by eapply Hc.
    + intros _ Hpa. apply X3. by rewrite <- Ha.
  - eapply IH; [exact Hs1|exact Hr1|exact Hf1|by apply Hc1| | |exact H]; lia.
Qed.

Lemma start_frontier_ok axes : frontier_ok (empty_search axes) (start_frontier g).
Proof.
  split; cbn.
  - apply NoDup_singleton.
  - intros c _. apply not_elem_of_nil.
  - intros k. rewrite elem_of_nil. naive_solver.
  - by intros c ->%list_elem_of_singleton.
Qed.
End search.

(** ** The strategies *)

Lemma max_index_in key l i best bk : (best < i)%nat -> (max_index key l i best bk < i + length l)%nat.
Proof.
  revert i best bk. induction l as [|c l IH]; intros i best bk Hb; cbn [max_index length]; [lia|].
  destruct (above _ _); [pose proof (IH (S i) i (key c) ltac:(lia))|pose proof (IH (S i) best bk ltac:(lia))]; lia.
Qed.
Lemma adaptive_in s c l : (adaptive_choice s (c :: l) < length (c :: l))%nat.
Proof. unfold adaptive_choice. pose proof (max_index_in (candidate_key s) l 1 0 (candidate_key s c) ltac:(lia)). cbn in *. lia. Qed.
Lemma guided_in s c l : (guided_choice s (c :: l) < length (c :: l))%nat.
Proof. apply Nat.lt_0_succ. Qed.

(** The assignments whose key was not met before, each at its first place. *)
Fixpoint first_places (seen : list string) (l : list (dict value)) : list (dict value) :=
  match l with
  | [] => []
  | a :: l => if bool_decide (assignment_key a ∈ seen) then first_places seen l else a :: first_places (assignment_key a :: seen) l
  end.

Lemma sweep_ok y o g l s s' : search_ok s -> sweep y o g l s = (Ok tt, s') ->
  search_ok s' /\ r_assignment <$> case_rows s' =
    (r_assignment <$> case_rows s) ++ take (Z.to_nat (g_max_cases g) - length (case_rows s)) (first_places (evaluated s) l).
Proof.
  revert s. induction l as [|a l IH]; intros s Hs H; [injection H as <-; cbn; by rewrite take_nil, app_nil_r|].
  cbn [sweep first_places] in *. unfold mbind at 1, M_bind at 1, gets in H. destruct (room g s) eqn:Hroom; unfold room in Hroom.
  2: { apply Z.ltb_ge in Hroom. injection H as <-. split; [done|]. replace (_ - _)%nat with O by lia. by rewrite take_0, app_nil_r. }
  apply Z.ltb_lt in Hroom. unfold mbind, M_bind in H. destruct (evaluate _ _ _ _ _ _ s) as [[oc|x] s1] eqn:He; [|done].
  destruct (evaluate_ok _ _ _ _ _ _ _ _ _ Hs He) as (Hs1&[(Hk&_&->)|(Hk&r&Hrows&Ha&_&_)]).
  - rewrite bool_decide_eq_true_2 by done. by apply IH.
  - rewrite bool_decide_eq_false_2 by done. destruct (IH s1 Hs1 H) as [H1 H2]. split; [done|]. rewrite H2, Hrows, fmap_app, length_app. cbn [fmap list_fmap length].
    rewrite <- app_assoc. cbn [app]. replace (Z.to_nat (g_max_cases g) - length (case_rows s))%nat with (S (Z.to_nat (g_max_cases g) - (length (case_rows s) + 1)))%nat by lia.
    cbn [take]. rewrite Ha. do 3 f_equal. rewrite (so_evaluated _ Hs1), (so_evaluated _ Hs), Hrows, fmap_app, rev_app_distr. cbn. unfold case_key at 1. by rewrite Ha.
Qed.

Lemma start_fuel g : 0 <= g_max_cases g -> g_max_cases g <= Z.of_nat 0 + Z.of_nat (guided_fuel g).
Proof. unfold guided_fuel. lia. Qed.

Lemma explore_ok y o g strategy stopped s : 0 <= g_max_cases g -> explore y o g strategy (empty_search (g_axes g)) = (Ok stopped, s) ->
  search_ok s /\
  match strategy with
  | Cartesian => stopped = false /\ r_assignment <$> case_rows s = take (Z.to_nat (g_max_cases g)) (first_places [] (assignments (g_axes g) []))
  | _ => rows_ok g (case_rows s) /\ Z.of_nat (length (case_rows s)) <= g_max_cases g /\
      if stopped then strategy = Adaptive /\ adaptive_plateau g s = true else room g s = false \/ closed_in g (evaluated s) (case_rows s)
  end.
Proof.
  intros Hmax H. pose proof (empty_search_ok (g_axes g)) as H0.
  assert (Hrows : rows_ok g (case_rows (empty_search (g_axes g)))) by (intros i r Hi; done).
  assert (Hclosed : closed_in g (f_queued (start_frontier g)) (case_rows (empty_search (g_axes g)))) by (intros r pa Hr; by apply not_elem_of_nil in Hr).
  destruct strategy; cbn [explore] in H.
  - destruct (loop_ok y o g guided_choice never guided_in _ _ _ _ _ H0 Hrows (start_frontier_ok g _) Hclosed (start_fuel g Hmax) Hmax H) as (H1&H2&H3&H4).
    split_and!; [done..|]. by destruct stopped.
  - unfold explore_cartesian, mbind, M_bind in H. destruct (sweep _ _ _ _ _) as [[[]|x] s1] eqn:Hw; [|done]. injection H as <- <-.
    destruct (sweep_ok _ _ _ _ _ _ H0 Hw) as [H1 H2]. split; [done|]. split; [done|]. rewrite H2. cbn. by rewrite Nat.sub_0_r.
  - destruct (loop_ok y o g adaptive_choice (adaptive_plateau g) adaptive_in _ _ _ _ _ H0 Hrows (start_frontier_ok g _) Hclosed (start_fuel g Hmax) Hmax H) as (H1&H2&H3&H4).
    split_and!; [done..|]. by destruct stopped.
Qed.

(** C23: exploration is exact.  A search that ends has run no assignment twice.  A cartesian one has
    run the distinct assignments of the product in order, up to its budget.  A guided one stays
    within its budget; every case is the baseline or differs in the value of one axis from an earlier
    novel case; and when it neither met its budget nor, being adaptive, a plateau of novelty, every
    neighbour of every novel case was run. *)
Theorem exploration_exact y o g strategy stopped s : 0 <= g_max_cases g ->
  explore y o g strategy (empty_search (g_axes g)) = (Ok stopped, s) ->
  let rows := case_rows s in
  NoDup (case_key <$> rows) /\
  match strategy with
  | Cartesian => r_assignment <$> rows = take (Z.to_nat (g_max_cases g)) (first_places [] (assignments (g_axes g) []))
  | _ =>
      Z.of_nat (length rows) <= g_max_cases g /\
      (forall i r, rows !! i = Some r -> came_from g (take i rows) (r_assignment r) (r_parent r)) /\
      if stopped then strategy = Adaptive /\ adaptive_plateau g s = true
      else Z.of_nat (length rows) = g_max_cases g \/
           forall r pa, r ∈ rows -> r_novel r = true -> pa ∈ neighbours (g_axes g) (r_assignment r) -> assignment_key (snd pa) ∈ case_key <$> rows
  end.
Proof.
  intros Hmax H rows. destruct (explore_ok _ _ _ _ _ _ Hmax H) as [[He Hd _ _ _ _ _] Hs].
  assert (Hkeys : forall k, k ∈ evaluated s -> k ∈ case_key <$> rows) by (intros k; rewrite He, list_elem_of_In, <- List.in_rev; apply list_elem_of_In).
  split; [rewrite He in Hd; by rewrite <- Permutation_rev in Hd|].
  assert (Hfinal : forall b : bool, room g s = false \/ closed_in g (evaluated s) (case_rows s) -> Z.of_nat (length rows) <= g_max_cases g ->
    Z.of_nat (length rows) = g_max_cases g \/ forall r pa, r ∈ rows -> r_novel r = true -> pa ∈ neighbours (g_axes g) (r_assignment r) -> assignment_key (snd pa) ∈ case_key <$> rows).
  { intros _ [Hr|Hc] Hle; [left; unfold room in Hr; apply Z.ltb_ge in Hr; fold rows in Hr; lia|right]. intros r pa Hr Hn Hpa. apply Hkeys. by eapply Hc. }
  destruct strategy; [| |].
  - destruct Hs as (H1&H2&H3). split_and!; [done|done|]. destruct stopped; [done|by apply (Hfinal true)].
  - by destruct Hs.
  - destruct Hs as (H1&H2&H3). split_and!; [done|done|]. destruct stopped; [done|by apply (Hfinal true)].
Qed.

Lemma same_elements_length (l k : list string) : NoDup l -> (forall x, x ∈ l <-> x ∈ k) -> length l = length (remove_dups k).
Proof.
  intros Hl Hx. apply Permutation_length, NoDup_Permutation; [done|apply NoDup_remove_dups|]. intros x. by rewrite elem_of_remove_dups, Hx.
Qed.

(** C33: novelty is exact under every strategy: cases are numbered in the order they ran, a case is
    novel exactly when it is the first, reached an instruction that no earlier case reached, or
    behaved as no earlier case did, and the summary counts the distinct instructions and behaviours
    of all cases. *)
Theorem novelty_exact y o g strategy stopped s path inputs : 0 <= g_max_cases g ->
  explore y o g strategy (empty_search (g_axes g)) = (Ok stopped, s) ->
  let rows := case_rows s in
  (forall i r, rows !! i = Some r -> r_index r = i /\ (r_novel r = true <-> breaks_ground (take i rows) r)) /\
  dget "unique_pcs" (summary path inputs g strategy stopped s) = Some (VInt (Z.of_nat (length (remove_dups (concat (r_pcs <$> rows)))))) /\
  dget "unique_behaviors" (summary path inputs g strategy stopped s) = Some (VInt (Z.of_nat (length (remove_dups (r_behavior <$> rows))))).
Proof.
  intros Hmax H rows. destruct (explore_ok _ _ _ _ _ _ Hmax H) as [[_ _ Hp Hpn Hb Hbn Hr] _]. split; [exact Hr|].
  assert (Hpl : length (seen_pcs s) = length (remove_dups (concat (r_pcs <$> rows)))).
  { apply same_elements_length; [done|]. intros pc. rewrite Hp, list_elem_of_In, List.in_concat. split.
    - intros (r&Hr'&Hpc). exists (r_pcs r). rewrite <- !list_elem_of_In. split; [apply list_elem_of_fmap; by exists r|done].
    - intros (l&Hl&Hpc). rewrite <- list_elem_of_In in Hl. apply list_elem_of_fmap in Hl as (r&->&Hr'). exists r. split; [done|]. by apply list_elem_of_In. }
  assert (Hbl : length (seen_behaviors s) = length (remove_dups (r_behavior <$> rows))).
  { apply same_elements_length; [done|]. intros b. rewrite Hb, list_elem_of_fmap. naive_solver. }
  rewrite <- Hpl, <- Hbl. done.
Qed.

(** ** Witnesses *)

(** A program that branches on [r3] and ignores [r5]. *)
Definition branch_worker (_ : nat) (job : dict value) : outcome :=
  let r3 := match dget_n "registers" job with VDict d => dget_n "r3" d | _ => VNone end in
  let pc := if py_eq r3 (VInt 0) then "0x10000010" else "0x10000008" in
  Answered (Ok (VDict [("ok", VBool true); ("exit_code", VInt 0);
    ("stderr", VStr ("0x10000000 0x2c030000 cmpwi r3,0" +:+ sp 10 +:+ pc +:+ " 0x38800002 li" +:+ sp 10));
    ("result", VDict [("stop_reason", VStr "return"); ("registers", VDict [("r3", r3); ("r4", VStr pc)])])])).
Definition branch_oracle : oracle := Oracle branch_worker None.
Definition branch_system : system := System (Files (fun p => Ok p) (fun _ => true)) "/t" "/t" (fun _ => (24, "d")).
Definition branch_config : config :=
  Config [("schema", VStr "ppc-lab-job-v1"); ("image", VDict [("path", VStr "branch.bin")]); ("registers", VDict [("r3", VInt 0); ("r5", VInt 0)])]
    [Axis "registers.r3" [VInt 0; VInt 1]; Axis "registers.r5" [VInt 0; VInt 7]] 8 8 (ratio 125 1000) 8.
Definition branch_search : search := Eval vm_compute in snd (explore branch_system branch_oracle branch_config Guided (empty_search (g_axes branch_config))).

Lemma branch_run : explore branch_system branch_oracle branch_config Guided (empty_search (g_axes branch_config)) = (Ok false, branch_search).
Proof. vm_compute. reflexivity. Qed.

Lemma exploration_exact_witness : length (case_rows branch_search) = 4%nat /\
  (Z.of_nat (length (case_rows branch_search)) = 8 \/
   forall r pa, r ∈ case_rows branch_search -> r_novel r = true -> pa ∈ neighbours (g_axes branch_config) (r_assignment r) ->
     assignment_key (snd pa) ∈ case_key <$> case_rows branch_search).
Proof.
  split; [reflexivity|].
  exact (proj2 (proj2 (proj2 (exploration_exact branch_system branch_oracle branch_config Guided false branch_search ltac:(done) branch_run)))).
Defined.

Lemma novelty_exact_witness : r_novel <$> case_rows branch_search = [true; true; false; false] /\
  forall i r, case_rows branch_search !! i = Some r -> r_index r = i /\ (r_novel r = true <-> breaks_ground (take i (case_rows branch_search)) r).
Proof.
  split; [reflexivity|].
  exact (proj1 (novelty_exact branch_system branch_oracle branch_config Guided false branch_search "explore.json" [] ltac:(done) branch_run)).
Defined.

(** A value equal to the current one as Python compares them is no neighbour, although its text differs. *)
Example equal_values_are_not_tried : neighbours [Axis "registers.r3" [VInt 1; VBool true]] [("registers.r3", VInt 1)] = [] /\
  assignment_key [("registers.r3", VInt 1)] <> assignment_key [("registers.r3", VBool true)].
Proof. split; [reflexivity|]. intros H. vm_compute in H. discriminate H. Qed.
