(* ===== verification/Corpus.v ===== *)
(** * The behavioural corpus ([ppc_lab_corpus.py])

    A corpus keeps jobs with the behaviour they are expected to show: a case names its inputs by digest
    and says what of the worker's response is stable.  Cases are promoted from jobs, verified, replayed,
    blessed when a change is intended, and minimised when they fail.  The record [corpus] is the
    directory: its manifest, the case files by stem and the embedded inputs by path.  The record [host]
    is everything else: other files, the worker and the version of the tool. *)
From stdpp Require Import pretty.
From Stdlib Require Import Ascii.
From S2P Require Export PyState JsonParse Sha Shell Worker.

Abbreviation obj := VDict.

Definition CORPUS_SCHEMA : string := "ppc-lab-corpus-v1".
Definition CASE_SCHEMA : string := "ppc-lab-corpus-case-v1".
Definition SUMMARY_SCHEMA : string := "ppc-lab-corpus-replay-summary-v1".

(** [ID_RE.match]: [$] also matches before a final newline. *)
Definition id_first (c : ascii) : bool := is_alnum c.
Definition id_rest (s : string) : bool := str_forall id_char s && (String.length s <=? 127)%nat.
Definition id_ok (id : string) : bool :=
  match id with
  | EmptyString => false
  | String c s => id_first c && (id_rest s || (str_endswith (sp 10) s && id_rest (String.substring 0 (String.length s - 1) s)))
  end.

Record corpus := Corpus { manifest : option value; cases : dict value; objects : dict string }.
(** What the worker does with a staged job: the output as [json.loads] has it. *)
Inductive outcome := TimedOut | Answered (stdout : res value).
Record host := Host {
  h_root : string;                                  (* the corpus, resolved *)
  h_read : string -> option string;                 (* the contents of a regular file elsewhere *)
  h_resolve : string -> res string;                 (* Path.resolve *)
  h_walk : string -> list string;                   (* rglob *)
  h_worker : nat -> value -> dict string -> outcome;  (* by run, from a staged job and the staged files *)
  h_version : res string }.
Definition new_manifest : value := obj [("schema", VStr CORPUS_SCHEMA); ("format_version", VInt 1)].
Record world := World { corpus_of : corpus; runs : nat }.
Abbreviation CM := (M world).

Definition in_corpus (f : corpus -> corpus) : CM unit := modify (fun w => World (f (corpus_of w)) (runs w)).
Definition put_case (stem : string) (v : value) (c : corpus) : corpus := Corpus (manifest c) (dset stem v (cases c)) (objects c).
Definition put_object (rel data : string) (c : corpus) : corpus := Corpus (manifest c) (cases c) (dset rel data (objects c)).

(** [write_json] *)
Definition json_text (v : value) : string := json_indent (sort_keys v) +:+ sp 10.
Definition file_of_case (stem : string) : string := stem +:+ ".json".
Definition corpus_file (c : corpus) (rel : string) : option string :=
  match dget rel (objects c) with
  | Some data => Some data
  | None =>
      if String.eqb rel "manifest.json" then json_text <$> manifest c
      else (fun sv => json_text (snd sv)) <$> List.find (fun sv => String.eqb rel ("cases/" +:+ file_of_case (fst sv))) (cases c)
  end.

Definition path_name (s : string) : string := List.last (path_parts s) "".
(** [k in v] and [v[k]] of a parsed value *)
Definition member (k : string) (v : value) : res (option value) :=
  let no_index := Raise (Exn TypeError ("'" +:+ type_name v +:+ "' object cannot be indexed by a string")) in
  match v with
  | VDict d => Ok (dget k d)
  | VList l => if existsb (fun x => eq_str x k) l then no_index else Ok None
  | VStr s => if str_contains k s then no_index else Ok None
  | _ => Raise (Exn TypeError ("argument of type '" +:+ type_name v +:+ "' is not iterable"))
  end.
Definition expect_str (v : value) : res string :=
  match v with VStr s => Ok s | _ => Raise (Exn TypeError ("expected str, not " +:+ type_name v)) end.
(** Members of a set and keys of a dictionary must be hashable. *)
Definition hashable (v : value) : res unit :=
  if is_list v || is_dict v then Raise (Exn TypeError ("unhashable type: '" +:+ type_name v +:+ "'")) else Ok tt.

(** ** What is stable in a response *)

Definition result_keys : list string := ["stop_reason"; "instructions"; "pc"; "instruction"; "registers"; "lr"; "ctr"; "cr"].
Definition snapshot_keys : list string := ["stop_reason"; "instructions"; "pc"; "instruction"; "cpu"; "symbols"].
Definition dump_keys : list string := ["address"; "size"; "fnv1a64"].
Definition region_keys : list string := ["name"; "base"; "size"; "perms"; "fnv1a64"].

Definition pick_item (keys : list string) (v : value) : res value :=
  d ← res_fold (fun acc k => o ← member k v; Ok (acc ++ match o with Some x => [(k, x)] | None => [] end)) [] keys;
  Ok (obj d).
Definition pick_items (k : string) (keys : list string) (d : dict value) : res (dict value) :=
  match dget k d with
  | Some v => l ← viter v; l ← res_map (pick_item keys) l; Ok [(k, VList l)]
  | None => Ok []
  end.
Definition stable_result (v : value) : res (dict value) :=
  match v with
  | VDict d => dumps ← pick_items "dumps" dump_keys d; Ok [("result", obj (pick result_keys d ++ dumps))]
  | _ => Ok []
  end.
Definition stable_snapshot (v : value) : res (dict value) :=
  match v with
  | VDict d =>
      regions ← pick_items "regions" region_keys d;
      dumps ← pick_items "dumps" dump_keys d;
      Ok [("snapshot", obj (pick snapshot_keys d ++ regions ++ dumps))]
  | _ => Ok []
  end.
Definition stable_expectation (r : value) : res value :=
  match r with
  | VDict d =>
      result ← stable_result (dget_n "result" d);
      snapshot ← stable_snapshot (dget_n "snapshot" d);
      Ok (obj ([("ok", dget_n "ok" d); ("exit_code", dget_n "exit_code" d); ("timed_out", dget_or "timed_out" (VBool false) d)] ++
               result ++ snapshot ++ match dget_n "error" d with VNone => [] | e => [("error", e)] end))
  | v => no_attr v "get"
  end.

(** ** Differences *)

Record difference := Difference { d_path : string; d_expected : value; d_actual : value }.

(** What is expected and not there; what is there and not expected is no difference. *)
Fixpoint diffs (exp got : value) (path : string) : list difference :=
  match exp with
  | VDict e =>
      match got with
      | VDict g => flat_map (fun kv => diffs (snd kv) (dget_or (fst kv) (VStr "<missing>") g) (path +:+ "." +:+ fst kv)) e
      | _ => [Difference path exp got]
      end
  | VList l =>
      match got with
      | VList m =>
          if (length l =? length m)%nat then
            (fix items (i : Z) (l m : list value) : list difference :=
               match l, m with
               | v :: l, w :: m => diffs v w (path +:+ "[" +:+ pretty i +:+ "]") ++ items (i + 1) l m
               | _, _ => []
               end) 0 l m
          else [Difference path exp got]
      | _ => [Difference path exp got]
      end
  | _ => if py_eq exp got then [] else [Difference path exp got]
  end.

Section commands.
Context (h : host).

(** The contents of the regular file at a resolved path. *)
Definition file_at (c : corpus) (p : string) : option string :=
  match strip_prefix (h_root h +:+ "/") p with
  | Some rel => corpus_file c rel
  | None => h_read h p
  end.
Definition contained (path root : string) : res (option string) :=
  match h_resolve h path with
  | Ok p => Ok (if path_within root p then Some p else None)
  | Raise e => if handled [ValueError; OSError] e then Ok None else Raise e
  end.
Definition is_file (c : corpus) (p : string) : bool :=
  match h_resolve h p with Ok q => match file_at c q with Some _ => true | None => false end | Raise _ => false end.

(** ** The corpus *)

Definition check_manifest (v : value) : res unit :=
  schema ← vget "schema" v; guard_app (eq_str schema CORPUS_SCHEMA) "corpus manifest schema mismatch".
Definition init_corpus : CM unit :=
  m ← gets (fun w => manifest (corpus_of w));
  match m with
  | Some v => lift (check_manifest v)
  | None => in_corpus (fun c => Corpus (Some new_manifest) (cases c) (objects c))
  end.
Definition require_corpus : CM unit :=
  m ← gets (fun w => manifest (corpus_of w));
  match m with
  | Some v => lift (check_manifest v)
  | None => lift (app_error ("corpus does not exist: " +:+ h_root h))
  end.

(** ** Jobs and their inputs *)

Definition input_fields : list string := ["path"; "data_path"].
Definition token (i : Z) : string := "$INPUT:" +:+ pretty i.
Definition size_of (data : string) : value := VInt (Z.of_nat (String.length data)).

(** The job with its inputs replaced by tokens, a row for each input, and the files. *)
Record inputs := Inputs { n_job : dict value; n_specs : list (dict value); n_paths : list string }.
Definition resolve_input (c : corpus) (base : string) (acc : inputs) (field : string) : res inputs :=
  let image := dget_or "image" (obj []) (n_job acc) in
  v ← member field image;
  match v, image with
  | Some raw, VDict image =>
      raw ← expect_str raw;
      p ← h_resolve h (path_join base raw);
      match file_at c p with
      | Some data =>
          let hint := if is_absolute raw then path_name raw else posix_join raw [] in
          let spec := [("field", VStr ("image." +:+ field)); ("sha256", VStr (sha256_hex data)); ("size", size_of data); ("path_hint", VStr hint)] in
          let i := Z.of_nat (length (n_specs acc)) in
          Ok (Inputs (dset "image" (obj (dset field (VStr (token i)) image)) (n_job acc)) (n_specs acc ++ [spec]) (n_paths acc ++ [p]))
      | None => app_error ("image." +:+ field +:+ " missing: " +:+ p)
      end
  | _, _ => Ok acc
  end.
Definition resolve_job_inputs (c : corpus) (job : value) (base : string) : res inputs :=
  match job with
  | VDict d => res_fold (resolve_input c base) (Inputs d [] []) input_fields
  | v => no_attr v "get"
  end.

(** [stage_job]: the tokens become the names of copies. *)
Definition stage_field (t name : string) (job : value) (field : string) : res value :=
  image ← vget_or "image" (obj []) job;
  v ← vget field image;
  if eq_str v t then
    match job, image with
    | VDict d, VDict im => Ok (obj (dset "image" (obj (dset field (VStr name) im)) d))
    | _, _ => Ok job
    end
  else Ok job.
Definition stage_input (c : corpus) (acc : value * dict string) (ip : Z * string) : res (value * dict string) :=
  match file_at c (snd ip) with
  | Some data =>
      let name := "inputs/" +:+ zpad 2 (fst ip) +:+ "-" +:+ path_name (snd ip) in
      job ← res_fold (stage_field (token (fst ip)) name) (fst acc) input_fields;
      Ok (job, dset name data (snd acc))
  | None => Raise (Exn FileNotFoundError (snd ip))
  end.
Definition stage_job (c : corpus) (job : value) (paths : list string) : res (value * dict string) :=
  res_fold (stage_input c) (job, []) (enumerate paths).

Definition run_worker (job : value) (paths : list string) : CM value :=
  w ← gets id;
  '(staged, files) ← lift (stage_job (corpus_of w) job paths);
  _ ← modify (fun w => World (corpus_of w) (S (runs w)));
  match h_worker h (runs w) staged files with
  | TimedOut => throw TimeoutExpired "the worker timed out"
  | Answered (Ok r) => mret r
  | Answered (Raise e) => lift (app_error "worker returned invalid JSON")
  end.

(** ** Promoting *)

Definition object_path (sha : string) : string := "objects/sha256/" +:+ sha.
(** An input is copied unless an object of its name exists. *)
Definition embed_input (spec : dict value) (path : string) : CM (dict value) :=
  let rel := object_path (match dget_n "sha256" spec with VStr s => s | _ => "" end) in
  c ← gets corpus_of;
  _ ← (match corpus_file c rel with
       | Some _ => mret tt
       | None =>
           match file_at c path with
           | Some data => in_corpus (put_object rel data)
           | None => throw FileNotFoundError path
           end
       end);
  mret (dset "embedded" (VStr rel) spec).
Definition sorted_set (l : list string) : list string := py_sorted id (remove_dups l).

Definition promote (id description : string) (tags : list string) (job : res value) (base : string) (embed allow_failed : bool) : CM unit :=
  _ ← init_corpus;
  _ ← lift (guard_app (id_ok id) "invalid case id");
  job ← lift job;
  c ← gets corpus_of;
  n ← lift (resolve_job_inputs c job base);
  r ← run_worker (obj (n_job n)) (n_paths n);
  ok ← lift (vget "ok" r);
  _ ← lift (guard_app (py_bool ok || allow_failed) "baseline execution failed; use --allow-failed-baseline to promote intentionally");
  specs ← m_map (fun sp => if embed then embed_input (fst sp) (snd sp) else mret (fst sp)) (zip (n_specs n) (n_paths n));
  version ← lift (h_version h);
  expectation ← lift (stable_expectation r);
  in_corpus (put_case id (obj [("schema", VStr CASE_SCHEMA); ("id", VStr id); ("description", VStr description);
    ("tags", VList (VStr <$> sorted_set tags)); ("created_with", obj [("ppc_lab", VStr version)]);
    ("inputs", VList (obj <$> specs)); ("job", obj (n_job n)); ("expectation", expectation)])).

(** ** Finding cases and inputs *)

Definition load_case (id : string) : CM value :=
  c ← gets corpus_of;
  match dget id (cases c) with
  | None => lift (app_error ("case not found: " +:+ id))
  | Some v =>
      schema ← lift (vget "schema" v);
      _ ← lift (guard_app (eq_str schema CASE_SCHEMA) ("case schema mismatch: " +:+ id));
      mret v
  end.
Definition stems (c : corpus) : list string := py_sorted file_of_case (dkeys (cases c)).
Definition has_tags (tags : list string) (v : value) : res bool :=
  match tags with
  | [] => Ok true
  | _ =>
      have ← vget_or "tags" (VList []) v;
      have ← viter have;
      _ ← res_map hashable have;
      Ok (forallb (fun t => existsb (fun x => eq_str x t) have) tags)
  end.
Definition select_case (c : corpus) (tags : list string) (stem : string) : res (list (string * value)) :=
  match dget stem (cases c) with
  | None => app_error ("case not found: " +:+ stem)
  | Some v => b ← has_tags tags v; Ok (if b : bool then [(stem, v)] else [])
  end.
Definition selected_cases (ids tags : list string) : CM (list (string * value)) :=
  c ← gets corpus_of;
  l ← lift (res_map (select_case c tags) (match ids with [] => stems c | _ => ids end));
  mret (concat l).

Definition parse_map (d : dict string) (v : string) : res (dict string) :=
  match str_split1 "="%char v with
  | None => app_error "--input must be SHA256=PATH"
  | Some (sha, p) => q ← h_resolve h p; Ok (dset (str_lower sha) q d)
  end.
Definition parse_maps (values : list string) : res (dict string) := res_fold parse_map [] values.

(** The places an input is looked for first. *)
Definition mapped_candidate (maps : dict string) (sha : value) : res (list string) :=
  _ ← hashable sha;
  Ok match sha with VStr s => match dget s maps with Some p => [p] | None => [] end | _ => [] end.
Definition embedded_candidate (spec : value) : res (list string) :=
  emb ← vget "embedded" spec;
  if py_bool emb then
    emb ← expect_str emb;
    p ← contained (path_join (h_root h) emb) (h_root h);
    match p with Some p => Ok [p] | None => app_error "embedded input path escapes corpus root" end
  else Ok [].
Definition hinted_candidate (spec : value) (root : string) : res (list string) :=
  hint ← vget_or "path_hint" (VStr "") spec;
  hint ← expect_str hint;
  if is_absolute hint then Ok []
  else p ← contained (path_join root hint) root; Ok (option_list p).
Definition candidates (maps : dict string) (roots : list string) (sha spec : value) : res (list string) :=
  a ← mapped_candidate maps sha;
  b ← embedded_candidate spec;
  l ← res_map (hinted_candidate spec) roots;
  Ok (a ++ b ++ concat l).

Definition matches (c : corpus) (sha spec : value) (p : string) : res bool :=
  match file_at c p with
  | None => Ok false
  | Some data => size ← vindex "size" spec; Ok (py_eq (size_of data) size && py_eq (VStr (sha256_hex data)) sha)
  end.
Fixpoint first_match (c : corpus) (sha spec : value) (l : list string) : res (option string) :=
  match l with
  | [] => Ok None
  | p :: l => b ← matches c sha spec p; if b : bool then Ok (Some p) else first_match c sha spec l
  end.
(** The files below the input roots. *)
Definition index_root (c : corpus) (root : string) : res (list string) :=
  l ← res_map (fun x => p ← contained x root; Ok (option_list p)) (List.filter (is_file c) (h_walk h root));
  Ok (concat l).
Definition search_index (c : corpus) (roots : list string) (sha spec : value) : res (option string) :=
  l ← res_map (index_root c) roots;
  size ← vindex "size" spec;
  _ ← hashable size;
  first_match c sha spec (concat l).
Definition find_input (c : corpus) (roots : list string) (maps : dict string) (spec : value) : res string :=
  sha ← vindex "sha256" spec;
  l ← candidates maps roots sha spec;
  p ← first_match c sha spec l;
  p ← match p with Some p => Ok (Some p) | None => search_index c roots sha spec end;
  match p with Some p => Ok p | None => app_error ("missing input sha256=" +:+ py_str sha) end.
Definition find_inputs (case : value) (roots : list string) (maps : dict string) : CM (list string) :=
  c ← gets corpus_of;
  specs ← lift (vindex "inputs" case);
  specs ← lift (viter specs);
  lift (res_map (find_input c roots maps) specs).

(** ** Replaying *)

Definition with_backend (backend : option string) (job : value) : res value :=
  match backend with
  | None => Ok job
  | Some b =>
      match job with
      | VDict d =>
          match dget_or "execution" (obj []) d with
          | VDict e => Ok (obj (dset "execution" (obj (dset "backend" (VStr b) e)) d))
          | v => Raise (Exn TypeError ("'" +:+ type_name v +:+ "' object does not support item assignment"))
          end
      | v => no_attr v "setdefault"
      end
  end.
(** The expectation of a response, and how it differs from the one of the case. *)
Definition compare_run (case : value) (r : value) : CM (value * list difference) :=
  e ← lift (vindex "expectation" case);
  got ← lift (stable_expectation r);
  mret (got, diffs e got "$").
Definition do_replay (case : value) (roots : list string) (maps : dict string) (backend : option string) : CM (value * list difference) :=
  paths ← find_inputs case roots maps;
  job ← lift (vindex "job" case);
  job ← lift (with_backend backend job);
  r ← run_worker job paths;
  compare_run case r.

Definition difference_row (d : difference) : value :=
  obj [("path", VStr (d_path d)); ("expected", d_expected d); ("actual", d_actual d)].
Record row := Row { r_id : value; r_differences : list difference; r_version : string }.
Definition passes (r : row) : bool := match r_differences r with [] => true | _ => false end.
Definition row_value (r : row) : value :=
  obj [("id", r_id r); ("ok", VBool (passes r)); ("differences", VList (difference_row <$> r_differences r)); ("engine_version", VStr (r_version r))].
Fixpoint replay_rows (roots : list string) (maps : dict string) (backend : option string) (fail_fast : bool) (l : list (string * value)) (rows : list row) :
    CM (list row) :=
  match l with
  | [] => mret rows
  | (_, case) :: l =>
      '(_, ds) ← do_replay case roots maps backend;
      id ← lift (vindex "id" case);
      version ← lift (h_version h);
      let r := Row id ds version in
      if fail_fast && existsb (fun r => negb (passes r)) (rows ++ [r]) then mret (rows ++ [r])
      else replay_rows roots maps backend fail_fast l (rows ++ [r])
  end.
Definition failures (rows : list row) : Z := Z.of_nat (length (List.filter (fun r => negb (passes r)) rows)).
Definition summary (version : string) (rows : list row) : value :=
  let n := Z.of_nat (length rows) in
  obj [("schema", VStr SUMMARY_SCHEMA); ("engine_version", VStr version); ("cases", VInt n); ("passed", VInt (n - failures rows));
       ("failed", VInt (failures rows)); ("results", VList (row_value <$> rows))].

(** ** Blessing and minimising *)

Definition set_key (k : string) (v : value) (case : value) : value := match case with VDict d => obj (dset k v d) | v => v end.
Definition bless (id : string) (case : value) (roots : list string) (maps : dict string) (backend : option string) (yes : bool) : CM unit :=
  _ ← lift (guard_app yes "bless requires --yes");
  '(got, _) ← do_replay case roots maps backend;
  version ← lift (h_version h);
  in_corpus (put_case id (set_key "blessed_with" (obj [("ppc_lab", VStr version)]) (set_key "expectation" got case))).

Definition setup_fields : list string := ["registers"; "float_registers"; "writes_u32"; "writes_f32"; "syscall_returns"; "bindings"].
Definition drop_entry (field key : string) (job : value) : value :=
  match job with
  | VDict d => match dget field d with Some (VDict e) => obj (dset field (obj (ddel key e)) d) | _ => job end
  | v => v
  end.
Definition shares_path (wanted ds : list difference) : bool :=
  existsb (fun d => existsb (fun x => String.eqb (d_path x) (d_path d)) wanted) ds.
(** Whether the case still differs where it did, and the job without an entry if so. *)
Definition try_drop (case : value) (paths : list string) (wanted : list difference) (field : string) (acc : value * list string) (key : string) :
    CM (value * list string) :=
  let cand := drop_entry field key (fst acc) in
  r ← run_worker cand paths;
  '(_, ds) ← compare_run case r;
  mret (if shares_path wanted ds then (cand, snd acc ++ [field +:+ "." +:+ key]) else acc).
Definition minimize_field (case : value) (paths : list string) (wanted : list difference) (acc : value * list string) (field : string) :
    CM (value * list string) :=
  entries ← lift (vget_or field (obj []) (fst acc));
  match entries with
  | VDict e => m_fold (try_drop case paths wanted field) acc (dkeys e)
  | v => lift (no_attr v "keys")
  end.
Definition minimize (case : value) (roots : list string) (maps : dict string) : CM value :=
  paths ← find_inputs case roots maps;
  base ← lift (vindex "job" case);
  r ← run_worker base paths;
  '(_, wanted) ← compare_run case r;
  _ ← lift (guard_app (match wanted with [] => false | _ => true end) "case currently passes; nothing to minimize");
  '(job, removed) ← m_fold (minimize_field case paths wanted) (base, []) setup_fields;
  id ← lift (vindex "id" case);
  name ← lift (expect_str id);
  mret (set_key "minimized_removed" (VList (VStr <$> removed))
         (set_key "minimized_from" id (set_key "job" job (set_key "id" (VStr (name +:+ "-minimized")) case)))).

(** ** Listing and verifying *)

Definition list_line (sv : string * value) : res string :=
  id ← vget_or "id" (VStr (fst sv)) (snd sv);
  tags ← vget_or "tags" (VList []) (snd sv);
  tags ← viter tags;
  tags ← res_map expect_str tags;
  description ← vget_or "description" (VStr "") (snd sv);
  Ok (py_str id +:+ sp 9 +:+ str_join "," tags +:+ sp 9 +:+ py_str description).

Definition verify_input (c : corpus) (cid : string) (spec : value) : res unit :=
  sha ← vget_or "sha256" (VStr "") spec;
  sha ← expect_str sha;
  _ ← guard_app (is_hex64 sha) (cid +:+ ": invalid input sha256");
  emb ← vget "embedded" spec;
  if py_bool emb then
    emb ← expect_str emb;
    p ← contained (path_join (h_root h) emb) (h_root h);
    match p with
    | None => app_error (cid +:+ ": embedded input path escapes corpus root")
    | Some p => b ← matches c (VStr sha) spec p; guard_app b (cid +:+ ": corrupt embedded input")
    end
  else Ok tt.
Definition verify_case (c : corpus) (ids : list string) (sv : string * value) : res (list string) :=
  let '(stem, v) := sv in
  schema ← vget "schema" v;
  _ ← guard_app (eq_str schema CASE_SCHEMA) (stem +:+ ": bad schema");
  id ← vget "id" v;
  match id with
  | VStr cid =>
      _ ← guard_app (id_ok cid) (stem +:+ ": invalid id");
      _ ← guard_app (negb (existsb (String.eqb cid) ids)) ("duplicate id: " +:+ cid);
      specs ← vget_or "inputs" (VList []) v;
      specs ← viter specs;
      _ ← res_map (verify_input c cid) specs;
      Ok (cid :: ids)
  | _ => app_error (stem +:+ ": invalid id")
  end.
Definition verify : CM Z :=
  l ← selected_cases [] [];
  c ← gets corpus_of;
  ids ← lift (res_fold (verify_case c) [] l);
  mret (Z.of_nat (length ids)).

(** ** The command line *)

Record sources := Sources { s_roots : list string; s_maps : list string }.
Inductive command :=
  | Init
  | Promote (id description : string) (tags : list string) (job : res value) (base : string) (embed allow_failed : bool)
  | ListCases
  | Verify
  | Replay (ids tags : list string) (from : sources) (backend : option string) (fail_fast : bool)
  | Bless (id : string) (from : sources) (backend : option string) (yes : bool)
  | Minimize (id : string) (from : sources).
Inductive output := Nothing | Listing (l : list string) | Verified (n : Z) | Replayed (summary : value) | Minimized (case : value).

Definition input_sources (s : sources) : res (list string * dict string) :=
  maps ← parse_maps (s_maps s); roots ← res_map (h_resolve h) (s_roots s); Ok (roots, maps).

Definition execute (cmd : command) : CM (Z * output) :=
  match cmd with
  | Init => _ ← init_corpus; mret (0, Nothing)
  | Promote id description tags job base embed allow_failed =>
      _ ← promote id description tags job base embed allow_failed; mret (0, Nothing)
  | ListCases =>
      _ ← require_corpus; l ← selected_cases [] []; l ← lift (res_map list_line l); mret (0, Listing l)
  | Verify => _ ← require_corpus; n ← verify; mret (0, Verified n)
  | Replay ids tags from backend fail_fast =>
      _ ← require_corpus;
      '(roots, maps) ← lift (input_sources from);
      l ← selected_cases ids tags;
      rows ← replay_rows roots maps backend fail_fast l [];
      version ← lift (h_version h);
      mret (if failures rows =? 0 then 0 else 1, Replayed (summary version rows))
  | Bless id from backend yes =>
      _ ← require_corpus;
      '(roots, maps) ← lift (input_sources from);
      case ← load_case id;
      _ ← bless id case roots maps backend yes; mret (0, Nothing)
  | Minimize id from =>
      _ ← require_corpus;
      '(roots, maps) ← lift (input_sources from);
      case ← load_case id;
      out ← minimize case roots maps; mret (0, Minimized out)
  end.
(** The exit code; an exception of another class is a traceback. *)
Definition main (cmd : command) : CM (Z * output) :=
  catch [AppError; TimeoutExpired; JSONDecodeError] (execute cmd) (fun _ => mret (2, Nothing)).
End commands.
