(* ===== verification/CorpusFacts.v ===== *)
(** * Facts about the corpus

    Differences are the conflicts that a comparison reaches; a response without NaN equals itself; the
    commands keep the corpus well-formed and only promotions and blessings change a case. *)
From stdpp Require Import pretty.
From Stdlib Require Import Ascii SpecFloat.
From S2P Require Import Members.
From S2P Require Import Corpus.

(** ** Differences *)

(** A value of the expectation at a path, with the value of the other document it is compared to. *)
Inductive reaches : string -> value -> value -> string -> value -> value -> Prop :=
  | reaches_here p e g : reaches p e g p e g
  | reaches_key p d g k v q x y : (k, v) ∈ d -> reaches (p +:+ "." +:+ k) v (dget_or k (VStr "<missing>") g) q x y ->
      reaches p (obj d) (obj g) q x y
  | reaches_item p l m i v w q x y : length l = length m -> l !! i = Some v -> m !! i = Some w ->
      reaches (p +:+ "[" +:+ pretty (Z.of_nat i) +:+ "]") v w q x y -> reaches p (VList l) (VList m) q x y.
Definition conflict (e g : value) : bool :=
  match e, g with
  | VDict _, VDict _ => false
  | VDict _, _ | _, VDict _ => true
  | VList l, VList m => negb (length l =? length m)%nat
  | VList _, _ => true
  | _, _ => negb (py_eq e g)
  end.

Definition diff_items (path : string) : Z -> list value -> list value -> list difference :=
  fix items (i : Z) (l m : list value) : list difference :=
    match l, m with
    | v :: l, w :: m => diffs v w (path +:+ "[" +:+ pretty i +:+ "]") ++ items (i + 1) l m
    | _, _ => []
    end.
Lemma elem_of_items p d l m i : d ∈ diff_items p i l m <->
  exists j v w, l !! j = Some v /\ m !! j = Some w /\ d ∈ diffs v w (p +:+ "[" +:+ pretty (i + Z.of_nat j) +:+ "]").
Proof.
  revert m i. induction l as [|v l IH]; intros [|w m] i; cbn [diff_items]; try (rewrite elem_of_nil; split; [done|]; intros ([|j]&?&?&?&?&?); done).
  rewrite elem_of_app, IH. split.
  - intros [H|(j&x&y&Hx&Hy&H)].
    + exists O, v, w. split_and!; [done..|]. by rewrite Z.add_0_r.
    + exists (S j), x, y. split_and!; [done..|]. by replace (i + Z.of_nat (S j)) with (i + 1 + Z.of_nat j) by lia.
  - intros ([|j]&x&y&Hx&Hy&H).
    + left. injection Hx as <-. injection Hy as <-. by rewrite Z.add_0_r in H.
    + right. exists j, x, y. split_and!; [done..|]. by replace (i + 1 + Z.of_nat j) with (i + Z.of_nat (S j)) by lia.
Qed.

Lemma elem_of_flat_map {A B} (f : A -> list B) l (y : B) : y ∈ flat_map f l <-> exists x, x ∈ l /\ y ∈ f x.
Proof.
  induction l as [|a l IH]; cbn [flat_map]; [rewrite elem_of_nil; split; [done|]; intros (x&Hx&_); by apply elem_of_nil in Hx|].
  rewrite elem_of_app, IH. set_solver.
Qed.

Definition diffs_meet_spec (e : value) : Prop := forall g p d,
  d ∈ diffs e g p <-> reaches p e g (d_path d) (d_expected d) (d_actual d) /\ conflict (d_expected d) (d_actual d) = true.

(** Where the comparison stops. *)
Lemma diffs_leaf e g p d : diffs e g p = (if conflict e g then [Difference p e g] else []) ->
  (forall q x y, reaches p e g q x y -> q = p /\ x = e /\ y = g) ->
  d ∈ diffs e g p <-> reaches p e g (d_path d) (d_expected d) (d_actual d) /\ conflict (d_expected d) (d_actual d) = true.
Proof.
  intros -> Hr. split.
  - destruct (conflict e g) eqn:Hc; [|by intros ?%elem_of_nil]. intros ->%list_elem_of_singleton. split; [constructor|done].
  - intros [H Hc]. destruct d as [q x y]. cbn in *. destruct (Hr _ _ _ H) as (->&->&->). rewrite Hc. by apply list_elem_of_singleton.
Qed.

Lemma diffs_scalar e g p : is_dict e = false -> is_list e = false -> diffs e g p = (if conflict e g then [Difference p e g] else []).
Proof.
  intros Hd Hl. destruct e as [|[]| | | | |]; try discriminate.
  all: destruct g; try reflexivity; cbn [diffs conflict]; case_bool; reflexivity.
Qed.

Lemma diffs_spec e : diffs_meet_spec e.
Proof.
  induction e as [| | | | |l IH|d IH] using value_ind'; intros g p r.
  1-5: apply diffs_leaf; [by apply diffs_scalar|intros ???; inversion 1; subst; done].
  - destruct g as [| | | | |m|]; try (apply diffs_leaf; [reflexivity|intros ???; inversion 1; subst; done]).
    destruct (length l =? length m)%nat eqn:Hl; [|apply diffs_leaf; [cbn [diffs conflict]; by rewrite Hl|intros ???; inversion 1; subst; [done|apply Nat.eqb_neq in Hl; done]]].
    change (diffs (VList l) (VList m) p) with (if (length l =? length m)%nat then diff_items p 0 l m else [Difference p (VList l) (VList m)]). rewrite Hl, elem_of_items.
    apply Nat.eqb_eq in Hl. rewrite Forall_forall in IH. split.
    + intros (j&v&w&Hv&Hw&H). apply IH in H as [H Hc]; [|by eapply list_elem_of_lookup_2]. split; [|done]. by eapply reaches_item.
    + intros [H Hc]. destruct r as [q x y]. cbn [d_path d_expected d_actual] in *. inversion H as [| |? ? ? j v w ? ? ? _ Hv Hw Hr]; subst.
      * cbn [conflict] in Hc. rewrite Hl, Nat.eqb_refl in Hc. done.
      * exists j, v, w. split_and!; [done..|]. apply IH; [by eapply list_elem_of_lookup_2|done].
  - destruct g as [| | | | | |g]; try (apply diffs_leaf; [reflexivity|intros ???; inversion 1; subst; done]).
    cbn [diffs]. rewrite elem_of_flat_map. rewrite Forall_forall in IH. split.
    + intros ([k v]&Hk&H). apply (IH _ Hk) in H as [H Hc]. split; [|done]. by eapply reaches_key.
    + intros [H Hc]. destruct r as [q x y]. cbn [d_path d_expected d_actual] in *. inversion H as [|? ? ? k v ? ? ? Hk Hr|]; subst.
      * cbn [conflict] in Hc. done.
      * exists (k, v). split; [done|]. by apply (IH _ Hk).
Qed.

(** ** A document that equals itself *)

(** Objects have distinct keys, as parsed ones do, and there is no NaN. *)
Fixpoint sane (v : value) : bool :=
  match v with
  | VFloat x => negb (is_nan x)
  | VList l => forallb sane l
  | VDict d => bool_decide (NoDup (dkeys d)) && forallb (fun kv => sane (snd kv)) d
  | _ => true
  end.

Lemma feqb_refl x : is_nan x = false -> feqb x x = true.
Proof.
  unfold feqb, SFeqb, SFcompare. destruct x as [[]|[]| |[] m e]; try done; intros _.
  all: by rewrite Z.compare_refl, Pos.compare_refl.
Qed.

Lemma diffs_self v p : sane v = true -> diffs v v p = [].
Proof.
  revert p. induction v as [|b|n|x|s|l IH|d IH] using value_ind'; intros p H; cbn [diffs sane] in *.
  - done.
  - by destruct b.
  - cbn. by rewrite Z.eqb_refl.
  - cbn. apply negb_true_iff in H. by rewrite feqb_refl.
  - cbn. by rewrite String.eqb_refl.
  - rewrite Nat.eqb_refl. change (diff_items p 0 l l = []). generalize 0.
    induction l as [|v l IHl]; intros i; [done|]. cbn [forallb] in H. apply andb_true_iff in H as [Hv Hl]. inversion IH as [|? ? Hd Hf]; subst.
    cbn [diff_items]. rewrite Hd by done. by apply IHl.
  - apply andb_true_iff in H as [Hn H]. apply bool_decide_eq_true in Hn.
    assert (Hg : forall kv, kv ∈ d -> diffs (snd kv) (dget_or (fst kv) (VStr "<missing>") d) (p +:+ "." +:+ fst kv) = []).
    { intros [k v] Hk. unfold dget_or. cbn [fst snd]. rewrite (dget_wf k v d Hn Hk). rewrite Forall_forall in IH. apply (IH _ Hk).
      rewrite forallb_forall in H. apply (H (k, v)). by apply list_elem_of_In. }
    clear IH H Hn. revert Hg. generalize d at 2 3 as g. intros g. induction d as [|kv d IHd]; intros Hg; [done|]. cbn [flat_map].
    rewrite Hg by left. apply IHd. intros x Hx. apply Hg. by right.
Qed.

Lemma sane_get k d : sane (obj d) = true -> sane (dget_n k d) = true.
Proof.
  cbn [sane]. intros [_ H]%andb_true_iff. unfold dget_n, dget_or. destruct (dget k d) as [v|] eqn:Hk; [|done].
  rewrite forallb_forall in H. apply (H (k, v)), list_elem_of_In, dget_some_in, Hk.
Qed.

(** An object made of some of the keys in [ks]. *)
Definition picked (ks : list string) (d : dict value) : Prop := dkeys d `sublist_of` ks /\ Forall (fun kv => sane (snd kv) = true) d.
Lemma picked_nil ks : picked ks [].
Proof. split; [apply sublist_nil_l|constructor]. Qed.
Lemma picked_one k v : sane v = true -> picked [k] [(k, v)].
Proof. intros H. split; [done|]. by constructor. Qed.
Lemma picked_app ks ks' d d' : picked ks d -> picked ks' d' -> picked (ks ++ ks') (d ++ d').
Proof. intros [H1 H2] [H3 H4]. split; [unfold dkeys; rewrite fmap_app; by apply sublist_app|by apply Forall_app]. Qed.
Lemma picked_sane ks d : NoDup ks -> picked ks d -> sane (obj d) = true.
Proof.
  intros Hn [Hs Hd]. cbn [sane]. apply andb_true_iff. split; [apply bool_decide_eq_true; by apply (sublist_NoDup _ ks)|].
  apply forallb_forall. intros x Hx. rewrite Forall_forall in Hd. apply Hd. by apply list_elem_of_In.
Qed.
Lemma picked_pick ks d : sane (obj d) = true -> picked ks (pick ks d).
Proof.
  intros Hd. induction ks as [|k ks IH]; [apply picked_nil|]. unfold pick in *. cbn [omap list_omap].
  destruct (dget k d) as [v|] eqn:Hk.
  - apply (picked_app [k] ks [_]); [|done]. apply picked_one. generalize (sane_get k d Hd). unfold dget_n, dget_or. by rewrite Hk.
  - destruct IH as [IH1 IH2]. split; [by apply sublist_cons|done].
Qed.

Definition pick_step (v : value) (acc : dict value) (k : string) : res (dict value) :=
  o ← member k v; Ok (acc ++ match o with Some x => [(k, x)] | None => [] end).
Lemma pick_fold_dict ks d acc y : res_fold (pick_step (obj d)) acc ks = Ok y -> y = acc ++ pick ks d.
Proof.
  revert acc. induction ks as [|k ks IH]; intros acc Hy; cbn [res_fold] in Hy; [injection Hy as <-; by rewrite app_nil_r|].
  unfold pick_step at 1 in Hy. cbn [member mbind res_bind] in Hy. apply IH in Hy. rewrite Hy. unfold pick. cbn [omap list_omap].
  destruct (dget k d); [by rewrite <- app_assoc|by rewrite app_nil_r].
Qed.
Lemma pick_fold_other ks v acc y : is_dict v = false -> res_fold (pick_step v) acc ks = Ok y -> y = acc.
Proof.
  intros Hv. revert acc. induction ks as [|k ks IH]; intros acc Hy; cbn [res_fold] in Hy; [by injection Hy as <-|].
  apply res_bind_Ok in Hy as (a&Ha&Hy). apply res_bind_Ok in Ha as (o&Ho&Ha). injection Ha as <-.
  assert (o = None) as -> by (destruct v; cbn [member] in Ho; try done; case_bool; congruence).
  apply IH in Hy. by rewrite app_nil_r in Hy.
Qed.
Lemma pick_item_Ok ks v x : pick_item ks v = Ok x -> x = obj [] \/ exists d, v = obj d /\ x = obj (pick ks d).
Proof.
  intros (y&Hy&[= <-])%res_bind_Ok. change (res_fold (pick_step v) [] ks = Ok y) in Hy. destruct v as [| | | | | |d].
  7: right; exists d; split; [done|]; by apply pick_fold_dict in Hy as ->.
  all: left; by apply pick_fold_other in Hy as ->.
Qed.
Lemma sane_pick_item ks v x : NoDup ks -> sane v = true -> pick_item ks v = Ok x -> sane x = true.
Proof. intros Hn Hv [->|(d&->&->)]%pick_item_Ok; [done|]. apply (picked_sane ks); [done|]. by apply picked_pick. Qed.

Lemma sane_viter v l : sane v = true -> viter v = Ok l -> Forall (fun x => sane x = true) l.
Proof.
  destruct v as [| | | |s|m|d]; cbn [viter]; try discriminate.
  - intros _ [= <-]. induction s as [|c s IH]; cbn [str_chars]; by constructor.
  - cbn [sane]. rewrite forallb_forall. intros H [= <-]. apply Forall_forall. intros x Hx. apply H. by apply list_elem_of_In.
  - intros _ [= <-]. apply Forall_fmap, Forall_true. done.
Qed.
Lemma picked_items k ks d x : NoDup ks -> sane (obj d) = true -> pick_items k ks d = Ok x -> picked [k] x.
Proof.
  intros Hn Hd. unfold pick_items. destruct (dget k d) as [v|] eqn:Hk; [|intros [= <-]; apply picked_nil]. intros H. inv_res.
  assert (Hv : sane v = true) by (generalize (sane_get k d Hd); unfold dget_n, dget_or; by rewrite Hk).
  pose proof (sane_viter _ _ Hv H) as Hs. apply picked_one. cbn [sane]. apply forallb_forall. intros y Hy. apply list_elem_of_In in Hy.
  apply res_map_runs, Forall2_Forall_r with (Q := fun b => sane b = true) in H0; [rewrite Forall_forall in H0; by apply H0|].
  eapply Forall_impl; [exact Hs|]. intros a Ha b Hb. exact (sane_pick_item ks a b Hn Ha Hb).
Qed.

Lemma Ok_inj {A} (a b : A) : Ok a = Ok b -> b = a.
Proof. congruence. Qed.
Lemma dget_or_sane k dflt d : sane (obj d) = true -> sane dflt = true -> sane (dget_or k dflt d) = true.
Proof. intros Hd H. generalize (sane_get k d Hd). unfold dget_n, dget_or. by destruct (dget k d). Qed.
Lemma stable_result_picked v x : sane v = true -> stable_result v = Ok x -> picked ["result"] x.
Proof.
  destruct v as [| | | | | |d]; intros Hd; cbn [stable_result]; try (intros ->%Ok_inj; apply picked_nil).
  intros (dumps&H&->%Ok_inj)%res_bind_Ok. apply picked_one, (picked_sane (result_keys ++ ["dumps"])); [apply (bool_decide_unpack _); vm_compute; exact I|].
  apply picked_app; [by apply picked_pick|]. eapply picked_items; [|done..]. apply (bool_decide_unpack _); vm_compute; exact I.
Qed.
Lemma stable_snapshot_picked v x : sane v = true -> stable_snapshot v = Ok x -> picked ["snapshot"] x.
Proof.
  destruct v as [| | | | | |d]; intros Hd; cbn [stable_snapshot]; try (intros ->%Ok_inj; apply picked_nil).
  intros (regions&Hr&(dumps&H&->%Ok_inj)%res_bind_Ok)%res_bind_Ok.
  apply picked_one, (picked_sane (snapshot_keys ++ ["regions"] ++ ["dumps"])); [apply (bool_decide_unpack _); vm_compute; exact I|].
  apply picked_app; [by apply picked_pick|]. apply picked_app; (eapply picked_items; [|done..]; apply (bool_decide_unpack _); vm_compute; exact I).
Qed.

(** What is stable in a sane response is sane. *)
Lemma stable_expectation_sane r e : sane r = true -> stable_expectation r = Ok e -> sane e = true.
Proof.
  destruct r as [| | | | | |d]; try discriminate. intros Hd (x&Hx&(y&Hy&->%Ok_inj)%res_bind_Ok)%res_bind_Ok.
  apply (picked_sane (["ok"; "exit_code"; "timed_out"] ++ ["result"] ++ ["snapshot"] ++ ["error"])); [apply (bool_decide_unpack _); vm_compute; exact I|].
  apply picked_app; [|apply picked_app; [|apply picked_app]].
  - split; [done|]. repeat constructor; cbn [snd]; by apply dget_or_sane.
  - eapply stable_result_picked; [|done]. by apply sane_get.
  - eapply stable_snapshot_picked; [|done]. by apply sane_get.
  - generalize (sane_get "error" d Hd). destruct (dget_n "error" d); intros He; try apply picked_nil; by apply picked_one.
Qed.

(** ** A well-formed corpus *)

Definition spec_ok (c : corpus) (spec : value) : Prop := exists d sha, spec = obj d /\ dget "sha256" d = Some (VStr sha) /\ is_hex64 sha = true /\
  (dget "embedded" d = None \/
   exists data, dget "embedded" d = Some (VStr (object_path sha)) /\ dget (object_path sha) (objects c) = Some data /\
     sha256_hex data = sha /\ dget "size" d = Some (size_of data)).
Definition case_ok (c : corpus) (stem : string) (v : value) : Prop := exists d specs, v = obj d /\
  dget "schema" d = Some (VStr CASE_SCHEMA) /\ dget "id" d = Some (VStr stem) /\ id_ok stem = true /\
  dget "inputs" d = Some (VList specs) /\ Forall (spec_ok c) specs.
Record corpus_ok (c : corpus) : Prop := CorpusOk {
  ok_keys : dwf (cases c);
  ok_cases : forall stem v, dget stem (cases c) = Some v -> case_ok c stem v;
  ok_objects : forall rel data, dget rel (objects c) = Some data -> rel = object_path (sha256_hex data);
  ok_manifest : match manifest c with Some v => check_manifest v = Ok tt | None => cases c = [] end }.

(** What a command may do, when [id] is the case it is about. *)
Record evolves (id : option string) (c c' : corpus) : Prop := Evolves {
  ev_objects : forall rel data, dget rel (objects c) = Some data -> dget rel (objects c') = Some data;
  ev_manifest : forall v, manifest c = Some v -> manifest c' = Some v;
  ev_cases : forall s, Some s <> id -> dget s (cases c') = dget s (cases c) }.
Lemma corpus_evolves_refl id c : evolves id c c.
Proof. by split. Qed.
Lemma corpus_evolves_trans id a b c : evolves id a b -> evolves id b c -> evolves id a c.
Proof. intros [A1 A2 A3] [B1 B2 B3]. split; [auto|auto|]. intros s Hs. by rewrite B3, A3. Qed.
#[export] Hint Resolve corpus_evolves_refl : ppc.

Lemma spec_ok_mono id c c' spec : evolves id c c' -> spec_ok c spec -> spec_ok c' spec.
Proof.
  intros [He _ _] (d&sha&->&H1&H2&H3). exists d, sha. split_and!; [done..|].
  destruct H3 as [?|(data&?&?&?&?)]; [by left|right]. exists data. split_and!; auto.
Qed.
Lemma case_ok_mono id c c' stem v : evolves id c c' -> case_ok c stem v -> case_ok c' stem v.
Proof.
  intros He (d&specs&->&H1&H2&H3&H4&H5). exists d, specs. split_and!; [done..|]. eapply Forall_impl; [exact H5|]. intros x. by eapply spec_ok_mono.
Qed.
Lemma put_case_ok c stem v : corpus_ok c -> manifest c <> None -> case_ok c stem v -> corpus_ok (put_case stem v c).
Proof.
  intros [H1 H2 H3 H4] Hm Hv. assert (He : evolves (Some stem) c (put_case stem v c)).
  { split; [done..|]. intros s Hs. cbn [put_case cases]. apply dget_dset_ne. congruence. }
  split; cbn [put_case cases objects manifest]; [by apply dwf_dset| |done|by destruct (manifest c)].
  intros s u. rewrite dget_dset. destruct (String.eqb_spec s stem) as [->|Hn]; [intros [= <-]|intros Hs]; eapply case_ok_mono; eauto.
Qed.
Lemma evolves_put_case c stem v : evolves (Some stem) c (put_case stem v c).
Proof. split; [done..|]. intros s Hs. cbn [put_case cases]. apply dget_dset_ne. congruence. Qed.

(** ** Steps *)

(** [m] keeps the corpus well-formed, evolves it, and when it returns the result satisfies [Q]. *)
Definition step_to {A} (id : option string) (m : CM A) (w : world) (Q : A -> corpus -> Prop) : Prop :=
  corpus_ok (corpus_of (snd (m w))) /\ evolves id (corpus_of w) (corpus_of (snd (m w))) /\
  match fst (m w) with Ok a => Q a (corpus_of (snd (m w))) | Raise _ => True end.

Lemma step_bind {A B} id (m : CM A) (f : A -> CM B) w R Q : step_to id m w R ->
  (forall a w1, corpus_ok (corpus_of w1) -> evolves id (corpus_of w) (corpus_of w1) -> R a (corpus_of w1) -> step_to id (f a) w1 Q) ->
  step_to id (m ≫= f) w Q.
Proof.
  unfold step_to, mbind, M_bind. destruct (m w) as [[a|e] w1]; cbn [fst snd]; [|done]. intros (H1&H2&H3) Hf.
  destruct (Hf a w1 H1 H2 H3) as (H4&H5&H6). split_and!; [done| |done]. by eapply corpus_evolves_trans.
Qed.
Lemma step_lift {A} id (r : res A) w (Q : A -> corpus -> Prop) : corpus_ok (corpus_of w) -> (forall a, r = Ok a -> Q a (corpus_of w)) -> step_to id (lift r) w Q.
Proof. intros Hw H. split_and!; [done|apply corpus_evolves_refl|]. cbn. destruct r; auto. Qed.
Lemma step_ret {A} id (a : A) w (Q : A -> corpus -> Prop) : corpus_ok (corpus_of w) -> Q a (corpus_of w) -> step_to id (mret a) w Q.
Proof. intros Hw H. split_and!; [done|apply corpus_evolves_refl|done]. Qed.
Lemma step_gets {A} id (f : world -> A) w (Q : A -> corpus -> Prop) : corpus_ok (corpus_of w) -> Q (f w) (corpus_of w) -> step_to id (gets f) w Q.
Proof. intros Hw H. split_and!; [done|apply corpus_evolves_refl|done]. Qed.
Lemma step_weaken {A} id (m : CM A) w (R Q : A -> corpus -> Prop) : step_to id m w R -> (forall a c, R a c -> Q a c) -> step_to id m w Q.
Proof. intros (H1&H2&H3) H. split_and!; [done..|]. destruct (fst (m w)); auto. Qed.

Lemma step_bind_lift {A B} id (r : res A) (f : A -> CM B) w Q : corpus_ok (corpus_of w) -> (forall a, r = Ok a -> step_to id (f a) w Q) ->
  step_to id (lift r ≫= f) w Q.
Proof.
  intros Hw H. destruct r as [a|e]; [exact (H a eq_refl)|]. split_and!; [exact Hw|apply corpus_evolves_refl|done].
Qed.
Lemma step_bind_gets {A B} id (g : world -> A) (f : A -> CM B) w Q : step_to id (f (g w)) w Q -> step_to id (gets g ≫= f) w Q.
Proof. done. Qed.

(** [m] reads the corpus only. *)
Definition reads {A} (m : CM A) : Prop := forall w, corpus_of (snd (m w)) = corpus_of w.
Lemma reads_bind {A B} (m : CM A) (f : A -> CM B) : reads m -> (forall a, reads (f a)) -> reads (m ≫= f).
Proof. intros Hm Hf w. specialize (Hm w). unfold mbind, M_bind. destruct (m w) as [[a|e] w1]; [|done]. cbn [snd] in Hm. by rewrite Hf. Qed.
Lemma reads_lift {A} (r : res A) : reads (lift r).
Proof. done. Qed.
Lemma reads_ret {A} (a : A) : reads (mret a).
Proof. done. Qed.
Lemma reads_gets {A} (f : world -> A) : reads (gets f).
Proof. done. Qed.
Lemma reads_fold {A S} (f : S -> A -> CM S) s l : (forall s a, reads (f s a)) -> reads (m_fold f s l).
Proof. intros Hf. revert s. induction l as [|a l IH]; intros s; cbn [m_fold]; [apply reads_ret|]. by apply reads_bind. Qed.
#[export] Hint Resolve reads_lift reads_ret reads_gets : ppc.
Lemma step_reads {A} id (m : CM A) w : reads m -> corpus_ok (corpus_of w) -> step_to id m w (fun _ c => c = corpus_of w).
Proof. intros Hm Hw. unfold step_to. rewrite (Hm w). split_and!; [done|apply corpus_evolves_refl|]. by destruct (fst (m w)). Qed.

Ltac reads_only := repeat first [apply reads_bind; [|intros ?] | apply reads_lift | apply reads_ret | apply reads_gets | case_match].

Section steps.
Context (h : host).

Lemma reads_run_worker job paths : reads (run_worker h job paths).
Proof.
  unfold run_worker. apply reads_bind; [apply reads_gets|intros w0]. apply reads_bind; [apply reads_lift|intros [staged files]].
  intros w. unfold mbind, M_bind, modify. cbn. by destruct (h_worker _ _ _ _) as [|[]].
Qed.
Lemma reads_find_inputs case roots maps : reads (find_inputs h case roots maps).
Proof. unfold find_inputs. reads_only. Qed.
Lemma reads_compare case r : reads (compare_run case r).
Proof. unfold compare_run. reads_only. Qed.
Lemma reads_replay case roots maps backend : reads (do_replay h case roots maps backend).
Proof. unfold do_replay. repeat first [apply reads_find_inputs | apply reads_run_worker | apply reads_compare | apply reads_lift | apply reads_bind; [|intros ?]]. Qed.
Lemma reads_rows roots maps backend ff l rows : reads (replay_rows h roots maps backend ff l rows).
Proof.
  revert rows. induction l as [|[s case] l IH]; intros rows; cbn [replay_rows]; [apply reads_ret|].
  apply reads_bind; [apply reads_replay|intros [got ds]]. apply reads_bind; [apply reads_lift|intros id]. apply reads_bind; [apply reads_lift|intros v].
  case_match; [apply reads_ret|apply IH].
Qed.
Lemma reads_selected ids tags : reads (selected_cases ids tags).
Proof. unfold selected_cases. reads_only. Qed.
Lemma reads_minimize case roots maps : reads (minimize h case roots maps).
Proof.
  assert (Hd : forall paths wanted field acc key, reads (try_drop h case paths wanted field acc key)).
  { intros. unfold try_drop. apply reads_bind; [apply reads_run_worker|intros r]. apply reads_bind; [apply reads_compare|intros [got ds]]. apply reads_ret. }
  unfold minimize. apply reads_bind; [apply reads_find_inputs|intros paths]. apply reads_bind; [apply reads_lift|intros base].
  apply reads_bind; [apply reads_run_worker|intros r]. apply reads_bind; [apply reads_compare|intros [got wanted]]. apply reads_bind; [apply reads_lift|intros _].
  apply reads_bind; [|intros [job removed]; reads_only].
  apply reads_fold. intros acc field. unfold minimize_field. apply reads_bind; [apply reads_lift|intros entries]. destruct entries; try apply reads_lift.
  apply reads_fold. auto.
Qed.
Lemma reads_verify : reads (verify h).
Proof. unfold verify. apply reads_bind; [apply reads_selected|intros l]. reads_only. Qed.
Lemma reads_require : reads (require_corpus h).
Proof. unfold require_corpus. reads_only. Qed.
Lemma reads_load id : reads (load_case id).
Proof. unfold load_case. reads_only. Qed.
End steps.

(** ** The files of a machine *)

Lemma object_path_not_json sha : object_path sha <> "manifest.json" /\ forall s, object_path sha <> "cases/" +:+ s.
Proof. unfold object_path. split; [done|]. intros s. cbn. discriminate. Qed.
Lemma corpus_object_path_inj a b : object_path a = object_path b -> a = b.
Proof. unfold object_path. intros H%(f_equal (strip_prefix "objects/sha256/")). rewrite !strip_prefix_append in H. congruence. Qed.

Lemma corpus_file_object c sha : corpus_file c (object_path sha) = dget (object_path sha) (objects c).
Proof.
  unfold corpus_file. destruct (dget _ _); [done|]. destruct (object_path_not_json sha) as [H1 H2]. apply String.eqb_neq in H1 as ->.
  destruct (List.find _ _) as [[s v]|] eqn:Hf; [|done]. apply List.find_some in Hf as [_ Hf]. apply String.eqb_eq in Hf. by apply H2 in Hf.
Qed.
Lemma corpus_file_put_object c rel data r : corpus_file c rel = None -> corpus_file (put_object rel data c) r = if String.eqb r rel then Some data else corpus_file c r.
Proof.
  intros Hn. unfold corpus_file, put_object. cbn [objects manifest cases]. rewrite dget_dset. by destruct (String.eqb_spec r rel).
Qed.
Lemma file_at_put_object h c rel data p x : corpus_file c rel = None -> file_at h c p = Some x -> file_at h (put_object rel data c) p = Some x.
Proof.
  unfold file_at. intros Hn. destruct (strip_prefix _ p) as [r|]; [|done]. intros Hr. rewrite corpus_file_put_object by done.
  destruct (String.eqb_spec r rel) as [->|]; congruence.
Qed.

(** A host keeps its corpus at [root], without symbolic links below it. *)
Record site (root : string) (h : host) : Prop := Site {
  at_root : h_root h = root;
  no_slash : str_endswith "/" root = false;
  no_links : forall sha, is_hex64 sha = true -> h_resolve h (root +:+ "/" +:+ object_path sha) = Ok (root +:+ "/" +:+ object_path sha);
  resolve_raises : forall p e, h_resolve h p = Raise e -> handled [ValueError; OSError] e = true }.

Lemma file_at_object root h c sha : site root h -> file_at h c (root +:+ "/" +:+ object_path sha) = dget (object_path sha) (objects c).
Proof. intros [<- _ _ _]. unfold file_at. rewrite <- (str_app_assoc (h_root h) "/"), strip_prefix_append. apply corpus_file_object. Qed.
Lemma contained_object root h sha : site root h -> is_hex64 sha = true ->
  contained h (path_join (h_root h) (object_path sha)) (h_root h) = Ok (Some (root +:+ "/" +:+ object_path sha)).
Proof.
  intros [Hr Hs Hl _] Hh. unfold contained. rewrite Hr. change (path_join root (object_path sha)) with (root +:+ "/" +:+ object_path sha). rewrite (Hl _ Hh).
  unfold path_within. rewrite Hs. destruct (String.eqb _ root); [done|]. cbn [orb]. rewrite <- (str_app_assoc root "/").
  by rewrite startswith_append.
Qed.

(** The files, once the corpus has a manifest; no two of them have a digest in common. *)
Definition initialised (c : corpus) : corpus := Corpus (Some (default new_manifest (manifest c))) (cases c) (objects c).
Definition filed (h : host) (c : corpus) (a : string) : Prop := exists p, file_at h (initialised c) p = Some a.
Definition collision_free (h : host) (c : corpus) : Prop := forall a b, filed h c a -> filed h c b -> sha256_hex a = sha256_hex b -> a = b.

Lemma init_ok id w : corpus_ok (corpus_of w) -> step_to id init_corpus w (fun _ c => c = initialised (corpus_of w) /\ manifest c <> None).
Proof.
  intros Hw. destruct w as [[[v|] cs os] n].
  - change (step_to id (lift (check_manifest v)) (World (Corpus (Some v) cs os) n) (fun _ c => c = initialised (Corpus (Some v) cs os) /\ manifest c <> None)).
    by apply step_lift.
  - destruct Hw as [H1 H2 H3 H4]. cbn in *. unfold step_to, init_corpus, mbind, M_bind. cbn. split_and!; [split; [exact H1|exact H2|exact H3|reflexivity]|by split|done|done].
Qed.

Section embedding.
Context (root : string) (h : host) (Hsite : site root h) (c0 : corpus) (Hfree : collision_free h c0).

(** The objects and the files of [c], which grew from [c0]. *)
Definition grown (c : corpus) : Prop :=
  manifest c <> None /\ (forall rel data, dget rel (objects c) = Some data -> filed h c0 data) /\
  (forall p x, file_at h (initialised c0) p = Some x -> file_at h c p = Some x).

Definition spec_of (data : string) (spec : dict value) : Prop :=
  dget "sha256" spec = Some (VStr (sha256_hex data)) /\ dget "size" spec = Some (size_of data) /\ dget "embedded" spec = None.
Definition embedded_spec (c : corpus) (data : string) (spec : dict value) : Prop :=
  dget "sha256" spec = Some (VStr (sha256_hex data)) /\ dget "size" spec = Some (size_of data) /\
  dget "embedded" spec = Some (VStr (object_path (sha256_hex data))) /\ dget (object_path (sha256_hex data)) (objects c) = Some data.

Lemma embed_ok id w spec p data : corpus_ok (corpus_of w) -> grown (corpus_of w) -> spec_of data spec -> file_at h (initialised c0) p = Some data ->
  step_to id (embed_input h spec p) w (fun s c => grown c /\ embedded_spec c data s).
Proof.
  intros Hw (Hm&Hg1&Hg2) (Hs1&Hs2&Hs3) Hp. unfold embed_input. unfold dget_n, dget_or. rewrite Hs1. set (sha := sha256_hex data).
  assert (Hspec : forall c, dget (object_path sha) (objects c) = Some data -> embedded_spec c data (dset "embedded" (VStr (object_path sha)) spec)).
  { intros c Hc. unfold embedded_spec. rewrite !dget_dset_ne by done. rewrite dget_dset_eq. by split_and!. }
  apply step_bind with (R := fun c c' => c = corpus_of w /\ c' = corpus_of w); [by apply step_gets|].
  intros c w1 Hw1 _ [-> Hc]. destruct w1 as [c1 n1]. cbn in Hc, Hw1. subst c1.
  apply step_bind with (R := fun _ c => grown c /\ dget (object_path sha) (objects c) = Some data).
  - rewrite corpus_file_object. destruct (dget (object_path sha) (objects (corpus_of w))) as [y|] eqn:Hy.
    + apply step_ret; [done|]. split; [by split_and!|]. cbn [corpus_of]. rewrite Hy. f_equal. apply Hfree.
      * by eapply Hg1.
      * by exists p.
      * apply (ok_objects _ Hw) in Hy. by apply corpus_object_path_inj in Hy.
    + rewrite (Hg2 _ _ Hp). assert (Hn : corpus_file (corpus_of w) (object_path sha) = None) by (by rewrite corpus_file_object).
      unfold step_to, in_corpus, modify. cbn [fst snd corpus_of]. destruct Hw as [H1 H2 H3 H4].
      assert (He : evolves id (corpus_of w) (put_object (object_path sha) data (corpus_of w))).
      { split; [|done..]. intros rel x Hr. cbn [put_object objects]. rewrite dget_dset. destruct (String.eqb_spec rel (object_path sha)) as [->|]; [congruence|done]. }
      split_and!; [|done| |].
      * split; cbn [put_object cases objects manifest]; [done| | |done].
        -- intros s v Hs. eapply case_ok_mono; [exact He|]. by apply H2.
        -- intros rel x. rewrite dget_dset. destruct (String.eqb_spec rel (object_path sha)) as [->|]; [by intros [= <-]|apply H3].
      * split_and!; [done| |].
        -- intros rel x. cbn [put_object objects]. rewrite dget_dset. destruct (String.eqb_spec rel (object_path sha)); [intros [= <-]; by exists p|apply Hg1].
        -- intros q x Hq. apply file_at_put_object; [done|]. by apply Hg2.
      * cbn [put_object objects]. apply dget_dset_eq.
  - intros u w1 Hw2 _ [Hg Hd]. apply step_ret; [done|]. split; [done|]. by apply Hspec.
Qed.
End embedding.

(** ** Promoting *)

Lemma run_worker_Ok h job paths w r w' : run_worker h job paths w = (Ok r, w') ->
  w' = World (corpus_of w) (S (runs w)) /\
  exists staged files, stage_job h (corpus_of w) job paths = Ok (staged, files) /\ h_worker h (runs w) staged files = Answered (Ok r).
Proof.
  unfold run_worker. intros H. inv_M. destruct x0 as [staged files]. inv_M. unfold id in *. subst.
  destruct (h_worker h (runs _) staged files) as [|[a|e]] eqn:Hr; inv_M; try discriminate. split; [done|]. by exists staged, files.
Qed.

Lemma run_worker_runs h job paths w staged files r : stage_job h (corpus_of w) job paths = Ok (staged, files) ->
  h_worker h (runs w) staged files = Answered (Ok r) -> run_worker h job paths w = (Ok r, World (corpus_of w) (S (runs w))).
Proof. intros Hs Hr. unfold run_worker, mbind, M_bind, gets, lift, modify, id. rewrite Hs. cbn [corpus_of runs]. by rewrite Hr. Qed.

(** A row of an input that was not embedded yet, with the contents of its file. *)
Definition input_of (h : host) (c : corpus) (spec : dict value) (p : string) : Prop :=
  exists data hint, file_at h c p = Some data /\ spec_of data spec /\ dget "path_hint" spec = Some (VStr hint).
Lemma resolve_inputs_ok h c job base n : resolve_job_inputs h c job base = Ok n -> Forall2 (input_of h c) (n_specs n) (n_paths n).
Proof.
  unfold resolve_job_inputs. destruct job as [| | | | | |d]; try discriminate.
  apply (res_fold_inv (fun n => Forall2 (input_of h c) (n_specs n) (n_paths n))); [|constructor].
  intros acc field n' _ Hacc H. unfold resolve_input in H. apply res_bind_Ok in H as (v&_&H).
  destruct v as [raw|]; [|by apply Ok_inj in H as ->]. destruct (dget_or "image" _ _) as [| | | | | |image]; try (by apply Ok_inj in H as ->).
  apply res_bind_Ok in H as (s&_&H). apply res_bind_Ok in H as (p&_&H). destruct (file_at h c p) as [data|] eqn:Hp; [|discriminate].
  apply Ok_inj in H as ->. cbn [n_specs n_paths]. apply Forall2_app; [done|]. constructor; [|constructor].
  exists data. eexists. split_and!; [done|split_and!; done|done].
Qed.

(** The rows of a case. *)
Definition spec_stored (c : corpus) (embed : bool) (data : string) (spec : dict value) : Prop :=
  if embed then embedded_spec c data spec else spec_of data spec.
Lemma spec_stored_ok c embed data spec : spec_stored c embed data spec -> spec_ok c (obj spec).
Proof.
  destruct embed; intros (H1&H2&H3); exists spec, (sha256_hex data); split_and!; try done; try apply sha256_hex64; [right|by left].
  destruct H3 as [H3 H4]. by exists data.
Qed.
Lemma evolves_embedded id c c' data spec : evolves id c c' -> embedded_spec c data spec -> embedded_spec c' data spec.
Proof. intros [He _ _] (H1&H2&H3&H4). split_and!; auto. Qed.

(** What is kept of an input by its row. *)
Definition hinted (spec : dict value) : Prop := exists hint, dget "path_hint" spec = Some (VStr hint).

Lemma embed_input_hint h spec p w s w' : embed_input h spec p w = (Ok s, w') -> dget "path_hint" s = dget "path_hint" spec.
Proof. unfold embed_input. intros H. inv_M. by rewrite dget_dset_ne. Qed.

Lemma embed_all_ok root h c0 id (embed : bool) specs paths w : site root h -> collision_free h c0 ->
  corpus_ok (corpus_of w) -> grown h c0 (corpus_of w) -> Forall2 (input_of h (initialised c0)) specs paths ->
  step_to id (m_map (fun sp => if embed then embed_input h (fst sp) (snd sp) else mret (fst sp)) (zip specs paths)) w
    (fun l c => grown h c0 c /\ Forall2 (fun p s => exists data, file_at h (initialised c0) p = Some data /\ spec_stored c embed data s /\ hinted s) paths l).
Proof.
  intros Hsite Hfree Hw Hg H. revert w Hw Hg. induction H as [|spec p specs paths (data&hint&Hp&Hs&Hh) _ IH]; intros w Hw Hg; cbn [zip m_map zip_with].
  { apply step_ret; [done|]. split; [done|constructor]. }
  apply step_bind with (R := fun s c => grown h c0 c /\ spec_stored c embed data s /\ hinted s); cbn [fst snd].
  { destruct embed; [|apply step_ret; [done|]; split_and!; [done|done|by exists hint]].
    pose proof (embed_ok h c0 Hfree id w spec p data Hw Hg Hs Hp) as Hstep.
    split_and!; [apply Hstep|apply Hstep|]. destruct Hstep as (_&_&Hq). destruct (embed_input h spec p w) as [[s|e] w1] eqn:He; [|done]. cbn [fst snd] in *.
    destruct Hq as [Hq1 Hq2]. split_and!; [done|done|]. exists hint. by rewrite (embed_input_hint _ _ _ _ _ _ He). }
  intros s w1 Hw1 He1 (Hg1&Hs1&Hh1). apply step_bind with (R := fun l c => evolves id (corpus_of w1) c /\ grown h c0 c /\
    Forall2 (fun p s => exists data, file_at h (initialised c0) p = Some data /\ spec_stored c embed data s /\ hinted s) paths l).
  { destruct (IH w1 Hw1 Hg1) as (H1&H2&H3). split_and!; [done..|]. by destruct (fst _). }
  intros l w2 Hw2 _ (He2&Hg2&Hl). apply step_ret; [done|]. split; [done|]. constructor; [|done]. exists data. split_and!; [done| |done].
  destruct embed; [by eapply evolves_embedded|done].
Qed.

Definition case_doc (id description : string) (tags : list string) (version : string) (specs : list (dict value)) (job : dict value) (expectation : value) : value :=
  obj [("schema", VStr CASE_SCHEMA); ("id", VStr id); ("description", VStr description); ("tags", VList (VStr <$> sorted_set tags));
       ("created_with", obj [("ppc_lab", VStr version)]); ("inputs", VList (obj <$> specs)); ("job", obj job); ("expectation", expectation)].

(** A case that was promoted: the worker gave its expectation, and its rows describe the files. *)
Definition promoted (h : host) (c0 : corpus) (id description : string) (tags : list string) (job : res value) (base : string) (embed : bool) (c : corpus) : Prop :=
  exists jobv n specs version r e run staged files,
    job = Ok jobv /\ resolve_job_inputs h (initialised c0) jobv base = Ok n /\ h_version h = Ok version /\
    stage_job h (initialised c0) (obj (n_job n)) (n_paths n) = Ok (staged, files) /\ h_worker h run staged files = Answered (Ok r) /\
    stable_expectation r = Ok e /\ id_ok id = true /\
    Forall2 (fun p s => exists data, file_at h (initialised c0) p = Some data /\ spec_stored c embed data s /\ hinted s) (n_paths n) specs /\
    dget id (cases c) = Some (case_doc id description tags version specs (n_job n) e).

Lemma promote_ok root h id description tags job base embed allow w : site root h -> collision_free h (corpus_of w) -> corpus_ok (corpus_of w) ->
  step_to (Some id) (promote h id description tags job base embed allow) w (fun _ c => promoted h (corpus_of w) id description tags job base embed c /\ manifest c <> None).
Proof.
  intros Hsite Hfree Hw. set (c0 := corpus_of w) in *. unfold promote. eapply step_bind; [by apply init_ok|]. fold c0. intros _ w1 Hw1 _ [Hc1 Hm1].
  apply step_bind_lift; [done|intros _ Hid%guard_app_Ok]. apply step_bind_lift; [done|intros jobv Hj]. apply step_bind_gets.
  rewrite Hc1. apply step_bind_lift; [done|intros n Hn].
  apply step_bind with (R := fun r c => c = initialised c0 /\ exists staged files, stage_job h (initialised c0) (obj (n_job n)) (n_paths n) = Ok (staged, files) /\
    h_worker h (runs w1) staged files = Answered (Ok r)).
  { pose proof (step_reads (Some id) (run_worker h (obj (n_job n)) (n_paths n)) w1 (reads_run_worker h _ _) Hw1) as (H1&H2&H3).
    split_and!; [done..|]. destruct (run_worker _ _ _ w1) as [[r|e] w6] eqn:Hr; [|done]. cbn [fst snd] in *. apply run_worker_Ok in Hr as (_&staged&files&Hs&Hr).
    rewrite Hc1 in *. split; [done|]. by exists staged, files. }
  intros r w6 Hw6 _ (Hc6&staged&files&Hs&Hr).
  apply step_bind_lift; [done|intros ok _]. apply step_bind_lift; [done|intros _ _].
  eapply step_bind; [eapply (embed_all_ok root h c0 _ embed); [done|done|done| |by eapply resolve_inputs_ok]|].
  { rewrite Hc6. split_and!; [by destruct (manifest c0)| |done]. intros rel data Hd. exists (root +:+ "/" +:+ rel). cbn [initialised objects] in Hd.
    assert (Hrel := ok_objects _ Hw6 rel data ltac:(by rewrite Hc6)). rewrite Hrel, (file_at_object root) by done. rewrite <- Hrel. exact Hd. }
  intros specs w9 Hw9 _ [Hg Hspecs].
  apply step_bind_lift; [done|intros version Hv]. apply step_bind_lift; [done|intros e He].
  assert (Hev : evolves (Some id) (corpus_of w9) (put_case id (case_doc id description tags version specs (n_job n) e) (corpus_of w9))) by apply evolves_put_case.
  split_and!; cbn [in_corpus modify fst snd corpus_of].
  - apply put_case_ok; [done|apply Hg|]. eexists _, _. split_and!; [reflexivity|reflexivity|reflexivity|done|reflexivity|].
    apply Forall_fmap. apply Forall_forall. intros s Hs'. apply list_elem_of_lookup_1 in Hs' as [i Hi].
    destruct (Forall2_lookup_r _ _ _ _ _ Hspecs Hi) as (p&_&data&_&Hst&_). by eapply spec_stored_ok.
  - exact Hev.
  - split; [|apply Hg]. exists jobv, n, specs, version, r, e, (runs w1), staged, files. split_and!; [done..| |].
    + eapply Forall2_impl; [exact Hspecs|]. intros p s (data&Hp&Hst&Hh). exists data. split_and!; [done| |done]. destruct embed; [by eapply evolves_embedded|done].
    + cbn [put_case cases]. apply dget_dset_eq.
Qed.

(** ** Commands *)

Definition id_of (cmd : command) : option string :=
  match cmd with Promote id _ _ _ _ _ _ => Some id | Bless id _ _ _ => Some id | _ => None end.

Lemma step_keep {A} id (m : CM A) w : reads m -> corpus_ok (corpus_of w) -> step_to id m w (fun _ c => c = corpus_of w).
Proof. apply step_reads. Qed.
Lemma step_done {A} id (m : CM A) w : reads m -> corpus_ok (corpus_of w) -> step_to id m w (fun _ _ => True).
Proof. intros Hm Hw. eapply step_weaken; [by apply step_reads|done]. Qed.

Lemma bless_ok h id case roots maps backend yes w : corpus_ok (corpus_of w) -> dget id (cases (corpus_of w)) = Some case -> manifest (corpus_of w) <> None ->
  step_to (Some id) (bless h id case roots maps backend yes) w (fun _ _ => True).
Proof.
  intros Hw Hc Hm. unfold bless. apply step_bind_lift; [done|intros _ _].
  eapply step_bind; [apply step_reads; [apply reads_replay|done]|]. intros [got ds] w1 Hw1 _ Hc1. apply step_bind_lift; [done|intros version _].
  destruct (ok_cases _ Hw _ _ Hc) as (d&specs&->&H1&H2&H3&H4&H5). unfold step_to. cbn [in_corpus modify fst snd corpus_of]. rewrite Hc1.
  split_and!; [|apply evolves_put_case|done]. apply put_case_ok; [done..|]. eexists _, specs. cbn [set_key].
  split; [reflexivity|]. rewrite !dget_dset_ne by done. by split_and!.
Qed.

Lemma execute_ok root h cmd w : site root h -> collision_free h (corpus_of w) -> corpus_ok (corpus_of w) ->
  step_to (id_of cmd) (execute h cmd) w (fun _ _ => True).
Proof.
  intros Hsite Hfree Hw. destruct cmd; cbn [execute id_of].
  - eapply step_bind; [by apply init_ok|]. intros _ w1 Hw1 _ _. by apply step_ret.
  - eapply step_bind; [by eapply promote_ok|]. intros _ w1 Hw1 _ _. by apply step_ret.
  - apply step_done; [|done]. apply reads_bind; [apply reads_require|intros _]. apply reads_bind; [apply reads_selected|intros l]. reads_only.
  - apply step_done; [|done]. apply reads_bind; [apply reads_require|intros _]. apply reads_bind; [apply reads_verify|intros n]. reads_only.
  - apply step_done; [|done]. apply reads_bind; [apply reads_require|intros _]. apply reads_bind; [apply reads_lift|intros [roots maps]].
    apply reads_bind; [apply reads_selected|intros l]. apply reads_bind; [apply reads_rows|intros rows]. reads_only.
  - unfold require_corpus. destruct (manifest (corpus_of w)) as [v|] eqn:Hm.
    2: unfold step_to, mbind, M_bind, gets, lift, app_error; rewrite Hm; by split_and!; [done|apply corpus_evolves_refl|].
    eapply step_bind with (R := fun _ c => c = corpus_of w); [apply step_bind_gets; rewrite Hm; by apply step_lift|]. intros _ w1 Hw1 _ Hc1.
    apply step_bind_lift; [done|intros [roots maps] _]. unfold load_case.
    eapply step_bind with (R := fun v c => c = corpus_of w /\ dget id (cases c) = Some v).
    + apply step_bind_gets. destruct (dget id (cases (corpus_of w1))) as [u|] eqn:Hu; [|by apply step_lift].
      apply step_bind_lift; [done|intros schema _]. apply step_bind_lift; [done|intros _ _]. apply step_ret; [done|]. by rewrite Hc1 in *.
    + intros case w2 Hw2 _ [Hc2 Hcase]. eapply step_bind; [apply bless_ok; [done|done|by rewrite Hc2, Hm]|]. intros _ w3 Hw3 _ _. by apply step_ret.
  - apply step_done; [|done]. apply reads_bind; [apply reads_require|intros _]. apply reads_bind; [apply reads_lift|intros [roots maps]].
    apply reads_bind; [apply reads_load|intros case]. apply reads_bind; [apply reads_minimize|intros out]. reads_only.
Qed.

Lemma main_ok root h cmd w : site root h -> collision_free h (corpus_of w) -> corpus_ok (corpus_of w) ->
  corpus_ok (corpus_of (snd (main h cmd w))) /\ evolves (id_of cmd) (corpus_of w) (corpus_of (snd (main h cmd w))).
Proof.
  intros Hsite Hfree Hw. destruct (execute_ok root h cmd w Hsite Hfree Hw) as (H1&H2&_). unfold main, catch.
  destruct (execute h cmd w) as [[a|e] w1]; [done|]. cbn [fst snd] in *. by destruct (handled _ e).
Qed.

(** What the commands make of an empty corpus, on any hosts at any times. *)
Inductive history (root : string) : world -> Prop :=
  | history_empty n : history root (World (Corpus None [] []) n)
  | history_step w h cmd : history root w -> site root h -> collision_free h (corpus_of w) -> history root (snd (main h cmd w)).

Lemma corpus_history_ok root w : history root w -> corpus_ok (corpus_of w).
Proof. induction 1 as [n|w h cmd _ IH Hs Hf]; [by split; [apply dwf_nil| | |]|]. by eapply main_ok. Qed.

(** ** Verifying *)

Lemma verify_input_ok root h c cid spec : site root h -> spec_ok c spec -> verify_input h c cid spec = Ok tt.
Proof.
  intros Hs (d&sha&->&H1&H2&H3). unfold verify_input. cbn [vget_or vget mbind res_bind]. unfold dget_n, dget_or. rewrite H1. cbn [expect_str mbind res_bind].
  rewrite H2. cbn [guard_app mbind res_bind vget vget_or]. unfold dget_n, dget_or. destruct H3 as [H3|(data&H3&H4&H5&H6)]; rewrite H3; [done|].
  assert (Hb : py_bool (VStr (object_path sha)) = true) by done. rewrite Hb. cbn [expect_str mbind res_bind]. rewrite (contained_object root) by done. cbn [mbind res_bind].
  unfold matches. rewrite (file_at_object root) by done. rewrite H4. cbn [vindex]. rewrite H6. cbn [mbind res_bind].
  rewrite <- H5. cbn [py_eq size_of num_eq]. by rewrite Z.eqb_refl, String.eqb_refl.
Qed.

Lemma res_map_all {A} (f : A -> res unit) l : Forall (fun x => f x = Ok tt) l -> exists k, res_map f l = Ok k.
Proof. induction 1 as [|x l Hx _ [k IH]]; [by exists []|]. exists (tt :: k). cbn [res_map]. by rewrite Hx, IH. Qed.

Lemma verify_case_ok root h c stem v ids : site root h -> corpus_ok c -> dget stem (cases c) = Some v -> stem ∉ ids ->
  verify_case h c ids (stem, v) = Ok (stem :: ids).
Proof.
  intros Hs Hc Hv Hi. destruct (ok_cases _ Hc _ _ Hv) as (d&specs&->&H1&H2&H3&H4&H5). unfold verify_case. cbn [vget vget_or mbind res_bind].
  unfold dget_n, dget_or. rewrite H1, H2, H4. unfold eq_str, CASE_SCHEMA. cbn [py_eq]. rewrite String.eqb_refl, H3. cbn [guard_app viter].
  assert (Hn : existsb (String.eqb stem) ids = false).
  { apply not_true_iff_false. intros (x&Hx&->%String.eqb_eq)%existsb_exists. by apply Hi, list_elem_of_In. }
  rewrite Hn. cbn [negb guard_app mbind res_bind].
  destruct (res_map_all (verify_input h c stem) specs) as [k Hk]; [|by rewrite Hk].
  eapply Forall_impl; [exact H5|]. intros x Hx. by eapply verify_input_ok.
Qed.

Lemma select_all c names : (forall s, s ∈ names -> s ∈ dkeys (cases c)) ->
  res_map (select_case c []) names = Ok ((fun s => [(s, default VNone (dget s (cases c)))]) <$> names).
Proof.
  induction names as [|s names IH]; intros H; [done|]. destruct (dget_in_keys s (cases c)) as [v Hv]; [apply H; by left|].
  assert (Hs : select_case c [] s = Ok [(s, v)]) by (unfold select_case; by rewrite Hv).
  cbn [res_map]. rewrite Hs, IH by (intros x Hx; apply H; by right). rewrite fmap_cons, Hv. done.
Qed.
Lemma concat_singletons {A B} (f : A -> B) l : concat ((fun x => [f x]) <$> l) = f <$> l.
Proof. induction l as [|x l IH]; [done|]. cbn. by f_equal. Qed.

Lemma elem_of_stems c s : s ∈ stems c <-> s ∈ dkeys (cases c).
Proof. apply elem_of_py_sorted. Qed.

Lemma verify_ok root h w : site root h -> corpus_ok (corpus_of w) -> verify h w = (Ok (Z.of_nat (length (cases (corpus_of w)))), w).
Proof.
  intros Hs Hc. set (c := corpus_of w) in *. unfold verify, selected_cases, mbind, M_bind, gets. cbn [lift]. fold c. unfold lift. rewrite select_all by (intros s; apply elem_of_stems).
  cbn [mret M_ret]. rewrite concat_singletons.
  assert (Hfold : forall names ids, NoDup names -> (forall s, s ∈ names -> s ∈ dkeys (cases c) /\ s ∉ ids) ->
    res_fold (verify_case h c) ids ((fun s => (s, default VNone (dget s (cases c)))) <$> names) = Ok (rev names ++ ids)).
  { induction names as [|s names IH]; intros ids Hn Hin; [done|]. apply NoDup_cons in Hn as [Hs1 Hn]. cbn [fmap list_fmap res_fold].
    destruct (Hin s ltac:(by left)) as [Hk Hi]. destruct (dget_in_keys s _ Hk) as [v Hv]. rewrite Hv. cbn [default].
    rewrite (verify_case_ok root) by done. cbn [mbind res_bind]. rewrite IH; [cbn [rev]; by rewrite <- app_assoc|done|].
    intros x Hx. split; [apply Hin; by right|]. rewrite elem_of_cons. intros [->|Hx2]; [done|]. apply (Hin x ltac:(by right)), Hx2. }
  assert (Hnd : NoDup (stems c)) by apply NoDup_py_sorted, (ok_keys _ Hc).
  fold c. rewrite (Hfold (stems c) [] Hnd) by (intros s Hx; split; [by apply elem_of_stems|apply not_elem_of_nil]).
  unfold mret, M_ret. rewrite app_nil_r, length_rev. unfold stems. rewrite length_py_sorted. unfold dkeys. by rewrite length_fmap.
Qed.
