(* ===== verification/CorpusProps.v ===== *)
(** * What the corpus guarantees

    A corpus that was built by its commands verifies.  A promoted case is replayed without a
    difference as long as the worker behaves as it did.  Minimising keeps a failure and removes
    entries only. *)
From Stdlib Require Import Ascii.
From S2P Require Import Corpus CorpusFacts.

(** C20: a corpus that commands made out of an empty one verifies, on any host that keeps it at its
    place: every case has a valid identifier of its own and inputs with valid digests, and every
    embedded input is there with its size and digest.  Before the corpus is initialised there is
    nothing to verify. *)
Theorem corpus_verifies root h w : history root w -> site root h ->
  main h Verify w = match manifest (corpus_of w) with
                    | Some _ => (Ok (0, Verified (Z.of_nat (length (cases (corpus_of w))))), w)
                    | None => (Ok (2, Nothing), w)
                    end /\
  (manifest (corpus_of w) = None -> cases (corpus_of w) = []).
Proof.
  intros Hh Hs. apply corpus_history_ok in Hh. pose proof (verify_ok root h w Hs Hh) as Hv. pose proof (ok_manifest _ Hh) as Hm.
  unfold main, catch, execute, require_corpus, mbind, M_bind, gets, lift. destruct (manifest (corpus_of w)) as [v|]; [rewrite Hm, Hv|]; done.
Qed.

(** ** Replaying what was promoted *)

(** Commands that are about other cases. *)
Inductive later (root id : string) : world -> world -> Prop :=
  | later_now w : later root id w w
  | later_step w w' h cmd : later root id w w' -> site root h -> collision_free h (corpus_of w') -> id_of cmd <> Some id ->
      later root id w (snd (main h cmd w')).

Record kept (id : string) (c c' : corpus) : Prop := Kept {
  kept_objects : forall rel data, dget rel (objects c) = Some data -> dget rel (objects c') = Some data;
  kept_manifest : forall v, manifest c = Some v -> manifest c' = Some v;
  kept_case : dget id (cases c') = dget id (cases c) }.
Lemma later_kept root id w w' : corpus_ok (corpus_of w) -> later root id w w' -> corpus_ok (corpus_of w') /\ kept id (corpus_of w) (corpus_of w').
Proof.
  intros Hw. induction 1 as [w|w w' h cmd _ IH Hs Hf Hid]; [by split|]. destruct (IH Hw) as [Hw' [K1 K2 K3]].
  destruct (main_ok root h cmd w' Hs Hf Hw') as [Hw2 [E1 E2 E3]]. split; [done|]. split; [auto|auto|]. rewrite E3; [done|congruence].
Qed.

(** What of an outcome is compared. *)
Definition shown (o : outcome) : res value :=
  match o with TimedOut => Raise (Exn TimeoutExpired "the worker timed out") | Answered r => v ← r; stable_expectation v end.
(** The behaviour of a job is that of its inputs' contents, whatever their names and at any time. *)
Definition steady (h : host) : Prop := forall c c' job ps ps' st fs st' fs' k k',
  stage_job h c job ps = Ok (st, fs) -> stage_job h c' job ps' = Ok (st', fs') -> file_at h c <$> ps = file_at h c' <$> ps' ->
  shown (h_worker h k st fs) = shown (h_worker h k' st' fs').
(** Responses hold no NaN, and their objects have distinct keys. *)
Definition sane_worker (h : host) : Prop := forall k job files r, h_worker h k job files = Answered (Ok r) -> sane r = true.

Section replaying.
Context (root : string) (h : host) (Hsite : site root h).

Lemma contained_answers p r : exists o, contained h p r = Ok o.
Proof.
  unfold contained. destruct (h_resolve h p) as [q|e] eqn:E; [by eexists|]. rewrite (resolve_raises _ _ Hsite _ _ E). by eexists.
Qed.
Lemma res_map_answers {A B} (f : A -> res B) l : (forall x, exists y, f x = Ok y) -> exists k, res_map f l = Ok k.
Proof.
  intros Hf. induction l as [|x l [k IH]]; [by exists []|]. destruct (Hf x) as [y Hy]. exists (y :: k). cbn [res_map]. by rewrite Hy, IH.
Qed.
Lemma hinted_answers spec r : hinted spec -> exists l, hinted_candidate h (obj spec) r = Ok l.
Proof.
  intros [hint Hh]. unfold hinted_candidate. cbn [vget_or mbind res_bind]. unfold dget_or. rewrite Hh. cbn [expect_str mbind res_bind].
  destruct (is_absolute hint); [by eexists|]. destruct (contained_answers (path_join r hint) r) as [o ->]. by eexists.
Qed.

Lemma first_match_finds c sha spec l p : (forall q, exists b, matches h c sha spec q = Ok b) -> p ∈ l -> matches h c sha spec p = Ok true ->
  exists q, first_match h c sha spec l = Ok (Some q) /\ matches h c sha spec q = Ok true.
Proof.
  intros Hm Hp Ht. induction l as [|x l IH]; [by apply elem_of_nil in Hp|]. cbn [first_match]. destruct (Hm x) as [[] Hx]; rewrite Hx; cbn [mbind res_bind].
  - by exists x.
  - apply elem_of_cons in Hp as [->|Hp]; [congruence|by apply IH].
Qed.

(** An embedded input is found, and what is found has its contents. *)
Lemma find_embedded c roots maps data spec : manifest c <> None -> collision_free h c -> embedded_spec c data spec -> hinted spec ->
  exists p, find_input h c roots maps (obj spec) = Ok p /\ file_at h c p = Some data.
Proof.
  intros Hm Hf (H1&H2&H3&H4) Hh. set (sha := sha256_hex data) in *. assert (Hi : initialised c = c) by (destruct c as [[m|] cs os]; done).
  assert (Hmatch : forall q, matches h c (VStr sha) (obj spec) q =
    Ok (match file_at h c q with Some x => (Z.of_nat (String.length x) =? Z.of_nat (String.length data)) && String.eqb (sha256_hex x) sha | None => false end)).
  { intros q. unfold matches. destruct (file_at h c q); [|done]. cbn [vindex]. rewrite H2. done. }
  set (own := root +:+ "/" +:+ object_path sha). assert (Hown : file_at h c own = Some data) by (unfold own; by rewrite (file_at_object root)).
  unfold find_input. cbn [vindex]. rewrite H1. cbn [mbind res_bind]. unfold candidates, mapped_candidate, embedded_candidate. cbn [hashable is_list is_dict orb mbind res_bind vget vget_or].
  unfold dget_or. rewrite H3. assert (Hb : py_bool (VStr (object_path sha)) = true) by done. rewrite Hb. cbn [expect_str mbind res_bind].
  rewrite (contained_object root) by (done || apply sha256_hex64). cbn [mbind res_bind]. fold own.
  destruct (res_map_answers (hinted_candidate h (obj spec)) roots) as [hints Hhints]; [intros r; by apply hinted_answers|]. rewrite Hhints. cbn [mbind res_bind].
  match goal with |- context [first_match h c (VStr sha) (obj spec) ?l] => destruct (first_match_finds c (VStr sha) (obj spec) l own) as (q&Hq&Hqm) end.
  - intros q. eexists. apply Hmatch.
  - apply elem_of_app. right. by left.
  - rewrite Hmatch, Hown. unfold sha. by rewrite Z.eqb_refl, String.eqb_refl.
  - rewrite Hq. exists q. split; [done|]. rewrite Hmatch in Hqm. destruct (file_at h c q) as [x|] eqn:Hx; [|by apply Ok_inj in Hqm].
    apply Ok_inj in Hqm. symmetry in Hqm. apply andb_true_iff in Hqm as [_ Heq%String.eqb_eq]. f_equal. apply Hf; [exists q; by rewrite Hi|exists own; by rewrite Hi|done].
Qed.

(** Staging a job with an image. *)
Definition has_image (job : value) : Prop := exists d im, job = obj d /\ dget_or "image" (obj []) d = obj im.
Lemma stage_field_image t name field job : has_image job -> exists job', stage_field t name job field = Ok job' /\ has_image job'.
Proof.
  intros (d&im&->&Hi). unfold stage_field. cbn [vget_or mbind res_bind]. rewrite Hi. cbn [vget vget_or mbind res_bind].
  destruct (eq_str _ _); eexists; (split; [reflexivity|]); [|by exists d, im]. eexists _, _. split; [done|]. unfold dget_or. by rewrite dget_dset_eq.
Qed.
Lemma stage_one c job acc i p : has_image job -> file_at h c p <> None ->
  exists job' acc', stage_input h c (job, acc) (i, p) = Ok (job', acc') /\ has_image job'.
Proof.
  intros Hj Hp. unfold stage_input. cbn [fst snd]. destruct (file_at h c p) as [data|]; [|done]. unfold input_fields. cbn [res_fold].
  set (name := "inputs/" +:+ zpad 2 i +:+ "-" +:+ path_name p).
  destruct (stage_field_image (token i) name "path" job Hj) as (j1&->&H1). cbn [mbind res_bind].
  destruct (stage_field_image (token i) name "data_path" j1 H1) as (j2&->&H2). cbn [mbind res_bind]. by exists j2, (dset name data acc).
Qed.
Lemma stage_image c job ps acc i : has_image job -> Forall (fun p => file_at h c p <> None) ps ->
  exists r, res_fold (stage_input h c) (job, acc) (enumerate_from i ps) = Ok r.
Proof.
  intros Hj Hp. revert i job acc Hj. induction Hp as [|p ps Hp _ IH]; intros i job acc Hj; [by eexists|].
  destruct (stage_one c job acc i p Hj Hp) as (job'&acc'&Hs&Hj'). destruct (IH (i + 1) job' acc' Hj') as [r Hr].
  exists r. rewrite enumerate_from_cons. cbn [res_fold]. by rewrite Hs.
Qed.
Lemma resolved_image c job base n : resolve_job_inputs h c job base = Ok n -> n_paths n = [] \/ has_image (obj (n_job n)).
Proof.
  unfold resolve_job_inputs. destruct job as [| | | | | |d]; try discriminate.
  apply (res_fold_inv (fun n => n_paths n = [] \/ has_image (obj (n_job n)))); [|by left].
  intros acc field n' _ Hacc H. unfold resolve_input in H. apply res_bind_Ok in H as (v&_&H).
  destruct v as [raw|]; [|by apply Ok_inj in H as ->]. destruct (dget_or "image" _ _) as [| | | | | |image]; try (by apply Ok_inj in H as ->).
  apply res_bind_Ok in H as (s&_&H). apply res_bind_Ok in H as (p&_&H). destruct (file_at h c p) as [data|]; [|discriminate].
  apply Ok_inj in H as ->. right. eexists _, _. split; [done|]. cbn [n_job]. unfold dget_or. by rewrite dget_dset_eq.
Qed.

Context (Hsteady : steady h) (Hsane : sane_worker h).

(** The replay of a promoted case. *)
Lemma replay_promoted c0 id description tags job base c1 w roots maps : promoted h c0 id description tags job base true c1 ->
  kept id c1 (corpus_of w) -> manifest (corpus_of w) <> None -> collision_free h (corpus_of w) ->
  exists case got version, dget id (cases (corpus_of w)) = Some case /\ vindex "id" case = Ok (VStr id) /\ h_version h = Ok version /\
    do_replay h case roots maps None w = (Ok (got, []), World (corpus_of w) (S (runs w))).
Proof.
  intros (jobv&n&specs&version&r&e&k&st&fs&_&Hn&Hver&Hst&Hr&He&_&Hspecs&Hcase) [K1 K2 K3] Hm Hf. set (c := corpus_of w) in *.
  exists (case_doc id description tags version specs (n_job n) e), e, version. split_and!; [by rewrite K3|done|done|].
  assert (Hfound : exists ps, res_map (find_input h c roots maps) (obj <$> specs) = Ok ps /\ file_at h c <$> ps = file_at h (initialised c0) <$> n_paths n).
  { clear -Hspecs K1 Hm Hf Hsite. induction Hspecs as [|p s ps ss (data&Hp&Hs&Hh) _ (qs&Hqs&Hc)]; [by exists []|].
    destruct (find_embedded c roots maps data s) as (q&Hq&Hqd); [done|done| |done|].
    { destruct Hs as (S1&S2&S3&S4). split_and!; auto. }
    exists (q :: qs). rewrite fmap_cons. cbn [res_map]. rewrite Hq. cbn [mbind res_bind]. rewrite Hqs. split; [done|]. rewrite !fmap_cons. by rewrite Hqd, Hp, Hc. }
  destruct Hfound as (ps&Hps&Hc).
  assert (Hstage : exists x, stage_job h c (obj (n_job n)) ps = Ok x).
  { destruct (resolved_image _ _ _ _ Hn) as [Hnil|Hi].
    - rewrite Hnil in Hc. destruct ps; [by eexists|done].
    - apply stage_image; [done|]. apply Forall_forall. intros p Hp. assert (Hin : file_at h c p ∈ file_at h c <$> ps) by (apply list_elem_of_fmap; by exists p).
      rewrite Hc in Hin. apply list_elem_of_fmap in Hin as (q&Heq&Hq). apply list_elem_of_lookup_1 in Hq as [i Hi'].
      destruct (Forall2_lookup_l _ _ _ _ _ Hspecs Hi') as (s&_&data&Hd&_). rewrite Heq, Hd. done. }
  destruct Hstage as [[st' fs'] Hst']. assert (Hshown : shown (h_worker h (runs w) st' fs') = Ok e).
  { rewrite <- (Hsteady _ _ _ _ _ _ _ _ _ k (runs w) Hst Hst' (eq_sym Hc)). rewrite Hr. exact He. }
  unfold do_replay, find_inputs, mbind, M_bind, gets, lift. fold c.
  replace (vindex "inputs" (case_doc id description tags version specs (n_job n) e)) with (Ok (VList (obj <$> specs))) by done. cbn [viter].
  rewrite Hps. replace (vindex "job" (case_doc id description tags version specs (n_job n) e)) with (Ok (obj (n_job n))) by done. cbn [with_backend].
  destruct (h_worker h (runs w) st' fs') as [|[r'|x]] eqn:Hr'; cbn [shown mbind res_bind] in Hshown; [discriminate| |discriminate].
  rewrite (run_worker_runs _ _ _ _ _ _ _ Hst' Hr'). unfold compare_run, mbind, M_bind, lift.
  replace (vindex "expectation" (case_doc id description tags version specs (n_job n) e)) with (Ok e) by done. rewrite Hshown.
  rewrite diffs_self; [done|]. eapply stable_expectation_sane; [|exact He]. by eapply Hsane.
Qed.
End replaying.

(** C17: promotion and replay are inverse.  A case that was promoted with its inputs embedded is
    replayed without a difference after any commands about other cases, wherever inputs are looked
    for first, if the worker shows the behaviour it showed for inputs of the same contents. *)
Theorem promoted_case_replays root h w0 w1 w2 id description tags job base allow from roots maps fail_fast :
  history root w0 -> site root h -> collision_free h (corpus_of w0) ->
  main h (Promote id description tags job base true allow) w0 = (Ok (0, Nothing), w1) ->
  later root id w1 w2 -> collision_free h (corpus_of w2) -> steady h -> sane_worker h -> input_sources h from = Ok (roots, maps) ->
  exists version, h_version h = Ok version /\
    main h (Replay [id] [] from None fail_fast) w2 =
      (Ok (0, Replayed (summary version [Row (VStr id) [] version])), World (corpus_of w2) (S (runs w2))).
Proof.
  intros Hh Hs Hf Hp Hl Hf2 Hsteady Hsane Hfrom. apply corpus_history_ok in Hh.
  assert (Hstep := promote_ok root h id description tags job base true allow w0 Hs Hf Hh). destruct Hstep as (Hok1&_&Hpost).
  assert (Hrun : exists u, promote h id description tags job base true allow w0 = (Ok u, w1)).
  { unfold main, catch, execute, mbind, M_bind in Hp. destruct (promote _ _ _ _ _ _ _ _ w0) as [[u|x] w']; [exists u; by injection Hp as ->|].
    destruct (handled [AppError; TimeoutExpired; JSONDecodeError] x); discriminate. }
  destruct Hrun as [u Hrun]. rewrite Hrun in Hok1, Hpost. cbn [fst snd] in *. destruct Hpost as [Hpr Hm1].
  destruct (later_kept _ _ _ _ Hok1 Hl) as [Hok2 Hk]. destruct (manifest (corpus_of w1)) as [m|] eqn:Hm; [|done].
  assert (Hm2 := kept_manifest _ _ _ Hk m Hm). pose proof (ok_manifest _ Hok2) as Hcheck. rewrite Hm2 in Hcheck.
  destruct (replay_promoted root h Hs Hsteady Hsane _ _ _ _ _ _ _ w2 roots maps Hpr Hk ltac:(by rewrite Hm2) Hf2) as (case&got&version&Hc&Hid&Hv&Hr).
  exists version. split; [done|].
  unfold main, catch, execute, require_corpus, selected_cases, mbind, M_bind, gets, lift. rewrite Hm2, Hcheck, Hfrom. cbn [res_map].
  unfold select_case. rewrite Hc. cbn [has_tags mbind res_bind concat app]. unfold mret, M_ret. cbn [replay_rows]. unfold mbind, M_bind. rewrite Hr.
  unfold lift. rewrite Hid, Hv. cbn [app existsb passes r_differences negb orb]. rewrite andb_false_r. reflexivity.
Qed.

(** ** Minimising *)

(** How a run of a job differs from what the case expects. *)
Definition observed (h : host) (c : corpus) (case : value) (paths : list string) (k : nat) (job : value) : res (list difference) :=
  '(staged, files) ← stage_job h c job paths;
  e ← vindex "expectation" case;
  got ← shown (h_worker h k staged files);
  Ok (diffs e got "$").
(** The worker behaves the same at any time. *)
Definition timeless (h : host) : Prop := forall k k' job files, shown (h_worker h k job files) = shown (h_worker h k' job files).

(** The setup of a job, field by field. *)
Abbreviation entry := (string * string)%type.
Definition field_entries (job : value) (field : string) : list entry :=
  match job with
  | VDict d => match dget_or field (obj []) d with VDict e => (fun k => (field, k)) <$> dkeys e | _ => [] end
  | _ => []
  end.
Definition entries (job : value) : list entry := flat_map (field_entries job) setup_fields.
Definition dropped (removed : list entry) (job : value) : value := fold_left (fun j e => drop_entry (fst e) (snd e) j) removed job.
Definition entry_name (e : entry) : string := fst e +:+ "." +:+ snd e.

Lemma dropped_snoc R e job : dropped (R ++ [e]) job = drop_entry (fst e) (snd e) (dropped R job).
Proof. unfold dropped. by rewrite fold_left_app. Qed.
Lemma vget_or_drop field f k job : f <> field -> vget_or field (obj []) (drop_entry f k job) = vget_or field (obj []) job.
Proof.
  intros Hf. destruct job as [| | | | | |d]; try done. cbn [drop_entry]. destruct (dget f d) as [[| | | | | |e]|]; try done.
  cbn [vget_or]. f_equal. unfold dget_or. by rewrite dget_dset_ne.
Qed.
Lemma vget_or_dropped field R job : Forall (fun e => fst e <> field) R -> vget_or field (obj []) (dropped R job) = vget_or field (obj []) job.
Proof.
  revert job. induction R as [|e R IH]; intros job H; [done|]. inversion H; subst. change (dropped (e :: R) job) with (dropped R (drop_entry (fst e) (snd e) job)).
  rewrite IH by done. by apply vget_or_drop.
Qed.

Section minimizing.
Context (h : host) (Htime : timeless h) (c : corpus) (case base : value) (paths : list string) (wanted : list difference).

Definition fails (job : value) : Prop := exists ds, observed h c case paths 0 job = Ok ds /\ shares_path wanted ds = true.
(** Dropping an entry too lost the failure, at some point. *)
Definition needed (R : list entry) (e : entry) : Prop := exists n ds, (n <= length R)%nat /\
  observed h c case paths 0 (drop_entry (fst e) (snd e) (dropped (take n R) base)) = Ok ds /\ shares_path wanted ds = false.
Definition minimized_by (tried R : list entry) : Prop :=
  R `sublist_of` tried /\ fails (dropped R base) /\ forall e, e ∈ tried -> e ∈ R \/ needed R e.
Definition minimized (acc : value * list string) (tried : list entry) : Prop :=
  exists R, acc = (dropped R base, entry_name <$> R) /\ minimized_by tried R.

Lemma needed_more R x e : needed R e -> needed (R ++ [x]) e.
Proof.
  intros (n&ds&Hn&H1&H2). exists n, ds. split; [rewrite length_app; lia|]. by rewrite take_app_le.
Qed.

Lemma observed_run job w r w1 got ds w2 : corpus_of w = c -> run_worker h job paths w = (Ok r, w1) -> compare_run case r w1 = (Ok (got, ds), w2) ->
  observed h c case paths 0 job = Ok ds /\ corpus_of w2 = c.
Proof.
  intros Hc (->&st&fs&Hst&Hr)%run_worker_Ok H. unfold compare_run in H. inv_M. simplify_eq. split; [|done].
  unfold observed. rewrite Hst. cbn [mbind res_bind]. rewrite H. cbn [mbind res_bind].
  rewrite (Htime O (runs w)), Hr. cbn [shown mbind res_bind]. by rewrite H0.
Qed.

Lemma try_drop_ok field acc tried key w acc' w' : corpus_of w = c -> minimized acc tried -> try_drop h case paths wanted field acc key w = (Ok acc', w') ->
  minimized acc' (tried ++ [(field, key)]) /\ corpus_of w' = c.
Proof.
  intros Hc (R&->&Hs&Hf&Hn) H. unfold try_drop in H. cbn [fst snd] in H. inv_M. destruct x0 as [got ds]. inv_M.
  destruct (observed_run _ _ _ _ _ _ _ Hc H H0) as [Ho Hc']. split; [|done]. destruct (shares_path wanted ds) eqn:Hd.
  - exists (R ++ [(field, key)]). split_and!; [by rewrite dropped_snoc, fmap_app|split_and!].
    + by apply sublist_app.
    + rewrite dropped_snoc. by exists ds.
    + intros e [He|He]%elem_of_app; [|left; apply elem_of_app; by right]. destruct (Hn e He) as [Hr|Hr]; [left; apply elem_of_app; by left|right; by apply needed_more].
  - exists R. split; [done|]. split_and!; [by apply sublist_inserts_r|done|]. intros e [He| ->%list_elem_of_singleton]%elem_of_app; [by apply Hn|].
    right. exists (length R), ds. rewrite take_ge by done. by split_and!.
Qed.

Lemma m_fold_tried {S A} (f : S -> A -> CM S) (I : S -> list A -> Prop) l s tried w s' w' :
  (forall s t x w s' w', x ∈ l -> corpus_of w = c -> I s t -> f s x w = (Ok s', w') -> I s' (t ++ [x]) /\ corpus_of w' = c) ->
  corpus_of w = c -> I s tried -> m_fold f s l w = (Ok s', w') -> I s' (tried ++ l) /\ corpus_of w' = c.
Proof.
  intros Hf. revert s tried w. induction l as [|x l IH]; intros s tried w Hc Hi H; cbn [m_fold] in H; inv_M; [by rewrite app_nil_r|].
  destruct (Hf _ _ _ _ _ _ ltac:(by left) Hc Hi H) as [Hi1 Hc1]. replace (tried ++ x :: l) with ((tried ++ [x]) ++ l) by by rewrite <- app_assoc.
  refine (IH _ _ _ _ Hc1 Hi1 H0). intros. eapply Hf; [by right|done..].
Qed.

Lemma minimize_field_ok acc tried field w acc' w' : Forall (fun e => fst e <> field) tried -> corpus_of w = c -> minimized acc tried ->
  minimize_field h case paths wanted acc field w = (Ok acc', w') -> minimized acc' (tried ++ field_entries base field) /\ corpus_of w' = c.
Proof.
  intros Ht Hc Hm H. unfold minimize_field in H. inv_M. destruct Hm as (R&->&Hs&Hf&Hn). cbn [fst] in H.
  assert (HR : Forall (fun e => fst e <> field) R).
  { rewrite Forall_forall in *. intros e He. apply Ht. by eapply elem_of_sublist. }
  rewrite vget_or_dropped in H by done. assert (Hfe : match x with VDict e => field_entries base field = (fun k => (field, k)) <$> dkeys e | _ => True end).
  { unfold field_entries. destruct base as [| | | | | |d]; try discriminate H. apply Ok_inj in H. rewrite <- H. by destruct x. }
  destruct x as [| | | | | |e]; try discriminate H0. rewrite Hfe.
  destruct (m_fold_tried (try_drop h case paths wanted field) (fun s t => minimized s (tried ++ ((fun k => (field, k)) <$> t))) (dkeys e) (dropped R base, entry_name <$> R) [] w0 acc' w') as [Hi Hc'].
  - intros s t k v s' v' _ Hv Hi Hk. rewrite fmap_app, app_assoc. eapply try_drop_ok; [exact Hv|exact Hi|exact Hk].
  - exact Hc.
  - rewrite app_nil_r. exists R. split; [done|by split_and!].
  - exact H0.
  - by split.
Qed.

Lemma minimize_fields_ok fields early acc w acc' w' : NoDup (early ++ fields) -> corpus_of w = c ->
  minimized acc (flat_map (field_entries base) early) -> m_fold (minimize_field h case paths wanted) acc fields w = (Ok acc', w') ->
  minimized acc' (flat_map (field_entries base) (early ++ fields)) /\ corpus_of w' = c.
Proof.
  revert early acc w. induction fields as [|f fields IH]; intros early acc w Hn Hc Hm H; cbn [m_fold] in H; [inv_M; by rewrite app_nil_r|].
  apply m_bind_Ok in H as (acc1&w1&H1&H2). replace (early ++ f :: fields) with ((early ++ [f]) ++ fields) in * by by rewrite <- app_assoc.
  destruct (minimize_field_ok acc (flat_map (field_entries base) early) f w acc1 w1) as [Hm1 Hc1]; [|done..|].
  - apply Forall_forall. intros [g k] (x&Hx&Hg)%elem_of_flat_map. unfold field_entries in Hg. destruct base as [| | | | | |d]; try by apply elem_of_nil in Hg.
    destruct (dget_or x (obj []) d) as [| | | | | |e]; try by apply elem_of_nil in Hg. apply list_elem_of_fmap in Hg as (y&[= -> ->]&_). cbn [fst]. intros ->.
    apply NoDup_app in Hn as (Hn&_&_). apply NoDup_app in Hn as (_&Hn&_). by apply (Hn _ Hx), list_elem_of_singleton.
  - apply (IH _ acc1 w1); [done..| |done]. rewrite flat_map_app. cbn [flat_map]. by rewrite app_nil_r.
Qed.
End minimizing.

Lemma differs_shares ds : ds <> [] -> shares_path ds ds = true.
Proof.
  destruct ds as [|d ds]; [done|]. intros _. unfold shares_path. cbn [existsb]. by rewrite String.eqb_refl.
Qed.

(** The case that is written. *)
Definition minimal_case (case : value) (name : string) (job : value) (removed : list entry) : value :=
  set_key "minimized_removed" (VList (VStr <$> (entry_name <$> removed)))
    (set_key "minimized_from" (VStr name) (set_key "job" job (set_key "id" (VStr (name +:+ "-minimized")) case))).

Lemma minimize_Ok h case roots maps w out w' : timeless h -> minimize h case roots maps w = (Ok out, w') ->
  exists name base paths wanted removed, vindex "id" case = Ok (VStr name) /\ vindex "job" case = Ok base /\
    observed h (corpus_of w) case paths 0 base = Ok wanted /\ wanted <> [] /\ out = minimal_case case name (dropped removed base) removed /\
    minimized_by h (corpus_of w) case base paths wanted (entries base) removed /\ corpus_of w' = corpus_of w.
Proof.
  intros Htime H. unfold minimize in H. apply m_bind_Ok in H as (paths&w1&H1&H). pose proof (reads_find_inputs h case roots maps w) as Hc. rewrite H1 in Hc. cbn [snd] in Hc.
  apply m_bind_Ok in H as (base&w2&Hb&H). apply m_lift_Ok in Hb as [Hb <-].
  apply m_bind_Ok in H as (r&w2&Hr&H). apply m_bind_Ok in H as ([got wanted]&w3&Hd&H).
  destruct (observed_run h Htime (corpus_of w) case paths _ _ _ _ _ _ _ Hc Hr Hd) as [Ho Hc3].
  apply m_bind_Ok in H as ([]&w4&Hg&H). apply m_lift_Ok in Hg as [Hg%guard_app_Ok <-]. assert (Hne : wanted <> []) by (by destruct wanted).
  apply m_bind_Ok in H as ([job removed]&w4&Hfold&H).
  destruct (minimize_fields_ok h Htime (corpus_of w) case base paths wanted setup_fields [] (base, []) w3 (job, removed) w4) as [Hm Hc4]; [|done| |done|].
  { apply (bool_decide_unpack _). vm_compute. exact I. }
  { exists []. split; [done|]. split_and!; [apply sublist_nil_l| |]; [exists wanted; split; [exact Ho|by apply differs_shares]|]. intros e He. by apply elem_of_nil in He. }
  apply m_bind_Ok in H as (id&w5&Hid&H). apply m_lift_Ok in Hid as [Hid <-]. apply m_bind_Ok in H as (name&w5&Hname&H). apply m_lift_Ok in Hname as [Hname <-].
  apply m_ret_Ok in H as [<- <-]. destruct id as [| | | |s| |]; try discriminate Hname. apply Ok_inj in Hname as ->.
  destruct Hm as (R&Hacc&Hm). injection Hacc as -> ->. by exists s, base, paths, wanted, R.
Qed.

(** Minimising is sound.  It writes the case with some of the setup entries of its job taken out,
    one by one and in order, and changes nothing else and nothing of the corpus; the smaller job still
    differs from the expectation at a path where the original did, and for every entry that stayed
    there was a moment at which taking it out too lost the failure. *)
Theorem minimize_keeps_failure h id from w out w' : timeless h ->
  main h (Minimize id from) w = (Ok (0, Minimized out), w') ->
  exists case name base paths wanted removed,
    dget id (cases (corpus_of w)) = Some case /\ vindex "id" case = Ok (VStr name) /\ vindex "job" case = Ok base /\
    observed h (corpus_of w) case paths 0 base = Ok wanted /\ wanted <> [] /\
    out = minimal_case case name (dropped removed base) removed /\
    removed `sublist_of` entries base /\
    fails h (corpus_of w) case paths wanted (dropped removed base) /\
    (forall e, e ∈ entries base -> e ∈ removed \/ needed h (corpus_of w) case base paths wanted removed e) /\
    corpus_of w' = corpus_of w.
Proof.
  intros Htime H. assert (Hx : execute h (Minimize id from) w = (Ok (0, Minimized out), w')).
  { unfold main, catch in H. destruct (execute h (Minimize id from) w) as [[a|x] v]; [done|]. destruct (handled _ x); discriminate. }
  cbn [execute] in Hx. apply m_bind_Ok in Hx as (u&w1&Hreq&Hx). pose proof (reads_require h w) as Hc1. rewrite Hreq in Hc1. cbn [snd] in Hc1.
  apply m_bind_Ok in Hx as ([roots maps]&w2&Hin&Hx). apply m_lift_Ok in Hin as [_ <-].
  apply m_bind_Ok in Hx as (case&w2&Hload&Hx). pose proof (reads_load id w1) as Hc2. rewrite Hload in Hc2. cbn [snd] in Hc2.
  assert (Hcase : dget id (cases (corpus_of w)) = Some case).
  { unfold load_case in Hload. apply m_bind_Ok in Hload as (c&w3&Hc&Hload). apply m_gets_Ok in Hc as [<- <-]. rewrite Hc1 in Hload.
    destruct (dget id (cases (corpus_of w))) as [v|]; inv_M; [done|discriminate]. }
  apply m_bind_Ok in Hx as (doc&w3&Hmin&Hx). apply m_ret_Ok in Hx as [[= ->] <-].
  apply minimize_Ok in Hmin as (name&base&paths&wanted&removed&H1&H2&H3&H4&H5&(HR&Hf&Hn)&H6); [|done]. rewrite Hc2, Hc1 in *.
  by exists case, name, base, paths, wanted, removed.
Qed.

(** ** Witnesses *)

(** A machine with one target, and a tool whose answer depends on an input register. *)
Definition registers_of (job : value) : value := match job with VDict d => dget_n "registers" d | _ => VNone end.
Definition leaf_worker (plain with_r5 : string) (_ : nat) (job : value) (_ : dict string) : outcome :=
  let r3 := match registers_of job with VDict regs => if dmem "r5" regs then with_r5 else plain | _ => plain end in
  Answered (Ok (VDict [("schema", VStr "ppc-lab-worker-response-v1"); ("ok", VBool true); ("exit_code", VInt 0);
    ("result", VDict [("stop_reason", VStr "returned"); ("registers", VDict [("r3", VStr r3)])])])).
Definition leaf_host (plain with_r5 : string) : host :=
  Host "/t/corpus" (fun p => if String.eqb p "/t/inputs/leaf.bin" then Some "leaf" else None) (fun p => Ok p) (fun _ => []) (leaf_worker plain with_r5) (Ok "3.9.4").
Definition leaf_job : value :=
  VDict [("schema", VStr "ppc-lab-job-v1"); ("image", VDict [("path", VStr "inputs/leaf.bin"); ("kind", VStr "raw")]);
         ("registers", VDict [("r4", VStr "123"); ("r5", VStr "7")])].
Definition old_host : host := leaf_host "0x2a" "0x2b".
Definition new_host : host := leaf_host "0x2b" "0x2c".
Definition leaf_promotion : command := Promote "leaf42" "synthetic leaf" ["smoke"] (Ok leaf_job) "/t" true false.
Definition empty_world : world := World (Corpus None [] []) 0.
Definition leaf_world : world := Eval vm_compute in snd (main old_host leaf_promotion empty_world).

Lemma leaf_promoted : main old_host leaf_promotion empty_world = (Ok (0, Nothing), leaf_world).
Proof. vm_compute. reflexivity. Qed.
Lemma leaf_site a b : site "/t/corpus" (leaf_host a b).
Proof. split; try done. Qed.

(** Every file is one of a list; their digests are computed. *)
Definition texts (c : corpus) : list string :=
  "leaf" :: json_text (default new_manifest (manifest c)) :: (dvalues (objects c) ++ (json_text <$> dvalues (cases c))).
Lemma filed_texts a b c x : filed (leaf_host a b) c x -> x ∈ texts c.
Proof.
  intros [p Hp]. unfold file_at in Hp. destruct (strip_prefix _ p) as [rel|].
  2: { cbn [leaf_host h_read] in Hp. case_bool; [injection Hp as <-; by left|done]. }
  unfold corpus_file in Hp. cbn [initialised objects manifest cases] in Hp. destruct (dget rel (objects c)) as [data|] eqn:Hd.
  - injection Hp as <-. right. right. apply elem_of_app. left. by eapply dget_some_value.
  - case_bool; [injection Hp as <-; right; by left|]. destruct (List.find _ _) as [[s v]|] eqn:Hf; [|done]. injection Hp as <-.
    apply List.find_some in Hf as [Hf _]. right. right. apply elem_of_app. right. apply list_elem_of_fmap. exists v. split; [done|].
    unfold dvalues. apply list_elem_of_fmap. exists (s, v). split; [done|]. by apply list_elem_of_In.
Qed.
Definition distinct_digests (l : list string) : bool :=
  let digests := (fun s => (s, sha256_hex s)) <$> l in
  forallb (fun a => forallb (fun b => negb (String.eqb (snd a) (snd b)) || String.eqb (fst a) (fst b)) digests) digests.
Lemma distinct_collision_free a b c : distinct_digests (texts c) = true -> collision_free (leaf_host a b) c.
Proof.
  intros H x y Hx%filed_texts Hy%filed_texts Heq. unfold distinct_digests in H. rewrite forallb_forall in H.
  assert (Hin : forall z, z ∈ texts c -> In (z, sha256_hex z) ((fun s => (s, sha256_hex s)) <$> texts c)).
  { intros z Hz. apply list_elem_of_In, list_elem_of_fmap. by exists z. }
  specialize (H _ (Hin x Hx)). rewrite forallb_forall in H. specialize (H _ (Hin y Hy)). cbn [fst snd] in H. rewrite Heq, String.eqb_refl in H. by apply String.eqb_eq.
Qed.
Lemma empty_collision_free a b : collision_free (leaf_host a b) (corpus_of empty_world).
Proof. apply distinct_collision_free. vm_compute. reflexivity. Qed.
Lemma leaf_collision_free a b : collision_free (leaf_host a b) (corpus_of leaf_world).
Proof. apply distinct_collision_free. vm_compute. reflexivity. Qed.
Lemma leaf_history : history "/t/corpus" leaf_world.
Proof.
  replace leaf_world with (snd (main old_host leaf_promotion empty_world)) by by rewrite leaf_promoted.
  apply history_step; [apply history_empty|apply leaf_site|apply empty_collision_free].
Qed.

(** Staging changes nothing but the image. *)
Lemma stage_field_registers t name field job job' : stage_field t name job field = Ok job' -> registers_of job' = registers_of job.
Proof.
  unfold stage_field. intros (im&_&(v&_&H)%res_bind_Ok)%res_bind_Ok. destruct (eq_str v t); [|by apply Ok_inj in H as ->].
  destruct job as [| | | | | |d]; try (by apply Ok_inj in H as ->). destruct im; apply Ok_inj in H as ->; try done.
  cbn [registers_of]. unfold dget_n, dget_or. by rewrite dget_dset_ne.
Qed.
Lemma stage_registers h c job ps st fs : stage_job h c job ps = Ok (st, fs) -> registers_of st = registers_of job.
Proof.
  intros H. change (registers_of (fst (st, fs)) = registers_of job). revert H. apply (res_fold_inv (fun s => registers_of (fst s) = registers_of job)); [|done].
  intros [j acc] [i p] [j' acc'] _ Hj H. cbn [fst] in *. rewrite <- Hj. unfold stage_input in H. destruct (file_at h c _); [|done].
  apply res_bind_Ok in H as (j2&H&[= -> _]%Ok_inj). revert H. apply (res_fold_inv (fun v => registers_of v = registers_of j)); [|done].
  intros v f v' _ Hs Hf. rewrite (stage_field_registers _ _ _ _ _ Hf). exact Hs.
Qed.
Lemma leaf_steady a b : steady (leaf_host a b).
Proof.
  intros c c' job ps ps' st fs st' fs' k k' H H' _. cbn [leaf_host h_worker]. unfold leaf_worker.
  by rewrite (stage_registers _ _ _ _ _ _ H), (stage_registers _ _ _ _ _ _ H').
Qed.
Lemma leaf_timeless a b : timeless (leaf_host a b).
Proof. intros k k' job files. reflexivity. Qed.
Lemma leaf_sane a b : sane_worker (leaf_host a b).
Proof. intros k job files r [= <-]. done. Qed.

Lemma corpus_verifies_witness : main new_host Verify leaf_world = (Ok (0, Verified 1), leaf_world).
Proof. exact (proj1 (corpus_verifies "/t/corpus" new_host leaf_world leaf_history (leaf_site _ _))). Defined.

Lemma promoted_case_replays_witness :
  main old_host (Replay ["leaf42"] [] (Sources ["/t"] []) None false) leaf_world =
    (Ok (0, Replayed (summary "3.9.4" [Row (VStr "leaf42") [] "3.9.4"])), World (corpus_of leaf_world) 2).
Proof.
  destruct (promoted_case_replays "/t/corpus" old_host empty_world leaf_world leaf_world "leaf42" "synthetic leaf" ["smoke"] (Ok leaf_job) "/t" false
    (Sources ["/t"] []) ["/t"] [] false (history_empty _ 0) (leaf_site _ _) (empty_collision_free _ _) leaf_promoted (later_now _ _ _)
    (leaf_collision_free _ _) (leaf_steady _ _) (leaf_sane _ _) eq_refl) as (v&Hv&H).
  injection Hv as <-. exact H.
Defined.

Definition minimal_leaf : value * world :=
  Eval vm_compute in match main new_host (Minimize "leaf42" (Sources [] [])) leaf_world with (Ok (_, Minimized v), w) => (v, w) | (_, w) => (VNone, w) end.
Lemma minimize_keeps_failure_witness : main new_host (Minimize "leaf42" (Sources [] [])) leaf_world = (Ok (0, Minimized (fst minimal_leaf)), snd minimal_leaf) /\
  exists case base paths wanted removed, dget "leaf42" (cases (corpus_of leaf_world)) = Some case /\ removed `sublist_of` entries base /\
    fails new_host (corpus_of leaf_world) case paths wanted (dropped removed base).
Proof.
  assert (H : main new_host (Minimize "leaf42" (Sources [] [])) leaf_world = (Ok (0, Minimized (fst minimal_leaf)), snd minimal_leaf)) by (vm_compute; reflexivity).
  split; [exact H|].
  destruct (minimize_keeps_failure new_host "leaf42" (Sources [] []) leaf_world (fst minimal_leaf) (snd minimal_leaf) (leaf_timeless _ _) H)
    as (case&name&base&paths&wanted&removed&H1&_&_&_&_&_&H2&H3&_).
  exists case, base, paths, wanted, removed. exact (conj H1 (conj H2 H3)).
Defined.

(** What was set up for the failure stays, the rest goes. *)
Example leaf_minimized : (d ← vindex "job" (fst minimal_leaf); Ok (registers_of d)) = Ok (VDict [("r5", VStr "7")]) /\
  vindex "minimized_removed" (fst minimal_leaf) = Ok (VList [VStr "registers.r4"]).
Proof. split; reflexivity. Qed.

(** An expectation cannot say that a key is absent, and an absent key passes for the text "<missing>". *)
Example absent_is_a_text : diffs (VDict [("error", VStr "<missing>")]) (VDict []) "$" = [] /\
  diffs (VDict []) (VDict [("error", VStr "new")]) "$" = [].
Proof. split; reflexivity. Qed.
