(* ===== verification/Campaign.v ===== *)
(** * Research campaigns ([ppc_lab_campaign.py])

    A campaign composes the tools: it explores, ranks the cases, replays the corpus, triages selected
    cases across two engines and publishes the evidence.  A file [state.json] records which stages
    are complete, and a resumed campaign goes on from there.  The record [world] is the output
    directory with what else the tools read and write; a [machine] says what the tools do and what the
    clock shows. *)
From stdpp Require Import pretty.
From Stdlib Require Import Ascii.
From S2P Require Export PyState JsonParse Sha Worker.

Abbreviation obj := VDict.

Definition CAMPAIGN_SCHEMA : string := "ppc-lab-campaign-v1".
Definition STATE_SCHEMA : string := "ppc-lab-campaign-state-v1".
Definition SUMMARY_SCHEMA : string := "ppc-lab-campaign-summary-v1".

(** What a tool does: it outlives its time, the campaign is interrupted meanwhile, or it exits. *)
Inductive ran := Expired | Interrupted | Exited (code : Z) (stdout stderr : string).
Record machine := Machine {
  m_tool : nat -> list string -> dict value -> ran * dict value;  (* by run, on the documents there are *)
  m_clock : nat -> float;
  m_resolve : string -> string;
  m_is_file : string -> bool }.                                   (* target files *)
(** The checkpoint, which only the campaign writes; other documents by path; the commands that ran, with
    the stage each belonged to; the readings of the clock. *)
Record world := World { checkpoint : option value; docs : dict value; log : list (string * list string); ticks : nat }.
Abbreviation CM := (M world).

Definition set_checkpoint (v : value) : CM unit := modify (fun w => World (Some v) (docs w) (log w) (ticks w)).
Definition write_json (path : string) (v : value) : CM unit := modify (fun w => World (checkpoint w) (dset path v (docs w)) (log w) (ticks w)).
Definition read_json (path : string) : CM value :=
  w ← gets id;
  match dget path (docs w) with Some v => mret v | None => throw FileNotFoundError path end.
Definition is_file (path : string) : CM bool := gets (fun w => dmem path (docs w)).
(** A directory is there when it holds a file. *)
Definition is_dir (path : string) : CM bool := gets (fun w => existsb (str_startswith (path +:+ "/")) (dkeys (docs w))).

(** ** Helpers *)

Definition py_suffix (path : string) : bool := str_endswith ".py" path && negb (str_endswith "/.py" path) && negb (String.eqb path ".py").
Definition tool_command (python path : string) (args : list string) : list string := if py_suffix path then python :: path :: args else path :: args.

(** A tool that was asked for its version or capabilities. *)
Record reply := Reply { p_code : Z; p_stdout : string; p_stderr : string }.
Definition refused (p : reply) (dflt : string) : string := let e := str_strip (p_stderr p) in if str_empty e then dflt else e.
Definition engine_version (p : reply) : res string :=
  _ ← guard_app (p_code p =? 0) (refused p "cannot query PPC Lab version");
  let text := str_strip (p_stdout p) in
  Ok (str_strip (default text (strip_prefix "PPC Lab " text))).
Definition capabilities (p : reply) : res value :=
  _ ← guard_app (p_code p =? 0) (refused p "cannot query PPC Lab capabilities");
  match loads (p_stdout p) with
  | Ok (VDict d) => _ ← guard_app (eq_str (dget_n "schema" d) "ppc-lab-capabilities-v1") "unexpected PPC Lab capability schema"; Ok (obj d)
  | Ok _ => app_error "unexpected PPC Lab capability schema"
  | Raise _ => app_error "PPC Lab capabilities returned invalid JSON"
  end.

Section run.
Context (m : machine) (base_dir root : string).

Definition contained (path : string) : res string :=
  let p := m_resolve m path in
  _ ← guard_app (path_within root p) ("path outside campaign root: " +:+ p); Ok p.
Definition absolute_field (image : dict value) (field : string) : res (dict value) :=
  match dget_n field image with
  | VNone => Ok image
  | VStr raw =>
      _ ← guard_app (negb (str_empty raw)) ("image." +:+ field +:+ " must be a non-empty string");
      p ← contained (path_join base_dir raw);
      _ ← guard_app (m_is_file m p) ("image." +:+ field +:+ " missing: " +:+ p);
      Ok (dset field (VStr p) image)
  | _ => app_error ("image." +:+ field +:+ " must be a non-empty string")
  end.
Definition absolute_job_inputs (job : value) : res value :=
  image ← vget "image" job;
  match job, image with
  | VDict d, VDict image =>
      image ← res_fold absolute_field image ["path"; "data_path"];
      Ok (obj (dset "image" (obj image) d))
  | _, _ => app_error "exploration.base_job.image must be an object"
  end.
Definition resolve_external_path (raw : value) (dflt : string) : res string :=
  match raw with
  | VNone => Ok dflt
  | VStr s => Ok (m_resolve m (path_join base_dir s))
  | _ => Raise (Exn TypeError "argument should be a str or an os.PathLike object")
  end.

(** [time.monotonic()] *)
Definition now : CM float :=
  w ← gets id;
  _ ← modify (fun w => World (checkpoint w) (docs w) (log w) (S (ticks w)));
  mret (m_clock m (ticks w)).

(** ** Running tools *)

Definition run_checked (stage : string) (command : list string) (ok_codes : list Z) : CM (Z * string) :=
  w ← gets id;
  let '(r, docs') := m_tool m (length (log w)) command (docs w) in
  _ ← modify (fun w => World (checkpoint w) docs' (log w ++ [(stage, command)]) (ticks w));
  match r with
  | Expired => lift (app_error ("command timed out: " +:+ str_join " " command))
  | Interrupted => throw SystemExit "interrupted"
  | Exited code stdout stderr =>
      _ ← lift (guard_app (existsb (Z.eqb code) ok_codes) ("command failed (" +:+ pretty code +:+ "): " +:+ str_join " " command));
      mret (code, stdout)
  end.

Definition stage_record (name status : string) (started : float) (extra : dict value) : CM value :=
  _ ← lift (if existsb (fun k => existsb (String.eqb k) ["name"; "status"; "started"]) (dkeys extra)
            then Raise (Exn TypeError "stage_record() got multiple values for an argument") else Ok tt);
  t ← now;
  mret (obj (fold_left (fun d kv => dset (fst kv) (snd kv) d) extra
    [("name", VStr name); ("status", VStr status); ("elapsed_seconds", VFloat (fround (fsub t started) 6))])).

(** What a stage has of its time, at most [fallback]. *)
Definition campaign_timeout (deadline : option float) (fallback : float) : CM float :=
  match deadline with
  | None => mret fallback
  | Some d =>
      t ← now;
      let remaining := fsub d t in
      _ ← lift (guard_app (negb (fleb remaining fzero)) "campaign wall-clock budget exhausted");
      let x := if fltb remaining fallback then remaining else fallback in
      mret (if fltb (ratio 1 10) x then x else ratio 1 10)
  end.
End run.

(** ** The checkpoint *)

Definition load_or_create_state (manifest_hash version : string) (resume : bool) : CM value :=
  w ← gets id;
  match checkpoint w with
  | Some state =>
      _ ← lift (guard_app resume "campaign output already contains state; use --resume or choose another --out");
      schema ← lift (vget "schema" state);
      _ ← lift (guard_app (eq_str schema STATE_SCHEMA) "campaign state schema mismatch");
      hash ← lift (vget "manifest_sha256" state);
      _ ← lift (guard_app (eq_str hash manifest_hash) "campaign manifest changed since checkpoint; start a new output directory");
      engine ← lift (vget "engine_version" state);
      _ ← lift (guard_app (eq_str engine version) ("campaign engine changed to " +:+ version +:+ "; start a new output directory"));
      mret state
  | None =>
      _ ← lift (guard_app (negb resume) "--resume requested but campaign state does not exist");
      let state := obj [("schema", VStr STATE_SCHEMA); ("manifest_sha256", VStr manifest_hash); ("engine_version", VStr version);
                        ("completed", VList []); ("stages", obj [])] in
      _ ← set_checkpoint state; mret state
  end.
(** [name in state["completed"]] *)
Definition is_completed (name : string) (state : value) : res bool :=
  c ← vindex "completed" state;
  match c with
  | VList l => Ok (existsb (fun v => eq_str v name) l)
  | VDict d => Ok (dmem name d)
  | VStr s => Ok (str_contains name s)
  | v => Raise (Exn TypeError ("argument of type '" +:+ type_name v +:+ "' is not iterable"))
  end.
(** [state["completed"].append(name)] and [state["stages"][name] = record] *)
Definition append_stage (name : string) (state : value) : res value :=
  c ← vindex "completed" state;
  match state, c with
  | VDict d, VList l => Ok (obj (dset "completed" (VList (l ++ [VStr name])) d))
  | _, v => no_attr v "append"
  end.
Definition put_stage (name : string) (record state : value) : res value :=
  s ← vindex "stages" state;
  match state, s with
  | VDict d, VDict s => Ok (obj (dset "stages" (obj (dset name record s)) d))
  | _, v => Raise (Exn TypeError ("'" +:+ type_name v +:+ "' object does not support item assignment"))
  end.
Definition add_stage (name : string) (record state : value) : res value :=
  done ← is_completed name state;
  state ← (if done : bool then Ok state else append_stage name state);
  put_stage name record state.
Definition complete_stage (name : string) (record state : value) : CM value :=
  state ← lift (add_stage name record state);
  _ ← set_checkpoint state; mret state.

(** ** The manifest *)

Definition validate_campaign (doc : value) : res (dict value) :=
  match doc with
  | VDict d =>
      _ ← guard_app (eq_str (dget_n "schema" d) CAMPAIGN_SCHEMA) ("campaign schema must be " +:+ CAMPAIGN_SCHEMA);
      match dget_n "exploration" d with
      | VDict e =>
          _ ← guard_app (eq_str (dget_n "schema" e) "ppc-lab-exploration-v1") "exploration must be an inline ppc-lab-exploration-v1 object";
          match dget_or "name" (VStr "campaign") d with
          | VStr name => _ ← guard_app (negb (str_empty (str_strip name))) "name must be a non-empty string"; Ok d
          | _ => app_error "name must be a non-empty string"
          end
      | _ => app_error "exploration must be an inline ppc-lab-exploration-v1 object"
      end
  | _ => app_error ("campaign schema must be " +:+ CAMPAIGN_SCHEMA)
  end.

(** A section of the manifest; most may be null. *)
Definition section_of (nullable : bool) (key : string) (d : dict value) : res (dict value) :=
  match dget_or key (obj []) d with
  | VDict s => Ok s
  | VNone => if nullable then Ok [] else app_error (key +:+ " must be an object")
  | _ => app_error (key +:+ " must be an object")
  end.
Definition flag_of (key : string) (d : dict value) : bool := py_bool (dget_or key (VBool true) d).
Definition vfloat (n : Z) : value := VFloat (ok_or fzero (float_of_int n)).
Definition nonneg (x : float) : bool := negb (fltb x fzero).

Record budgets := Budgets { b_case_timeout : float; b_wall : option float; b_max_triage : Z }.
Definition read_budgets (budget : dict value) : res budgets :=
  case_timeout ← py_float (dget_or "case_timeout_seconds" (vfloat 30) budget);
  wall ← match dget_n "wall_seconds" budget with VNone => Ok None | v => x ← py_float v; Ok (Some x) end;
  max_triage ← py_int (dget_or "max_triage_cases" (VInt 8) budget);
  _ ← guard_app (negb (fleb case_timeout fzero || match wall with Some x => fleb x fzero | None => false end || (max_triage <? 0)))
        "campaign budgets must be positive (max_triage_cases may be zero)";
  Ok (Budgets case_timeout wall max_triage).

Section plan.
Context (m : machine) (base_dir root out : string).

(** The exploration with absolute inputs, and its number of cases within the budget. *)
Definition plan_exploration (budget exploration : dict value) : res (dict value) :=
  job ← absolute_job_inputs m base_dir root (dget_or "base_job" (obj []) exploration);
  let exploration := dset "base_job" job exploration in
  match dget "max_cases" budget with
  | None => Ok exploration
  | Some v =>
      configured ← py_int v;
      _ ← guard_app (1 <=? configured) "budgets.max_cases must be at least 1";
      given ← py_int (dget_or "max_cases" (VInt configured) exploration);
      Ok (dset "max_cases" (VInt (Z.min given configured)) exploration)
  end.

Record intelligence := Intelligence { i_enabled : bool; i_top : Z; i_window : Z; i_rate : float; i_weights : dict value }.
Definition allowed_weights : list string := ["new_pc"; "behavior"; "failure"; "pc_rarity"].
Definition check_weight (kv : string * value) : res unit :=
  x ← py_float (snd kv); guard_app (nonneg x) ("intelligence weight " +:+ fst kv +:+ " must be non-negative").
Definition read_intelligence (max_triage : Z) (manifest : dict value) : res intelligence :=
  cfg ← section_of true "intelligence" manifest;
  top ← py_int (dget_or "top" (VInt max_triage) cfg);
  window ← py_int (dget_or "plateau_window" (VInt 8) cfg);
  rate ← py_float (dget_or "plateau_novelty_rate" (VFloat (ratio 125 1000)) cfg);
  match dget_or "weights" (obj []) cfg with
  | VDict weights =>
      _ ← guard_app ((0 <=? top) && (1 <=? window) && (fleb fzero rate && fleb rate (ratio 1 1))) "intelligence top/window/rate are invalid";
      _ ← guard_app (forallb (fun k => existsb (String.eqb k) allowed_weights) (dkeys weights)) "unknown intelligence weight";
      _ ← res_map check_weight weights;
      Ok (Intelligence (flag_of "enabled" cfg) top window rate weights)
  | _ => app_error "intelligence.weights must be an object"
  end.

Record corpus_plan := CorpusPlan { c_path : string; c_promote : bool; c_replay : bool; c_verify : bool }.
Definition read_corpus (manifest : dict value) : res corpus_plan :=
  cfg ← section_of true "corpus" manifest;
  path ← resolve_external_path m base_dir (dget_n "path" cfg) (out +:+ "/corpus");
  Ok (CorpusPlan path (flag_of "promote_novel" cfg) (flag_of "replay" cfg) (flag_of "verify" cfg)).

Inductive selection := SelectNovel | SelectFailed | SelectNovelOrFailed | SelectAll.
Definition selections : dict selection := [("novel", SelectNovel); ("failed", SelectFailed); ("novel-or-failed", SelectNovelOrFailed); ("all", SelectAll)].
Record triage_plan := TriagePlan { t_enabled : bool; t_select : selection; t_left : string; t_right : string }.
Definition backends : list string := ["auto"; "builtin"; "unicorn"].
Definition read_triage (max_triage : Z) (manifest : dict value) : res triage_plan :=
  cfg ← section_of true "triage" manifest;
  let enabled := flag_of "enabled" cfg && (0 <? max_triage) in
  match match dget_or "select" (VStr "novel-or-failed") cfg with VStr s => dget s selections | _ => None end with
  | None => app_error "triage.select must be novel, failed, novel-or-failed, or all"
  | Some select =>
      let left := py_str (dget_or "left_backend" (VStr "builtin") cfg) in
      let right := py_str (dget_or "right_backend" (VStr "auto") cfg) in
      _ ← guard_app (existsb (String.eqb left) backends && existsb (String.eqb right) backends) "triage backends must be auto, builtin, or unicorn";
      Ok (TriagePlan enabled select left right)
  end.

Record evidence_plan := EvidencePlan { e_enabled : bool; e_path : string; e_verify : bool }.
Definition read_evidence (manifest : dict value) : res evidence_plan :=
  cfg ← section_of true "evidence" manifest;
  path ← resolve_external_path m base_dir (dget_n "store" cfg) (out +:+ "/evidence");
  Ok (EvidencePlan (flag_of "publish" cfg) path (flag_of "verify" cfg)).
End plan.

Record plan := Plan {
  p_name : value; p_version : string; p_hash : string; p_caps : value; p_case_timeout : float; p_deadline : option float; p_max_triage : Z;
  p_exploration : dict value; p_intelligence : intelligence; p_corpus : corpus_plan; p_triage : triage_plan; p_evidence : evidence_plan }.
Definition selection_text (s : selection) : string :=
  match s with SelectNovel => "novel" | SelectFailed => "failed" | SelectNovelOrFailed => "novel-or-failed" | SelectAll => "all" end.
Definition plan_doc (root out : string) (dry_run : bool) (p : plan) : value :=
  obj [("schema", VStr SUMMARY_SCHEMA); ("status", VStr (if dry_run then "dry-run" else "planned")); ("name", p_name p);
    ("engine_version", VStr (p_version p)); ("manifest_sha256", VStr (p_hash p)); ("root", VStr root); ("out", VStr out); ("capabilities", p_caps p);
    ("plan", obj [("exploration_max_cases", dget_or "max_cases" (VInt 64) (p_exploration p)); ("intelligence", VBool (i_enabled (p_intelligence p)));
      ("intelligence_top", VInt (i_top (p_intelligence p))); ("promote_novel", VBool (c_promote (p_corpus p))); ("corpus", VStr (c_path (p_corpus p)));
      ("corpus_replay", VBool (c_replay (p_corpus p))); ("triage", VBool (t_enabled (p_triage p))); ("triage_select", VStr (selection_text (t_select (p_triage p))));
      ("max_triage_cases", VInt (p_max_triage p)); ("triage_backends", VList [VStr (t_left (p_triage p)); VStr (t_right (p_triage p))]);
      ("evidence", VBool (e_enabled (p_evidence p))); ("evidence_store", VStr (e_path (p_evidence p)))])].

(** The command line and its manifest. *)
Record invocation := Invocation {
  v_base : string; v_root : string; v_out : string; v_manifest_path : string; v_text : string; v_resume : bool; v_dry_run : bool; v_root_is_dir : bool;
  v_python : string; v_cli : string; v_worker : string; v_explorer : string; v_prioritizer : string; v_corpus_tool : string; v_triage_tool : string;
  v_evidence_tool : string; v_right_cli : string; v_right_worker : string; v_version : reply; v_capabilities : reply }.

Definition make_plan (m : machine) (v : invocation) : CM plan :=
  _ ← lift (guard_app (v_root_is_dir v) "--root must be a directory");
  manifest ← lift (doc ← loads (v_text v); validate_campaign doc);
  _ ← lift (guard_app (negb (String.eqb (v_out v) (v_root v))) "--out cannot replace the campaign input root");
  version ← lift (engine_version (v_version v));
  caps ← lift (capabilities (v_capabilities v));
  budget ← lift (section_of false "budgets" manifest);
  b ← lift (read_budgets budget);
  deadline ← match b_wall b with None => mret None | Some x => t ← now m; mret (Some (fadd t x)) end;
  exploration ← lift (match dget_n "exploration" manifest with VDict e => plan_exploration m (v_base v) (v_root v) budget e | x => no_attr x "get" end);
  i ← lift (read_intelligence (b_max_triage b) manifest);
  c ← lift (read_corpus m (v_base v) (v_out v) manifest);
  t ← lift (read_triage (b_max_triage b) manifest);
  e ← lift (read_evidence m (v_base v) (v_out v) manifest);
  mret (Plan (dget_or "name" (VStr "campaign") manifest) version (sha256_hex (v_text v)) caps (b_case_timeout b) deadline (b_max_triage b) exploration i c t e).

(** ** The stages *)

Definition STAGES : list string := ["exploration"; "intelligence"; "corpus"; "triage"; "evidence"].
(** [d.update(other)] *)
Definition dupdate (d other : dict value) : dict value := fold_left (fun d kv => dset (fst kv) (snd kv) d) other d.
Definition fmax (x y : float) : float := if fltb x y then y else x.
Definition fof (n : Z) : res float := float_of_int n.

Section stages.
Context (m : machine) (v : invocation) (p : plan).

Definition at_out (name : string) : string := v_out v +:+ "/" +:+ name.
Definition explore_out : string := at_out "exploration".
Definition intelligence_path : string := at_out "intelligence.json".
Definition triage_dir : string := at_out "triage".
Definition replay_path : string := at_out "corpus-replay.json".
Definition command (tool : string) (args : list string) : list string := tool_command (v_python v) tool args.
Definition timeout_text : string := float_repr (p_case_timeout p).
(** [case_timeout * (int(n) + 2)] *)
Definition scaled (n : value) : res float := n ← py_int n; x ← fof (n + 2); Ok (fmul (p_case_timeout p) x).

(** A stage that is not complete runs; [skipped] is what its results are otherwise. *)
Definition stage {A} (name : string) (body : CM (A * value)) (skipped : value -> CM A) (state : value) : CM (A * value) :=
  done ← lift (is_completed name state);
  if done : bool then a ← skipped state; mret (a, state)
  else '(a, record) ← body; state ← complete_stage name record state; mret (a, state).

(** *** Exploration *)

Definition explore_stage : CM (unit * value) :=
  started ← now m;
  let cmd := command (v_explorer v) ([at_out "campaign.exploration.json"; "--out"; explore_out; "--ppc-lab"; v_cli v; "--worker"; v_worker v;
    "--corpus-tool"; v_corpus_tool v; "--root"; v_root v; "--timeout"; timeout_text] ++
    if c_promote (p_corpus p) then ["--promote-corpus"; c_path (p_corpus p)] else []) in
  need ← lift (scaled (dget_or "max_cases" (VInt 64) (p_exploration p)));
  _ ← campaign_timeout m (p_deadline p) (fmax (ok_or fzero (fof 30)) need);
  '(_, out) ← run_checked m "exploration" cmd [0];
  summary ← read_json (explore_out +:+ "/summary.json");
  record ← stage_record m "exploration" "complete" started [("stdout", VStr (str_strip out)); ("summary", summary)];
  mret (tt, record).

(** *** Priorities *)

Definition no_report : value := obj [("schema", VStr "ppc-lab-priority-report-v1"); ("ranking", VList []); ("recommended_cases", VList [])].
Definition weight_flags : dict string :=
  [("new_pc", "--weight-new-pc"); ("behavior", "--weight-behavior"); ("failure", "--weight-failure"); ("pc_rarity", "--weight-pc-rarity")].
Definition weight_args (kv : string * value) : res (list string) :=
  flag ← dindex (fst kv) weight_flags; x ← py_float (snd kv); Ok [flag; float_repr x].
Definition intelligence_stage : CM (value * value) :=
  let i := p_intelligence p in
  started ← now m;
  if i_enabled i then
    weights ← lift (res_map weight_args (i_weights i));
    let cmd := command (v_prioritizer v) [explore_out; "--json"; intelligence_path; "--top"; pretty (i_top i);
      "--plateau-window"; pretty (i_window i); "--plateau-novelty-rate"; float_repr (i_rate i)] ++ concat weights in
    _ ← campaign_timeout m (p_deadline p) (ok_or fzero (fof 30));
    '(_, out) ← run_checked m "intelligence" cmd [0];
    report ← read_json intelligence_path;
    schema ← lift (vget "schema" report);
    _ ← lift (guard_app (eq_str schema "ppc-lab-priority-report-v1") "priority report schema mismatch");
    record ← stage_record m "intelligence" "complete" started [("stdout", VStr (str_strip out)); ("report", report)];
    mret (report, record)
  else
    _ ← write_json intelligence_path no_report;
    record ← stage_record m "intelligence" "skipped" started [("reason", VStr "disabled")];
    mret (no_report, record).
Definition intelligence_skipped (_ : value) : CM value :=
  there ← is_file intelligence_path;
  if there : bool then read_json intelligence_path else mret no_report.

(** *** The corpus *)

Definition corpus_start : dict value := [("verified", VBool false); ("replayed", VBool false); ("cases", VInt 0); ("failed", VInt 0)].
Definition corpus_command (args : list string) : list string :=
  command (v_corpus_tool v) (["--ppc-lab"; v_cli v; "--worker"; v_worker v; "--timeout"; timeout_text] ++ args).
Definition verify_corpus (acc : dict value) : CM (dict value) :=
  _ ← campaign_timeout m (p_deadline p) (fmax (ok_or fzero (fof 15)) (p_case_timeout p));
  '(_, out) ← run_checked m "corpus" (corpus_command ["verify"; c_path (p_corpus p)]) [0];
  mret (dset "verify_stdout" (VStr (str_strip out)) (dset "verified" (VBool true) acc)).
Definition replay_corpus (exploration_summary : value) (acc : dict value) : CM (dict value) :=
  n ← lift (vget_or "promoted_cases" (VInt 1) exploration_summary);
  need ← lift (scaled n);
  _ ← campaign_timeout m (p_deadline p) (fmax (ok_or fzero (fof 30)) need);
  '(code, _) ← run_checked m "corpus" (corpus_command ["replay"; c_path (p_corpus p); "--input-root"; v_root v; "--json"; replay_path]) [0; 1];
  doc ← read_json replay_path;
  cases ← lift (vget_or "cases" (VInt 0) doc);
  failed ← lift (vget_or "failed" (VInt 0) doc);
  mret (dupdate acc [("replayed", VBool true); ("cases", cases); ("failed", failed); ("replay_exit_code", VInt code)]).
Definition corpus_stage (exploration_summary : value) : CM (unit * value) :=
  started ← now m;
  there ← is_file (c_path (p_corpus p) +:+ "/manifest.json");
  acc ← (if there : bool then
           acc ← (if c_verify (p_corpus p) then verify_corpus corpus_start else mret corpus_start);
           if c_replay (p_corpus p) then replay_corpus exploration_summary acc else mret acc
         else mret (dset "skipped" (VStr "no promoted corpus cases") corpus_start));
  record ← stage_record m "corpus" "complete" started acc;
  mret (tt, record).
(** [x.update(state["stages"][name])] *)
Definition stage_of (name : string) (state : value) : res (dict value) :=
  stages ← vindex "stages" state;
  s ← vindex name stages;
  match s with
  | VDict d => Ok d
  | VList [] => Ok []
  | x => Raise (Exn TypeError ("'" +:+ type_name x +:+ "' object cannot update a dictionary"))
  end.
Definition corpus_skipped (state : value) : CM unit := _ ← lift (stage_of "corpus" state); mret tt.

(** *** Triage *)

Definition dict_or_empty (v : value) : dict value := match v with VDict d => d | _ => [] end.
Definition novel_row (row : dict value) : bool := py_bool (dget_n "novel" row).
Definition failed_row (row : dict value) : bool := negb (py_bool (dget_n "ok" (dict_or_empty (dget_n "worker" row)))).
Definition takes (s : selection) (row : dict value) : bool :=
  match s with
  | SelectAll => true
  | SelectNovel => novel_row row
  | SelectFailed => failed_row row
  | SelectNovelOrFailed => novel_row row || failed_row row
  end.
Definition expect_row (v : value) : res (dict value) := match v with VDict d => Ok d | v => no_attr v "get" end.

(** [{int(item.get("index", -1)): float(item.get("score", 0.0)) for item in ranking}] *)
Abbreviation priorities := (list (Z * float)).
Definition add_priority (acc : priorities) (item : value) : res priorities :=
  match item with
  | VDict d =>
      i ← py_int (dget_or "index" (VInt (-1)) d);
      x ← py_float (dget_or "score" (VFloat fzero) d);
      Ok (aset i x acc)
  | _ => Ok acc
  end.
Definition priority_by_index (report : value) : res priorities :=
  ranking ← vget_or "ranking" (VList []) report;
  items ← viter ranking;
  res_fold add_priority [] items.
Definition priority_of (pr : priorities) (i : Z) : float := default fzero (aget i pr).

(** A candidate with its sort key, better first. *)
Definition keyed (pr : priorities) (row : dict value) : res ((float * Z) * dict value) :=
  i ← py_int (dget_or "index" (VInt (-1)) row);
  j ← py_int (dget_or "index" (VInt 0) row);
  Ok ((float_neg (priority_of pr i), j), row).
Definition select_triage (enabled : bool) (s : selection) (limit : Z) (pr : priorities) (rows : list (dict value)) : res (list (dict value)) :=
  let candidates := List.filter (takes s) rows in
  ordered ← (match pr with
             | [] => Ok candidates
             | _ => if enabled then l ← res_map (keyed pr) candidates; Ok ((py_sorted fst l).*2) else Ok candidates
             end);
  Ok (take (Z.to_nat limit) ordered).

(** [sorted(cases.glob("*.json"))] *)
Definition case_files (d : dict value) : list string :=
  py_sorted id (List.filter (fun path => match strip_prefix (explore_out +:+ "/cases/") path with
                                         | Some name => negb (str_mem "/" name) && str_endswith ".json" name
                                         | None => false end) (dkeys d)).
(** [f"{idx:05d}"] *)
Definition case_name (idx : Z) : string := if idx <? 0 then "-" +:+ zpad 4 (- idx) else zpad 5 idx.
Definition triage_case (pr : priorities) (rows : list value) (row : dict value) : CM (list value) :=
  _ ← campaign_timeout m (p_deadline p) (p_case_timeout p);
  idx ← lift (py_int (dget_or "index" (VInt (Z.of_nat (length rows))) row));
  let case_dir := triage_dir +:+ "/" +:+ case_name idx in
  job ← lift (absolute_job_inputs m (v_base v) (v_root v) (dget_or "job" (obj []) row));
  let report_path := case_dir +:+ "/triage.json" in
  let bundle := case_dir +:+ "/bundle" in
  _ ← write_json (case_dir +:+ "/job.json") job;
  let cmd := command (v_triage_tool v) ["run"; case_dir +:+ "/job.json"; "--left-ppc-lab"; v_cli v; "--right-ppc-lab"; v_right_cli v;
    "--left-worker"; v_worker v; "--right-worker"; v_right_worker v; "--left-backend"; t_left (p_triage p);
    "--right-backend"; t_right (p_triage p); "--root"; v_root v; "--timeout"; timeout_text; "--json"; report_path; "--bundle"; bundle] in
  _ ← campaign_timeout m (p_deadline p) (fadd (p_case_timeout p) (ok_or fzero (fof 10)));
  '(_, out) ← run_checked m "triage" cmd [0];
  report ← read_json report_path;
  equal ← lift (vget "equal" report);
  classification ← lift (vget "classification" report);
  mret (rows ++ [obj [("index", VInt idx); ("equal", VBool (py_bool equal)); ("classification", classification); ("report", VStr report_path);
    ("bundle", VStr bundle); ("stdout", VStr (str_strip out)); ("priority_score", VFloat (priority_of pr idx))]]).
Definition divergent (row : value) : bool := match row with VDict d => negb (py_bool (dget_n "equal" d)) | _ => false end.
Definition divergences (rows : list value) : value := VInt (Z.of_nat (length (List.filter divergent rows))).
Definition triage_stage (report : value) : CM (unit * value) :=
  started ← now m;
  rows ← (if t_enabled (p_triage p) then
            files ← gets (fun w => case_files (docs w));
            cases ← m_map (fun path => row ← read_json path; lift (expect_row row)) files;
            pr ← lift (priority_by_index report);
            selected ← lift (select_triage (i_enabled (p_intelligence p)) (t_select (p_triage p)) (p_max_triage p) pr cases);
            m_fold (triage_case pr) [] selected
          else mret []);
  let count := VInt (Z.of_nat (length rows)) in
  _ ← write_json (triage_dir +:+ "/summary.json")
        (obj [("schema", VStr "ppc-lab-campaign-triage-summary-v1"); ("selected", count); ("divergences", divergences rows); ("results", VList rows)]);
  record ← stage_record m "triage" "complete" started [("selected", count); ("divergences", divergences rows)];
  mret (tt, record).
Definition triage_skipped (_ : value) : CM unit :=
  there ← is_file (triage_dir +:+ "/summary.json");
  if there : bool then s ← read_json (triage_dir +:+ "/summary.json"); _ ← lift (vget "results" s); mret tt else mret tt.

(** *** Evidence *)

Definition evidence_sources : CM (list string) :=
  a ← is_file intelligence_path;
  b ← is_file replay_path;
  c ← is_dir (c_path (p_corpus p));
  mret ([explore_out; triage_dir] ++ (if a : bool then [intelligence_path] else []) ++ (if b : bool then [replay_path] else []) ++
        (if c : bool then [c_path (p_corpus p)] else [])).
Definition verify_evidence (result : dict value) : CM (dict value) :=
  _ ← campaign_timeout m (p_deadline p) (ok_or fzero (fof 60));
  '(_, out) ← run_checked m "evidence" (command (v_evidence_tool v) ["verify"; e_path (p_evidence p); "--json"]) [0; 1];
  doc ← lift (loads out);
  ok ← lift (vget "ok" doc);
  _ ← lift (guard_app (py_bool ok) "evidence store verification failed");
  mret (dset "verify" doc result).
Definition evidence_stage : CM (dict value * value) :=
  started ← now m;
  result ← (if e_enabled (p_evidence p) then
              sources ← evidence_sources;
              _ ← campaign_timeout m (p_deadline p) (ok_or fzero (fof 60));
              '(_, out) ← run_checked m "evidence" (command (v_evidence_tool v) (["ingest"; e_path (p_evidence p)] ++ sources ++ ["--json"])) [0];
              match loads out with
              | Raise _ => lift (app_error "evidence ingest returned invalid JSON")
              | Ok (VDict d) =>
                  let result := dset "published" (VBool true) d in
                  if e_verify (p_evidence p) then verify_evidence result else mret result
              | Ok x => throw TypeError ("'" +:+ type_name x +:+ "' object does not support item assignment")
              end
            else mret [("published", VBool false)]);
  record ← stage_record m "evidence" "complete" started result;
  mret (result, record).
Definition evidence_skipped (state : value) : CM (dict value) :=
  d ← lift (stage_of "evidence" state); mret (dupdate [("published", VBool false)] d).

(** ** The end *)

Definition read_or {A} (path : string) (dflt : A) (f : value -> A) : CM A :=
  there ← is_file path; if there : bool then x ← read_json path; mret (f x) else mret dflt.
Definition no_triage : value := obj [("selected", VInt 0); ("divergences", VInt 0); ("results", VList [])].
(** What was found, and the status. *)
Definition conclude (exploration_summary report triage_summary : value) (replay : option value) : res (list string * string) :=
  n ← vget_or "divergences" (VInt 0) triage_summary;
  n ← py_int n;
  let diverged := if n =? 0 then [] else ["differential-divergence"] in
  plateau ← vget "plateau" report;
  let saturated := if py_bool (dget_n "saturated" (dict_or_empty plateau)) then ["exploration-saturated"] else [] in
  ok ← vget_or "successful_cases" (VInt 0) exploration_summary;
  ok ← py_int ok;
  all ← vget_or "evaluated_cases" (VInt 0) exploration_summary;
  all ← py_int all;
  let failures := if ok <? all then ["guest-failures"] else [] in
  let findings := diverged ++ saturated ++ failures in
  let otherwise := (findings, match findings with [] => "complete" | _ => "complete-with-findings" end) in
  match replay with
  | Some doc =>
      if py_bool doc then
        failed ← vget_or "failed" (VInt 0) doc;
        failed ← py_int failed;
        Ok (if failed =? 0 then otherwise else (findings ++ ["corpus-regression"], "complete-with-regressions"))
      else Ok otherwise
  | None => Ok otherwise
  end.
Definition finish (exploration_summary report : value) (evidence_result : dict value) (state : value) : CM Z :=
  triage_summary ← read_or (triage_dir +:+ "/summary.json") no_triage id;
  replay ← read_or replay_path None Some;
  '(findings, status) ← lift (conclude exploration_summary report triage_summary replay);
  promoted ← lift (vget_or "promoted_cases" (VInt 0) exploration_summary);
  stages ← lift (vindex "stages" state);
  _ ← write_json (at_out "summary.json") (obj [("schema", VStr SUMMARY_SCHEMA); ("status", VStr status); ("name", p_name p); ("engine_version", VStr (p_version p));
    ("manifest", VStr (v_manifest_path v)); ("manifest_sha256", VStr (p_hash p)); ("root", VStr (v_root v)); ("out", VStr (v_out v));
    ("findings", VList (VStr <$> findings)); ("exploration", exploration_summary); ("intelligence", report);
    ("corpus", obj [("path", VStr (c_path (p_corpus p))); ("promoted_cases", promoted); ("replay", default VNone replay)]);
    ("triage", triage_summary); ("evidence", obj (dupdate [("store", VStr (e_path (p_evidence p)))] evidence_result)); ("stages", stages)]);
  mret (if String.eqb status "complete-with-regressions" then 1 else 0).

Definition run_stages (state : value) : CM Z :=
  _ ← write_json (at_out "campaign.exploration.json") (obj (p_exploration p));
  '(_, state) ← stage "exploration" explore_stage (fun _ => mret tt) state;
  exploration_summary ← read_json (explore_out +:+ "/summary.json");
  '(report, state) ← stage "intelligence" intelligence_stage intelligence_skipped state;
  '(_, state) ← stage "corpus" (corpus_stage exploration_summary) corpus_skipped state;
  '(_, state) ← stage "triage" (triage_stage report) triage_skipped state;
  '(evidence_result, state) ← stage "evidence" evidence_stage evidence_skipped state;
  finish exploration_summary report evidence_result state.
End stages.

Definition campaign (m : machine) (v : invocation) : CM Z :=
  p ← make_plan m v;
  if v_dry_run v then _ ← write_json (v_out v +:+ "/summary.json") (plan_doc (v_root v) (v_out v) true p); mret 0
  else
    state ← load_or_create_state (p_hash p) (p_version p) (v_resume v);
    run_stages m v p state.
(** The exit code; an exception of another class is a traceback. *)
Definition main (m : machine) (v : invocation) : CM Z :=
  catch [AppError; JSONDecodeError; OSError; ValueError] (campaign m v) (fun _ => mret 2).
