(* ===== verification/CampaignProps.v ===== *)
(** * What a campaign guarantees

    Stages run in order, each only when the ones before it are complete and only until it is complete
    itself, however often the campaign is interrupted and resumed; the cases that are triaged are the
    best of those selected. *)
From Stdlib Require Import Ascii Sorting.Sorted.
From S2P Require Import Campaign.

(** ** Checkpoints *)

(** A checkpoint as the campaign writes it: it has completed the stages [done], in order. *)
Definition state_done (v : value) (done : list string) : Prop := exists d s, v = obj d /\
  dget "completed" d = Some (VList (VStr <$> done)) /\ dget "stages" d = Some (obj s) /\ done `prefix_of` STAGES.
Definition done_of (w : world) (done : list string) : Prop :=
  match checkpoint w with None => done = [] | Some v => state_done v done end.

Lemma state_done_inj v a b : state_done v a -> state_done v b -> a = b.
Proof.
  intros (d&s&->&H1&_) (d'&s'&[= <-]&H2&_). rewrite H1 in H2. injection H2 as H. clear H1. revert b H.
  induction a as [|x a IH]; intros [|y b] H; try discriminate H; [done|]. injection H as -> H. f_equal. by apply IH.
Qed.

Lemma completed_spec v done name : state_done v done -> is_completed name v = Ok (bool_decide (name ∈ done)).
Proof.
  intros (d&s&->&H1&_). unfold is_completed. cbn [vindex]. rewrite H1. cbn [mbind res_bind]. f_equal. clear H1.
  induction done as [|x done IH]; [done|]. rewrite fmap_cons. cbn [existsb]. rewrite IH. unfold eq_str at 1. cbn [py_eq].
  destruct (String.eqb_spec x name) as [->|Hn]; cbn [orb].
  - symmetry. apply bool_decide_eq_true. by left.
  - apply bool_decide_ext. rewrite elem_of_cons. naive_solver.
Qed.

Lemma prefix_next (pre done post : list string) name : NoDup (pre ++ name :: post) -> pre `prefix_of` done -> done `prefix_of` pre ++ name :: post ->
  name ∉ done -> done = pre.
Proof.
  intros Hn [k ->] Hd Hk. apply prefix_app_inv in Hd. destruct k as [|x k]; [by rewrite app_nil_r|]. apply prefix_cons_inv_1 in Hd as ->.
  destruct Hk. apply elem_of_app. right. by left.
Qed.
Lemma prefix_has (pre done post : list string) name : pre `prefix_of` done -> done `prefix_of` pre ++ name :: post -> NoDup (pre ++ name :: post) ->
  name ∈ done -> pre ++ [name] `prefix_of` done.
Proof.
  intros [k ->] Hd Hn Hk. apply prefix_app. apply prefix_app_inv in Hd. destruct k as [|x k].
  - rewrite app_nil_r in Hk. apply NoDup_app in Hn as (_&Hn&_). destruct (Hn name Hk). by left.
  - apply prefix_cons_inv_1 in Hd as ->. apply prefix_cons. apply prefix_nil.
Qed.

Lemma NoDup_cut (a b c d : list string) x : NoDup (a ++ x :: b) -> c ++ x :: d = a ++ x :: b -> c = a.
Proof.
  revert a. induction c as [|y c IH]; intros [|z a] Hn H; cbn in *; [done| | |].
  - injection H as -> H. apply NoDup_cons in Hn as [[]%not_elem_of_app _]. set_solver.
  - injection H as -> H. apply NoDup_cons in Hn as [Hn _]. destruct Hn. rewrite <- H. set_solver.
  - injection H as -> H. f_equal. apply NoDup_cons in Hn as [_ Hn]. by eapply IH.
Qed.

(** Completing the next stage. *)
Lemma add_stage_done v pre name post record : STAGES = pre ++ name :: post -> state_done v pre -> name ∉ pre ->
  exists v', add_stage name record v = Ok v' /\ state_done v' (pre ++ [name]).
Proof.
  intros Hst Hd Hn. pose proof (completed_spec _ _ name Hd) as Hc. rewrite bool_decide_eq_false_2 in Hc by done. destruct Hd as (d&s&->&H1&H2&H3).
  unfold add_stage. rewrite Hc. cbn [mbind res_bind]. unfold append_stage. cbn [vindex]. rewrite H1. cbn [mbind res_bind]. unfold put_stage. cbn [vindex].
  rewrite dget_dset_ne, H2 by done. cbn [mbind res_bind]. eexists. split; [reflexivity|]. eexists _, _. split_and!; [reflexivity| |by rewrite dget_dset_eq|].
  - rewrite dget_dset_ne, dget_dset_eq by done. by rewrite fmap_app.
  - rewrite Hst. apply prefix_app, prefix_cons, prefix_nil.
Qed.

(** ** What a computation runs *)

(** [m] leaves the checkpoint and runs tools for the stage [name] only. *)
Definition works {A} (name : string) (m : CM A) : Prop := forall w,
  checkpoint (snd (m w)) = checkpoint w /\ exists b, log (snd (m w)) = log w ++ b /\ Forall (fun e => fst e = name) b.
(** It runs nothing. *)
Definition quiet {A} (m : CM A) : Prop := forall w, checkpoint (snd (m w)) = checkpoint w /\ log (snd (m w)) = log w.

Lemma quiet_works {A} name (m : CM A) : quiet m -> works name m.
Proof. intros H w. destruct (H w) as [H1 H2]. split; [done|]. exists []. rewrite app_nil_r. by split. Qed.
Lemma still_bind {A B} (m : CM A) (f : A -> CM B) : quiet m -> (forall a, quiet (f a)) -> quiet (m ≫= f).
Proof.
  intros Hm Hf w. destruct (Hm w) as [H1 H2]. unfold mbind, M_bind. destruct (m w) as [[a|e] w1]; cbn [snd] in *; [|done].
  destruct (Hf a w1) as [H3 H4]. by rewrite H3, H4.
Qed.
Lemma works_bind {A B} name (m : CM A) (f : A -> CM B) : works name m -> (forall a, works name (f a)) -> works name (m ≫= f).
Proof.
  intros Hm Hf w. destruct (Hm w) as (H1&b&H2&H3). unfold mbind, M_bind. destruct (m w) as [[a|e] w1]; cbn [snd] in *; [|by split; [|exists b]].
  destruct (Hf a w1) as (H4&b'&H5&H6). rewrite H4. split; [done|]. exists (b ++ b'). rewrite H5, H2, app_assoc. split; [done|]. by apply Forall_app.
Qed.
Lemma still_lift {A} (r : res A) : quiet (lift r). Proof. done. Qed.
Lemma still_ret {A} (a : A) : quiet (mret a). Proof. done. Qed.
Lemma still_gets {A} (f : world -> A) : quiet (gets f). Proof. done. Qed.
Lemma still_throw {A} c msg : quiet (@throw world A c msg). Proof. done. Qed.
Lemma quiet_write path v : quiet (write_json path v). Proof. done. Qed.
Lemma quiet_read path : quiet (read_json path).
Proof. apply still_bind; [done|]. intros w. by destruct (dget _ _). Qed.
Lemma quiet_is_file path : quiet (is_file path). Proof. done. Qed.
Lemma quiet_is_dir path : quiet (is_dir path). Proof. done. Qed.
Lemma still_now m : quiet (now m). Proof. done. Qed.
Lemma quiet_timeout m d x : quiet (campaign_timeout m d x).
Proof. destruct d; [|done]. apply still_bind; [apply still_now|intros t]. by apply still_bind. Qed.
Lemma quiet_record m n s t e : quiet (stage_record m n s t e).
Proof. apply still_bind; [apply still_lift|intros x]. by apply still_bind. Qed.
Lemma quiet_map {A B} (f : A -> CM B) l : (forall x, quiet (f x)) -> quiet (m_map f l).
Proof. intros Hf. induction l as [|x l IH]; [done|]. cbn [m_map]. apply still_bind; [done|intros y]. by apply still_bind. Qed.
Lemma works_fold {A S} name (f : S -> A -> CM S) s l : (forall s x, works name (f s x)) -> works name (m_fold f s l).
Proof. intros Hf. revert s. induction l as [|x l IH]; intros s; cbn [m_fold]; [by apply quiet_works|]. by apply works_bind. Qed.
Lemma works_run m name cmd codes : works name (run_checked m name cmd codes).
Proof.
  intros w. unfold run_checked, mbind, M_bind, gets, modify. unfold id. destruct (m_tool m _ cmd (docs w)) as [r d]. cbn [snd checkpoint docs log ticks].
  destruct r as [| |code o e]; cbn [snd checkpoint log].
  1-2: split; [done|]; exists [(name, cmd)]; split; [done|by constructor].
  unfold lift. destruct (guard_app _ _) as [u|x]; split; try done; exists [(name, cmd)]; (split; [done|by constructor]).
Qed.
#[local] Hint Resolve still_lift still_ret still_gets still_throw quiet_write quiet_read quiet_is_file quiet_is_dir still_now quiet_timeout quiet_record : ppc.
Ltac quiets := repeat first [solve [auto with ppc] | apply still_bind; [|intros ?] | case_match].
Ltac works := repeat first [apply works_run | apply quiet_works; solve [auto with ppc] | apply works_bind; [|intros ?] | apply works_fold; intros ?? | case_match].

Section stages.
Context (m : machine) (v : invocation) (p : plan).

Lemma works_explore : works "exploration" (explore_stage m v p).
Proof. unfold explore_stage. works. Qed.
Lemma works_intelligence : works "intelligence" (intelligence_stage m v p).
Proof. unfold intelligence_stage. works. Qed.
Lemma works_corpus s : works "corpus" (corpus_stage m v p s).
Proof. unfold corpus_stage, verify_corpus, replay_corpus. works. Qed.
Lemma works_triage r : works "triage" (triage_stage m v p r).
Proof.
  unfold triage_stage, triage_case. apply works_bind; [works|intros started]. apply works_bind; [|intros rows; works]. case_match; [|works].
  apply works_bind; [works|intros files]. apply works_bind; [apply quiet_works, quiet_map; intros x; quiets|intros cases]. works.
Qed.
Lemma works_evidence : works "evidence" (evidence_stage m v p).
Proof. unfold evidence_stage, evidence_sources, verify_evidence. works. Qed.
Lemma quiet_finish s r e st : quiet (finish v p s r e st).
Proof. unfold finish, read_or. quiets. Qed.
End stages.

(** ** Whole runs *)

(** The commands [b] that ran for the stage [s], when [done] were complete before and [done'] after. *)
Definition block_ok (done done' : list string) (s : string) (b : list (string * list string)) : Prop :=
  Forall (fun e => fst e = s) b /\
  (b <> [] -> s ∉ done /\ forall pre post, STAGES = pre ++ s :: post -> pre `prefix_of` done').
Definition ends {A} (names : list string) (w : world) (done : list string) (rw : res A * world) : Prop := exists done' blocks,
  done_of (snd rw) done' /\ done `prefix_of` done' /\ log (snd rw) = log w ++ concat blocks /\
  Forall2 (block_ok done done') names blocks /\ (forall a, fst rw = Ok a -> done' = STAGES).

Lemma STAGES_NoDup : NoDup STAGES.
Proof. apply (bool_decide_unpack _). vm_compute. exact I. Qed.
Lemma done_of_prefix w done : done_of w done -> done `prefix_of` STAGES.
Proof. unfold done_of. destruct (checkpoint w); [by intros (d&s&_&_&_&H)|intros ->; apply prefix_nil]. Qed.

Lemma block_nil done done' s : block_ok done done' s [].
Proof. split; [constructor|done]. Qed.
Lemma no_blocks done done' names : Forall2 (block_ok done done') names (replicate (length names) []).
Proof. induction names as [|s names IH]; [constructor|]. constructor; [apply block_nil|exact IH]. Qed.
Lemma concat_no_blocks {A} n : concat (replicate n ([] : list A)) = [].
Proof. by induction n. Qed.

(** A run that stops. *)
Lemma ends_raise {A} names w done e w1 : done_of w1 done -> log w1 = log w -> @ends A names w done (Raise e, w1).
Proof.
  intros Hd Hl. exists done, (replicate (length names) []). cbn [fst snd]. rewrite concat_no_blocks, app_nil_r. split_and!; [done..|apply no_blocks|done].
Qed.
Lemma ends_quiet {A B} (q : CM A) (k : A -> CM B) names w done : done_of w done -> quiet q ->
  (forall a w1, checkpoint w1 = checkpoint w -> log w1 = log w -> ends names w1 done (k a w1)) -> ends names w done ((q ≫= k) w).
Proof.
  intros Hd Hq Hk. destruct (Hq w) as [H1 H2]. unfold mbind, M_bind. destruct (q w) as [[a|e] w1]; cbn [snd] in *.
  - destruct (Hk a w1 H1 H2) as (d&bs&?&?&?&?&?). exists d, bs. rewrite <- H2. by split_and!.
  - apply ends_raise; [unfold done_of; by rewrite H1|done].
Qed.

Lemma block_later done done1 done' s b : done `prefix_of` done1 -> block_ok done1 done' s b -> block_ok done done' s b.
Proof. intros Hp [H1 H2]. split; [done|]. intros [H3 H4]%H2. split; [|done]. intros Hs. apply H3. by eapply elem_of_prefix. Qed.

Lemma stage_ends {A B} name (body : CM (A * value)) (skipped : value -> CM A) state w (k : A * value -> CM B) pre names done :
  STAGES = pre ++ name :: names -> checkpoint w = Some state -> state_done state done -> pre `prefix_of` done -> works name body -> (forall st, quiet (skipped st)) ->
  (forall a state1 w1 done1, checkpoint w1 = Some state1 -> state_done state1 done1 -> pre ++ [name] `prefix_of` done1 -> ends names w1 done1 (k (a, state1) w1)) ->
  ends (name :: names) w done ((stage name body skipped state ≫= k) w).
Proof.
  intros Hst Hc Hd Hpre Hb Hs Hk. assert (Hdone : done_of w done) by (unfold done_of; by rewrite Hc).
  assert (Hn : NoDup (pre ++ name :: names)) by (rewrite <- Hst; apply STAGES_NoDup).
  assert (Hp : done `prefix_of` pre ++ name :: names) by (rewrite <- Hst; by eapply done_of_prefix).
  unfold stage. rewrite (completed_spec _ _ name Hd). unfold mbind, M_bind, lift. destruct (decide (name ∈ done)) as [Hin|Hin].
  - rewrite bool_decide_eq_true_2 by done. destruct (Hs state w) as [H1 H2]. destruct (skipped state w) as [[a|e] w1]; cbn [snd] in *.
    2: apply ends_raise; [unfold done_of; by rewrite H1|done].
    unfold mret, M_ret. rewrite Hc in H1. destruct (Hk a state w1 done H1 Hd) as (d&bs&?&?&Hl&?&?); [by eapply prefix_has|].
    exists d, ([] :: bs). rewrite H2 in Hl. split_and!; [done|done|done| |done]. constructor; [apply block_nil|done].
  - rewrite bool_decide_eq_false_2 by done. assert (done = pre) as -> by (by eapply prefix_next). destruct (Hb w) as (H1&b&H2&H3).
    assert (Hfail : forall w1 e, checkpoint w1 = Some state -> log w1 = log w ++ b -> @ends B (name :: names) w pre (Raise e, w1)).
    { intros w1 e Hc1 Hl1. exists pre, (b :: replicate (length names) []). cbn [fst snd concat]. rewrite concat_no_blocks, app_nil_r.
      split_and!; [unfold done_of; by rewrite Hc1|done|done| |done]. constructor; [|apply no_blocks]. split; [done|]. intros _. split; [done|].
      intros pre' post Heq. rewrite Hst in Heq. assert (pre' = pre) as ->; [|done]. eapply NoDup_cut; [exact Hn|exact (eq_sym Heq)]. }
    destruct (body w) as [[[a record]|e] w1]; cbn [snd] in *; [|apply Hfail; congruence].
    destruct (add_stage_done _ _ _ _ record Hst Hd Hin) as (state'&Ha&Hd'). unfold complete_stage, mbind, M_bind, lift. rewrite Ha. unfold set_checkpoint, modify, mret, M_ret.
    destruct (Hk a state' (World (Some state') (docs w1) (log w1) (ticks w1)) (pre ++ [name])) as (d&bs&G1&G2&G3&G4&G5); [done..|].
    exists d, (b :: bs). cbn [log concat] in *.
    assert (Hpd : pre `prefix_of` pre ++ [name]) by (by exists [name]).
    split; [exact G1|]. split; [by trans (pre ++ [name])|]. split; [rewrite G3, H2; by rewrite <- app_assoc|]. split; [|exact G5].
    constructor.
    + split; [done|]. intros _. split; [done|]. intros pre' post Heq. rewrite Hst in Heq. assert (pre' = pre) as ->; [|by trans (pre ++ [name])]. eapply NoDup_cut; [exact Hn|exact (eq_sym Heq)].
    + eapply Forall2_impl; [exact G4|]. intros s b' Hs'. eapply block_later; [exact Hpd|exact Hs'].
Qed.

(** A run that is not a dry run. *)
Lemma run_stages_ends m v p state w done : checkpoint w = Some state -> state_done state done -> ends STAGES w done (run_stages m v p state w).
Proof.
  intros Hc Hd. unfold run_stages. apply ends_quiet; [unfold done_of; by rewrite Hc|apply quiet_write|]. intros _ w1 H1 _. rewrite Hc in H1.
  eapply (stage_ends _ _ _ _ _ _ [] _ done); [reflexivity|exact H1|exact Hd|apply prefix_nil|apply works_explore|intros st; apply still_ret|]. clear.
  intros _ st w d Hc Hd Hp. apply ends_quiet; [unfold done_of; by rewrite Hc|apply quiet_read|]. intros summary w1 H1 _. rewrite Hc in H1.
  eapply (stage_ends _ _ _ _ _ _ ["exploration"] _ d); [reflexivity|exact H1|exact Hd|exact Hp|apply works_intelligence|intros st'; unfold intelligence_skipped; quiets|]. clear.
  intros report st w d Hc Hd Hp.
  eapply (stage_ends _ _ _ _ _ _ ["exploration"; "intelligence"] _ d); [reflexivity|exact Hc|exact Hd|exact Hp|apply works_corpus|intros st'; unfold corpus_skipped; quiets|]. clear.
  intros [] st w d Hc Hd Hp.
  eapply (stage_ends _ _ _ _ _ _ ["exploration"; "intelligence"; "corpus"] _ d); [reflexivity|exact Hc|exact Hd|exact Hp|apply works_triage|intros st'; unfold triage_skipped; quiets|]. clear.
  intros [] st w d Hc Hd Hp.
  eapply (stage_ends _ _ _ _ _ _ ["exploration"; "intelligence"; "corpus"; "triage"] _ d);
    [reflexivity|exact Hc|exact Hd|exact Hp|apply works_evidence|intros st'; unfold evidence_skipped; quiets|]. clear.
  intros e st w d Hc Hd Hp. destruct (quiet_finish v p summary report e st w) as [H1 H2]. exists d, []. split; [unfold done_of; by rewrite H1, Hc|].
  split; [done|]. split; [cbn [concat]; by rewrite app_nil_r|]. split; [constructor|]. intros a _. destruct Hd as (?&?&_&_&_&Hd).
  apply (anti_symm prefix); [exact Hd|exact Hp].
Qed.

(** The checkpoint that a resumed run goes on from is of the same manifest and engine. *)
Definition accepts (hash version : string) (resume : bool) (w : world) : Prop :=
  match checkpoint w with
  | None => resume = false
  | Some s => resume = true /\ exists h e, vget "manifest_sha256" s = Ok h /\ eq_str h hash = true /\
                                           vget "engine_version" s = Ok e /\ eq_str e version = true
  end.
Lemma load_spec hash version resume w done : done_of w done ->
  match load_or_create_state hash version resume w with
  | (Ok state, w') => checkpoint w' = Some state /\ state_done state done /\ log w' = log w /\ accepts hash version resume w
  | (Raise _, w') => checkpoint w' = checkpoint w /\ log w' = log w
  end.
Proof.
  unfold load_or_create_state, accepts, done_of. unfold mbind, M_bind, gets, lift, id, set_checkpoint, modify, mret, M_ret, guard_app.
  destruct (checkpoint w) as [s|] eqn:Hc; intros Hd.
  - destruct resume; [|done]. destruct (vget "schema" s) as [x|]; [|done]. destruct (eq_str x STATE_SCHEMA); [|done].
    destruct (vget "manifest_sha256" s) as [h|]; [|done]. destruct (eq_str h hash) eqn:Hh; [|done].
    destruct (vget "engine_version" s) as [e|]; [|done]. destruct (eq_str e version) eqn:He; [|done]. split_and!; [done..|]. by exists h, e.
  - subst done. destruct resume; [done|]. cbn [negb checkpoint log]. split_and!; [done| |done..]. eexists _, _. split_and!; [reflexivity..|apply prefix_nil].
Qed.

Lemma quiet_make_plan m v : quiet (make_plan m v).
Proof.
  unfold make_plan. repeat first [apply still_bind; [|intros ?] | apply still_lift | apply still_ret]. case_match; quiets.
Qed.
Lemma make_plan_hash m v w p w' : make_plan m v w = (Ok p, w') -> p_hash p = sha256_hex (v_text v).
Proof. unfold make_plan. intros H. do 13 (apply m_bind_Ok in H as (?&?&_&H)). apply m_ret_Ok in H as [<- _]. reflexivity. Qed.

Lemma ends_nothing {A} w done (r : res A) w1 : done_of w done -> checkpoint w1 = checkpoint w -> log w1 = log w -> (forall a, r <> Ok a) -> ends STAGES w done (r, w1).
Proof. intros Hd H1 H2 Hr. destruct r as [a|e]; [by destruct (Hr a)|]. apply ends_raise; [|done]. unfold done_of. by rewrite H1. Qed.

(** What [campaign] does: a dry run nothing, another what [ends] says, and only from a checkpoint it accepts. *)
Lemma campaign_ends m v w done : done_of w done ->
  let '(r, w') := campaign m v w in
  if v_dry_run v then checkpoint w' = checkpoint w /\ log w' = log w
  else ends STAGES w done (r, w') /\ (log w' = log w \/ exists version, accepts (sha256_hex (v_text v)) version (v_resume v) w).
Proof.
  intros Hd. unfold campaign. destruct (quiet_make_plan m v w) as [P1 P2]. unfold mbind, M_bind.
  destruct (make_plan m v w) as [[p|e] w1] eqn:Hp; cbn [snd] in P1, P2.
  - destruct (v_dry_run v); [done|]. apply make_plan_hash in Hp as Hh.
    assert (Hd1 : done_of w1 done) by (unfold done_of; by rewrite P1).
    pose proof (load_spec (p_hash p) (p_version p) (v_resume v) w1 done Hd1) as Hl.
    destruct (load_or_create_state _ _ _ w1) as [[state|e] w2].
    + destruct Hl as (L1&L2&L3&L4). pose proof (run_stages_ends m v p state w2 done L1 L2) as He. destruct (run_stages m v p state w2) as [r w3]. split.
      * destruct He as (d&bs&?&?&Hlog&?&?). exists d, bs. cbn [snd] in *. by rewrite Hlog, L3, P2.
      * right. exists (p_version p). unfold accepts in *. by rewrite <- P1, <- Hh.
    + destruct Hl as [L1 L2]. split; [apply ends_nothing; [done|congruence..|done]|left; congruence].
  - destruct (v_dry_run v); [done|]. split; [by apply ends_nothing|by left].
Qed.

(** ** The theorem *)

(** The campaigns there can be over one output directory, whatever else changes its other documents. *)
Inductive history : world -> Prop :=
| fresh : forall d t, history (World None d [] t)
| runs : forall m v w, history w -> history (snd (main m v w))
| elsewhere : forall d t w, history w -> history (World (checkpoint w) d (log w) t).

(** A stage's place in the order. *)
Definition stage_number (s : string) : nat := match list_find (s =.) STAGES with Some (i, _) => i | None => length STAGES end.
Definition in_order (l : list (string * list string)) : Prop := StronglySorted (fun a b => (stage_number a <= stage_number b)%nat) l.*1.

Lemma stage_number_at pre s post : STAGES = pre ++ s :: post -> stage_number s = length pre.
Proof.
  intros H. assert (Hf : list_find (s =.) STAGES = Some (length pre, s)); [|unfold stage_number; by rewrite Hf].
  rewrite H. apply list_find_app_Some. right. split; [lia|]. split; [|rewrite Nat.sub_diag; cbn [list_find]; by rewrite decide_True].
  apply list_find_None, Forall_forall. intros x Hx <-. pose proof STAGES_NoDup as Hn. rewrite H in Hn. apply NoDup_app in Hn as (_&Hn&_). by apply (Hn s Hx); left.
Qed.

(** Where the stages of a run that had [done] complete lie. *)
Lemma block_place done done' s b : done `prefix_of` STAGES -> s ∈ STAGES -> block_ok done done' s b -> b <> [] ->
  (length done <= stage_number s <= length done')%nat.
Proof.
  intros Hd (pre&post&Hs)%list_elem_of_split [_ H] Hb. destruct (H Hb) as [Hn Hp]. specialize (Hp pre post Hs). rewrite (stage_number_at _ _ _ Hs).
  split; [|by apply prefix_length]. destruct (prefix_weak_total done (pre ++ [s]) STAGES) as [Hx|Hx]; [done|by exists post; rewrite Hs, <- app_assoc| |].
  - destruct Hx as [[|y k] Hx]; [destruct Hn; rewrite app_nil_r in Hx; rewrite <- Hx; set_solver|].
    apply (f_equal length) in Hx. rewrite !length_app in Hx. cbn in Hx. lia.
  - destruct Hn. eapply elem_of_prefix; [|exact Hx]. set_solver.
Qed.

Lemma blocks_place done done' names blocks e : done `prefix_of` STAGES -> (forall s, s ∈ names -> s ∈ STAGES) -> Forall2 (block_ok done done') names blocks ->
  e ∈ concat blocks -> exists s, s ∈ names /\ fst e = s /\ (length done <= stage_number s <= length done')%nat.
Proof.
  intros Hd Hn Hf He. induction Hf as [|s b names blocks Hb Hf IH]; cbn [concat] in He; [by apply elem_of_nil in He|]. apply elem_of_app in He as [He|He].
  - exists s. split; [by left|]. split; [destruct Hb as [Hb _]; rewrite Forall_forall in Hb; exact (Hb e He)|].
    eapply block_place; [done|by apply Hn; left|exact Hb|]. by intros ->; apply elem_of_nil in He.
  - destruct IH as (s'&?&?&?); [by intros; apply Hn; right|done|]. exists s'. by split; [right|].
Qed.

Lemma STAGES_sorted : StronglySorted (fun a b => stage_number a <= stage_number b)%nat STAGES.
Proof. repeat constructor; apply Nat.leb_le; vm_compute; reflexivity. Qed.

Lemma blocks_in_order done done' names blocks : done `prefix_of` STAGES -> (forall s, s ∈ names -> s ∈ STAGES) ->
  StronglySorted (fun a b => stage_number a <= stage_number b)%nat names -> Forall2 (block_ok done done') names blocks -> in_order (concat blocks).
Proof.
  intros Hd Hn Hs Hf. induction Hf as [|s b names blocks Hb Hf IH]; [constructor|]. apply StronglySorted_inv in Hs as [Hs Hs1]. rewrite Forall_forall in Hs1.
  assert (Hn' : forall s, s ∈ names -> s ∈ STAGES) by (by intros; apply Hn; right). destruct Hb as [Hb _]. rewrite Forall_forall in Hb.
  unfold in_order. cbn [concat]. rewrite fmap_app. apply sorting.StronglySorted_app. split; [|split; [|by apply IH]].
  - intros x1 x2 (e1&->&H1)%list_elem_of_fmap (e2&->&H2)%list_elem_of_fmap. rewrite (Hb e1 H1).
    destruct (blocks_place _ _ _ _ e2 Hd Hn' Hf H2) as (s2&Hin&->&_). by apply Hs1.
  - clear - Hb. induction b as [|e b IH]; [constructor|]. rewrite fmap_cons. constructor; [apply IH; intros; by apply Hb; right|].
    apply Forall_forall. intros x (e2&->&H2)%list_elem_of_fmap. rewrite (Hb e), (Hb e2); [done|by right|by left].
Qed.

(** What one run of the program does, and what that says of all. *)
Definition run_does (done : list string) (w : world) (v : invocation) (r : res Z) (w' : world) (done' : list string) (blocks : list (list (string * list string))) : Prop :=
  done_of w' done' /\ done `prefix_of` done' /\ log w' = log w ++ concat blocks /\ Forall2 (block_ok done done') STAGES blocks /\
  (v_dry_run v = false -> r = Ok 0 \/ r = Ok 1 -> done' = STAGES) /\
  (log w' = log w \/ v_dry_run v = false /\ exists version, accepts (sha256_hex (v_text v)) version (v_resume v) w).

Lemma main_does m v w done : done_of w done -> exists done' blocks, run_does done w v (fst (main m v w)) (snd (main m v w)) done' blocks.
Proof.
  intros Hd. pose proof (campaign_ends m v w done Hd) as H. unfold main, catch, run_does. destruct (campaign m v w) as [r w1]. destruct (v_dry_run v).
  - destruct H as [H1 H2]. exists done, (replicate (length STAGES) []).
    assert (Hw : forall r', snd (match r with Ok _ => (r, w1) | Raise _ => (r', w1) end) = w1) by (by destruct r).
    destruct r as [c|e]; [|destruct (handled _ e)]; unfold mret, M_ret; cbn [fst snd]; rewrite concat_no_blocks, app_nil_r; unfold done_of; rewrite H1;
      (split_and!; [exact Hd|done|done|apply no_blocks|done|by left]).
  - destruct H as [(done'&blocks&?&?&?&?&Hok) Hacc]. cbn [fst snd] in *. exists done', blocks.
    assert (Hacc' : log w1 = log w \/ false = false /\ exists version, accepts (sha256_hex (v_text v)) version (v_resume v) w) by naive_solver.
    destruct r as [c|e]; [|destruct (handled _ e)]; unfold mret, M_ret; cbn [fst snd]; (split_and!; [done..| |exact Hacc']).
    + intros _ _. by eapply Hok.
    + by intros _ [?|?].
    + by intros _ [?|?].
Qed.

Definition campaign_history_ok (w : world) : Prop := exists done, done_of w done /\ in_order (log w) /\ forall e, e ∈ log w -> (stage_number (fst e) <= length done)%nat.
Lemma history_keeps w : history w -> campaign_history_ok w.
Proof.
  induction 1 as [d t|m v w Hw (done&Hd&Ho&Hb)|d t w Hw (done&Hd&Ho&Hb)].
  - exists []. split_and!; [done|constructor|]. intros e He. by apply elem_of_nil in He.
  - destruct (main_does m v w done Hd) as (done'&blocks&Hd'&Hp&Hlog&Hf&_). exists done'. split; [done|]. rewrite Hlog.
    pose proof (done_of_prefix _ _ Hd) as Hpre. assert (Hid : forall s, s ∈ STAGES -> s ∈ STAGES) by done. split.
    + unfold in_order. rewrite fmap_app. apply sorting.StronglySorted_app. split; [|split; [exact Ho|]].
      * intros x1 x2 (e1&->&H1)%list_elem_of_fmap (e2&->&H2)%list_elem_of_fmap. destruct (blocks_place _ _ _ _ e2 Hpre Hid Hf H2) as (s&_&->&Hs).
        specialize (Hb e1 H1). lia.
      * by eapply (blocks_in_order done done' STAGES); [..|apply STAGES_sorted|].
    + apply prefix_length in Hp. intros e [He|He]%elem_of_app; [specialize (Hb e He); lia|].
      destruct (blocks_place _ _ _ _ e Hpre Hid Hf He) as (s&_&->&Hs). lia.
  - exists done. by split_and!.
Qed.


(** ** An interrupted campaign *)

(** A campaign of one exploration, interrupted when it ranks the cases, and resumed. *)
Definition demo_tool (interrupt : bool) (n : nat) (cmd : list string) (d : dict value) : ran * dict value :=
  match cmd with
  | tool :: _ =>
      if String.eqb tool "explorer" then
        (Exited 0 "explored" "", dset "/out/exploration/summary.json"
          (obj [("promoted_cases", VInt 0); ("successful_cases", VInt 1); ("evaluated_cases", VInt 2)]) d)
      else if String.eqb tool "prioritizer" then
        if interrupt then (Interrupted, d) else (Exited 0 "ranked" "", dset "/out/intelligence.json"
          (obj [("schema", VStr "ppc-lab-priority-report-v1"); ("ranking", VList []); ("plateau", obj [("saturated", VBool false)])]) d)
      else (Exited 0 "{}" "", d)
  | [] => (Exited 127 "" "no command", d)
  end.
Definition demo_machine (interrupt : bool) : machine := Machine (demo_tool interrupt) (fun _ => fzero) (fun path => path) (fun _ => true).
Definition demo_campaign : value :=
  obj [("schema", VStr "ppc-lab-campaign-v1"); ("exploration", obj [("schema", VStr "ppc-lab-exploration-v1");
    ("base_job", obj [("image", obj [("path", VStr "a.bin")])])]); ("evidence", obj [("verify", VBool false)])].
Definition demo_run (resume : bool) : invocation :=
  Invocation "/root" "/root" "/out" "/root/campaign.json" (json demo_campaign) resume false true "python3" "ppc_lab" "worker" "explorer" "prioritizer" "corpus"
    "triage" "evidence" "ppc_lab" "worker" (Reply 0 "PPC Lab 1.2.3" "") (Reply 0 (json (obj [("schema", VStr "ppc-lab-capabilities-v1")])) "").
Definition demo_first : res Z * world := main (demo_machine true) (demo_run false) (World None [] [] 0).
Definition demo_second : res Z * world := main (demo_machine false) (demo_run true) (snd demo_first).

Example demo_resumed : fst demo_first = Raise (Exn SystemExit "interrupted") /\ (log (snd demo_first)).*1 = ["exploration"; "intelligence"] /\
  fst demo_second = Ok 0 /\ (log (snd demo_second)).*1 = ["exploration"; "intelligence"; "intelligence"; "evidence"].
Proof. vm_compute. split_and!; reflexivity. Qed.


(** ** Which cases are triaged *)

Lemma aget_in {V} i (x : V) (l : list (Z * V)) : aget i l = Some x -> (i, x) ∈ l.
Proof. induction l as [|[k y] l IH]; cbn [aget]; [done|]. case_decide as Hk; [intros [= <-]; subst; by left|intros H; right; by apply IH]. Qed.
Lemma priority_real pr i : (forall i x, (i, x) ∈ pr -> is_nan x = false) -> is_nan (float_neg (priority_of pr i)) = false.
Proof.
  intros H. unfold priority_of. destruct (aget i pr) as [x|] eqn:E; [|reflexivity]. apply aget_in, H in E. by destruct x.
Qed.

(** What the cases are ordered by: the score, negated, then the index. *)
Definition triage_key pr (row : dict value) : float * Z :=
  (float_neg (priority_of pr (ok_or (-1) (py_int (dget_or "index" (VInt (-1)) row)))), ok_or 0 (py_int (dget_or "index" (VInt 0) row))).
Lemma keyed_key pr row kv : keyed pr row = Ok kv -> kv = (triage_key pr row, row).
Proof. unfold keyed, triage_key. intros H. inv_res. by rewrite H, H0. Qed.

(** Taking the first of a sorted list. *)
Lemma take_best {A} (R : A -> A -> Prop) (l : list A) n : StronglySorted R l ->
  StronglySorted R (take n l) /\ forall x y, x ∈ take n l -> y ∈ drop n l -> R x y.
Proof. intros H. rewrite <- (take_drop n l) in H. apply sorting.StronglySorted_app in H as (H1&H2&_). by split. Qed.

(** The cases that are triaged, when there is a priority report, are the first [limit] of the selected ones by score, higher first, and
    then by index: as many as the limit allows, in that order, and none that was left out comes before one that was taken. *)
Theorem triage_selection_optimal pr s limit rows sel :
  (forall i x, (i, x) ∈ pr -> is_nan x = false) -> pr <> [] -> 0 <= limit -> select_triage true s limit pr rows = Ok sel ->
  let candidates := List.filter (takes s) rows in
  let before := fun x y => py_le (triage_key pr x) (triage_key pr y) = true in
  Z.of_nat (length sel) = Z.min limit (Z.of_nat (length candidates)) /\
  StronglySorted before sel /\ exists rest, sel ++ rest ≡ₚ candidates /\ forall x y, x ∈ sel -> y ∈ rest -> before x y.
Proof.
  intros Hpr Hne Hl H candidates before. unfold select_triage in H. fold candidates in H. destruct pr as [|p pr]; [done|].
  apply res_bind_Ok in H as (ordered&H&Hsel). apply res_bind_Ok in H as (l&H&Ho). injection Ho as <-. injection Hsel as <-.
  set (pr' := p :: pr) in *. apply res_map_runs in H.
  assert (Hmap : l = (fun row => (triage_key pr' row, row)) <$> candidates).
  { clear -H. induction H as [|row kv c l Hk _ IH]; [done|]. rewrite fmap_cons, IH. f_equal. by apply keyed_key. }
  assert (Hsorted : StronglySorted before (py_sorted fst l).*2).
  { assert (Hord : py_ordered fst (py_sorted fst l)).
    { apply py_sorted_ordered. intros x. rewrite Hmap. intros (row&->&_)%list_elem_of_fmap. split; [|done]. by apply priority_real. }
    assert (Hin : forall x, x ∈ py_sorted fst l -> fst x = triage_key pr' (snd x)).
    { intros x. rewrite elem_of_py_sorted, Hmap. by intros (row&->&_)%list_elem_of_fmap. }
    clear -Hord Hin. induction Hord as [|x k Hk IH Hx]; [constructor|]. rewrite fmap_cons. constructor; [apply IH; intros; apply Hin; by right|].
    rewrite Forall_forall in Hx. apply Forall_forall. intros y (z&->&Hz)%list_elem_of_fmap. unfold before. rewrite <- (Hin x), <- (Hin z); [by apply Hx|by right|by left]. }
  assert (Hperm : (py_sorted fst l).*2 ≡ₚ candidates).
  { rewrite (py_sorted_perm fst l), Hmap, <- list_fmap_compose. by rewrite list_fmap_id. }
  destruct (take_best _ _ (Z.to_nat limit) Hsorted) as [H1 H2]. split; [|split; [exact H1|]].
  - rewrite length_take, Hperm. lia.
  - exists (drop (Z.to_nat limit) (py_sorted fst l).*2). by rewrite take_drop.
Qed.

Lemma triage_selection_optimal_witness :
  let row := fun (i : Z) (novel : bool) => [("index", VInt i); ("novel", VBool novel); ("worker", obj [("ok", VBool true)])] in
  let pr := [(0, ratio 1 2); (1, ratio 9 1); (2, ratio 3 1); (3, ratio 3 1)] in
  let rows := [row 0 true; row 1 false; row 3 true; row 2 true] in
  let sel := [row 2 true; row 3 true] in
  select_triage true SelectNovelOrFailed 2 pr rows = Ok sel /\
  StronglySorted (fun x y => py_le (triage_key pr x) (triage_key pr y) = true) sel /\
  exists rest, sel ++ rest ≡ₚ List.filter (takes SelectNovelOrFailed) rows /\ forall x y, x ∈ sel -> y ∈ rest -> py_le (triage_key pr x) (triage_key pr y) = true.
Proof.
  intros row pr rows sel. assert (H : select_triage true SelectNovelOrFailed 2 pr rows = Ok sel) by (vm_compute; reflexivity). split; [exact H|].
  destruct (triage_selection_optimal pr SelectNovelOrFailed 2 rows sel) as (_&H1&H2); [|discriminate|lia|exact H|split; [exact H1|exact H2]].
  intros i x Hx. unfold pr in Hx. rewrite !elem_of_cons in Hx. destruct Hx as [[= -> ->]|[[= -> ->]|[[= -> ->]|[[= -> ->]|Hx%elem_of_nil]]]]; done.
Defined.
