(* ===== verification/Backup.v ===== *)
(** * Backups ([ppc_lab_backup.py])

    A backup is an archive of the persistent state: a snapshot of the evidence database with the
    objects it refers to, a snapshot of the knowledge database, and the files of the control plane
    that are not transient, with a manifest of their sizes, digests and modes.  Restoring verifies the
    archive, moves what there is aside, and installs the components; a failure takes them out again.
    A component is the tree of its directory, with the root at the empty path. *)
From stdpp Require Import pretty gmap.
From Stdlib Require Import Ascii.
From S2P Require Export Upgrade JsonParse.

Abbreviation obj := VDict.

Definition BACKUP_SCHEMA : string := "ppc-lab-backup-v1".
Definition REPORT_SCHEMA : string := "ppc-lab-backup-report-v1".
Definition ALLOWED_COMPONENTS : list string := ["evidence"; "knowledge"; "control"].
Definition TRANSIENT_CONTROL : list string := ["SERVER.lock"; "telemetry.json"; "PAUSE"; "DRAIN"; "CANCEL"].
Definition CONTROL_SUFFIXES : list string := [".json"; ".ndjson"; ".log"; ".txt"].
Definition BACKUP_MANIFEST : string := "BACKUP-MANIFEST.json".
Definition DEPLOYMENT : path := ["metadata"; "deployment.json"].

(** What the script uses of the platform: the modes of new files; SQLite's online backup, its integrity
    check and the query for the digests; signal 0; the order of a set; and whether the temporary
    directory is on the device of the state. *)
Record platform := Platform {
  f_mode : Z; f_db_mode : Z;
  f_snapshot : string -> res string;
  f_integrity : string -> res bool;
  f_hashes : string -> res (list string);
  f_kill0 : Z -> res unit;
  f_set : list string -> list string;
  f_same_device : bool }.

(** The state root: its components, and the symbolic links below each. *)
Record state_root := StateRoot { s_components : dict tree; s_links : dict (list path) }.
(** Files by path, as they are put in the staging directory. *)
Abbreviation entries := (list (path * file)).

(** [project_version(root)], of the text of CMakeLists.txt *)
Definition project_version (cmake : res string) : res string :=
  text ← cmake; match search version_match text with Some v => Ok v | None => app_error "cannot determine PPC Lab version" end.
Definition safe_member (name : string) : res path :=
  let parts := path_parts name in
  let unsafe := str_startswith "/" name || existsb (String.eqb "..") parts || match parts with [] => true | _ => false end in
  if unsafe then app_error ("unsafe backup member: " +:+ name) else Ok parts.

(** ** Collecting the state *)

(** Paths are compared by their parts; no part has a NUL. *)
Definition parts_key (p : path) : string := str_join (sp 0) p.
Definition in_order (l : list path) : list path := py_sorted parts_key l.

(** Whether a file of the control plane is left out. *)
Definition left_out (p : path) : bool :=
  existsb (String.eqb (as_posix p)) TRANSIENT_CONTROL || existsb (String.eqb (List.last p "")) TRANSIENT_CONTROL ||
  negb (existsb (String.eqb (str_lower (Upgrade.suffix (List.last p "")))) CONTROL_SUFFIXES).
Definition regular_files (links : list path) (t : tree) : res (list path) :=
  match links with
  | [] => Ok (List.filter (fun p => is_file t p && negb (left_out p)) (in_order (keys t)))
  | l :: _ => app_error ("symlink not permitted in control state: " +:+ as_posix l)
  end.

(** ** Creating *)

Section platform.
Context (pf : platform).

Definition sqlite_snapshot (t : tree) (name : string) : res string :=
  match file_at t [name] with
  | None => app_error ("missing SQLite state: " +:+ name)
  | Some (data, _) =>
      match (db ← f_snapshot pf data; ok ← f_integrity pf db; Ok (db, ok)) with
      | Ok (db, true) => Ok db
      | Ok (_, false) => app_error ("SQLite integrity check failed after snapshot: " +:+ name)
      | Raise e => if handled [SqlError] e then app_error ("cannot snapshot SQLite state " +:+ name +:+ ": " +:+ exn_msg e) else Raise e
      end
  end.

Definition lock_alive (text : string) : res bool :=
  doc ← loads text;
  pid ← vget_or "pid" (VInt 0) doc; pid ← py_int pid;
  if pid <=? 0 then Ok false else _ ← f_kill0 pf pid; Ok true.
Definition control_server_alive (t : tree) : res bool :=
  match file_at t ["SERVER.lock"] with
  | None => Ok false
  | Some (text, _) =>
      match lock_alive text with
      | Raise e => if handled [OSError; ValueError; JSONDecodeError; TypeError] e then Ok false else Raise e
      | r => r
      end
  end.

Definition fresh_copy (data : string) : file := (data, f_mode pf).
Definition control_copy (t : tree) (p : path) : option (path * file) :=
  match file_at t p with Some f => Some (["state"; "control"] ++ p, fresh_copy (fst f)) | None => None end.
Definition read_control (text : string) : res value :=
  match loads text with
  | Raise e => if handled [OSError; JSONDecodeError] e then app_error ("invalid control.json: " +:+ exn_msg e) else Raise e
  | r => r
  end.
Definition copy_control (links : list path) (t : tree) (allow_live : bool) : res entries :=
  match file_at t ["control.json"] with
  | None => app_error "control state is not initialized"
  | Some (text, _) =>
      alive ← control_server_alive t;
      _ ← guard_app (negb alive || allow_live) "control plane appears active; drain/stop it before backup or use --allow-live-control";
      doc ← read_control text;
      schema ← vget "schema" doc;
      _ ← guard_app (eq_str schema "ppc-lab-control-v1") "unsupported control-plane schema";
      files ← regular_files links t;
      Ok (omap (M:=list) (control_copy t) files)
  end.

Definition object_path (digest : string) : path := ["objects"; "sha256"; prefix_of 2 digest; digest +:+ ".json"].
Definition evidence_object (t : tree) (digest : string) : res (path * file) :=
  match file_at t (object_path digest) with
  | Some (data, _) => Ok (["state"; "evidence"] ++ object_path digest, fresh_copy data)
  | None => app_error ("evidence object referenced by DB is missing: " +:+ digest)
  end.
Definition snapshot_evidence (t : tree) : res entries :=
  db ← sqlite_snapshot t "evidence.sqlite3";
  hashes ← f_hashes pf db;
  objects ← res_map (evidence_object t) hashes;
  Ok ((["state"; "evidence"; "evidence.sqlite3"], (db, f_db_mode pf)) :: objects).
Definition snapshot_knowledge (t : tree) : res entries :=
  db ← sqlite_snapshot t "knowledge.sqlite3";
  Ok [(["state"; "knowledge"; "knowledge.sqlite3"], (db, f_db_mode pf))].

(** What a component adds, when it is there. *)
Definition component_of (st : state_root) (c : string) (f : tree -> res entries) : res (list string * entries) :=
  match dget c (s_components st) with
  | Some t => l ← f t; Ok ([c], l)
  | None => Ok ([], [])
  end.
Definition snapshot_state (st : state_root) (allow_live : bool) : res (list string * entries) :=
  e ← component_of st "evidence" snapshot_evidence;
  k ← component_of st "knowledge" snapshot_knowledge;
  c ← component_of st "control" (fun t => copy_control (default [] (dget "control" (s_links st))) t allow_live);
  let components := fst e ++ fst k ++ fst c in
  _ ← guard_app (match components with [] => false | _ => true end) "no PPC Lab persistent components found";
  Ok (components, snd e ++ snd k ++ snd c).

(** The staging directory: a file that is copied twice is there once. *)
Definition staged (l : entries) : entries := fold_left (fun d e => aset (fst e) (snd e) d) l [].
(** [f"{mode:04o}"] *)
Definition oct_digit (n : Z) : string := String (ascii_of_nat (Z.to_nat (48 + n mod 8))) "".
Definition octal (m : Z) : string := oct_digit (m / 512) +:+ oct_digit (m / 64) +:+ oct_digit (m / 8) +:+ oct_digit m.
Definition inventory_item (e : path * file) : value :=
  obj [("path", VStr (as_posix (fst e))); ("size", VInt (Z.of_nat (String.length (fst (snd e))))); ("mode", VStr (octal (Z.land (snd (snd e)) 4095)));
       ("sha256", VStr (sha256_hex (fst (snd e))))].

Definition regular : Z := 32768.
Definition archived (e : path * file) : member := Member (as_posix (fst e)) (fst (snd e)) (Z.lor regular (Z.land (snd (snd e)) 4095)).
Definition json_text (v : value) : string := json_indent (sort_keys v) +:+ sp 10.
Definition write_archive (listing : entries) (manifest : value) : list member :=
  (archived <$> listing) ++ [Member BACKUP_MANIFEST (json_text manifest) (Z.lor regular 384)].

(** The deployment metadata: its record, and the file. *)
Definition deployment_part (deployment : option (res value)) : res (value * entries) :=
  match deployment with
  | None => Ok (VNone, [])
  | Some read =>
      doc ← read;
      schema ← vget "schema" doc;
      _ ← guard_app (eq_str schema "ppc-lab-deployment-v1") "deployment metadata is not ppc-lab-deployment-v1";
      let text := json_text doc in
      Ok (obj [("path", VStr (as_posix DEPLOYMENT)); ("sha256", VStr (sha256_hex text)); ("size", VInt (Z.of_nat (String.length text)))],
          [(DEPLOYMENT, fresh_copy text)])
  end.
Definition backup_policy (live : bool) : dict value :=
  [("target_binaries_copied", VBool false); ("api_secrets_copied", VBool false); ("cache_copied", VBool false); ("logs_copied", VBool false);
   ("control_live_snapshot", VBool live)].
Definition backup_manifest (version now : string) (components : list string) (listing : entries) (record : value) (live : bool) : dict value :=
  [("schema", VStr BACKUP_SCHEMA); ("backup_api", VInt 1); ("ppc_lab_version", VStr version); ("created_at", VStr now);
   ("components", VList (VStr <$> components)); ("files", VList (inventory_item <$> listing)); ("deployment", record); ("policy", obj (backup_policy live))].
(** [allow_live_control and control_server_alive(state_root / "control")] *)
Definition live_snapshot (st : state_root) (allow_live : bool) : res bool :=
  if allow_live then match dget "control" (s_components st) with Some t => control_server_alive t | None => Ok false end else Ok false.
Definition create_backup (cmake : res string) (now : string) (st : state_root) (allow_live : bool) (deployment : option (res value)) : res (dict value * list member) :=
  '(components, l) ← snapshot_state st allow_live;
  '(record, extra) ← deployment_part deployment;
  let inventory := py_sorted (fun e => parts_key (fst e)) (staged l) in
  let listing := match extra with [] => inventory | _ => py_sorted (fun e => as_posix (fst e)) (inventory ++ extra) end in
  version ← project_version cmake;
  live ← live_snapshot st allow_live;
  let manifest := backup_manifest version now components listing record live in
  Ok (manifest, write_archive listing (obj manifest)).

(** ** Verifying *)

Definition is_dir_name (name : string) : bool := str_endswith "/" name.
Definition check_member (m : member) : res unit :=
  _ ← safe_member (m_name m);
  _ ← guard_app (negb (is_dir_name (m_name m))) ("directory members are not permitted: " +:+ m_name m);
  guard_app (negb (is_symlink m)) ("symlink members are not permitted: " +:+ m_name m).

(** [zf.read(name)]: the last member of that name. *)
Definition read_member (ms : list member) (name : string) : res string :=
  match List.find (fun m => String.eqb (m_name m) name) (rev ms) with Some m => Ok (m_data m) | None => Raise (Exn KeyError name) end.
Definition error_if (b : bool) (msg : string) : list string := if b then [msg] else [].

Definition permitted (name : string) : bool :=
  str_startswith "state/evidence/" name || str_startswith "state/knowledge/" name || str_startswith "state/control/" name ||
  String.eqb name (as_posix DEPLOYMENT).
Definition member_errors (ms : list member) (expected : dict (dict value)) (name : string) : res (list string) :=
  data ← read_member ms name;
  item ← dindex name expected;
  Ok (error_if (negb (py_eq (VInt (Z.of_nat (String.length data))) (dget_n "size" item))) ("size mismatch: " +:+ name) ++
      error_if (negb (eq_str (dget_n "sha256" item) (sha256_hex data))) ("hash mismatch: " +:+ name) ++
      error_if (negb (permitted name)) ("member outside permitted backup roots: " +:+ name)).

(** [set(a) - set(b)], and their lists of errors *)
Definition minus (a b : list string) : list string := List.filter (fun x => negb (existsb (String.eqb x) b)) a.
Definition both (a b : list string) : list string := List.filter (fun x => existsb (String.eqb x) b) a.
Definition list_error (what : string) (names : list string) : list string :=
  error_if (match names with [] => false | _ => true end) (what +:+ str_join ", " (py_sorted id names)).

Definition is_false (v : value) : bool := match v with VBool false => true | _ => false end.
Definition policy_errors (manifest : dict value) : res (list string) :=
  let policy := dget_or "policy" (obj []) manifest in
  a ← vget "target_binaries_copied" policy;
  b ← vget "api_secrets_copied" policy;
  Ok (error_if (negb (is_false a) || negb (is_false b)) "backup policy must declare no target binaries and no API secrets").

(** [int(s, 8)] *)
Definition int_of_octal (s : string) : option Z :=
  let '(neg, s) := split_sign (str_strip s) in
  apply_sign neg
    (match s with
     | String "0" (String c s') => if Ascii.eqb (lower_char c) "o" then parse_digits 8 s' 0 false true else parse_digits 8 s 0 false false
     | _ => parse_digits 8 s 0 false false
     end).
Definition member_mode (item : dict value) : res Z :=
  match dget_or "mode" (VStr "0644") item with
  | VStr s => match int_of_octal s with Some m => Ok m | None => Raise (Exn ValueError "invalid literal for int() with base 8") end
  | _ => Raise (Exn TypeError "int() can't convert non-string with explicit base")
  end.
(** [os.chmod]: the mode is a C integer, of which the permissions are kept. *)
Definition chmod (m : Z) : res Z := if (- 2147483648 <=? m) && (m <=? 2147483647) then Ok (Z.land m 4095) else Raise (Exn OverflowError "signed integer is out of range").
Definition extract_member (ms : list member) (expected : dict (dict value)) (t : tree) (name : string) : res tree :=
  data ← read_member ms name;
  p ← safe_member name;
  t ← mkdir_parent p t;
  item ← dindex name expected;
  t ← write_file p (fresh_copy data) t;
  mode ← member_mode item; mode ← chmod mode;
  write_file p (data, mode) t.

(** Inside the archive: the manifest, the names of the other members, the declared files, the errors. *)
Record listing := Listing { l_manifest : dict value; l_actual : list string; l_expected : dict (dict value); l_errors : list string }.
Definition read_listing (ms : list member) : res listing :=
  _ ← guard_app (Z.of_nat (length (List.filter (fun m => String.eqb (m_name m) BACKUP_MANIFEST) ms)) =? 1) "backup must contain exactly one BACKUP-MANIFEST.json";
  _ ← res_map check_member ms;
  text ← read_member ms BACKUP_MANIFEST;
  doc ← loads text;
  schema ← vget "schema" doc;
  match doc with
  | VDict manifest =>
      files ← viter (dget_or "files" (VList []) manifest);
      '(expected, all_str) ← res_fold add_expected ([], true) files;
      let actual := List.filter (fun n => negb (String.eqb n BACKUP_MANIFEST)) (remove_dups (m_name <$> ms)) in
      _ ← (if all_str : bool then Ok tt else Raise (Exn TypeError "'<' not supported, or sequence item: expected str instance"));
      checked ← res_map (member_errors ms expected) (py_sorted id (both actual (dkeys expected)));
      policy ← policy_errors manifest;
      Ok (Listing manifest actual expected
           (error_if (negb (eq_str schema BACKUP_SCHEMA)) ("schema must be " +:+ BACKUP_SCHEMA) ++
            list_error "missing members: " (minus (dkeys expected) actual) ++ list_error "unexpected members: " (minus actual (dkeys expected)) ++
            concat checked ++ policy))
  | _ => no_attr doc "get"
  end.
Definition read_archive (opened : res (list member)) (extract : bool) : res (listing * tree) :=
  ms ← opened;
  l ← read_listing ms;
  t ← (if extract && match l_errors l with [] => true | _ => false end
       then res_fold (extract_member ms (l_expected l)) ∅ (f_set pf (l_actual l)) else Ok ∅);
  Ok (l, t).

(** After extraction: the databases, and the state of the control plane. *)
Definition database_errors (t : tree) (p : path) : res (list string) :=
  match file_at t p with
  | None => Ok []
  | Some (data, _) =>
      match f_integrity pf data with
      | Ok ok => Ok (error_if (negb ok) ("SQLite integrity failed: " +:+ as_posix p))
      | Raise e => if handled [SqlError] e then Ok ["SQLite open failed " +:+ as_posix p +:+ ": " +:+ exn_msg e] else Raise e
      end
  end.
Definition control_errors (t : tree) : res (list string) :=
  match file_at t ["state"; "control"; "control.json"] with
  | None => Ok []
  | Some (text, _) =>
      match (doc ← loads text; vget "schema" doc) with
      | Ok schema => Ok (error_if (negb (eq_str schema "ppc-lab-control-v1")) "restored control.json has unsupported schema")
      | Raise e => if handled [OSError; JSONDecodeError] e then Ok ["restored control.json is invalid JSON"] else Raise e
      end
  end.
Definition checked_archive (opened : res (list member)) (extract : bool) : res (listing * tree) :=
  match read_archive opened extract with
  | Raise e => if handled [OSError; JSONDecodeError; KeyError; ValueError] e then app_error ("cannot verify backup: " +:+ exn_msg e) else Raise e
  | r => r
  end.
Definition read_and_verify (opened : res (list member)) (extract : bool) : res (dict value * list string * tree) :=
  '(l, t) ← checked_archive opened extract;
  match l_errors l with
  | [] =>
      if extract then
        a ← database_errors t ["state"; "evidence"; "evidence.sqlite3"];
        b ← database_errors t ["state"; "knowledge"; "knowledge.sqlite3"];
        c ← control_errors t;
        Ok (l_manifest l, a ++ b ++ c, t)
      else Ok (l_manifest l, [], t)
  | errors => Ok (l_manifest l, errors, t)
  end.

(** ** Restoring *)

(** The destination: its components, what was moved aside by the name of the safety directory, the
    deployment metadata written elsewhere; and the number of operations that succeed before one fails,
    when one does. *)
Record target := Target { g_components : dict tree; g_aside : dict (dict tree); g_deployment : option string; g_faults : option nat }.
Abbreviation RM := (M target).

(** An operation on the components, the directories moved aside and the metadata. *)
Definition attempt (op : dict tree -> dict (dict tree) -> res (dict tree * dict (dict tree))) : RM unit := fun w =>
  match g_faults w with
  | Some O => (Raise (Exn OSError "I/O error"), Target (g_components w) (g_aside w) (g_deployment w) None)
  | n => match op (g_components w) (g_aside w) with
         | Ok (c, a) => (Ok tt, Target c a (g_deployment w) (pred <$> n))
         | Raise e => (Raise e, Target (g_components w) (g_aside w) (g_deployment w) (pred <$> n))
         end
  end.
(** An operation that changes nothing of this, such as [mkdir] of a directory that may be there. *)
Definition attempt_nothing : RM unit := attempt (fun c a => Ok (c, a)).

(** [d] below a tree, and a tree below [d]. *)
Definition strip_dir (d : path) (kn : path * node) : option (path * node) :=
  if bool_decide (take (length d) (fst kn) = d) then Some (drop (length d) (fst kn), snd kn) else None.
Definition subtree (d : path) (t : tree) : tree := list_to_map (omap (strip_dir d) (map_to_list t)).
Definition nested (c : string) (t : tree) : tree := list_to_map ((fun kn => (c :: fst kn, snd kn)) <$> map_to_list t).
Definition tree_is_dir (t : tree) : bool := match t !! [] with Some Dir => true | _ => false end.

(** [shutil.move] of a directory of the same device to the name [c]: into what has this name. *)
Definition place (c : string) (t : tree) (comps : dict tree) : res (dict tree) :=
  match dget c comps with
  | None => Ok (dset c t comps)
  | Some t0 =>
      if tree_is_dir t0 then
        match t0 !! [c] with
        | None => Ok (dset c (t0 ∪ nested c t) comps)
        | Some _ => os_error ("Destination path already exists: " +:+ c)
        end
      else if tree_is_dir t then os_error ("File exists: " +:+ c) else Ok (dset c t comps)
  end.

Definition set_aside (safety c : string) : RM unit :=
  attempt (fun comps aside =>
    match dget c comps with
    | Some t => Ok (ddel c comps, dset safety (dset c t (default [] (dget safety aside))) aside)
    | None => Raise (Exn FileNotFoundError c)
    end).
Definition make_safety (safety : string) : RM unit :=
  attempt (fun comps aside => if dmem safety aside then os_error ("File exists: " +:+ safety) else Ok (comps, dset safety [] aside)).

(** [shutil.copytree] goes on after an entry that fails, and fails at the end. *)
Definition copy_node (c : string) (kn : path * node) : RM unit :=
  attempt (fun comps aside =>
    match dget c comps with
    | Some t => match t !! removelast (fst kn) with
                | Some Dir => Ok (dset c (<[fst kn := snd kn]> t) comps, aside)
                | _ => Raise (Exn FileNotFoundError (as_posix (fst kn)))
                end
    | None => Raise (Exn FileNotFoundError c)
    end).
Definition try_copy (c : string) (failed : bool) (kn : path * node) : RM bool :=
  catch [OSError] (_ ← copy_node c kn; mret failed) (fun _ => mret true).
Definition copy_tree (c : string) (t : tree) : RM unit :=
  _ ← attempt (fun comps aside => match dget c comps with None => Ok (dset c {[ [] := Dir ]} comps, aside) | Some _ => os_error ("File exists: " +:+ c) end);
  failed ← m_fold (try_copy c) false (py_sorted (fun kn => parts_key (fst kn)) (List.filter (fun kn => negb (bool_decide (fst kn = []))) (map_to_list t)));
  if failed : bool then throw OSError "copytree" else mret tt.
(** [shutil.move] out of the temporary directory *)
Definition move_in (c : string) (t : tree) : RM unit :=
  if f_same_device pf then attempt (fun comps aside => comps ← place c t comps; Ok (comps, aside))
  else if tree_is_dir t then copy_tree c t
  else attempt (fun comps aside => comps ← place c t comps; Ok (comps, aside)).

(** One component, when it is in the staging directory and was not moved out of it before; with the names
    installed so far. *)
Definition install (stage : tree) (c : string) (installed : list string) : RM (list string) :=
  match stage !! ["state"; c] with
  | None => mret installed
  | Some _ =>
      if existsb (String.eqb c) installed then mret installed
      else _ ← move_in c (subtree ["state"; c] stage); mret (installed ++ [c])
  end.
Definition write_deployment (data : string) : RM unit :=
  _ ← attempt_nothing;
  _ ← attempt_nothing;
  _ ← modify (fun w => Target (g_components w) (g_aside w) (Some data) (g_faults w));
  attempt_nothing.
Definition place_deployment (stage : tree) (out : bool) : RM unit :=
  if out then match file_at stage DEPLOYMENT with Some (data, _) => write_deployment data | None => mret tt end else mret tt.

Definition take_out (c : string) : RM unit :=
  w ← gets id; if dmem c (g_components w) then attempt (fun comps aside => Ok (ddel c comps, aside)) else mret tt.
Definition put_back (safety c : string) : RM unit :=
  w ← gets id;
  match t ← dget safety (g_aside w); dget c t with
  | Some t => attempt (fun comps aside => comps ← place c t comps; Ok (comps, dset safety (ddel c (default [] (dget safety aside))) aside))
  | None => mret tt
  end.

(** The [try] block of [restore_backup], and its handler, which knows what was installed before the
    exception: the names are in a list that both share. *)
Fixpoint install_all (stage : tree) (components installed : list string) (handler : list string -> RM unit) : RM (list string) :=
  match components with
  | [] => mret installed
  | c :: components =>
      installed ← guarded (install stage c installed) (handler installed);
      install_all stage components installed handler
  end.
Definition undo (safety : string) (existing installed : list string) : RM unit :=
  _ ← m_iter take_out installed; m_iter (put_back safety) existing.

(** [[c for c in manifest.get("components", []) if c in ALLOWED_COMPONENTS]] *)
Definition restorable (manifest : dict value) : res (list string) :=
  names ← viter (dget_or "components" (VList []) manifest);
  Ok (List.filter (fun c => existsb (String.eqb c) ALLOWED_COMPONENTS) (omap (fun v => match v with VStr s => Some s | _ => None end) names)).
Definition set_all_aside (safety : string) (existing : list string) : RM unit :=
  match existing with [] => mret tt | _ => _ ← make_safety safety; m_iter (set_aside safety) existing end.
Definition restore_backup (opened : res (list member)) (safety : string) (force out : bool) : RM (dict value * list string * list string) :=
  '(manifest, errors, stage) ← lift (read_and_verify opened true);
  _ ← lift (guard_app (match errors with [] => true | _ => false end) ("backup verification failed: " +:+ str_join "; " errors));
  components ← lift (restorable manifest);
  _ ← lift (guard_app (match components with [] => false | _ => true end) "backup contains no restorable components");
  w ← gets id;
  let existing := List.filter (fun c => dmem c (g_components w)) components in
  _ ← lift (guard_app (match existing with [] => true | _ => force end) ("destination already contains state: " +:+ str_join ", " existing +:+ "; use --force"));
  _ ← attempt_nothing;
  _ ← set_all_aside safety existing;
  installed ← install_all stage components [] (undo safety existing);
  _ ← guarded (place_deployment stage out) (undo safety existing installed);
  mret (manifest, installed, existing).

(** ** Commands *)

Inductive backup_command :=
  | Create (cmake : res string) (now : string) (st : state_root) (allow_live : bool) (deployment : option (res value))
  | Verify (archive : string) (opened : res (list member))
  | Inspect (archive : string) (opened : res (list member))
  | RestoreTo (archive : string) (opened : res (list member)) (safety : string) (force out : bool).

Definition report (operation : string) (ok : bool) (rest : dict value) : dict value :=
  [("schema", VStr REPORT_SCHEMA); ("operation", VStr operation); ("ok", VBool ok)] ++ rest.
Definition verify_report (operation archive : string) (manifest : dict value) (errors : list string) : dict value :=
  report operation (match errors with [] => true | _ => false end)
    [("archive", VStr archive); ("manifest", obj manifest); ("errors", VList (VStr <$> errors))].
(** The report, without the digest of an archive, and the archive that was written. *)
Definition execute (c : backup_command) : RM (dict value * option (list member)) :=
  match c with
  | Create cmake now st allow_live deployment =>
      '(manifest, ms) ← lift (create_backup cmake now st allow_live deployment);
      mret (report "create" true [("manifest", obj manifest)], Some ms)
  | Verify archive opened =>
      '(manifest, errors, _) ← lift (read_and_verify opened true); mret (verify_report "verify" archive manifest errors, None)
  | Inspect archive opened =>
      '(manifest, errors, _) ← lift (read_and_verify opened false); mret (verify_report "inspect" archive manifest errors, None)
  | RestoreTo archive opened safety force out =>
      '(_, installed, existing) ← restore_backup opened safety force out;
      mret (report "restore" true [("archive", VStr archive); ("components", VList (VStr <$> installed));
              ("pre_restore", match existing with [] => VNone | _ => VStr safety end); ("target_binaries_copied", VBool false)], None)
  end.
(** The exit code; an exception of another class is a traceback. *)
Definition main (c : backup_command) : RM (Z * option (list member)) :=
  catch [AppError; OSError; ValueError; JSONDecodeError; SqlError]
    ('(doc, ms) ← execute c; mret (if py_bool (dget_n "ok" doc) then 0 else 1, ms)) (fun _ => mret (2, None)).
End platform.
