(* ===== verification/BackupFacts.v ===== *)
(** * Facts about backups

    An archive made of a listing verifies and extracts to exactly that listing; what a backup collects
    is such a listing; and what the parts of a restore leave. *)
From stdpp Require Import gmap.
From Stdlib Require Import Ascii Sorting.Sorted.
From S2P Require Import Members UpgradeFacts.
From S2P Require Import Backup.

Lemma remove_dups_id (l : list string) : NoDup l -> remove_dups l = l.
Proof. induction 1 as [|x l Hx _ IH]; [done|]. cbn. case_decide as H; [done|]. by rewrite IH. Qed.
Lemma minus_nil a b : (forall x, x ∈ a -> x ∈ b) -> minus a b = [].
Proof.
  intros H. unfold minus. induction a as [|x a IH]; [done|]. cbn [List.filter]. assert (Hx : existsb (String.eqb x) b = true).
  { apply existsb_exists. exists x. rewrite String.eqb_refl. split; [|done]. apply list_elem_of_In, H. by left. }
  rewrite Hx. cbn [negb]. apply IH. intros y Hy. apply H. by right.
Qed.
Lemma elem_of_both x a b : x ∈ both a b <-> x ∈ a /\ x ∈ b.
Proof.
  unfold both. rewrite list_elem_of_In, List.filter_In, <- list_elem_of_In, existsb_exists. split.
  - intros [Ha (y&Hy&->%String.eqb_eq)]. split; [done|]. by apply list_elem_of_In.
  - intros [Ha Hb]. split; [done|]. exists x. rewrite String.eqb_refl. by rewrite <- list_elem_of_In.
Qed.

(** ** Modes *)

Definition in_mode (m : Z) : Prop := 0 <= m < 4096.
Lemma octal_ok m : in_mode m -> int_of_octal (octal m) = Some m /\ ascii_string (octal m) = true.
Proof.
  intros Hm. assert (H : forallb (fun n => bool_decide (int_of_octal (octal (Z.of_nat n)) = Some (Z.of_nat n)) && ascii_string (octal (Z.of_nat n))) (seq 0 4096) = true)
    by (vm_compute; reflexivity).
  rewrite forallb_forall in H. unfold in_mode in Hm. specialize (H (Z.to_nat m)). rewrite Z2Nat.id in H by lia.
  apply andb_true_iff in H as [H1%bool_decide_eq_true H2]; [done|]. apply List.in_seq. lia.
Qed.
Lemma land_mode m : in_mode (Z.land m 4095).
Proof. unfold in_mode. change 4095 with (Z.ones 12). rewrite Z.land_ones by lia. apply Z.mod_pos_bound. lia. Qed.
Lemma land_land m : Z.land (Z.land m 4095) 4095 = Z.land m 4095.
Proof. by rewrite <- Z.land_assoc. Qed.
Lemma chmod_ok m : in_mode m -> chmod m = Ok m.
Proof.
  unfold in_mode. intros Hm. unfold chmod. replace ((_ <=? m) && _) with true by (symmetry; apply andb_true_iff; split; apply Z.leb_le; lia).
  f_equal. change 4095 with (Z.ones 12). rewrite Z.land_ones by lia. apply Z.mod_small. lia.
Qed.
Lemma not_symlink m : Z.land (Z.lor regular (Z.land m 4095)) 61440 =? 40960 = false.
Proof.
  rewrite Z.land_lor_distr_l, <- Z.land_assoc. change (Z.land 4095 61440) with 0. rewrite Z.land_0_r. reflexivity.
Qed.

(** ** The archive of a listing *)

Section archive.
Context (pf : platform) (L : entries) (version now : string) (components : list string) (record : value) (live : bool).
(** Files below the permitted roots, none of which is in the way of another. *)
Definition good_file (e : path * file) : Prop := fst e <> [] /\ Forall plain_name (fst e) /\ permitted (as_posix (fst e)) = true.
Hypothesis L_good : Forall good_file L.
Hypothesis L_distinct : NoDup L.*1.
Hypothesis L_apart : forall p q, p ∈ L.*1 -> q ∈ L.*1 -> p ∉ ancestors q.
Hypothesis set_order : forall l, f_set pf l ≡ₚ l.
Hypothesis version_ascii : ascii_string version = true.
Hypothesis now_ascii : ascii_string now = true.
Hypothesis components_ascii : Forall (fun c => ascii_string c = true) components.
Hypothesis record_ok : json_ok record = true.

Definition manifest : dict value := backup_manifest version now components L record live.
Definition ms : list member := write_archive L (obj manifest).
Definition names : list string := as_posix <$> L.*1.

(** What is read back. *)
Definition item_fields (e : path * file) : dict value :=
  [("mode", VStr (octal (Z.land (snd (snd e)) 4095))); ("path", VStr (as_posix (fst e))); ("sha256", VStr (sha256_hex (fst (snd e))));
   ("size", VInt (Z.of_nat (String.length (fst (snd e)))))].
Definition manifest_read : dict value :=
  [("backup_api", VInt 1); ("components", VList (VStr <$> components)); ("created_at", VStr now); ("deployment", sort_keys record);
   ("files", VList (sort_keys <$> (inventory_item <$> L))); ("policy", sort_keys (obj (backup_policy live))); ("ppc_lab_version", VStr version);
   ("schema", VStr BACKUP_SCHEMA)].
Lemma sorted_item e : sort_keys (inventory_item e) = obj (item_fields e).
Proof. done. Qed.
Lemma sorted_manifest_read : sort_keys (obj manifest) = obj manifest_read.
Proof.
  assert (H : sort_keys <$> (VStr <$> components) = VStr <$> components) by (by rewrite <- list_fmap_compose).
  transitivity (obj [("backup_api", VInt 1); ("components", VList (sort_keys <$> (VStr <$> components))); ("created_at", VStr now); ("deployment", sort_keys record);
   ("files", VList (sort_keys <$> (inventory_item <$> L))); ("policy", sort_keys (obj (backup_policy live))); ("ppc_lab_version", VStr version);
   ("schema", VStr BACKUP_SCHEMA)]); [reflexivity|]. by rewrite H.
Qed.

Lemma item_json_ok e : good_file e -> json_ok (inventory_item e) = true.
Proof.
  intros (_&Hp&_). unfold json_ok, inventory_item. cbn [plain distinct_keys forallb fst snd]. unfold as_posix.
  rewrite (join_ascii _ Hp), sha256_ascii, (proj2 (octal_ok _ (land_mode _))). done.
Qed.
Lemma all_json_ok {A} (f : A -> value) (l : list A) : Forall (fun x => json_ok (f x) = true) l ->
  forallb plain (f <$> l) = true /\ forallb distinct_keys (f <$> l) = true.
Proof.
  induction 1 as [|x l Hx _ [IH1 IH2]]; [done|]. unfold json_ok in Hx. apply andb_true_iff in Hx as [H1 H2]. cbn [forallb fmap list_fmap].
  by rewrite H1, H2, IH1, IH2.
Qed.
Lemma manifest_json_ok : json_ok (obj manifest) = true.
Proof.
  destruct (all_json_ok inventory_item L) as [H1 H2]; [eapply Forall_impl; [exact L_good|apply item_json_ok]|].
  destruct (all_json_ok VStr components) as [H3 H4].
  { eapply Forall_impl; [exact components_ascii|]. intros c Hc. unfold json_ok. cbn [plain distinct_keys]. by rewrite Hc. }
  assert (H := record_ok). unfold json_ok in H. apply andb_true_iff in H as [H5 H6].
  unfold json_ok, manifest, backup_manifest. cbn [plain distinct_keys forallb fst snd].
  rewrite H1, H2, H3, H4, H5, H6, version_ascii, now_ascii. by destruct live.
Qed.
Lemma read_manifest : loads (json_text (obj manifest)) = Ok (obj manifest_read).
Proof. unfold json_text. by rewrite loads_indent, sorted_manifest_read by apply json_ok_sort_keys, manifest_json_ok. Qed.

(** *** Names *)

Lemma good_safe e : good_file e -> safe_member (as_posix (fst e)) = Ok (fst e).
Proof.
  intros (Hn&Hp&_). unfold safe_member, as_posix. rewrite (parts_join _ Hp), (join_relative _ Hn Hp).
  assert (Hd : existsb (String.eqb "..") (fst e) = false).
  { clear Hn. induction Hp as [|x l (_&_&Hx&_) _ IH]; [done|]. cbn [existsb]. rewrite IH. by destruct (String.eqb_spec ".." x) as [<-|]. }
  rewrite Hd. by destruct (fst e).
Qed.
Lemma good_not_manifest e : good_file e -> as_posix (fst e) <> BACKUP_MANIFEST.
Proof. intros (_&_&Hp) Heq. rewrite Heq in Hp. discriminate Hp. Qed.
Lemma names_ms : m_name <$> ms = names ++ [BACKUP_MANIFEST].
Proof. unfold ms, write_archive, names. rewrite fmap_app, <- !list_fmap_compose. done. Qed.
Lemma names_distinct : NoDup names.
Proof.
  unfold names. apply NoDup_fmap_2_strong; [|done]. intros p q Hp Hq. rewrite Forall_forall in L_good.
  apply list_elem_of_fmap in Hp as (e&->&He), Hq as (e'&->&He'). destruct (L_good e He) as (_&H1&_), (L_good e' He') as (_&H2&_). by apply slash_join_inj.
Qed.
Lemma in_names n : n ∈ names -> exists e, e ∈ L /\ n = as_posix (fst e).
Proof. unfold names. intros (p&->&(e&->&He)%list_elem_of_fmap)%list_elem_of_fmap. by exists e. Qed.
Lemma not_manifest : BACKUP_MANIFEST ∉ names.
Proof. intros (e&He&Hn)%in_names. rewrite Forall_forall in L_good. by apply (good_not_manifest e (L_good e He)). Qed.
Lemma ms_distinct : NoDup (m_name <$> ms).
Proof.
  rewrite names_ms. apply NoDup_app. split_and!; [apply names_distinct| |apply NoDup_singleton]. intros n Hn ->%list_elem_of_singleton. by apply not_manifest.
Qed.

(** *** Reading *)

Lemma read_one m : m ∈ ms -> read_member ms (m_name m) = Ok (m_data m).
Proof. intros Hm. unfold read_member. by rewrite (find_last m_name ms m) by (apply ms_distinct || done). Qed.
Lemma read_entry e : e ∈ L -> read_member ms (as_posix (fst e)) = Ok (fst (snd e)).
Proof. intros He. apply (read_one (archived e)). unfold ms, write_archive. apply elem_of_app. left. apply list_elem_of_fmap. by exists e. Qed.
Lemma read_manifest_member : read_member ms BACKUP_MANIFEST = Ok (json_text (obj manifest)).
Proof. apply (read_one (Member BACKUP_MANIFEST (json_text (obj manifest)) (Z.lor regular 384))). unfold ms, write_archive. apply elem_of_app. right. by apply list_elem_of_singleton. Qed.

Lemma one_manifest : length (List.filter (fun m => String.eqb (m_name m) BACKUP_MANIFEST) ms) = 1%nat.
Proof.
  unfold ms, write_archive. rewrite List.filter_app, length_app. cbn [List.filter m_name]. rewrite String.eqb_refl. cbn [length].
  assert (H : List.filter (fun m => String.eqb (m_name m) BACKUP_MANIFEST) (archived <$> L) = []); [|by rewrite H].
  apply filter_nothing. intros m (e&->&He)%list_elem_of_fmap. rewrite Forall_forall in L_good. apply String.eqb_neq, good_not_manifest, L_good, He.
Qed.
Lemma members_fine : exists k, res_map check_member ms = Ok k.
Proof.
  assert (H : Forall (fun m => check_member m = Ok tt) ms).
  { unfold ms, write_archive. apply Forall_app. split; [|apply Forall_singleton; reflexivity]. apply Forall_forall. intros m (e&->&He)%list_elem_of_fmap.
    rewrite Forall_forall in L_good. pose proof (L_good e He) as Hg. unfold check_member. cbn [archived m_name]. rewrite (good_safe e Hg).
    cbn [mbind res_bind]. unfold is_symlink. cbn [m_attr archived]. rewrite not_symlink. 
    assert (Hd : is_dir_name (as_posix (fst e)) = false) by (destruct Hg as (Hn&Hp&_); exact (join_end _ Hn Hp)). rewrite Hd. reflexivity. }
  clear - H. induction H as [|m l Hm _ [k IH]]; [by exists []|]. exists (tt :: k). cbn [res_map]. by rewrite Hm, IH.
Qed.

Lemma entry_checked e : e ∈ L -> member_errors ms ((fun e => (as_posix (fst e), item_fields e)) <$> L) (as_posix (fst e)) = Ok [].
Proof.
  intros He. unfold member_errors. rewrite read_entry by done. cbn [mbind res_bind].
  assert (Hd : dget (as_posix (fst e)) ((fun e => (as_posix (fst e), item_fields e)) <$> L) = Some (item_fields e)).
  { apply dget_wf; [|by apply list_elem_of_fmap; exists e]. unfold dwf, dkeys. rewrite <- list_fmap_compose. pose proof names_distinct as H.
    unfold names in H. by rewrite <- list_fmap_compose in H. }
  unfold dindex. rewrite Hd. cbn [mbind res_bind].
  change (dget_n "size" (item_fields e)) with (VInt (Z.of_nat (String.length (fst (snd e))))).
  change (dget_n "sha256" (item_fields e)) with (VStr (sha256_hex (fst (snd e)))).
  rewrite Forall_forall in L_good. destruct (L_good e He) as (_&_&Hp). rewrite Hp.
  cbn [py_eq num_eq]. rewrite Z.eqb_refl. unfold eq_str. cbn [py_eq]. by rewrite String.eqb_refl.
Qed.

Lemma expected_read acc l : (forall e, e ∈ l -> e ∈ L) -> NoDup (dkeys acc ++ ((fun e => as_posix (fst e)) <$> l)) ->
  res_fold add_expected (acc, true) (sort_keys <$> (inventory_item <$> l)) = Ok (acc ++ ((fun e => (as_posix (fst e), item_fields e)) <$> l), true).
Proof.
  revert acc. induction l as [|e l IH]; intros acc Hl Hn; [by rewrite app_nil_r|]. cbn [fmap list_fmap res_fold]. rewrite sorted_item.
  change (add_expected (acc, true) (obj (item_fields e))) with (Ok (dset (as_posix (fst e)) (item_fields e) acc, true)). cbn [mbind res_bind].
  rewrite dkeys_dset_notin by (apply NoDup_app in Hn as (_&Hn&_); intros Hin; apply (Hn _ Hin); by left).
  rewrite IH; [by rewrite <- app_assoc|by intros; apply Hl; right|].
  unfold dkeys in *. rewrite fmap_app. cbn [fmap list_fmap fst]. by rewrite <- app_assoc.
Qed.

Lemma listing_read : read_listing ms = Ok (Listing manifest_read names ((fun e => (as_posix (fst e), item_fields e)) <$> L) []).
Proof.
  unfold read_listing. rewrite one_manifest. change (Z.of_nat 1 =? 1) with true. cbn [guard_app mbind res_bind].
  destruct members_fine as [k ->]. cbn [mbind res_bind]. rewrite read_manifest_member. cbn [mbind res_bind]. rewrite read_manifest. cbn [mbind res_bind].
  change (vget "schema" (obj manifest_read)) with (Ok (VStr BACKUP_SCHEMA)). cbn [mbind res_bind].
  change (dget_or "files" (VList []) manifest_read) with (VList (sort_keys <$> (inventory_item <$> L))). cbn [viter mbind res_bind].
  assert (Hn := names_distinct). unfold names in Hn. rewrite <- list_fmap_compose in Hn.
  rewrite (expected_read [] L) by done. cbn [mbind res_bind app].
  set (expected := (fun e => (as_posix (fst e), item_fields e)) <$> L).
  assert (Ha : List.filter (fun n => negb (String.eqb n BACKUP_MANIFEST)) (remove_dups (m_name <$> ms)) = names).
  { rewrite remove_dups_id by apply ms_distinct. rewrite names_ms, List.filter_app. cbn [List.filter]. rewrite String.eqb_refl. cbn [negb]. rewrite app_nil_r.
    apply filter_everything. intros n Hn'. apply negb_true_iff, String.eqb_neq. intros ->. by apply not_manifest. }
  rewrite Ha. assert (Hk : dkeys expected = names).
  { unfold expected, dkeys, names. by rewrite <- !list_fmap_compose. }
  rewrite Hk. destruct (res_map_nil (member_errors ms expected) (py_sorted id (both names names))) as (ys&->&Hys).
  { intros n Hn'. rewrite elem_of_py_sorted, elem_of_both in Hn'. destruct Hn' as [(e&He&->)%in_names _]. by apply entry_checked. }
  cbn [mbind res_bind]. assert (Hp : policy_errors manifest_read = Ok []) by (by destruct live). rewrite Hp. cbn [mbind res_bind].
  rewrite !minus_nil by done. rewrite Hys. reflexivity.
Qed.

(** *** Extraction *)

Definition expected : dict (dict value) := (fun e => (as_posix (fst e), item_fields e)) <$> L.
Definition kept_mode (_ : option file) (m : Z) : Z := m.
(** What an entry is after it went through the archive. *)
Definition through (e : path * file) : path * file := (fst e, (fst (snd e), Z.land (snd (snd e)) 4095)).

Lemma expected_item e : e ∈ L -> dindex (as_posix (fst e)) expected = Ok (item_fields e).
Proof.
  intros He. unfold dindex. rewrite (dget_wf _ (item_fields e)); [done| |by apply list_elem_of_fmap; exists e].
  unfold dwf, dkeys, expected. rewrite <- list_fmap_compose. pose proof names_distinct as H. unfold names in H. by rewrite <- list_fmap_compose in H.
Qed.
Lemma extract_step e t : e ∈ L -> extract_member pf ms expected t (as_posix (fst e)) = put_entry kept_mode t (through e).
Proof.
  intros He. unfold extract_member, put_entry, through. rewrite read_entry by done. cbn [mbind res_bind].
  rewrite good_safe by (by eapply Forall_forall). cbn [mbind res_bind]. destruct (mkdir_parent (fst e) t) as [t1|]; [|done]. cbn [mbind res_bind].
  rewrite expected_item by done. cbn [mbind res_bind].
  assert (Hm : member_mode (item_fields e) = Ok (Z.land (snd (snd e)) 4095)).
  { unfold member_mode. change (dget_or "mode" (VStr "0644") (item_fields e)) with (VStr (octal (Z.land (snd (snd e)) 4095))). cbv iota.
    by rewrite (proj1 (octal_ok _ (land_mode _))). }
  rewrite Hm. cbn [mbind res_bind]. rewrite chmod_ok by apply land_mode. unfold kept_mode.
  assert (Hw : forall f g, write_file (fst e) f (<[fst e := File g]> t1) = Ok (<[fst e := File f]> t1)).
  { intros f g. unfold write_file. rewrite lookup_insert_eq. by rewrite insert_insert_eq. }
  unfold write_file in *. destruct (t1 !! fst e) as [[|f]|] eqn:Et; cbn [mbind res_bind];
    [reflexivity|apply Hw..].
Qed.

Lemma extract_all l t : (forall e, e ∈ l -> e ∈ L) ->
  res_fold (extract_member pf ms expected) t ((fun e => as_posix (fst e)) <$> l) = res_fold (put_entry kept_mode) t (through <$> l).
Proof.
  revert t. induction l as [|e l IH]; intros t Hl; [done|]. cbn [fmap list_fmap res_fold]. rewrite extract_step by (by apply Hl; left).
  destruct (put_entry kept_mode t (through e)); [|done]. cbn [mbind res_bind]. apply IH. intros x Hx. apply Hl. by right.
Qed.

(** The archive extracts to the listing. *)
Definition extracted (t : tree) : Prop :=
  wf_tree t /\ (forall p d m, (p, (d, m)) ∈ L -> file_at t p = Some (d, Z.land m 4095)) /\ (forall p, p ∉ L.*1 -> file_at t p = None) /\
  (forall p, t !! p = Some Dir -> exists q, q ∈ L.*1 /\ p ∈ ancestors q).

Lemma archive_extracts : exists t, read_archive pf (Ok ms) true = Ok (Listing manifest_read names expected [], t) /\ extracted t.
Proof.
  unfold read_archive. cbn [mbind res_bind]. rewrite listing_read. fold expected. cbn [mbind res_bind l_errors l_actual l_expected andb].
  pose proof (set_order names) as Hp. unfold names in Hp at 2. rewrite <- list_fmap_compose in Hp. apply Permutation_map_inv in Hp as (l&->&Hl).
  change (map _ l) with ((fun e : path * file => as_posix (fst e)) <$> l).
  assert (Hin : forall e, e ∈ l -> e ∈ L) by (intros e; by rewrite <- Hl).
  rewrite (extract_all l ∅) by done. change (res_fold (put_entry kept_mode) ∅ (through <$> l)) with (put_entries kept_mode (through <$> l)).
  assert (Hk : (through <$> l).*1 = l.*1) by (by rewrite <- list_fmap_compose).
  assert (Hkl : forall p, p ∈ l.*1 <-> p ∈ L.*1) by (intros p; by rewrite Hl).
  destruct (put_exact kept_mode (through <$> l)) as (t&Ht&H1&H2&H3).
  - rewrite Hk. by rewrite <- Hl.
  - rewrite Hk. intros p q. rewrite !Hkl. apply L_apart.
  - rewrite Ht. cbn [mbind res_bind]. exists t. split; [done|]. split; [by eapply put_wf|]. split; [|split].
    + intros p d m Hpm. apply (H1 p d). apply list_elem_of_fmap. exists (p, (d, m)). split; [done|]. by rewrite <- Hl.
    + intros p Hp. apply H2. by rewrite Hk, Hkl.
    + intros p Hd. apply H3 in Hd as (q&Hq&Ha). exists q. split; [|done]. by rewrite <- Hkl, <- Hk.
Qed.
End archive.

(** ** What is collected *)

Section collecting.
Context (pf : platform) (st : state_root) (deployment : option (res value)).

(** What a backup protects: the snapshots, the objects the evidence database names, the files of the
    control plane that are not left out, and the deployment metadata. *)
Inductive protected : path -> file -> Prop :=
| keep_evidence t db : dget "evidence" (s_components st) = Some t -> sqlite_snapshot pf t "evidence.sqlite3" = Ok db ->
    protected ["state"; "evidence"; "evidence.sqlite3"] (db, f_db_mode pf)
| keep_object t db digests digest data mode : dget "evidence" (s_components st) = Some t -> sqlite_snapshot pf t "evidence.sqlite3" = Ok db ->
    f_hashes pf db = Ok digests -> digest ∈ digests -> file_at t (object_path digest) = Some (data, mode) ->
    protected ("state" :: "evidence" :: object_path digest) (data, f_mode pf)
| keep_knowledge t db : dget "knowledge" (s_components st) = Some t -> sqlite_snapshot pf t "knowledge.sqlite3" = Ok db ->
    protected ["state"; "knowledge"; "knowledge.sqlite3"] (db, f_db_mode pf)
| keep_control t p data mode : dget "control" (s_components st) = Some t -> file_at t p = Some (data, mode) -> left_out p = false ->
    protected ("state" :: "control" :: p) (data, f_mode pf)
| keep_deployment doc : deployment = Some (Ok doc) -> protected DEPLOYMENT (json_text doc, f_mode pf).

(** Names that are plain, and directories above files. *)
Record sound_state : Prop := SoundState {
  so_control : forall t, dget "control" (s_components st) = Some t ->
    wf_tree t /\ forall p f, file_at t p = Some f -> p <> [] /\ Forall plain_name p;
  so_digests : forall t db digests, dget "evidence" (s_components st) = Some t -> sqlite_snapshot pf t "evidence.sqlite3" = Ok db ->
    f_hashes pf db = Ok digests -> Forall (fun d => plain_name (prefix_of 2 d) /\ plain_name (d +:+ ".json")) digests
}.
Hypothesis sound : sound_state.

Lemma protected_good p f : protected p f -> good_file (p, f).
Proof.
  intros Hp. unfold good_file. cbn [fst].
  assert (Hb : forall a b r, plain_name a -> plain_name b -> r <> [] -> Forall plain_name r -> Forall plain_name (a :: b :: r)) by (intros a b r Ha Hb _ Hr; apply Forall_cons_2; [exact Ha|apply Forall_cons_2; [exact Hb|exact Hr]]).
  destruct Hp as [t db Ht Hdb|t db ds d data mode Ht Hdb Hds Hd Hf|t db Ht Hdb|t p data mode Ht Hf Hl|doc Hdoc].
  - split; [done|]. split; [repeat constructor; done|reflexivity].
  - pose proof (so_digests sound t db ds Ht Hdb Hds) as H. rewrite Forall_forall in H. destruct (H d Hd) as [H1 H2].
    split; [done|]. split; [|reflexivity].
    repeat apply Forall_cons_2; [repeat split; done..|exact H1|exact H2|apply Forall_nil_2].
  - split; [done|]. split; [repeat constructor; done|reflexivity].
  - destruct (so_control sound t Ht) as [_ H]. destruct (H p _ Hf) as [H1 H2]. split; [done|]. split; [apply Hb; [repeat split; done|repeat split; done|exact H1|exact H2]|]. destruct p as [|x p]; [done|].
    change (as_posix _) with ("state/control/" +:+ str_join "/" (x :: p)). unfold permitted. rewrite startswith_append. by rewrite orb_true_r.
  - split; [done|]. split; [repeat constructor; done|reflexivity].
Qed.

Lemma protected_inj p f g : protected p f -> protected p g -> f = g.
Proof.
  intros Hp Hq. remember p as q eqn:Heq in Hq.
  destruct Hp as [t db Ht Hdb|t db ds d data mode Ht Hdb Hds Hd Hf|t db Ht Hdb|t p data mode Ht Hf Hl|doc Hdoc];
    destruct Hq as [t' db' Ht' Hdb'|t' db' ds' d' data' mode' Ht' Hdb' Hds' Hd' Hf'|t' db' Ht' Hdb'|t' p' data' mode' Ht' Hf' Hl'|doc' Hdoc']; try discriminate Heq; try congruence.
Qed.
Lemma protected_apart p q f g : protected p f -> protected q g -> p ∉ ancestors q.
Proof.
  intros Hp Hq (b&H1&H2&H3)%elem_of_ancestors.
  destruct Hp as [t db Ht Hdb|t db ds d data mode Ht Hdb Hds Hd Hf|t db Ht Hdb|t p data mode Ht Hf Hl|doc Hdoc];
    destruct Hq as [t' db' Ht' Hdb'|t' db' ds' d' data' mode' Ht' Hdb' Hds' Hd' Hf'|t' db' Ht' Hdb'|t' p' data' mode' Ht' Hf' Hl'|doc' Hdoc']; cbn in H3;
    try discriminate H3; try (by destruct b).
  injection H3 as ->. assert (t' = t) as -> by congruence. destruct (so_control sound t Ht) as [Hwf Hnames].
  apply file_at_Some in Hf'. assert (Hpa : p ∈ ancestors (p ++ b)).
  { apply elem_of_ancestors. exists b. destruct (Hnames p _ Hf) as [Hn _]. done. }
  pose proof (Hwf _ _ _ Hf' Hpa) as Hd. unfold file_at in Hf. by rewrite Hd in Hf.
Qed.
End collecting.

(** ** The staging directory *)

Lemma aset_elem {K V} `{EqDecision K} (k : K) (v : V) d x : NoDup d.*1 -> x ∈ aset k v d <-> x = (k, v) \/ (fst x <> k /\ x ∈ d).
Proof.
  induction d as [|[k' v'] d IH]; cbn [aset]; intros Hn.
  - rewrite list_elem_of_singleton. split; [by left|]. by intros [->|[_ H%elem_of_nil]].
  - apply NoDup_cons in Hn as [Hk Hn]. destruct (decide (k = k')) as [<-|Hne]; rewrite !elem_of_cons.
    + split; [intros [->|H]; [by left|right]|intros [->|[H1 [->|H2]]]; auto; by destruct H1].
      split; [|by right]. intros <-. destruct Hk. apply list_elem_of_fmap. by exists x.
    + rewrite IH by done. split; [intros [->|[->|[]]]; auto|intros [->|[H1 [->|H2]]]; auto].
Qed.
Lemma aset_keys {K V} `{EqDecision K} (k : K) (v : V) d x : x ∈ (aset k v d).*1 <-> x = k \/ x ∈ d.*1.
Proof.
  induction d as [|[k' v'] d IH]; cbn [aset]; [cbn; set_solver|]. destruct (decide (k = k')) as [<-|Hne]; rewrite !fmap_cons, !elem_of_cons; cbn [fst]; [tauto|].
  rewrite IH. tauto.
Qed.
Lemma aset_distinct {K V} `{EqDecision K} (k : K) (v : V) d : NoDup d.*1 -> NoDup (aset k v d).*1.
Proof.
  induction d as [|[k' v'] d IH]; cbn [aset]; [intros _; apply NoDup_singleton|]. intros [Hk Hn]%NoDup_cons. destruct (decide (k = k')) as [<-|Hne]; [by constructor|].
  rewrite fmap_cons. apply NoDup_cons. split; [|by apply IH]. cbn [fst]. rewrite aset_keys. by intros [->|?].
Qed.
Lemma staged_spec (l : entries) : (forall p f g, (p, f) ∈ l -> (p, g) ∈ l -> f = g) -> NoDup (staged l).*1 /\ forall e, e ∈ staged l <-> e ∈ l.
Proof.
  intros Hl. unfold staged. enough (H : forall l' d, l' ⊆ l -> d ⊆ l -> NoDup d.*1 ->
    NoDup (fold_left (fun d e => aset (fst e) (snd e) d) l' d).*1 /\ forall e, e ∈ fold_left (fun d e => aset (fst e) (snd e) d) l' d <-> e ∈ l' \/ e ∈ d).
  { destruct (H l [] ltac:(done) ltac:(set_solver)) as [H1 H2]; [constructor|]. split; [exact H1|]. intros e. rewrite H2, elem_of_nil. tauto. }
  induction l' as [|[p f] l' IH]; intros d Hl' Hd Hn; cbn [fold_left fst snd]; [split; [done|intros e; rewrite elem_of_nil; tauto]|].
  destruct (IH (aset p f d)) as [H1 H2]; [set_solver| |by apply aset_distinct|].
  - intros e. rewrite aset_elem by done. intros [->|[_ He]]; [apply Hl'; by left|by apply Hd].
  - split; [exact H1|]. intros e. rewrite H2, aset_elem, elem_of_cons by done. split; [tauto|]. intros [[->|He]|He]; auto.
    destruct (decide (fst e = p)) as [<-|Hne]; [|tauto]. right. left. destruct e as [q g]. f_equal. cbn in *. apply (Hl q); [by apply Hd|apply Hl'; by left].
Qed.

(** ** Collecting *)

Lemma snapshot_integrity pf t name db : sqlite_snapshot pf t name = Ok db -> f_integrity pf db = Ok true.
Proof.
  unfold sqlite_snapshot. destruct (file_at t [name]) as [[data mode]|]; [|done]. destruct (f_snapshot pf data) as [db'|e]; cbn [mbind res_bind].
  - destruct (f_integrity pf db') as [[]|e] eqn:E; cbn [mbind res_bind]; [intros [= <-]; exact E|done|]. by destruct (handled _ e).
  - by destruct (handled _ e).
Qed.
Lemma regular_files_spec links t files : regular_files links t = Ok files -> forall p, p ∈ files <-> (exists f, file_at t p = Some f) /\ left_out p = false.
Proof.
  unfold regular_files. destruct links; [|done]. intros [= <-] p. rewrite list_elem_of_In, List.filter_In, <- list_elem_of_In, andb_true_iff, negb_true_iff.
  unfold in_order. rewrite elem_of_py_sorted, elem_of_keys. unfold is_file, file_at. split.
  - intros (_&Hf&Hl). destruct (t !! p) as [[|f]|]; [done| |done]. split; [by exists f|done].
  - intros [[f Hf] Hl]. destruct (t !! p) as [[|g]|] eqn:E; [done| |done]. split; [by exists (File g)|done].
Qed.
Lemma component_spec st c f cs l : component_of st c f = Ok (cs, l) ->
  match dget c (s_components st) with Some t => cs = [c] /\ f t = Ok l | None => cs = [] /\ l = [] end.
Proof. unfold component_of. destruct (dget c (s_components st)) as [t|]; intros H; [|by inversion H]. inv_res. by simplify_eq. Qed.

Section create.
Context (pf : platform) (st : state_root) (allow_live : bool).

(** The control plane's state is one. *)
Definition control_ready (t : tree) : Prop := exists text mode doc schema, file_at t ["control.json"] = Some (text, mode) /\
  loads text = Ok doc /\ vget "schema" doc = Ok schema /\ eq_str schema "ppc-lab-control-v1" = true.

Lemma copy_control_spec links t l : copy_control pf links t allow_live = Ok l -> control_ready t /\
  forall e, e ∈ l <-> exists p data mode, file_at t p = Some (data, mode) /\ left_out p = false /\ e = ("state" :: "control" :: p, (data, f_mode pf)).
Proof.
  unfold copy_control. destruct (file_at t ["control.json"]) as [[text mode]|] eqn:Hc; [|done]. intros H. inv_res. split.
  - unfold read_control in *. destruct (loads text) as [doc|e] eqn:Hl; [|by destruct (handled _ e)].
    match goal with H : Ok _ = Ok _ |- _ => injection H as H; subst end. by eexists text, mode, _, _.
  - match goal with H : regular_files _ _ = Ok _ |- _ => pose proof (regular_files_spec _ _ _ H) as Hr end. intros e. subst.
    rewrite list_elem_of_omap. unfold control_copy, fresh_copy. split.
    + intros (p&Hp&He). apply Hr in Hp as [_ Hl]. destruct (file_at t p) as [[data m]|] eqn:E; [|done]. injection He as <-. by exists p, data, m.
    + intros (p&data&m&Hf&Hl&->). exists p. rewrite Hf. split; [|done]. apply Hr. split; [by exists (data, m)|done].
Qed.

Lemma evidence_spec t l : snapshot_evidence pf t = Ok l -> exists db digests, sqlite_snapshot pf t "evidence.sqlite3" = Ok db /\ f_hashes pf db = Ok digests /\
  forall e, e ∈ l <-> e = (["state"; "evidence"; "evidence.sqlite3"], (db, f_db_mode pf)) \/
    exists d data mode, d ∈ digests /\ file_at t (object_path d) = Some (data, mode) /\ e = ("state" :: "evidence" :: object_path d, (data, f_mode pf)).
Proof.
  unfold snapshot_evidence. intros H. apply res_bind_Ok in H as (db&Hdb&H). apply res_bind_Ok in H as (ds&Hds&H). apply res_bind_Ok in H as (objects&Ho&H).
  injection H as <-. exists db, ds. split; [done|]. split; [done|]. intros e. rewrite elem_of_cons. apply res_map_runs in Ho.
  assert (Hx : e ∈ objects <-> exists d, d ∈ ds /\ evidence_object pf t d = Ok e); [|rewrite Hx; clear Hx].
  { clear -Ho. induction Ho as [|d o ds os Hd _ IH]; [split; [by intros ?%elem_of_nil|by intros (d&?%elem_of_nil&_)]|]. rewrite elem_of_cons, IH. split.
    - intros [->|(d'&H1&H2)]; [exists d; split; [by left|done]|exists d'; split; [by right|done]].
    - intros (d'&[->|H1]%elem_of_cons&H2); [left; congruence|right; by exists d']. }
  unfold evidence_object, fresh_copy. split; (intros [->|H]; [by left|right]).
  - destruct H as (d&Hd&He). destruct (file_at t (object_path d)) as [[data m]|] eqn:E; [|done]. injection He as <-. by exists d, data, m.
  - destruct H as (d&data&m&Hd&Hf&->). exists d. by rewrite Hf.
Qed.

Lemma snapshot_spec components l : snapshot_state pf st allow_live = Ok (components, l) ->
  components = List.filter (fun c => dmem c (s_components st)) ALLOWED_COMPONENTS /\ components <> [] /\
  (forall t, dget "control" (s_components st) = Some t -> control_ready t) /\
  (forall t, dget "evidence" (s_components st) = Some t -> exists db, sqlite_snapshot pf t "evidence.sqlite3" = Ok db) /\
  (forall t, dget "knowledge" (s_components st) = Some t -> exists db, sqlite_snapshot pf t "knowledge.sqlite3" = Ok db) /\
  forall p f, (p, f) ∈ l <-> protected pf st None p f.
Proof.
  unfold snapshot_state. intros H. apply res_bind_Ok in H as ([ce le]&He%component_spec&H). apply res_bind_Ok in H as ([ck lk]&Hk%component_spec&H).
  apply res_bind_Ok in H as ([cc lc]&Hc%component_spec&H). cbn [fst snd] in H. apply res_bind_Ok in H as (u&Hg%guard_app_Ok&H). injection H as <- <-.
  assert (Hle : forall p f, (p, f) ∈ le <-> exists t db digests, dget "evidence" (s_components st) = Some t /\ sqlite_snapshot pf t "evidence.sqlite3" = Ok db /\ f_hashes pf db = Ok digests /\
    ((p, f) = (["state"; "evidence"; "evidence.sqlite3"], (db, f_db_mode pf)) \/
     exists d data mode, d ∈ digests /\ file_at t (object_path d) = Some (data, mode) /\ (p, f) = ("state" :: "evidence" :: object_path d, (data, f_mode pf)))).
  { intros p f. destruct (dget "evidence" (s_components st)) as [t|].
    - destruct He as [_ (db&ds&H1&H2&H3)%evidence_spec]. rewrite H3. split; [intros H; by exists t, db, ds|].
      intros (t'&db'&ds'&[= <-]&H4&H5&H6). assert (db' = db) as -> by congruence. assert (ds' = ds) as -> by congruence. exact H6.
    - destruct He as [_ ->]. split; [by intros ?%elem_of_nil|by intros (?&?&?&?&_)]. }
  assert (Hlk : forall p f, (p, f) ∈ lk <-> exists t db, dget "knowledge" (s_components st) = Some t /\ sqlite_snapshot pf t "knowledge.sqlite3" = Ok db /\
    (p, f) = (["state"; "knowledge"; "knowledge.sqlite3"], (db, f_db_mode pf))).
  { intros p f. destruct (dget "knowledge" (s_components st)) as [t|].
    - destruct Hk as [_ H]. apply res_bind_Ok in H as (db&Hdb&H). injection H as <-. rewrite list_elem_of_singleton.
      split; [intros H; by exists t, db|]. intros (t'&db'&[= <-]&H4&H5). assert (db' = db) as -> by congruence. exact H5.
    - destruct Hk as [_ ->]. split; [by intros ?%elem_of_nil|by intros (?&?&?&_)]. }
  assert (Hlc : forall p f, (p, f) ∈ lc <-> exists t q data mode, dget "control" (s_components st) = Some t /\ file_at t q = Some (data, mode) /\ left_out q = false /\
    (p, f) = ("state" :: "control" :: q, (data, f_mode pf))).
  { intros p f. destruct (dget "control" (s_components st)) as [t|].
    - destruct Hc as [_ [_ H]%copy_control_spec]. rewrite H. split; [intros (q&data&m&H1); by exists t, q, data, m|]. intros (t'&q&data&m&[= <-]&H1). by exists q, data, m.
    - destruct Hc as [_ ->]. split; [by intros ?%elem_of_nil|by intros (?&?&?&?&?&_)]. }
  split.
  { unfold ALLOWED_COMPONENTS, dmem. cbn [List.filter]. destruct (dget "evidence" _), (dget "knowledge" _), (dget "control" _);
      destruct He as [-> _], Hk as [-> _], Hc as [-> _]; reflexivity. }
  split; [by destruct (ce ++ ck ++ cc)|].
  split; [intros t Ht; rewrite Ht in Hc; by destruct Hc as [_ [H _]%copy_control_spec]|].
  split; [intros t Ht; rewrite Ht in He; destruct He as [_ (db&ds&H&_)%evidence_spec]; by exists db|].
  split; [intros t Ht; rewrite Ht in Hk; destruct Hk as [_ H]; apply res_bind_Ok in H as (db&H&_); by exists db|].
  intros p f. rewrite !elem_of_app, Hle, Hlk, Hlc. split.
  - intros [(t&db&ds&H1&H2&H3&[[= -> ->]|(d&data&m&H4&H5&[= -> ->])])|[(t&db&H1&H2&[= -> ->])|(t&q&data&m&H1&H2&H3&[= -> ->])]].
    + by eapply keep_evidence.
    + by eapply (keep_object _ _ _ t db ds d data m).
    + by eapply keep_knowledge.
    + by eapply (keep_control _ _ _ t q data m).
  - intros [t db Ht Hdb|t db ds d data mode Ht Hdb Hds Hd Hf|t db Ht Hdb|t q data mode Ht Hf Hl|doc Hdoc]; [| | | |discriminate Hdoc].
    + left. rewrite Ht in He. destruct He as [_ (db'&ds&H1&H2&_)%evidence_spec]. assert (db' = db) as -> by congruence. exists t, db, ds. by split_and!; [..|left].
    + left. exists t, db, ds. split_and!; [done..|right]. by exists d, data, mode.
    + right. left. by exists t, db.
    + right. right. by exists t, q, data, mode.
Qed.
End create.

(** ** The version *)

Lemma span_digits_ascii s : ascii_string (fst (span is_digit s)) = true.
Proof.
  induction s as [|c s IH]; [done|]. cbn [span]. destruct (is_digit c) eqn:Hc; [|done]. destruct (span is_digit s) as [a r]. cbn [fst] in *.
  unfold ascii_string in *. cbn [str_forall]. rewrite IH, andb_true_r. revert Hc. destruct c as [[] [] [] [] [] [] [] []]; vm_compute; congruence.
Qed.
Lemma digits1_ascii s a r : digits1 s = Some (a, r) -> ascii_string a = true.
Proof. unfold digits1. pose proof (span_digits_ascii s) as H. destruct (span is_digit s) as [a' r']. destruct (str_empty a'); [done|]. by intros [= -> ->]. Qed.
Lemma version_match_ascii s v : version_match s = Some v -> ascii_string v = true.
Proof.
  unfold version_match. intros H. apply bind_Some in H as (r&_&H). apply fmap_Some in H as ([[[a b] c] r']&H&->). unfold version3 in H.
  apply bind_Some in H as ([a' r1]&Ha&H). apply bind_Some in H as (r2&_&H). apply bind_Some in H as ([b' r3]&Hb&H). apply bind_Some in H as (r4&_&H).
  apply bind_Some in H as ([c' r5]&Hc&H). injection H as -> -> -> _. cbn [text_of_version].
  rewrite !ascii_app, (digits1_ascii _ _ _ Ha), (digits1_ascii _ _ _ Hb), (digits1_ascii _ _ _ Hc). reflexivity.
Qed.
Lemma project_version_ascii cmake v : project_version cmake = Ok v -> ascii_string v = true.
Proof.
  unfold project_version. intros H. apply res_bind_Ok in H as (text&_&H). destruct (search version_match text) as [v'|] eqn:E; [|done]. injection H as ->.
  revert E. induction text as [|c text IH]; cbn [search]; destruct (version_match _) as [x|] eqn:Em; try done; try (intros [= ->]; by eapply version_match_ascii).
Qed.

(** ** Creating *)

Lemma protected_none pf st deployment p f : protected pf st None p f -> protected pf st deployment p f /\ p <> DEPLOYMENT.
Proof.
  intros [t db Ht Hdb|t db ds d data mode Ht Hdb Hds Hd Hf|t db Ht Hdb|t q data mode Ht Hf Hl|doc Hdoc]; (split; [|discriminate || done]).
  - by eapply keep_evidence.
  - by eapply (keep_object _ _ _ t db ds d data mode).
  - by eapply keep_knowledge.
  - by eapply (keep_control _ _ _ t q data mode).
  - discriminate Hdoc.
Qed.


Section created.
Context (pf : platform) (st : state_root) (deployment : option (res value)).

(** The listing of a backup. *)
Record listed (L : entries) : Prop := Listed {
  li_good : Forall good_file L;
  li_distinct : NoDup L.*1;
  li_apart : forall p q, p ∈ L.*1 -> q ∈ L.*1 -> p ∉ ancestors q;
  li_exact : forall p f, (p, f) ∈ L <-> protected pf st deployment p f
}.

Lemma listed_of L : sound_state pf st -> NoDup L.*1 -> (forall p f, (p, f) ∈ L <-> protected pf st deployment p f) -> listed L.
Proof.
  intros Hs Hn Hx. split; [|done| |done].
  - apply Forall_forall. intros [p f] Hin. apply Hx in Hin. by eapply (protected_good pf st deployment Hs p f).
  - intros p q ([p' f]&->&Hp%Hx)%list_elem_of_fmap ([q' g]&->&Hq%Hx)%list_elem_of_fmap. by eapply (protected_apart pf st deployment Hs).
Qed.

Lemma create_spec cmake now allow_live manifest ms : sound_state pf st -> create_backup pf cmake now st allow_live deployment = Ok (manifest, ms) ->
  exists L version record live, listed L /\ project_version cmake = Ok version /\ json_ok record = true /\
    let components := List.filter (fun c => dmem c (s_components st)) ALLOWED_COMPONENTS in
    manifest = backup_manifest version now components L record live /\ ms = write_archive L (obj manifest) /\ components <> [] /\
    (forall t, dget "control" (s_components st) = Some t -> control_ready t) /\
    (forall t, dget "evidence" (s_components st) = Some t -> exists db, sqlite_snapshot pf t "evidence.sqlite3" = Ok db) /\
    (forall t, dget "knowledge" (s_components st) = Some t -> exists db, sqlite_snapshot pf t "knowledge.sqlite3" = Ok db).
Proof.
  intros Hs. unfold create_backup. intros H. apply res_bind_Ok in H as ([components l]&Hl&H). apply res_bind_Ok in H as ([record extra]&Hd&H).
  apply res_bind_Ok in H as (version&Hv&H). apply res_bind_Ok in H as (live&_&H). injection H as <- <-.
  apply snapshot_spec in Hl as (->&Hne&Hc&He&Hk&Hex).
  destruct (staged_spec l) as [Hn Hst]; [intros p f g Hf%Hex Hg%Hex; by eapply protected_inj|].
  set (inventory := py_sorted (fun e => parts_key (fst e)) (staged l)).
  assert (Hi : forall p f, (p, f) ∈ inventory <-> protected pf st None p f) by (intros p f; unfold inventory; by rewrite elem_of_py_sorted, Hst).
  assert (Hin : NoDup inventory.*1) by (unfold inventory; by rewrite (py_sorted_perm (fun e => parts_key (fst e)))).
  assert (Hrec : json_ok record = true /\ exists L, NoDup L.*1 /\ (forall p f, (p, f) ∈ L <-> protected pf st deployment p f) /\
    L = match extra with [] => inventory | _ => py_sorted (fun e => as_posix (fst e)) (inventory ++ extra) end).
  { unfold deployment_part in Hd. destruct deployment as [[doc|e]|] eqn:Edep; [| |].
    - cbn [mbind res_bind] in Hd. inv_res. simplify_eq. split; [unfold json_ok; cbn [plain distinct_keys forallb fst snd]; by rewrite sha256_ascii|].
      eexists. split; [|split; [|reflexivity]].
      + rewrite (py_sorted_perm (fun e => as_posix (fst e))), fmap_app. apply NoDup_app. split; [done|]. split; [|apply NoDup_singleton].
        intros p ([p' f]&->&Hp%Hi)%list_elem_of_fmap Hin2. apply list_elem_of_singleton in Hin2. by destruct (protected_none pf st None p' f Hp) as [_ ?].
      + intros p f. rewrite elem_of_py_sorted, elem_of_app, Hi, list_elem_of_singleton. split.
        * intros [Hp|[= -> ->]]; [|by apply keep_deployment]. by destruct (protected_none pf st (Some (Ok doc)) p f Hp) as [? _].
        * intros [t db Ht Hdb|t db ds d data mode Ht Hdb Hds Hdd Hf|t db Ht Hdb|t q data mode Ht Hf Hl|doc' [= <-]]; [left..|right; reflexivity].
          -- by eapply keep_evidence.
          -- by eapply (keep_object _ _ _ t db ds d data mode).
          -- by eapply keep_knowledge.
          -- by eapply (keep_control _ _ _ t q data mode).
    - discriminate Hd.
    - injection Hd as <- <-. split; [reflexivity|]. by exists inventory. }
  destruct Hrec as [Hrec (L&HLn&HLx&HL)]. rewrite <- HL. exists L, version, record, live. split; [by apply listed_of|]. by split_and!.
Qed.
End created.

(** ** Trees *)

Lemma list_to_map_spec (l : list (path * node)) p n : (forall q n1 n2, (q, n1) ∈ l -> (q, n2) ∈ l -> n1 = n2) ->
  (list_to_map l : tree) !! p = Some n <-> (p, n) ∈ l.
Proof. intros Hl. split; [apply elem_of_list_to_map_2|]. intros Hin. apply elem_of_list_to_map_1'; [|exact Hin]. intros n' Hn'. by eapply Hl. Qed.

Lemma strip_dir_spec d kn p n : strip_dir d kn = Some (p, n) <-> kn = (d ++ p, n).
Proof.
  unfold strip_dir. destruct kn as [k m]. cbn [fst snd]. split.
  - case_bool_decide as H; [|done]. intros [= <- <-]. f_equal. rewrite <- (take_drop (length d) k) at 1. by rewrite H.
  - intros [= -> ->]. rewrite take_app_length, bool_decide_eq_true_2 by done. by rewrite drop_app_length.
Qed.
Lemma subtree_lookup d t p : subtree d t !! p = t !! (d ++ p).
Proof.
  apply option_eq. intros n. unfold subtree. rewrite list_to_map_spec.
  - rewrite list_elem_of_omap. split.
    + intros (kn&Hin&H%strip_dir_spec). subst kn. by apply elem_of_map_to_list in Hin.
    + intros H. exists (d ++ p, n). split; [by apply elem_of_map_to_list|by apply strip_dir_spec].
  - intros q n1 n2 (k1&H1&E1%strip_dir_spec)%list_elem_of_omap (k2&H2&E2%strip_dir_spec)%list_elem_of_omap. subst.
    apply elem_of_map_to_list in H1, H2. congruence.
Qed.

(** A directory with all that is below it. *)
Definition rooted (t : tree) : Prop := t !! [] = Some Dir /\ forall p n, t !! p = Some n -> p <> [] -> t !! removelast p = Some Dir.

Lemma removelast_snoc (p : path) : p <> [] -> exists q x, p = q ++ [x] /\ removelast p = q.
Proof. intros Hp. exists (removelast p), (List.last p ""). split; [by apply app_removelast_last|done]. Qed.
Lemma subtree_rooted d t : d <> [] -> wf_tree t -> t !! d = Some Dir -> rooted (subtree d t).
Proof.
  intros Hd Hwf Ht. split; [by rewrite subtree_lookup, app_nil_r|]. intros p n. rewrite !subtree_lookup. intros Hp Hne.
  destruct (removelast_snoc p Hne) as (q&x&->&->). apply (Hwf _ _ _ Hp), elem_of_ancestors. exists [x]. split; [by destruct d|]. split; [done|]. by rewrite app_assoc.
Qed.

(** *** The order of a copy *)

Lemma leb_app_r a x : String.leb a (a +:+ x) = true.
Proof.
  induction a as [|c a IH]; [by destruct x|]. rewrite str_app_cons. unfold String.leb in *. cbn [String.compare].
  assert (E : Ascii.compare c c = Eq) by (unfold Ascii.compare; apply N.compare_refl). by rewrite E.
Qed.
Lemma app_longer (a x : string) : a +:+ x = a -> x = "".
Proof. intros H%(f_equal String.length). rewrite length_append in H. destruct x; [done|]. cbn in H. lia. Qed.
Lemma parts_key_app q x : q <> [] -> exists s, s <> "" /\ parts_key (q ++ [x]) = parts_key q +:+ s.
Proof.
  intros Hq. exists (sp 0 +:+ x). split; [done|]. unfold parts_key. induction q as [|y q IH]; [done|]. destruct q as [|z q]; [done|].
  change (str_join (sp 0) ((y :: z :: q) ++ [x])) with (y +:+ sp 0 +:+ str_join (sp 0) ((z :: q) ++ [x])). rewrite IH by done.
  change (str_join (sp 0) (y :: z :: q)) with (y +:+ sp 0 +:+ str_join (sp 0) (z :: q)). by rewrite !str_app_assoc.
Qed.
Lemma parent_first (l1 l2 : list (path * node)) p n q m x : py_ordered (fun kn : path * node => parts_key (fst kn)) (l1 ++ (p, n) :: l2) ->
  p = q ++ [x] -> q <> [] -> (q, m) ∈ l1 ++ (p, n) :: l2 -> (q, m) ∈ l1.
Proof.
  intros Ho -> Hq Hin. apply elem_of_app in Hin as [Hin|Hin]; [done|]. exfalso. apply elem_of_cons in Hin as [H|Hin].
  - injection H as H _. apply (f_equal length) in H. rewrite length_app in H. cbn in H. lia.
  - apply sorting.StronglySorted_app in Ho as (_&_&Ho). apply StronglySorted_inv in Ho as [_ Ho]. rewrite Forall_forall in Ho. specialize (Ho _ Hin).
    cbn [fst] in Ho. destruct (parts_key_app q x Hq) as (s&Hs&He). rewrite He in Ho. apply Hs, (app_longer (parts_key q)). apply String.leb_antisym; [exact Ho|apply leb_app_r].
Qed.

(** ** Restoring without failures *)

Lemma dset_dset {A} k (a b : A) d : dset k b (dset k a d) = dset k b d.
Proof.
  induction d as [|[k' v] d IH]; cbn [dset]; [by rewrite String.eqb_refl|]. destruct (String.eqb k k') eqn:E; cbn [dset]; rewrite E; [done|by rewrite IH].
Qed.

Section moving.
Context (pf : platform).

Definition calm (w : target) (comps : dict tree) : target := Target comps (g_aside w) (g_deployment w) None.

(** The nodes [l1] were copied; the others follow. *)
Lemma copy_nodes c t w comps (l2 l1 : list (path * node)) T : rooted t ->
  py_ordered (fun kn : path * node => parts_key (fst kn)) (l1 ++ l2) -> (forall p n, (p, n) ∈ l1 ++ l2 <-> t !! p = Some n /\ p <> []) ->
  (forall p n, T !! p = Some n <-> (p, n) = ([], Dir) \/ (p, n) ∈ l1) ->
  exists T', m_fold (try_copy c) false l2 (calm w (dset c T comps)) = (Ok false, calm w (dset c T' comps)) /\
    forall p n, T' !! p = Some n <-> (p, n) = ([], Dir) \/ (p, n) ∈ l1 ++ l2.
Proof.
  intros [Hr Hroot]. revert l1 T. induction l2 as [|[p n] l2 IH]; intros l1 T Ho Hl HT.
  - exists T. rewrite app_nil_r. done.
  - assert (Hp : t !! p = Some n /\ p <> []) by (apply Hl, elem_of_app; right; by left). destruct Hp as [Hp Hne].
    assert (Hpar : T !! removelast p = Some Dir).
    { apply HT. pose proof (Hroot p n Hp Hne) as Hq. destruct (decide (removelast p = [])) as [->|Hq0]; [by left|right].
      destruct (removelast_snoc p Hne) as (q&x&Hpx&Hqx). rewrite Hqx in *. eapply parent_first; [exact Ho|exact Hpx|exact Hq0|by apply Hl]. }
    cbn [m_fold]. unfold mbind at 1, M_bind. unfold try_copy at 1, catch, mbind at 1, M_bind, copy_node, attempt. cbn [calm g_faults g_components g_aside g_deployment fst snd].
    rewrite dget_dset_eq, Hpar. cbv iota beta. unfold mret, M_ret. cbn [fmap option_fmap option_map]. rewrite dset_dset.
    change (Target (dset c (<[p:=n]> T) comps) (g_aside w) (g_deployment w) None) with (calm w (dset c (<[p:=n]> T) comps)).
    destruct (IH (l1 ++ [(p, n)]) (<[p:=n]> T)) as (T'&HT'&Hx).
    + by rewrite <- app_assoc.
    + intros q m. rewrite <- app_assoc. apply Hl.
    + intros q m. destruct (decide (q = p)) as [->|Hqp].
      * rewrite lookup_insert_eq, elem_of_app, list_elem_of_singleton. split; [intros [= ->]; auto|]. intros [[= -> ->]|[Hin|[= ->]]]; [done| |done].
        assert (Hin' : (p, m) ∈ l1 ++ (p, n) :: l2) by (apply elem_of_app; by left). apply Hl in Hin' as [Hin' _]. congruence.
      * rewrite lookup_insert_ne, HT, elem_of_app, list_elem_of_singleton by done. split; [tauto|]. intros [H|[H|[= -> ->]]]; auto. done.
    + exists T'. split; [exact HT'|]. intros q m. rewrite Hx, <- app_assoc. done.
Qed.

Lemma copy_tree_calm c t w comps : rooted t -> dget c comps = None -> copy_tree c t (calm w comps) = (Ok tt, calm w (dset c t comps)).
Proof.
  intros Ht Hc. unfold copy_tree. set (l := py_sorted _ _). unfold mbind at 1, M_bind, attempt. cbn [calm g_faults g_components g_aside g_deployment]. rewrite Hc.
  cbv iota beta. cbn [fmap option_fmap option_map].
  destruct (copy_nodes c t w comps l [] {[ [] := Dir ]} Ht) as (T'&HT'&Hx).
  - apply py_sorted_ordered. done.
  - intros p n. cbn [app]. unfold l. rewrite elem_of_py_sorted, list_elem_of_In, List.filter_In, <- list_elem_of_In. cbn [fst].
    rewrite negb_true_iff, bool_decide_eq_false. by rewrite elem_of_map_to_list.
  - intros p n. rewrite lookup_singleton_Some, elem_of_nil. split; [intros [<- <-]; by left|]. intros [[= -> ->]|[]]. done.
  - change (Target (dset c {[ [] := Dir ]} comps) (g_aside w) (g_deployment w) None) with (calm w (dset c {[ [] := Dir ]} comps)).
    unfold mbind, M_bind. rewrite HT'. unfold mret, M_ret. assert (T' = t) as ->; [|done]. apply map_eq. intros p. apply option_eq. intros n. rewrite Hx. cbn [app].
    unfold l. rewrite elem_of_py_sorted, list_elem_of_In, List.filter_In, <- list_elem_of_In, elem_of_map_to_list. cbn [fst]. rewrite negb_true_iff, bool_decide_eq_false.
    destruct Ht as [Hr _]. split; [intros [[= -> ->]|[H _]]; done|]. intros H. destruct (decide (p = [])) as [->|Hp]; [left; congruence|by right].
Qed.

Lemma move_in_calm c t w comps : rooted t -> dget c comps = None -> move_in pf c t (calm w comps) = (Ok tt, calm w (dset c t comps)).
Proof.
  intros Ht Hc. unfold move_in. assert (Hd : tree_is_dir t = true) by (unfold tree_is_dir; destruct Ht as [-> _]; done). rewrite Hd.
  destruct (f_same_device pf); [|by apply copy_tree_calm]. unfold attempt, place. cbn [calm g_faults g_components g_aside g_deployment]. by rewrite Hc.
Qed.
End moving.

Lemma extracted_iff L t p d m : extracted L t -> file_at t p = Some (d, m) <-> exists m0, (p, (d, m0)) ∈ L /\ m = Z.land m0 4095.
Proof.
  intros (_&H1&H2&_). split.
  - intros H. destruct (decide (p ∈ L.*1)) as [Hin|Hin]; [|rewrite H2 in H by done; done].
    apply list_elem_of_fmap in Hin as ([p' [d' m0]]&->&Hin). cbn [fst] in *. rewrite (H1 _ _ _ Hin) in H. injection H as -> <-. by exists m0.
  - intros (m0&Hin&->). by apply H1.
Qed.

Section restoring.
Context (pf : platform) (st : state_root) (deployment : option (res value)) (L : entries) (t : tree).
Hypothesis L_listed : listed pf st deployment L.
Hypothesis t_extracted : extracted L t.
Let protects := protected pf st deployment.

Lemma stage_files p d m : file_at t p = Some (d, m) <-> exists m0, protects p (d, m0) /\ m = Z.land m0 4095.
Proof.
  rewrite (extracted_iff L) by done. split; intros (m0&H&->); exists m0; (split; [|done]); by apply (li_exact _ _ _ _ L_listed).
Qed.

Lemma component_dir c p f : p <> [] -> protects ("state" :: c :: p) f -> t !! ["state"; c] = Some Dir.
Proof.
  intros Hp Hf. destruct f as [d m]. assert (Hs : file_at t ("state" :: c :: p) = Some (d, Z.land m 4095)) by (apply stage_files; by exists m).
  apply file_at_Some in Hs. destruct t_extracted as [Hwf _]. apply (Hwf _ _ _ Hs), elem_of_ancestors. by exists p.
Qed.

Lemma database_fine p : (forall d m, protects p (d, m) -> f_integrity pf d = Ok true) -> database_errors pf t p = Ok [].
Proof.
  intros H. unfold database_errors. destruct (file_at t p) as [[d m]|] eqn:E; [|done]. apply stage_files in E as (m0&Hp&_). by rewrite (H _ _ Hp).
Qed.
Lemma databases_fine : database_errors pf t ["state"; "evidence"; "evidence.sqlite3"] = Ok [] /\ database_errors pf t ["state"; "knowledge"; "knowledge.sqlite3"] = Ok [].
Proof.
  split; apply database_fine; intros d m H; inversion H; subst; by eapply snapshot_integrity.
Qed.
Lemma control_fine : (forall t, dget "control" (s_components st) = Some t -> control_ready t) -> control_errors t = Ok [].
Proof.
  intros Hr. unfold control_errors. destruct (file_at t ["state"; "control"; "control.json"]) as [[d m]|] eqn:E; [|done].
  apply stage_files in E as (m0&Hp&_). inversion Hp; subst. match goal with H : dget "control" _ = Some _ |- _ => destruct (Hr _ H) as (text&mode'&doc&schema&R1&R2&R3&R4) end.
  assert (text = d) as -> by congruence. rewrite R2. cbn [mbind res_bind]. by rewrite R3, R4.
Qed.

Lemma install_calm (cs done : list string) h w comps : NoDup (done ++ cs) -> (forall c, c ∈ cs -> t !! ["state"; c] = Some Dir /\ dget c comps = None) ->
  install_all pf t cs done h (calm w comps) = (Ok (done ++ cs), calm w (fold_left (fun m c => dset c (subtree ["state"; c] t) m) cs comps)).
Proof.
  revert done comps. induction cs as [|c cs IH]; intros done comps Hn Hc; cbn [install_all fold_left]; [by rewrite app_nil_r|].
  destruct (Hc c ltac:(by left)) as [Hd Hnone]. unfold mbind at 1, M_bind, guarded. unfold install at 1. rewrite Hd.
  assert (Hnot : existsb (String.eqb c) done = false).
  { apply not_true_is_false. intros (x&Hx&->%String.eqb_eq)%existsb_exists. apply NoDup_app in Hn as (_&Hn&_). apply (Hn x); [by apply list_elem_of_In|by left]. }
  rewrite Hnot. unfold mbind at 1, M_bind.
  rewrite move_in_calm; [|apply subtree_rooted; [done|by destruct t_extracted|done]|done]. unfold mret, M_ret.
  rewrite (IH (done ++ [c])); [by rewrite <- app_assoc|by rewrite <- app_assoc|].
  intros c' Hc'. destruct (Hc c' ltac:(by right)) as [H1 H2]. split; [done|]. rewrite dget_dset_ne; [done|]. intros ->.
  apply NoDup_app in Hn as (_&_&Hn). apply NoDup_cons in Hn as [Hn _]. done.
Qed.
Lemma installed_component (cs : list string) comps c : 
  dget c (fold_left (fun m c => dset c (subtree ["state"; c] t) m) cs comps) = if decide (c ∈ cs) then Some (subtree ["state"; c] t) else dget c comps.
Proof.
  revert comps. induction cs as [|x cs IH]; intros comps; cbn [fold_left]; [by rewrite decide_False by apply not_elem_of_nil|].
  rewrite IH. destruct (decide (c ∈ cs)) as [H|H]; [by rewrite decide_True by (by right)|]. destruct (decide (c = x)) as [->|Hne].
  - rewrite dget_dset_eq. by rewrite decide_True by (by left).
  - rewrite dget_dset_ne by done. rewrite decide_False; [done|]. by intros [->|?]%elem_of_cons.
Qed.
End restoring.

(** ** Restoring with failures *)

Lemma dget_ddel {A} k k' (d : dict A) : dwf d -> dget k (ddel k' d) = if decide (k = k') then None else dget k d.
Proof. intros Hd. case_decide as H; [subst; by apply dget_ddel_eq|by apply dget_ddel_ne]. Qed.

Section failing.
Context (safety : string).

(** What is aside. *)
Definition aside_at (w : target) (c : string) : option tree := s ← dget safety (g_aside w); dget c s.
Definition wf_target (w : target) : Prop := dwf (g_components w) /\ forall s, dget safety (g_aside w) = Some s -> dwf s.

(** *** The handler *)

Lemma take_out_all l w : wf_target w -> g_faults w = None -> exists w', m_iter take_out l w = (Ok tt, w') /\ wf_target w' /\ g_faults w' = None /\
  g_aside w' = g_aside w /\ forall c, dget c (g_components w') = if decide (c ∈ l) then None else dget c (g_components w).
Proof.
  revert w. induction l as [|x l IH]; intros w Hwf Hf; cbn [m_iter].
  - exists w. by split_and!.
  - assert (Hx : exists w1, take_out x w = (Ok tt, w1) /\ wf_target w1 /\ g_faults w1 = None /\ g_aside w1 = g_aside w /\
      forall c, dget c (g_components w1) = if decide (c = x) then None else dget c (g_components w)).
    { unfold take_out, mbind, M_bind, gets, id. destruct (dmem x (g_components w)) eqn:E.
      - unfold attempt. rewrite Hf. destruct Hwf as [H1 H2]. eexists. split; [reflexivity|]. cbn [g_components g_aside g_faults]. split; [split; [by apply dwf_ddel|done]|].
        split; [done|]. split; [done|]. intros c. by apply dget_ddel.
      - exists w. split_and!; try done. intros c. case_decide as Hc; [|done]. subst. unfold dmem in E. by destruct (dget x (g_components w)). }
    destruct Hx as (w1&Hx&Hwf1&Hf1&Ha1&Hc1). unfold mbind, M_bind. rewrite Hx. destruct (IH w1 Hwf1 Hf1) as (w2&H2&Hwf2&Hf2&Ha2&Hc2).
    exists w2. split; [exact H2|]. split_and!; [done|done|congruence|]. intros c. rewrite Hc2, Hc1.
    destruct (decide (c ∈ l)), (decide (c = x)), (decide (c ∈ x :: l)); set_solver.
Qed.

Lemma put_back_all l w : wf_target w -> g_faults w = None -> (forall c, c ∈ l -> dget c (g_components w) = None \/ aside_at w c = None) ->
  exists w', m_iter (put_back safety) l w = (Ok tt, w') /\ forall c, dget c (g_components w') =
    if decide (c ∈ l) then match aside_at w c with Some t => Some t | None => dget c (g_components w) end else dget c (g_components w).
Proof.
  revert w. induction l as [|x l IH]; intros w Hwf Hf Hl; cbn [m_iter].
  - exists w. split; [done|]. intros c. by rewrite decide_False by apply not_elem_of_nil.
  - assert (Hx : exists w1, put_back safety x w = (Ok tt, w1) /\ wf_target w1 /\ g_faults w1 = None /\
      (forall c, aside_at w1 c = if decide (c = x) then None else aside_at w c) /\
      forall c, dget c (g_components w1) = if decide (c = x) then match aside_at w x with Some t => Some t | None => dget x (g_components w) end else dget c (g_components w)).
    { unfold put_back, mbind at 1, M_bind, gets, id. unfold aside_at in *. destruct (dget safety (g_aside w)) as [s|] eqn:Es; cbn [mbind option_bind].
      - destruct (dget x s) as [t|] eqn:Et.
        + destruct (Hl x) as [Hn|Hn]; [by left| |by cbn [mbind option_bind] in Hn; rewrite Et in Hn].
          unfold attempt, place. rewrite Hf, Hn. cbn [mbind res_bind fmap option_fmap option_map]. destruct Hwf as [H1 H2]. eexists. split; [reflexivity|].
          cbn [g_components g_aside g_faults]. rewrite Es. cbn [default from_option id]. split; [split; [by apply dwf_dset|]|].
          { cbn [g_aside]. intros s'. rewrite dget_dset_eq. intros [= <-]. by apply dwf_ddel, H2. }
          split; [done|]. rewrite dget_dset_eq. split; intros c; cbn [mbind option_bind].
          * apply dget_ddel. by apply H2.
          * rewrite dget_dset. destruct (String.eqb_spec c x) as [->|Hne]; [by rewrite decide_True|by rewrite decide_False].
        + exists w. rewrite Es. cbn [mbind option_bind]. split_and!; try done; intros c; case_decide as Hc; subst; done.
      - exists w. rewrite Es. cbn [mbind option_bind]. split_and!; try done; intros c; case_decide as Hc; subst; done. }
    destruct Hx as (w1&Hx&Hwf1&Hf1&Ha1&Hc1). unfold mbind at 1, M_bind. rewrite Hx. destruct (IH w1 Hwf1 Hf1) as (w2&H2&Hc2).
    { intros c Hc. rewrite Ha1, Hc1. case_decide as Hcx; [by right|]. apply Hl. by right. }
    exists w2. split; [exact H2|]. intros c. rewrite Hc2, Hc1, Ha1.
    destruct (decide (c = x)) as [->|Hne].
    + rewrite (decide_True (P := x ∈ x :: l)) by (by left). by destruct (decide (x ∈ l)).
    + destruct (decide (c ∈ l)) as [H|H]; [by rewrite decide_True by (by right)|]. rewrite decide_False; [done|]. by intros [?|?]%elem_of_cons.
Qed.

(** *** Moving aside *)

(** Every component of [w0] is in place or aside. *)
Definition nothing_lost (w0 w : target) : Prop := forall c, dget c (g_components w) = dget c (g_components w0) \/
  dget c (g_components w) = None /\ aside_at w c = dget c (g_components w0).
Definition accounted (w0 w : target) : Prop := wf_target w /\ nothing_lost w0 w.

Lemma set_aside_step c w : wf_target w -> exists r w', set_aside safety c w = (r, w') /\ wf_target w' /\
  match r with
  | Ok _ => exists t, dget c (g_components w) = Some t /\ (forall x, dget x (g_components w') = if decide (x = c) then None else dget x (g_components w)) /\
      (forall x, aside_at w' x = if decide (x = c) then Some t else aside_at w x) /\ g_faults w' = pred <$> g_faults w
  | Raise _ => g_components w' = g_components w /\ g_aside w' = g_aside w /\ (g_faults w = Some O \/ dget c (g_components w) = None)
  end.
Proof.
  intros Hwf. unfold set_aside, attempt. destruct (g_faults w) as [[|n]|] eqn:Ef; [eexists _, _; split; [reflexivity|]; split; [exact Hwf|]; by split_and!; [..|left]| |].
  all: destruct (dget c (g_components w)) as [t|] eqn:Ec; eexists _, _; (split; [reflexivity|]); cbn [g_components g_aside g_faults];
    [|split; [exact Hwf|]; by split_and!; [..|right]].
  all: destruct Hwf as [H1 H2]; assert (Hs : dwf (default [] (dget safety (g_aside w)))) by (destruct (dget safety (g_aside w)) as [s|]; [by apply H2|constructor]).
  all: split; [split; cbn [g_components g_aside]; [by apply dwf_ddel|intros s; rewrite dget_dset_eq; intros [= <-]; by apply dwf_dset]|].
  all: exists t; split; [done|]; split; [intros x; by apply dget_ddel|]; split; [|done].
  all: intros x; unfold aside_at; cbn [g_aside]; rewrite dget_dset_eq; cbn [mbind option_bind]; rewrite dget_dset; destruct (String.eqb_spec x c) as [->|Hne];
    [by rewrite decide_True|rewrite decide_False by done; by destruct (dget safety (g_aside w))].
Qed.

Lemma set_aside_all w0 l w : accounted w0 w -> exists r w', m_iter (set_aside safety) l w = (r, w') /\ accounted w0 w' /\
  match r with
  | Ok _ => forall c, dget c (g_components w') = if decide (c ∈ l) then None else dget c (g_components w)
  | Raise _ => forall n, g_faults w = Some n -> NoDup l -> (forall c, c ∈ l -> dget c (g_components w) <> None) -> (n < length l)%nat
  end.
Proof.
  revert w. induction l as [|x l IH]; intros w Hw; cbn [m_iter].
  { eexists _, _. split; [reflexivity|]. split; [exact Hw|]. done. }
  destruct (set_aside_step x w (proj1 Hw)) as (r&w1&Hx&Hwf1&Hr). unfold mbind, M_bind. rewrite Hx. destruct r as [u|e].
  - destruct Hr as (t&Ht&Hc1&Ha1&Hf1). destruct (IH w1) as (r&w2&H2&Hacc&Hr).
    { split; [done|]. intros c. rewrite Hc1, Ha1. case_decide as Hc; [subst c; right|by apply Hw]. split; [done|]. destruct (proj2 Hw x) as [H|[H _]]; congruence. }
    exists r, w2. split; [exact H2|]. split; [exact Hacc|]. destruct r as [u2|e2].
    + intros c. rewrite Hr, Hc1. destruct (decide (c ∈ l)), (decide (c = x)), (decide (c ∈ x :: l)); set_solver.
    + intros n Hn Hnd Hin. apply NoDup_cons in Hnd as [Hx1 Hnd]. rewrite Hn in Hf1. cbn [fmap option_fmap option_map] in Hf1.
      assert (Hlt : (pred n < length l)%nat); [|cbn [length]; lia]. apply (Hr (pred n)); [exact Hf1|exact Hnd|].
      intros c Hc. rewrite Hc1. rewrite decide_False by (by intros ->). apply Hin. by right.
  - destruct Hr as (Hc1&Ha1&Hcause). eexists _, _. split; [reflexivity|]. split.
    + split; [done|]. intros c. unfold aside_at. rewrite Hc1, Ha1. by apply Hw.
    + intros n Hn Hnd Hin. destruct Hcause as [H|H]; [rewrite Hn in H; injection H as ->; cbn; lia|]. by destruct (Hin x ltac:(by left)).
Qed.

(** *** Installing *)

Section install.
Context (pf : platform).
Hypothesis same_device : f_same_device pf = true.
Context (stage : tree) (components existing : list string) (w0 wB : target).
Hypothesis existing_in : existing ⊆ components.
Hypothesis wB_accounted : accounted w0 wB.
Hypothesis wB_free : forall c, c ∈ components -> dget c (g_components wB) = None.
Hypothesis wB_others : forall c, c ∉ existing -> dget c (g_components wB) = dget c (g_components w0).
Hypothesis existing_present : forall c, c ∈ existing -> dget c (g_components w0) <> None.

Definition installing (got : list string) (w : target) : Prop := wf_target w /\ g_aside w = g_aside wB /\ got ⊆ components /\
  forall c, dget c (g_components w) = if decide (c ∈ got) then Some (subtree ["state"; c] stage) else dget c (g_components wB).
Definition as_before (w : target) : Prop := forall c, dget c (g_components w) = dget c (g_components w0).

Lemma undo_restores got w : installing got w -> g_faults w = None -> exists w', undo safety existing got w = (Ok tt, w') /\ as_before w'.
Proof.
  intros (Hwf&Ha&Hin&Hc) Hf. unfold undo. destruct (take_out_all got w Hwf Hf) as (w1&H1&Hwf1&Hf1&Ha1&Hc1). unfold mbind, M_bind. rewrite H1.
  assert (Hfree : forall c, c ∈ existing -> dget c (g_components w1) = None).
  { intros c Hx. rewrite Hc1, Hc. case_decide; [done|]. by apply wB_free, existing_in. }
  destruct (put_back_all existing w1 Hwf1 Hf1) as (w2&H2&Hc2); [intros c Hx; left; by apply Hfree|]. exists w2. split; [exact H2|]. intros c. rewrite Hc2.
  destruct (decide (c ∈ existing)) as [Hx|Hx].
  - assert (Hat : aside_at w1 c = dget c (g_components w0)).
    { unfold aside_at. rewrite Ha1, Ha. destruct (proj2 wB_accounted c) as [H|[_ H]]; [|exact H]. exfalso. apply (existing_present c Hx). rewrite <- H. by apply wB_free, existing_in. }
    rewrite Hat. destruct (dget c (g_components w0)) as [t|] eqn:E; [done|]. by apply Hfree.
  - rewrite Hc1, Hc. rewrite <- (wB_others c Hx). destruct (decide (c ∈ got)) as [Hd|Hd]; [|done]. symmetry. by apply wB_free, Hin.
Qed.

Lemma guarded_undo {A} (body : M target A) got w e w1 : body w = (Raise e, w1) -> installing got w1 -> g_faults w1 = None ->
  exists w', guarded body (undo safety existing got) w = (Raise e, w') /\ as_before w'.
Proof. intros Hb Hi Hf. unfold guarded. rewrite Hb. destruct (undo_restores got w1 Hi Hf) as (w2&H2&Hx). rewrite H2. by exists w2. Qed.

Lemma install_any cs got w : installing got w -> cs ⊆ components ->
  match install_all pf stage cs got (undo safety existing) w with
  | (Ok installed, w') => installing installed w' /\ forall c, c ∈ cs -> stage !! ["state"; c] <> None -> c ∈ installed
  | (Raise _, w') => as_before w'
  end.
Proof.
  assert (Hmono : forall cs got w, match install_all pf stage cs got (undo safety existing) w with (Ok installed, _) => got ⊆ installed | _ => True end).
  { clear. induction cs as [|c cs IH]; intros got w; cbn [install_all]; [unfold mret, M_ret; set_solver|]. unfold mbind at 1, M_bind.
    assert (Hg : match guarded (install pf stage c got) (undo safety existing got) w with (Ok installed, _) => got ⊆ installed | _ => True end).
    { unfold guarded. assert (Hi : match install pf stage c got w with (Ok installed, _) => got ⊆ installed | _ => True end).
      { unfold install. destruct (stage !! ["state"; c]); [|unfold mret, M_ret; set_solver]. destruct (existsb (String.eqb c) got); [unfold mret, M_ret; set_solver|]. unfold mbind, M_bind.
        destruct (move_in _ _ _ w) as [[]]; [|done]. cbn. set_solver. }
      destruct (install pf stage c got w) as [[a|e] w1]; [exact Hi|]. by destruct (undo safety existing got w1) as [[]]. }
    destruct (guarded _ _ w) as [[a|e] w1]; [|done]. specialize (IH a w1). destruct (install_all _ _ cs a _ w1) as [[b|]]; [|done]. set_solver. }
  revert got w. induction cs as [|c cs IH]; intros got w Hi Hcs; cbn [install_all].
  { unfold mret, M_ret. split; [exact Hi|]. intros c H. by apply not_elem_of_nil in H. }
  unfold mbind at 1, M_bind. destruct (stage !! ["state"; c]) as [nd|] eqn:Es.
  - destruct (existsb (String.eqb c) got) eqn:Ed.
    + assert (Hin : c ∈ got) by (apply existsb_exists in Ed as (x&Hx&->%String.eqb_eq); by apply list_elem_of_In).
      assert (Hg : guarded (install pf stage c got) (undo safety existing got) w = (Ok got, w)) by (unfold guarded, install; by rewrite Es, Ed).
      rewrite Hg. pose proof (Hmono cs got w) as Hm. specialize (IH got w Hi ltac:(set_solver)). destruct (install_all _ _ cs got _ w) as [[b|] w']; [|done].
      destruct IH as [H1 H2]. split; [done|]. intros x [->|Hx]%elem_of_cons Hs; [by apply Hm|by apply H2].
    + destruct Hi as (Hwf&Ha&Hd&Hc). assert (Hnd : c ∉ got).
      { intros Hin. assert (H : existsb (String.eqb c) got = true); [|congruence]. apply existsb_exists. exists c. rewrite String.eqb_refl. split; [by apply list_elem_of_In|done]. }
      assert (Hnone : dget c (g_components w) = None) by (rewrite Hc, decide_False by done; apply wB_free; set_solver).
      assert (Hinst : (exists e, install pf stage c got w = (Raise e, Target (g_components w) (g_aside w) (g_deployment w) None)) \/
        exists f, install pf stage c got w = (Ok (got ++ [c]), Target (dset c (subtree ["state"; c] stage) (g_components w)) (g_aside w) (g_deployment w) f)).
      { unfold install. rewrite Es, Ed. unfold mbind at 1 2, M_bind, move_in. rewrite same_device. unfold attempt, place. rewrite Hnone. cbn [mbind res_bind].
        destruct (g_faults w) as [[|n]|]; [left|right|right]; eexists; reflexivity. }
      destruct Hinst as [[e He]|[f Hf]].
      * edestruct (guarded_undo (install pf stage c got) got w) as (w'&Hg&Hb); [exact He|by split_and!|done|]. by rewrite Hg.
      * assert (Hg : guarded (install pf stage c got) (undo safety existing got) w = (Ok (got ++ [c]), Target (dset c (subtree ["state"; c] stage) (g_components w)) (g_aside w) (g_deployment w) f))
          by (unfold guarded; by rewrite Hf).
        rewrite Hg. set (w1 := Target _ _ _ f). assert (Hi1 : installing (got ++ [c]) w1).
        { split; [|split; [exact Ha|split; [set_solver|]]].
          - destruct Hwf as [W1 W2]. split; [by apply dwf_dset|exact W2].
          - intros x. unfold w1. cbn [g_components]. rewrite dget_dset, Hc. destruct (String.eqb_spec x c) as [->|Hne]; [by rewrite decide_True by set_solver|].
            destruct (decide (x ∈ got)); [by rewrite decide_True by set_solver|by rewrite decide_False by set_solver]. }
        pose proof (Hmono cs (got ++ [c]) w1) as Hm. specialize (IH (got ++ [c]) w1 Hi1 ltac:(set_solver)). destruct (install_all _ _ cs _ _ w1) as [[b|] w']; [|done].
        destruct IH as [H1 H2]. split; [done|]. intros x [->|Hx]%elem_of_cons Hs; [apply Hm; set_solver|by apply H2].
  - assert (Hg : guarded (install pf stage c got) (undo safety existing got) w = (Ok got, w)) by (unfold guarded, install; by rewrite Es).
    rewrite Hg. specialize (IH got w Hi ltac:(set_solver)). destruct (install_all _ _ cs got _ w) as [[b|] w']; [|done].
    destruct IH as [H1 H2]. split; [done|]. intros x [->|Hx]%elem_of_cons Hs; [done|by apply H2].
Qed.
End install.
End failing.
