(* ===== verification/BackupProps.v ===== *)
(** * What backups guarantee

    A backup verifies and restores what it protects, exactly; a restore that fails loses nothing and,
    once the old state is aside, puts it back; and an archive that verifies stays below its roots. *)
From stdpp Require Import gmap.
From Stdlib Require Import Ascii.
From S2P Require Import Members UpgradeFacts.
From S2P Require Import Backup BackupFacts.

(** ** What was backed up is restored *)

Section roundtrip.
Context (pf : platform) (st : state_root) (deployment : option (res value)) (cmake : res string) (now : string) (allow_live : bool).
Context (manifest : dict value) (ms : list member).
Hypothesis sound : sound_state pf st.
Hypothesis now_ascii : ascii_string now = true.
Hypothesis set_order : forall l, f_set pf l ≡ₚ l.
Hypothesis created : create_backup pf cmake now st allow_live deployment = Ok (manifest, ms).

Definition backed_up : list string := List.filter (fun c => dmem c (s_components st)) ALLOWED_COMPONENTS.

Lemma backed_up_in c : c ∈ backed_up <-> c ∈ ALLOWED_COMPONENTS /\ exists t, dget c (s_components st) = Some t.
Proof.
  unfold backed_up. rewrite list_elem_of_In, List.filter_In, <- list_elem_of_In. unfold dmem. split; intros [H1 H2]; (split; [exact H1|]).
  - destruct (dget c (s_components st)) as [t|]; [by exists t|done].
  - by destruct H2 as [t ->].
Qed.

(** The archive verifies, and extracts to a listing of what is protected. *)
Lemma created_extracts : exists L t m, listed pf st deployment L /\ extracted L t /\ read_and_verify pf (Ok ms) true = Ok (m, [], t) /\
  dget "components" m = Some (VList (VStr <$> backed_up)) /\ backed_up <> [] /\
  forall c, c ∈ backed_up -> t !! ["state"; c] = Some Dir.
Proof.
  destruct (create_spec pf st deployment _ _ _ _ _ sound created) as (L&version&record&live&HL&Hv&Hr&Hm&->&Hne&Hc&He&Hk). rewrite Hm. fold backed_up in Hne |- *.
  assert (Hbk : Forall (fun c => ascii_string c = true) backed_up).
  { apply Forall_forall. intros c [Hin _]%backed_up_in. unfold ALLOWED_COMPONENTS in Hin. rewrite !elem_of_cons, elem_of_nil in Hin. by destruct Hin as [->|[->|[->|[]]]]. }
  destruct (archive_extracts pf L version now backed_up record live (li_good _ _ _ _ HL) (li_distinct _ _ _ _ HL) (li_apart _ _ _ _ HL) set_order
    (project_version_ascii _ _ Hv) now_ascii Hbk Hr) as (t&Ht&Hx).
  exists L, t, (manifest_read L version now backed_up record live). split; [exact HL|]. split; [exact Hx|]. split; [|split; [reflexivity|split; [exact Hne|]]].
  - unfold read_and_verify, checked_archive. change (write_archive L _) with (BackupFacts.ms L version now backed_up record live). rewrite Ht. cbn [mbind res_bind l_errors l_manifest].
    destruct (databases_fine pf st deployment L t HL Hx) as [-> ->]. cbn [mbind res_bind]. by rewrite (control_fine pf st deployment L t HL Hx Hc).
  - intros c [Hin [tc Htc]]%backed_up_in. unfold ALLOWED_COMPONENTS in Hin. rewrite !elem_of_cons, elem_of_nil in Hin. destruct Hin as [->|[->|[->|[]]]].
    + destruct (He _ Htc) as [db Hdb]. by eapply (component_dir pf st deployment L t HL Hx _ ["evidence.sqlite3"]), keep_evidence.
    + destruct (Hk _ Htc) as [db Hdb]. by eapply (component_dir pf st deployment L t HL Hx _ ["knowledge.sqlite3"]), keep_knowledge.
    + destruct (Hc _ Htc) as (text&mode&doc&schema&Hf&_). by eapply (component_dir pf st deployment L t HL Hx _ ["control.json"]), (keep_control _ _ _ tc ["control.json"]).
Qed.

Lemma allowed_names : List.filter (fun c => existsb (String.eqb c) ALLOWED_COMPONENTS) (omap (fun v => match v with VStr s => Some s | _ => None end) (VStr <$> backed_up)) = backed_up.
Proof. unfold backed_up, ALLOWED_COMPONENTS. cbn [List.filter]. by destruct (dmem "evidence" _), (dmem "knowledge" _), (dmem "control" _). Qed.
Lemma backed_up_distinct : NoDup backed_up.
Proof. unfold backed_up. apply NoDup_ListNoDup, List.NoDup_filter, NoDup_ListNoDup. apply (bool_decide_unpack _). vm_compute. exact I. Qed.

(** A restore where nothing is in the way and nothing fails. *)
Lemma restores safety force out w : g_faults w = None -> (forall c, c ∈ backed_up -> dget c (g_components w) = None) ->
  exists L t m dep, listed pf st deployment L /\ extracted L t /\
    restore_backup pf (Ok ms) safety force out w = (Ok (m, backed_up, []),
      Target (fold_left (fun m c => dset c (subtree ["state"; c] t) m) backed_up (g_components w)) (g_aside w) dep None).
Proof.
  intros Hw Hfree. destruct created_extracts as (L&t&m&HL&Hx&Hread&Hcomp&Hne&Hdirs). exists L, t, m.
  assert (Hex : List.filter (fun c => dmem c (g_components w)) backed_up = []).
  { apply filter_nothing. intros c Hc. unfold dmem. by rewrite Hfree. }
  destruct w as [comps aside dep faults]. cbn [g_faults g_components g_aside] in *. subst faults.
  assert (Hin : forall h, install_all pf t backed_up [] h (Target comps aside dep None) =
    (Ok backed_up, Target (fold_left (fun m c => dset c (subtree ["state"; c] t) m) backed_up comps) aside dep None)).
  { intros h. apply (install_calm pf L t Hx backed_up [] h (Target comps aside dep None) comps); [exact backed_up_distinct|]. intros c Hc. split; [by apply Hdirs|by apply Hfree]. }
  unfold restore_backup. unfold mbind at 1, M_bind, lift. rewrite Hread. cbv iota beta. unfold mbind at 1, M_bind. cbn [guard_app].
  assert (Hres : restorable m = Ok backed_up) by (unfold restorable, dget_or; rewrite Hcomp; cbn [viter mbind res_bind]; by rewrite allowed_names).
  rewrite Hres. unfold mbind at 1, M_bind. unfold mbind at 1, M_bind.
  destruct backed_up as [|c0 cs] eqn:Eb; [done|]. rewrite <- Eb in *. cbn [guard_app]. unfold mbind at 1, M_bind, gets, id. cbn [g_components]. rewrite Hex.
  unfold mbind at 1, M_bind. cbn [guard_app]. unfold mbind at 1, M_bind. unfold attempt_nothing at 1, attempt at 1. cbn [g_faults g_components g_aside g_deployment fmap option_fmap option_map].
  unfold set_all_aside. unfold mbind at 1, M_bind, mret at 1, M_ret at 1. unfold mbind at 1, M_bind. rewrite Hin. unfold mbind at 1, M_bind, guarded.
  unfold place_deployment. destruct out; [destruct (file_at t DEPLOYMENT) as [[data mode]|]|]; eexists; (split; [exact HL|]); (split; [exact Hx|]); reflexivity.
Qed.
End roundtrip.


(** *** A small state *)

Definition demo_platform (same_device : bool) : platform :=
  Platform 420 420 (fun db => Ok db) (fun _ => Ok true) (fun db => Ok (if String.eqb db "evidence db" then ["ab12"] else [])) (fun _ => Raise (Exn OSError "no process")) id same_device.
Definition demo_control : tree := list_to_map
  [([], Dir); (["control.json"], File (json (obj [("schema", VStr "ppc-lab-control-v1")]), 420)); (["queue"], Dir); (["queue"; "a.json"], File ("{}", 384));
   (["queue"; "dump.bin"], File ("binary", 420)); (["SERVER.lock"], File ("{}", 420))].
Definition demo_evidence : tree := list_to_map
  [([], Dir); (["evidence.sqlite3"], File ("evidence db", 420)); (["objects"], Dir); (["objects"; "sha256"], Dir); (["objects"; "sha256"; "ab"], Dir);
   (["objects"; "sha256"; "ab"; "ab12.json"], File ("{}", 420)); (["objects"; "sha256"; "ab"; "ab99.json"], File ("{}", 420))].
Definition demo_state : state_root := StateRoot [("evidence", demo_evidence); ("control", demo_control)] [].
Definition demo_created : res (dict value * list member) :=
  create_backup (demo_platform false) (Ok "project(PPCLab VERSION 3.5.0 LANGUAGES CXX)") "2026-01-01T00:00:00Z" demo_state false None.
Definition demo_archive : list member := match demo_created with Ok (_, ms) => ms | Raise _ => [] end.
Definition empty_target (faults : option nat) : target := Target [] [] None faults.

Example demo_members : m_name <$> demo_archive =
  ["state/control/control.json"; "state/control/queue/a.json"; "state/evidence/evidence.sqlite3"; "state/evidence/objects/sha256/ab/ab12.json"; "BACKUP-MANIFEST.json"].
Proof. vm_compute. reflexivity. Qed.

(** Names and directories of a given tree can be checked. *)
Definition plain_nameb (s : string) : bool :=
  negb (String.eqb s "") && negb (String.eqb s ".") && negb (String.eqb s "..") && negb (str_mem "/" s) && ascii_string s.
Lemma plain_name_check s : plain_nameb s = true -> plain_name s.
Proof.
  unfold plain_nameb, plain_name. rewrite !andb_true_iff, !negb_true_iff, !String.eqb_neq. tauto.
Qed.
Lemma names_check t : forallb (fun p => negb (Upgrade.is_file t p) || (negb (bool_decide (p = [])) && forallb plain_nameb p)) (keys t) = true ->
  forall p f, file_at t p = Some f -> p <> [] /\ Forall plain_name p.
Proof.
  rewrite forallb_forall. intros H p f Hf. apply file_at_Some in Hf. specialize (H p). rewrite <- list_elem_of_In, elem_of_keys in H. specialize (H (ex_intro _ _ Hf)).
  unfold Upgrade.is_file in H. rewrite Hf in H. cbn [negb orb] in H. apply andb_true_iff in H as [H1 H2]. apply negb_true_iff, bool_decide_eq_false in H1. split; [done|].
  rewrite forallb_forall in H2. apply Forall_forall. intros x Hx. by apply plain_name_check, H2, list_elem_of_In.
Qed.

Lemma demo_sound : sound_state (demo_platform false) demo_state.
Proof.
  split.
  - intros t [= <-]. split; [apply wf_tree_check; vm_compute; reflexivity|apply names_check; vm_compute; reflexivity].
  - intros t db digests [= <-] Hdb. assert (Hx : sqlite_snapshot (demo_platform false) demo_evidence "evidence.sqlite3" = Ok "evidence db") by (vm_compute; reflexivity).
    rewrite Hx in Hdb. injection Hdb as <-. intros [= <-]. constructor; [|constructor]. split; apply plain_name_check; vm_compute; reflexivity.
Qed.


(** ** A restore that fails *)

Section failures.
Context (pf : platform) (safety : string).
Hypothesis same_device : f_same_device pf = true.

(** The components and what is aside are those of [w]. *)
Definition untouched (w w' : target) : Prop := g_components w' = g_components w /\ g_aside w' = g_aside w.
Lemma untouched_accounted w w' : wf_target safety w -> untouched w w' -> accounted safety w w'.
Proof. intros [H1 H2] [E1 E2]. split; [split; [by rewrite E1|by rewrite E2]|]. intros c. left. by rewrite E1. Qed.

Lemma nothing_step w : exists r w', attempt_nothing w = (r, w') /\ untouched w w' /\
  match r with Ok _ => g_faults w' = pred <$> g_faults w | Raise _ => g_faults w = Some O /\ g_faults w' = None end.
Proof. unfold attempt_nothing, attempt, untouched. destruct (g_faults w) as [[|n]|] eqn:E; eexists _, _; (split; [reflexivity|]); by split. Qed.

(** Writing the metadata touches nothing else, and fails only when an operation does. *)
Lemma deployment_step stage out w : exists r w', place_deployment stage out w = (r, w') /\ untouched w w' /\ match r with Ok _ => True | Raise _ => g_faults w' = None end.
Proof.
  unfold place_deployment. destruct out; [|by exists (Ok tt), w]. destruct (file_at stage DEPLOYMENT) as [[data mode]|]; [|by exists (Ok tt), w].
  unfold write_deployment, modify. unfold mbind at 1, M_bind. destruct (nothing_step w) as (r1&w1&->&[A1 A2]&F1). destruct r1 as [[]|e]; [|eexists _, _; split; [reflexivity|]; split; [done|tauto]].
  unfold mbind at 1, M_bind. destruct (nothing_step w1) as (r2&w2&->&[B1 B2]&F2). destruct r2 as [[]|e]; [|eexists _, _; split; [reflexivity|]; split; [split; congruence|tauto]].
  unfold mbind at 1, M_bind. set (w3 := Target _ _ _ _). destruct (nothing_step w3) as (r4&w4&->&[D1 D2]&F4). eexists _, _. split; [reflexivity|].
  split; [split; unfold w3 in *; cbn [g_components g_aside] in *; congruence|]. by destruct r4 as [[]|e]; [|tauto].
Qed.

(** Moving aside what there is. *)
Lemma set_all_aside_spec w existing : wf_target safety w -> exists r w', set_all_aside safety existing w = (r, w') /\ accounted safety w w' /\
  match r with
  | Ok _ => forall c, dget c (g_components w') = if decide (c ∈ existing) then None else dget c (g_components w)
  | Raise _ => forall n, g_faults w = Some n -> NoDup existing -> (forall c, c ∈ existing -> dget c (g_components w) <> None) -> dget safety (g_aside w) = None ->
      (n < 1 + length existing)%nat
  end.
Proof.
  intros Hwf. unfold set_all_aside. destruct existing as [|c0 cs].
  { exists (Ok tt), w. split; [done|]. split; [by apply untouched_accounted|]. done. }
  set (existing := c0 :: cs). unfold mbind, M_bind. unfold make_safety, attempt. destruct (g_faults w) as [[|n]|] eqn:Ef.
  { eexists _, _. split; [reflexivity|]. split; [by apply untouched_accounted|]. intros n [= <-]. lia. }
  all: destruct (dmem safety (g_aside w)) eqn:Em.
  1, 3: eexists _, _; (split; [reflexivity|]); (split; [by apply untouched_accounted|]); intros n' _ _ _ Hs; unfold dmem in Em; by rewrite Hs in Em.
  all: set (w1 := Target _ _ _ _); destruct (set_aside_all safety w existing w1) as (r&w2&H2&Hacc&Hr);
    [split; [destruct Hwf as [W1 W2]; split; [exact W1|unfold w1; cbn [g_aside]; intros s; rewrite dget_dset_eq; intros [= <-]; constructor]|intros c; by left]|].
  all: rewrite H2; exists r, w2; split; [reflexivity|]; split; [exact Hacc|]; destruct r as [[]|e]; [exact Hr|].
  - intros n' [= <-] Hnd Hin _. specialize (Hr n eq_refl Hnd Hin). lia.
  - done.
Qed.

End failures.

(** ** A small restore that fails *)

(** An old control plane at the destination. *)
Definition old_control : tree := list_to_map [([], Dir); (["control.json"], File ("old", 420))].
Definition occupied (faults : option nat) : target := Target [("control", old_control)] [] None faults.
Definition demo_restore (same_device : bool) (faults : option nat) : res (dict value * list string * list string) * target :=
  restore_backup (demo_platform same_device) (Ok demo_archive) "safe" true false (occupied faults).

Lemma demo_verified : exists m stage, read_and_verify (demo_platform true) (Ok demo_archive) true = Ok (m, [], stage) /\ restorable m = Ok ["evidence"; "control"].
Proof.
  assert (H : match read_and_verify (demo_platform true) (Ok demo_archive) true with Ok (m, [], _) => restorable m = Ok ["evidence"; "control"] | _ => False end)
    by (vm_compute; reflexivity).
  destruct (read_and_verify _ _ _) as [[[m [|e l]] stage]|e]; [by exists m, stage|destruct H..].
Qed.


(** A failure before the [try] block is not taken back: the old state stays in the safety directory. *)
Example failure_while_moving_aside : 
  let '(r, w) := restore_backup (demo_platform true) (Ok demo_archive) "safe" true false (Target [("evidence", old_control); ("control", old_control)] [] None (Some 3%nat)) in
  r = Raise (Exn OSError "I/O error") /\ dkeys (g_components w) = ["control"] /\ dkeys <$> dget "safe" (g_aside w) = Some ["evidence"].
Proof. vm_compute. split_and!; reflexivity. Qed.
(** A copy from another device that fails leaves part of the component, and the old one is moved back into it. *)
Example failure_of_a_copy :
  let '(r, w) := demo_restore false (Some 12%nat) in
  r = Raise (Exn OSError "copytree") /\
  (t ← dget "control" (g_components w); file_at t ["control"; "control.json"]) = Some ("old", 420) /\ (t ← dget "control" (g_components w); file_at t ["control.json"]) <> Some ("old", 420).
Proof. vm_compute. split_and!; [reflexivity|reflexivity|discriminate]. Qed.

(** ** What an archive that verifies may hold *)

Lemma parts_under a b r : str_mem "/" a = false -> str_mem "/" b = false -> a <> "" -> a <> "." -> b <> "" -> b <> "." ->
  path_parts (a +:+ "/" +:+ b +:+ "/" +:+ r) = a :: b :: path_parts r.
Proof.
  intros Ha Hb Ha1 Ha2 Hb1 Hb2. unfold path_parts. change (a +:+ "/" +:+ b +:+ "/" +:+ r) with (a +:+ String "/" (b +:+ String "/" r)).
  rewrite !split_slash_component by done. cbn [List.filter]. change ("" +:+ a) with a. change ("" +:+ b) with b.
  destruct (String.eqb_spec a ""), (String.eqb_spec a "."), (String.eqb_spec b ""), (String.eqb_spec b "."); first [congruence|reflexivity].
Qed.
Lemma startswith_split p s : str_startswith p s = true -> exists r, s = p +:+ r.
Proof.
  unfold str_startswith. revert s. induction p as [|c p IH]; intros s H; [by exists s|]. destruct s as [|d s]; [done|]. cbn [String.prefix] in H.
  destruct (ascii_dec c d) as [<-|]; [|done]. destruct (IH s H) as [r ->]. by exists r.
Qed.

(** A path below the roots of a backup. *)
Definition below_roots (p : path) : Prop := (exists c r, c ∈ ALLOWED_COMPONENTS /\ p = "state" :: c :: r) \/ p = DEPLOYMENT.
Lemma permitted_below name : permitted name = true -> below_roots (path_parts name).
Proof.
  unfold permitted. rewrite !orb_true_iff. intros [[[H|H]|H]|H%String.eqb_eq].
  1-3: apply startswith_split in H as [r ->]; left.
  - exists "evidence", (path_parts r). split; [left|]. exact (parts_under "state" "evidence" r eq_refl eq_refl ltac:(discriminate) ltac:(discriminate) ltac:(discriminate) ltac:(discriminate)).
  - exists "knowledge", (path_parts r). split; [right; left|]. exact (parts_under "state" "knowledge" r eq_refl eq_refl ltac:(discriminate) ltac:(discriminate) ltac:(discriminate) ltac:(discriminate)).
  - exists "control", (path_parts r). split; [right; right; left|]. exact (parts_under "state" "control" r eq_refl eq_refl ltac:(discriminate) ltac:(discriminate) ltac:(discriminate) ltac:(discriminate)).
  - right. subst name. vm_compute. reflexivity.
Qed.

(** *** What the checks of an archive say *)

Lemma add_expected_spec files expected b : res_fold add_expected ([], true) files = Ok (expected, b) ->
  forall k item, dget k expected = Some item -> obj item ∈ files /\ dget_n "path" item = VStr k.
Proof.
  intros H. enough (Hi : forall k item, dget k (fst (expected, b)) = Some item -> obj item ∈ files /\ dget_n "path" item = VStr k) by exact Hi.
  revert H. apply (res_fold_inv (fun st : dict (dict value) * bool => forall k item, dget k (fst st) = Some item -> obj item ∈ files /\ dget_n "path" item = VStr k)); [|done].
  intros [d all] x [d' all'] Hx IH. unfold add_expected. destruct x as [| | | | | |item]; try (intros [= <- <-]; exact IH).
  destruct (dget_n "path" item) as [| | | |p| |] eqn:Ep; try done; try (intros [= <- <-]; exact IH). intros [= <- <-] k it. cbn [fst snd] in *. rewrite dget_dset.
  destruct (String.eqb_spec k p) as [->|Hne]; [|apply IH]. intros [= <-]. by split.
Qed.
Lemma list_error_none what names : list_error what names = [] -> names = [].
Proof. unfold list_error, error_if. by destruct names. Qed.
Lemma minus_none a b x : minus a b = [] -> x ∈ a -> x ∈ b.
Proof.
  intros H Hx. destruct (existsb (String.eqb x) b) eqn:E; [apply existsb_exists in E as (y&Hy&->%String.eqb_eq); by apply list_elem_of_In|].
  assert (Hin : x ∈ minus a b) by (unfold minus; rewrite list_elem_of_In, List.filter_In, <- list_elem_of_In, E; done). rewrite H in Hin. by apply elem_of_nil in Hin.
Qed.
Lemma error_if_none b msg : error_if b msg = [] -> b = false.
Proof. by destruct b. Qed.

(** A member as the checks leave it. *)
Record declared (ms : list member) (files : list value) (name : string) : Prop := Declared {
  dc_permitted : permitted name = true;
  dc_item : exists data item, read_member ms name = Ok data /\ obj item ∈ files /\ dget_n "path" item = VStr name /\
    py_eq (VInt (Z.of_nat (String.length data))) (dget_n "size" item) = true /\ dget_n "sha256" item = VStr (sha256_hex data)
}.

Lemma listing_checks ms l : read_listing ms = Ok l -> l_errors l = [] ->
  (forall m, m ∈ ms -> check_member m = Ok tt) /\ (forall n, n ∈ l_actual l <-> n ∈ m_name <$> ms /\ n <> BACKUP_MANIFEST) /\
  exists files, viter (dget_or "files" (VList []) (l_manifest l)) = Ok files /\ forall n, n ∈ l_actual l -> declared ms files n.
Proof.
  unfold read_listing. intros H He. apply res_bind_Ok in H as (u1&_&H). apply res_bind_Ok in H as (k&Hcheck&H). apply res_bind_Ok in H as (text&_&H).
  apply res_bind_Ok in H as (doc&_&H). apply res_bind_Ok in H as (schema&_&H). destruct doc as [| | | | | |manifest]; try discriminate H.
  apply res_bind_Ok in H as (files&Hfiles&H). apply res_bind_Ok in H as ([expected all_str]&Hexp&H). cbv zeta in H.
  set (actual := List.filter (fun n => negb (String.eqb n BACKUP_MANIFEST)) (remove_dups (m_name <$> ms))) in *.
  apply res_bind_Ok in H as (u2&_&H). apply res_bind_Ok in H as (checked&Hck&H). apply res_bind_Ok in H as (policy&_&H). injection H as <-. cbn [l_errors l_actual l_manifest] in *.
  apply app_eq_nil in He as [_ He]. apply app_eq_nil in He as [_ He]. apply app_eq_nil in He as [Hextra He]. apply app_eq_nil in He as [Hcn _].
  apply list_error_none in Hextra. split; [|split].
  - apply res_map_runs in Hcheck. intros m Hm. clear -Hcheck Hm. induction Hcheck as [|x y ms k Hx _ IH]; [by apply elem_of_nil in Hm|].
    apply elem_of_cons in Hm as [->|Hm]; [by destruct y|by apply IH].
  - intros n. unfold actual. rewrite list_elem_of_In, List.filter_In, <- list_elem_of_In, elem_of_remove_dups, negb_true_iff, String.eqb_neq. done.
  - exists files. split; [exact Hfiles|]. intros n Hn. pose proof (minus_none _ _ n Hextra Hn) as Hk.
    pose proof (proj1 (res_map_concat_nil _ _ _ Hck) Hcn n) as Hm. rewrite elem_of_py_sorted, elem_of_both in Hm. specialize (Hm (conj Hn Hk)).
    unfold member_errors in Hm. apply res_bind_Ok in Hm as (data&Hd&Hm). apply res_bind_Ok in Hm as (item&Hi&Hm). injection Hm as Hm.
    apply app_eq_nil in Hm as [H1 Hm]. apply app_eq_nil in Hm as [H2 H3]. apply error_if_none in H1, H2, H3. apply negb_false_iff in H1, H2, H3.
    split; [exact H3|]. unfold dindex in Hi. destruct (dget n expected) as [it|] eqn:Eg; [|done]. injection Hi as ->.
    destruct (add_expected_spec _ _ _ Hexp n item Eg) as [Hin Hp]. exists data, item. split_and!; [done..|]. by apply eq_str_true.
Qed.

Lemma extract_files pf ms expected t name t' q f : extract_member pf ms expected t name = Ok t' -> file_at t' q = Some f ->
  file_at t q = Some f \/ q = path_parts name.
Proof.
  unfold extract_member. intros H Hf. apply res_bind_Ok in H as (data&_&H). apply res_bind_Ok in H as (p&Hp&H). apply res_bind_Ok in H as (t1&H1&H).
  apply res_bind_Ok in H as (item&_&H). apply res_bind_Ok in H as (t2&H2&H). apply res_bind_Ok in H as (m1&_&H). apply res_bind_Ok in H as (m2&_&H).
  assert (Hpp : p = path_parts name) by (unfold safe_member in Hp; by destruct (_ || _ || _); [|injection Hp as <-]). subst p.
  assert (Hw : forall g s s', write_file (path_parts name) g s = Ok s' -> forall f, file_at s' q = Some f -> q = path_parts name \/ file_at s q = Some f).
  { intros g s s' Hs f'. unfold write_file in Hs. destruct (s !! path_parts name) as [[|]|]; [done|injection Hs as <-..].
    all: rewrite file_at_insert; case_decide as Hq; [by left|by right]. }
  destruct (Hw _ _ _ H _ Hf) as [->|Hf2]; [by right|]. destruct (Hw _ _ _ H2 _ Hf2) as [->|Hf1]; [by right|]. left.
  unfold file_at in *. rewrite (mkdir_parent_spec _ _ _ H1) in Hf1. by destruct (decide (q ∈ ancestors (path_parts name))).
Qed.



(** A process of another user is alive, but asking it gives an [OSError]: the control plane counts as stopped. *)
Example live_server_of_another_user :
  lock_alive (Platform 420 420 Ok (fun _ => Ok true) (fun _ => Ok []) (fun _ => Raise (Exn OSError "Operation not permitted")) id true) (json (obj [("pid", VInt 42)])) =
    Raise (Exn OSError "Operation not permitted") /\
  control_server_alive (Platform 420 420 Ok (fun _ => Ok true) (fun _ => Ok []) (fun _ => Raise (Exn OSError "Operation not permitted")) id true)
    (<[["SERVER.lock"] := File (json (obj [("pid", VInt 42)]), 420)]> ∅) = Ok false.
Proof. vm_compute. split; reflexivity. Qed.
