(* ===== verification/Difflib.v ===== *)
(** * Aligning two sequences ([difflib.SequenceMatcher])

    [ppc_lab_triage.py] aligns the signatures of two traces with the matcher of Python's standard
    library, without junk.  This file has its three methods, and what their results satisfy: a longest
    match is one, and the opcodes tile both sequences. *)
From S2P Require Export PyCore.
Local Open Scope nat_scope.

(** [Match(a, b, size)] *)
Record block := Block { bk_a : nat; bk_b : nat; bk_size : nat }.
Inductive tag := Replace | Delete | Insert | Equal.
Record opcode := Op { op_tag : tag; op_a1 : nat; op_a2 : nat; op_b1 : nat; op_b2 : nat }.
Definition is_equal (o : opcode) : bool := match op_tag o with Equal => true | _ => false end.
Definition tag_name (t : tag) : string :=
  match t with Replace => "replace" | Delete => "delete" | Insert => "insert" | Equal => "equal" end.

Record window := Window { w_alo : nat; w_ahi : nat; w_blo : nat; w_bhi : nat }.
Definition in_range (lo hi j : nat) : bool := (lo <=? j) && (j <? hi).
Definition block_key (x : block) : Z * Z * Z := (Z.of_nat (bk_a x), Z.of_nat (bk_b x), Z.of_nat (bk_size x)).

Section matcher.
Context {A : Type} `{EqDecision A} (a b : list A).

(** [b2j[x]] *)
Definition occurrences (x : A) : list nat := List.filter (fun j => bool_decide (b !! j = Some x)) (seq 0 (length b)).
(** [a[i] == b[j]] *)
Definition same_at (i j : nat) : bool :=
  match a !! i with Some x => bool_decide (b !! j = Some x) | None => false end.

(** ** [find_longest_match] *)

Definition previous (j2len : list (nat * nat)) (j : nat) : nat :=
  match j with O => 0 | S j => default 0 (aget j j2len) end.
Definition scan_at (i : nat) (j2len : list (nat * nat)) (s : block * list (nat * nat)) (j : nat) : block * list (nat * nat) :=
  let k := S (previous j2len j) in
  (if bk_size (fst s) <? k then Block (S i - k) (S j - k) k else fst s, aset j k (snd s)).
Definition scan_row (blo bhi : nat) (s : block * list (nat * nat)) (i : nat) : block * list (nat * nat) :=
  let js := match a !! i with Some x => List.filter (in_range blo bhi) (occurrences x) | None => [] end in
  fold_left (scan_at i (snd s)) js (fst s, []).
Fixpoint extend_left (alo blo i j size : nat) : block :=
  match i, j with
  | S i', S j' => if (alo <=? i') && (blo <=? j') && same_at i' j' then extend_left alo blo i' j' (S size) else Block i j size
  | _, _ => Block i j size
  end.
Fixpoint extend_right (fuel ahi bhi : nat) (x : block) : block :=
  match fuel with
  | O => x
  | S fuel =>
      let i := bk_a x + bk_size x in
      let j := bk_b x + bk_size x in
      if (i <? ahi) && (j <? bhi) && same_at i j then extend_right fuel ahi bhi (Block (bk_a x) (bk_b x) (S (bk_size x))) else x
  end.
Definition find_longest_match (w : window) : block :=
  let best := fst (fold_left (scan_row (w_blo w) (w_bhi w)) (seq (w_alo w) (w_ahi w - w_alo w)) (Block (w_alo w) (w_blo w) 0, [])) in
  let x := extend_left (w_alo w) (w_blo w) (bk_a best) (bk_b best) (bk_size best) in
  extend_right (w_ahi w - bk_a x) (w_ahi w) (w_bhi w) x.

(** ** [get_matching_blocks] and [get_opcodes] *)

(** What is left to match on the two sides of a match, the right side on top. *)
Definition push (w : window) (x : block) (queue : list window) : list window :=
  let i := bk_a x in let j := bk_b x in let k := bk_size x in
  (if (i + k <? w_ahi w) && (j + k <? w_bhi w) then [Window (i + k) (w_ahi w) (j + k) (w_bhi w)] else []) ++
  (if (w_alo w <? i) && (w_blo w <? j) then [Window (w_alo w) i (w_blo w) j] else []) ++ queue.
Fixpoint matching_loop (fuel : nat) (queue : list window) (acc : list block) : list block :=
  match fuel, queue with
  | S fuel, w :: queue =>
      let x := find_longest_match w in
      if bk_size x =? 0 then matching_loop fuel queue acc else matching_loop fuel (push w x queue) (acc ++ [x])
  | _, _ => acc
  end.
(** Adjacent blocks become one. *)
Definition flush (i j k : nat) : list block := if k =? 0 then [] else [Block i j k].
Fixpoint collapse (i1 j1 k1 : nat) (l : list block) : list block :=
  match l with
  | [] => flush i1 j1 k1
  | Block i2 j2 k2 :: l =>
      if (i1 + k1 =? i2) && (j1 + k1 =? j2) then collapse i1 j1 (k1 + k2) l else flush i1 j1 k1 ++ collapse i2 j2 k2 l
  end.
Definition matching_fuel : nat := 2 * length a + 1.
Definition get_matching_blocks : list block :=
  collapse 0 0 0 (py_sorted block_key (matching_loop matching_fuel [Window 0 (length a) 0 (length b)] [])) ++ [Block (length a) (length b) 0].

Definition gap (i ai j bj : nat) : list opcode :=
  if (i <? ai) && (j <? bj) then [Op Replace i ai j bj] else if i <? ai then [Op Delete i ai j bj] else if j <? bj then [Op Insert i ai j bj] else [].
Fixpoint opcodes_from (i j : nat) (l : list block) : list opcode :=
  match l with
  | [] => []
  | Block ai bj size :: l =>
      gap i ai j bj ++ (if size =? 0 then [] else [Op Equal ai (ai + size) bj (bj + size)]) ++ opcodes_from (ai + size) (bj + size) l
  end.
Definition get_opcodes : list opcode := opcodes_from 0 0 get_matching_blocks.
End matcher.

(** ** Longest matches *)

Section longest.
Context {A : Type} `{EqDecision A} (a b : list A).

(** The two sequences agree for [k] elements from [x] and [y] on. *)
Definition agree (x y k : nat) : Prop := forall t, t < k -> exists e, a !! (x + t) = Some e /\ b !! (y + t) = Some e.

Lemma agree_0 x y : agree x y 0. Proof. intros t Ht. lia. Qed.
Lemma agree_app x y k l : agree x y k -> agree (x + k) (y + k) l -> agree x y (k + l).
Proof.
  intros H1 H2 t Ht. destruct (decide (t < k)) as [?|Hk]; [by apply H1|].
  destruct (H2 (t - k)) as (e&He1&He2); [lia|]. exists e.
  replace (x + k + (t - k)) with (x + t) in He1 by lia. by replace (y + k + (t - k)) with (y + t) in He2 by lia.
Qed.
Lemma agree_init x y k l : agree x y (k + l) -> agree x y k.
Proof. intros H t Ht. apply H. lia. Qed.
Lemma agree_one x y : agree x y 1 <-> same_at a b x y = true.
Proof.
  unfold same_at. split.
  - intros H. destruct (H 0) as (e&He1&He2); [lia|]. rewrite Nat.add_0_r in He1, He2. rewrite He1. by apply bool_decide_eq_true.
  - destruct (a !! x) as [e|] eqn:Hx; [|done]. intros Hy%bool_decide_eq_true t Ht. exists e. by replace t with 0 by lia; rewrite !Nat.add_0_r.
Qed.

(** The length of the run of equal elements that ends before [i] and [j], within a window. *)
Fixpoint run (alo blo bhi i j : nat) : nat :=
  match i, j with
  | S i, S j => if (alo <=? i) && in_range blo bhi j && same_at a b i j then S (run alo blo bhi i j) else 0
  | _, _ => 0
  end.

Lemma run_step alo blo bhi i j :
  run alo blo bhi (S i) (S j) = if (alo <=? i) && in_range blo bhi j && same_at a b i j then S (run alo blo bhi i j) else 0.
Proof. done. Qed.
Lemma run_start alo blo bhi j : run alo blo bhi alo j = 0.
Proof. destruct alo as [|i], j as [|j]; [done..|]. rewrite run_step. by replace (S i <=? i) with false by (symmetry; apply Nat.leb_gt; lia). Qed.

(** A run is a block of the window. *)
Lemma run_block alo blo bhi i j : alo <= i -> blo <= j ->
  alo + run alo blo bhi i j <= i /\ blo + run alo blo bhi i j <= j /\ agree (i - run alo blo bhi i j) (j - run alo blo bhi i j) (run alo blo bhi i j).
Proof.
  revert j. induction i as [|i IH]; intros [|j] Hi Hj; try (cbn [run]; split_and!; [lia..|apply agree_0]).
  rewrite run_step. unfold in_range. destruct (alo <=? i) eqn:H1, (blo <=? j) eqn:H2, (j <? bhi) eqn:H3, (same_at a b i j) eqn:H4;
    cbn [andb]; try (split_and!; [lia..|apply agree_0]).
  bool_prop. destruct (IH j) as (?&?&Ha); [done..|]. split_and!; [lia..|].
  rewrite !Nat.sub_succ, <- Nat.add_1_r. apply agree_app; [done|].
  replace (_ - _ + _) with i by lia. replace (_ - _ + _) with j by lia. by apply agree_one.
Qed.
(** Every block of the window is part of a run. *)
Lemma block_run alo blo bhi x y k : alo <= x -> blo <= y -> y + k <= bhi -> agree x y k -> k <= run alo blo bhi (x + k) (y + k).
Proof.
  intros Hx Hy. induction k as [|k IH]; intros Hb Hk; [lia|].
  rewrite !Nat.add_succ_r, run_step. unfold in_range. rewrite <- Nat.add_1_r in Hk.
  assert (Hs : same_at a b (x + k) (y + k) = true).
  { apply agree_one. intros t Ht. replace t with 0 by lia. destruct (Hk k) as (e&?&?); [lia|]. exists e. by rewrite !Nat.add_0_r. }
  rewrite Hs. rewrite !(proj2 (Nat.leb_le _ _)), (proj2 (Nat.ltb_lt _ _)) by lia. cbn [andb].
  apply le_n_S, IH; [lia|]. by apply agree_init in Hk.
Qed.

Context (w : window).
Abbreviation len i j := (run (w_alo w) (w_blo w) (w_bhi w) i j).

(** What the best match is after the rows before [i]. *)
Definition within (x : block) (i : nat) : Prop :=
  w_alo w <= bk_a x /\ bk_a x + bk_size x <= i /\ w_blo w <= bk_b x /\ bk_b x + bk_size x <= w_bhi w /\ agree (bk_a x) (bk_b x) (bk_size x).
Definition row_of (i : nat) (j2len : list (nat * nat)) : Prop := forall j, default 0 (aget j j2len) = len i (S j).

Lemma previous_run i j2len j : row_of i j2len -> previous j2len j = len i j.
Proof. intros H. destruct j as [|j]; [by destruct i|apply H]. Qed.
Lemma elem_of_occurrences j x : j ∈ occurrences b x <-> b !! j = Some x.
Proof.
  unfold occurrences. rewrite list_elem_of_In, List.filter_In, <- list_elem_of_In, elem_of_seq, bool_decide_eq_true.
  split; [by intros [_ ?]|]. intros H. split; [|done]. apply lookup_lt_Some in H. lia.
Qed.

(** One row of the table. *)
Lemma scan_at_spec i js (x : block) (j2len new : list (nat * nat)) (seen : list nat) :
  w_alo w <= i -> row_of i j2len -> within x (S i) ->
  (forall j, j ∈ js -> w_blo w <= j < w_bhi w /\ same_at a b i j = true) ->
  (forall j, aget j new = if decide (j ∈ seen) then Some (len (S i) (S j)) else None) ->
  (forall j, j ∈ seen -> len (S i) (S j) <= bk_size x) ->
  let s := fold_left (scan_at i j2len) js (x, new) in
  within (fst s) (S i) /\ bk_size x <= bk_size (fst s) /\
  (forall j, aget j (snd s) = if decide (j ∈ seen ++ js) then Some (len (S i) (S j)) else None) /\
  (forall j, j ∈ seen ++ js -> len (S i) (S j) <= bk_size (fst s)).
Proof.
  intros Hi Hrow. revert x new seen. induction js as [|j js IH]; intros x new seen Hx Hjs Hnew Hdone; cbn [fold_left].
  { cbn [fst snd]. rewrite app_nil_r. split_and!; [done|lia|done..]. }
  destruct (Hjs j) as ([Hlo Hhi]&Hs); [by left|].
  assert (Hk : S (previous j2len j) = len (S i) (S j)).
  { rewrite run_step, (previous_run i) by done. unfold in_range. rewrite Hs.
    rewrite !(proj2 (Nat.leb_le _ _)), (proj2 (Nat.ltb_lt _ _)) by lia. done. }
  pose proof (run_block (w_alo w) (w_blo w) (w_bhi w) (S i) (S j) ltac:(lia) ltac:(lia)) as (H1&H2&H3).
  replace (seen ++ j :: js) with ((seen ++ [j]) ++ js) by by rewrite <- app_assoc.
  set (x1 := fst (scan_at i j2len (x, new) j)). set (new1 := snd (scan_at i j2len (x, new) j)).
  assert (Hx1 : within x1 (S i) /\ bk_size x <= bk_size x1 /\ len (S i) (S j) <= bk_size x1).
  { subst x1. unfold scan_at. cbn [fst snd]. rewrite Hk. destruct (Nat.ltb_spec (bk_size x) (len (S i) (S j))) as [?|?]; [|done].
    unfold within. cbn [bk_a bk_b bk_size]. split_and!; try lia. done. }
  destruct Hx1 as (Hx1&Hle&Hle'). replace (scan_at i j2len (x, new) j) with (x1, new1) by by subst x1 new1; destruct (scan_at _ _ _ _).
  destruct (IH x1 new1 (seen ++ [j])) as (?&?&?&?).
  - done.
  - intros j' ?. apply Hjs. by right.
  - intros j'. subst new1. unfold scan_at. cbn [fst snd]. rewrite aget_aset, Hk, Hnew.
    destruct (decide (j' = j)) as [->|Hne]; [by rewrite decide_True by set_solver|].
    destruct (decide (j' ∈ seen)); [by rewrite decide_True by set_solver|by rewrite decide_False by set_solver].
  - intros j' [?| ->%list_elem_of_singleton]%elem_of_app; [|done]. etransitivity; [by apply Hdone|done].
  - split_and!; [done|lia|done..].
Qed.

Lemma scan_row_spec i (x : block) (j2len : list (nat * nat)) :
  w_alo w <= i -> w_bhi w <= length b -> row_of i j2len -> within x i ->
  let s := scan_row a b (w_blo w) (w_bhi w) (x, j2len) i in
  within (fst s) (S i) /\ bk_size x <= bk_size (fst s) /\ row_of (S i) (snd s) /\ forall j, len (S i) (S j) <= bk_size (fst s).
Proof.
  intros Hi Hb Hrow Hx. unfold scan_row. cbn [fst snd].
  set (js := match a !! i with Some e => List.filter (in_range (w_blo w) (w_bhi w)) (occurrences b e) | None => [] end).
  assert (Hjs : forall j, j ∈ js <-> w_blo w <= j < w_bhi w /\ same_at a b i j = true).
  { intros j. subst js. unfold same_at. destruct (a !! i) as [e|]; [|set_solver].
    rewrite list_elem_of_In, List.filter_In, <- list_elem_of_In, elem_of_occurrences, bool_decide_eq_true.
    unfold in_range. rewrite andb_true_iff, Nat.leb_le, Nat.ltb_lt. tauto. }
  assert (Hx' : within x (S i)) by (unfold within in *; destruct Hx as (?&?&?&?&?); split_and!; [done|lia|done..]).
  destruct (scan_at_spec i js x j2len [] [] Hi Hrow Hx') as (Hw&Hle&Hget&Hsize).
  { intros j. apply Hjs. }
  { done. }
  { intros j []%not_elem_of_nil. }
  cbn [app] in *. assert (Hzero : forall j, j ∉ js -> len (S i) (S j) = 0).
  { intros j Hj. rewrite run_step. unfold in_range. repeat case_match; try done. exfalso. apply Hj, Hjs. bool_prop. by split. }
  split_and!; [done..| |].
  - intros j. rewrite Hget. destruct (decide (j ∈ js)); [done|]. by rewrite Hzero.
  - intros j. destruct (decide (j ∈ js)) as [?|?]; [by apply Hsize|]. rewrite Hzero by done. lia.
Qed.

Lemma scan_rows_spec n i (x : block) (j2len : list (nat * nat)) :
  w_alo w <= i -> w_bhi w <= length b -> row_of i j2len -> within x i -> (forall i' j, i' <= i -> len i' (S j) <= bk_size x) ->
  let s := fold_left (scan_row a b (w_blo w) (w_bhi w)) (seq i n) (x, j2len) in
  within (fst s) (i + n) /\ forall i' j, i' <= i + n -> len i' (S j) <= bk_size (fst s).
Proof.
  revert i x j2len. induction n as [|n IH]; intros i x j2len Hi Hb Hrow Hx Hmax; cbn [seq fold_left].
  { by rewrite Nat.add_0_r. }
  destruct (scan_row_spec i x j2len Hi Hb Hrow Hx) as (Hw&Hle&Hrow'&Hsize).
  destruct (scan_row a b (w_blo w) (w_bhi w) (x, j2len) i) as [x' j2len'] eqn:E. cbn [fst snd] in *.
  rewrite Nat.add_succ_r, <- Nat.add_succ_l. apply IH; [lia|done..|].
  intros i' j Hi'. destruct (decide (i' = S i)) as [->|?]; [apply Hsize|]. etransitivity; [apply Hmax; lia|done].
Qed.

Lemma extend_left_spec i j size hi : within (Block i j size) hi ->
  let x := extend_left a b (w_alo w) (w_blo w) i j size in within x hi /\ size <= bk_size x.
Proof.
  revert j size. induction i as [|i IH]; intros [|j] size Hx; cbn [extend_left]; try (split; [done|cbn; lia]).
  destruct ((w_alo w <=? i) && (w_blo w <=? j) && same_at a b i j) eqn:E; [|split; [done|cbn; lia]].
  bool_prop. destruct (IH j (S size)) as (?&?).
  - unfold within in *. cbn [bk_a bk_b bk_size] in *. destruct Hx as (?&?&?&?&Ha). split_and!; try lia.
    apply (agree_app i j 1 size); [by apply agree_one|]. by rewrite !Nat.add_1_r.
  - split; [done|lia].
Qed.
Lemma extend_right_spec fuel x : within x (w_ahi w) ->
  let y := extend_right a b fuel (w_ahi w) (w_bhi w) x in within y (w_ahi w) /\ bk_size x <= bk_size y.
Proof.
  revert x. induction fuel as [|fuel IH]; intros x Hx; cbn [extend_right]; [by split|].
  destruct (_ && _ && _) eqn:E; [|by split]. bool_prop.
  destruct (IH (Block (bk_a x) (bk_b x) (S (bk_size x)))) as (?&?); [|cbn [bk_size] in *; split; [done|lia]].
  unfold within in *. cbn [bk_a bk_b bk_size]. destruct Hx as (?&?&?&?&Ha). split_and!; try lia.
  rewrite <- Nat.add_1_r. apply agree_app; [done|by apply agree_one].
Qed.

(** The match is a block of the window, and none is longer. *)
Lemma find_longest_match_spec : w_alo w <= w_ahi w -> w_blo w <= w_bhi w -> w_bhi w <= length b ->
  let x := find_longest_match a b w in within x (w_ahi w) /\
  forall i j k, w_alo w <= i -> i + k <= w_ahi w -> w_blo w <= j -> j + k <= w_bhi w -> agree i j k -> k <= bk_size x.
Proof.
  intros Ha Hb Hlen. unfold find_longest_match.
  destruct (scan_rows_spec (w_ahi w - w_alo w) (w_alo w) (Block (w_alo w) (w_blo w) 0) []) as (Hw&Hmax).
  { done. }
  { done. }
  { intros j. by rewrite run_start. }
  { unfold within. cbn [bk_a bk_b bk_size]. split_and!; try lia. apply agree_0. }
  { intros i' j Hi'. destruct i' as [|i']; [done|]. rewrite run_step. by replace (w_alo w <=? i') with false by (symmetry; apply Nat.leb_gt; lia). }
  destruct (fold_left _ _ _) as [best j2len]. cbn [fst snd] in *. rewrite Nat.add_sub_assoc, Nat.add_comm, Nat.add_sub in Hw, Hmax by done.
  destruct (extend_left_spec (bk_a best) (bk_b best) (bk_size best) (w_ahi w)) as (H1&H2); [by destruct best|].
  destruct (extend_right_spec (w_ahi w - bk_a (extend_left a b (w_alo w) (w_blo w) (bk_a best) (bk_b best) (bk_size best))) _ H1) as (H3&H4).
  split; [done|]. intros i j k Hi Hik Hj Hjk Hk. pose proof (block_run _ _ _ _ _ _ Hi Hj Hjk Hk) as Hrun.
  etransitivity; [exact Hrun|]. destruct (j + k) as [|j'] eqn:E; [destruct (i + k); cbn [run]; lia|].
  etransitivity; [apply Hmax; lia|]. lia.
Qed.
End longest.

(** ** Matching blocks *)

Section blocks.
Context {A : Type} `{EqDecision A} (a b : list A).

(** Non-empty blocks one after the other within a window. *)
Fixpoint chain (alo ahi blo bhi : nat) (l : list block) : Prop :=
  match l with
  | [] => alo <= ahi /\ blo <= bhi
  | x :: l => alo <= bk_a x /\ blo <= bk_b x /\ 0 < bk_size x /\ agree a b (bk_a x) (bk_b x) (bk_size x) /\
              chain (bk_a x + bk_size x) ahi (bk_b x + bk_size x) bhi l
  end.

Lemma chain_range alo ahi blo bhi l : chain alo ahi blo bhi l -> alo <= ahi /\ blo <= bhi.
Proof. revert alo blo. induction l as [|x l IH]; intros alo blo; cbn; [done|]. intros (?&?&?&_&H). apply IH in H. lia. Qed.
Lemma chain_weaken alo alo' ahi blo blo' bhi l : alo' <= alo -> blo' <= blo -> chain alo ahi blo bhi l -> chain alo' ahi blo' bhi l.
Proof. destruct l; cbn; intuition lia. Qed.
Lemma chain_join alo i blo j k ahi bhi l l' : chain alo i blo j l -> 0 < k -> agree a b i j k -> chain (i + k) ahi (j + k) bhi l' ->
  chain alo ahi blo bhi (l ++ Block i j k :: l').
Proof. revert alo blo. induction l as [|x l IH]; intros alo blo; cbn; intuition. Qed.

Definition valid (w : window) : Prop := w_alo w <= w_ahi w /\ w_ahi w <= length a /\ w_blo w <= w_bhi w /\ w_bhi w <= length b.
Definition chain_of (w : window) (l : list block) : Prop := chain (w_alo w) (w_ahi w) (w_blo w) (w_bhi w) l.
Definition cost (queue : list window) : nat := list_sum ((fun w => 2 * (w_ahi w - w_alo w) + 1) <$> queue).

Lemma cost_cons w queue : cost (w :: queue) = 2 * (w_ahi w - w_alo w) + 1 + cost queue.
Proof. done. Qed.

(** What is pushed for one side of a match. *)
Lemma side_spec lo hi lo' hi' : lo <= hi -> hi <= length a -> lo' <= hi' -> hi' <= length b ->
  let ws := if (lo <? hi) && (lo' <? hi') then [Window lo hi lo' hi'] else [] in
  Forall valid ws /\ cost ws <= 2 * (hi - lo) + 1 /\ forall outs, Forall2 chain_of ws outs -> chain lo hi lo' hi' (concat outs).
Proof.
  intros. destruct ((lo <? hi) && (lo' <? hi')); unfold ws; (split_and!; [repeat constructor; cbn; lia|unfold cost; cbn; lia|]); intros outs Ho.
  - inversion Ho as [|? l ? ? Hc Hn]; subst. inversion Hn; subst. cbn. by rewrite app_nil_r.
  - inversion Ho; subst. cbn. lia.
Qed.

(** With fuel for its queue, the loop finds a chain in every window of it, in some order. *)
Lemma matching_loop_spec fuel queue acc : Forall valid queue -> cost queue <= fuel ->
  exists outs, Forall2 chain_of queue outs /\ matching_loop a b fuel queue acc ≡ₚ acc ++ concat outs.
Proof.
  revert queue acc. induction fuel as [|fuel IH]; intros queue acc Hq Hf.
  { destruct queue as [|w queue]; [|rewrite cost_cons in Hf; lia]. exists []. cbn. by rewrite app_nil_r. }
  destruct queue as [|w queue]; [exists []; cbn; by rewrite app_nil_r|].
  apply Forall_cons in Hq as [Hw Hq]. rewrite cost_cons in Hf. cbn [matching_loop].
  destruct Hw as (Ha&Hal&Hb&Hbl). destruct (find_longest_match_spec a b w Ha Hb Hbl) as ((H1&H2&H3&H4&H5)&_).
  set (x := find_longest_match a b w) in *. destruct (Nat.eqb_spec (bk_size x) 0) as [Hz|Hz].
  { destruct (IH queue acc Hq) as (outs&Ho&Hp); [lia|]. exists ([] :: outs). by split; [constructor|]. }
  destruct (side_spec (w_alo w) (bk_a x) (w_blo w) (bk_b x)) as (Hl1&Hl2&Hl3); [lia..|].
  destruct (side_spec (bk_a x + bk_size x) (w_ahi w) (bk_b x + bk_size x) (w_bhi w)) as (Hr1&Hr2&Hr3); [lia..|].
  destruct (IH (push w x queue) (acc ++ [x])) as (outs&Ho&Hp).
  { unfold push. by rewrite !Forall_app. }
  { unfold push, cost in *. rewrite !fmap_app, !list_sum_app. lia. }
  apply Forall2_app_inv_l in Ho as (outs_r&outs'&Hor&(outs_l&outs_q&Hol&Hoq&->)%Forall2_app_inv_l&->).
  exists ((concat outs_l ++ x :: concat outs_r) :: outs_q). split.
  - constructor; [|done]. destruct x as [i j k]. apply chain_join; [by apply Hl3|cbn in *; lia|done|by apply Hr3].
  - rewrite Hp, !concat_app. cbn [concat]. solve_Permutation.
Qed.

(** Sorting puts a chain in order. *)
Definition block_le (x y : block) : Prop := py_le (block_key x) (block_key y) = true.
Lemma chain_starts alo ahi blo bhi l x : chain alo ahi blo bhi l -> x ∈ l -> alo <= bk_a x.
Proof.
  revert alo blo. induction l as [|y l IH]; intros alo blo; cbn; [by intros _ ?%not_elem_of_nil|].
  intros (?&?&?&_&H) [->|Hx]%elem_of_cons; [done|]. apply IH in H; [lia|done].
Qed.
Lemma chain_sorted alo ahi blo bhi l : chain alo ahi blo bhi l -> Sorting.Sorted.StronglySorted block_le l.
Proof.
  revert alo blo. induction l as [|x l IH]; intros alo blo; cbn; [constructor|]. intros (?&?&?&_&H).
  constructor; [by eapply IH|]. apply List.Forall_forall. intros y Hy%list_elem_of_In. apply (chain_starts _ _ _ _ _ _ H) in Hy.
  unfold block_le, block_key. cbn. repeat case_match; try done; bool_prop; lia.
Qed.
Lemma block_le_antisym x y : block_le x y -> block_le y x -> x = y.
Proof.
  unfold block_le, block_key. destruct x, y. cbn. intros H1 H2. repeat case_match; try done; bool_prop; f_equal; lia.
Qed.
Lemma sort_chain alo ahi blo bhi l l' : chain alo ahi blo bhi l -> l' ≡ₚ l -> py_sorted block_key l' = l.
Proof.
  intros Hc Hp. apply (sorting.StronglySorted_unique_strong block_le).
  - intros x y _ _. apply block_le_antisym.
  - by apply py_sorted_ordered.
  - by eapply chain_sorted.
  - by rewrite py_sorted_perm.
Qed.

(** Adjacent blocks are joined. *)
Lemma collapse_chain l alo ahi blo bhi i j k : alo <= i -> blo <= j -> agree a b i j k -> chain (i + k) ahi (j + k) bhi l ->
  chain alo ahi blo bhi (collapse i j k l).
Proof.
  revert alo blo i j k. induction l as [|[i2 j2 k2] l IH]; intros alo blo i j k Hi Hj Ha Hc; cbn [collapse].
  - unfold flush. destruct (Nat.eqb_spec k 0); cbn in *; [lia|]. split_and!; [lia..|done|lia|lia].
  - cbn [chain bk_a bk_b bk_size] in Hc. destruct Hc as (H1&H2&H3&H4&H5).
    destruct (Nat.eqb_spec (i + k) i2) as [<-|?], (Nat.eqb_spec (j + k) j2) as [<-|?]; cbn [andb].
    1: { apply IH; [done..|by apply agree_app|by rewrite !Nat.add_assoc]. }
    all: unfold flush; destruct (Nat.eqb_spec k 0); cbn [app].
    all: try (apply IH; [lia|lia|done|done]).
    all: cbn [chain bk_a bk_b bk_size]; split_and!; [lia|lia|lia|done|apply IH; [lia|lia|done|done]].
Qed.

Lemma matching_blocks_chain : exists l, get_matching_blocks a b = l ++ [Block (length a) (length b) 0] /\ chain 0 (length a) 0 (length b) l.
Proof.
  unfold get_matching_blocks. eexists. split; [done|].
  destruct (matching_loop_spec (matching_fuel a) [Window 0 (length a) 0 (length b)] []) as (outs&Ho&Hp).
  { repeat constructor; cbn; lia. }
  { unfold cost, matching_fuel. cbn. lia. }
  inversion Ho as [|? l ? ? Hc Hn]; subst. inversion Hn; subst. cbn [concat app] in Hp. rewrite app_nil_r in Hp.
  rewrite (sort_chain _ _ _ _ _ _ Hc Hp). apply collapse_chain; [done..|apply agree_0|done].
Qed.

(** ** Opcodes *)

Definition op_ok (o : opcode) : Prop :=
  match op_tag o with
  | Replace => op_a1 o < op_a2 o /\ op_b1 o < op_b2 o
  | Delete => op_a1 o < op_a2 o /\ op_b1 o = op_b2 o
  | Insert => op_a1 o = op_a2 o /\ op_b1 o < op_b2 o
  | Equal => op_a1 o < op_a2 o /\ op_b2 o - op_b1 o = op_a2 o - op_a1 o /\ op_b1 o < op_b2 o /\ agree a b (op_a1 o) (op_b1 o) (op_a2 o - op_a1 o)
  end.
(** The opcodes cover both sequences from [i] and [j] on, without gaps. *)
Fixpoint tiles (i j : nat) (ops : list opcode) : Prop :=
  match ops with
  | [] => i = length a /\ j = length b
  | o :: ops => op_a1 o = i /\ op_b1 o = j /\ op_ok o /\ tiles (op_a2 o) (op_b2 o) ops
  end.

Lemma gap_tiles i ai j bj ops : i <= ai -> j <= bj -> tiles ai bj ops -> tiles i j (gap i ai j bj ++ ops).
Proof.
  intros Hi Hj Ht. unfold gap. destruct (Nat.ltb_spec i ai), (Nat.ltb_spec j bj); cbn; unfold op_ok; cbn; try (split_and!; [lia..|done]).
  by replace i with ai by lia; replace j with bj by lia.
Qed.
Lemma opcodes_from_tile i j l : chain i (length a) j (length b) l -> tiles i j (opcodes_from i j (l ++ [Block (length a) (length b) 0])).
Proof.
  revert i j. induction l as [|[ai bj k] l IH]; intros i j Hc; cbn [app opcodes_from].
  - cbn in Hc. apply gap_tiles; [lia..|]. cbn. lia.
  - cbn [chain bk_a bk_b bk_size] in Hc. destruct Hc as (H1&H2&H3&H4&H5). apply gap_tiles; [lia..|].
    destruct (Nat.eqb_spec k 0); [lia|]. cbn [app tiles op_a1 op_a2 op_b1 op_b2]. unfold op_ok. cbn [op_tag op_a1 op_a2 op_b1 op_b2].
    rewrite !Nat.add_sub_swap, !Nat.sub_diag, !Nat.add_0_l by lia. split_and!; [lia..|done|by apply IH].
Qed.
Lemma opcodes_tile : tiles 0 0 (get_opcodes a b).
Proof. unfold get_opcodes. destruct matching_blocks_chain as (l&->&Hc). by apply opcodes_from_tile. Qed.

Lemma tiles_range i j ops o : tiles i j ops -> o ∈ ops -> op_ok o /\ i <= op_a1 o /\ j <= op_b1 o.
Proof.
  revert i j. induction ops as [|p ops IH]; intros i j; cbn; [by intros _ ?%not_elem_of_nil|].
  intros (<-&<-&Hp&Ht) [->|Ho]%elem_of_cons; [by split|]. destruct (IH _ _ Ht Ho) as (?&?&?).
  assert (op_a1 p <= op_a2 p /\ op_b1 p <= op_b2 p) by (unfold op_ok in Hp; destruct (op_tag p); lia). split; [done|lia].
Qed.

(** Only equal sequences have no other opcodes than equal ones. *)
Lemma tiles_equal i ops : tiles i i ops -> (forall o, o ∈ ops -> is_equal o = true) -> agree a b 0 0 i -> i <= length a -> a = b.
Proof.
  revert i. induction ops as [|o ops IH]; intros i; cbn; intros Ht Heq Ha Hi.
  - destruct Ht as [Hla Hlb]. apply list_eq_same_length with (length a); [lia|done|].
    intros t x y Ht Hx Hy. destruct (Ha t) as (e&He1&He2); [lia|]. cbn in *. congruence.
  - destruct Ht as (H1&H2&Hok&Ht). pose proof (Heq o ltac:(by left)) as Ho. unfold op_ok, is_equal in *. destruct (op_tag o); try done.
    destruct Hok as (H3&H4&H5&H6). replace (op_b2 o) with (op_a2 o) in Ht by lia. apply (IH _ Ht).
    + intros; apply Heq; by right.
    + replace (op_a2 o) with (i + (op_a2 o - op_a1 o)) by lia. apply agree_app; [done|]. by rewrite H1, H2 in H6; cbn; rewrite H1.
    + destruct (decide (op_a2 o <= length a)); [done|]. exfalso. destruct (H6 (op_a2 o - op_a1 o - 1)) as (e&He&_); [lia|].
      apply lookup_lt_Some in He. lia.
Qed.
End blocks.

(** A sequence is matched with itself as a whole. *)
Lemma find_longest_match_self {A} `{EqDecision A} (a : list A) :
  find_longest_match a a (Window 0 (length a) 0 (length a)) = Block 0 0 (length a).
Proof.
  destruct (find_longest_match_spec a a (Window 0 (length a) 0 (length a))) as ((H1&H2&H3&H4&_)&Hmax); [cbn; lia..|].
  specialize (Hmax 0 0 (length a)). cbn [w_alo w_ahi w_blo w_bhi] in *. destruct (find_longest_match _ _ _) as [i j k]. cbn in *.
  assert (length a <= k); [|f_equal; lia]. apply Hmax; [lia..|]. intros t Ht. cbn.
  destruct (lookup_lt_is_Some_2 a t Ht) as [e He]. by exists e.
Qed.
Lemma get_opcodes_self {A} `{EqDecision A} (a : list A) :
  get_opcodes a a = if length a =? 0 then [] else [Op Equal 0 (length a) 0 (length a)].
Proof.
  unfold get_opcodes, get_matching_blocks, matching_fuel. rewrite Nat.add_1_r. cbn [matching_loop]. rewrite find_longest_match_self. cbn [bk_size].
  destruct (Nat.eqb_spec (length a) 0) as [->|Hn]; [done|].
  unfold push. cbn [bk_a bk_b bk_size w_alo w_ahi w_blo w_bhi]. rewrite Nat.ltb_irrefl. cbn [Nat.add Nat.ltb Nat.leb andb app].
  replace (matching_loop a a _ [] _) with [Block 0 0 (length a)] by by destruct (2 * length a).
  cbn [py_sorted py_insert collapse Nat.add Nat.eqb andb flush]. unfold flush. destruct (Nat.eqb_spec (length a) 0); [done|].
  cbn [app opcodes_from Nat.add]. unfold gap. rewrite !Nat.ltb_irrefl. by destruct (Nat.eqb_spec (length a) 0).
Qed.

(** All opcodes are equal ones exactly for equal sequences. *)
Lemma opcodes_equal {A} `{EqDecision A} (a b : list A) : (forall o, o ∈ get_opcodes a b -> is_equal o = true) <-> a = b.
Proof.
  split.
  - intros H. by apply (tiles_equal a b 0 (get_opcodes a b)); [apply opcodes_tile| |apply agree_0|lia].
  - intros <- o. rewrite get_opcodes_self. case_match; [by intros ?%not_elem_of_nil|]. by intros ->%list_elem_of_singleton.
Qed.

Example opcodes_of_the_documentation :
  get_opcodes ["q"; "a"; "b"; "x"; "c"; "d"] ["a"; "b"; "y"; "c"; "d"; "f"] =
  [Op Delete 0 1 0 0; Op Equal 1 3 0 2; Op Replace 3 4 2 3; Op Equal 4 6 3 5; Op Insert 6 6 5 6].
Proof. vm_compute. reflexivity. Qed.
Example longest_before_prefix : get_opcodes ["a"; "b"] ["a"; "c"; "a"; "b"] = [Op Insert 0 0 0 2; Op Equal 0 2 2 4].
Proof. vm_compute. reflexivity. Qed.
