(* ===== verification/Triage.v ===== *)
(** * Differential triage ([ppc_lab_triage.py])

    Two executions of a job, or two captured traces, are compared: where the traces part, where they
    meet again, how the snapshots differ, and in which class the difference falls; a bundle keeps the
    report with a job that stops shortly after the traces part.  The record [world] has the documents
    and the texts that are written, and the runs of the worker; a [machine] says what the worker
    answers and what the file system holds. *)
From stdpp Require Import pretty.
From Stdlib Require Import SpecFloat Ascii.
From S2P Require Export PyState JsonParse Sha Worker Trace Difflib.
Open Scope Z_scope.

Abbreviation obj := VDict.

Definition TRACE_SCHEMA : string := "ppc-lab-trace-v1".
Definition TRIAGE_SCHEMA : string := "ppc-lab-differential-triage-v1".
Definition BUNDLE_SCHEMA : string := "ppc-lab-triage-bundle-v1".

Inductive reply := Expired | Exited (stdout : string).
Record machine := Machine {
  m_worker : nat -> list string -> value -> reply;   (* by run: the command and the job on its input *)
  m_which : string -> option string;
  m_resolve : string -> string;
  m_file : string -> option string }.                (* the content of a file *)
Record world := World { docs : dict value; texts : dict string; runs : list (list string * value) }.
Abbreviation TM := (M world).

(** ** Documents *)

Definition read_json (path : string) : TM value :=
  w ← gets id;
  match dget path (docs w) with Some v => mret v | None => lift (app_error ("cannot read JSON " +:+ path)) end.
Definition write_json (path : string) (v : value) : TM unit := modify (fun w => World (dset path v (docs w)) (texts w) (runs w)).
Definition write_text (path text : string) : TM unit := modify (fun w => World (docs w) (dset path text (texts w)) (runs w)).

(** ** Traces *)

Definition event_doc (e : captured) : value :=
  obj [("pc", VStr (cp_pc e)); ("instruction", VStr (cp_instruction e)); ("disassembly", VStr (cp_disassembly e)); ("symbol", VStr (cp_symbol e))].
(** The expressions [HEAD] and [TAIL] are those of the capture script. *)
Definition trace_event (line : string) : option value := event_doc <$> parse line.
Definition sort_line (acc : list value * list value) (line : string) : list value * list value :=
  match trace_event line with
  | Some e => (fst acc ++ [e], snd acc)
  | None => if str_empty (str_strip line) then acc else (fst acc, snd acc ++ [VStr line])
  end.
Definition trace_from_worker_response (response : value) : res value :=
  stderr ← vget_or "stderr" (VStr "") response;
  let '(events, other) := fold_left sort_line (text_lines (py_str stderr) "") ([], []) in
  exit_code ← vget "exit_code" response;
  stdout ← vget_or "stdout" (VStr "") response;
  Ok (obj [("schema", VStr TRACE_SCHEMA); ("exit_code", exit_code); ("events", VList events); ("stderr_unparsed", VList other); ("stdout", stdout)]).
Definition ensure_trace (v : value) (label : string) : res (dict value) :=
  match v with
  | VDict d => _ ← guard_app (eq_str (dget_n "schema" d) TRACE_SCHEMA && is_list (dget_n "events" d)) (label +:+ " must be " +:+ TRACE_SCHEMA); Ok d
  | _ => app_error (label +:+ " must be " +:+ TRACE_SCHEMA)
  end.
(** [trace["events"]] of a trace that was ensured. *)
Definition events_of (trace : dict value) : list value := match dget_n "events" trace with VList l => l | _ => [] end.

Definition sig (event : value) : res (string * string) :=
  pc ← vget_or "pc" (VStr "") event;
  insn ← vget_or "instruction" (VStr "") event;
  Ok (str_lower (py_str pc), str_lower (py_str insn)).
(** [event.get(k, default)] of an event whose signature was taken. *)
Definition field_or (k : string) (dflt event : value) : value := match event with VDict d => dget_or k dflt d | _ => dflt end.
Definition field (k : string) (event : value) : value := field_or k VNone event.
Definition compact_event (event : value) (index : Z) : value :=
  obj [("index", VInt index); ("pc", field "pc" event); ("instruction", field "instruction" event);
       ("disassembly", field_or "disassembly" (VStr "") event); ("symbol", field_or "symbol" (VStr "") event)].

(** ** Snapshots *)

Definition ignored (key : string) : bool := existsb (String.eqb key) ["backend"; "format"; "symbols"].
Definition missing : value := VStr "<missing>".
Definition difference (path : string) (left right : value) : value := obj [("path", VStr path); ("left", left); ("right", right)].
(** [sorted(set(left) | set(right))] *)
Definition union_keys (left right : dict value) : list string := py_sorted id (remove_dups (dkeys left ++ dkeys right)).
Fixpoint stable_snapshot_diff (left right : value) (path : string) {struct left} : list value :=
  match left, right with
  | VDict l, VDict r =>
      let below := (fix go (d : dict value) : dict (value -> string -> list value) :=
                      match d with [] => [] | (k, v) :: d => (k, stable_snapshot_diff v) :: go d end) l in
      List.flat_map (fun key =>
        let here := path +:+ "." +:+ key in
        if ignored key then []
        else match dget key below, dget key r with
             | Some diff, Some v => diff v here
             | _, _ => [difference here (dget_or key missing l) (dget_or key missing r)]
             end) (union_keys l r)
  | VList l, VList r =>
      (if (length l =? length r)%nat then [] else [difference (path +:+ ".length") (VInt (len l)) (VInt (len r))]) ++
      (fix go (l r : list value) (i : Z) : list value :=
         match l, r with
         | x :: l, y :: r => stable_snapshot_diff x y (path +:+ "[" +:+ pretty i +:+ "]") ++ go l r (i + 1)
         | _, _ => []
         end) l r 0
  | _, _ => if py_eq left right then [] else [difference path left right]
  end.

(** ** Comparing traces *)

Definition classify (left_event right_event : option value) : string :=
  match left_event, right_event with
  | Some l, Some r =>
      if negb (py_eq (field "pc" l) (field "pc" r)) then "control-flow"
      else if negb (py_eq (field "instruction" l) (field "instruction" r)) then "instruction-bytes"
      else "dynamic-sequence"
  | _, _ => "trace-length"
  end.

Fixpoint common_prefix (ls rs : list (string * string)) : nat :=
  match ls, rs with
  | l :: ls, r :: rs => if bool_decide (l = r) then S (common_prefix ls rs) else O
  | _, _ => O
  end.
(** [{x.get("pc") for x in events}] *)
Definition add_distinct (seen : list value) (v : value) : res (list value) :=
  if is_list v || is_dict v then Raise (Exn TypeError ("unhashable type: '" +:+ type_name v +:+ "'"))
  else Ok (if existsb (py_eq v) seen then seen else seen ++ [v]).
Definition unique_pcs (events : list value) : res Z := pcs ← res_fold add_distinct [] (field "pc" <$> events); Ok (len pcs).

Record resync := Resync { rs_left : nat; rs_right : nat; rs_length : nat; rs_pc : value }.
Definition nat_value (n : nat) : value := VInt (Z.of_nat n).
Definition resync_doc (r : resync) : value :=
  obj [("left_index", nat_value (rs_left r)); ("right_index", nat_value (rs_right r)); ("length", nat_value (rs_length r)); ("pc", rs_pc r)].
Definition divergent_opcode (opcodes : list opcode) : option opcode := List.find (fun op => negb (is_equal op)) opcodes.
(** The first equal block after the first opcode that is not one. *)
Definition resync_opcode (opcodes : list opcode) : option opcode :=
  match divergent_opcode opcodes with
  | Some d => List.find (fun op => is_equal op && (op_a2 d <=? op_a1 op)%nat && (op_b2 d <=? op_b1 op)%nat && (op_a1 op <? op_a2 op)%nat) opcodes
  | None => None
  end.
Definition resynchronization (le : list value) (opcodes : list opcode) : option resync :=
  match resync_opcode opcodes with
  | Some op => Some (Resync (op_a1 op) (op_b1 op) (Nat.min (op_a2 op - op_a1 op) (op_b2 op - op_b1 op))
                       (match le !! op_a1 op with Some e => field "pc" e | None => VNone end))
  | None => None
  end.

Definition or_null {A} (f : A -> value) (o : option A) : value := match o with Some x => f x | None => VNone end.
(** [compact_event(e, i) if e else None]: an empty event is none. *)
Definition first_event (prefix : nat) (e : option value) : value :=
  match e with Some e => if py_bool e then compact_event e (Z.of_nat prefix) else VNone | None => VNone end.
(** [events[lo:hi]] with their indices. *)
Definition window_rows (events : list value) (lo hi : nat) : list value :=
  (fun '(i, e) => compact_event e i) <$> enumerate_from (Z.of_nat lo) (take (hi - lo) (drop lo events)).
Definition shown (prefix : nat) (op : opcode) : bool := negb (is_equal op) || ((op_a1 op <=? prefix)%nat && (prefix <=? op_a2 op)%nat).
Definition alignment_row (op : opcode) : value :=
  obj [("kind", VStr (tag_name (op_tag op))); ("left", VList [nat_value (op_a1 op); nat_value (op_a2 op)]);
       ("right", VList [nat_value (op_b1 op); nat_value (op_b2 op)])].

Definition add_snapshots (trace_equal : bool) (snapshots : option (value * value)) (report : dict value) : dict value :=
  match snapshots with
  | Some (VDict l, VDict r) =>
      let sd := stable_snapshot_diff (obj l) (obj r) "$" in
      let state_equal := match sd with [] => true | _ => false end in
      let report := dset "snapshot" (obj [("equal", VBool state_equal); ("differences", VList (take 256 sd)); ("difference_count", VInt (len sd))]) report in
      if state_equal then report
      else let report := dset "equal" (VBool false) report in
           if trace_equal then dset "classification" (VStr "state-only") report else report
  | _ => report
  end.
Definition compare_traces (context : Z) (snapshots : option (value * value)) (left right : dict value) : res (dict value) :=
  let le := events_of left in
  let revents := events_of right in
  ls ← res_map sig le;
  rs ← res_map sig revents;
  let prefix := common_prefix ls rs in
  let trace_equal := bool_decide (ls = rs) in
  let opcodes := get_opcodes ls rs in
  let resync := resynchronization le opcodes in
  let classification := if trace_equal then "equal" else classify (le !! prefix) (revents !! prefix) in
  let context := Z.to_nat (Z.max 0 context) in
  let start := (prefix - context)%nat in
  let lend := Nat.min (length le) (match resync with Some r => rs_left r | None => S prefix end + context + 1) in
  let rend := Nat.min (length revents) (match resync with Some r => rs_right r | None => S prefix end + context + 1) in
  left_unique ← unique_pcs le;
  right_unique ← unique_pcs revents;
  Ok (add_snapshots trace_equal snapshots
    [("schema", VStr TRIAGE_SCHEMA); ("equal", VBool trace_equal); ("trace_equal", VBool trace_equal); ("classification", VStr classification);
     ("summary", obj [("left_events", VInt (len le)); ("right_events", VInt (len revents)); ("common_prefix_events", nat_value prefix);
                      ("left_unique_pcs", VInt left_unique); ("right_unique_pcs", VInt right_unique)]);
     ("first_divergence", if trace_equal then VNone
                          else obj [("left", first_event prefix (le !! prefix)); ("right", first_event prefix (revents !! prefix))]);
     ("resynchronization", or_null resync_doc resync);
     ("window", obj [("left", VList (window_rows le start lend)); ("right", VList (window_rows revents start rend))]);
     ("alignment", VList (take 32 (alignment_row <$> List.filter (shown prefix) opcodes)))]).

(** ** Running the worker *)

Section run.
Context (m : machine).

(** [path.is_file()] *)
Definition is_file (path : string) : bool := match m_file m path with Some _ => true | None => false end.
Definition resolve_program (v label : string) : res string :=
  let path := m_resolve m (default v (m_which m v)) in
  _ ← guard_app (is_file path) ("cannot find " +:+ label +:+ ": " +:+ v); Ok path.
Definition worker_command (python worker cli base : string) (root : option string) (timeout : float) : list string :=
  [python; worker; "--ppc-lab"; cli; "--base-dir"; base; "--timeout"; float_repr timeout] ++
  match root with Some r => ["--root"; r] | None => [] end ++ ["run"; "-"].
Definition run_worker (cmd : list string) (job : value) : TM value :=
  w ← gets id;
  _ ← modify (fun w => World (docs w) (texts w) (runs w ++ [(cmd, job)]));
  match m_worker m (length (runs w)) cmd job with
  | Expired => throw TimeoutExpired "the worker outlived its time"
  | Exited stdout => match loads stdout with Ok v => mret v | Raise _ => lift (app_error "worker returned invalid JSON") end
  end.

Definition provenance_of (base : string) (root : option string) (image : dict value) (out : list value) (field : string) : res (list value) :=
  match dget_n field image with
  | VStr raw =>
      let p := m_resolve m (path_join base raw) in
      _ ← guard_app (match root with Some r => path_within (m_resolve m r) p | None => true end)
            ("image." +:+ field +:+ " is outside triage root: " +:+ p);
      match m_file m p with
      | Some content => Ok (out ++ [obj [("field", VStr ("image." +:+ field)); ("path", VStr raw);
                                         ("size", VInt (Z.of_nat (String.length content))); ("sha256", VStr (sha256_hex content))]])
      | None => Ok out
      end
  | _ => Ok out
  end.
Definition job_input_provenance (job : dict value) (base : string) (root : option string) : res (list value) :=
  let image := match dget_or "image" (obj []) job with VDict d => d | _ => [] end in
  res_fold (provenance_of base root image) [] ["path"; "data_path"].
End run.

(** ** The bundle *)

(** [int(str(v), 0)], or 0. *)
Definition previous_limit (v : value) : Z := match v with VNone => 0 | v => default 0 (int_of_string0 (py_str v)) end.
Definition reduced_limit (prefix previous : Z) : Z :=
  let reduced := Z.max 1 (prefix + 8) in
  if 0 <? previous then Z.min reduced previous else reduced.
Definition prefix_events (report : dict value) : res Z :=
  summary ← dindex "summary" report;
  n ← vindex "common_prefix_events" summary;
  py_int n.
Definition reduce_job (report job : dict value) : res (dict value) :=
  if py_bool (dget_n "equal" report) then Ok job
  else match dget_or "execution" (obj []) job with
       | VDict execution =>
           prefix ← prefix_events report;
           let reduced := reduced_limit prefix (previous_limit (dget_n "max_instructions" execution)) in
           Ok (dset "execution" (obj (dset "trace" (VBool true) (dset "max_instructions" (VInt reduced) execution))) job)
       | v => no_attr v "get"
       end.

Definition lower_str (v : value) : string := str_lower (py_str v).
Definition tick (s : string) : string := "`" +:+ s +:+ "`".
Definition readme (report : dict value) : res string :=
  prefix ← vget_or "common_prefix_events" (VInt 0) (dget_or "summary" (obj []) report);
  let div := dget_n "first_divergence" report in
  first ← (if py_bool div then
             l ← vget "left" div;
             r ← vget "right" div;
             Ok [""; "## First divergence"; ""; "- left: " +:+ tick (py_str l); "- right: " +:+ tick (py_str r)]
           else Ok []);
  let resync := dget_n "resynchronization" report in
  Ok (str_join (sp 10)
    (["# PPC Lab differential triage bundle"; ""; "Equal: " +:+ tick (lower_str (dget_n "equal" report));
      "Classification: " +:+ tick (py_str (dget_n "classification" report)); "Common prefix: " +:+ tick (py_str prefix) +:+ " events"] ++ first ++
     (if py_bool resync then [""; "Resynchronizes at: " +:+ tick (py_str resync)] else []) ++
     [""; "Target binaries are not copied into this bundle."; ""])).

Definition write_bundle (bundle : string) (report left_trace right_trace : dict value) (job : option (dict value)) (responses : option (value * value)) : TM unit :=
  let at_ name := bundle +:+ "/" +:+ name in
  _ ← write_json (at_ "triage.json") (obj report);
  _ ← write_json (at_ "left.trace.json") (obj left_trace);
  _ ← write_json (at_ "right.trace.json") (obj right_trace);
  let manifest := [("schema", VStr BUNDLE_SCHEMA); ("triage", VStr "triage.json"); ("left_trace", VStr "left.trace.json"); ("right_trace", VStr "right.trace.json")] in
  manifest ← match job with
             | Some job =>
                 repro ← lift (reduce_job report job);
                 _ ← write_json (at_ "repro.job.json") (obj repro);
                 mret (dset "repro_job" (VStr "repro.job.json") manifest)
             | None => mret manifest
             end;
  manifest ← match responses with
             | Some (l, r) =>
                 _ ← write_json (at_ "left.response.json") l;
                 _ ← write_json (at_ "right.response.json") r;
                 mret (dset "right_response" (VStr "right.response.json") (dset "left_response" (VStr "left.response.json") manifest))
             | None => mret manifest
             end;
  _ ← write_json (at_ "manifest.json") (obj manifest);
  text ← lift (readme report);
  write_text (at_ "README.md") text.

(** ** Commands *)

Record options := Options { o_context : Z; o_json : option string; o_bundle : option string; o_fail_on_diff : bool }.
Definition if_some {A} (o : option A) (f : A -> TM unit) : TM unit := match o with Some x => f x | None => mret tt end.
Definition exit_status (o : options) (report : dict value) : res Z :=
  equal ← dindex "equal" report; Ok (if o_fail_on_diff o && negb (py_bool equal) then 1 else 0).

Definition command_compare (o : options) (left right : string) (left_snapshot right_snapshot : option string) : TM Z :=
  l ← read_json left;
  l ← lift (ensure_trace l "left trace");
  r ← read_json right;
  r ← lift (ensure_trace r "right trace");
  snapshots ← match left_snapshot, right_snapshot with
              | None, None => mret None
              | Some ls, Some rs => a ← read_json ls; b ← read_json rs; mret (Some (a, b))
              | _, _ => lift (app_error "both --left-snapshot and --right-snapshot are required together")
              end;
  report ← lift (compare_traces (o_context o) snapshots l r);
  _ ← if_some (o_json o) (fun path => write_json path (obj report));
  _ ← if_some (o_bundle o) (fun bundle => write_bundle bundle report l r None None);
  lift (exit_status o report).

Record run_options := RunOptions {
  r_python : string; r_job : string; r_base : string;             (* the resolved path of the job, and its parent *)
  r_left_cli : string; r_right_cli : option string; r_left_worker : string; r_right_worker : option string;
  r_left_backend : string; r_right_backend : string; r_root : option string; r_timeout : float }.
(** [a or b] of command line options. *)
Definition or_str (a : option string) (b : string) : string := match a with Some s => if str_empty s then b else s | None => b end.
(** The job on one side: its backend, and with a trace. *)
Definition set_execution (k : string) (v : value) (job : dict value) : res (dict value) :=
  match dget_or "execution" (obj []) job with
  | VDict e => Ok (dset "execution" (obj (dset k v e)) job)
  | e => Raise (Exn TypeError ("'" +:+ type_name e +:+ "' object does not support item assignment"))
  end.
Definition outcome (response : value) : res value :=
  ok ← vget "ok" response;
  code ← vget "exit_code" response;
  timed_out ← vget_or "timed_out" (VBool false) response;
  Ok (VList [ok; code; timed_out]).
Definition side_doc (engine backend : string) (response : value) : res value :=
  ok ← vget "ok" response;
  code ← vget "exit_code" response;
  Ok (obj [("engine", VStr engine); ("backend", VStr backend); ("ok", ok); ("exit_code", code)]).
(** The outcomes are compared, and a difference between them is one of the report. *)
Definition add_run (left right : value) (inputs : list value) (lo ro : value) (report : dict value) : dict value :=
  let same := py_eq lo ro in
  let report := dset "run" (obj [("left", left); ("right", right); ("inputs", VList inputs); ("outcome_equal", VBool same)]) report in
  if same then report
  else let report := dset "equal" (VBool false) report in
       if eq_str (dget_n "classification" report) "equal" then dset "classification" (VStr "worker-outcome") report else report.

Definition command_run (m : machine) (o : options) (ro : run_options) : TM Z :=
  job ← read_json (r_job ro);
  match job with
  | VDict job =>
      _ ← lift (guard_app (eq_str (dget_n "schema" job) "ppc-lab-job-v1") "job must use ppc-lab-job-v1");
      left_job ← lift (set_execution "backend" (VStr (r_left_backend ro)) job);
      right_job ← lift (set_execution "backend" (VStr (r_right_backend ro)) job);
      left_job ← lift (set_execution "trace" (VBool true) left_job);
      right_job ← lift (set_execution "trace" (VBool true) right_job);
      left_cli ← lift (resolve_program m (r_left_cli ro) "left ppc-lab");
      right_cli ← lift (resolve_program m (or_str (r_right_cli ro) (r_left_cli ro)) "right ppc-lab");
      left_worker ← lift (resolve_program m (r_left_worker ro) "left worker");
      right_worker ← lift (resolve_program m (or_str (r_right_worker ro) (r_left_worker ro)) "right worker");
      let root := m_resolve m <$> r_root ro in
      left_response ← run_worker m (worker_command (r_python ro) left_worker left_cli (r_base ro) root (r_timeout ro)) (obj left_job);
      right_response ← run_worker m (worker_command (r_python ro) right_worker right_cli (r_base ro) root (r_timeout ro)) (obj right_job);
      left_trace ← lift (t ← trace_from_worker_response left_response; ensure_trace t "left trace");
      right_trace ← lift (t ← trace_from_worker_response right_response; ensure_trace t "right trace");
      left_snapshot ← lift (vget "snapshot" left_response);
      right_snapshot ← lift (vget "snapshot" right_response);
      report ← lift (compare_traces (o_context o) (Some (left_snapshot, right_snapshot)) left_trace right_trace);
      left ← lift (side_doc left_cli (r_left_backend ro) left_response);
      right ← lift (side_doc right_cli (r_right_backend ro) right_response);
      inputs ← lift (job_input_provenance m job (r_base ro) root);
      lo ← lift (outcome left_response);
      ro ← lift (outcome right_response);
      let report := add_run left right inputs lo ro report in
      _ ← if_some (o_json o) (fun path => write_json path (obj report));
      _ ← if_some (o_bundle o) (fun bundle => write_bundle bundle report left_trace right_trace (Some job) (Some (left_response, right_response)));
      lift (exit_status o report)
  | _ => lift (app_error "job must use ppc-lab-job-v1")
  end.

Inductive command :=
  | Compare (left right : string) (left_snapshot right_snapshot : option string)
  | Run (ro : run_options).
Definition command_of (m : machine) (o : options) (c : command) : TM Z :=
  match c with Compare l r ls rs => command_compare o l r ls rs | Run ro => command_run m o ro end.
(** The exit code, as [ap.error] has it for refused options; an exception of another class is a traceback. *)
Definition main (m : machine) (o : options) (c : command) : TM Z :=
  if (o_context o <? 0) || match c with Run ro => fleb (r_timeout ro) fzero | _ => false end then mret 2
  else catch [AppError; TimeoutExpired] (command_of m o c) (fun _ => mret 2).
