(* ===== verification/TriageProps.v ===== *)
(** * Properties of differential triage

    A report says that two traces are equal exactly when their signatures are, gives the length of
    their common prefix and a point where they meet again; snapshots differ exactly when they do outside
    the fields that are ignored; a run's verdict compares traces, snapshots and outcomes; and the job of
    a bundle stops shortly after the traces part. *)
From Stdlib Require Import SpecFloat Ascii.
From S2P Require Import Triage.

(** ** Equality of documents *)

(** Objects have distinct keys, as [json.loads] makes them. *)
Fixpoint wf_value (v : value) : Prop :=
  match v with
  | VList l => (fix go (l : list value) : Prop := match l with [] => True | x :: l => wf_value x /\ go l end) l
  | VDict d => dwf d /\ (fix go (d : dict value) : Prop := match d with [] => True | (_, x) :: d => wf_value x /\ go d end) d
  | _ => True
  end.
Lemma wf_list l : wf_value (VList l) <-> Forall wf_value l.
Proof. cbn. induction l as [|x l IH]; [by split|]. rewrite Forall_cons. naive_solver. Qed.
Lemma wf_dict d : wf_value (VDict d) <-> dwf d /\ Forall (fun kv => wf_value (snd kv)) d.
Proof.
  cbn. enough (H : (fix go (d : dict value) : Prop := match d with [] => True | (_, x) :: d => wf_value x /\ go d end) d <->
                   Forall (fun kv => wf_value (snd kv)) d) by naive_solver.
  induction d as [|[k x] d IH]; [by split|]. rewrite Forall_cons. cbn. naive_solver.
Qed.

Lemma py_eq_list l m : py_eq (VList l) (VList m) = true <-> Forall2 (fun x y => py_eq x y = true) l m.
Proof.
  cbn. revert m. induction l as [|x l IH]; intros [|y m]; split; try done; try (by inversion 1).
  - intros [? ?]%andb_true_iff. constructor; [done|]. by apply IH.
  - inversion 1; subst. apply andb_true_iff. split; [done|]. by apply IH.
Qed.
Lemma py_eq_dict d e : py_eq (VDict d) (VDict e) = true <->
  length d = length e /\ forall k x, (k, x) ∈ d -> exists y, dget k e = Some y /\ py_eq x y = true.
Proof.
  cbn [py_eq]. rewrite andb_true_iff, Nat.eqb_eq. apply and_iff_compat_l.
  induction d as [|[k x] d IH]; [split; [by intros _ ?? ?%not_elem_of_nil|done]|]. rewrite andb_true_iff, IH. split.
  - intros [Hx Hd] k' x' [[= -> ->]|Hin]%elem_of_cons; [|by apply Hd]. destruct (dget k e) as [y|]; [by exists y|done].
  - intros H. split; [|intros; apply H; by right]. destruct (H k x) as (y&->&Hy); [by left|done].
Qed.

(** ** Snapshots *)

(** The snapshot without the fields that are ignored, at any depth. *)
Fixpoint stable (v : value) : value :=
  match v with
  | VList l => VList (List.map stable l)
  | VDict d => VDict (List.flat_map (fun kv => if ignored (fst kv) then [] else [(fst kv, stable (snd kv))]) d)
  | v => v
  end.
#[local] Arguments ignored : simpl never.
Definition stable_items (d : dict value) : dict value :=
  List.flat_map (fun kv => if ignored (fst kv) then [] else [(fst kv, stable (snd kv))]) d.

Lemma elem_of_stable_items k x d : (k, x) ∈ stable_items d <-> ignored k = false /\ exists y, (k, y) ∈ d /\ x = stable y.
Proof.
  unfold stable_items. rewrite list_elem_of_In, List.in_flat_map. split.
  - intros ([k' y]&Hin%list_elem_of_In&Hx). cbn in Hx. destruct (ignored k') eqn:Hi; [destruct Hx|]. destruct Hx as [[= <- <-]|[]]. eauto.
  - intros (Hi&y&Hin&->). exists (k, y). split; [by apply list_elem_of_In|]. cbn. rewrite Hi. by left.
Qed.
Lemma stable_keys k d : k ∈ dkeys (stable_items d) <-> ignored k = false /\ k ∈ dkeys d.
Proof.
  unfold dkeys. rewrite !list_elem_of_fmap. split.
  - intros ([k' x]&->&(Hi&y&Hin&_)%elem_of_stable_items). split; [done|]. by exists (k', y).
  - intros (Hi&[k' y]&->&Hin). exists (k', stable y). split; [done|]. apply elem_of_stable_items. eauto.
Qed.
Lemma stable_dwf d : dwf d -> dwf (stable_items d).
Proof.
  unfold dwf. induction d as [|[k x] d IH]; [done|]. rewrite dkeys_cons, NoDup_cons. intros [Hk Hd].
  change (stable_items ((k, x) :: d)) with ((if ignored k then [] else [(k, stable x)]) ++ stable_items d).
  destruct (ignored k); cbn [app]; [by apply IH|]. rewrite dkeys_cons. constructor; [|by apply IH]. by intros [_ ?]%stable_keys.
Qed.
Lemma dget_stable k d : dwf d -> ignored k = false -> dget k (stable_items d) = stable <$> dget k d.
Proof.
  intros Hd Hi. destruct (dget k d) as [y|] eqn:E; cbn.
  - apply dget_wf; [by apply stable_dwf|]. apply elem_of_stable_items. split; [done|]. exists y. split; [by apply dget_some_in|done].
  - apply dget_none. apply dget_none in E. by rewrite stable_keys; intros [_ ?].
Qed.

Lemma elem_of_union_keys k l r : k ∈ union_keys l r <-> k ∈ dkeys l \/ k ∈ dkeys r.
Proof. unfold union_keys. by rewrite elem_of_py_sorted, elem_of_remove_dups, elem_of_app. Qed.
Lemma flat_map_empty {A B} (f : A -> list B) l : List.flat_map f l = [] <-> forall x, x ∈ l -> f x = [].
Proof.
  induction l as [|x l IH]; cbn; [split; [by intros _ ? ?%not_elem_of_nil|done]|]. split.
  - intros [Hx Hl]%app_eq_nil y [->|Hy]%elem_of_cons; [done|]. by apply IH.
  - intros H. rewrite (H x) by (by left). apply IH. intros; apply H; by right.
Qed.

(** Two distinctly keyed dictionaries of one length, the keys of the one among the other's, have the same keys. *)
Lemma same_keys {A B} (d : dict A) (e : dict B) : dwf d -> dwf e ->
  (forall k, k ∈ dkeys d <-> k ∈ dkeys e) <-> length d = length e /\ forall k, k ∈ dkeys d -> k ∈ dkeys e.
Proof.
  unfold dwf. intros Hd He. assert (Hl : forall C (f : dict C), length (dkeys f) = length f) by (intros; apply length_fmap). split.
  - intros H. split; [|intros k; apply H]. rewrite <- !Hl. apply Permutation_length. by apply NoDup_Permutation.
  - intros [Hlen Hsub] k. split; [apply Hsub|]. intros Hk.
    assert (Hp : dkeys d ≡ₚ dkeys e); [|by rewrite Hp].
    apply submseteq_length_Permutation; [by apply NoDup_submseteq|]. by rewrite !Hl, Hlen.
Qed.

Lemma diff_dict l r path : stable_snapshot_diff (VDict l) (VDict r) path = [] <->
  forall k, k ∈ dkeys l \/ k ∈ dkeys r -> ignored k = false ->
    exists x y, dget k l = Some x /\ dget k r = Some y /\ stable_snapshot_diff x y (path +:+ "." +:+ k) = [].
Proof.
  cbn [stable_snapshot_diff].
  set (below := (fix go (d : dict value) : dict (value -> string -> list value) := match d with [] => [] | (k, v) :: d => (k, stable_snapshot_diff v) :: go d end) l).
  assert (Hb : forall k, dget k below = stable_snapshot_diff <$> dget k l).
  { intros k. subst below. induction l as [|[k' v] l IH]; [done|]. cbn. by destruct (String.eqb k k'). }
  rewrite flat_map_empty. split.
  - intros H k Hk Hi. specialize (H k). rewrite elem_of_union_keys, Hi, Hb in H. specialize (H Hk).
    destruct (dget k l) as [x|], (dget k r) as [y|]; cbn in H; try done. by exists x, y.
  - intros H k Hk%elem_of_union_keys. cbn zeta. destruct (ignored k) eqn:Hi; [done|]. rewrite Hb.
    destruct (H k Hk Hi) as (x&y&->&->&Hd). done.
Qed.

(** The elements two lists share. *)
Definition elements_diff : list value -> list value -> string -> Z -> list value :=
  fix go (l r : list value) (path : string) (i : Z) : list value :=
    match l, r with
    | x :: l, y :: r => stable_snapshot_diff x y (path +:+ "[" +:+ pretty.pretty i +:+ "]") ++ go l r path (i + 1)
    | _, _ => []
    end.
Lemma diff_list l r path : stable_snapshot_diff (VList l) (VList r) path = [] <-> length l = length r /\ elements_diff l r path 0 = [].
Proof.
  cbn [stable_snapshot_diff].
  set (go := fix go (l r : list value) (i : Z) : list value := match l, r with x :: l, y :: r => stable_snapshot_diff x y (path +:+ "[" +:+ pretty.pretty i +:+ "]") ++ go l r (i + 1) | _, _ => [] end).
  assert (Hgo : forall l r i, go l r i = elements_diff l r path i).
  { clear l r. intros l. induction l as [|x l IH]; intros [|y r] i; cbn; try done. by rewrite IH. }
  rewrite Hgo. destruct (Nat.eqb_spec (length l) (length r)); cbn; naive_solver.
Qed.

Definition diff_exact (left : value) : Prop := forall right path, wf_value left -> wf_value right ->
  stable_snapshot_diff left right path = [] <-> py_eq (stable left) (stable right) = true.

Lemma elements_exact l r path i : Forall diff_exact l -> Forall wf_value l -> Forall wf_value r -> length l = length r ->
  elements_diff l r path i = [] <-> Forall2 (fun x y => py_eq x y = true) (List.map stable l) (List.map stable r).
Proof.
  intros Hl. revert r i. induction Hl as [|x l Hx Hl IH]; intros [|y r] i; cbn; try done.
  intros [Hwx Hwl]%Forall_cons [Hwy Hwr]%Forall_cons [= Hlen]. rewrite app_nil, Forall2_cons, (Hx y), IH by done. done.
Qed.

Lemma stable_snapshot_diff_exact left : diff_exact left.
Proof.
  unfold diff_exact. induction left as [|b|n|x|s|l IH|d IH] using value_ind'; intros right path Hl Hr.
  1-5: destruct right; cbn [stable_snapshot_diff stable]; try (by destruct (py_eq _ _)); done.
  - destruct right as [| | | | |r|e]; try (cbn; done). apply wf_list in Hl, Hr. rewrite diff_list. cbn [stable]. rewrite py_eq_list. split.
    + intros [Hlen Hd]. by eapply elements_exact.
    + intros Hd. assert (Hlen : length l = length r) by (apply Forall2_length in Hd; by rewrite !List.length_map in Hd).
      split; [done|]. by apply elements_exact.
  - destruct right as [| | | | |r|e]; try (cbn; done). apply wf_dict in Hl as [Hd Hwd], Hr as [He Hwe]. rewrite diff_dict.
    change (stable (VDict d)) with (VDict (stable_items d)). change (stable (VDict e)) with (VDict (stable_items e)). rewrite py_eq_dict.
    rewrite Forall_forall in IH, Hwd, Hwe.
    pose proof (same_keys (stable_items d) (stable_items e) (stable_dwf d Hd) (stable_dwf e He)) as Hkeys. split.
    + intros H. assert (Hsub : forall k, k ∈ dkeys (stable_items d) <-> k ∈ dkeys (stable_items e)).
      { intros k. rewrite !stable_keys. split; intros [Hi Hk]; (split; [done|]); destruct (H k) as (x&y&Hx&Hy&_); auto;
          by eapply dget_some_key. }
      split; [by apply Hkeys|]. intros k x (Hi&y&Hin&->)%elem_of_stable_items.
      destruct (H k) as (y'&z&Hy'&Hz&Hyz); [left; by eapply dget_some_key, dget_wf|done|].
      rewrite (dget_wf _ _ _ Hd Hin) in Hy'. injection Hy' as <-. rewrite dget_stable, Hz by done. exists (stable z). split; [done|].
      apply (IH (k, y) Hin) in Hyz; [done|by apply (Hwd (k, y))|by apply (Hwe (k, z)), dget_some_in].
    + intros [Hlen H] k Hk Hi.
      assert (Hsub : forall k, k ∈ dkeys (stable_items d) <-> k ∈ dkeys (stable_items e)).
      { apply Hkeys. split; [done|]. intros k' (x&Hx)%dget_in_keys. destruct (H k' x) as (y&Hy&_); [by apply dget_some_in|by eapply dget_some_key]. }
      assert (Hboth : k ∈ dkeys d /\ k ∈ dkeys e) by (specialize (Hsub k); rewrite !stable_keys in Hsub; tauto).
      destruct Hboth as [(x&Hx)%dget_in_keys (y&Hy)%dget_in_keys]. exists x, y. split_and!; [done..|].
      apply dget_some_in in Hx as Hin. apply (IH (k, x) Hin); [by apply (Hwd (k, x))|by apply (Hwe (k, y)), dget_some_in|].
      destruct (H k (stable x)) as (z&Hz&Hxz); [apply elem_of_stable_items; eauto|].
      rewrite dget_stable, Hy in Hz by done. injection Hz as <-. done.
Qed.

(** What [json.loads] returns has distinct keys. *)
Lemma wf_dset k v d : wf_value (VDict d) -> wf_value v -> wf_value (VDict (dset k v d)).
Proof.
  rewrite !wf_dict, !Forall_forall. intros [Hd Hf] Hv. split; [by apply dwf_dset|]. intros [k' x] Hin. cbn.
  apply dget_wf in Hin; [|by apply dwf_dset]. rewrite dget_dset in Hin. destruct (String.eqb k' k); [by injection Hin as <-|].
  apply dget_some_in in Hin. by apply (Hf (k', x)).
Qed.
(** [parsed] follows the parser one step. *)
Ltac parsed :=
  match goal with
  | H : (_ ≫= _) = Ok _ |- _ => apply res_bind_Ok in H as ([? ?]&?&H)
  | H : decode_error _ = Ok _ |- _ => discriminate H
  | H : Raise _ = Ok _ |- _ => discriminate H
  | H : context [match ?x with _ => _ end] |- _ => destruct x eqn:?
  end.
Lemma parse_literal_wf l s v r : Forall (fun tv => wf_value (snd tv)) l -> parse_literal l s = Some (v, r) -> wf_value v.
Proof. induction 1 as [|[t x] l Hx Hl IH]; cbn; [done|]. case_match; [by intros [= <- <-]|done]. Qed.
Lemma parse_number_wf s v r : parse_number s = Ok (v, r) -> wf_value v.
Proof. unfold parse_number. intros H. repeat parsed; by simplify_eq. Qed.
Lemma parsers_wf fuel :
  (forall s v r, parse_value fuel s = Ok (v, r) -> wf_value v) /\
  (forall d s d' r, wf_value (VDict d) -> parse_members fuel d s = Ok (d', r) -> wf_value (VDict d')) /\
  (forall s l r, parse_items fuel s = Ok (l, r) -> wf_value (VList l)).
Proof.
  induction fuel as [|fuel (IHv&IHm&IHi)]; [by split_and!|]. split_and!.
  - intros [|c s] v r H; [done|]. cbn [parse_value] in H. repeat parsed; simplify_eq; try done.
    all: try (eapply IHm; [|done]; by apply wf_dict; split; [apply dwf_nil|constructor]).
    all: try by eapply IHi.
    all: try by (apply wf_dict; split; [apply dwf_nil|constructor]).
    + eapply parse_literal_wf; [|done]. repeat constructor.
    + by eapply parse_number_wf.
  - intros d [|c s] d' r Hd H; [done|]. cbn [parse_members] in H. repeat parsed; simplify_eq; try done.
    all: assert (Hv : wf_value v) by by eapply IHv.
    all: try (by apply wf_dset). all: eapply IHm; [by apply wf_dset|done].
  - intros s l r H. cbn [parse_items] in H. repeat parsed; simplify_eq; try done.
    all: apply wf_list; constructor; [by eapply IHv|]; try done. by eapply wf_list, IHi.
Qed.
Lemma loads_wf s v : loads s = Ok v -> wf_value v.
Proof.
  unfold loads. intros H. case_match; [done|]. apply res_bind_Ok in H as ([v' r]&Hp&H). case_match; [|done].
  simplify_eq. by eapply (proj1 (parsers_wf _)).
Qed.

(** ** Reports *)

Lemma common_prefix_spec ls rs : let p := common_prefix ls rs in take p ls = take p rs /\ (ls <> rs -> ls !! p <> rs !! p).
Proof.
  revert rs. induction ls as [|l ls IH]; intros [|r rs]; cbn; try done. case_bool_decide as E; cbn; [|split; [done|congruence]].
  subst r. destruct (IH rs) as [Ht Hne]. split; [by f_equal|]. intros H. apply Hne. congruence.
Qed.

(** Snapshots that are two objects, without the ignored fields, are compared. *)
Definition same_state (snapshots : option (value * value)) : bool :=
  match snapshots with Some (VDict l, VDict r) => py_eq (stable (VDict l)) (stable (VDict r)) | _ => true end.
Definition snapshots_wf (snapshots : option (value * value)) : Prop :=
  match snapshots with Some (l, r) => wf_value l /\ wf_value r | None => True end.

Lemma diff_same l r : wf_value l -> wf_value r ->
  (match stable_snapshot_diff l r "$" with [] => true | _ => false end) = py_eq (stable l) (stable r).
Proof.
  intros Hl Hr. destruct (stable_snapshot_diff_exact l r "$" Hl Hr) as [H1 H2].
  destruct (stable_snapshot_diff l r "$"); [by rewrite H1|]. destruct (py_eq _ _); [by discriminate H2|done].
Qed.

Lemma add_snapshots_other te sn d k : k <> "snapshot" -> k <> "equal" -> k <> "classification" ->
  dget k (add_snapshots te sn d) = dget k d.
Proof. intros. unfold add_snapshots. repeat case_match; by rewrite ?dget_dset_ne. Qed.
Lemma add_snapshots_verdict te sn d c : snapshots_wf sn -> dget "equal" d = Some (VBool te) -> dget "classification" d = Some (VStr c) ->
  dget "equal" (add_snapshots te sn d) = Some (VBool (te && same_state sn)) /\
  dget "classification" (add_snapshots te sn d) = Some (VStr (if te && negb (same_state sn) then "state-only" else c)).
Proof.
  intros Hwf He Hc. unfold add_snapshots, same_state. destruct sn as [[l r]|]; [|by destruct te].
  destruct l as [| | | | | |l]; try by destruct te. destruct r as [| | | | | |r]; try by destruct te.
  rewrite diff_same by apply Hwf. destruct (py_eq _ _), te; cbn [andb negb]; rewrite !dget_dset; cbn; by rewrite ?He, ?Hc.
Qed.

(** ** Where the traces meet again *)

(** [n] equal signatures, from [i] on the left and [j] on the right. *)
Definition meets (ls rs : list (string * string)) (i j n : nat) : Prop :=
  (0 < n)%nat /\ length (take n (drop i ls)) = n /\ take n (drop i ls) = take n (drop j rs).

Lemma agree_meets (ls rs : list (string * string)) i j n : (0 < n)%nat -> agree ls rs i j n -> meets ls rs i j n.
Proof.
  intros Hn Ha. split; [done|]. assert (Hlen : (i + n <= length ls)%nat).
  { destruct (Ha (n - 1)%nat) as (e&He&_); [lia|]. apply lookup_lt_Some in He. lia. }
  split; [rewrite length_take, length_drop; lia|]. apply list_eq. intros t.
  destruct (decide (t < n)%nat) as [Ht|Ht].
  - rewrite !lookup_take_lt, !lookup_drop by done. destruct (Ha t Ht) as (e&->&->). done.
  - rewrite !lookup_take_ge by lia. done.
Qed.

Lemma resync_meets le ls rs r : resynchronization le (get_opcodes ls rs) = Some r -> meets ls rs (rs_left r) (rs_right r) (rs_length r) /\ ls <> rs.
Proof.
  unfold resynchronization. destruct (resync_opcode _) as [op|] eqn:E; [|done]. intros [= <-]. cbn [rs_left rs_right rs_length].
  unfold resync_opcode in E. destruct (divergent_opcode _) as [d|] eqn:Hd; [|done].
  apply List.find_some in E as [Hop%list_elem_of_In Heq]. apply List.find_some in Hd as [Hd%list_elem_of_In Hne].
  destruct (tiles_range _ _ _ _ _ _ (opcodes_tile ls rs) Hop) as (Hok&_&_). unfold op_ok, is_equal in *. bool_prop. split.
  - destruct (op_tag op); try done. destruct Hok as (?&Hn&?&Ha). rewrite Hn, Nat.min_id. apply agree_meets; [lia|done].
  - intros Hsame. pose proof (proj2 (opcodes_equal ls rs) Hsame d Hd) as He. unfold is_equal in He. by destruct (op_tag d).
Qed.

Lemma signatures_taken (l : list value) ls : res_map sig l = Ok ls -> Forall2 (fun e s => sig e = Ok s) l ls.
Proof. apply res_map_runs. Qed.

Lemma compare_report context sn left right report : compare_traces context sn left right = Ok report -> snapshots_wf sn ->
  exists ls rs, res_map sig (events_of left) = Ok ls /\ res_map sig (events_of right) = Ok rs /\
    let same := bool_decide (ls = rs) in
    let p := common_prefix ls rs in
    dget "trace_equal" report = Some (VBool same) /\
    dget "equal" report = Some (VBool (same && same_state sn)) /\
    dget "classification" report =
      Some (VStr (if same && negb (same_state sn) then "state-only" else if same then "equal" else classify (events_of left !! p) (events_of right !! p))) /\
    prefix_events report = Ok (Z.of_nat p) /\
    dget "resynchronization" report = Some (or_null resync_doc (resynchronization (events_of left) (get_opcodes ls rs))).
Proof.
  unfold compare_traces. intros H Hwf. cbn zeta in H.
  apply res_bind_Ok in H as (ls&Hls&H). apply res_bind_Ok in H as (rs&Hrs&H).
  apply res_bind_Ok in H as (lu&_&H). apply res_bind_Ok in H as (ru&_&[= <-]). exists ls, rs. split; [done|]. split; [done|]. cbn zeta.
  set (d := ("schema", _) :: _). set (c := if bool_decide (ls = rs) then "equal" else _) in d.
  destruct (add_snapshots_verdict (bool_decide (ls = rs)) sn d c Hwf eq_refl eq_refl) as [He Hc].
  unfold prefix_events, dindex.
  rewrite (add_snapshots_other _ _ d "trace_equal"), (add_snapshots_other _ _ d "summary"), (add_snapshots_other _ _ d "resynchronization") by done.
  split_and!; first [done|exact He|exact Hc].
Qed.

(** What the classification says. *)
Lemma classify_length l r : classify l r = "trace-length" <-> l = None \/ r = None.
Proof. unfold classify. destruct l, r; repeat case_match; naive_solver. Qed.
Lemma classify_other l r : classify l r <> "equal" /\ classify l r <> "state-only".
Proof. unfold classify. destruct l, r; repeat case_match; done. Qed.
Lemma classification_reads ls rs (le re : list value) b : length le = length ls -> length re = length rs ->
  let p := common_prefix ls rs in
  let c := if bool_decide (ls = rs) && negb b then "state-only" else if bool_decide (ls = rs) then "equal" else classify (le !! p) (re !! p) in
  (c = "equal" <-> ls = rs /\ b = true) /\ (c = "state-only" <-> ls = rs /\ b = false) /\
  (c = "trace-length" <-> ls <> rs /\ (p = length ls \/ p = length rs)).
Proof.
  intros Hl Hr. cbn zeta. destruct (common_prefix_spec ls rs) as [Htake _].
  assert (Hp : (common_prefix ls rs <= length ls)%nat /\ (common_prefix ls rs <= length rs)%nat).
  { clear. revert rs. induction ls as [|l ls IH]; intros [|r rs]; cbn; try lia. case_bool_decide; [|lia]. destruct (IH rs). lia. }
  case_bool_decide as E; cbn [andb].
  - destruct b; cbn [negb]; naive_solver.
  - destruct (classify_other (le !! common_prefix ls rs) (re !! common_prefix ls rs)) as [H1 H2].
    rewrite classify_length, !lookup_ge_None, Hl, Hr. intuition lia.
Qed.

(** A report says that two traces are equal exactly when their sequences of signatures are; the common
    prefix is the longest one; the verdict adds that the snapshots are equal outside the fields that are
    ignored, and the classification separates equal, state-only and trace-length differences; where the
    traces are said to meet again the given number of signatures is the same on both sides, and equal
    traces have no such point. *)
Theorem triage_compare_exact context sn left right report : compare_traces context sn left right = Ok report -> snapshots_wf sn ->
  exists ls rs p c, Forall2 (fun e s => sig e = Ok s) (events_of left) ls /\ Forall2 (fun e s => sig e = Ok s) (events_of right) rs /\
    dget "trace_equal" report = Some (VBool (bool_decide (ls = rs))) /\
    dget "equal" report = Some (VBool (bool_decide (ls = rs) && same_state sn)) /\
    (prefix_events report = Ok (Z.of_nat p) /\ take p ls = take p rs /\ (ls <> rs -> ls !! p <> rs !! p)) /\
    (dget "classification" report = Some (VStr c) /\ (c = "equal" <-> ls = rs /\ same_state sn = true) /\
     (c = "state-only" <-> ls = rs /\ same_state sn = false) /\ (c = "trace-length" <-> ls <> rs /\ (p = length ls \/ p = length rs))) /\
    exists v, dget "resynchronization" report = Some v /\
      (v = VNone \/ ls <> rs /\ exists r, v = resync_doc r /\ meets ls rs (rs_left r) (rs_right r) (rs_length r)).
Proof.
  intros H Hwf. destruct (compare_report _ _ _ _ _ H Hwf) as (ls&rs&Hls&Hrs&Ht&He&Hc&Hp&Hr). cbn zeta in *.
  destruct (common_prefix_spec ls rs) as [Htake Hne]. exists ls, rs, (common_prefix ls rs).
  pose proof (res_map_length _ _ _ Hls) as Hl1. pose proof (res_map_length _ _ _ Hrs) as Hl2.
  eexists. split; [by apply res_map_runs|]. split; [by apply res_map_runs|]. split; [exact Ht|]. split; [exact He|]. split; [by split_and!|].
  split; [split; [exact Hc|by apply classification_reads]|]. eexists. split; [exact Hr|].
  destruct (resynchronization _ _) as [r|] eqn:E; [right|by left]. apply resync_meets in E as [Hm Hd]. split; [done|]. by exists r.
Qed.

(** ** The job of a bundle *)

Lemma res_fold_ext_in {A S} (f g : S -> A -> res S) s l : (forall s x, x ∈ l -> f s x = g s x) -> res_fold f s l = res_fold g s l.
Proof.
  revert s. induction l as [|x l IH]; intros s H; cbn [res_fold]; [done|]. rewrite (H s x) by (by left).
  destruct (g s x); cbn [mbind res_bind]; [|done]. apply IH. intros; apply H; by right.
Qed.
Lemma res_fold_app {A S} (f : S -> A -> res S) s l l' : res_fold f s (l ++ l') = (s1 ← res_fold f s l; res_fold f s1 l').
Proof. revert s. induction l as [|x l IH]; intros s; cbn [app res_fold]; [done|]. destruct (f s x); cbn [mbind res_bind]; [apply IH|done]. Qed.

Section operands.
Context (prefix : string).
Definition numeric_step (d : dict value) (acc : list string) (kf : string * string) : res (list string) :=
  match dget (fst kf) d with Some v => s ← _string_number v (prefix +:+ fst kf); Ok (acc ++ [snd kf; s]) | None => Ok acc end.

Lemma numeric_steps table d : numeric_args prefix table d = res_fold (numeric_step d) [] table.
Proof. unfold numeric_args. apply res_fold_ext_in. by intros acc [k f] _. Qed.
Lemma numeric_acc table d acc : res_fold (numeric_step d) acc table = (fun a => acc ++ a) <$> res_fold (numeric_step d) [] table.
Proof.
  revert acc. induction table as [|[k f] table IH]; intros acc; cbn [res_fold]; [cbn; by rewrite app_nil_r|].
  unfold numeric_step at 2 4. cbn [fst snd]. destruct (dget k d) as [v|]; cbn [mbind res_bind]; [|apply IH].
  destruct (_string_number _ _) as [x|e]; cbn [mbind res_bind]; [|done]. rewrite IH, (IH ([] ++ _)).
  destruct (res_fold _ _ _) as [a|e]; cbn; [|done]. by rewrite <- app_assoc.
Qed.
Lemma numeric_args_app t1 t2 d : numeric_args prefix (t1 ++ t2) d =
  (a1 ← numeric_args prefix t1 d; a2 ← numeric_args prefix t2 d; Ok (a1 ++ a2)).
Proof.
  rewrite !numeric_steps, res_fold_app. destruct (res_fold _ [] t1); cbn [mbind res_bind]; [|done].
  rewrite numeric_acc. by destruct (res_fold _ _ _).
Qed.
Lemma numeric_args_ext table d d' : (forall k, k ∈ table.*1 -> dget k d = dget k d') -> numeric_args prefix table d = numeric_args prefix table d'.
Proof.
  intros H. rewrite !numeric_steps. apply res_fold_ext_in. intros acc [k f] Hin. unfold numeric_step. cbn [fst snd].
  rewrite H; [done|]. apply list_elem_of_fmap. by exists (k, f).
Qed.
End operands.

(** A reduced execution is accepted when the execution is, with its limit and its trace. *)
Lemma execution_args_reduced e n a : execution_args e = Ok a ->
  exists l1 l2, execution_args (dset "trace" (VBool true) (dset "max_instructions" (VInt n) e)) = Ok (l1 ++ ["--max-instructions"; pretty.pretty n] ++ l2) /\ "--trace" ∈ l2.
Proof.
  intros H. unfold execution_args in *. apply res_bind_Ok in H as (backend&Hb&H). apply res_bind_Ok in H as (numeric&Hn&H).
  apply res_bind_Ok in H as (symbol&Hs&H). apply res_bind_Ok in H as (trace&Ht&H). apply res_bind_Ok in H as (traps&Hi&H).
  apply res_bind_Ok in H as (range&Hr&_). unfold dget_or, boolean_arg in *. rewrite !dget_dset. cbn [String.eqb Ascii.eqb Bool.eqb].
  rewrite Hb. cbn [mbind res_bind].
  change execution_numeric with (take 6 execution_numeric ++ [("max_instructions", "--max-instructions")] ++ drop 7 execution_numeric) in *.
  rewrite !numeric_args_app in *. apply res_bind_Ok in Hn as (pre&Hpre&Hn). apply res_bind_Ok in Hn as (ys&Hn&_).
  apply res_bind_Ok in Hn as (one&_&Hn). apply res_bind_Ok in Hn as (post&Hpost&_).
  set (e' := dset "trace" _ _).
  rewrite <- (numeric_args_ext _ (take 6 execution_numeric) e e'), <- (numeric_args_ext _ (drop 7 execution_numeric) e e'), Hpre, Hpost.
  - unfold e', numeric_args. cbn [res_fold]. rewrite !dget_dset. cbn [String.eqb Ascii.eqb Bool.eqb _string_number mbind res_bind app].
    rewrite Hs. cbn [mbind res_bind]. rewrite Hi. cbn [mbind res_bind]. rewrite Hr. cbn [mbind res_bind].
    exists (["--backend"; backend] ++ pre), (post ++ symbol ++ ["--trace"] ++ traps ++ range). split; [by rewrite <- ?app_assoc|set_solver].
  - intros k Hk. subst e'. cbn in Hk. rewrite !dget_dset_ne; [done|set_solver..].
  - intros k Hk. subst e'. cbn in Hk. rewrite !dget_dset_ne; [done|set_solver..].
Qed.

(** Only the arguments of the execution change with it. *)
Lemma build_run_args_execution fs job base root args e e' : build_run_args fs job base root = Ok args ->
  dget_or "execution" (obj []) job = obj e ->
  exists a1 a2 rest, execution_args e = Ok a2 /\ args = a1 ++ a2 ++ rest /\
    forall a2', execution_args e' = Ok a2' -> build_run_args fs (dset "execution" (obj e') job) base root = Ok (a1 ++ a2' ++ rest).
Proof.
  intros H He. unfold build_run_args in H.
  repeat match type of H with (_ ≫= _) = Ok _ => let x := fresh "x" in let Hx := fresh "Hx" in apply res_bind_Ok in H as (x&Hx&H) end.
  injection H as <-. assert (x3 = e) as ->.
  { unfold dget_n, dget_or in *. destruct (dget "execution" job) as [v|]; [by subst v; injection Hx3|by injection Hx3; injection He; intros; subst]. }
  exists x2, x4. eexists. split; [done|]. split; [done|]. intros a2' Ha2'. unfold build_run_args.
  assert (Hother : forall k dflt, k <> "execution" -> dget_or k dflt (dset "execution" (obj e') job) = dget_or k dflt job).
  { intros. unfold dget_or. by rewrite dget_dset_ne. }
  assert (Hexecution : dget_n "execution" (dset "execution" (obj e') job) = obj e') by (unfold dget_n, dget_or; by rewrite dget_dset_eq).
  assert (Hother_n : forall k, k <> "execution" -> dget_n k (dset "execution" (obj e') job) = dget_n k job) by (intros; by apply Hother).
  rewrite Hexecution, !Hother by done.
  rewrite (Hother_n "schema"), (Hother_n "image"), (Hother_n "registers"), (Hother_n "float_registers"), (Hother_n "bindings"),
    (Hother_n "writes_u32"), (Hother_n "writes_f32"), (Hother_n "syscall_returns") by done. cbn [_expect_dict].
  repeat match goal with Hm : ?m = Ok _ |- context [?m] => rewrite Hm; cbn [mbind res_bind] end.
  done.
Qed.

Lemma reduced_limit_bounds p l : 0 <= p ->
  1 <= reduced_limit p l <= p + 8 /\ (0 < l -> reduced_limit p l <= l) /\ (p < reduced_limit p l \/ reduced_limit p l = l).
Proof. intros Hp. unfold reduced_limit. destruct (Z.ltb_spec 0 l); lia. Qed.

(** When a report has a difference, the job of its bundle is the job with a trace and an instruction
    limit just after the common prefix, at most eight more and never above the limit the job had; a worker
    that accepts the job accepts this one and passes the limit and the trace to the tool. *)
Theorem repro_job_replays fs base root report job repro p args :
  reduce_job report job = Ok repro -> py_bool (dget_n "equal" report) = false -> prefix_events report = Ok p -> 0 <= p ->
  build_run_args fs job base root = Ok args ->
  exists e n l1 l2, dget_or "execution" (obj []) job = obj e /\
    (let l := previous_limit (dget_n "max_instructions" e) in 1 <= n <= p + 8 /\ (0 < l -> n <= l) /\ (p < n \/ n = l)) /\
    build_run_args fs repro base root = Ok (l1 ++ ["--max-instructions"; pretty.pretty n] ++ l2) /\ "--trace" ∈ l2 /\
    forall k, k <> "execution" -> dget k repro = dget k job.
Proof.
  unfold reduce_job. intros H He Hp H0 Hargs. rewrite He in H. destruct (dget_or "execution" (obj []) job) as [| | | | | |e] eqn:Hexec; try done.
  rewrite Hp in H. cbn [mbind res_bind] in H. injection H as <-. set (n := reduced_limit p _).
  destruct (build_run_args_execution _ _ _ _ _ e (dset "trace" (VBool true) (dset "max_instructions" (VInt n) e)) Hargs Hexec) as (a1&a2&rest&Ha&_&Hb).
  destruct (execution_args_reduced e n a2 Ha) as (l1&l2&Hl&Htrace).
  exists e, n, (a1 ++ l1), (l2 ++ rest). split; [done|]. split; [by apply reduced_limit_bounds|].
  split; [rewrite (Hb _ Hl); by rewrite <- !app_assoc|]. split; [set_solver|]. intros k Hk. by rewrite dget_dset_ne.
Qed.

(** ** A run *)

Section kept.
Lemma kept_bind {A B} (m : TM A) (f : A -> TM B) : (forall w, runs (snd (m w)) = runs w) -> (forall x w, runs (snd (f x w)) = runs w) ->
  forall w, runs (snd ((m ≫= f) w)) = runs w.
Proof. intros Hm Hf w. unfold mbind, M_bind. specialize (Hm w). destruct (m w) as [[x|e] w1]; cbn in *; [|done]. by rewrite Hf. Qed.
Lemma kept_write_bundle bundle report lt rt job responses w : runs (snd (write_bundle bundle report lt rt job responses w)) = runs w.
Proof.
  unfold write_bundle. revert w. repeat first [apply kept_bind; [|intros ?] | done | destruct job | destruct responses as [[? ?]|]].
Qed.
Lemma kept_if_some {A} (o : option A) (f : A -> TM unit) w : (forall x w, runs (snd (f x w)) = runs w) -> runs (snd (if_some o f w)) = runs w.
Proof. intros H. by destruct o; [apply H|]. Qed.
End kept.

(** The job as one side runs it. *)
Definition side_job (backend : string) (job side : dict value) : Prop := exists e,
  dget_or "execution" (obj []) job = obj e /\ dget "execution" side = Some (obj (dset "trace" (VBool true) (dset "backend" (VStr backend) e))) /\
  forall k, k <> "execution" -> dget k side = dget k job.
Lemma set_execution_side backend job j1 j2 : set_execution "backend" (VStr backend) job = Ok j1 -> set_execution "trace" (VBool true) j1 = Ok j2 -> side_job backend job j2.
Proof.
  unfold set_execution. destruct (dget_or _ _ job) as [| | | | | |e] eqn:E; try done. intros [= <-]. unfold dget_or at 1. rewrite dget_dset_eq. intros [= <-].
  exists e. split; [done|]. split; [by rewrite dget_dset_eq|]. intros k Hk. by rewrite !dget_dset_ne.
Qed.

Lemma worker_answered m cmd job w v w' : run_worker m cmd job w = (Ok v, w') ->
  runs w' = runs w ++ [(cmd, job)] /\ docs w' = docs w /\ exists out, m_worker m (length (runs w)) cmd job = Exited out /\ loads out = Ok v.
Proof.
  unfold run_worker. intros H. inv_M. unfold id in *. subst. destruct (m_worker _ _ _ _) as [|out] eqn:E; [by inv_M|].
  destruct (loads out) as [v'|] eqn:El; inv_M; [|done]. subst. split_and!; [done..|]. by exists out.
Qed.

(** The signatures of the trace in a worker's response. *)
Definition signatures (response : value) : res (list (string * string)) :=
  t ← trace_from_worker_response response; match t with VDict d => res_map sig (events_of d) | _ => Ok [] end.
Lemma signatures_ensured response t d label ls : trace_from_worker_response response = Ok t -> ensure_trace t label = Ok d ->
  res_map sig (events_of d) = Ok ls -> signatures response = Ok ls.
Proof. intros Ht Hd Hs. unfold signatures. rewrite Ht. cbn. unfold ensure_trace in Hd. destruct t; inv_res; try done. Qed.

Lemma add_run_equal left right inputs lo ro report b : dget "equal" report = Some (VBool b) ->
  dget "equal" (add_run left right inputs lo ro report) = Some (VBool (b && py_eq lo ro)).
Proof.
  intros H. unfold add_run. destruct (py_eq lo ro); [rewrite dget_dset_ne by done; by rewrite andb_true_r|]. rewrite andb_false_r.
  case_match; rewrite ?(dget_dset_ne "equal" "classification") by done; by rewrite dget_dset_eq.
Qed.

Lemma vget_wf k v x : wf_value v -> vget k v = Ok x -> wf_value x.
Proof.
  unfold vget, vget_or, dget_or. destruct v as [| | | | | |d]; try done. intros [_ Hd]%wf_dict [= <-].
  destruct (dget k d) as [y|] eqn:E; [|done]. rewrite Forall_forall in Hd. by apply (Hd (k, y)), dget_some_in.
Qed.

Lemma document_read path w v w' : read_json path w = (Ok v, w') -> dget path (docs w) = Some v /\ w' = w.
Proof. unfold read_json. intros H. inv_M. unfold id in *. subst. destruct (dget path _); inv_M; [|done]. by subst. Qed.
(** [next_lift E x Hx] takes a pure step [x] off a run. *)
Ltac next_lift E x Hx := let w := fresh "w" in apply m_bind_Ok in E as (x & w & Hx & E); apply m_lift_Ok in Hx as [Hx <-].

(** What was compared: the signatures, the snapshots and the outcomes of two responses. *)
Definition agreeing (lr rr : value) (verdict : bool) : Prop := exists ls rs lsnap rsnap lo ro,
  signatures lr = Ok ls /\ signatures rr = Ok rs /\ vget "snapshot" lr = Ok lsnap /\ vget "snapshot" rr = Ok rsnap /\
  outcome lr = Ok lo /\ outcome rr = Ok ro /\
  verdict = bool_decide (ls = rs) && same_state (Some (lsnap, rsnap)) && py_eq lo ro.


(** ** Examples *)

(** The traces of [tests/test_differential_triage.py]. *)
Definition sample_event (pc word dis : string) : value :=
  obj [("pc", VStr ("0x0000" +:+ pc)); ("instruction", VStr ("0x0000000" +:+ word)); ("disassembly", VStr dis); ("symbol", VStr "")].
Definition sample_trace (events : list value) : dict value := [("schema", VStr TRACE_SCHEMA); ("exit_code", VInt 0); ("events", VList events)].
Definition sample_left : dict value := sample_trace
  [sample_event "1000" "1" "a"; sample_event "1004" "2" "b"; sample_event "1008" "3" "c"; sample_event "100c" "4" "d"; sample_event "1010" "5" "e"].
Definition sample_right : dict value := sample_trace
  [sample_event "1000" "1" "a"; sample_event "1004" "2" "b"; sample_event "2000" "9" "x"; sample_event "2004" "a" "y"; sample_event "100c" "4" "d";
   sample_event "1010" "5" "e"].
Definition sample_report : dict value := Eval vm_compute in ok_or [] (compare_traces 6 None sample_left sample_right).
Example sample_reported : compare_traces 6 None sample_left sample_right = Ok sample_report /\
  dget_n "classification" sample_report = VStr "control-flow" /\ prefix_events sample_report = Ok 2 /\
  dget_n "resynchronization" sample_report = resync_doc (Resync 3 4 2 (VStr "0x0000100c")).
Proof. split_and!; vm_compute; reflexivity. Qed.

Definition builtin_snapshot : value := obj [("backend", VStr "builtin"); ("pc", VStr "0x1000"); ("cpu", obj [("gpr", VList [VInt 0; VInt 1; VInt 2])])].
Definition unicorn_snapshot : value := obj [("backend", VStr "unicorn"); ("pc", VStr "0x1000"); ("cpu", obj [("gpr", VList [VInt 0; VInt 9; VInt 2])])].
Example snapshot_differs : stable_snapshot_diff builtin_snapshot unicorn_snapshot "$" = [difference "$.cpu.gpr[1]" (VInt 1) (VInt 9)].
Proof. vm_compute. reflexivity. Qed.

(** A trace whose beginning recurs on the other side, after it was left: the longest match precedes the
    first divergence, so the traces are said to meet again at index 0, and without context the window of
    events shows nothing on the left. *)
Definition loop_left : dict value := sample_trace [sample_event "1000" "1" "a"; sample_event "1004" "2" "b"; sample_event "1008" "3" "c"].
Definition loop_right : dict value := sample_trace
  [sample_event "1000" "1" "a"; sample_event "1004" "2" "b"; sample_event "2000" "9" "x"; sample_event "1000" "1" "a"; sample_event "1004" "2" "b";
   sample_event "1008" "3" "c"].
Definition loop_report : dict value := Eval vm_compute in ok_or [] (compare_traces 0 None loop_left loop_right).
Example resynchronizes_before_divergence : compare_traces 0 None loop_left loop_right = Ok loop_report /\ prefix_events loop_report = Ok 2 /\
  dget_n "resynchronization" loop_report = resync_doc (Resync 0 3 3 (VStr "0x00001000")) /\
  match dget_n "window" loop_report with VDict w => dget_n "left" w = VList [] | _ => False end.
Proof. split_and!; vm_compute; reflexivity. Qed.

(** The signatures ignore the case of a PC, the classification does not. *)
Example case_is_control_flow :
  let event pc word := obj [("pc", VStr pc); ("instruction", VStr word)] in
  match compare_traces 6 None (sample_trace [event "0xABCD" "1"]) (sample_trace [event "0xabcd" "2"]) with
  | Ok r => dget_n "classification" r = VStr "control-flow"
  | Raise _ => False
  end.
Proof. vm_compute. reflexivity. Qed.

(** A job whose execution is null is a job to the worker, and a [TypeError] here. *)
Example null_execution : set_execution "backend" (VStr "builtin") [("execution", VNone)] =
  Raise (Exn TypeError "'NoneType' object does not support item assignment") /\ _expect_dict (dget_n "execution" [("execution", VNone)]) "execution" = Ok [].
Proof. split; reflexivity. Qed.

Lemma triage_compare_exact_witness : compare_traces 6 None sample_left sample_right = Ok sample_report /\
  exists ls rs p c, Forall2 (fun e s => sig e = Ok s) (events_of sample_left) ls /\ Forall2 (fun e s => sig e = Ok s) (events_of sample_right) rs /\
    dget "equal" sample_report = Some (VBool (bool_decide (ls = rs) && same_state None)) /\
    prefix_events sample_report = Ok (Z.of_nat p) /\ take p ls = take p rs /\ dget "classification" sample_report = Some (VStr c).
Proof.
  assert (H : compare_traces 6 None sample_left sample_right = Ok sample_report) by (vm_compute; reflexivity). split; [exact H|].
  destruct (triage_compare_exact 6 None sample_left sample_right sample_report H I) as (ls&rs&p&c&Hl&Hr&_&He&(Hp&Ht&_)&(Hc&_)&_).
  exists ls, rs, p, c. split_and!; assumption.
Defined.

Definition sample_files : files := Files (fun p => Ok p) (fun _ => true).
Definition sample_job : dict value :=
  [("schema", VStr "ppc-lab-job-v1"); ("image", obj [("kind", VStr "raw"); ("path", VStr "leaf.bin")]);
   ("execution", obj [("entry", VStr "0x10000000"); ("max_instructions", VStr "0x1000")])].
Definition sample_repro : dict value := Eval vm_compute in ok_or [] (reduce_job sample_report sample_job).
Definition sample_args : list string := Eval vm_compute in ok_or [] (build_run_args sample_files sample_job "/t" None).
Lemma repro_job_replays_witness : reduce_job sample_report sample_job = Ok sample_repro /\
  exists e n l1 l2, dget_or "execution" (obj []) sample_job = obj e /\
    (let l := previous_limit (dget_n "max_instructions" e) in 1 <= n <= 2 + 8 /\ (0 < l -> n <= l) /\ (2 < n \/ n = l)) /\
    build_run_args sample_files sample_repro "/t" None = Ok (l1 ++ ["--max-instructions"; pretty.pretty n] ++ l2) /\ "--trace" ∈ l2 /\
    forall k, k <> "execution" -> dget k sample_repro = dget k sample_job.
Proof.
  assert (H : reduce_job sample_report sample_job = Ok sample_repro) by (vm_compute; reflexivity). split; [exact H|].
  apply (repro_job_replays sample_files "/t" None sample_report sample_job sample_repro 2 sample_args); [exact H|vm_compute; reflexivity|vm_compute; reflexivity|lia|vm_compute; reflexivity].
Defined.

(** Two backends that disagree about a register. *)
Definition sample_response (snapshot : value) : string :=
  canonical (obj [("schema", VStr "ppc-lab-worker-response-v1"); ("ok", VBool true); ("exit_code", VInt 0);
    ("stderr", VStr "0x10000000 0x3860002a li r3,42 [leaf]"); ("snapshot", snapshot)]).
Definition sample_machine : machine := Machine
  (fun run _ _ => Exited (sample_response (match run with O => builtin_snapshot | _ => unicorn_snapshot end))) (fun _ => None) (fun p => p) (fun _ => Some "").
Definition sample_options : options := Options 6 (Some "/t/triage.json") (Some "/t/bundle") true.
Definition sample_run : run_options :=
  RunOptions "python3" "/t/job.json" "/t" "/bin/ppc-lab" None "/bin/worker" None "builtin" "auto" None (ok_or fzero (float_of_int 60)).
Definition sample_world : world := World [("/t/job.json", obj sample_job)] [] [].
Definition sample_after : world := Eval vm_compute in snd (main sample_machine sample_options (Run sample_run) sample_world).
