(* ===== verification/Target.v ===== *)
(** * Target profiles ([ppc_lab_target.py])

    A target profile is a directory that describes how to run a target, with a [profile.json] and without
    the target's binaries.  The script creates a skeleton, validates a profile, and packs it into an
    archive.  A profile directory is the tree of its files, with the root at the empty path; there are no
    symbolic links. *)
From stdpp Require Import pretty gmap.
From Stdlib Require Import Ascii.
From S2P Require Export Upgrade JsonParse.

Abbreviation obj := VDict.

Definition SCHEMA : string := "ppc-lab-target-profile-v1".
Definition PACKAGE_SCHEMA : string := "ppc-lab-target-profile-package-v1".
Definition PROFILE_API_VERSION : Z := 1.
Definition DEFAULT_MINIMUM : string := "3.1.0".
Definition SKIP_PARTS : list string := [".git"; "__pycache__"; "build"; ".DS_Store"].
Definition BINARY_SUFFIXES : list string :=
  [".exe"; ".dll"; ".dylib"; ".so"; ".bin"; ".rom"; ".img"; ".iso"; ".dmg"; ".elf"; ".pef"; ".app"; ".sit"; ".hqx"; ".zip"; ".7z"; ".rar"].
Definition PACKAGE_NAME : string := "PROFILE-PACKAGE.json".

(** What the script uses of the platform: the mode of new files, whether a file may be executed, the order
    in which a directory is listed, and the parts of the absolute path of the profile. *)
Record platform := Platform { f_mode : Z; f_x_ok : file -> bool; f_list : list path -> list path; f_root : path }.

(** ** Fields *)

(** [[a-z0-9]] and [[a-z0-9._-]] *)
Definition id_start (c : ascii) : bool := is_digit c || is_lower c.
Definition id_rest (c : ascii) : bool := id_start c || existsb (Ascii.eqb c) ["."%char; "_"%char; "-"%char].
(** [ID_RE.fullmatch] *)
Definition id_ok (s : string) : bool :=
  match s with String c r => id_start c && str_forall id_rest r && (String.length r <=? 63)%nat | EmptyString => false end.
(** [re.fullmatch(r"[A-Z][A-Z0-9_]*", s)] *)
Definition env_ok (s : string) : bool :=
  match s with String c r => is_upper c && str_forall (fun c => is_upper c || is_digit c || Ascii.eqb c "_") r | EmptyString => false end.
(** [re.fullmatch(r"[0-9a-f]{64}", s)] *)
Definition digest_ok (s : string) : bool := is_hex64 s.

(** [re.fullmatch(r"([0-9]+)\.([0-9]+)\.([0-9]+)", s)] *)
Definition digits_of (s : string) : option Z := if str_isdigit s then int_of_string s else None.
Definition semver_tuple (v : string) : res (Z * Z * Z) :=
  match str_split1 "." v with
  | Some (a, r) =>
      match str_split1 "." r with
      | Some (b, c) =>
          match digits_of a, digits_of b, digits_of c with
          | Some a, Some b, Some c => Ok (a, b, c)
          | _, _, _ => app_error ("invalid semantic version: " +:+ v)
          end
      | None => app_error ("invalid semantic version: " +:+ v)
      end
  | None => app_error ("invalid semantic version: " +:+ v)
  end.
Definition safe_rel (v : string) : res string :=
  _ ← guard_app (negb (str_startswith "/" v || existsb (String.eqb "..") (path_parts v))) ("unsafe relative path: " +:+ v);
  Ok (match path_parts v with [] => "." | parts => as_posix parts end).

(** ** Validation *)

(** [if not ok: errors.append(msg)] *)
Definition error_unless (ok : bool) (msg : string) : list string := if ok then [] else [msg].
(** [except ProfileError as exc: errors.append(prefix + str(exc))] *)
Definition error_of {A} (prefix : string) (r : res A) : list string := match r with Raise e => [prefix +:+ exn_msg e] | Ok _ => [] end.

Definition string_with (p : string -> bool) (v : value) : bool := match v with VStr s => p s | _ => false end.
Definition architecture_ok (v : value) : bool :=
  match v with VDict d => eq_str (dget_n "guest" d) "ppc32" && eq_str (dget_n "endian" d) "big" | _ => false end.
(** One item of [inputs]; the identifiers seen before. *)
Definition check_input (st : list string * list string) (ix : Z * value) : list string * list string :=
  let '(errors, seen) := st in
  let at_ := "inputs[" +:+ pretty (fst ix) +:+ "]" in
  match snd ix with
  | VDict item =>
      let '(e, seen) := match dget_n "id" item with
                        | VStr iid => if negb (id_ok iid) then ([at_ +:+ ".id is invalid"], seen)
                                      else if existsb (String.eqb iid) seen then (["duplicate input id: " +:+ iid], seen) else ([], iid :: seen)
                        | _ => ([at_ +:+ ".id is invalid"], seen)
                        end in
      (errors ++ e ++ error_unless (string_with env_ok (dget_n "env" item)) (at_ +:+ ".env must be an uppercase environment variable") ++
       error_unless (is_none (dget_n "sha256" item) || string_with digest_ok (dget_n "sha256" item)) (at_ +:+ ".sha256 must be null or 64 lowercase hex characters") ++
       error_unless (py_eq (dget_n "redistributable" item) (VBool true) || py_eq (dget_n "redistributable" item) (VBool false))
         (at_ +:+ ".redistributable must be boolean"), seen)
  | _ => (errors ++ [at_ +:+ " must be an object"], seen)
  end.
Definition input_errors (v : value) : list string :=
  match v with VList l => fst (fold_left check_input (enumerate l) ([], [])) | _ => ["inputs must be an array"] end.
Definition layout_errors (layout : value) (key : string) : list string :=
  match layout with
  | VDict d => match dget_n key d with VNone => [] | v => error_of ("layout." +:+ key +:+ ": ") (safe_rel (py_str v)) end
  | _ => []
  end.

Definition is_binary (p : path) : bool := existsb (String.eqb (str_lower (Upgrade.suffix (List.last p "")))) BINARY_SUFFIXES.
Definition skipped (parts : path) : bool := existsb (fun x => existsb (String.eqb x) SKIP_PARTS) parts.
(** [set(doc.get("redistributable_files", []))] of a list. *)
Definition redistributable (doc : dict value) : res (list value) :=
  match dget_n "redistributable_files" doc with
  | VList l => if existsb (fun v => is_list v || is_dict v) l then Raise (Exn TypeError "unhashable type") else Ok l
  | _ => Ok []
  end.
Definition allowed (allow : list value) (p : path) : bool := existsb (fun v => eq_str v (as_posix p)) allow.
Definition required_errors (t : tree) (name : string) : list string :=
  error_unless (match t !! [name] with Some _ => true | None => false end) ("missing required profile path: " +:+ name).

Section platform.
Context (pf : platform).

(** The parts that are skipped are looked for in the whole absolute path. *)
Definition binary_error (allow : list value) (t : tree) (p : path) : list string :=
  if negb (is_file t p) || skipped (f_root pf ++ p) then []
  else error_unless (negb (is_binary p) || allowed allow p) ("binary-like file is not declared redistributable: " +:+ as_posix p).
Definition tree_errors (doc : dict value) (t : tree) : res (list string) :=
  allow ← redistributable doc;
  Ok (List.flat_map (required_errors t) ["profile.json"; "README.md"; "scripts"] ++
      List.flat_map (binary_error allow t) (f_list pf (keys t))).
Definition validate_doc (doc : value) (root : option tree) : res (list string) :=
  match doc with
  | VDict d =>
      let e := error_unless (eq_str (dget_n "schema" d) SCHEMA) ("schema must be " +:+ SCHEMA) ++
               error_unless (string_with id_ok (dget_n "id" d)) "id must match [a-z0-9][a-z0-9._-]{0,63}" ++
               error_unless (string_with (fun s => negb (str_empty (str_strip s))) (dget_n "name" d)) "name must be a non-empty string" ++
               error_of "" (semver_tuple (py_str (dget_or "minimum_ppc_lab" (VStr "") d))) ++
               error_unless (architecture_ok (dget_n "architecture" d)) "architecture must declare guest=ppc32 and endian=big" ++
               input_errors (dget_or "inputs" (VList []) d) ++
               List.flat_map (layout_errors (dget_n "layout" d)) ["scripts"; "reference"; "validation"] in
      match root with
      | None => Ok e
      | Some t => e' ← tree_errors d t; Ok (e ++ e')
      end
  | _ => Ok ["profile must be a JSON object"]
  end.

(** ** Creating a profile *)

Definition skeleton (ident name description : string) : dict value :=
  [("schema", VStr SCHEMA); ("profile_api", VInt PROFILE_API_VERSION); ("id", VStr ident); ("name", VStr name); ("description", VStr description);
   ("minimum_ppc_lab", VStr DEFAULT_MINIMUM); ("architecture", obj [("guest", VStr "ppc32"); ("endian", VStr "big")]);
   ("inputs", VList [obj [("id", VStr "image"); ("env", VStr "PPC_LAB_TARGET"); ("required", VBool true); ("redistributable", VBool false);
                          ("sha256", VNone); ("description", VStr "External target image; never committed to the profile by default.")]]);
   ("entry_points", VList []); ("runtime", obj [("personality", VNone); ("bindings", VList [])]);
   ("layout", obj [("scripts", VStr "scripts"); ("reference", VStr "reference"); ("validation", VStr "validation")]);
   ("redistributable_files", VList []); ("tags", VList []); ("notes", VList [])].

Definition nl : string := sp 10.
Definition readme (name ident : string) : string :=
  "# " +:+ name +:+ " PPC Lab profile" +:+ nl +:+ nl +:+
  "Profile id: `" +:+ ident +:+ "`. Target binaries stay external and are supplied through `PPC_LAB_TARGET`." +:+ nl +:+ nl +:+
  "## Validate" +:+ nl +:+ nl +:+ "```bash" +:+ nl +:+ "ppc-lab-target validate ." +:+ nl +:+ "```" +:+ nl +:+ nl +:+
  "## Run" +:+ nl +:+ nl +:+ "```bash" +:+ nl +:+ "export PPC_LAB_TARGET=/absolute/path/to/target" +:+ nl +:+ "./scripts/run.sh" +:+ nl +:+ "```" +:+ nl.
Definition quoted (s : string) : string := quote_char +:+ s +:+ quote_char.
Definition run_script : string :=
  "#!/usr/bin/env bash" +:+ nl +:+ "# SPDX-License-Identifier: GPL-3.0-only" +:+ nl +:+ "set -euo pipefail" +:+ nl +:+
  ": " +:+ quoted "${PPC_LAB_TARGET:?set PPC_LAB_TARGET}" +:+ nl +:+ "PPC_LAB_BIN=" +:+ quoted "${PPC_LAB_BIN:-ppc-lab}" +:+ nl +:+
  "exec " +:+ quoted "$PPC_LAB_BIN" +:+ " image-info " +:+ quoted "$PPC_LAB_TARGET" +:+ nl.
Definition json_text (v : value) : string := json_indent (sort_keys v) +:+ nl.

Definition operation (op : tree -> res tree) : M tree unit := fun t => match op t with Ok t => (Ok tt, t) | Raise e => (Raise e, t) end.
(** [p.write_text(text)]: a file that is there keeps its mode. *)
Definition write_text (p : path) (text : string) : M tree unit :=
  operation (fun t => write_file p (text, match t !! p with Some (File f) => snd f | _ => f_mode pf end) t).
Definition chmod (p : path) (mode : Z) : M tree unit :=
  operation (fun t => match t !! p with
                      | Some (File f) => Ok (<[p := File (fst f, mode)]> t)
                      | Some Dir => Ok t
                      | None => Raise (Exn FileNotFoundError (as_posix p))
                      end).
(** [root.exists() and any(root.iterdir())] *)
Definition occupied (t : tree) : res bool :=
  match t !! [] with
  | None => Ok false
  | Some Dir => Ok (has_child [] t)
  | Some (File _) => os_error "Not a directory"
  end.

Record creation := Creation { n_id : string; n_name : option string; n_description : option string; n_force : bool }.
Definition or_text (o : option string) (dflt : string) : string := match o with Some s => if str_empty s then dflt else s | None => dflt end.
Definition created_doc (n : creation) : dict value := skeleton (n_id n) (or_text (n_name n) (n_id n)) (or_text (n_description n) "").
Definition cmd_init (n : creation) : M tree Z :=
  t ← gets id;
  there ← lift (occupied t);
  _ ← lift (guard_app (negb there || n_force n) "directory is not empty; use --force to add/replace SDK files");
  _ ← m_iter (fun d => operation (fun t => mkdir_step t d)) [[]; ["scripts"]; ["reference"]; ["validation"]];
  _ ← write_text ["profile.json"] (json_text (obj (created_doc n)));
  _ ← write_text ["README.md"] (readme (or_text (n_name n) (n_id n)) (n_id n));
  _ ← write_text ["scripts"; "run.sh"] run_script;
  _ ← chmod ["scripts"; "run.sh"] 493;
  _ ← write_text ["reference"; ".gitkeep"] "";
  _ ← write_text ["validation"; ".gitkeep"] "";
  mret 0.

(** ** Reading a profile *)

Definition read_profile (t : tree) : res value :=
  match t !! ["profile.json"] with
  | Some (File f) => loads (fst f)
  | Some Dir => os_error "Is a directory: profile.json"
  | None => Raise (Exn FileNotFoundError "profile.json")
  end.
(** The errors that are reported and the exit code. *)
Definition cmd_validate (t : tree) : res (list string * Z) :=
  doc ← read_profile t;
  errors ← validate_doc doc (Some t);
  Ok (errors, match errors with [] => 0 | _ => 1 end).
(** Without --json the inputs are listed, each of which must be an object. *)
Definition cmd_inspect (json : bool) (t : tree) : res (dict value * Z) :=
  doc ← read_profile t;
  errors ← validate_doc doc (Some t);
  ident ← vget "id" doc; name ← vget "name" doc; minimum ← vget "minimum_ppc_lab" doc;
  inputs ← vget_or "inputs" (VList []) doc;
  entry_points ← vget_or "entry_points" (VList []) doc;
  _ ← (if json then Ok [] else l ← viter inputs; res_map (vget "id") l);
  Ok ([("schema", VStr "ppc-lab-target-profile-inspection-v1"); ("ok", VBool (match errors with [] => true | _ => false end)); ("id", ident); ("name", name);
       ("minimum_ppc_lab", minimum); ("inputs", inputs); ("entry_points", entry_points); ("errors", VList (VStr <$> errors))],
      match errors with [] => 0 | _ => 1 end).

(** ** Packing *)

Definition profile_files (t : tree) : list path :=
  py_sorted as_posix (List.filter (fun p => is_file t p && negb (skipped p) && negb (String.eqb (Upgrade.suffix (List.last p "")) ".pyc")) (f_list pf (keys t))).

(** The civil date of a number of days since 1970-01-01. *)
Definition civil (days : Z) : Z * Z * Z :=
  let z := days + 719468 in
  let era := z / 146097 in
  let doe := z mod 146097 in
  let yoe := (doe - doe / 1460 + doe / 36524 - doe / 146096) / 365 in
  let doy := doe - (365 * yoe + yoe / 4 - yoe / 100) in
  let mp := (5 * doy + 2) / 153 in
  let m := if mp <? 10 then mp + 3 else mp - 9 in
  (yoe + era * 400 + (if m <=? 2 then 1 else 0), m, doy - (153 * mp + 2) / 5 + 1).
Definition ZIP_EPOCH : Z := 315532800.
Definition LAST_SECOND : Z := 253402300799.
Definition zip_time (epoch : Z) : res (Z * Z * Z * Z * Z * Z) :=
  let t := Z.max epoch ZIP_EPOCH in
  if 2 ^ 63 <=? t then Raise (Exn OverflowError "timestamp out of range for platform time_t")
  else if LAST_SECOND <? t then Raise (Exn ValueError "year is out of range")
  else
    let '(y, m, d) := civil (t / 86400) in
    let s := t mod 86400 in
    Ok (y, m, d, s / 3600, s / 60 mod 60, s mod 60 - s mod 60 mod 2).

Definition file_entry (t : tree) (p : path) : value :=
  let data := match file_at t p with Some f => fst f | None => "" end in
  obj [("path", VStr (as_posix p)); ("size", VInt (Z.of_nat (String.length data))); ("sha256", VStr (sha256_hex data))].
Definition package_doc (doc : dict value) (t : tree) (files : list path) : res (dict value) :=
  ident ← dindex "id" doc; minimum ← dindex "minimum_ppc_lab" doc;
  Ok [("schema", VStr PACKAGE_SCHEMA); ("profile_schema", VStr SCHEMA); ("profile_api", VInt PROFILE_API_VERSION); ("id", ident); ("minimum_ppc_lab", minimum);
      ("files", VList (file_entry t <$> files))].
Definition S_IFREG : Z := 32768.
Definition packed (prefix : string) (t : tree) (p : path) : member :=
  let f := default ("", 0) (file_at t p) in
  Member (prefix +:+ as_posix p) (fst f) (Z.lor S_IFREG (if f_x_ok pf f then 493 else 420)).
Record package := Package { k_time : Z * Z * Z * Z * Z * Z; k_members : list member }.
Definition epoch_of (source_date_epoch : option string) (epoch : Z) : res Z :=
  match source_date_epoch with None => Ok epoch | Some s => py_int (VStr s) end.
Definition cmd_pack (source_date_epoch : option string) (epoch : Z) (t : tree) : res package :=
  doc ← read_profile t;
  errors ← validate_doc doc (Some t);
  _ ← guard_app (match errors with [] => true | _ => false end) ("profile validation failed: " +:+ str_join "; " errors);
  match doc with
  | VDict d =>
      let files := profile_files t in
      manifest ← package_doc d t files;
      epoch ← epoch_of source_date_epoch epoch;
      time ← zip_time epoch;
      ident ← dindex "id" d;
      let prefix := py_str ident +:+ "/" in
      Ok (Package time ((packed prefix t <$> files) ++ [Member (prefix +:+ PACKAGE_NAME) (json_text (obj manifest)) (Z.lor S_IFREG 420)]))
  | _ => no_attr doc "get"
  end.

(** ** Commands *)

Inductive command := Init (n : creation) | Validate | Inspect (json : bool) | Pack (source_date_epoch : option string) (epoch : Z).
Inductive output := Nothing | Errors (l : list string) | Inspection (d : dict value) | Packed (k : package).
Definition execute (c : command) : M tree (Z * output) :=
  match c with
  | Init n => code ← cmd_init n; mret (code, Nothing)
  | Validate => t ← gets id; '(errors, code) ← lift (cmd_validate t); mret (code, Errors errors)
  | Inspect json => t ← gets id; '(d, code) ← lift (cmd_inspect json t); mret (code, Inspection d)
  | Pack sde epoch => t ← gets id; k ← lift (cmd_pack sde epoch t); mret (0, Packed k)
  end.
(** The exit code; an exception of another class is a traceback. *)
Definition main (c : command) : M tree (Z * output) :=
  catch [AppError; OSError; JSONDecodeError; ValueError] (execute c) (fun _ => mret (2, Nothing)).
End platform.

Example zip_epochs : civil (946684800 / 86400) = (2000, 1, 1) /\ civil (ZIP_EPOCH / 86400) = (1980, 1, 1) /\ civil (1709164800 / 86400) = (2024, 2, 29).
Proof. split_and!; vm_compute; reflexivity. Qed.
