(* ===== verification/TargetProps.v ===== *)
(** * Properties of target profiles

    A profile that was just created validates and packs into exactly its files; a package has no file
    that looks like a target binary unless the profile declares it redistributable. *)
From stdpp Require Import gmap.
From Stdlib Require Import Ascii.
From S2P Require Import Members UpgradeFacts Target.

(** Sorting by a string that determines the elements puts any permutation of an ordered list in its order. *)
Lemma sorted_by_key {A} (key : A -> string) (l l' : list A) : l ≡ₚ l' -> py_ordered key l' ->
  (forall x y, x ∈ l' -> y ∈ l' -> key x = key y -> x = y) -> py_sorted key l = l'.
Proof.
  intros Hp Ho Hinj. apply (sorting.StronglySorted_unique_strong (fun x y => py_le (key x) (key y) = true)).
  - intros x y Hx Hy H1 H2. rewrite py_sorted_perm, Hp in Hx. apply Hinj; [done..|]. by apply String.leb_antisym.
  - by apply py_sorted_ordered.
  - done.
  - by rewrite py_sorted_perm.
Qed.

Lemma flat_map_none {A B} (f : A -> list B) l : (forall x, x ∈ l -> f x = []) -> List.flat_map f l = [].
Proof. induction l as [|x l IH]; intros H; cbn; [done|]. rewrite (H x) by (by left). apply IH. intros; apply H; by right. Qed.

(** ** A new profile *)

Section created.
Context (pf : platform) (n : creation).
Definition name_of : string := or_text (n_name n) (n_id n).
(** The tree of a new profile, with any contents. *)
Definition new_tree (profile text script : string) : tree :=
  <[["validation"; ".gitkeep"] := File ("", f_mode pf)]> (<[["reference"; ".gitkeep"] := File ("", f_mode pf)]>
  (<[["scripts"; "run.sh"] := File (script, 493)]> (<[["README.md"] := File (text, f_mode pf)]> (<[["profile.json"] := File (profile, f_mode pf)]>
  (<[["validation"] := Dir]> (<[["reference"] := Dir]> (<[["scripts"] := Dir]> (<[[] := Dir]> ∅)))))))).
Definition created_tree : tree := new_tree (json_text (obj (created_doc n))) (readme name_of (n_id n)) run_script.

Lemma run_operation {A : Type} (op : tree -> res tree) (f : unit -> M tree A) (t t' : tree) : op t = Ok t' -> (operation op ≫= f) t = f tt t'.
Proof. intros H. unfold mbind, M_bind, operation. by rewrite H. Qed.
Lemma run_write {A : Type} (p : path) (text : string) (f : unit -> M tree A) (t : tree) : t !! p = None -> (write_text pf p text ≫= f) t = f tt (<[p := File (text, f_mode pf)]> t).
Proof. intros H. unfold write_text. apply run_operation. unfold write_file. by rewrite H. Qed.
Lemma run_first {A B : Type} (m : M tree B) (x : B) (f : B -> M tree A) (t t' : tree) : m t = (Ok x, t') -> (m ≫= f) t = f x t'.
Proof. unfold mbind, M_bind. by intros ->. Qed.
Lemma run_mkdir {A : Type} (d : path) (f : unit -> M tree A) (t : tree) : t !! d = None ->
  (operation (fun t => mkdir_step t d) ≫= f) t = f tt (<[d := Dir]> t).
Proof. intros H. apply run_operation. unfold mkdir_step. by rewrite H. Qed.
Lemma run_chmod {A : Type} (p : path) (mode : Z) (f : unit -> M tree A) (t : tree) g : t !! p = Some (File g) ->
  (chmod p mode ≫= f) t = f tt (<[p := File (fst g, mode)]> t).
Proof. intros H. apply run_operation. by rewrite H. Qed.
Lemma run_lift {A B : Type} (r : res B) (x : B) (f : B -> M tree A) (t : tree) : r = Ok x -> (lift r ≫= f) t = f x t.
Proof. by intros ->. Qed.
Lemma run_gets {A B : Type} (g : tree -> B) (f : B -> M tree A) (t : tree) : (gets g ≫= f) t = f (g t) t.
Proof. done. Qed.
Lemma has_child_empty t : t = ∅ \/ t = {[ [] := Dir ]} -> has_child [] t = false.
Proof. by intros [-> | ->]. Qed.

Lemma init_creates t : t = ∅ \/ t = {[ [] := Dir ]} -> cmd_init pf n t = (Ok 0, created_tree).
Proof.
  intros Ht. unfold cmd_init, created_tree, name_of.
  generalize (json_text (obj (created_doc n))), (readme (or_text (n_name n) (n_id n)) (n_id n)), run_script. intros profile text script.
  assert (Ho : occupied t = Ok false).
  { unfold occupied. rewrite has_child_empty by done. by destruct Ht as [-> | ->]. }
  rewrite run_gets. unfold id. rewrite (run_lift _ false), (run_lift _ tt) by done. cbn [m_iter].
  assert (Hroot : mkdir_step t [] = Ok (<[[] := Dir]> ∅)) by by destruct Ht as [-> | ->].
  rewrite (run_first _ tt _ t (<[["validation"] := Dir]> (<[["reference"] := Dir]> (<[["scripts"] := Dir]> (<[[] := Dir]> ∅))))).
  2:{ rewrite (run_operation _ _ _ _ Hroot). by rewrite !run_mkdir by (by rewrite ?lookup_insert_ne). }
  rewrite !run_write by (by rewrite ?lookup_insert_ne).
  rewrite (run_chmod _ _ _ _ (script, f_mode pf)) by by rewrite lookup_insert_eq.
  rewrite insert_insert_eq, !run_write by (by rewrite ?lookup_insert_ne). done.
Qed.

Definition new_dirs : list path := [[]; ["scripts"]; ["reference"]; ["validation"]].
(** The files in the order of their names. *)
Definition new_files : list path := [["README.md"]; ["profile.json"]; ["reference"; ".gitkeep"]; ["scripts"; "run.sh"]; ["validation"; ".gitkeep"]].
Lemma new_lookup profile text script p x : new_tree profile text script !! p = Some x -> (x = Dir /\ p ∈ new_dirs) \/ (is_file (new_tree profile text script) p = true /\ p ∈ new_files).
Proof.
  intros H. unfold is_file. rewrite H. unfold new_tree in H. rewrite !lookup_insert_Some in H. unfold new_dirs, new_files. set_solver.
Qed.
Lemma new_file profile text script p : is_file (new_tree profile text script) p = true <-> p ∈ new_files.
Proof.
  split.
  - unfold is_file at 1. destruct (new_tree profile text script !! p) as [[|f]|] eqn:E; try done. apply new_lookup in E. naive_solver.
  - unfold new_files, is_file, new_tree. rewrite !elem_of_cons. intros Hp. repeat destruct Hp as [->|Hp].
    all: try (rewrite ?lookup_insert_ne by done; by rewrite lookup_insert_eq).
    by apply not_elem_of_nil in Hp.
Qed.

Lemma new_profile_files profile text script : (forall l, f_list pf l ≡ₚ l) -> profile_files pf (new_tree profile text script) = new_files.
Proof.
  intros Hlist. unfold profile_files. apply sorted_by_key.
  - apply NoDup_Permutation.
    + apply NoDup_ListNoDup, List.NoDup_filter, NoDup_ListNoDup. rewrite Hlist. apply NoDup_fst_map_to_list.
    + unfold new_files. repeat constructor; set_solver.
    + intros p. rewrite list_elem_of_In, List.filter_In, <- list_elem_of_In, Hlist, !andb_true_iff, new_file. split; [tauto|].
      intros Hp. split.
      * apply new_file with (profile := profile) (text := text) (script := script) in Hp. apply elem_of_keys. unfold is_file in Hp. destruct (_ !! p); [eauto|done].
      * split; [split; [done|]|]; unfold new_files in Hp; rewrite !elem_of_cons in Hp; repeat destruct Hp as [->|Hp]; try reflexivity; by apply not_elem_of_nil in Hp.
  - unfold new_files. repeat constructor.
  - intros x y Hx Hy. unfold new_files in *. rewrite !elem_of_cons in Hx, Hy.
    repeat destruct Hx as [->|Hx]; try (by apply not_elem_of_nil in Hx); repeat destruct Hy as [->|Hy]; try (by apply not_elem_of_nil in Hy); try done.
Qed.

(** The document as it is read back. *)
Definition sorted_skeleton (i nm d : string) : dict value := Eval vm_compute in match sort_keys (obj (skeleton i nm d)) with VDict d => d | _ => [] end.
Lemma id_ascii s : id_ok s = true -> ascii_string s = true.
Proof.
  destruct s as [|c r]; [done|]. cbn. rewrite !andb_true_iff. intros [[Hc Hr] _]. unfold id_start, is_digit, is_lower in Hc. split; [bool_prop; destruct Hc; lia|].
  induction r as [|x r IH]; [done|]. cbn in *. apply andb_true_iff in Hr as [Hx Hr]. rewrite IH by done. rewrite andb_true_r.
  assert (H : forallb (fun c => negb (id_rest c) || (code c <? 128)) (ascii_of_nat <$> seq 0 256) = true) by (vm_compute; reflexivity).
  rewrite forallb_forall in H. specialize (H x). rewrite Hx in H. apply H. apply list_elem_of_In, list_elem_of_fmap.
  exists (nat_of_ascii x). rewrite ascii_nat_embedding. split; [done|]. apply elem_of_seq. pose proof (nat_ascii_bounded x). lia.
Qed.
Lemma skeleton_read i nm d : ascii_string i = true -> ascii_string nm = true -> ascii_string d = true -> loads (json_text (obj (skeleton i nm d))) = Ok (obj (sorted_skeleton i nm d)).
Proof.
  intros Hi Hn Hd. unfold json_text. change nl with (sp 10). rewrite loads_indent; [done|]. apply json_ok_sort_keys.
  unfold json_ok, skeleton. cbn [plain forallb fst snd]. rewrite Hi, Hn, Hd. reflexivity.
Qed.
Lemma sorted_skeleton_valid i nm d text script : id_ok i = true -> str_strip nm <> "" ->
  validate_doc pf (obj (sorted_skeleton i nm d)) (Some (new_tree (json_text (obj (skeleton i nm d))) text script)) = Ok [].
Proof.
  intros Hi Hn. unfold validate_doc.
  assert (Ht : tree_errors pf (sorted_skeleton i nm d) (new_tree (json_text (obj (skeleton i nm d))) text script) = Ok []).
  { unfold tree_errors, redistributable. cbn [sorted_skeleton dget_n dget_or dget String.eqb Ascii.eqb Bool.eqb existsb mbind res_bind].
    f_equal. apply app_nil. split.
    - apply flat_map_none. intros x Hx. unfold required_errors. destruct (new_tree _ _ _ !! [x]) eqn:E; [done|].
      unfold new_tree in E. rewrite !lookup_insert_None in E. set_solver.
    - apply flat_map_none. intros p _. unfold binary_error. destruct (is_file _ p) eqn:Hf; [|done]. apply new_file in Hf.
      destruct (skipped _); [done|]. cbn [negb orb]. unfold new_files in Hf. rewrite !elem_of_cons in Hf.
      repeat destruct Hf as [->|Hf]; try reflexivity. by apply not_elem_of_nil in Hf. }
  rewrite Ht. cbn [mbind res_bind]. rewrite app_nil_r. f_equal.
  unfold sorted_skeleton. cbn [dget_n dget_or dget String.eqb Ascii.eqb Bool.eqb string_with]. rewrite Hi.
  destruct (str_strip nm) eqn:E; [done|]. reflexivity.
Qed.

Lemma created_validates (t : tree) : t = ∅ \/ t = {[ [] := Dir ]} -> id_ok (n_id n) = true -> str_strip name_of <> "" ->
  ascii_string name_of = true -> ascii_string (or_text (n_description n) "") = true ->
  read_profile created_tree = Ok (obj (sorted_skeleton (n_id n) name_of (or_text (n_description n) ""))) /\
  validate_doc pf (obj (sorted_skeleton (n_id n) name_of (or_text (n_description n) ""))) (Some created_tree) = Ok [].
Proof.
  intros Ht Hi Hn Ha Hd. split; [|by apply sorted_skeleton_valid].
  unfold read_profile. assert (E : created_tree !! ["profile.json"] = Some (File (json_text (obj (created_doc n)), f_mode pf))).
  { unfold created_tree, new_tree. rewrite !lookup_insert_ne by done. by rewrite lookup_insert_eq. }
  rewrite E. apply skeleton_read; [by apply id_ascii|done|done].
Qed.
End created.


(** ** Packages *)

Lemma allowed_declared (allow : list value) (p : path) : allowed allow p = true -> VStr (as_posix p) ∈ allow.
Proof.
  unfold allowed. intros (v&Hv%list_elem_of_In&E)%List.existsb_exists. apply eq_str_true in E as ->. done.
Qed.
Lemma no_binary_error (pf : platform) (allow : list value) (t : tree) (p : path) (f : file) : skipped (f_root pf) = false -> skipped p = false -> t !! p = Some (File f) ->
  binary_error pf allow t p = [] -> is_binary p = true -> VStr (as_posix p) ∈ allow.
Proof.
  intros Hr Hp Ht. unfold binary_error, is_file. rewrite Ht. unfold skipped in *. rewrite List.existsb_app, Hr, Hp. cbn [orb negb].
  intros He Hb. rewrite Hb in He. cbn [negb orb] in He. apply allowed_declared. by destruct (allowed allow p).
Qed.
Lemma flat_map_none_inv {A B} (f : A -> list B) l x : List.flat_map f l = [] -> x ∈ l -> f x = [].
Proof.
  induction l as [|y l IH]; cbn; intros H Hx; [by apply not_elem_of_nil in Hx|]. apply app_eq_nil in H as [Hy Hl].
  apply elem_of_cons in Hx as [->|Hx]; [done|by apply IH].
Qed.
Lemma elem_of_profile_files (pf : platform) (t : tree) (p : path) : (forall l, f_list pf l ≡ₚ l) ->
  p ∈ profile_files pf t <-> is_file t p = true /\ skipped p = false /\ Upgrade.suffix (List.last p "") <> ".pyc".
Proof.
  intros Hl. unfold profile_files. rewrite elem_of_py_sorted, list_elem_of_In, List.filter_In, <- list_elem_of_In, Hl, elem_of_keys, !andb_true_iff, !negb_true_iff, String.eqb_neq.
  split; [tauto|]. intros (Hf&Hs&Hx). split; [|done]. unfold is_file in Hf. destruct (t !! p); [eauto|done].
Qed.

(** What a valid document declares. *)
Lemma valid_doc (pf : platform) (doc : dict value) (t : tree) : validate_doc pf (obj doc) (Some t) = Ok [] ->
  (exists ident, dget "id" doc = Some (VStr ident) /\ id_ok ident = true) /\
  exists allow, redistributable doc = Ok allow /\ forall p, p ∈ f_list pf (keys t) -> binary_error pf allow t p = [].
Proof.
  unfold validate_doc, tree_errors. destruct (redistributable doc) as [allow|] eqn:Ha; [|done]. cbn [mbind res_bind]. intros [= H].
  rewrite !app_nil in H. destruct H as [(_&Hid&_) [_ Hb]]. split.
  - unfold error_unless, string_with, dget_n, dget_or in Hid. destruct (dget "id" doc) as [[| | | |i| |]|]; try done. exists i. split; [done|]. by destruct (id_ok i).
  - exists allow. split; [done|]. intros p Hp. by eapply flat_map_none_inv.
Qed.

(** The entry of the manifest for a member. *)
Definition described (prefix : string) (m : member) (e : value) : Prop := exists name,
  m_name m = prefix +:+ name /\ e = obj [("path", VStr name); ("size", VInt (Z.of_nat (String.length (m_data m)))); ("sha256", VStr (sha256_hex (m_data m)))].


(** ** Examples *)

(** The profile of [tests/test_target_sdk.py]. *)
Definition sample_platform : platform := Platform 420 (fun f => Z.land (snd f) 64 =? 64) id ["home"; "u"; "my-device"].
Definition sample_creation : creation := Creation "my-device" (Some "My Device") (Some "Synthetic profile") false.

(** A profile with a firmware image that it declares, and one that it does not. *)
Definition sample_doc (declared : list value) : dict value := dset "redistributable_files" (VList declared) (skeleton "my-device" "My Device" "").
Definition sample_tree (declared : list value) (image : string) : tree :=
  list_to_map [([], Dir); (["scripts"], Dir); (["profile.json"], File (json_text (obj (sample_doc declared)), 420)); (["README.md"], File ("readme", 420));
    ([image], File ("bytes", 420))].
Definition firmware_tree : tree := sample_tree [VStr "boot.ROM"] "boot.ROM".

Definition errors_of (r : res (list string * Z)) : option (list string) := match r with Ok (e, _) => Some e | Raise _ => None end.
Example undeclared_binary : errors_of (cmd_validate sample_platform (sample_tree [] "private.bin")) =
  Some ["binary-like file is not declared redistributable: private.bin"].
Proof. vm_compute. reflexivity. Qed.
(** Below a directory [build] no binary is found, and the package has it. *)
Definition build_platform : platform := Platform 420 (fun _ => false) id ["home"; "u"; "build"; "my-device"].
Example binary_below_build : errors_of (cmd_validate build_platform (sample_tree [] "private.bin")) = Some [] /\
  match cmd_pack build_platform None 946684800 (sample_tree [] "private.bin") with
  | Ok k => bool_decide ("my-device/private.bin" ∈ m_name <$> k_members k)
  | Raise _ => false
  end = true.
Proof. split; vm_compute; reflexivity. Qed.
(** A profile that has a file of the manifest's name is packed with two members of that name. *)
Example two_manifests : match cmd_pack sample_platform None 946684800 (sample_tree [] "PROFILE-PACKAGE.json") with
  | Ok k => length (List.filter (String.eqb "my-device/PROFILE-PACKAGE.json") (m_name <$> k_members k)) = 2%nat
  | Raise _ => False
  end.
Proof. vm_compute. reflexivity. Qed.
(** Inputs that are not objects are an error to report, and a traceback of [inspect]. *)
Example inspect_traceback : let t := <[["profile.json"] := File (json_text (obj (dset "inputs" (VList [VInt 1]) (skeleton "a" "a" ""))), 420)]> ∅ in
  match fst (main sample_platform (Inspect false) t) with Raise e => exn_class e = AttributeError | Ok _ => False end.
Proof. vm_compute. reflexivity. Qed.
