(* ===== verification/PyFloat.v ===== *)
(** * Sums, means and quotients of floats

    [sum], [math.fsum], [statistics.fmean], [math.sqrt] and the division of integers as CPython computes
    them, on binary64 floats.  [sum] of floats is a plain loop up to Python 3.11 and compensated since
    3.12, so it takes the method as an argument. *)
From Stdlib Require Import Floats.SpecFloat.
From S2P Require Export PyValue.

Definition fabs (x : float) : float :=
  match x with
  | S754_zero _ => S754_zero false
  | S754_infinity _ => S754_infinity false
  | S754_finite _ m e => S754_finite false m e
  | S754_nan => S754_nan
  end.
Definition fsqrt : float -> float := SFsqrt fprec femax.
(** The float nearest to an integer that is in range. *)
Definition of_Z (n : Z) : float := ok_or fzero (float_of_int n).

(** [a / b] of integers, for [0 < b]: rounded once, an [OverflowError] beyond the largest float. *)
Definition int_div (a b : Z) : res float :=
  let q := ratio a b in
  if is_inf q then Raise (Exn OverflowError "integer division result too large for a float") else Ok q.
(** [a / b] of integers, for [b] not 0. *)
Definition true_div (a b : Z) : res float := if b <? 0 then int_div (- a) (- b) else int_div a b.
(** [a / b if b else 0.0] *)
Definition rate (a b : Z) : res float := if b =? 0 then Ok fzero else int_div a b.

(** ** [sum] *)

Inductive summation := Plain | Compensated.
(** A step of Neumaier's summation: the sum and its compensation. *)
Definition neumaier (acc : float * float) (x : float) : float * float :=
  let '(s, c) := acc in
  let t := fadd s x in
  (t, fadd c (if fleb (fabs x) (fabs s) then fadd (fsub s t) x else fadd (fsub x t) s)).
Definition compensate (acc : float * float) : float :=
  let '(s, c) := acc in if negb (feqb c fzero) && is_finite c then fadd s c else s.
(** [sum(l)] of floats: the sum starts at the integer 0. *)
Definition py_sum (m : summation) (l : list float) : float :=
  match l with
  | [] => fzero
  | x :: l =>
      match m with
      | Plain => fold_left fadd l (fadd fzero x)
      | Compensated => compensate (fold_left neumaier l (fadd fzero x, fzero))
      end
  end.

(** ** [math.fsum] and [statistics.fmean] *)

(** Add [x] to the partial sums, smallest first: the rounding errors that are not zero, and the sum. *)
Fixpoint grow (x : float) (partials : list float) : list float * float :=
  match partials with
  | [] => ([], x)
  | y :: partials =>
      let '(a, b) := if fltb (fabs x) (fabs y) then (y, x) else (x, y) in
      let hi := fadd a b in
      let lo := fsub b (fsub hi a) in
      let '(rest, top) := grow hi partials in
      (if feqb lo fzero then rest else lo :: rest, top)
  end.
(** The partial sums, the sum of the elements that are not finite and that of the infinities among them. *)
Record fsum_state := FsumState { u_partials : list float; u_special : float; u_infinite : float }.
(** One element of [math.fsum]: an [OverflowError] when the sum of finite elements is not finite. *)
Definition fsum_step (st : fsum_state) (x : float) : res fsum_state :=
  let '(rest, top) := grow x (u_partials st) in
  if feqb top fzero then Ok (FsumState rest (u_special st) (u_infinite st))
  else if is_finite top then Ok (FsumState (rest ++ [top]) (u_special st) (u_infinite st))
  else if is_finite x then Raise (Exn OverflowError "intermediate overflow in fsum")
  else Ok (FsumState [] (fadd (u_special st) x) (if is_inf x then fadd (u_infinite st) x else u_infinite st)).
(** Sum the partials from the largest until the sum is inexact, then round half to even. *)
Fixpoint collapse (hi : float) (down : list float) : float :=
  match down with
  | [] => hi
  | y :: down =>
      let s := fadd hi y in
      let lo := fsub y (fsub s hi) in
      if feqb lo fzero then collapse s down
      else match down with
           | z :: _ =>
               if (fltb lo fzero && fltb z fzero) || (fltb fzero lo && fltb fzero z) then
                 let y2 := fmul lo (of_Z 2) in
                 let x := fadd s y2 in
                 if feqb y2 (fsub x s) then x else s
               else s
           | [] => s
           end
  end.
(** [math.fsum(l)] *)
Definition fsum (l : list float) : res float :=
  st ← res_fold fsum_step (FsumState [] fzero fzero) l;
  if negb (feqb (u_special st) fzero) then
    if is_nan (u_infinite st) then Raise (Exn ValueError "-inf + inf in fsum") else Ok (u_special st)
  else Ok (match rev (u_partials st) with [] => fzero | hi :: down => collapse hi down end).
(** [statistics.fmean(l)] of at least one float. *)
Definition fmean (l : list float) : res float := s ← fsum l; fdiv s (of_Z (Z.of_nat (length l))).

(** ** Numbers of either kind *)

(** [isinstance(v, (int, float))] *)
Definition is_number (v : value) : bool := match v with VInt _ | VBool _ | VFloat _ => true | _ => false end.
Definition as_integer (v : value) : option Z := match v with VInt n => Some n | VBool b => Some (if b then 1 else 0) | _ => None end.
(** [n <= x] and [x <= n], exactly. *)
Definition int_le_float (n : Z) (x : float) : bool :=
  match x with S754_nan => false | S754_infinity s => negb s | _ => let '(p, q) := float_frac x in n * q <=? p end.
Definition float_le_int (x : float) (n : Z) : bool :=
  match x with S754_nan => false | S754_infinity s => s | _ => let '(p, q) := float_frac x in p <=? n * q end.
(** [a <= b] of numbers. *)
Definition num_le (a b : value) : bool :=
  match as_integer a, as_integer b, a, b with
  | Some n, Some m, _, _ => n <=? m
  | Some n, None, _, VFloat y => int_le_float n y
  | None, Some m, VFloat x, _ => float_le_int x m
  | None, None, VFloat x, VFloat y => fleb x y
  | _, _, _, _ => false
  end.
(** [float(a - b)] of numbers. *)
Definition num_sub (a b : value) : res float :=
  match as_integer a, as_integer b with
  | Some n, Some m => float_of_int (n - m)
  | _, _ => x ← py_float a; y ← py_float b; Ok (fsub x y)
  end.
(** [math.ceil] *)
Definition ceil_of_float (x : float) : res Z := n ← floor_of_float (SFopp x); Ok (- n).

(** ** Examples *)

Definition tenth : float := ratio 1 10.
Example sum_plain : float_repr (py_sum Plain (repeat tenth 10)) = "0.9999999999999999".
Proof. vm_compute. reflexivity. Qed.
Example sum_compensated : float_repr (py_sum Compensated (repeat tenth 10)) = "1.0".
Proof. vm_compute. reflexivity. Qed.
Example fsum_exact : float_repr <$> (match fsum (repeat tenth 10 ++ [of_Z (10 ^ 100); of_Z 1; float_neg (of_Z (10 ^ 100))]) with Ok x => Some x | _ => None end) = Some "2.0".
Proof. vm_compute. reflexivity. Qed.
Example fmean_ex : match fmean [of_Z 1; of_Z 2; of_Z 4] with Ok x => float_repr x | _ => "" end = "2.3333333333333335".
Proof. vm_compute. reflexivity. Qed.
