(* ===== verification/Prioritize.v ===== *)
(** * Ranking of explored cases ([ppc_lab_prioritize.py])

    The script reads the directory of an exploration, scores every case by four weighted components, and
    reports the ranking, what each value of each axis yielded, and whether the exploration has stopped
    finding anything new. *)
From stdpp Require Import pretty.
From Stdlib Require Import Ascii.
From S2P Require Triage.
From S2P Require Export PyFloat Json.

Abbreviation obj := VDict.

Definition REPORT_SCHEMA : string := "ppc-lab-priority-report-v1".
Definition SUMMARY_SCHEMA : string := "ppc-lab-exploration-summary-v1".
Definition CASE_SCHEMA : string := "ppc-lab-exploration-case-v1".

(** What the script uses of the interpreter: how [sum] adds floats, and the order in which the elements of
    a set of strings come. *)
Record interpreter := Interpreter { y_sum : summation; y_set : list string -> list string }.

(** ** The exploration *)

(** The directory: its resolved path, [summary.json] if it is a file and the files of [cases] if that is a
    directory, with what reading them gives. *)
Record exploration := Exploration { x_path : string; x_summary : option (res value); x_cases : option (dict (res value)) }.
(** [sorted(cases_dir.glob("*.json"))] *)
Definition case_files (files : dict (res value)) : dict (res value) := py_sorted fst (List.filter (fun f => str_endswith ".json" (fst f)) files).
Definition case_path (x : exploration) (name : string) : string := x_path x +:+ "/cases/" +:+ name.
Definition read_case (x : exploration) (f : string * res value) : res (dict value) :=
  v ← snd f;
  match v with
  | VDict row => _ ← guard_app (eq_str (dget_n "schema" row) CASE_SCHEMA) ("case schema mismatch: " +:+ case_path x (fst f)); Ok row
  | _ => app_error ("case schema mismatch: " +:+ case_path x (fst f))
  end.
Definition load_cases (x : exploration) : res (dict value * list (dict value)) :=
  match x_summary x, x_cases x with
  | Some read, Some files =>
      v ← read;
      match v with
      | VDict summary =>
          _ ← guard_app (eq_str (dget_n "schema" summary) SUMMARY_SCHEMA) "exploration summary schema mismatch";
          rows ← res_map (read_case x) (case_files files);
          _ ← guard_app (match rows with [] => false | _ => true end) "exploration contains no cases";
          Ok (summary, rows)
      | _ => app_error "exploration summary schema mismatch"
      end
  | _, _ => app_error ("not a PPC Lab exploration directory: " +:+ x_path x)
  end.

(** [row.get(key) if isinstance(row.get(key), dict) else {}] *)
Definition sub_dict (key : string) (row : dict value) : dict value := match dget_n key row with VDict d => d | _ => [] end.
Definition or_zero (v : value) : value := if py_bool v then v else VInt 0.
(** [int(novelty.get("new_pc_count", 0) or 0)] *)
Definition pc_count (novelty : dict value) : res Z := py_int (or_zero (dget_or "new_pc_count" (VInt 0) novelty)).
Definition failed_case (row : dict value) : bool := negb (py_bool (dget_n "ok" (sub_dict "worker" row))).
Definition novel_case (row : dict value) : bool := py_bool (dget_n "novel" row).
Definition pc_values (row : dict value) : list value := match dget_n "pcs" (sub_dict "trace" row) with VList l => l | _ => [] end.
Definition strings_of (l : list value) : list string := omap (fun v => match v with VStr s => Some s | _ => None end) l.

(** ** Weights *)

Record weights := Weights { w_new_pc : float; w_behavior : float; w_failure : float; w_pc_rarity : float }.
Definition weight_ok (x : float) : bool := is_finite x && negb (fltb x fzero).
Definition parse_weights (w : weights) : res weights :=
  _ ← guard_app (forallb weight_ok [w_new_pc w; w_behavior w; w_failure w; w_pc_rarity w]) "priority weights must be finite and non-negative";
  Ok w.
Definition weights_doc (w : weights) : value :=
  obj [("new_pc", VFloat (w_new_pc w)); ("behavior", VFloat (w_behavior w)); ("failure", VFloat (w_failure w)); ("pc_rarity", VFloat (w_pc_rarity w))].

(** ** How often a program counter occurs *)

Abbreviation counter := (list (string * Z)).
Definition count_of (freq : counter) (pc : string) : Z := default 0 (aget pc freq).
Definition bump (freq : counter) (pc : string) : counter := aset pc (count_of freq pc + 1) freq.
(** The distinct values of a case, each string counted in lower case. *)
Definition count_row (freq : counter) (row : dict value) : res counter :=
  pcs ← res_fold Triage.add_distinct [] (pc_values row);
  Ok (fold_left bump (str_lower <$> strings_of pcs) freq).
Definition pc_frequency (rows : list (dict value)) : res counter := res_fold count_row [] rows.

(** ** The yield of each value of each axis *)

Record slot := Slot { s_value : value; s_cases : Z; s_novel : Z; s_new_pcs : Z; s_failures : Z }.
Definition bool_Z (b : bool) : Z := if b then 1 else 0.
Definition count_slot (novel : bool) (new_pcs : Z) (failed : bool) (s : slot) : slot :=
  Slot (s_value s) (s_cases s + 1) (s_novel s + bool_Z novel) (s_new_pcs s + new_pcs) (s_failures s + bool_Z failed).
(** The slots of an axis by the canonical text of the value. *)
Abbreviation axis_data := (dict (dict slot)).
Definition count_value (novel : bool) (new_pcs : Z) (failed : bool) (data : axis_data) (pv : string * value) : axis_data :=
  let '(path, v) := pv in
  let slots := default [] (dget path data) in
  let key := canonical v in
  dset path (dset key (count_slot novel new_pcs failed (default (Slot v 0 0 0 0) (dget key slots))) slots) data.
Definition count_case (data : axis_data) (row : dict value) : res axis_data :=
  n ← pc_count (sub_dict "novelty" row);
  Ok (fold_left (count_value (novel_case row) n (failed_case row)) (sub_dict "assignment" row) data).

Definition sum_slots (f : slot -> Z) (slots : list slot) : Z := fold_right Z.add 0 (f <$> slots).
Definition slot_doc (s : slot) : res value :=
  novelty ← rate (s_novel s) (s_cases s);
  pcs ← rate (s_new_pcs s) (s_cases s);
  failures ← rate (s_failures s) (s_cases s);
  Ok (obj [("value", s_value s); ("cases", VInt (s_cases s)); ("novel_cases", VInt (s_novel s)); ("new_pcs", VInt (s_new_pcs s));
           ("failures", VInt (s_failures s)); ("novelty_rate", VFloat (fround novelty 6)); ("new_pcs_per_case", VFloat (fround pcs 6));
           ("failure_rate", VFloat (fround failures 6))]).
Record axis_row := AxisRow { a_path : string; a_novelty : float; a_pcs : float; a_slots : list slot; a_doc : value }.
Definition axis_of (kv : string * dict slot) : res axis_row :=
  let slots := (py_sorted fst (snd kv)).*2 in
  docs ← res_map slot_doc slots;
  let cases := sum_slots s_cases slots in
  novelty ← rate (sum_slots s_novel slots) cases;
  pcs ← rate (sum_slots s_new_pcs slots) cases;
  Ok (AxisRow (fst kv) (fround novelty 6) (fround pcs 6) slots
        (obj [("path", VStr (fst kv)); ("cases", VInt cases); ("novel_cases", VInt (sum_slots s_novel slots));
              ("new_pcs", VInt (sum_slots s_new_pcs slots)); ("failures", VInt (sum_slots s_failures slots));
              ("novelty_rate", VFloat (fround novelty 6)); ("new_pcs_per_case", VFloat (fround pcs 6)); ("values", VList docs)])).
Definition axis_key (a : axis_row) : float * float * string := (float_neg (a_novelty a), float_neg (a_pcs a), a_path a).
Definition analyze_axes (rows : list (dict value)) : res (list axis_row) :=
  data ← res_fold count_case [] rows;
  axes ← res_map axis_of (py_sorted fst data);
  Ok (py_sorted axis_key axes).

(** ** Scores *)

Record ranked := Ranked {
  k_index : Z; k_score : float; k_components : list (string * float); k_novel : bool; k_failed : bool; k_new_pcs : Z;
  k_behavior : value; k_parent : value }.
Definition truth (b : bool) : float := of_Z (bool_Z b).
(** [sum(1.0 / max(1, freq[pc]) for pc in pcs)] *)
Definition rarity (y : interpreter) (freq : counter) (pcs : list string) : float :=
  py_sum (y_sum y) ((fun pc => fdiv_ieee (of_Z 1) (of_Z (Z.max 1 (count_of freq pc)))) <$> y_set y pcs).
Definition components (y : interpreter) (w : weights) (freq : counter) (row : dict value) (new_pcs : Z) : res (list (string * float)) :=
  n ← float_of_int new_pcs;
  Ok [("new_pc", fmul n (w_new_pc w));
      ("behavior", fmul (truth (py_bool (dget_n "behavior_novel" (sub_dict "novelty" row)))) (w_behavior w));
      ("failure", fmul (truth (failed_case row)) (w_failure w));
      ("pc_rarity", fmul (rarity y freq (remove_dups (str_lower <$> strings_of (pc_values row)))) (w_pc_rarity w))].
Definition rank_case (y : interpreter) (w : weights) (freq : counter) (position : nat) (row : dict value) : res ranked :=
  n ← pc_count (sub_dict "novelty" row);
  parts ← components y w freq row n;
  index ← py_int (dget_or "index" (VInt (Z.of_nat position)) row);
  Ok (Ranked index (fround (py_sum (y_sum y) parts.*2) 6) ((fun kv => (fst kv, fround (snd kv) 6)) <$> parts) (novel_case row) (failed_case row) n
        (dget_n "behavior_sha256" row) (dget_n "parent" row)).
Definition rank_key (k : ranked) : float * Z := (float_neg (k_score k), k_index k).
Definition rank_cases (y : interpreter) (w : weights) (freq : counter) (rows : list (dict value)) : res (list ranked) :=
  ranking ← res_map (fun nr => rank_case y w freq (fst nr) (snd nr)) (zip (seq 0 (length rows)) rows);
  Ok (py_sorted rank_key ranking).
Definition ranked_doc (k : ranked) : value :=
  obj [("index", VInt (k_index k)); ("score", VFloat (k_score k)); ("components", obj ((fun kv => (fst kv, VFloat (snd kv))) <$> k_components k));
       ("novel", VBool (k_novel k)); ("failed", VBool (k_failed k)); ("new_pc_count", VInt (k_new_pcs k)); ("behavior_sha256", k_behavior k);
       ("parent", k_parent k)].

(** ** The plateau *)

(** [rows[-min(window, len(rows)):]] *)
Definition tail_of {A} (window : Z) (rows : list A) : list A := drop (length rows - Nat.min (Z.to_nat window) (length rows)) rows.
(** [(row.get("novelty") or {}).get(...)]: an [AttributeError] on a value that is not empty and no object. *)
Definition tail_count (row : dict value) : res Z :=
  let novelty := dget_n "novelty" row in
  n ← (if py_bool novelty then vget_or "new_pc_count" (VInt 0) novelty else Ok (VInt 0));
  py_int (or_zero n).
Record plateau := Plateau { p_observed : nat; p_novel : Z; p_new_pcs : Z; p_rate : float; p_saturated : bool }.
Definition find_plateau (window : Z) (threshold : float) (rows : list (dict value)) : res plateau :=
  let tail := tail_of window rows in
  let novel := Z.of_nat (length (List.filter novel_case tail)) in
  counts ← res_map tail_count tail;
  r ← rate novel (Z.of_nat (length tail));
  Ok (Plateau (length tail) novel (fold_right Z.add 0 counts) r ((window <=? Z.of_nat (length rows)) && fleb r threshold)).

(** ** The command *)

Record options := Options { o_top : Z; o_window : Z; o_rate : float; o_weights : weights; o_json : bool }.
Definition check_options (o : options) : res unit :=
  guard_app ((0 <=? o_top o) && (1 <=? o_window o) && fleb fzero (o_rate o) && fleb (o_rate o) (of_Z 1))
    "--top must be >=0, plateau window >=1, and plateau novelty rate in 0..1".

Record report := Report { q_summary : dict value; q_rows : list (dict value); q_ranking : list ranked; q_axes : list axis_row; q_plateau : plateau }.
(** The report on the directory, if there is one. *)
Definition prioritize (y : interpreter) (o : options) (x : option exploration) : res report :=
  _ ← check_options o;
  w ← parse_weights (o_weights o);
  match x with
  | None => Raise (Exn FileNotFoundError "No such file or directory")
  | Some x =>
      '(summary, rows) ← load_cases x;
      freq ← pc_frequency rows;
      ranking ← rank_cases y w freq rows;
      plateau ← find_plateau (o_window o) (o_rate o) rows;
      axes ← analyze_axes rows;
      Ok (Report summary rows ranking axes plateau)
  end.
Definition recommended (o : options) (ranking : list ranked) : list ranked := take (Z.to_nat (o_top o)) ranking.
Definition report_doc (o : options) (path : string) (q : report) : value :=
  let p := q_plateau q in
  obj [("schema", VStr REPORT_SCHEMA); ("exploration", VStr path); ("strategy", dget_n "strategy" (q_summary q));
       ("evaluated_cases", VInt (Z.of_nat (length (q_rows q)))); ("weights", weights_doc (o_weights o));
       ("recommended_cases", VList ((fun k => VInt (k_index k)) <$> recommended o (q_ranking q)));
       ("ranking", VList (ranked_doc <$> q_ranking q)); ("axes", VList (a_doc <$> q_axes q));
       ("plateau", obj [("window", VInt (o_window o)); ("threshold", VFloat (o_rate o)); ("observed_cases", VInt (Z.of_nat (p_observed p)));
                        ("novel_cases", VInt (p_novel p)); ("new_pcs", VInt (p_new_pcs p)); ("novelty_rate", VFloat (fround (p_rate p) 6));
                        ("saturated", VBool (p_saturated p))])].
(** The exit code and the report that was written; an exception of another class is a traceback. *)
Definition main (y : interpreter) (o : options) (x : option exploration) : res (Z * option value) :=
  match prioritize y o x with
  | Ok q => Ok (0, if o_json o then Some (report_doc o (match x with Some x => x_path x | None => "" end) q) else None)
  | Raise e => if handled [AppError; OSError; JSONDecodeError; ValueError] e then Ok (2, None) else Raise e
  end.
