(* ===== verification/PrioritizeProps.v ===== *)
(** * Properties of the ranking of explored cases

    The ranking decides what a campaign triages; its yields partition the cases; its plateau is the one
    adaptive exploration stops at. *)
From Stdlib Require Import Ascii.
From S2P Require Explore Campaign.
From S2P Require Import Prioritize.

(** ** Examples: the exploration of the script's test *)

Definition case_doc (i : Z) (parent : value) (novel : bool) (n : Z) (behavior : string) (pcs : list string) (ok : bool) : string * res value :=
  (zpad 5 i +:+ ".json", Ok (obj [("schema", VStr CASE_SCHEMA); ("index", VInt i); ("parent", parent); ("assignment", obj [("registers.r3", VInt i)]);
    ("novel", VBool novel); ("novelty", obj [("new_pc_count", VInt n); ("behavior_novel", VBool novel)]); ("behavior_sha256", VStr behavior);
    ("trace", obj [("pcs", VList (VStr <$> pcs))]); ("worker", obj [("ok", VBool ok)])])).
Definition explored : exploration := Exploration "/exploration" (Some (Ok (obj [("schema", VStr SUMMARY_SCHEMA); ("strategy", VStr "adaptive")])))
  (Some [case_doc 0 VNone true 1 "a" ["0x10000000"; "0x10000004"] true; case_doc 1 (VInt 0) false 0 "a" ["0x10000000"] false;
         case_doc 2 (VInt 0) true 3 "b" ["0x10000000"; "0x10000008"; "0x1000000c"; "0x10000010"] true; case_doc 3 (VInt 2) false 0 "b" ["0x10000000"] true]).
Definition default_weights : weights := Weights (of_Z 10) (of_Z 25) (of_Z 40) (of_Z 3).
Definition python : interpreter := Interpreter Compensated id.
Definition demo_options : options := Options 3 1 fzero default_weights true.
Definition demo_report : report := match prioritize python demo_options (Some explored) with Ok q => q | Raise _ => Report [] [] [] [] (Plateau 0 0 0 fzero false) end.

Example demo_runs : prioritize python demo_options (Some explored) = Ok demo_report /\
  (fun k => (k_index k, float_repr (k_score k))) <$> q_ranking demo_report = [(2, "64.75"); (1, "40.75"); (0, "38.75"); (3, "0.75")] /\
  k_index <$> recommended demo_options (q_ranking demo_report) = [2; 1; 0] /\ p_saturated (q_plateau demo_report) = true /\
  (fun a => (a_path a, float_repr (a_novelty a), float_repr (a_pcs a))) <$> q_axes demo_report = [("registers.r3", "0.5", "1.0")].
Proof. vm_compute. split_and!; reflexivity. Qed.

(** A program counter that a case writes in two ways counts twice for that one case. *)
Example counted_twice : pc_frequency [[("trace", obj [("pcs", VList [VStr "0xA0"; VStr "0xa0"])])]] = Ok [("0xa0", 2)].
Proof. vm_compute. reflexivity. Qed.
(** [sum] of floats depends on the order in which a set gives its elements. *)
Example order_matters : let freq := [("a", 1); ("b", 2); ("c", 6)] in
  float_repr (rarity (Interpreter Plain id) freq ["a"; "b"; "c"]) = "1.6666666666666667" /\
  float_repr (rarity (Interpreter Plain (@rev string)) freq ["a"; "b"; "c"]) = "1.6666666666666665".
Proof. vm_compute. split; reflexivity. Qed.
(** A novelty that is no object is ignored in the ranking and stops the plateau. *)
Example novelty_traceback : let rows := [[("schema", VStr CASE_SCHEMA); ("novelty", VInt 1)]] in
  (exists k, rank_cases python default_weights [] rows = Ok k) /\
  (exists e, find_plateau 1 fzero rows = Raise e /\ exn_class e = AttributeError).
Proof. split; eexists; vm_compute; [|split]; reflexivity. Qed.
Example unhashable_pc : match main python demo_options (Some (Exploration "/e" (x_summary explored)
    (Some [("0.json", Ok (obj [("schema", VStr CASE_SCHEMA); ("trace", obj [("pcs", VList [obj []])])]))]))) with Raise e => exn_class e | Ok _ => AppError end = TypeError.
Proof. vm_compute. reflexivity. Qed.

(** ** Which cases a campaign triages *)

(** The entry of the ranking for a case. *)
Definition entry_of (row : dict value) (k : ranked) : Prop :=
  (forall i, dget "index" row = Some (VInt i) -> k_index k = i) /\ k_novel k = novel_case row /\ k_failed k = failed_case row.

Lemma rank_case_entry y w freq n row k : rank_case y w freq n row = Ok k -> entry_of row k.
Proof.
  unfold rank_case. intros H. inv_res. split_and!; [|done..]. intros i Hi. unfold dget_or in *. rewrite Hi in *. cbn in *. congruence.
Qed.

(** The cases with their entries, in the order of the exploration. *)
Lemma ranked_pairs y w freq rows ranking : rank_cases y w freq rows = Ok ranking ->
  exists ps, ps.*1 = rows /\ ranking = py_sorted rank_key ps.*2 /\ Forall (fun p => entry_of p.1 p.2) ps.
Proof.
  unfold rank_cases. intros H. apply res_bind_Ok in H as (entries&H&Hr). injection Hr as <-. apply res_map_runs in H.
  assert (Hzip : (zip (seq 0 (length rows)) rows).*2 = rows) by (apply snd_zip; rewrite length_seq; lia).
  revert H. generalize dependent (zip (seq 0 (length rows)) rows). intros zs Hzip H. subst rows.
  exists (zip zs.*2 entries). pose proof (Forall2_length _ _ _ H). rewrite fst_zip, snd_zip by (rewrite length_fmap; lia). split_and!; [done..|].
  clear -H. induction H as [|[n row] k zs entries Hk _ IH]; cbn; constructor; [by eapply rank_case_entry|done].
Qed.

(** What the campaign reads of a ranking. *)
Lemma read_priorities l acc : res_fold Campaign.add_priority acc (ranked_doc <$> l) =
  Ok (fold_left (fun acc kv => aset (fst kv) (snd kv) acc) ((fun k => (k_index k, k_score k)) <$> l) acc).
Proof.
  revert acc. induction l as [|k l IH]; intros acc; [done|]. cbn [fmap list_fmap res_fold fold_left].
  unfold Campaign.add_priority at 1. cbn -[aset]. apply IH.
Qed.

Section campaign.
Context (ps : list (dict value * ranked)) (pr : list (Z * float)).
Context (entries : Forall (fun p => entry_of p.1 p.2) ps).
Context (indexed : Forall (fun p => exists i, dget "index" p.1 = Some (VInt i)) ps).
Context (scored : forall p, p ∈ ps -> aget (k_index p.2) pr = Some (k_score p.2)).

Lemma entry_index p : p ∈ ps -> dget "index" p.1 = Some (VInt (k_index p.2)).
Proof.
  intros Hp. rewrite Forall_forall in entries, indexed. destruct (indexed _ Hp) as [i Hi]. destruct (entries _ Hp) as (He&_). by rewrite (He i Hi).
Qed.
Lemma entry_key p : p ∈ ps -> Campaign.keyed pr p.1 = Ok (rank_key p.2, p.1).
Proof.
  intros Hp. unfold Campaign.keyed, dget_or. rewrite (entry_index p Hp). cbn. unfold Campaign.priority_of. by rewrite (scored p Hp).
Qed.
Lemma entries_keyed l : (forall p, p ∈ l -> p ∈ ps) -> res_map (Campaign.keyed pr) l.*1 = Ok ((fun p => (rank_key p.2, p.1)) <$> l).
Proof.
  induction l as [|p l IH]; intros Hl; [done|]. cbn [fmap list_fmap res_map]. rewrite (entry_key p) by (apply Hl; by left). cbn.
  change (list_fmap _ _ fst l) with l.*1. rewrite IH by (intros; apply Hl; by right). done.
Qed.
End campaign.

(** Whether a campaign takes a case, from its entry. *)
Definition takes_entry (s : Campaign.selection) (k : ranked) : bool :=
  match s with
  | Campaign.SelectAll => true
  | Campaign.SelectNovel => k_novel k
  | Campaign.SelectFailed => k_failed k
  | Campaign.SelectNovelOrFailed => k_novel k || k_failed k
  end.
Lemma takes_entry_ok s row k : entry_of row k -> Campaign.takes s row = takes_entry s k.
Proof. intros (_&Hn&Hf). destruct s; cbn; rewrite ?Hn, ?Hf; done. Qed.

Definition indexed (rows : list (dict value)) : Prop :=
  Forall (fun row => exists i, dget "index" row = Some (VInt i)) rows /\ NoDup (dget_n "index" <$> rows).

Lemma loaded_cases x summary rows : load_cases x = Ok (summary, rows) -> rows <> [].
Proof.
  unfold load_cases. destruct (x_summary x) as [read|], (x_cases x) as [files|]; try done. intros H. apply res_bind_Ok in H as (v&_&H).
  destruct v; try done. inv_res. by destruct rows.
Qed.
Lemma prioritize_ranks y o x q : prioritize y o x = Ok q -> q_rows q <> [] /\ exists w freq, rank_cases y w freq (q_rows q) = Ok (q_ranking q).
Proof.
  unfold prioritize. intros H. apply res_bind_Ok in H as (?&_&H). apply res_bind_Ok in H as (?&_&H). destruct x as [x|]; [|done]. apply res_bind_Ok in H as ([summary rows]&Hload&H). inv_res. cbn.
  split; [by eapply loaded_cases|by eauto].
Qed.

Lemma ranking_lookup ps : NoDup (dget_n "index" <$> ps.*1) -> Forall (fun p => entry_of p.1 p.2) ps ->
  Forall (fun p => exists i, dget "index" p.1 = Some (VInt i)) ps -> NoDup (k_index <$> ps.*2).
Proof.
  intros Hnd He Hi. apply (NoDup_fmap_1 VInt). rewrite <- !list_fmap_compose.
  replace (((fun k => VInt (k_index k)) ∘ snd) <$> ps) with (dget_n "index" <$> ps.*1); [done|].
  rewrite <- list_fmap_compose. apply list_fmap_ext. intros n p Hp%list_elem_of_lookup_2. cbn.
  unfold dget_n, dget_or. by rewrite (entry_index ps He Hi).
Qed.

(** C32: A campaign triages by the ranking: from the report of an exploration whose cases have distinct indices it takes, of the cases its
    selection admits, those that come first in the ranking, which is sorted by score, higher first, and then by index. *)
Theorem campaign_triages_ranking y o x q path :
  prioritize y o x = Ok q -> indexed (q_rows q) -> Forall (fun k => is_nan (k_score k) = false) (q_ranking q) ->
  py_ordered rank_key (q_ranking q) /\
  exists pr, Campaign.priority_by_index (report_doc o path q) = Ok pr /\
  forall s limit, exists sel, Campaign.select_triage true s limit pr (q_rows q) = Ok sel /\ (forall row, row ∈ sel -> row ∈ q_rows q) /\
    dget_n "index" <$> sel = (fun k => VInt (k_index k)) <$> take (Z.to_nat limit) (List.filter (takes_entry s) (q_ranking q)).
Proof.
  intros H [Hi Hnd] Hreal. apply prioritize_ranks in H as (Hne&w&freq&H). apply ranked_pairs in H as (ps&Hrows&Hrank&He).
  rewrite <- Hrows in Hi, Hnd. rewrite Forall_fmap in Hi. rewrite Hrank in Hreal |- *.
  assert (Hdom : forall k, k ∈ ps.*2 -> ord_dom (rank_key k)).
  { intros k Hk. rewrite Forall_forall in Hreal. specialize (Hreal k). rewrite elem_of_py_sorted in Hreal. split; [|done]. cbn. specialize (Hreal Hk).
    by destruct (k_score k). }
  split; [by apply py_sorted_ordered|]. unfold Campaign.priority_by_index, report_doc. cbn -[py_sorted aset Campaign.add_priority]. rewrite Hrank, read_priorities.
  set (items := (fun k => (k_index k, k_score k)) <$> py_sorted rank_key ps.*2). set (pr := fold_left _ items _). exists pr. split; [done|]. intros s limit.
  assert (Hscore : forall p, p ∈ ps -> aget (k_index p.2) pr = Some (k_score p.2)).
  { intros p Hp. apply aget_fold_in.
    - unfold items. rewrite <- list_fmap_compose. cbn. rewrite (py_sorted_perm rank_key). by apply ranking_lookup.
    - apply list_elem_of_fmap. exists p.2. split; [done|]. rewrite elem_of_py_sorted. by apply list_elem_of_fmap_2. }
  set (sorted := List.filter (fun p => takes_entry s p.2) (py_sorted (fun p => rank_key p.2) ps)).
  assert (Hsub : forall p, p ∈ sorted -> p ∈ ps) by (intros p [Hp _]%in_selection; by rewrite elem_of_py_sorted in Hp).
  exists (take (Z.to_nat limit) sorted).*1. split_and!.
  - unfold Campaign.select_triage. destruct pr as [|kv pr'] eqn:Hpr.
    { exfalso. rewrite <- Hrows in Hne. destruct ps as [|p ps']; [done|]. specialize (Hscore p ltac:(by left)). done. }
    rewrite <- Hpr in *. rewrite <- Hrows, lfilter_fmap.
    rewrite (filter_ext_in _ (fun p => takes_entry s p.2)).
    2: { intros p Hp%list_elem_of_In. rewrite Forall_forall in He. by apply takes_entry_ok, He. }
    rewrite (entries_keyed ps pr He Hi Hscore) by (by intros p [Hp _]%in_selection). cbn.
    rewrite py_sorted_fmap, <- list_fmap_compose. cbn. unfold sorted.
    rewrite filter_py_sorted; [by rewrite <- fmap_take|]. intros p Hp. apply Hdom. by apply list_elem_of_fmap_2.
  - intros row (p&->&Hp)%list_elem_of_fmap. rewrite <- Hrows. apply list_elem_of_fmap_2, Hsub. eapply elem_of_take in Hp as (i&Hp&_). by eapply list_elem_of_lookup_2.
  - rewrite py_sorted_fmap, lfilter_fmap, <- fmap_take, <- !list_fmap_compose. apply list_fmap_ext. intros n p Hp. cbn.
    unfold dget_n, dget_or. rewrite (entry_index ps He Hi); [done|]. apply Hsub. apply list_elem_of_lookup_2 in Hp.
    eapply elem_of_take in Hp as (i&Hp&_). by eapply list_elem_of_lookup_2.
Qed.

(** ** The yields of the axes *)

#[local] Arguments canonical : simpl never.

(** What is counted of a case: in a slot, and of the case itself. *)
Definition new_pcs_of (row : dict value) : Z := ok_or 0 (pc_count (sub_dict "novelty" row)).
Definition measures : list ((slot -> Z) * (dict value -> Z)) :=
  [(s_cases, fun _ => 1); (s_novel, fun row => bool_Z (novel_case row)); (s_new_pcs, new_pcs_of); (s_failures, fun row => bool_Z (failed_case row))].
Definition total {A} (f : A -> Z) (l : list A) : Z := fold_right Z.add 0 (f <$> l).

Definition value_at (path : string) (row : dict value) : option value := dget path (sub_dict "assignment" row).
(** The cases that assign a value to an axis, and those that assign a value with a given canonical text. *)
Definition exploring (path : string) (rows : list (dict value)) : list (dict value) :=
  List.filter (fun row => match value_at path row with Some _ => true | None => false end) rows.
Definition having (path key : string) (rows : list (dict value)) : list (dict value) :=
  List.filter (fun row => match value_at path row with Some v => String.eqb (canonical v) key | None => false end) rows.

Lemma total_cons {A} (f : A -> Z) x l : total f (x :: l) = f x + total f l.
Proof. reflexivity. Qed.
Lemma total_app {A} (f : A -> Z) l k : total f (l ++ k) = total f l + total f k.
Proof. induction l as [|x l IH]; [done|]. cbn [app]. rewrite !total_cons. lia. Qed.
Lemma total_perm {A} (f : A -> Z) l k : l ≡ₚ k -> total f l = total f k.
Proof. induction 1; rewrite ?total_cons; lia. Qed.
Lemma total_dset {A} (f : A -> Z) k v (d : dict A) :
  total f (dvalues (dset k v d)) = total f (dvalues d) + f v - match dget k d with Some u => f u | None => 0 end.
Proof.
  unfold dvalues. induction d as [|[k' u] d IH]; cbn [dset dget]; [cbn; lia|].
  destruct (String.eqb k k'); cbn [fmap list_fmap snd] in *; rewrite !total_cons in *; [lia|]. change (list_fmap _ _ snd) with (@fmap list _ (string * A) A snd). lia.
Qed.

(** An observation is an item of the assignment of a case. *)
Abbreviation observation := (dict value * (string * value))%type.
Definition observations (rows : list (dict value)) : list observation := concat ((fun row => pair row <$> sub_dict "assignment" row) <$> rows).
Definition of_path (path : string) (e : observation) : bool := String.eqb path e.2.1.
Definition of_key (path key : string) (e : observation) : bool := String.eqb path e.2.1 && String.eqb (canonical e.2.2) key.
Definition exact (s : slot) (seen : list (dict value)) : Prop := Forall (fun gm => fst gm s = total (snd gm) seen) measures.

Record tallied (seen : list observation) (data : axis_data) : Prop := {
  t_wf : dwf data;
  t_path : forall path, path ∈ dkeys data <-> List.filter (of_path path) seen <> [];
  t_axis : forall path slots, dget path data = Some slots -> dwf slots /\
    Forall (fun gm => total (fst gm) (dvalues slots) = total (snd gm) (List.filter (of_path path) seen).*1) measures;
  t_slot : forall path key, match dget path data ≫= dget key with
                            | Some s => canonical (s_value s) = key /\ exact s (List.filter (of_key path key) seen).*1 /\ List.filter (of_key path key) seen <> []
                            | None => List.filter (of_key path key) seen = []
                            end }.

Definition observe (data : axis_data) (e : observation) : axis_data :=
  count_value (novel_case e.1) (new_pcs_of e.1) (failed_case e.1) data e.2.
Lemma count_slot_exact row s gm : gm ∈ measures -> fst gm (count_slot (novel_case row) (new_pcs_of row) (failed_case row) s) = fst gm s + snd gm row.
Proof. unfold measures. rewrite !elem_of_cons, elem_of_nil. intros [->|[->|[->|[->|[]]]]]; reflexivity. Qed.
Lemma empty_slot v gm : gm ∈ measures -> fst gm (Slot v 0 0 0 0) = 0.
Proof. unfold measures. rewrite !elem_of_cons, elem_of_nil. intros [->|[->|[->|[->|[]]]]]; reflexivity. Qed.

Lemma select_last {A} (P : A -> bool) l x : List.filter P (l ++ [x]) = List.filter P l ++ (if P x then [x] else []).
Proof. rewrite List.filter_app. cbn. by destruct (P x). Qed.
(** The slot of an observation, and of others. *)
Lemma observed_slot data e path key : dget path (observe data e) ≫= dget key =
  if of_key path key e
  then Some (count_slot (novel_case e.1) (new_pcs_of e.1) (failed_case e.1) (default (Slot e.2.2 0 0 0 0) (dget path data ≫= dget key)))
  else dget path data ≫= dget key.
Proof.
  destruct e as (row&path'&v). unfold observe, count_value, of_key. cbn. rewrite dget_dset.
  destruct (String.eqb_spec path path') as [->|]; cbn; [|done]. rewrite dget_dset, (String.eqb_sym key).
  destruct (String.eqb_spec (canonical v) key) as [->|]; [by destruct (dget path' data)|]. by destruct (dget path' data).
Qed.
Lemma observed_axis data e : dget e.2.1 (observe data e) =
  Some (dset (canonical e.2.2)
          (count_slot (novel_case e.1) (new_pcs_of e.1) (failed_case e.1) (default (Slot e.2.2 0 0 0 0) (dget e.2.1 data ≫= dget (canonical e.2.2))))
          (default [] (dget e.2.1 data))).
Proof.
  destruct e as (row&path&v). unfold observe, count_value. cbn. rewrite dget_dset_eq. do 4 f_equal. by destruct (dget path data).
Qed.
Lemma other_axis data e path : path <> e.2.1 -> dget path (observe data e) = dget path data.
Proof. destruct e as (row&path'&v). unfold observe, count_value. cbn. apply dget_dset_ne. Qed.

Lemma observed_keys data e path : path ∈ dkeys (observe data e) <-> path = e.2.1 \/ path ∈ dkeys data.
Proof. destruct e as (row&path'&v). unfold observe, count_value. cbn. apply elem_of_dkeys_dset. Qed.

Lemma exact_count row v s seen : exact (default (Slot v 0 0 0 0) s) seen ->
  exact (count_slot (novel_case row) (new_pcs_of row) (failed_case row) (default (Slot v 0 0 0 0) s)) (seen ++ [row]).
Proof.
  unfold exact. rewrite !Forall_forall. intros H gm Hgm. rewrite count_slot_exact, (H gm Hgm), total_app by done. unfold total at 3. cbn. lia.
Qed.
Lemma exact_none v : exact (Slot v 0 0 0 0) [].
Proof. apply Forall_forall. intros gm Hgm. by rewrite empty_slot. Qed.

Lemma tallied_start : tallied [] [].
Proof. split; [constructor|set_solver|done|done]. Qed.
Lemma tallied_step seen data e : tallied seen data -> tallied (seen ++ [e]) (observe data e).
Proof.
  intros [Hwf Hpath Haxis Hslot]. assert (Hself : of_path e.2.1 e = true) by apply String.eqb_refl. split.
  - destruct e as (row&path&v). by apply dwf_dset.
  - intros path. rewrite select_last, observed_keys, Hpath. destruct (decide (path = e.2.1)) as [->|Hne].
    + rewrite Hself. split; [|by left]. intros _. by destruct (List.filter _ _).
    + replace (of_path path e) with false by (symmetry; by apply String.eqb_neq). rewrite app_nil_r. naive_solver.
  - intros path slots. rewrite select_last. destruct (decide (path = e.2.1)) as [->|Hne].
    + rewrite observed_axis, Hself. intros [= <-]. split; [apply dwf_dset; destruct (dget e.2.1 data) eqn:E; [by apply (Haxis _ _ E)|constructor]|].
      apply Forall_forall. intros gm Hgm. rewrite total_dset, count_slot_exact, fmap_app, total_app by done. unfold total at 3. cbn [fmap list_fmap fold_right].
      destruct (dget e.2.1 data) as [slots|] eqn:E; cbn.
      * destruct (Haxis _ _ E) as [_ Ht]. rewrite Forall_forall in Ht. rewrite <- (Ht gm Hgm). destruct (dget (canonical e.2.2) slots); cbn; rewrite ?empty_slot by done; lia.
      * assert (Hnone : List.filter (of_path e.2.1) seen = []).
        { destruct (List.filter _ _) eqn:Ef; [done|]. exfalso. apply dget_none in E. apply E, Hpath. by rewrite Ef. }
        rewrite Hnone, empty_slot by done. unfold total, dvalues. cbn. lia.
    + rewrite other_axis by done. replace (of_path path e) with false by (symmetry; by apply String.eqb_neq). rewrite app_nil_r. apply Haxis.
  - intros path key. rewrite observed_slot, select_last. specialize (Hslot path key). destruct (of_key path key e) eqn:Hk; [|by rewrite app_nil_r].
    unfold of_key in Hk. apply andb_prop in Hk as [->%String.eqb_eq Hk%String.eqb_eq]. split_and!; [|rewrite fmap_app; apply exact_count|by destruct (List.filter _ _)].
    + destruct (dget _ _ ≫= _) as [s|]; cbn; [apply Hslot|done].
    + destruct (dget _ _ ≫= _) as [s|]; cbn; [apply Hslot|rewrite Hslot; apply exact_none].
Qed.

Lemma tallied_all es seen data : tallied seen data -> tallied (seen ++ es) (fold_left observe es data).
Proof.
  revert seen data. induction es as [|e es IH]; intros seen data H; [by rewrite app_nil_r|]. cbn.
  rewrite (cons_middle e seen es), app_assoc. by apply IH, tallied_step.
Qed.
Lemma fold_observe row l data :
  fold_left (count_value (novel_case row) (new_pcs_of row) (failed_case row)) l data = fold_left observe (pair row <$> l) data.
Proof. revert data. induction l as [|pv l IH]; intros data; [done|]. cbn. apply IH. Qed.
Lemma counted_rows rows data data' : res_fold count_case data rows = Ok data' -> data' = fold_left observe (observations rows) data.
Proof.
  revert data. induction rows as [|row rows IH]; intros data H; cbn in H; [by injection H|].
  apply res_bind_Ok in H as (data1&H1&H). unfold count_case in H1. inv_res. rename H0 into Hn. apply IH in H as ->.
  unfold observations. cbn [fmap list_fmap concat]. rewrite fold_left_app, <- fold_observe. unfold new_pcs_of. by rewrite Hn.
Qed.

(** The observations of a path are those of the cases that assign it. *)
Lemma select_items path (Q : value -> bool) row (d : dict value) : dwf d ->
  (List.filter (fun e : observation => String.eqb path e.2.1 && Q e.2.2) (pair row <$> d)).*1 =
  match dget path d with Some v => if Q v then [row] else [] | None => [] end.
Proof.
  unfold dwf. induction d as [|[k v] d IH]; cbn; [done|]. intros [Hk Hd]%NoDup_cons. destruct (String.eqb_spec path k) as [->|]; cbn; [|by apply IH].
  assert (Hn : dget k d = None) by by apply dget_none. specialize (IH Hd). rewrite Hn in IH. cbn in IH. by destruct (Q v); cbn; rewrite IH.
Qed.
Lemma select_observations path (Q : value -> bool) rows : Forall (fun row => dwf (sub_dict "assignment" row)) rows ->
  (List.filter (fun e : observation => String.eqb path e.2.1 && Q e.2.2) (observations rows)).*1 =
  List.filter (fun row => match value_at path row with Some v => Q v | None => false end) rows.
Proof.
  induction 1 as [|row rows Hw _ IH]; [done|]. unfold observations in *. cbn [fmap list_fmap concat]. rewrite List.filter_app, fmap_app, select_items by done.
  cbn. unfold value_at at 1. destruct (dget path _) as [v|]; [destruct (Q v)|]; cbn; by rewrite IH.
Qed.
Lemma observed_exploring path rows : Forall (fun row => dwf (sub_dict "assignment" row)) rows ->
  (List.filter (of_path path) (observations rows)).*1 = exploring path rows.
Proof.
  intros H. unfold exploring. rewrite <- (select_observations path (fun _ => true) rows H). f_equal. apply List.filter_ext. intros e. by rewrite andb_true_r.
Qed.
Lemma observed_having path key rows : Forall (fun row => dwf (sub_dict "assignment" row)) rows ->
  (List.filter (of_key path key) (observations rows)).*1 = having path key rows.
Proof. intros H. unfold having. by rewrite <- (select_observations path (fun v => String.eqb (canonical v) key) rows H). Qed.
Lemma fmap_nonempty {A B} (f : A -> B) l : f <$> l <> [] <-> l <> [].
Proof. by destruct l. Qed.

Lemma axis_of_shape kv a : axis_of kv = Ok a -> a_path a = fst kv /\ a_slots a = (py_sorted fst (snd kv)).*2.
Proof. unfold axis_of. intros H. inv_res. done. Qed.
(** The slots of an axis are those that were counted, in the order of the canonical texts. *)
Lemma axis_tallied seen data path slots a : tallied seen data -> dget path data = Some slots -> axis_of (path, slots) = Ok a ->
  (fun s => canonical (s_value s)) <$> a_slots a = (py_sorted fst slots).*1 /\ a_slots a ≡ₚ dvalues slots /\ dwf slots /\
  (forall s, s ∈ a_slots a <-> dget path data ≫= dget (canonical (s_value s)) = Some s).
Proof.
  intros [Hwf Hpath Haxis Hslot] E H. apply axis_of_shape in H as [_ Hs]. rewrite Hs. cbn [snd fst]. destruct (Haxis _ _ E) as [Hw _].
  assert (Hkey : forall k s, (k, s) ∈ slots -> canonical (s_value s) = k).
  { intros k s Hin. specialize (Hslot path k). rewrite E in Hslot. cbn in Hslot. rewrite (dget_wf _ _ _ Hw Hin) in Hslot. apply Hslot. }
  split_and!.
  - rewrite <- list_fmap_compose. apply list_fmap_ext. intros n [k s] Hks%list_elem_of_lookup_2. rewrite elem_of_py_sorted in Hks. by apply Hkey.
  - unfold dvalues. by rewrite (py_sorted_perm fst).
  - done.
  - intros s. rewrite E. cbn. split.
    + intros ([k s']&->&Hin)%list_elem_of_fmap. rewrite elem_of_py_sorted in Hin. cbn. rewrite (Hkey _ _ Hin). by apply dget_wf.
    + intros Hg%dget_some_in. apply list_elem_of_fmap. exists (canonical (s_value s), s). split; [done|]. by rewrite elem_of_py_sorted.
Qed.

(** The yields of the axes partition the cases: there is an entry for each axis to which some case assigns a value, with a slot for each
    of its values, told apart by their canonical text; the slot counts exactly the cases with that value, the novel and the failed ones among
    them and their new program counters, and the slots of an axis add up to the cases that assign it a value. *)
Theorem axis_yields_exact rows axes : analyze_axes rows = Ok axes -> Forall (fun row => dwf (sub_dict "assignment" row)) rows ->
  NoDup (a_path <$> axes) /\ (forall path, path ∈ a_path <$> axes <-> exploring path rows <> []) /\
  Forall (fun a =>
    let keys := (fun s => canonical (s_value s)) <$> a_slots a in
    NoDup keys /\ (forall key, key ∈ keys <-> having (a_path a) key rows <> []) /\
    Forall (fun s => exact s (having (a_path a) (canonical (s_value s)) rows)) (a_slots a) /\
    Forall (fun gm => total (fst gm) (a_slots a) = total (snd gm) (exploring (a_path a) rows)) measures) axes.
Proof.
  intros H Hrows. unfold analyze_axes in H. apply res_bind_Ok in H as (data&Hdata&H). apply res_bind_Ok in H as (l&Hl&H). injection H as <-.
  apply counted_rows in Hdata as ->. pose proof (tallied_all (observations rows) [] [] tallied_start) as HT. cbn [app] in HT.
  set (data := fold_left observe _ _) in *. apply res_map_runs in Hl.
  assert (Hpaths : a_path <$> l = (py_sorted fst data).*1).
  { clear -Hl. induction Hl as [|kv a kvs l Ha _ IH]; [done|]. cbn. apply axis_of_shape in Ha as [-> _]. by f_equal. }
  assert (Hperm : a_path <$> py_sorted axis_key l ≡ₚ dkeys data) by (unfold dkeys; by rewrite (py_sorted_perm axis_key), Hpaths, (py_sorted_perm fst)).
  split_and!.
  - rewrite Hperm. apply HT.
  - intros path. rewrite Hperm, (t_path _ _ HT), <- (observed_exploring path rows Hrows). by rewrite fmap_nonempty.
  - apply Forall_forall. intros a Ha. rewrite elem_of_py_sorted in Ha.
    assert (Hkv : exists slots, dget (a_path a) data = Some slots /\ axis_of (a_path a, slots) = Ok a).
    { apply list_elem_of_lookup in Ha as [i Hi]. eapply Forall2_lookup_r in Hl as ([path slots]&Hkv&Hax); [|exact Hi].
      destruct (axis_of_shape _ _ Hax) as [-> _]. exists slots. split; [|done]. apply dget_wf; [apply HT|].
      apply list_elem_of_lookup_2 in Hkv. by rewrite elem_of_py_sorted in Hkv. }
    destruct Hkv as (slots&E&Hax). destruct (axis_tallied _ _ _ _ _ HT E Hax) as (Hkeys&Hslots&Hw&Hin). cbn zeta. rewrite Hkeys.
    split_and!.
    + rewrite (py_sorted_perm fst). exact Hw.
    + intros key. rewrite (py_sorted_perm fst). rewrite <- (observed_having _ key rows Hrows), fmap_nonempty.
      pose proof (t_slot _ _ HT (a_path a) key) as Hs. rewrite E in Hs. cbn in Hs. destruct (dget key slots) as [s|] eqn:Eg.
      * apply dget_some_key in Eg. naive_solver.
      * apply dget_none in Eg. split; [intros ?; by destruct Eg|by rewrite Hs].
    + apply Forall_forall. intros s Hs%Hin. pose proof (t_slot _ _ HT (a_path a) (canonical (s_value s))) as Hslot. rewrite Hs in Hslot.
      rewrite <- (observed_having _ _ rows Hrows). apply Hslot.
    + destruct (t_axis _ _ HT _ _ E) as [_ Ht]. rewrite Forall_forall in Ht. apply Forall_forall. intros gm Hgm.
      rewrite (total_perm (fst gm) _ _ Hslots), (Ht gm Hgm). by rewrite <- (observed_exploring _ rows Hrows).
Qed.

(** The plateau of the report is the one at which an adaptive exploration of the same cases stops. *)
Theorem plateau_as_explored window threshold (s : Explore.search) p :
  find_plateau window threshold (Explore.row_doc <$> Explore.case_rows s) = Ok p ->
  p_saturated p = (window <=? Z.of_nat (length (Explore.case_rows s))) && fleb (Explore.novelty_rate (Explore.tail_rows window s)) threshold.
Proof.
  intros H. unfold find_plateau in H.
  assert (Ht : tail_of window (Explore.row_doc <$> Explore.case_rows s) = Explore.row_doc <$> Explore.tail_rows window s).
  { unfold tail_of, Explore.tail_rows. rewrite length_fmap, fmap_drop. f_equal. lia. }
  rewrite Ht, lfilter_fmap, !length_fmap in H. apply res_bind_Ok in H as (counts&_&H). apply res_bind_Ok in H as (r&Hr&H). injection H as <-. cbn.
  f_equal. f_equal. unfold rate, int_div, Explore.novelty_rate in *. destruct (Explore.tail_rows window s) as [|c l]; [by injection Hr|].
  replace (Z.of_nat (length (c :: l)) =? 0) with false in Hr by done. case_match; [done|]. by injection Hr.
Qed.

(** ** Witnesses *)

Lemma campaign_triages_ranking_witness : exists pr sel, Campaign.priority_by_index (report_doc demo_options "/exploration" demo_report) = Ok pr /\
  Campaign.select_triage true Campaign.SelectNovel 1 pr (q_rows demo_report) = Ok sel /\ dget_n "index" <$> sel = [VInt 2].
Proof.
  destruct (campaign_triages_ranking python demo_options (Some explored) demo_report "/exploration") as (_&pr&Hpr&Hsel).
  - apply demo_runs.
  - split; [vm_compute; repeat constructor; by eexists|].
    apply (NoDup_fmap_1 (fun v => match v with VInt n => n | _ => 0 end)). apply (bool_decide_unpack _). vm_compute. exact I.
  - vm_compute. repeat constructor.
  - destruct (Hsel Campaign.SelectNovel 1) as (sel&H1&_&H2). exists pr, sel. split_and!; [exact Hpr|exact H1|]. rewrite H2. vm_compute. reflexivity.
Defined.

Lemma axis_yields_exact_witness : exists axes, analyze_axes (q_rows demo_report) = Ok axes /\ a_path <$> axes = ["registers.r3"] /\
  Forall (fun a => total s_new_pcs (a_slots a) = total new_pcs_of (exploring (a_path a) (q_rows demo_report))) axes.
Proof.
  exists (q_axes demo_report). assert (H : analyze_axes (q_rows demo_report) = Ok (q_axes demo_report)) by (vm_compute; reflexivity).
  split_and!; [exact H|vm_compute; reflexivity|].
  destruct (axis_yields_exact _ _ H) as (_&_&Hax).
  - apply (bool_decide_unpack (Forall (fun row => NoDup (dkeys (sub_dict "assignment" row))) (q_rows demo_report))). vm_compute. exact I.
  - eapply Forall_impl; [exact Hax|]. intros a (_&_&_&Ht). rewrite Forall_forall in Ht.
    apply (Ht (s_new_pcs, new_pcs_of)). unfold measures. right; right; left.
Defined.
