(* ===== verification/Hypothesize.v ===== *)
(** * Hypotheses about the inputs of a routine ([ppc_lab_hypothesize.py])

    From the cases of an exploration the script infers the role of each axis, proposes an experiment, an
    exploration of that axis alone, and promotes a hypothesis when the cases that support it are still what
    they were. *)
From stdpp Require Import pretty.
From Stdlib Require Import SpecFloat Ascii.
From S2P Require Export Prioritize PyState Sha.

Definition REPORT_SCHEMA : string := "ppc-lab-hypothesis-report-v1".
Definition EXPERIMENT_SCHEMA : string := "ppc-lab-hypothesis-experiment-v1".
Definition PROMOTED_SCHEMA : string := "ppc-lab-hypothesis-v1".
Definition MANIFEST_SCHEMA : string := "ppc-lab-exploration-v1".

Definition newline : string := String "010" EmptyString.
Definition sha256_json (v : value) : string := sha256_hex (canonical v +:+ newline).

(** ** Numbers *)

(** [float(int(v))]; [None] where the conversion raises. *)
Definition float_opt (r : res float) : option float := match r with Ok x => Some x | Raise _ => None end.
Definition parse_number (v : value) : option float :=
  match v with
  | VBool b => Some (of_Z (bool_Z b))
  | VInt n => float_opt (float_of_int n)
  | VFloat x => if is_finite x then Some x else None
  | VStr s => n ← int_of_string0 s; float_opt (float_of_int n)
  | _ => None
  end.
(** [int(x)] of a finite float *)
Definition trunc (x : float) : Z := ok_or 0 (int_of_float x).
(** [min(a, b)] and [max(l)] *)
Definition fmin (a b : float) : float := if fltb b a then b else a.
Definition sorted_ints (l : list Z) : list Z := py_sorted id (remove_dups l).
Definition max_int (l : list Z) : Z := fold_right Z.max (List.hd 0 l) l.
Definition min_int (l : list Z) : Z := fold_right Z.min (List.hd 0 l) l.

(** Pearson's coefficient, 0 for fewer than three pairs. *)
Definition dot (m : summation) (xs ys : list float) : float := py_sum m (zip_with fmul xs ys).
Definition correlation (m : summation) (pairs : list (float * float)) : res float :=
  if (length pairs <? 3)%nat then Ok fzero
  else
    mx ← fmean pairs.*1;
    my ← fmean pairs.*2;
    let dx := (fun x => fsub x mx) <$> pairs.*1 in
    let dy := (fun y => fsub y my) <$> pairs.*2 in
    let denom := fsqrt (fmul (dot m dx dx) (dot m dy dy)) in
    if feqb denom fzero then Ok fzero else fdiv (dot m dx dy) denom.

(** ** The exploration *)

(** A case with the path it was read from and the digest of its fields that do not begin with an underscore. *)
Record case := Case { c_row : dict value; c_source : string; c_sha256 : string }.
Definition case_digest (row : dict value) : string := sha256_json (obj (List.filter (fun kv => negb (str_startswith "_" (fst kv))) row)).
Definition load_case (x : exploration) (f : string * res value) : res case :=
  row ← read_case x f;
  Ok (Case row (case_path x (fst f)) (case_digest row)).
Definition load_exploration (x : option exploration) : res (dict value * list case) :=
  match x with
  | None => Raise (Exn FileNotFoundError "No such file or directory")
  | Some x =>
      match x_summary x, x_cases x with
      | Some read, Some files =>
          v ← read;
          match v with
          | VDict summary =>
              _ ← guard_app (eq_str (dget_n "schema" summary) SUMMARY_SCHEMA) "exploration summary schema mismatch";
              rows ← res_map (load_case x) (case_files files);
              _ ← guard_app (2 <=? length rows)%nat "hypothesis analysis requires at least two exploration cases";
              Ok (summary, rows)
          | _ => app_error "exploration summary schema mismatch"
          end
      | _, _ => app_error ("not a PPC Lab exploration directory: " +:+ x_path x)
      end
  end.
Definition index_of (c : case) : res Z := py_int (dget_or "index" (VInt (-1)) (c_row c)).
Definition behavior_of (c : case) : value := dget_n "behavior_sha256" (c_row c).

(** Files by the text of their path: the resolved path and the document, for those that exist. *)
Abbreviation documents := (string -> option (string * res value)).
Definition resolve_manifest (fs : documents) (summary : dict value) (explicit : option string) : res (option (dict value * string)) :=
  let check (found : string * res value) :=
    v ← snd found;
    match v with
    | VDict doc =>
        _ ← guard_app (eq_str (dget_n "schema" doc) MANIFEST_SCHEMA) ("manifest schema must be " +:+ MANIFEST_SCHEMA);
        Ok (Some (doc, fst found))
    | _ => app_error ("manifest schema must be " +:+ MANIFEST_SCHEMA)
    end in
  match explicit with
  | Some path => match fs path with Some found => check found | None => Raise (Exn FileNotFoundError "No such file or directory") end
  | None => match dget_n "manifest" summary with
            | VStr path => match fs path with Some found => check found | None => Ok None end
            | _ => Ok None
            end
  end.

(** The values of each axis, with the cases that have them. *)
Abbreviation observations := (list (value * case)).
Definition add_observation (c : case) (axes : dict observations) (pv : string * value) : dict observations :=
  dset (fst pv) (default [] (dget (fst pv) axes) ++ [(snd pv, c)]) axes.
Definition axis_values (rows : list case) : dict observations :=
  fold_left (fun axes c => fold_left (add_observation c) (sub_dict "assignment" (c_row c)) axes) rows [].

(** ** Classification *)

Record metrics := Metrics { m_distinct : Z; m_behaviors : Z; m_coverage : Z; m_failures : Z; m_correlation : float; m_numeric : bool }.
Definition effect (m : metrics) : Z := Z.max (m_behaviors m) (m_coverage m).
(** The sets of strings by key, and how many different ones there are. *)
Definition add_to (key : string) (l : list string) (d : dict (list string)) : dict (list string) := dset key (default [] (dget key d) ++ l) d.
Definition partitions (d : dict (list string)) : Z := Z.of_nat (length (remove_dups ((fun l => py_sorted id (remove_dups l)) <$> dvalues d))).
Definition case_pcs (c : case) : res (list string) :=
  items ← viter (dget_or "pcs" (VList []) (sub_dict "trace" (c_row c)));
  Ok (str_lower <$> strings_of items).
Definition instructions_of (c : case) : option float := parse_number (dget_n "instructions" (sub_dict "result" (sub_dict "worker" (c_row c)))).
Definition work_pair (vc : value * case) : option (float * float) :=
  x ← parse_number (fst vc); y ← instructions_of (snd vc); Some (x, y).

Definition root_of (path : string) : string := match str_split1 "."%char path with Some (root, _) => root | None => path end.
Definition is_register_or_state (root : string) : bool := existsb (String.eqb root) ["registers"; "writes_u32"].
(** What the root of the path alone tells. *)
Definition default_role (path : string) : string * string :=
  let root := root_of path in
  if String.eqb root "bindings" then ("import-binding", path +:+ " controls an external import/runtime dependency")
  else if String.eqb root "syscall_returns" then ("environment-result", path +:+ " models an environment/syscall result consumed by the routine")
  else if String.eqb root "writes_f32" then ("floating-state-field", path +:+ " is a floating-point state/coefficient field read by the routine")
  else if String.eqb root "float_registers" then ("floating-argument", path +:+ " is a floating-point call argument")
  else if String.eqb root "writes_u32" then ("state-field", path +:+ " is a 32-bit state field that affects execution")
  else ("scalar-argument", path +:+ " influences routine behavior as a scalar input").
Definition is_flag (x : float) : bool := feqb x fzero || feqb x (of_Z 1).
Definition is_small (x : float) : bool := fleb fzero x && fleb x (of_Z 255).
Definition is_aligned (x : float) : bool := fleb (of_Z 65536) x && (trunc x mod 4 =? 0).
Definition correlated (x : float) : bool := fleb (ratio 3 4) (fabs x).

Definition measure (m : summation) (obs : observations) : res metrics :=
  pcs ← res_map (fun vc => l ← case_pcs (snd vc); Ok (canonical (fst vc), l)) obs;
  let behaviors := fold_left (fun d vc => add_to (canonical (fst vc)) [py_str (behavior_of (snd vc))] d) obs [] in
  let coverage := fold_left (fun d kl => add_to (fst kl) (snd kl) d) pcs [] in
  corr ← correlation m (omap work_pair obs);
  Ok (Metrics (Z.of_nat (length (remove_dups ((fun vc => canonical (fst vc)) <$> obs)))) (partitions behaviors) (partitions coverage)
        (Z.of_nat (length (List.filter (fun vc => failed_case (c_row (snd vc))) obs))) corr
        (forallb (fun vc => match parse_number (fst vc) with Some _ => true | None => false end) obs)).
Definition role_of (path : string) (m : metrics) (nums : list float) : string * string :=
  let root := root_of path in
  let '(role, claim) := default_role path in
  let narrow r := if is_register_or_state root then r else role in
  if m_numeric m && forallb is_flag nums && (2 <=? m_distinct m) then (narrow "boolean-flag", path +:+ " behaves like a boolean enable/flag")
  else if m_numeric m && (m_distinct m <=? 8) && (2 <=? effect m) && forallb is_small nums then (narrow "selector-enum", path +:+ " behaves like a small selector/enumeration")
  else if m_numeric m && correlated (m_correlation m) && (3 <=? m_distinct m) && is_register_or_state root
    then ("count-or-length", path +:+ " behaves like a count/length controlling execution work")
  else if m_numeric m && (2 <=? m_distinct m) && String.eqb root "registers" && forallb is_aligned nums
    then ("pointer-or-address", path +:+ " behaves like an aligned pointer/address argument")
  else (role, claim).
Definition numbers (obs : observations) : list float := omap (fun vc => parse_number (fst vc)) obs.
Definition classify (s : summation) (path : string) (obs : observations) : res (string * string * metrics) :=
  m ← measure s obs;
  let '(role, claim) := role_of path m (numbers obs) in
  Ok (role, claim, Metrics (m_distinct m) (m_behaviors m) (m_coverage m) (m_failures m) (fround (m_correlation m) 6) (m_numeric m)).
Definition metrics_doc (m : metrics) : value :=
  obj [("distinct_values", VInt (m_distinct m)); ("behavior_partitions", VInt (m_behaviors m)); ("coverage_partitions", VInt (m_coverage m));
       ("failures", VInt (m_failures m)); ("instruction_correlation", VFloat (m_correlation m)); ("numeric", VBool (m_numeric m))].

(** ** Values for an experiment *)

(** The values of [l], each once in the sense of [==], in order. *)
Definition add_new (out : list value) (v : value) : list value := if existsb (py_eq v) out then out else out ++ [v].
Definition distinct (l : list value) : list value := fold_left add_new l [].
Definition suggestions (role : string) (raw : list value) : list value :=
  let numeric := forallb (fun v => match parse_number v with Some _ => true | None => false end) raw in
  let whole := trunc <$> omap parse_number raw in
  let ints := sorted_ints whole in
  let named (r : string) := String.eqb role r in
  if named "boolean-flag" then VInt <$> [0; 1; 2; 4294967295]
  else if named "selector-enum" && numeric then
    VInt <$> ints ++ match ints with
                     | [] => []
                     | _ => [max_int ints + 1] ++ (if 0 <? min_int ints then [min_int ints - 1] else [])
                     end
  else if named "count-or-length" && numeric then
    let ints := sorted_ints (Z.max 0 <$> whole) in
    let m := match ints with [] => 4 | _ => max_int ints end in
    VInt <$> [0; 1; 2; Z.max 3 (m / 2); m; m + 1]
  else if named "pointer-or-address" && numeric then
    let base := List.hd 65536 ints in VInt <$> [0; base; base + 4; base + 16]
  else if named "floating-argument" || named "floating-state-field" then
    VFloat <$> [fzero; ratio 1 2; of_Z 1; of_Z (-1); of_Z 2]
  else
    raw ++ (if numeric then match ints with [] => [] | _ => VInt <$> [0; 1; max_int ints + 1] end else []).
Definition suggested_values (role : string) (obs : observations) : list value := take 8 (distinct (suggestions role (distinct obs.*1))).

(** ** Confidence *)

(** Whether a case behaves unlike the first case with a behaviour, or found new program counters. *)
Definition changed (baseline : value) (c : case) : res bool :=
  if negb (py_eq (behavior_of c) baseline) then Ok true
  else n ← tail_count (c_row c); Ok (0 <? n).
(** The supporting and the contradicting cases. *)
Record verdicts := Verdicts { v_baseline : value; v_support : list Z; v_contra : list Z }.
Definition judge (v : verdicts) (vc : value * case) : res verdicts :=
  let c := snd vc in
  let baseline := match v_baseline v with VNone => behavior_of c | b => b end in
  ch ← changed baseline c;
  i ← index_of c;
  Ok (if ch : bool then Verdicts baseline (v_support v ++ [i]) (v_contra v) else Verdicts baseline (v_support v) (v_contra v ++ [i])).
Definition decimal2 (n : Z) : float := ratio n 100.
Definition score (m : metrics) (cases : Z) (supported : bool) : float :=
  let s := fadd (fadd (decimal2 20) (fmin (decimal2 30) (fmul (decimal2 8) (of_Z (m_distinct m)))))
                (fmin (decimal2 30) (fmul (decimal2 12) (of_Z (Z.max 0 (effect m - 1))))) in
  let s := if correlated (m_correlation m) then fadd s (decimal2 15) else s in
  let s := if (0 <? m_failures m) && (m_failures m <? cases) then fadd s (decimal2 5) else s in
  let s := if supported then s else fmin s (decimal2 25) in
  fround (fmin s (decimal2 98)) 3.
Definition confidence (m : metrics) (obs : observations) : res (float * list Z * list Z) :=
  v ← res_fold judge (Verdicts VNone [] []) obs;
  Ok (score m (Z.of_nat (length obs)) (match v_support v with [] => false | _ => true end), v_support v, v_contra v).

(** ** The report *)

Record hypothesis := Candidate {
  h_subject : string; h_role : string; h_claim : string; h_confidence : float; h_metrics : metrics; h_support : list Z; h_contra : list Z;
  h_values : list value; h_behaviors : list string; h_experiment : option (dict value) }.
Definition experiment_of (path : string) (vals : list value) (manifest : dict value) : dict value :=
  dset "axes" (VList [obj [("path", VStr path); ("values", VList vals)]])
    (dset "max_cases" (VInt (Z.min 16 (Z.max 4 (Z.of_nat (length vals))))) (dset "strategy" (VStr "cartesian") manifest)).
Definition supporting_behavior (support : list Z) (vc : value * case) : res (list string) :=
  i ← index_of (snd vc);
  Ok (if existsb (Z.eqb i) support then [py_str (behavior_of (snd vc))] else []).
Definition hypothesize (s : summation) (manifest : option (dict value)) (po : string * observations) : res hypothesis :=
  let '(path, obs) := po in
  '(role, claim, m) ← classify s path obs;
  '(conf, support, contra) ← confidence m obs;
  let vals := suggested_values role obs in
  behaviors ← res_map (supporting_behavior support) obs;
  Ok (Candidate path role claim conf m (sorted_ints support) (sorted_ints contra) vals (py_sorted id (remove_dups (concat behaviors)))
        (experiment_of path vals <$> manifest)).
Definition hypothesis_key (h : hypothesis) : float * Z * string := (float_neg (h_confidence h), - Z.of_nat (length (h_support h)), h_subject h).
(** [f"hyp-{i:03d}"] *)
Definition hyp_id (i : nat) : string := "hyp-" +:+ zpad 3 (Z.of_nat i).
Definition ints (l : list Z) : value := VList (VInt <$> l).
Definition hypothesis_doc (id : string) (h : hypothesis) : value :=
  obj [("id", VStr id); ("subject", VStr (h_subject h)); ("role", VStr (h_role h)); ("claim", VStr (h_claim h)); ("confidence", VFloat (h_confidence h));
       ("metrics", metrics_doc (h_metrics h)); ("supporting_cases", ints (h_support h)); ("contradicting_cases", ints (h_contra h));
       ("suggested_values", VList (h_values h)); ("supporting_behaviors", VList (VStr <$> h_behaviors h));
       ("experiment", match h_experiment h with Some e => obj e | None => VNone end)].

Definition provenance_item (v : value) : list value :=
  match v with
  | VDict item =>
      match dget_n "sha256" item with
      | VStr _ => [obj (omap (fun k => match dget_n k item with VNone => None | x => Some (k, x) end) ["field"; "sha256"; "size"])]
      | _ => []
      end
  | _ => []
  end.
Definition target_provenance (summary : dict value) : res (list value) :=
  items ← viter (dget_or "input_provenance" (VList []) summary);
  Ok (concat (provenance_item <$> items)).
Definition case_evidence (c : case) : res value :=
  i ← index_of c;
  Ok (obj [("index", VInt i); ("sha256", VStr (c_sha256 c)); ("source", VStr (c_source c)); ("schema", VStr CASE_SCHEMA)]).

Record analysis := Analysis { z_hypotheses : list hypothesis; z_cases : list value; z_provenance : list value; z_manifest : option string }.
Definition analyze (s : summation) (fs : documents) (x : option exploration) (manifest_path : option string) (top : Z) : res analysis :=
  '(summary, rows) ← load_exploration x;
  found ← resolve_manifest fs summary manifest_path;
  hs ← res_map (hypothesize s (fst <$> found)) (py_sorted fst (axis_values rows));
  cases ← res_map case_evidence rows;
  provenance ← target_provenance summary;
  let hs := py_sorted hypothesis_key hs in
  Ok (Analysis (if 0 <=? top then take (Z.to_nat top) hs else hs) cases provenance (snd <$> found)).
Definition analysis_doc (path : string) (a : analysis) : dict value :=
  [("schema", VStr REPORT_SCHEMA); ("exploration", VStr path); ("manifest", match z_manifest a with Some m => VStr m | None => VNone end);
   ("input_provenance", VList (z_provenance a)); ("cases", VList (z_cases a));
   ("hypotheses", VList (imap (fun i h => hypothesis_doc (hyp_id (S i)) h) (z_hypotheses a)));
   ("method", obj [("deterministic", VBool true); ("opaque_ai", VBool false);
                   ("note", VStr "Heuristic classification from recorded PPC Lab execution/coverage/behavior evidence.")])].

(** ** Promotion *)

Definition has_id (hid : string) (v : value) : bool := match v with VDict h => py_eq (dget_n "id" h) (VStr hid) | _ => false end.
Definition lookup_hypothesis (report : dict value) (hid : string) : res (dict value) :=
  items ← viter (dget_or "hypotheses" (VList []) report);
  match List.find (has_id hid) items with
  | Some (VDict h) => Ok h
  | _ => app_error ("hypothesis not found: " +:+ hid)
  end.

(** [sorted(set(l))] of numbers or of strings: a [TypeError] on values without a hash and on a mixture. *)
Definition numeric_frac (v : value) : option (Z * Z) :=
  match v with
  | VInt n => Some (n, 1)
  | VBool b => Some (bool_Z b, 1)
  | VFloat (S754_infinity s) => Some (if s then (- 2 ^ 1100) else 2 ^ 1100, 1)
  | VFloat x => Some (float_frac x)
  | _ => None
  end.
Definition value_le (a b : value) : res bool :=
  match a, b with
  | VStr s, VStr t => Ok (py_le s t)
  | _, _ => match numeric_frac a, numeric_frac b with
            | Some (n, d), Some (p, q) => Ok (n * q <=? p * d)
            | _, _ => Raise (Exn TypeError ("'<' not supported between instances of '" +:+ type_name b +:+ "' and '" +:+ type_name a +:+ "'"))
            end
  end.
Fixpoint insert_value (v : value) (l : list value) : res (list value) :=
  match l with
  | [] => Ok [v]
  | w :: l => b ← value_le v w; if b : bool then Ok (v :: w :: l) else r ← insert_value v l; Ok (w :: r)
  end.
Definition sorted_set (l : list value) : res (list value) :=
  s ← res_fold Triage.add_distinct [] l;
  res_fold (fun acc v => insert_value v acc) [] s.

(** The last entry for an index. *)
Definition recorded (acc : list (Z * dict value)) (v : value) : res (list (Z * dict value)) :=
  match v with
  | VDict d => if dmem "index" d then i ← py_int (dget_n "index" d); Ok (aset i d acc) else Ok acc
  | _ => Ok acc
  end.
Definition verify_case (by_index : list (Z * case)) (report_ev : list (Z * dict value)) (idx : value) : res (list value) :=
  i ← py_int idx;
  match aget i by_index, aget i report_ev with
  | Some c, Some expected =>
      _ ← guard_app (eq_str (dget_n "sha256" expected) (c_sha256 c)) ("case " +:+ py_str idx +:+ " changed since hypothesis analysis");
      Ok (if failed_case (c_row c) then []
          else [obj [("schema", VStr CASE_SCHEMA); ("index", idx); ("sha256", VStr (c_sha256 c)); ("behavior_sha256", behavior_of c)]])
  | _, _ => Ok []
  end.
Definition verify_case_evidence (report : dict value) (x : option exploration) (h : dict value) : res (list value) :=
  '(_, rows) ← load_exploration x;
  by_index ← res_fold (fun acc c => i ← index_of c; Ok (aset i c acc)) [] rows;
  cases ← viter (dget_or "cases" (VList []) report);
  report_ev ← res_fold recorded [] cases;
  support ← viter (dget_or "supporting_cases" (VList []) h);
  wanted ← sorted_set support;
  verified ← res_map (verify_case by_index report_ev) wanted;
  Ok (concat verified).

Definition promote (report : dict value) (hid : string) (x : option exploration) (min_conf : float) (min_support : Z) : res (dict value) :=
  h ← lookup_hypothesis report hid;
  conf ← py_float (dget_or "confidence" (VInt 0) h);
  verified ← verify_case_evidence report x h;
  _ ← guard_app (negb (fltb conf min_conf)) ("confidence " +:+ float_fixed 3 conf +:+ " is below promotion threshold " +:+ float_fixed 3 min_conf);
  _ ← guard_app (min_support <=? Z.of_nat (length verified))
        ("only " +:+ pretty (length verified) +:+ " verified supporting executions; need " +:+ pretty min_support);
  contradictions ← vlen (dget_or "contradicting_cases" (VList []) h);
  support ← vlen (dget_or "supporting_cases" (VList []) h);
  share ← rate contradictions (contradictions + support);
  _ ← guard_app (fleb share (ratio 3 4)) "contradicting evidence dominates this hypothesis";
  subject ← vindex "subject" (obj h);
  role ← vindex "role" (obj h);
  claim ← vindex "claim" (obj h);
  Ok [("schema", VStr PROMOTED_SCHEMA); ("id", VStr hid); ("status", VStr "supported"); ("subject", subject); ("role", role); ("claim", claim);
      ("confidence", VFloat conf); ("input_provenance", dget_or "input_provenance" (VList []) report); ("verified_support", VList verified);
      ("contradicting_cases", dget_or "contradicting_cases" (VList []) h); ("metrics", dget_or "metrics" (obj []) h);
      ("suggested_experiment", dget_n "experiment" h); ("source_report_sha256", VStr (sha256_json (obj report)));
      ("promotion_policy", obj [("minimum_confidence", VFloat min_conf); ("minimum_verified_support", VInt min_support)])].

(** ** The commands *)

(** The documents that were written, by path. *)
Abbreviation HM := (M (dict value)).
Definition write_json (path : string) (v : value) : HM unit := modify (dset path v).
Definition read_report (fs : documents) (path : string) : res (dict value) :=
  match fs path with
  | None => Raise (Exn FileNotFoundError "No such file or directory")
  | Some (_, read) =>
      v ← read;
      match v with
      | VDict report => _ ← guard_app (eq_str (dget_n "schema" report) REPORT_SCHEMA) "hypothesis report schema mismatch"; Ok report
      | _ => app_error "hypothesis report schema mismatch"
      end
  end.
(** [out / name]: an absolute name replaces the directory. *)
Definition in_dir (out name : string) : string := if str_startswith "/" name then name else out +:+ "/" +:+ name.
Definition write_experiment (out : string) (v : value) : HM unit :=
  match v with
  | VDict h =>
      match dget_n "experiment" h with
      | VDict e =>
          id ← lift (vindex "id" v);
          claim ← lift (vindex "claim" v);
          conf ← lift (vindex "confidence" v);
          _ ← write_json (in_dir out (py_str id +:+ ".experiment.json"))
                (obj [("schema", VStr EXPERIMENT_SCHEMA); ("hypothesis_id", id); ("claim", claim); ("confidence", conf); ("exploration", obj e)]);
          write_json (in_dir out (py_str id +:+ ".exploration.json")) (obj e)
      | _ => mret tt
      end
  | _ => mret tt
  end.
(** [v[:n]]: a dictionary has no slices. *)
Definition first_items (n : nat) (v : value) : res (list value) :=
  match v with
  | VList l => Ok (take n l)
  | VStr s => Ok (take n (str_chars s))
  | _ => Raise (Exn TypeError ("'" +:+ type_name v +:+ "' object is not subscriptable"))
  end.

Inductive command :=
  | Analyze (manifest : option string) (top : Z) (json_path : option string)
  | Experiments (report_path out : string) (top : Z)
  | Promote (report_path hid : string) (min_conf : float) (min_support : Z) (json_path : string).
Definition run (s : summation) (fs : documents) (x : option exploration) (c : command) : HM unit :=
  match c with
  | Analyze manifest top json_path =>
      _ ← lift (guard_app (0 <=? top) "--top must be >= 0");
      a ← lift (analyze s fs x manifest top);
      match json_path with
      | Some path => write_json path (obj (analysis_doc (match x with Some x => x_path x | None => "" end) a))
      | None => mret tt
      end
  | Experiments report_path out top =>
      report ← lift (read_report fs report_path);
      items ← lift (first_items (Z.to_nat top) (dget_or "hypotheses" (VList []) report));
      m_iter (write_experiment out) items
  | Promote report_path hid min_conf min_support json_path =>
      _ ← lift (guard_app (fleb fzero min_conf && fleb min_conf (of_Z 1) && (1 <=? min_support)) "invalid promotion thresholds");
      report ← lift (read_report fs report_path);
      doc ← lift (promote report hid x min_conf min_support);
      write_json json_path (obj doc)
  end.
(** The exit code; an exception of another class is a traceback. *)
Definition main (s : summation) (fs : documents) (x : option exploration) (c : command) : HM Z :=
  catch [AppError; OSError; JSONDecodeError; ValueError] (_ ← run s fs x c; mret 0) (fun _ => mret 2).
