(* ===== verification/HypothesizeProps.v ===== *)
(** * What hypotheses and their promotion rest on

    A hypothesis is promoted only on cases that are what they were when it was made, an unchanged
    exploration promotes what it should, and the experiment of a hypothesis runs every suggested value. *)
From Stdlib Require Import SpecFloat Ascii.
From S2P Require JsonParse Explore ExploreProps.
From Stdlib Require Import Sorted.
From S2P Require Import Hypothesize.

(** ** Examples: the exploration of the script's test *)

Definition pc_of (i : Z) : string := "0x1000000" +:+ zpad 1 i.
Definition test_manifest : dict value := [("schema", VStr MANIFEST_SCHEMA); ("strategy", VStr "guided"); ("max_cases", VInt 16);
  ("base_job", obj [("schema", VStr "ppc-lab-job-v1"); ("image", obj [("path", VStr "target.bin")]); ("registers", obj [("r3", VInt 0)])]);
  ("axes", VList [obj [("path", VStr "registers.r3"); ("values", VList (VInt <$> [0; 1000; 2000; 3000]))]])].
Definition test_case (behavior : string) (i v : Z) (ok : bool) : string * res value :=
  (zpad 5 i +:+ ".json", Ok (obj [("schema", VStr CASE_SCHEMA); ("index", VInt i); ("parent", VNone); ("assignment", obj [("registers.r3", VInt v)]);
    ("novel", VBool true); ("novelty", obj [("new_pcs", VList [VStr (pc_of i)]); ("new_pc_count", VInt 1); ("behavior_novel", VBool true)]);
    ("behavior_sha256", VStr behavior); ("trace", obj [("pcs", VList [VStr (pc_of i)])]);
    ("worker", obj [("ok", VBool ok); ("result", obj [("instructions", VInt (10 + i * 10))])])])).
Definition test_summary : value := obj [("schema", VStr SUMMARY_SCHEMA); ("manifest", VStr "/manifest.json")].
Definition test_exploration (second : string) : exploration := Exploration "/exploration" (Some (Ok test_summary))
  (Some [test_case "a" 0 0 true; test_case second 1 1000 true; test_case "c" 2 2000 false; test_case "d" 3 3000 true]).
Definition test_files : documents := fun p => if String.eqb p "/manifest.json" then Some (p, Ok (obj test_manifest)) else None.
Definition test_analysis : analysis :=
  match analyze Compensated test_files (Some (test_exploration "b")) None 16 with Ok a => a | Raise _ => Analysis [] [] [] None end.
Definition test_report : dict value := analysis_doc "/exploration" test_analysis.
Definition half : float := ratio 55 100.
Definition promoted (x : exploration) : res (dict value) := promote test_report "hyp-001" (Some x) half 2.

Example test_analyzes : analyze Compensated test_files (Some (test_exploration "b")) None 16 = Ok test_analysis /\
  (fun h => (h_subject h, h_role h, float_repr (h_confidence h), h_support h, h_values h)) <$> z_hypotheses test_analysis =
    [("registers.r3", "count-or-length", "0.98", [0; 1; 2; 3], VInt <$> [0; 1; 2; 1500; 3000; 3001])].
Proof. vm_compute. split; reflexivity. Qed.
(** A failed case is not verified support. *)
Example test_promotes : match promoted (test_exploration "b") with
  | Ok d => match dget_n "verified_support" d with VList l => (fun v => match v with VDict e => dget_n "index" e | _ => VNone end) <$> l | _ => [] end
  | Raise _ => [] end = VInt <$> [0; 1; 3].
Proof. vm_compute. reflexivity. Qed.
Example tampering_is_noticed : promoted (test_exploration "changed") = app_error "case 1 changed since hypothesis analysis".
Proof. vm_compute. reflexivity. Qed.

(** A supporting case that is gone is passed over. *)
Example deleted_case : match promoted (Exploration "/exploration" (Some (Ok test_summary)) (Some [test_case "a" 0 0 true; test_case "d" 3 3000 true])) with
  | Ok d => match dget_n "verified_support" d with VList l => length l | _ => O end
  | Raise _ => O end = 2%nat.
Proof. vm_compute. reflexivity. Qed.

(** Two values 0 and 1 make a boolean flag, whether or not anything depends on them. *)
Example flag_without_effect :
  let c := fun i v => (VInt v, Case [("index", VInt i); ("behavior_sha256", VStr "same")] "" "") in
  match classify Compensated "registers.r3" [c 0 0; c 1 1] with Ok (role, _, m) => (role, effect m) | Raise _ => ("", 0) end = ("boolean-flag", 1).
Proof. vm_compute. reflexivity. Qed.
(** A confidence that is not a number is below no threshold. *)
Example nan_confidence : match promote [("hypotheses", VList [obj [("id", VStr "h"); ("confidence", VFloat S754_nan); ("subject", VStr "s"); ("role", VStr "r");
    ("claim", VStr "c")]])] "h" (Some (test_exploration "b")) half 0 with Ok _ => true | Raise _ => false end = true.
Proof. vm_compute. reflexivity. Qed.

(** ** Reports *)

Lemma hyp_id_inj i j : hyp_id i = hyp_id j -> i = j.
Proof.
  unfold hyp_id. intros H. assert (Hz : zpad 3 (Z.of_nat i) = zpad 3 (Z.of_nat j)) by (cbn -[zpad] in H; by injection H).
  assert (Hd : forall n : nat, JsonParse.digits_value (zpad 3 (Z.of_nat n)) 0 = N.of_nat n).
  { intros n. unfold zpad. rewrite JsonParse.digits_value_zeros, JsonParse.pretty_value by lia. lia. }
  pose proof (Hd i) as Hi. rewrite Hz, Hd in Hi. lia.
Qed.

Definition fields (v : value) : dict value := match v with VDict d => d | _ => [] end.
Lemma analysis_lookup path a hid h : lookup_hypothesis (analysis_doc path a) hid = Ok h ->
  exists i hy, z_hypotheses a !! i = Some hy /\ hid = hyp_id (S i) /\ h = fields (hypothesis_doc hid hy).
Proof.
  unfold lookup_hypothesis. cbn [analysis_doc dget_or dget String.eqb]. cbn -[hypothesis_doc List.find]. destruct (List.find _ _) as [v|] eqn:E; [|done].
  apply List.find_some in E as [Hin Hid]. apply list_elem_of_In, elem_of_lookup_imap in Hin as (i&hy&->&Hi).
  intros [= <-]. cbn in Hid. apply String.eqb_eq in Hid. exists i, hy. split_and!; [done..|]. by rewrite Hid.
Qed.
Lemma analysis_finds path a i hy : z_hypotheses a !! i = Some hy ->
  lookup_hypothesis (analysis_doc path a) (hyp_id (S i)) = Ok (fields (hypothesis_doc (hyp_id (S i)) hy)).
Proof.
  intros Hi. destruct (lookup_hypothesis (analysis_doc path a) (hyp_id (S i))) as [h|e] eqn:E.
  - apply analysis_lookup in E as (j&hy'&Hj&Hid&->). apply hyp_id_inj in Hid. assert (i = j) by lia. subst j. do 3 f_equal. congruence.
  - exfalso. unfold lookup_hypothesis in E. cbn -[hypothesis_doc List.find] in E. destruct (List.find _ _) as [v|] eqn:Ef.
    + apply List.find_some in Ef as [Hin _]. apply list_elem_of_In, elem_of_lookup_imap in Hin as (j&hy'&->&_). done.
    + apply (List.find_none _ _) with (x := hypothesis_doc (hyp_id (S i)) hy) in Ef.
      * cbn in Ef. by rewrite String.eqb_refl in Ef.
      * apply list_elem_of_In, elem_of_lookup_imap. eauto.
Qed.

Lemma analyze_parts s fs x mp top a : analyze s fs x mp top = Ok a ->
  exists summary rows found hs, load_exploration x = Ok (summary, rows) /\ resolve_manifest fs summary mp = Ok found /\
    Forall2 (fun po h => hypothesize s (fst <$> found) po = Ok h) (py_sorted fst (axis_values rows)) hs /\
    (forall h, h ∈ z_hypotheses a -> h ∈ hs) /\ Forall2 (fun c v => case_evidence c = Ok v) rows (z_cases a).
Proof.
  unfold analyze. intros H. apply res_bind_Ok in H as ([summary rows]&Hload&H). apply res_bind_Ok in H as (found&Hf&H).
  apply res_bind_Ok in H as (hs&Hhs&H). apply res_bind_Ok in H as (cases&Hc&H). apply res_bind_Ok in H as (prov&_&H). injection H as <-.
  exists summary, rows, found, hs. split_and!; [done..|by apply res_map_runs| |by apply res_map_runs]. cbn. intros h Hh.
  rewrite <- (elem_of_py_sorted hypothesis_key). case_match; [|done]. by eapply subseteq_take.
Qed.
Lemma loaded_digest x summary rows c : load_exploration x = Ok (summary, rows) -> c ∈ rows -> c_sha256 c = case_digest (c_row c).
Proof.
  unfold load_exploration. destruct x as [x|]; [|done]. destruct (x_summary x) as [read|], (x_cases x) as [files|]; try done.
  intros H. apply res_bind_Ok in H as (v&_&H). destruct v; try done. apply res_bind_Ok in H as (?&_&H). apply res_bind_Ok in H as (l&Hl&H).
  apply res_bind_Ok in H as (?&_&H). injection H as _ <-. apply res_map_runs in Hl. intros Hc. apply list_elem_of_lookup in Hc as [i Hi]. eapply Forall2_lookup_r in Hl as (f&_&Hf); [|exact Hi].
  unfold load_case in Hf. by inv_res.
Qed.

(** ** Looking up cases by index *)

Lemma aget_fold_elem {V} (l : list (Z * V)) d k v : aget k (fold_left (fun d kv => aset (fst kv) (snd kv) d) l d) = Some v -> (k, v) ∈ l \/ aget k d = Some v.
Proof.
  revert d. induction l as [|[k' v'] l IH]; intros d H; [by right|]. cbn in H. apply IH in H as [H|H]; [left; by right|].
  rewrite aget_aset in H. case_decide; [|by right]. injection H as ->. left. subst. by left.
Qed.
Lemma indexed_cases rows acc m : res_fold (fun acc c => i ← index_of c; Ok (aset i c acc)) acc rows = Ok m ->
  exists ics, ics.*2 = rows /\ Forall (fun ic => index_of ic.2 = Ok ic.1) ics /\ m = fold_left (fun d kv => aset (fst kv) (snd kv) d) ics acc.
Proof.
  revert acc. induction rows as [|c rows IH]; intros acc H; cbn -[aset] in H; [injection H as <-; by exists []|].
  apply res_bind_Ok in H as (acc1&Hc&H). apply res_bind_Ok in Hc as (i&Hi&Hc). injection Hc as <-. apply IH in H as (ics&<-&Hics&->).
  exists ((i, c) :: ics). split_and!; [done|by constructor|done].
Qed.
(** What a report records of a case. *)
Definition evidence_fields (i : Z) (c : case) : dict value :=
  [("index", VInt i); ("sha256", VStr (c_sha256 c)); ("source", VStr (c_source c)); ("schema", VStr CASE_SCHEMA)].
Lemma recorded_cases rows vs acc m : Forall2 (fun c v => case_evidence c = Ok v) rows vs -> res_fold recorded acc vs = Ok m ->
  exists ics, ics.*2 = rows /\ Forall (fun ic => index_of ic.2 = Ok ic.1) ics /\
    m = fold_left (fun d kv => aset (fst kv) (snd kv) d) ((fun ic => (ic.1, evidence_fields ic.1 ic.2)) <$> ics) acc.
Proof.
  intros Hv. revert acc. induction Hv as [|c v rows vs Hc _ IH]; intros acc H; [injection H as <-; by exists []|].
  unfold case_evidence in Hc. apply res_bind_Ok in Hc as (i&Hi&Hc). injection Hc as <-.
  cbn [res_fold] in H. apply res_bind_Ok in H as (acc1&H1&H). cbn -[aset] in H1. injection H1 as <-. apply IH in H as (ics&<-&Hics&->).
  exists ((i, c) :: ics). split_and!; [done|by constructor|done].
Qed.

(** ** The supporting cases in order *)

Lemma insert_last l n : Forall (fun m => m < n) l -> insert_value (VInt n) (VInt <$> l) = Ok (VInt <$> (l ++ [n])).
Proof.
  induction 1 as [|m l Hm _ IH]; [done|]. cbn [fmap list_fmap app insert_value value_le numeric_frac]. rewrite !Z.mul_1_r.
  replace (n <=? m) with false by lia. cbn. change (list_fmap Z value VInt l) with (VInt <$> l). by rewrite IH.
Qed.
Lemma add_distinct_int n l : n ∉ l -> Triage.add_distinct (VInt <$> l) (VInt n) = Ok (VInt <$> (l ++ [n])).
Proof.
  intros Hn. unfold Triage.add_distinct. cbn [is_list is_dict orb]. replace (existsb (py_eq (VInt n)) (VInt <$> l)) with false; [by rewrite fmap_app|].
  symmetry. apply not_true_iff_false. intros (v&Hv&He)%existsb_exists. apply list_elem_of_In, list_elem_of_fmap in Hv as (m&->&Hm). cbn in He.
  apply Z.eqb_eq in He. by subst.
Qed.
Lemma distinct_ints l seen : NoDup (seen ++ l) -> res_fold Triage.add_distinct (VInt <$> seen) (VInt <$> l) = Ok (VInt <$> (seen ++ l)).
Proof.
  revert seen. induction l as [|n l IH]; intros seen H; [by rewrite app_nil_r|]. cbn [fmap list_fmap res_fold].
  rewrite add_distinct_int. 2: { apply NoDup_app in H as (_&H&_). intros Hn. apply (H n Hn). by left. }
  cbn [mbind res_bind]. rewrite (cons_middle n seen l), app_assoc in H |- *. by apply IH.
Qed.
Lemma sorted_set_ints l : StronglySorted Z.lt l -> sorted_set (VInt <$> l) = Ok (VInt <$> l).
Proof.
  intros Hs. unfold sorted_set. change (res_fold Triage.add_distinct []) with (res_fold Triage.add_distinct (VInt <$> [])). rewrite (distinct_ints l []).
  2: { clear -Hs. induction Hs as [|n l _ IH Hn]; constructor; [|done]. intros Hin. rewrite Forall_forall in Hn. specialize (Hn n Hin). lia. }
  cbn. assert (H : forall seen todo, StronglySorted Z.lt (seen ++ todo) ->
    res_fold (fun acc v => insert_value v acc) (VInt <$> seen) (VInt <$> todo) = Ok (VInt <$> (seen ++ todo))).
  { clear. intros seen todo. revert seen. induction todo as [|n todo IH]; intros seen H; [by rewrite app_nil_r|]. cbn [fmap list_fmap res_fold].
    rewrite insert_last. 2: { apply sorting.StronglySorted_app in H as (H&_&_). apply Forall_forall. intros m Hm. apply H; [done|by left]. }
    cbn [mbind res_bind]. rewrite (cons_middle n seen todo), app_assoc in H |- *. by apply IH. }
  apply (H [] l). done.
Qed.

Lemma sorted_ints_lt l : StronglySorted Z.lt (sorted_ints l).
Proof.
  unfold sorted_ints. assert (Ho : py_ordered id (py_sorted id (remove_dups l))) by by apply py_sorted_ordered.
  assert (Hn : NoDup (py_sorted id (remove_dups l))) by (rewrite (py_sorted_perm id); apply NoDup_remove_dups).
  induction Ho as [|n k _ IH Hk]; [constructor|]. apply NoDup_cons in Hn as [Hn Hd]. constructor; [by apply IH|].
  rewrite Forall_forall in Hk |- *. intros m Hm. specialize (Hk m Hm). apply Z.leb_le in Hk. unfold id in Hk. assert (n <> m) by congruence. lia.
Qed.
Lemma lt_sorted_NoDup l : StronglySorted Z.lt l -> NoDup l.
Proof. induction 1 as [|n l _ IH Hn]; constructor; [|done]. intros Hin. rewrite Forall_forall in Hn. specialize (Hn n Hin). lia. Qed.
Lemma hypothesize_support s m po h : hypothesize s m po = Ok h -> StronglySorted Z.lt (h_support h).
Proof. destruct po as [path obs]. unfold hypothesize. intros H. apply res_bind_Ok in H as ([[role claim] me]&_&H). apply res_bind_Ok in H as ([[conf su] co]&_&H). inv_res. apply sorted_ints_lt. Qed.

(** ** Verified support *)

Definition support_doc (ic : Z * case) : value :=
  obj [("schema", VStr CASE_SCHEMA); ("index", VInt ic.1); ("sha256", VStr (c_sha256 ic.2)); ("behavior_sha256", behavior_of ic.2)].
(** The case of an index is there, as it was recorded, and it ran. *)
Definition holds_up (by_index : list (Z * case)) (ev : list (Z * dict value)) (ic : Z * case) : Prop :=
  aget ic.1 by_index = Some ic.2 /\ failed_case (c_row ic.2) = false /\ exists e, aget ic.1 ev = Some e /\ dget_n "sha256" e = VStr (c_sha256 ic.2).

Lemma verified_cases by_index ev l vs : NoDup l -> res_map (verify_case by_index ev) (VInt <$> l) = Ok vs ->
  exists verified, concat vs = support_doc <$> verified /\ NoDup verified.*1 /\ forall ic, ic ∈ verified <-> ic.1 ∈ l /\ holds_up by_index ev ic.
Proof.
  intros Hl. revert vs. induction Hl as [|i l Hi _ IH]; intros vs H; cbn in H.
  { injection H as <-. exists []. split_and!; [done|constructor|]. intros ic. rewrite !elem_of_nil. tauto. }
  apply res_bind_Ok in H as (v&Hv&H). apply res_bind_Ok in H as (vs'&Hvs&H). injection H as <-. destruct (IH vs' Hvs) as (verified&Hc&Hd&Hin). clear IH.
  assert (Hskip : (forall c, ~ holds_up by_index ev (i, c)) -> v = [] ->
    exists verified, concat (v :: vs') = support_doc <$> verified /\ NoDup verified.*1 /\ forall ic, ic ∈ verified <-> ic.1 ∈ i :: l /\ holds_up by_index ev ic).
  { intros Hno ->. exists verified. split_and!; [done..|]. intros [j c]. rewrite Hin, elem_of_cons. cbn. split; [tauto|]. intros [[->|Hj] Hh]; [|done].
    by destruct (Hno c). }
  unfold verify_case in Hv. cbn in Hv. destruct (aget i by_index) as [c|] eqn:Ec.
  2: { injection Hv as <-. apply Hskip; [|done]. intros c' (H&_). cbn in H. congruence. }
  destruct (aget i ev) as [e|] eqn:Ee.
  2: { injection Hv as <-. apply Hskip; [|done]. intros c' (_&_&e&H&_). cbn in H. congruence. }
  apply res_bind_Ok in Hv as (?&Hg&Hv). apply guard_app_Ok in Hg. apply eq_str_true in Hg. injection Hv as <-.
  destruct (failed_case (c_row c)) eqn:Hf; [apply Hskip; [|done]; intros c' (H1&H2&_); cbn in *; congruence|].
  exists ((i, c) :: verified). cbn. rewrite Hc. split_and!; [done| |].
  - constructor; [|done]. intros ([j c']&->&Hj)%list_elem_of_fmap. apply Hin in Hj as [Hj _]. done.
  - intros [j c']. rewrite elem_of_cons, Hin. cbn. split.
    + intros [[= -> ->]|[Hj Hh]]; [|split; [by right|done]]. split; [by left|]. split_and!; cbn; [done..|by exists e].
    + intros [[->|Hj]%elem_of_cons Hh]; [left|right; done]. destruct Hh as (H&_). cbn in H. congruence.
Qed.

(** Verification of a hypothesis of a report on [rows0] against the cases [rows1]. *)
Lemma verify_parts s fs x0 mp top a path i hy x1 vs : analyze s fs x0 mp top = Ok a -> z_hypotheses a !! i = Some hy ->
  verify_case_evidence (analysis_doc path a) x1 (fields (hypothesis_doc (hyp_id (S i)) hy)) = Ok vs ->
  exists summary0 rows0 summary1 rows1 ics0 ics1 verified, load_exploration x0 = Ok (summary0, rows0) /\ load_exploration x1 = Ok (summary1, rows1) /\
    ics0.*2 = rows0 /\ ics1.*2 = rows1 /\ Forall (fun ic => index_of ic.2 = Ok ic.1) (ics0 ++ ics1) /\
    vs = support_doc <$> verified /\ NoDup verified.*1 /\
    forall ic, ic ∈ verified <-> ic.1 ∈ h_support hy /\
      holds_up (fold_left (fun d kv => aset (fst kv) (snd kv) d) ics1 [])
               (fold_left (fun d kv => aset (fst kv) (snd kv) d) ((fun ic => (ic.1, evidence_fields ic.1 ic.2)) <$> ics0) []) ic.
Proof.
  intros Ha Hi H. apply analyze_parts in Ha as (summary0&rows0&found&hs&Hload&_&Hhs&Hsub&Hcases).
  assert (Hs : StronglySorted Z.lt (h_support hy)).
  { assert (Hin : hy ∈ hs) by (apply Hsub; by eapply list_elem_of_lookup_2). apply list_elem_of_lookup in Hin as [j Hj].
    eapply Forall2_lookup_r in Hhs as (po&_&Hpo); [|exact Hj]. by eapply hypothesize_support. }
  unfold verify_case_evidence in H. apply res_bind_Ok in H as ([summary1 rows1]&Hload1&H). apply res_bind_Ok in H as (m1&Hm1&H).
  apply indexed_cases in Hm1 as (ics1&Hrows1&Hics1&->). cbn [analysis_doc dget_or dget] in H. cbn -[aset recorded sorted_set hypothesis_doc] in H.
  apply res_bind_Ok in H as (m0&Hm0&H). apply (recorded_cases _ _ _ _ Hcases) in Hm0 as (ics0&Hrows0&Hics0&->).
  cbn -[aset sorted_set] in H. rewrite sorted_set_ints in H by done. cbn [mbind res_bind] in H.
  apply res_bind_Ok in H as (l&Hl&H). injection H as <-. apply verified_cases in Hl as (verified&Hc&Hd&Hin).
  2: by apply lt_sorted_NoDup.
  exists summary0, rows0, summary1, rows1, ics0, ics1, verified. split_and!; try done. by apply Forall_app.
Qed.

(** The share of contradicting cases. *)
Definition contradiction_share (h : hypothesis) : res float :=
  let contra := Z.of_nat (length (h_contra h)) in rate contra (contra + Z.of_nat (length (h_support h))).
Lemma promote_of_analysis path a i hy x min_conf min_support : z_hypotheses a !! i = Some hy ->
  let r := promote (analysis_doc path a) (hyp_id (S i)) x min_conf min_support in
  let verify := verify_case_evidence (analysis_doc path a) x (fields (hypothesis_doc (hyp_id (S i)) hy)) in
  (forall d, r = Ok d -> exists verified, verify = Ok verified /\ dget "verified_support" d = Some (VList verified) /\ fltb (h_confidence hy) min_conf = false /\
     min_support <= Z.of_nat (length verified) /\ exists share, contradiction_share hy = Ok share /\ fleb share (ratio 3 4) = true) /\
  (forall verified share, verify = Ok verified -> fltb (h_confidence hy) min_conf = false -> min_support <= Z.of_nat (length verified) ->
     contradiction_share hy = Ok share -> fleb share (ratio 3 4) = true -> exists d, r = Ok d /\ dget "verified_support" d = Some (VList verified)).
Proof.
  intros Hi r verify. subst r. unfold promote. rewrite (analysis_finds path a i hy Hi). cbn [mbind res_bind]. fold verify.
  change (py_float (dget_or "confidence" (VInt 0) (fields (hypothesis_doc (hyp_id (S i)) hy)))) with (Ok (h_confidence hy)). cbn [mbind res_bind].
  change (vlen (dget_or "contradicting_cases" (VList []) (fields (hypothesis_doc (hyp_id (S i)) hy)))) with (Ok (Z.of_nat (length (VInt <$> h_contra hy)))).
  change (vlen (dget_or "supporting_cases" (VList []) (fields (hypothesis_doc (hyp_id (S i)) hy)))) with (Ok (Z.of_nat (length (VInt <$> h_support hy)))).
  rewrite !length_fmap. cbn [mbind res_bind]. fold (contradiction_share hy). split.
  - intros d H. apply res_bind_Ok in H as (verified&Hv&H). apply res_bind_Ok in H as (?&Hc&H). apply res_bind_Ok in H as (?&Hm&H).
    apply res_bind_Ok in H as (share&Hs&H). apply res_bind_Ok in H as (?&Hsh&H). apply guard_app_Ok in Hc, Hm, Hsh. inv_res. exists verified.
    apply negb_true_iff in Hc. apply Z.leb_le in Hm. split_and!; [done|reflexivity|done|done|by exists share].
  - intros verified share Hv Hc Hm Hs Hsh. rewrite Hv. cbn [mbind res_bind]. rewrite Hc. cbn [negb guard_app]. apply Z.leb_le in Hm. rewrite Hm. cbn [mbind res_bind guard_app].
    rewrite Hs. cbn [mbind res_bind]. rewrite Hsh. cbn -[hypothesis_doc sha256_json analysis_doc]. eexists. split; reflexivity.
Qed.

(** C22: A promotion rests on evidence that did not change: when a hypothesis of the report on one exploration is promoted with the cases of
    another, or of the same one later, its confidence is not below the threshold and there are at least as many verified cases as required,
    each with its own index; each is one of the supporting cases, is there now, ran without failing, and has the digest that the case of that
    index had when the report was made. *)
Theorem promotion_is_backed s fs x0 mp top a path hid x1 min_conf min_support d :
  analyze s fs x0 mp top = Ok a -> promote (analysis_doc path a) hid x1 min_conf min_support = Ok d ->
  exists i h summary0 rows0 summary1 rows1 verified, z_hypotheses a !! i = Some h /\ hid = hyp_id (S i) /\
    load_exploration x0 = Ok (summary0, rows0) /\ load_exploration x1 = Ok (summary1, rows1) /\
    fltb (h_confidence h) min_conf = false /\ min_support <= Z.of_nat (length verified) /\ NoDup verified.*1 /\
    dget "verified_support" d = Some (VList (support_doc <$> verified)) /\
    forall n c, (n, c) ∈ verified -> n ∈ h_support h /\ c ∈ rows1 /\ index_of c = Ok n /\ failed_case (c_row c) = false /\
      exists c0, c0 ∈ rows0 /\ index_of c0 = Ok n /\ case_digest (c_row c0) = case_digest (c_row c).
Proof.
  intros Ha Hp. assert (Hlook : exists i h, z_hypotheses a !! i = Some h /\ hid = hyp_id (S i)).
  { unfold promote in Hp. apply res_bind_Ok in Hp as (h&Hh&_). apply analysis_lookup in Hh as (i&hy&Hi&Hid&_). by exists i, hy. }
  destruct Hlook as (i&h&Hi&->). destruct (promote_of_analysis path a i h x1 min_conf min_support Hi) as [Hback _].
  destruct (Hback d Hp) as (vs&Hv&Hd&Hconf&Hmin&_).
  destruct (verify_parts _ _ _ _ _ _ _ _ _ _ _ Ha Hi Hv) as (summary0&rows0&summary1&rows1&ics0&ics1&verified&Hl0&Hl1&Hr0&Hr1&Hics&->&Hnd&Hin).
  rewrite length_fmap in Hmin. exists i, h, summary0, rows0, summary1, rows1, verified. split_and!; try done.
  intros n c Hnc. apply Hin in Hnc as (Hn&Hby&Hok&e&He&Hsha). cbn in *. rewrite Forall_app, !Forall_forall in Hics. destruct Hics as [Hics0 Hics1].
  apply aget_fold_elem in Hby as [Hby|[=]]. apply aget_fold_elem in He as [He|[=]]. apply list_elem_of_fmap in He as ([n0 c0]&Heq&Hc0). injection Heq as <- ->.
  assert (Hc : c ∈ rows1) by (rewrite <- Hr1; by apply (list_elem_of_fmap_2 snd _ (n, c))).
  assert (Hc0' : c0 ∈ rows0) by (rewrite <- Hr0; by apply (list_elem_of_fmap_2 snd _ (n, c0))).
  split_and!; [done..|by apply (Hics1 (n, c))|done|]. exists c0. split_and!; [done|by apply (Hics0 (n, c0))|].
  rewrite <- (loaded_digest _ _ _ _ Hl0 Hc0'), <- (loaded_digest _ _ _ _ Hl1 Hc). cbn in Hsha. by injection Hsha.
Qed.

(** The cases of an exploration that did not change, verified against its own report. *)
Lemma own_evidence rows vs : Forall2 (fun c v => case_evidence c = Ok v) rows vs ->
  exists ics, ics.*2 = rows /\ Forall (fun ic => index_of ic.2 = Ok ic.1) ics /\
    (forall acc, res_fold (fun acc c => i ← index_of c; Ok (aset i c acc)) acc rows = Ok (fold_left (fun d kv => aset (fst kv) (snd kv) d) ics acc)) /\
    (forall acc, res_fold recorded acc vs = Ok (fold_left (fun d kv => aset (fst kv) (snd kv) d) ((fun ic => (ic.1, evidence_fields ic.1 ic.2)) <$> ics) acc)).
Proof.
  induction 1 as [|c v rows vs Hc _ (ics&<-&Hics&H1&H2)]; [by exists []|]. unfold case_evidence in Hc. apply res_bind_Ok in Hc as (i&Hi&Hc). injection Hc as <-.
  exists ((i, c) :: ics). split_and!; [done|by constructor| |]; intros acc; cbn -[aset]; [rewrite Hi; cbn -[aset]; by rewrite H1|by rewrite H2].
Qed.
Lemma own_verification ics l : NoDup ics.*1 ->
  exists vs, res_map (verify_case (fold_left (fun d kv => aset (fst kv) (snd kv) d) ics [])
    (fold_left (fun d kv => aset (fst kv) (snd kv) d) ((fun ic => (ic.1, evidence_fields ic.1 ic.2)) <$> ics) [])) (VInt <$> l) = Ok vs.
Proof.
  intros Hnd. induction l as [|i l [vs IH]]; [by exists []|]. cbn [fmap list_fmap res_map]. change (list_fmap Z value VInt l) with (VInt <$> l). rewrite IH.
  unfold verify_case at 1. cbn [py_int mbind res_bind]. destruct (aget i (fold_left _ ics [])) as [c|] eqn:Ec; [|by eexists].
  apply aget_fold_elem in Ec as [Ec|[=]]. rewrite (aget_fold_in _ _ i (evidence_fields i c)).
  - cbn -[case_digest py_eq]. unfold eq_str. cbn. rewrite String.eqb_refl. cbn. by eexists.
  - by rewrite <- list_fmap_compose.
  - apply list_elem_of_fmap. by exists (i, c).
Qed.

(** C38: An exploration that did not change promotes exactly what it should: when the cases have distinct indices, promotion of a hypothesis of
    its report succeeds if and only if the confidence is not below the threshold, enough of the supporting cases ran without failing, and
    the contradicting cases are at most three quarters; the verified cases are then all the supporting cases that ran. *)
Theorem unchanged_evidence_promotes s fs x mp top a path i h summary rows min_conf min_support :
  analyze s fs x mp top = Ok a -> load_exploration x = Ok (summary, rows) -> NoDup (index_of <$> rows) -> z_hypotheses a !! i = Some h ->
  exists verified, NoDup verified.*1 /\
    (forall n c, (n, c) ∈ verified <-> n ∈ h_support h /\ c ∈ rows /\ index_of c = Ok n /\ failed_case (c_row c) = false) /\
    let promotion := promote (analysis_doc path a) (hyp_id (S i)) x min_conf min_support in
    ((exists d, promotion = Ok d) <-> fltb (h_confidence h) min_conf = false /\ min_support <= Z.of_nat (length verified) /\
       exists share, contradiction_share h = Ok share /\ fleb share (ratio 3 4) = true) /\
    forall d, promotion = Ok d -> dget "verified_support" d = Some (VList (support_doc <$> verified)).
Proof.
  intros Ha Hload Hdistinct Hi. pose proof (analyze_parts _ _ _ _ _ _ Ha) as (summary0&rows0&found&hs&Hload0&_&Hhs&Hsub&Hcases).
  rewrite Hload in Hload0. injection Hload0 as <- <-. destruct (own_evidence _ _ Hcases) as (ics&Hrows&Hics&Hby&Hev).
  assert (Hnd : NoDup ics.*1).
  { apply (NoDup_fmap_1 (fun n => Ok n)). rewrite <- Hrows in Hdistinct. replace ((fun n => Ok n) <$> ics.*1) with (index_of <$> ics.*2); [done|].
    rewrite <- !list_fmap_compose. apply list_fmap_ext. intros n ic Hic%list_elem_of_lookup_2. rewrite Forall_forall in Hics. by apply Hics. }
  assert (Hs : StronglySorted Z.lt (h_support h)).
  { assert (Hin : h ∈ hs) by (apply Hsub; by eapply list_elem_of_lookup_2). apply list_elem_of_lookup in Hin as [j Hj].
    eapply Forall2_lookup_r in Hhs as (po&_&Hpo); [|exact Hj]. by eapply hypothesize_support. }
  destruct (own_verification ics (h_support h) Hnd) as [l Hl].
  assert (Hv : verify_case_evidence (analysis_doc path a) x (fields (hypothesis_doc (hyp_id (S i)) h)) = Ok (concat l)).
  { unfold verify_case_evidence. rewrite Hload. cbn -[aset recorded sorted_set hypothesis_doc]. rewrite Hby. cbn -[aset recorded sorted_set hypothesis_doc].
    rewrite Hev. cbn -[aset sorted_set]. rewrite sorted_set_ints by done. cbn -[aset]. by rewrite Hl. }
  apply verified_cases in Hl as (verified&Hc&Hd&Hin); [|by apply lt_sorted_NoDup]. rewrite Hc in Hv. exists verified. split; [done|]. split.
  - intros n c. rewrite Hin. unfold holds_up. cbn. rewrite Forall_forall in Hics. split.
    + intros (Hn&Hc1&Hok&_). apply aget_fold_elem in Hc1 as [Hc1|[=]]. split_and!; [done| |by apply (Hics (n, c))|done].
      rewrite <- Hrows. by apply (list_elem_of_fmap_2 snd _ (n, c)).
    + intros (Hn&Hc1&Hidx&Hok). rewrite <- Hrows in Hc1. apply list_elem_of_fmap in Hc1 as ([n' c']&->&Hc1). cbn in *.
      pose proof (Hics _ Hc1) as Hi'. cbn in Hi'. rewrite Hidx in Hi'. injection Hi' as <-. split_and!; [done|by apply aget_fold_in|done|].
      exists (evidence_fields n c'). split; [|done]. apply aget_fold_in; [by rewrite <- list_fmap_compose|]. apply list_elem_of_fmap. by exists (n, c').
  - destruct (promote_of_analysis path a i h x min_conf min_support Hi) as [Hback Hforth]. cbn zeta. rewrite Hv in Hback, Hforth. split; [split|].
    + intros [d Hp]. destruct (Hback d Hp) as (vs&[= <-]&_&Hconf&Hmin&Hshare). by rewrite length_fmap in Hmin.
    + intros (Hconf&Hmin&share&Hs1&Hs2). destruct (Hforth (support_doc <$> verified) share) as (d&Hp&_); [done..|by rewrite length_fmap|done|done|by exists d].
    + intros d Hp. by destruct (Hback d Hp) as (vs&[= <-]&Hd'&_).
Qed.

(** ** Experiments *)

Lemma add_new_nonempty out v : add_new out v <> [].
Proof. unfold add_new. case_bool; [by destruct out|by destruct out]. Qed.
Lemma distinct_nonempty l : l <> [] -> distinct l <> [].
Proof.
  unfold distinct. destruct l as [|v l]; [done|]. intros _. cbn [fold_left]. pose proof (add_new_nonempty [] v) as H. revert H. generalize (add_new [] v).
  induction l as [|w l IH]; intros out H; [done|]. cbn. apply IH, add_new_nonempty.
Qed.
Lemma sorted_ints_nonempty l : l <> [] -> sorted_ints l <> [].
Proof.
  intros Hl H. apply Hl. destruct l as [|n l]; [done|]. exfalso. assert (Hn : n ∈ sorted_ints (n :: l)); [|rewrite H in Hn; by apply not_elem_of_nil in Hn].
  unfold sorted_ints. rewrite elem_of_py_sorted, elem_of_remove_dups. by left.
Qed.
Lemma numeric_nonempty raw : raw <> [] -> forallb (fun v => match parse_number v with Some _ => true | None => false end) raw = true ->
  sorted_ints (trunc <$> omap parse_number raw) <> [].
Proof. intros Hr Hn. apply sorted_ints_nonempty. destruct raw as [|v raw]; [done|]. cbn in *. by destruct (parse_number v). Qed.
Lemma suggestions_nonempty role raw : raw <> [] -> suggestions role raw <> [].
Proof.
  intros Hr. pose proof (numeric_nonempty raw Hr) as Hn. unfold suggestions. destruct (forallb _ raw).
  - specialize (Hn eq_refl). repeat case_match; try done; try by destruct raw.
  - rewrite !andb_false_r. repeat case_match; try done. by rewrite app_nil_r.
Qed.
Lemma suggested_bounds role obs : obs <> [] -> suggested_values role obs <> [] /\ (length (suggested_values role obs) <= 8)%nat.
Proof.
  intros Ho. unfold suggested_values. split; [|rewrite length_take; lia].
  assert (Hd : distinct (suggestions role (distinct obs.*1)) <> []) by (apply distinct_nonempty, suggestions_nonempty, distinct_nonempty; by destruct obs).
  by destruct (distinct _).
Qed.

Lemma dset_forall {A} (P : string * A -> Prop) k v d : P (k, v) -> Forall P d -> Forall P (dset k v d).
Proof. intros Hv. induction 1 as [|[k' u] d Hu Hd IH]; cbn; [by constructor|]. destruct (String.eqb_spec k k') as [<-|]; by constructor. Qed.
Lemma axis_values_observed rows : Forall (fun po : string * observations => po.2 <> []) (axis_values rows).
Proof.
  unfold axis_values. assert (H : forall axes, Forall (fun po : string * observations => po.2 <> []) axes ->
    Forall (fun po : string * observations => po.2 <> []) (fold_left (fun axes c => fold_left (add_observation c) (sub_dict "assignment" (c_row c)) axes) rows axes)).
  { induction rows as [|c rows IH]; intros axes Ha; [done|]. cbn. apply IH. revert axes Ha.
    induction (sub_dict "assignment" (c_row c)) as [|pv l IHl]; intros axes Ha; [done|]. cbn. apply IHl. apply dset_forall; [|done]. cbn. intros Hn. by apply app_eq_nil in Hn as [_ ?]. }
  by apply H.
Qed.

(** An axis that was accepted has a path that is accepted with any values. *)
Lemma validated_path iv ax n vals : Explore.validate_axis iv = Ok ax -> vals <> [] ->
  Explore.validate_axis (n, obj [("path", VStr (Explore.ax_path ax)); ("values", VList vals)]) = Ok (Explore.Axis (Explore.ax_path ax) vals).
Proof.
  unfold Explore.validate_axis. destruct (snd iv); try done. destruct (dget_n "path" d) as [| | | |path| |] eqn:Ep; try done.
  destruct (str_split1 "." path) as [[root rest]|] eqn:Es; [|done]. intros H Hv. apply res_bind_Ok in H as (?&Hg&H).
  destruct (dget_n "values" d) as [| | | | |[|v vs]|]; try done. injection H as <-. cbn -[str_split1 Explore.ALLOWED_AXIS_ROOTS guard_app] in *.
  rewrite Es. destruct vals as [|w vals]; [done|]. apply guard_app_Ok in Hg. by rewrite Hg.
Qed.
Lemma experiment_loads manifest g strategy path vals : Explore.load_manifest (Ok (VDict manifest)) = Ok (g, strategy) ->
  path ∈ Explore.ax_path <$> Explore.g_axes g -> vals <> [] -> (length vals <= 8)%nat ->
  exists g', Explore.load_manifest (Ok (VDict (experiment_of path vals manifest))) = Ok (g', Explore.Cartesian) /\
    Explore.g_job g' = Explore.g_job g /\ Explore.g_axes g' = [Explore.Axis path vals] /\ Z.of_nat (length vals) <= Explore.g_max_cases g'.
Proof.
  intros H Hpath Hv Hlen. unfold Explore.load_manifest in *. cbn [mbind res_bind] in *. unfold experiment_of, dget_n, dget_or in *.
  rewrite !dget_dset_ne with (k := "schema") by done. rewrite !dget_dset_ne with (k := "base_job") by done.
  apply res_bind_Ok in H as (?&Hs&H). rewrite Hs. cbn [mbind res_bind]. destruct (dget "base_job" manifest) as [[| | | | | |base_job]|]; try done.
  apply res_bind_Ok in H as (?&Hj&H). rewrite Hj. cbn [mbind res_bind]. rewrite dget_dset_eq.
  destruct (dget "axes" manifest) as [[| | | | |[|ax rest]|]|]; try done.
  apply res_bind_Ok in H as (axes&Hax&H). apply res_bind_Ok in H as (?&_&H). apply res_bind_Ok in H as (st&_&H).
  apply res_bind_Ok in H as ([[window rt] min_cases]&Had&H). apply res_bind_Ok in H as (mc&_&H). injection H as <- <-. cbn in Hpath.
  apply list_elem_of_fmap in Hpath as (a&->&Ha). apply res_map_runs in Hax. apply list_elem_of_lookup in Ha as [j Hj'].
  eapply Forall2_lookup_r in Hax as (iv&_&Hiv); [|exact Hj'].
  cbn [Explore.ax_path] in *. unfold enumerate. rewrite enumerate_from_cons. cbn [res_map enumerate_from imap].
  rewrite (validated_path iv a 0 vals Hiv Hv). change (enumerate_from (0 + 1) (@nil value)) with (@nil (Z * value)). cbn [res_map mbind res_bind].
  rewrite bool_decide_eq_true_2 by apply NoDup_singleton. cbn [guard_app mbind res_bind].
  unfold Explore.check_strategy, Explore.check_adaptive, Explore.check_max_cases, dget_or in *.
  rewrite !dget_dset_ne with (k := "strategy") (k' := "axes") by done. rewrite dget_dset_ne with (k := "strategy") (k' := "max_cases") by done. rewrite dget_dset_eq.
  rewrite !dget_dset_ne with (k := "adaptive") by done. rewrite dget_dset_ne with (k := "max_cases") by done. rewrite dget_dset_eq.
  cbn [String.eqb Ascii.eqb Bool.eqb mbind res_bind]. cbn -[Z.min Z.max Z.of_nat Explore.load_manifest py_int py_float dget ratio] in Had |- *. rewrite Had. cbn [mbind res_bind].
  replace ((1 <=? Z.min 16 (Z.max 4 (Z.of_nat (length vals)))) && (Z.min 16 (Z.max 4 (Z.of_nat (length vals))) <=? 100000)) with true by lia.
  eexists. split_and!; [reflexivity..|]. cbn [Explore.g_max_cases]. lia.
Qed.

(** The assignments of an exploration of one axis. *)
Lemma one_axis path vals : Explore.assignments [Explore.Axis path vals] [] = (fun v => [(path, v)]) <$> vals.
Proof. cbn. induction vals as [|v vals IH]; [done|]. cbn in *. by rewrite IH. Qed.
Lemma first_places_keys seen l a : a ∈ l -> Explore.assignment_key a ∈ seen \/ Explore.assignment_key a ∈ Explore.assignment_key <$> ExploreProps.first_places seen l.
Proof.
  revert seen. induction l as [|b l IH]; intros seen Ha; [by apply not_elem_of_nil in Ha|]. cbn [ExploreProps.first_places]. apply elem_of_cons in Ha as [->|Ha].
  - case_bool_decide; [by left|]. right. rewrite fmap_cons. left.
  - case_bool_decide as Hb; [by apply IH|]. rewrite fmap_cons, elem_of_cons. destruct (IH (Explore.assignment_key b :: seen) Ha) as [[->|H]%elem_of_cons|H]; auto.
Qed.
Lemma first_places_sub seen l a : a ∈ ExploreProps.first_places seen l -> a ∈ l.
Proof. revert seen. induction l as [|b l IH]; intros seen; cbn; [done|]. case_bool_decide; rewrite !elem_of_cons; naive_solver. Qed.
Lemma first_places_length seen l : (length (ExploreProps.first_places seen l) <= length l)%nat.
Proof. revert seen. induction l as [|b l IH]; intros seen; [done|]. cbn [ExploreProps.first_places length]. case_bool_decide; [specialize (IH seen); lia|]. cbn [length]. specialize (IH (Explore.assignment_key b :: seen)). lia. Qed.


(** ** Witnesses *)

Lemma promotion_is_backed_witness : exists d verified, promoted (test_exploration "b") = Ok d /\ 2 <= Z.of_nat (length verified) /\
  dget "verified_support" d = Some (VList (support_doc <$> verified)) /\ Forall (fun ic => failed_case (c_row ic.2) = false) verified.
Proof.
  assert (H : exists d, promoted (test_exploration "b") = Ok d) by (vm_compute; eexists; reflexivity). destruct H as [d H]. exists d.
  destruct (promotion_is_backed _ _ _ _ _ _ "/exploration" "hyp-001" (Some (test_exploration "b")) half 2 d (proj1 test_analyzes) H)
    as (i&h&summary0&rows0&summary1&rows1&verified&_&_&_&_&_&Hmin&_&Hd&Hv).
  exists verified. split_and!; [exact H|exact Hmin|exact Hd|]. apply Forall_forall. intros [n c] Hc. by destruct (Hv n c Hc) as (_&_&_&Hok&_).
Defined.

Definition test_rows : list case := match load_exploration (Some (test_exploration "b")) with Ok (_, rows) => rows | Raise _ => [] end.
Lemma test_loads : load_exploration (Some (test_exploration "b")) = Ok (match test_summary with VDict d => d | _ => [] end, test_rows).
Proof. vm_compute. reflexivity. Qed.
Definition test_hypothesis : hypothesis := List.hd (Candidate "" "" "" fzero (Metrics 0 0 0 0 fzero false) [] [] [] [] None) (z_hypotheses test_analysis).
Lemma test_hypothesis_is : z_hypotheses test_analysis !! 0%nat = Some test_hypothesis.
Proof. vm_compute. reflexivity. Qed.

Lemma unchanged_evidence_promotes_witness : exists verified,
  (forall n c, (n, c) ∈ verified <-> n ∈ h_support test_hypothesis /\ c ∈ test_rows /\ index_of c = Ok n /\ failed_case (c_row c) = false) /\
  forall d, promote test_report "hyp-001" (Some (test_exploration "b")) half 2 = Ok d -> dget "verified_support" d = Some (VList (support_doc <$> verified)).
Proof.
  destruct (unchanged_evidence_promotes _ _ _ _ _ _ "/exploration" 0 test_hypothesis _ _ half 2 (proj1 test_analyzes) test_loads) as (verified&_&Hv&_&Hd).
  - apply (NoDup_fmap_1 (fun r => match r with Ok n => n | Raise _ => 0 end)). apply (bool_decide_unpack _). vm_compute. exact I.
  - exact test_hypothesis_is.
  - exists verified. split; [exact Hv|exact Hd].
Defined.

