(* ===== verification/Observe.v ===== *)
(** * Observations of a control plane: health and capacity ([ppc_lab_observe.py])

    The script samples the control plane through its tool and the host, keeps the observations as files
    that are never rewritten, and derives a report, a health check against a policy, and an estimate of
    the capacity that clears the backlog. *)
From stdpp Require Import pretty.
From Stdlib Require Import SpecFloat Ascii.
From S2P Require Campaign Target.
From S2P Require Export PyFloat Json Sha PyState.

Abbreviation obj := VDict.

Definition STORE_SCHEMA : string := "ppc-lab-observability-store-v1".
Definition OBSERVATION_SCHEMA : string := "ppc-lab-observation-v1".
Definition REPORT_SCHEMA : string := "ppc-lab-observability-report-v1".
Definition POLICY_SCHEMA : string := "ppc-lab-observability-policy-v1".
Definition CHECK_SCHEMA : string := "ppc-lab-observability-check-v1".
Definition CAPACITY_SCHEMA : string := "ppc-lab-capacity-report-v1".
Definition API_VERSION : Z := 1.

Definition hundredth (n : Z) : value := VFloat (ratio n 100).
Definition DEFAULT_POLICY : dict value :=
  [("schema", VStr POLICY_SCHEMA); ("observability_api", VInt API_VERSION); ("min_samples", VInt 3); ("queue_depth_warn", VInt 4);
   ("queue_depth_critical", VInt 16); ("queue_nonzero_fraction_warn", hundredth 50); ("failure_rate_warn", hundredth 10);
   ("failure_rate_critical", hundredth 25); ("load_per_cpu_warn", hundredth 85); ("load_per_cpu_critical", hundredth 125);
   ("memory_available_ratio_warn", hundredth 15); ("memory_available_ratio_critical", hundredth 8); ("disk_free_ratio_warn", hundredth 15);
   ("disk_free_ratio_critical", hundredth 8); ("backlog_clear_hours_warn", VFloat (of_Z 2)); ("backlog_clear_hours_critical", VFloat (of_Z 8))].

(** ** The host and the control tool *)

(** When the clock is read: as a store is created, as an observation is made, for the window, and for the report. *)
Inductive moment := Creation | Observation | Cutoff | Generation.
Inductive reply := TimedOut | Exited (code : Z) (out err : string) (doc : res value).
(** What the script sees: the clock, the files candidates of the tool resolve to, the tool, and the host.
    [h_usage] gives the total and the free bytes below a directory. *)
Record machine := Machine {
  h_clock : moment -> float; h_python : string; h_which : option string; h_siblings : list string; h_file : string -> option string;
  h_run : list string -> reply; h_resolve : string -> string; h_exists : string -> bool; h_usage : string -> res (Z * Z);
  h_cpus : option Z; h_load : option (float * float * float); h_meminfo : option string }.

Definition resolve_control_tool (m : machine) (v : option string) : res string :=
  let given := match v with Some s => if str_empty s then [] else [s] | None => [] end in
  match omap (h_file m) (given ++ match h_which m with Some p => [p] | None => [] end ++ h_siblings m) with
  | path :: _ => Ok path
  | [] => app_error "cannot find ppc-lab-control; use --control-tool"
  end.
Definition run_json (m : machine) (cmd : list string) : res (dict value) :=
  let line := str_join " " cmd in
  match h_run m cmd with
  | TimedOut => app_error ("command timed out: " +:+ line)
  | Exited code out err doc =>
      if negb (code =? 0) then
        let e := str_strip err in let o := str_strip out in
        app_error (if negb (str_empty e) then e else if negb (str_empty o) then o else "command failed: " +:+ line)
      else match doc with
           | Ok (VDict d) => Ok d
           | Ok _ => app_error "command JSON response must be an object"
           | Raise e => if handled [JSONDecodeError] e then app_error ("command returned invalid JSON: " +:+ line) else Raise e
           end
  end.

(** ** Statistics *)

Definition nth_float (l : list float) (i : Z) : float := nth (Z.to_nat i) l fzero.
(** The percentile [q] in [0..1], between the two nearest values. *)
Definition percentile (values : list float) (q : float) : option float :=
  let vals := py_sorted id values in
  match vals with
  | [] => None
  | [x] => Some x
  | _ =>
      let pos := fmul (of_Z (Z.of_nat (length vals) - 1)) q in
      let lo := ok_or 0 (floor_of_float pos) in
      let hi := ok_or 0 (ceil_of_float pos) in
      Some (if lo =? hi then nth_float vals lo
            else fadd (nth_float vals lo) (fmul (fsub (nth_float vals hi) (nth_float vals lo)) (fsub pos (of_Z lo))))
  end.
(** [max(l)] and [min(l)]: the first extreme. *)
Definition fmaximum (l : list float) : option float := match l with [] => None | x :: l => Some (fold_left (fun best y => if fltb best y then y else best) l x) end.
Definition fminimum (l : list float) : option float := match l with [] => None | x :: l => Some (fold_left (fun best y => if fltb y best then y else best) l x) end.
Definition mean (l : list float) : res (option float) := match l with [] => Ok None | _ => x ← fmean l; Ok (Some x) end.
Definition opt_float (o : option float) : value := match o with Some x => VFloat x | None => VNone end.
Definition p50 : float := ratio 1 2.
Definition p95 : float := ratio 95 100.

(** The duration of a run, when it has one. *)
Definition duration (r : dict value) : res (option float) :=
  let a := dget_n "started_unix" r in
  let b := dget_n "finished_unix" r in
  if is_number a && is_number b && num_le a b then x ← num_sub b a; Ok (Some x) else Ok None.
Definition count_status (counts : dict Z) (r : dict value) : dict Z :=
  let status := py_str (dget_or "status" (VStr "unknown") r) in dset status (default 0 (dget status counts) + 1) counts.
Definition present (l : list (option float)) : list float := omap (fun o => o) l.
Definition durations_of (records : list (dict value)) : res (list float) := l ← res_map duration records; Ok (present l).
Definition runtime_summary (records : list (dict value)) : res (dict value) :=
  durations ← durations_of records;
  let counts := fold_left count_status records [] in
  average ← mean durations;
  Ok [("records", VInt (Z.of_nat (length records))); ("status_counts", obj (py_sorted fst ((fun kv => (fst kv, VInt (snd kv))) <$> counts)));
      ("runtime_seconds", obj [("count", VInt (Z.of_nat (length durations))); ("mean", opt_float average); ("p50", opt_float (percentile durations p50));
                               ("p95", opt_float (percentile durations p95)); ("max", opt_float (fmaximum durations))])].

(** ** The host *)

(** [s.split()], with the word read so far. *)
Fixpoint split_words (s cur : string) : list string :=
  let word := if str_empty cur then [] else [cur] in
  match s with
  | EmptyString => word
  | String c s => if is_space c then word ++ split_words s EmptyString else split_words s (cur +:+ String c EmptyString)
  end.
(** A line [key: number unit] of [/proc/meminfo]; [None] makes the file unreadable. *)
Definition meminfo_line (vals : option (dict Z)) (line : string) : option (dict Z) :=
  vals ← vals;
  match str_split1 ":" line with
  | None => Some vals
  | Some (k, rest) =>
      match split_words rest EmptyString with
      | [] => Some vals
      | n :: more => n ← int_of_string n; Some (dset k (n * match more with u :: _ => if String.eqb (str_lower u) "kb" then 1024 else 1 | [] => 1 end) vals)
      end
  end.
Definition linux_memory (m : machine) : res value :=
  match h_meminfo m with
  | None => Ok VNone
  | Some text =>
      match fold_left meminfo_line (text_lines text "") (Some []) with
      | None => Ok VNone
      | Some vals =>
          match default 0 (dget "MemTotal" vals), dget "MemAvailable" vals with
          | 0, _ | _, None => Ok VNone
          | total, Some avail =>
              r ← true_div avail total;
              Ok (obj [("total_bytes", VInt total); ("available_bytes", VInt avail); ("available_ratio", VFloat r)])
          end
      end
  end.

(** The nearest existing directory above a path, from its parts, last first. *)
Fixpoint probe_path (m : machine) (rparts : list string) : string :=
  let p := "/" +:+ str_join "/" (rev rparts) in
  if h_exists m p then p else match rparts with [] => p | _ :: up => probe_path m up end.
Definition disk_metric (m : machine) (path : string) : res value :=
  let q := h_resolve m path in
  let probe := probe_path m (rev (Shell.path_parts q)) in
  '(total, free) ← h_usage m probe;
  r ← (if total =? 0 then Ok VNone else x ← true_div free total; Ok (VFloat x));
  Ok (obj [("path", VStr q); ("probe_path", VStr probe); ("total_bytes", VInt total); ("free_bytes", VInt free); ("free_ratio", r)]).
Definition host_metrics (m : machine) (paths : list string) : res value :=
  let cpus := match h_cpus m with Some n => if n =? 0 then 1 else n | None => 1 end in
  let load := match h_load m with
              | Some (l1, l5, l15) => obj [("one", VFloat l1); ("five", VFloat l5); ("fifteen", VFloat l15); ("one_per_cpu", VFloat (fdiv_ieee l1 (of_Z cpus)))]
              | None => VNone
              end in
  memory ← linux_memory m;
  disks ← res_map (disk_metric m) paths;
  Ok (obj [("cpu_count", VInt cpus); ("load", load); ("memory", memory); ("disks", VList disks)]).

(** ** Observations *)

(** [datetime.fromtimestamp(ts, utc).isoformat(timespec="seconds")] with a [Z]. *)
Definition utc_iso (ts : float) : string :=
  let '(n, d) := float_frac ts in
  let seconds := round_half_even (n * 1000000) d / 1000000 in
  let '(y, mo, da) := Target.civil (seconds / 86400) in
  let s := seconds mod 86400 in
  zpad 4 y +:+ "-" +:+ zpad 2 mo +:+ "-" +:+ zpad 2 da +:+ "T" +:+ zpad 2 (s / 3600) +:+ ":" +:+ zpad 2 (s / 60 mod 60) +:+ ":" +:+ zpad 2 (s mod 60) +:+ "Z".

Definition expect_schema (doc : dict value) (schema what : string) : res unit :=
  guard_app (eq_str (dget_n "schema" doc) schema) ("unsupported " +:+ what +:+ " schema: " +:+ py_str (dget_n "schema" doc)).
Definition dicts_of (l : list value) : list (dict value) := omap (fun v => match v with VDict d => Some d | _ => None end) l.
(** What is kept of the telemetry and the history of the control plane. *)
Definition control_part (status : dict value) (records : list value) (slots : option Z) : res (dict value) :=
  depth ← py_int (dget_or "queue_depth" (VInt 0) status);
  count ← py_int (dget_or "history_count" (VInt 0) status);
  active ← vlen (dget_or "active" (VList []) status);
  history ← runtime_summary (dicts_of records);
  Ok [("queue_depth", VInt depth); ("history_count", VInt count); ("active_count", VInt active); ("counts", dget_or "counts" (obj []) status);
      ("paused", VBool (py_bool (dget_n "paused" status))); ("draining", VBool (py_bool (dget_n "draining" status)));
      ("global_cancel", VBool (py_bool (dget_n "global_cancel" status))); ("history", obj history);
      ("configured_slots", match slots with Some n => VInt n | None => VNone end)].
Definition collect (m : machine) (control_root tool : string) (slots : option Z) (disk_paths : list string) : res (dict value) :=
  let root := h_resolve m control_root in
  let command name := Campaign.tool_command (h_python m) tool [name; root; "--json"] in
  status ← run_json m (command "status");
  _ ← expect_schema status "ppc-lab-control-telemetry-v1" "control telemetry";
  history ← run_json m (command "history");
  _ ← expect_schema history "ppc-lab-control-history-v1" "control history";
  match dget_or "records" (VList []) history with
  | VList records =>
      control ← control_part status records slots;
      host ← host_metrics m (match disk_paths with [] => [root] | _ => disk_paths end);
      Ok [("schema", VStr OBSERVATION_SCHEMA); ("observability_api", VInt API_VERSION); ("unix", VFloat (h_clock m Observation)); ("utc", VStr (utc_iso (h_clock m Observation)));
          ("control", obj control); ("host", host); ("policy", obj [("target_binaries_copied", VBool false); ("private_inputs_read", VBool false)])]
  | _ => app_error "control history records must be an array"
  end.

(** ** The store *)

(** The directory: [store.json], if it is a file, and the files of [samples] with what reading them gives. *)
Record store := Store { s_meta : option (res value); s_samples : dict (res value) }.
Inductive place := Absent | NotDirectory | Directory (s : store).
Abbreviation OM := (M place).
Definition create_store (t : float) : store :=
  Store (Some (Ok (obj [("schema", VStr STORE_SCHEMA); ("observability_api", VInt API_VERSION); ("created_unix", VFloat t);
                        ("policy", VStr "target-binaries-never-copied")]))) [].
(** A path that was resolved is no symbolic link, so the test for one never fails. *)
Definition ensure_store (m : machine) (root : string) (create : bool) : OM unit :=
  p ← gets id;
  _ ← match p with
      | Absent => _ ← lift (guard_app create ("observability store does not exist: " +:+ root)); modify (fun _ => Directory (create_store (h_clock m Creation)))
      | _ => mret tt
      end;
  p ← gets id;
  match p with
  | Directory s =>
      match s_meta s with
      | None => lift (app_error "observability store is missing store.json")
      | Some read =>
          doc ← lift read;
          schema ← lift (vget "schema" doc);
          lift (guard_app (eq_str schema STORE_SCHEMA) ("unsupported observability store schema: " +:+ py_str schema))
      end
  | _ => lift (app_error ("observability store is not a directory: " +:+ root))
  end.
Definition put_sample (name : string) (doc : dict value) (p : place) : place :=
  match p with
  | Directory s => Directory (Store (s_meta s) (if dmem name (s_samples s) then s_samples s else dset name (Ok (obj doc)) (s_samples s)))
  | p => p
  end.
Definition sample_name (doc : dict value) (unix : float) : res string :=
  n ← int_of_float (fmul unix (of_Z 1000000));
  Ok (zpad 20 n +:+ "-" +:+ prefix_of 16 (sha256_hex (canonical (obj doc))) +:+ ".json").
Definition save_sample (doc : dict value) : OM string :=
  _ ← lift (guard_app (eq_str (dget_n "schema" doc) OBSERVATION_SCHEMA) "cannot store unsupported observation schema");
  unix ← lift (py_float (dget_or "unix" (VFloat fzero) doc));
  name ← lift (sample_name doc unix);
  _ ← modify (put_sample name doc);
  mret name.

(** A sample with its time. *)
Definition read_sample (f : string * res value) : res (float * dict value) :=
  match snd f with
  | Raise e => if handled [OSError; JSONDecodeError] e then app_error ("cannot read observation " +:+ fst f +:+ ": " +:+ exn_msg e) else Raise e
  | Ok v =>
      schema ← vget "schema" v;
      _ ← guard_app (eq_str schema OBSERVATION_SCHEMA) ("unsupported observation schema in " +:+ fst f);
      match v with
      | VDict d => t ← py_float (dget_or "unix" (VFloat fzero) d); Ok (t, d)
      | v => no_attr v "get"
      end
  end.
Definition fmax0 (x : float) : float := if fltb fzero x then x else fzero.
Definition in_window (cutoff : option float) (ts : float * dict value) : bool := match cutoff with None => true | Some c => fleb c (fst ts) end.
Definition load_samples (m : machine) (s : store) (since_hours : option float) : res (list (dict value)) :=
  let cutoff := (fun h => fsub (h_clock m Cutoff) (fmul (fmax0 h) (of_Z 3600))) <$> since_hours in
  l ← res_map read_sample (py_sorted fst (List.filter (fun f => str_endswith ".json" (fst f)) (s_samples s)));
  Ok (py_sorted fst (List.filter (in_window cutoff) l)).*2.

(** ** The report *)

(** [v or {}] *)
Definition or_empty (v : value) : value := if py_bool v then v else obj [].
Definition or_zero (v : value) : value := if py_bool v then v else VInt 0.
(** The finite numbers a getter finds; one that raises finds none. *)
Definition finite_number (r : res value) : res (list float) :=
  match r with
  | Raise _ => Ok []
  | Ok v => if is_number v then x ← py_float v; Ok (if is_finite x then [x] else []) else Ok []
  end.
Definition series (getter : dict value -> res value) (samples : list (dict value)) : res (list float) :=
  l ← res_map (fun s => finite_number (getter s)) samples; Ok (concat l).
Definition control_field (key : string) (s : dict value) : res value := c ← vindex "control" (obj s); vindex key c.
(** [(s.get("host", {}).get(part) or {}).get(key)] *)
Definition host_field (part key : string) (s : dict value) : res value := p ← vget part (dget_or "host" (obj []) s); vget key (or_empty p).
Definition disk_ratio (d : value) : res (list float) :=
  v ← vget "free_ratio" d;
  if is_number v then x ← py_float v; Ok [x] else Ok [].
Definition disk_ratios (s : dict value) : res (list float) :=
  disks ← vget_or "disks" (VList []) (dget_or "host" (obj []) s);
  items ← viter (if py_bool disks then disks else VList []);
  l ← res_map disk_ratio items;
  Ok (concat l).

Record stats := Stats { t_count : nat; t_mean : option float; t_p50 : option float; t_p95 : option float; t_max : option float; t_min : option float }.
Definition stat_summary (l : list float) : res stats :=
  average ← mean l; Ok (Stats (length l) average (percentile l p50) (percentile l p95) (fmaximum l) (fminimum l)).
Definition stats_fields (s : stats) : dict value :=
  [("count", VInt (Z.of_nat (t_count s))); ("mean", opt_float (t_mean s)); ("p50", opt_float (t_p50 s)); ("p95", opt_float (t_p95 s));
   ("max", opt_float (t_max s)); ("min", opt_float (t_min s))].

Definition count_of (key : string) (s : dict value) : res Z :=
  counts ← vget_or "counts" (obj []) (dget_or "control" (obj []) s);
  n ← vget_or key (VInt 0) (or_empty counts);
  py_int (or_zero n).
Definition count_delta (first last : dict value) (key : string) : res Z :=
  a ← count_of key first; b ← count_of key last; Ok (Z.max 0 (b - a)).

(** [0 < v] of a number. *)
Definition positive (v : value) : bool := num_le (VInt 0) v && negb (num_le v (VInt 0)).
Record report := Report {
  r_samples : nat; r_start : value; r_end : value; r_elapsed : float; r_queue : stats; r_nonzero : float; r_latest : Z; r_active : stats; r_active_latest : Z;
  r_complete : Z; r_failed : Z; r_cancelled : Z; r_throughput : option float; r_failure_rate : float; r_load : stats; r_memory : stats; r_disk : stats;
  r_runtime : value; r_slots : option value; r_theoretical : option float; r_clear_hours : option float }.
Definition hours3600 : float := of_Z 3600.
(** [slots * 3600.0 / float(p50)] *)
Definition theoretical_rate (slots : option value) (runtime_p50 : value) : res (option float) :=
  match slots with
  | Some n => if positive runtime_p50 then s ← py_float n; r ← py_float runtime_p50; x ← fdiv (fmul s hours3600) r; Ok (Some x) else Ok None
  | None => Ok None
  end.
Definition positive_rate (o : option float) : option float := match o with Some x => if fltb fzero x then Some x else None | None => None end.
(** The hours in which a rate clears a queue. *)
Definition backlog_hours (queue : Z) (throughput theoretical : option float) : res (option float) :=
  let effective := match positive_rate throughput with Some x => Some x | None => theoretical end in
  match positive_rate effective with
  | Some x => n ← float_of_int queue; h ← fdiv n x; Ok (Some h)
  | None => Ok (if queue =? 0 then Some fzero else None)
  end.
Definition slots_of (v : value) : option value := if is_int v && negb (num_le v (VInt 0)) then Some v else None.

Definition build_report (samples : list (dict value)) : res report :=
  match samples, last samples with
  | first :: _, Some latest =>
      stop ← vindex "unix" (obj latest);
      t1 ← py_float stop;
      start ← vindex "unix" (obj first);
      t0 ← py_float start;
      let elapsed := fmax0 (fsub t1 t0) in
      let hours := fdiv_ieee elapsed hours3600 in
      queues ← series (control_field "queue_depth") samples;
      active ← series (control_field "active_count") samples;
      load ← series (host_field "load" "one_per_cpu") samples;
      memory ← series (host_field "memory" "available_ratio") samples;
      disks ← res_map disk_ratios samples;
      complete ← count_delta first latest "complete";
      failed ← count_delta first latest "failed";
      cancelled ← count_delta first latest "cancelled";
      let terminal := complete + failed + cancelled in
      throughput ← (if fltb fzero hours then c ← float_of_int complete; x ← fdiv c hours; Ok (Some x) else Ok None);
      failure_rate ← rate failed terminal;
      nonzero ← rate (Z.of_nat (length (List.filter (fltb fzero) queues))) (Z.of_nat (length queues));
      let control := dget_or "control" (obj []) latest in
      history ← vget_or "history" (obj []) control;
      runtime ← vget_or "runtime_seconds" (obj []) (or_empty history);
      slots ← vget "configured_slots" control;
      runtime_p50 ← vget "p50" (or_empty runtime);
      theoretical ← theoretical_rate (slots_of slots) runtime_p50;
      depth ← vget_or "queue_depth" (VInt 0) control;
      queue ← py_int depth;
      clear ← backlog_hours queue throughput theoretical;
      queue_stats ← stat_summary queues;
      active_stats ← stat_summary active;
      active_latest ← vget_or "active_count" (VInt 0) control;
      active_latest ← py_int active_latest;
      load_stats ← stat_summary load;
      memory_stats ← stat_summary memory;
      disk_stats ← stat_summary (concat disks);
      Ok (Report (length samples) start stop elapsed queue_stats nonzero queue active_stats active_latest complete failed cancelled throughput failure_rate
            load_stats memory_stats disk_stats (or_empty runtime) (slots_of slots) theoretical clear)
  | _, _ => app_error "no observations in selected window"
  end.
Definition opt_value (o : option value) : value := match o with Some v => v | None => VNone end.
Definition report_doc (generated : float) (r : report) : dict value :=
  [("schema", VStr REPORT_SCHEMA); ("observability_api", VInt API_VERSION); ("generated_unix", VFloat generated);
   ("window", obj [("samples", VInt (Z.of_nat (r_samples r))); ("start_unix", r_start r); ("end_unix", r_end r); ("elapsed_seconds", VFloat (r_elapsed r))]);
   ("queue", obj (stats_fields (r_queue r) ++ [("nonzero_fraction", VFloat (r_nonzero r)); ("latest", VInt (r_latest r))]));
   ("active", obj (stats_fields (r_active r) ++ [("latest", VInt (r_active_latest r))]));
   ("terminal_delta", obj [("complete", VInt (r_complete r)); ("failed", VInt (r_failed r)); ("cancelled", VInt (r_cancelled r));
                           ("total", VInt (r_complete r + r_failed r + r_cancelled r))]);
   ("throughput", obj [("completed_per_hour", opt_float (r_throughput r)); ("failure_rate", VFloat (r_failure_rate r))]);
   ("host", obj [("load_per_cpu", obj (stats_fields (r_load r))); ("memory_available_ratio", obj (stats_fields (r_memory r)));
                 ("disk_free_ratio", obj (stats_fields (r_disk r)))]);
   ("service_time_seconds", r_runtime r);
   ("capacity", obj [("configured_slots", opt_value (r_slots r)); ("theoretical_completed_per_hour_from_p50", opt_float (r_theoretical r));
                     ("estimated_backlog_clear_hours", opt_float (r_clear_hours r))]);
   ("policy", obj [("target_binaries_copied", VBool false)])].

(** ** Health *)

Definition load_policy (read : option (res value)) : res (dict value) :=
  match read with
  | None => Ok DEFAULT_POLICY
  | Some read =>
      v ← read;
      match v with
      | VDict doc =>
          _ ← guard_app (eq_str (dget_n "schema" doc) POLICY_SCHEMA) ("policy schema must be " +:+ POLICY_SCHEMA);
          Ok (fold_left (fun p kv => if String.eqb (fst kv) "schema" then p else dset (fst kv) (snd kv) p) doc DEFAULT_POLICY)
      | _ => app_error ("policy schema must be " +:+ POLICY_SCHEMA)
      end
  end.

Inductive severity := Warning | Critical.
Record alert := Alert { l_severity : severity; l_metric : string; l_value : value; l_threshold : value }.
(** Which way a metric gets worse. *)
Inductive direction := Upper | Lower.
Definition reached (d : direction) (v : value) (threshold : float) : bool :=
  match d with Upper => num_le (VFloat threshold) v | Lower => num_le v (VFloat threshold) end.
Definition threshold_of (policy : dict value) (key : string) : res (value * float) := v ← vindex key (obj policy); x ← py_float v; Ok (v, x).
Definition judge (policy : dict value) (d : direction) (metric : string) (v : option value) (warn crit : string) : res (list alert) :=
  match v with
  | None => Ok []
  | Some v =>
      '(c, x) ← threshold_of policy crit;
      if reached d v x then Ok [Alert Critical metric v c]
      else '(w, y) ← threshold_of policy warn; Ok (if reached d v y then [Alert Warning metric v w] else [])
  end.
(** The metrics that are judged by two thresholds, in order: the first is judged before the share of samples with a queue. *)
Record metric := Metric { m_name : string; m_direction : direction; m_value : option value; m_warn : string; m_crit : string }.
Definition queue_metric (r : report) : metric := Metric "queue.latest" Upper (Some (VInt (r_latest r))) "queue_depth_warn" "queue_depth_critical".
Definition other_metrics (r : report) : list metric :=
  [Metric "throughput.failure_rate" Upper (Some (VFloat (r_failure_rate r))) "failure_rate_warn" "failure_rate_critical";
   Metric "host.load_per_cpu.p95" Upper (VFloat <$> t_p95 (r_load r)) "load_per_cpu_warn" "load_per_cpu_critical";
   Metric "host.memory_available_ratio.min" Lower (VFloat <$> t_min (r_memory r)) "memory_available_ratio_warn" "memory_available_ratio_critical";
   Metric "host.disk_free_ratio.min" Lower (VFloat <$> t_min (r_disk r)) "disk_free_ratio_warn" "disk_free_ratio_critical";
   Metric "capacity.estimated_backlog_clear_hours" Upper (VFloat <$> r_clear_hours r) "backlog_clear_hours_warn" "backlog_clear_hours_critical"].
Definition judge_metric (policy : dict value) (m : metric) : res (list alert) := judge policy (m_direction m) (m_name m) (m_value m) (m_warn m) (m_crit m).
Definition health_alerts (r : report) (policy : dict value) : res (list alert) :=
  n ← py_int (dget_or "min_samples" (VInt 3) policy);
  let few := if Z.of_nat (r_samples r) <? n
             then [Alert Warning "samples" (VInt (Z.of_nat (r_samples r))) (dget_n "min_samples" policy)] else [] in
  queue ← judge_metric policy (queue_metric r);
  '(q, x) ← threshold_of policy "queue_nonzero_fraction_warn";
  let nonzero := if fleb x (r_nonzero r) then [Alert Warning "queue.nonzero_fraction" (VFloat (r_nonzero r)) q] else [] in
  others ← res_map (judge_metric policy) (other_metrics r);
  Ok (few ++ queue ++ nonzero ++ concat others).
Inductive health := Healthy | Degraded | Unhealthy.
Definition is_critical (a : alert) : bool := match l_severity a with Critical => true | Warning => false end.
Definition health_of (alerts : list alert) : health :=
  if existsb is_critical alerts then Unhealthy else match alerts with [] => Healthy | _ => Degraded end.
Definition alert_doc (a : alert) : value :=
  obj ([("severity", VStr (match l_severity a with Warning => "warning" | Critical => "critical" end)); ("metric", VStr (l_metric a)); ("value", l_value a);
        ("threshold", l_threshold a)] ++
       if String.eqb (l_metric a) "samples" then [("message", VStr "insufficient samples for stable trend judgement")] else []).
Definition check_doc (generated : float) (r : report) (alerts : list alert) : dict value :=
  let h := health_of alerts in
  [("schema", VStr CHECK_SCHEMA); ("observability_api", VInt API_VERSION);
   ("status", VStr (match h with Healthy => "ok" | Degraded => "warning" | Unhealthy => "critical" end));
   ("ok", VBool (match h with Unhealthy => false | _ => true end)); ("alerts", VList (alert_doc <$> alerts)); ("report", obj (report_doc generated r))].

(** ** Capacity *)

(** The jobs of a slot in an hour and the slots that clear the queue in time, when the median run time is positive. *)
Definition recommend (queue : Z) (runtime : value) (target : float) : res (option (float * Z)) :=
  if positive runtime then
    r ← py_float runtime;
    per_slot ← fdiv hours3600 r;
    if queue =? 0 then Ok (Some (per_slot, 1))
    else q ← float_of_int queue; x ← fdiv q (fmul per_slot target); n ← ceil_of_float x; Ok (Some (per_slot, Z.max 1 n))
  else Ok None.
Definition capacity_report (r : report) (target : float) : res (dict value) :=
  _ ← guard_app (negb (fleb target fzero)) "--target-clear-hours must be positive";
  runtime ← vget "p50" (r_runtime r);
  slots ← recommend (r_latest r) runtime target;
  let note (b : bool) text := if b then [VStr text] else [] in
  Ok [("schema", VStr CAPACITY_SCHEMA); ("observability_api", VInt API_VERSION); ("target_backlog_clear_hours", VFloat target);
      ("latest_queue_depth", VInt (r_latest r)); ("current_slots", opt_value (r_slots r)); ("median_service_seconds", runtime);
      ("estimated_jobs_per_hour_per_slot", opt_float (fst <$> slots)); ("observed_completed_per_hour", opt_float (r_throughput r));
      ("recommended_slots_for_current_backlog", match slots with Some (_, n) => VInt n | None => VNone end);
      ("notes", VList (note (is_none runtime) "no completed-runtime median available; slot recommendation unavailable" ++
                       note (match r_throughput r with None => true | _ => false end) "observation window is too short to compute observed throughput" ++
                       note (match r_slots r with None => true | _ => false end) "configured slot count was not supplied with observations"))].

(** ** The command *)

Inductive command :=
  | Init
  | Sample (control_root : string) (control_tool : option string) (slots : option Z) (disk_paths : list string)
  | ReportCmd (since_hours : option float)
  | CheckCmd (since_hours : option float) (policy : option (res value))
  | Capacity (since_hours : option float) (target : float).
(** The exit code and the document that is shown. *)
Definition report_of (m : machine) (since_hours : option float) : OM report :=
  p ← gets id;
  match p with
  | Directory s => samples ← lift (load_samples m s since_hours); lift (build_report samples)
  | _ => lift (app_error "no observations in selected window")
  end.
Definition run (m : machine) (root : string) (c : command) : OM (Z * dict value) :=
  _ ← ensure_store m root (match c with Init | Sample _ _ _ _ => true | _ => false end);
  match c with
  | Init => mret (0, [("schema", VStr STORE_SCHEMA); ("store", VStr root); ("status", VStr "initialized")])
  | Sample control_root control_tool slots disk_paths =>
      _ ← lift (guard_app (match slots with Some n => 0 <? n | None => true end) "--slots must be positive");
      tool ← lift (resolve_control_tool m control_tool);
      doc ← lift (collect m control_root tool slots disk_paths);
      name ← save_sample doc;
      mret (0, [("schema", VStr OBSERVATION_SCHEMA); ("sample", VStr (root +:+ "/samples/" +:+ name)); ("observation", obj doc)])
  | ReportCmd since_hours => r ← report_of m since_hours; mret (0, report_doc (h_clock m Generation) r)
  | CheckCmd since_hours policy =>
      r ← report_of m since_hours;
      policy ← lift (load_policy policy);
      alerts ← lift (health_alerts r policy);
      mret ((match health_of alerts with Unhealthy => 1 | _ => 0 end), check_doc (h_clock m Generation) r alerts)
  | Capacity since_hours target => r ← report_of m since_hours; doc ← lift (capacity_report r target); mret (0, doc)
  end.
(** The exit code, with what is shown; an exception of another class is a traceback. *)
Definition main (m : machine) (root : string) (c : command) : OM (Z * option (dict value)) :=
  catch [OSError; ValueError; JSONDecodeError; AppError] ('(code, doc) ← run m root c; mret (code, Some doc)) (fun _ => mret (2, None)).
