(* ===== verification/ObserveProps.v ===== *)
(** * What observations show

    The exit code of a health check is exactly what its thresholds say, an observation of a control plane
    counts its items, and observations that were stored are not rewritten. *)
From Stdlib Require Import SpecFloat Ascii.
From S2P Require Control.
From S2P Require Import Observe.

(** ** Examples: the observations of the script's test *)

Definition at_time (t queue active complete failed : Z) : dict value :=
  [("schema", VStr OBSERVATION_SCHEMA); ("unix", VFloat (of_Z t));
   ("control", obj [("queue_depth", VInt queue); ("active_count", VInt active); ("counts", obj [("complete", VInt complete); ("failed", VInt failed)]);
                    ("history", obj [("runtime_seconds", obj [("p50", VFloat (of_Z 600))])]); ("configured_slots", VInt 2)]);
   ("host", obj [("load", VNone); ("disks", VList [obj [("free_ratio", VFloat (ratio 1 2))]])])].
Definition test_store : store := Store (Some (Ok (obj [("schema", VStr STORE_SCHEMA)])))
  [("1.json", Ok (obj (at_time 1000 8 2 10 0))); ("3.json", Ok (obj (at_time 8200 2 1 18 2))); ("2.json", Ok (obj (at_time 4600 5 2 14 1)))].
Definition quiet_machine : machine :=
  Machine (fun _ => of_Z 10000) "python3" None [] (fun _ => None) (fun _ => TimedOut) (fun p => p) (fun _ => true) (fun _ => Ok (100, 50)) (Some 4) None None.
Definition strict : value := obj [("schema", VStr POLICY_SCHEMA); ("failure_rate_critical", hundredth 15)].
Definition exit_of (c : command) : res Z := match fst (main quiet_machine "/store" c (Directory test_store)) with Ok (code, _) => Ok code | Raise e => Raise e end.

Definition test_report : report := match build_report [at_time 1000 8 2 10 0; at_time 4600 5 2 14 1; at_time 8200 2 1 18 2] with
  | Ok r => r | Raise _ => Report 0 VNone VNone fzero (Stats 0 None None None None None) fzero 0 (Stats 0 None None None None None) 0 0 0 0 None fzero
      (Stats 0 None None None None None) (Stats 0 None None None None None) (Stats 0 None None None None None) VNone None None None end.
Example test_figures : load_samples quiet_machine test_store None = Ok [at_time 1000 8 2 10 0; at_time 4600 5 2 14 1; at_time 8200 2 1 18 2] /\
  (r_latest test_report, t_max (r_queue test_report), r_throughput test_report, float_repr (r_failure_rate test_report), r_clear_hours test_report) =
    (2, Some (of_Z 8), Some (of_Z 4), "0.2", Some (ratio 1 2)).
Proof. vm_compute. split; reflexivity. Qed.
Example test_exits : exit_of (CheckCmd None None) = Ok 0 /\ exit_of (CheckCmd None (Some (Ok strict))) = Ok 1 /\ exit_of (CheckCmd (Some (of_Z 0)) None) = Ok 2.
Proof. vm_compute. split_and!; reflexivity. Qed.
Example test_capacity : match recommend 2 (VFloat (of_Z 600)) (of_Z 1) with Ok (Some (_, n)) => n | _ => 0 end = 1.
Proof. vm_compute. reflexivity. Qed.

(** Runs that a quota blocked are final for the control plane and no terminal of the report. *)
Example quota_blocked_ignored : let s := fun n => [("unix", VInt 0); ("control", obj [("counts", obj [("quota-blocked", VInt n)])])] in
  match build_report [s 0; s 5] with Ok r => r_complete r + r_failed r + r_cancelled r | Raise _ => -1 end = 0.
Proof. vm_compute. reflexivity. Qed.
(** Nothing was completed in two hours, and the backlog is said to clear in four. *)
Example idle_clears : match build_report [at_time 0 48 1 0 0; at_time 7200 48 1 0 0] with Ok r => (r_throughput r, r_clear_hours r) | Raise _ => (None, None) end =
  (Some fzero, Some (of_Z 4)).
Proof. vm_compute. reflexivity. Qed.
(** A threshold that is null is a traceback, whose exit code is that of a critical state. *)
Example null_threshold : match exit_of (CheckCmd None (Some (Ok (obj [("schema", VStr POLICY_SCHEMA); ("queue_depth_critical", VNone)])))) with
  | Raise e => exn_class e | Ok _ => AppError end = TypeError.
Proof. vm_compute. reflexivity. Qed.

(** ** Health *)

(** A metric is at a threshold of the policy. *)
Definition at_threshold (policy : dict value) (m : metric) (key : string) : Prop :=
  exists v c x, m_value m = Some v /\ threshold_of policy key = Ok (c, x) /\ reached (m_direction m) v x = true.
Definition metrics_of (r : report) : list metric := queue_metric r :: other_metrics r.

Lemma judged policy m l : judge_metric policy m = Ok l ->
  (existsb is_critical l = true <-> at_threshold policy m (m_crit m)) /\ (l = [] <-> ~ at_threshold policy m (m_crit m) /\ ~ at_threshold policy m (m_warn m)).
Proof.
  unfold judge_metric, judge, at_threshold. destruct (m_value m) as [v|]; [|intros [= <-]; split; [split; [done|naive_solver]|split; [naive_solver|done]]].
  intros H. apply res_bind_Ok in H as ([c x]&Hc&H). destruct (reached (m_direction m) v x) eqn:Ex.
  - injection H as <-. cbn. split; [split; [intros _; by exists v, c, x|done]|]. split; [done|]. intros [Hn _]. destruct Hn. by exists v, c, x.
  - assert (Hn : ~ exists v0 c0 x0, Some v = Some v0 /\ threshold_of policy (m_crit m) = Ok (c0, x0) /\ reached (m_direction m) v0 x0 = true).
    { intros (v0&c0&x0&[= <-]&Hc0&Hr). rewrite Hc in Hc0. injection Hc0 as <- <-. congruence. }
    apply res_bind_Ok in H as ([w y]&Hw&H). injection H as <-. destruct (reached (m_direction m) v y) eqn:Ey.
    + split; [split; done|]. split; [done|]. intros [_ Hn2]. destruct Hn2. by exists v, w, y.
    + split; [split; done|]. split; [|done]. intros _. split; [done|]. intros (v0&c0&x0&[= <-]&Hc0&Hr). rewrite Hw in Hc0. injection Hc0 as <- <-. congruence.
Qed.
Lemma judged_all policy ms ls : res_map (judge_metric policy) ms = Ok ls ->
  (existsb is_critical (concat ls) = true <-> exists m, m ∈ ms /\ at_threshold policy m (m_crit m)) /\
  (concat ls = [] <-> forall m, m ∈ ms -> ~ at_threshold policy m (m_crit m) /\ ~ at_threshold policy m (m_warn m)).
Proof.
  revert ls. induction ms as [|m ms IH]; intros ls H; cbn in H.
  - injection H as <-. split; [split; [done|]|split; [|done]]; [intros (m&Hm%not_elem_of_nil&_); done|intros _ m Hm%not_elem_of_nil; done].
  - apply res_bind_Ok in H as (l&Hl&H). apply res_bind_Ok in H as (ls'&Hls&H). injection H as <-. destruct (IH ls' Hls) as [I1 I2], (judged _ _ _ Hl) as [J1 J2].
    cbn [concat]. rewrite existsb_app, orb_true_iff, I1, J1, app_nil, I2, J2. setoid_rewrite elem_of_cons. naive_solver.
Qed.

(** Enough samples, and a queue in few of them. *)
Definition calm (r : report) (policy : dict value) : Prop :=
  (exists n, py_int (dget_or "min_samples" (VInt 3) policy) = Ok n /\ n <= Z.of_nat (r_samples r)) /\
  (exists c x, threshold_of policy "queue_nonzero_fraction_warn" = Ok (c, x) /\ fleb x (r_nonzero r) = false).
Lemma alerts_exact r policy alerts : health_alerts r policy = Ok alerts ->
  (health_of alerts = Unhealthy <-> exists m, m ∈ metrics_of r /\ at_threshold policy m (m_crit m)) /\
  (health_of alerts = Healthy <-> calm r policy /\ forall m, m ∈ metrics_of r -> ~ at_threshold policy m (m_crit m) /\ ~ at_threshold policy m (m_warn m)).
Proof.
  unfold health_alerts. intros H. apply res_bind_Ok in H as (n&Hn&H). apply res_bind_Ok in H as (queue&Hq&H). apply res_bind_Ok in H as ([c x]&Hc&H).
  apply res_bind_Ok in H as (others&Ho&H). injection H as <-.
  assert (Hall : res_map (judge_metric policy) (metrics_of r) = Ok (queue :: others)) by (unfold metrics_of; cbn [res_map]; by rewrite Hq, Ho).
  destruct (judged_all _ _ _ Hall) as [H1 H2]. set (few := if _ <? _ then _ else _). set (nonzero := if fleb _ _ then _ else _).
  assert (Hfew : existsb is_critical few = false /\ (few = [] <-> n <= Z.of_nat (r_samples r))).
  { subst few. destruct (Z.ltb_spec (Z.of_nat (r_samples r)) n); (split; [done|]); split; [done|lia|lia|done]. }
  assert (Hnz : existsb is_critical nonzero = false /\ (nonzero = [] <-> fleb x (r_nonzero r) = false)) by (subst nonzero; by destruct (fleb _ _)).
  assert (Hcrit : existsb is_critical (few ++ queue ++ nonzero ++ concat others) = existsb is_critical (concat (queue :: others))).
  { cbn [concat]. rewrite !existsb_app. destruct Hfew as [-> _], Hnz as [-> _]. done. }
  assert (Hnil : few ++ queue ++ nonzero ++ concat others = [] <-> calm r policy /\ concat (queue :: others) = []).
  { cbn [concat]. rewrite !app_nil. unfold calm. destruct Hfew as [_ ->], Hnz as [_ ->]. split.
    - intros (E1&E2&E3&E4). split_and!; [by exists n|by exists c, x|done|done].
    - intros (((n'&Hn'&E1)&(c'&x'&Hc'&E3))&E2&E4). rewrite Hn in Hn'. injection Hn' as <-. rewrite Hc in Hc'. injection Hc' as <- <-. done. }
  unfold health_of. rewrite Hcrit. split.
  - rewrite <- H1. destruct (existsb _ (concat _)); [done|]. by destruct (few ++ _).
  - rewrite <- H2, <- Hnil. destruct (existsb is_critical (concat (queue :: others))) eqn:Ec; [|by destruct (few ++ _)].
    split; [done|]. intros E. rewrite E in Hcrit. cbn in Hcrit. congruence.
Qed.

Lemma main_result m root c p code shown p' : main m root c p = (Ok (code, shown), p') ->
  (code = 2 /\ shown = None) \/ exists doc, shown = Some doc /\ run m root c p = (Ok (code, doc), p').
Proof.
  unfold main, catch. intros H. destruct (run m root c p) as [[[code0 doc]|e] p1] eqn:E; unfold mbind, M_bind in H; rewrite E in H.
  - cbn in H. injection H as <- <- <-. right. by exists doc.
  - destruct (handled _ e); [|done]. cbn in H. injection H as <- <- <-. by left.
Qed.
Lemma existing_store m root p p' : ensure_store m root false p = (Ok tt, p') -> p' = p /\ exists s, p = Directory s.
Proof.
  unfold ensure_store. rewrite m_bind_Ok. intros (p0&p1&Hp&H). apply m_gets_Ok in Hp as [<- <-]. apply m_bind_Ok in H as (u&p2&H1&H).
  assert (H2 : p2 = p /\ p <> Absent).
  { unfold id in H1. destruct p; [|apply m_ret_Ok in H1 as [_ <-]; done..]. apply m_bind_Ok in H1 as (?&?&H1&_). apply m_lift_Ok in H1 as [H1 _]. done. }
  destruct H2 as [-> Hp]. apply m_bind_Ok in H as (p0&p1&Hg&H). apply m_gets_Ok in Hg as [<- <-]. unfold id in H. destruct p as [| |s]; [done|by apply m_lift_Ok in H as [H _]|].
  split; [|by exists s]. destruct (s_meta s) as [read|]; [|by apply m_lift_Ok in H as [H _]].
  apply m_bind_Ok in H as (doc&p1&Hr&H). apply m_lift_Ok in Hr as [_ <-]. apply m_bind_Ok in H as (schema&p1&Hr&H). apply m_lift_Ok in Hr as [_ <-].
  by apply m_lift_Ok in H as [_ <-].
Qed.
Lemma reported m since s r p' : report_of m since (Directory s) = (Ok r, p') -> p' = Directory s /\ exists samples, load_samples m s since = Ok samples /\ build_report samples = Ok r.
Proof.
  unfold report_of. rewrite m_bind_Ok. intros (p0&p1&Hp&H). apply m_gets_Ok in Hp as [<- <-]. unfold id in H.
  apply m_bind_Ok in H as (samples&p1&H1&H). apply m_lift_Ok in H1 as [H1 <-]. apply m_lift_Ok in H as [H <-]. split; [done|]. by exists samples.
Qed.


(** ** Observing a control plane *)

Definition status_of (d : Control.item) : string := py_str (dget_or "status" (VStr "unknown") d).
Definition with_status (status : string) (items : list Control.item) : Z := Z.of_nat (length (List.filter (fun d => String.eqb (status_of d) status) items)).

Lemma tallied_status status items counts :
  default 0 (dget status (fold_left (fun counts d => Control.count (status_of d) counts) items counts)) = default 0 (dget status counts) + with_status status items.
Proof.
  revert counts. unfold with_status. induction items as [|d items IH]; intros counts; [cbn; lia|]. cbn [fold_left List.filter]. rewrite IH. unfold Control.count.
  rewrite dget_dset, (String.eqb_sym status). destruct (String.eqb_spec (status_of d) status) as [->|]; cbn [from_option length]; unfold id; lia.
Qed.
Lemma telemetry_fold o active items counts rows p counts' rows' p' :
  m_fold (fun (acc : dict Z * list (Control.item * value)) d =>
      let '(counts, rows) := acc in
      let status := py_str (dget_or "status" (VStr "unknown") d) in
      let counts := Control.count status counts in
      if String.eqb status "running"
      then row ← Control.telemetry_row o active d; mret (counts, rows ++ [(d, row)])
      else mret (counts, rows)) (counts, rows) items p = (Ok (counts', rows'), p') ->
  counts' = fold_left (fun counts d => Control.count (status_of d) counts) items counts /\
  Z.of_nat (length rows') = Z.of_nat (length rows) + with_status "running" items.
Proof.
  revert counts rows p. induction items as [|d items IH]; intros counts rows p H; cbn [m_fold] in H.
  - apply m_ret_Ok in H as [[= -> ->] _]. split; [done|]. unfold with_status. cbn. lia.
  - apply m_bind_Ok in H as ([counts1 rows1]&p1&Hd&H). apply IH in H as [-> ->]. unfold with_status. cbn [List.filter fold_left].
    change (py_str (dget_or "status" (VStr "unknown") d)) with (status_of d) in Hd. destruct (String.eqb (status_of d) "running") eqn:E; cbn in Hd.
    + apply m_bind_Ok in Hd as (row&p2&_&Hd). apply m_ret_Ok in Hd as [[= <- <-] _]. split; [done|]. rewrite length_app. cbn. lia.
    + apply m_ret_Ok in Hd as [[= <- <-] _]. split; [done|]. lia.
Qed.

Lemma telemetry_counts o (root : string) active p v p' items : Control.make_telemetry o root active p = (Ok v, p') -> Control.load_items root p = (Ok items, p) ->
  exists t counts rows history, res_map id (Control.pl_history p') = Ok history /\
    v = obj [("schema", VStr Control.TELEMETRY_SCHEMA); ("unix", VFloat t); ("paused", VBool (Control.pl_pause p')); ("draining", VBool (Control.pl_drain p'));
             ("global_cancel", VBool (Control.pl_cancel p')); ("counts", counts); ("active", VList rows);
             ("queue_depth", VInt (with_status "queued" items)); ("history_count", VInt (Z.of_nat (length history)))] /\
    Z.of_nat (length rows) = with_status "running" items.
Proof.
  unfold Control.make_telemetry. intros H Hitems. apply m_bind_Ok in H as (items'&p1&H1&H). rewrite Hitems in H1. injection H1 as <- <-.
  apply m_bind_Ok in H as ([counts rows]&p1&Hfold&H). apply telemetry_fold in Hfold as [-> Hrows]. cbn [length] in Hrows.
  apply m_bind_Ok in H as (t&p2&Ht&H). apply m_bind_Ok in H as (q&p3&Hq&H). apply m_gets_Ok in Hq as [<- <-].
  apply m_bind_Ok in H as (history&p3&Hh&H). unfold Control.read_history in Hh. apply m_bind_Ok in Hh as (l&p4&Hl&Hh). apply m_gets_Ok in Hl as [<- <-].
  apply m_lift_Ok in Hh as [Hh <-]. apply m_ret_Ok in H as [<- <-]. do 2 eexists. eexists. exists history. split; [done|]. split; [unfold id; do 10 f_equal|].
  - rewrite tallied_status. cbn. f_equal; lia.
  - rewrite length_fmap, length_py_sorted, Hrows. lia.
Qed.

(** C39: An observation counts the control plane: when the tool answers with the telemetry of a plane, the queue depth of an observation is the
    number of its queued items, the active count that of its running ones, and the markers and the length of the history are those of the plane. *)
Theorem observation_counts_plane m control_root tool slots disk_paths seen o (root : string) active p v p' items :
  Control.make_telemetry o root active p = (Ok v, p') -> Control.load_items root p = (Ok items, p) ->
  (exists out err, h_run m (Campaign.tool_command (h_python m) tool ["status"; h_resolve m control_root; "--json"]) = Exited 0 out err (Ok v)) ->
  collect m control_root tool slots disk_paths = Ok seen ->
  exists control history, dget "control" seen = Some (obj control) /\ res_map id (Control.pl_history p') = Ok history /\
    dget "queue_depth" control = Some (VInt (with_status "queued" items)) /\ dget "active_count" control = Some (VInt (with_status "running" items)) /\
    dget "history_count" control = Some (VInt (Z.of_nat (length history))) /\ dget "paused" control = Some (VBool (Control.pl_pause p')) /\
    dget "draining" control = Some (VBool (Control.pl_drain p')) /\ dget "global_cancel" control = Some (VBool (Control.pl_cancel p')).
Proof.
  intros Htel Hitems (out&err&Hrun) H. destruct (telemetry_counts _ _ _ _ _ _ _ Htel Hitems) as (t&counts&rows&history&Hh&->&Hrows).
  unfold collect, run_json in H. rewrite Hrun in H. cbn [negb Z.eqb mbind res_bind] in H. apply res_bind_Ok in H as (?&_&H).
  apply res_bind_Ok in H as (hist&_&H). apply res_bind_Ok in H as (?&_&H). destruct (dget_or "records" (VList []) hist) as [| | | | |records|]; try done.
  apply res_bind_Ok in H as (control&Hc&H). apply res_bind_Ok in H as (host&_&H). injection H as <-. exists control, history. split; [done|]. split; [done|].
  unfold control_part in Hc. cbn -[runtime_summary Z.of_nat with_status] in Hc. apply res_bind_Ok in Hc as (summary&_&Hc). injection Hc as <-. cbn -[Z.of_nat with_status].
  by rewrite Hrows.
Qed.

(** ** Stored observations *)

Definition samples_of (p : place) : dict (res value) := match p with Directory s => s_samples s | _ => [] end.
Lemma put_sample_keeps name doc p n c : dget n (samples_of p) = Some c -> dget n (samples_of (put_sample name doc p)) = Some c.
Proof.
  destruct p as [| |s]; cbn; [done..|]. intros H. case_match eqn:E; [done|]. rewrite dget_dset_ne; [done|]. intros ->. unfold dmem in E. by rewrite H in E.
Qed.
Section stay.
Context (n : string) (d : res value).
(** A computation that keeps the observation [d] under the name [n]. *)
Definition keeps {A} (c : OM A) : Prop := forall p, dget n (samples_of p) = Some d -> dget n (samples_of (snd (c p))) = Some d.
Lemma keeps_bind {A B} (c : OM A) (f : A -> OM B) : keeps c -> (forall a, keeps (f a)) -> keeps (c ≫= f).
Proof. intros Hc Hf p Hp. unfold mbind, M_bind. specialize (Hc p Hp). destruct (c p) as [[a|e] p1]; [by apply Hf|done]. Qed.
Lemma keeps_lift {A} (r : res A) : keeps (lift r).
Proof. by intros p. Qed.
Lemma keeps_ret {A} (a : A) : keeps (mret a).
Proof. by intros p. Qed.
Lemma keeps_gets {A} (f : place -> A) : keeps (gets f).
Proof. by intros p. Qed.
Local Ltac keep := repeat first [apply keeps_lift | apply keeps_ret | apply keeps_gets | assumption | apply keeps_bind; [|intros]].

Lemma keeps_put name doc : keeps (modify (put_sample name doc)).
Proof. intros p. apply put_sample_keeps. Qed.
Lemma keeps_ensure m root create : keeps (ensure_store m root create).
Proof.
  intros p Hp. destruct p as [| |s]; [done..|]. replace (snd _) with (Directory s); [done|].
  unfold ensure_store, mbind, M_bind, gets, mret, M_ret, lift, id. destruct (s_meta s) as [[doc|e]|]; cbn -[vget]; [|done..].
  cbn -[vget]. by destruct (vget "schema" doc).
Qed.
Lemma keeps_report m since : keeps (report_of m since).
Proof. unfold report_of. apply keeps_bind; [apply keeps_gets|]. unfold id. intros [| |s]; keep. Qed.
Lemma keeps_run m root c : keeps (run m root c).
Proof.
  unfold run, save_sample. apply keeps_bind; [apply keeps_ensure|]. intros _. 
  destruct c; repeat first [apply keeps_report | apply keeps_put | apply keeps_lift | apply keeps_ret | apply keeps_bind; [|intros]].
Qed.
End stay.

(** No command rewrites or removes an observation that was stored. *)
Theorem observations_stay m root c p n d : dget n (samples_of p) = Some d -> dget n (samples_of (snd (main m root c p))) = Some d.
Proof.
  intros Hd. pose proof (keeps_run n d m root c p Hd) as H. unfold main, catch. unfold mbind, M_bind. destruct (run m root c p) as [[[code doc]|e] p1]; [done|].
  by destruct (handled _ e).
Qed.

(** ** Witnesses *)


Definition queue_item (id status : string) (seq : Z) : string * res value :=
  (id, Ok (obj [("schema", VStr Control.ITEM_SCHEMA); ("id", VStr id); ("seq", VInt seq); ("status", VStr status); ("started_unix", VInt 5); ("run_out", VStr "/out")])).
Definition busy_plane : Control.plane :=
  Control.Plane None [queue_item "a" "queued" 1; queue_item "b" "running" 2; queue_item "c" "queued" 3] [Ok (obj [("status", VStr "complete")])] [] true false false [] None None [] 0.
Definition blind : Control.oracle :=
  Control.Oracle (fun _ => of_Z 10) (fun _ _ => true) (fun _ _ => None) (fun _ _ => inr "") (fun _ _ => None) (fun _ _ => None) (fun _ _ => Ok "").
Definition telemetry_now : value := match fst (Control.make_telemetry blind "/control" None busy_plane) with Ok v => v | Raise _ => VNone end.
Definition watching : machine :=
  Machine (fun _ => of_Z 10000) "python3" None [] (fun _ => None)
    (fun cmd => Exited 0 "" "" (Ok (if existsb (String.eqb "status") cmd then telemetry_now
                                    else obj [("schema", VStr "ppc-lab-control-history-v1"); ("records", VList [obj [("status", VStr "complete")]])])))
    (fun p => p) (fun _ => true) (fun _ => Ok (100, 50)) (Some 4) None None.
Definition plane_items : list (dict value) := match fst (Control.load_items "/control" busy_plane) with Ok l => l | Raise _ => [] end.
Definition plane_after : Control.plane := snd (Control.make_telemetry blind "/control" None busy_plane).
Lemma busy_telemetry : Control.make_telemetry blind "/control" None busy_plane = (Ok telemetry_now, plane_after).
Proof. vm_compute. reflexivity. Qed.
Lemma busy_after : Control.pl_history plane_after = Control.pl_history busy_plane /\ Control.pl_pause plane_after = true.
Proof. split; vm_compute; reflexivity. Qed.
Lemma busy_items : Control.load_items "/control" busy_plane = (Ok plane_items, busy_plane).
Proof. vm_compute. reflexivity. Qed.
Lemma busy_counts : with_status "queued" plane_items = 2 /\ with_status "running" plane_items = 1.
Proof. split; vm_compute; reflexivity. Qed.
Lemma observation_counts_plane_witness : exists seen control, collect watching "/control" "/bin/ppc-lab-control" None [] = Ok seen /\
  dget "control" seen = Some (obj control) /\ dget "queue_depth" control = Some (VInt 2) /\ dget "active_count" control = Some (VInt 1) /\
  dget "history_count" control = Some (VInt 1) /\ dget "paused" control = Some (VBool true).
Proof.
  assert (H : exists seen, collect watching "/control" "/bin/ppc-lab-control" None [] = Ok seen) by (eexists; vm_compute; reflexivity). destruct H as [seen H].
  destruct busy_after as [Hh Hpause]. destruct busy_counts as [Hq Hr].
  destruct (observation_counts_plane watching "/control" "/bin/ppc-lab-control" None [] seen blind "/control" None busy_plane telemetry_now plane_after plane_items busy_telemetry busy_items)
    as (control&history&Hc&Hres&H1&H2&H3&H4&_); [by exists "", ""|exact H|].
  exists seen, control. rewrite Hq in H1. rewrite Hr in H2. rewrite Hpause in H4. rewrite Hh in Hres. injection Hres as <-.
  split_and!; [exact H|exact Hc|exact H1|exact H2|exact H3|exact H4].
Defined.
